(* ===== verification/_CoqProject ===== *)
-Q . S2P
Prelude.v
Defs.v
KMonad.v
Lock.v
Mem.v
Kalloc.v
Sched.v
Sleeplock.v
Bio.v
Machine.v
SchedLive.v
Log.v
Vm.v
VmAlloc.v
VmCopy.v
UserMem.v
VmWitness.v
Pipe.v
PipeWitness.v
Uart.v
Fs.v
FsBlock.v
FsInode.v
FsAlloc.v
FsWitness.v
FsFile.v
FsRead.v
FsWrite.v
FsTrunc.v
FsDir.v
FsLink.v
FsFileWitness.v
FsPath.v
Console.v
File.v
FileSpec.v
Proc.v
Exec.v
Sysfile.v
Virtio.v
VirtioSpec.v
Trap.v
TrapSpec.v
Boot.v
Grep.v
Sh.v
Umalloc.v
Usys.v
Ulib.v
UlibSpec.v
Uprogs.v
UprogsSpec.v
Ugrind.v
ShRun.v
Utests.v
UtestsProc.v
UtestsFs.v
UtestsMain.v
System.v
Utest.v
Mkfs.v
MkfsSpec.v
MkfsImage.v
Board.v
