(* ===== verification/Prelude.v ===== *)
(** * FogOS: a verification of the xv6-based teaching kernel for RISC-V

    FogOS (src/) is a small Unix in C: a kernel, a user library with a shell
    and small programs, and the program that builds the disk image.  This
    library translates them into Rocq functions and proves what makes them
    correct.

    ** The program and how its parts interact

    A hart boots through start.c into main.c, which initialises every part and
    enters the scheduler of proc.c.  User programs enter the kernel by traps
    (trap.c); a system call is dispatched by syscall.c to sysproc.c or
    sysfile.c.  File descriptors (file.c) lead to pipes (pipe.c), to the
    console (console.c over uart.c) or to inodes (fs.c).  The file system
    changes blocks only inside a transaction of the write-ahead log (log.c),
    which works on the buffer cache (bio.c), which works on the disk driver
    (virtio_disk.c).  Memory comes from the page allocator (kalloc.c); page
    tables and user memory are vm.c.  Spin locks (spinlock.c) and sleep locks
    (sleeplock.c) protect all of it, with sleep() and wakeup() of proc.c.
    User programs (user/) are linked with ulib.c, printf.c and the allocator
    umalloc.c and make system calls; init starts the shell, which parses a
    line and starts the processes of its commands.  mkfs/mkfs.c runs on the
    host and writes the image that the kernel mounts.

    ** How C becomes Rocq

    - Integers are [Z]; arithmetic that can wrap goes through [u8], [u16],
      [u32], [u64], [i16] or [i32] (below).
    - All global variables and static tables of the kernel are the fields of
      one record, [kstate] (Defs.v).  A pointer into a static table is an index
      ([option] where null is used), a physical or virtual address is a [Z],
      and an index outside its table is a [Fault].  Physical memory is a map
      from addresses to bytes: the free list of kalloc.c and the page tables of
      vm.c are bytes of it.  Trap frames and pipes are kept typed, by the
      address of their page.
    - A kernel function is a computation [K A] (KMonad.v) from a state to an
      outcome: [Done] (it returns), [Panic] (it calls panic()), [Fault]
      (undefined behaviour), [Yield] (it gives up the processor: a spin, a
      swtch(), a wfi, or main() waiting for hart 0; the rest of the function
      is a continuation from whatever state the others produce) and
      [OutOfFuel].
    - [loop n body] runs a C loop for at most [n] iterations.  A loop bounded
      by a table or a size has a bound the code cannot exceed: one more than
      NPROC, NBUF, NINODE, the number of pages, the number of bytes.  A loop
      that waits for another hart, a device or a process uses the class [Fuel];
      the theorems hold for every positive fuel and say that the function
      returns, panics or yields, so none of them holds because fuel ran out.
      Recursion in freewalk() is bounded by the depth of a page table, in
      exec() by a number of nested interpreters, in the shell's parser by four
      times the length of the line ([parsecmd_total] shows this is enough),
      and grep() iterates once per read that delivers something.
    - A user program is an interaction tree over its system calls (Usys.v),
      so a loop without a bound is [ITree.iter]; [run] executes it against any
      system and the theorems say that it ends.  The allocator's searches have
      a number of rounds that [malloc_correct] and [free_correct] show to be
      enough.  Memory is the map from addresses to bytes here too; a string
      that is only read is the list of its characters.
    - mkfs is a function on the image, a map from sectors to bytes.

    ** Code that is not under src/ or not C

    Each is a class, whose laws are documented behaviour and which has an
    instance wherever a theorem uses the laws: [BlockDevice] (what
    virtio_disk_rw() promises to the cache), [Uart] and [UartReady] (the 16550
    chip), [Virtio] and [Plic] (device registers), [KernelImage] (addresses
    fixed by the linker), [TrapVectors] and [BootImage] (assembly entry
    points).  The system as a user program sees it is a class as well: [Sys] and
    [Streams] (Usys.v), [Stream] (Grep.v), [UserHeap] (sbrk() for the allocator).

    ** Files

    Shared:
    - Prelude.v: integers, record update [<| f := v |>], list lemmas, tactics.
    - Defs.v: param.h, riscv.h, memlayout.h and the structures; [kstate].
    - KMonad.v: the monad, loops, the tactic [kstep] and the lemmas it uses.

    Concurrency and processes:
    - Lock.v: spinlock.c, cpuid() and mycpu(); module [SpinSys] is the lock as
      a step relation of many harts.
    - Sched.v: myproc() to scheduler() of proc.c.  SchedLive.v: its fairness.
    - Sleeplock.v: sleeplock.c.
    - Proc.v: procinit() to wait() of proc.c.  Exec.v: argument fetching of
      syscall.c, and exec.c with its #! interpreters.
    - Trap.v: sysproc.c, the dispatch of syscall.c, trap.c, forkret().
      TrapSpec.v: the path of one system call.
    - Boot.v: start.c and main.c.

    Memory:
    - Mem.v: physical memory and string.c.  Kalloc.v: kalloc.c.
    - Vm.v: vm.c with mapping and unmapping.  VmAlloc.v: growing and shrinking
      an address space.  VmCopy.v: copying one.  UserMem.v: copyin, copyout, copyinstr against byte-by-byte
      reference functions.

    Storage:
    - Bio.v: bio.c and the interface [BlockDevice].  Log.v: log.c.
    - Fs.v: fs.c.  FsBlock.v: reading and updating a block inside a
      transaction while other buffers are held, the interface the next ones are
      proved against.  FsAlloc.v: balloc() and bfree().  FsInode.v: inodes on
      disk.  FsFile.v: the blocks of a file and bmap().  FsRead.v: readi().
      FsWrite.v: writei() and what it costs the log.  FsTrunc.v: itrunc().  FsDir.v: iget() and
      dirlookup().  FsLink.v: dirlink().  FsPath.v: path components.
    - File.v: file.c and pipealloc().  FileSpec.v: the pieces of a write.
      Sysfile.v: sysfile.c.
    - Pipe.v: pipe.c.  Virtio.v: virtio_disk.c and plic.c.  VirtioSpec.v: a
      transfer from the request to its completion.

    Terminal: Uart.v (uart.c, printf.c), Console.v (console.c, procdump()).

    User space:
    - Usys.v: the system calls as events, execution of programs.
    - Umalloc.v: umalloc.c.  Ulib.v: ulib.c and printf.c.  UlibSpec.v: fgets()
      and getline().
    - Uprogs.v: cat, wc, echo, ls, ln, kill, mkdir, rm, main() of grep, init,
      zombie, forktest, stressfs.  UprogsSpec.v: cat and wc.  Ugrind.v: grind.c.
    - Grep.v: the matcher and the filter of grep.c.  Sh.v: the parser of sh.c.
      ShRun.v: running commands.  Utest.v: test.c.
    - Utests.v, UtestsProc.v, UtestsFs.v, UtestsMain.v: usertests.c, whose tests
      of arguments and small files, of processes and memory, and of the file
      system are in the first three, with the driver in the last.

    The whole: System.v joins the kernel and its programs into one machine.  A
    program is an interaction tree, its system call a trap with the registers
    and the user memory that the stub of the call leaves; usertrap(), the
    scheduler and kerneltrap() run as the kernel's own code; the answer is what
    the program finds in a0 and in its memory.  The timer interrupts
    a program after [period] rounds of its loops.  Board.v is a concrete machine of this kind.

    Image: Mkfs.v (mkfs.c), MkfsSpec.v (files and iappend()), MkfsImage.v (the
    whole image).

    Machine.v, VmWitness.v, PipeWitness.v, FsWitness.v and FsFileWitness.v build concrete
    machines on which the hypotheses of the theorems hold and apply them there.

    ** What the theorems show

    - Crash safety.  [commit_atomic]: whatever prefix of commit()'s device
      writes reaches the disk before a crash, recovery leaves every block as
      before the transaction or every block as after it.  [end_op_commits],
      [log_write_correct], [begin_op_admission] give the rest of log.c on every
      branch; [reservation_exceeds_log] that its reservation is one block
      larger than the log.
    - Cache.  The linked ring of bio.c refines an abstract cache: bread()
      returns the block's contents, brelse() moves the buffer to the front,
      bget() recycles the least recently used free buffer.
    - Disk.  [virtio_disk_rw_transfers]: the driver queues a request that the
      device can read, sleeps, and after the device, the interrupt handler and
      the scheduler have done their parts it returns with the transfer that the
      cache assumes of a [BlockDevice]; descriptors are not lost.
    - File system.  balloc() takes the lowest free block, zeroes it and changes
      nothing else; bfree() is its inverse or panics; what iupdate() writes,
      ilock() reads back; skipelem() cuts a path at its components.  A file is
      a list of bytes ([idata]) behind direct and indirect blocks, with the
      invariant [inode_ok]: bmap() keeps it, readi() delivers a range of the
      list, writei() replaces or appends one, also when the disk fills up, and
      leaves all other files alone.  dirlookup() is a search of the list of
      entries; dirlink() makes a name found and keeps all others.  A piece of a
      write by filewrite() fits the reservation of its transaction.  itrunc()
      frees exactly the blocks of its file and writes the empty inode.
    - Memory.  kinit(), kfree(), kalloc() refine a stack of free pages.
      walk()/mappages()/uvmunmap()/uvmalloc() on every branch, as changes of
      the translation from virtual to physical addresses, with every other
      translation and all other memory unchanged.  copyin(), copyinstr() and
      copyout() equal byte-by-byte references for all addresses; a copyout()
      followed by a copyin() gives the bytes back.  uvmcopy(), the copying of
      fork(), is all or nothing.  memmove() on overlapping
      ranges, safestrcpy(), strncmp().
    - Concurrency.  Mutual exclusion of spin locks and exactness of holding()
      under every interleaving; sleep() releases the lock before it gives up
      the processor and has it again when it returns; wakeup() makes exactly
      the sleepers on its channel runnable; within one round of the scheduler
      every runnable process is run.
    - Pipes are FIFO queues of PIPESIZE bytes, also when the 32-bit counters
      wrap; a writer that finds the ring full wakes the readers and sleeps.
    - Traps.  A system call from user space runs the function the table names,
      stores its result in a0 and returns behind the ecall instruction.
    - Output.  The digits printint() sends denote the number printed.
    - grep.  match() equals a declarative semantics of its patterns; grep()
      prints the matching lines of its input, in order, when they fit its buffer.
    - sh.  parsecmd() ends on every line: with a command or with a message.
      [run_line_launches]: the processes started for a line are exactly its
      programs, each with the arguments and the descriptors the line says.
    - Allocator.  malloc() and free() keep free and allocated blocks a partition
      of the heap, with the free blocks in a ring without neighbours, and never
      touch allocated memory; getline() is built on them.
    - Programs.  cat copies, wc counts, test compares, atoi() reads what printf()
      prints, for every system and every way of splitting the input.
    - The system.  [kernel_passes_usertests]: with the kernel of this library
      under them, tests of usertests.c return, one of them in a child process.
      It is an evaluation of the whole machine: at most 1000 steps, with a fuel
      of 20 for waiting loops, both found by evaluating it.
    - grind.  do_rand() is the generator of Park and Miller, without overflow.
    - mkfs.  iappend() extends a file through direct and indirect blocks;
      [mkfs_correct] describes the whole image byte by byte, in the encoding
      that Fs.v reads.

    ** What is not modelled

    - ramdisk.c, which the Makefile does not link, and the assembly files; what
      a trap and sret do to the registers the C code uses is in System.v.
    - Weak memory: memory is sequentially consistent and fences do nothing.
    - Inside a kernel function, harts interleave only at its [Yield]s; the
      spin lock is treated at single memory accesses, by [SpinSys].
    - Timer interrupts in the middle of a kernel function; in System.v they come
      in a loop of a program or while the hart waits.  System.v has one hart.

    Without a general theorem, though modelled and run on the board of Board.v
    or as examples: iput() and namex(), fork(), exit() and wait(), exec(), the
    line editing of console.c. *)

From stdpp Require Export base tactics numbers list gmap strings.
From Stdlib Require Export Lia ZArith.

#[global] Open Scope Z_scope.

(** ** Machine integers

    A C integer of width [w] is a [Z]; arithmetic that can wrap goes through
    the truncation of its type ([uchar], [ushort], [uint], [uint64] of
    types.h). *)

Definition u8 (x : Z) : Z := x `mod` 2 ^ 8.
Definition u16 (x : Z) : Z := x `mod` 2 ^ 16.
Definition u32 (x : Z) : Z := x `mod` 2 ^ 32.
Definition u64 (x : Z) : Z := x `mod` 2 ^ 64.

(** Conversion to a signed 32-bit or 16-bit [int]/[short]. *)
Definition i32 (x : Z) : Z := (x + 2 ^ 31) `mod` 2 ^ 32 - 2 ^ 31.
Definition i16 (x : Z) : Z := (x + 2 ^ 15) `mod` 2 ^ 16 - 2 ^ 15.

(** C truth values. *)
Definition b2z (b : bool) : Z := if b then 1 else 0.
Definition z2b (z : Z) : bool := negb (z =? 0).

Lemma u8_range x : 0 <= u8 x < 256.
Proof. unfold u8. apply Z.mod_pos_bound. lia. Qed.
Lemma u32_range x : 0 <= u32 x < 2 ^ 32.
Proof. unfold u32. apply Z.mod_pos_bound. lia. Qed.
Lemma u64_range x : 0 <= u64 x < 2 ^ 64.
Proof. unfold u64. apply Z.mod_pos_bound. lia. Qed.
Lemma u8_small x : 0 <= x < 256 -> u8 x = x.
Proof. intros. unfold u8. by apply Z.mod_small. Qed.
Lemma u32_small x : 0 <= x < 2 ^ 32 -> u32 x = x.
Proof. intros. unfold u32. by apply Z.mod_small. Qed.
Lemma i32_small x : - 2 ^ 31 <= x < 2 ^ 31 -> i32 x = x.
Proof. intros. unfold i32. rewrite Z.mod_small by lia. lia. Qed.
Lemma u64_small x : 0 <= x < 2 ^ 64 -> u64 x = x.
Proof. intros. unfold u64. by apply Z.mod_small. Qed.

(** Linear arithmetic with division and remainder by constants. *)
Ltac dlia := Z.to_euclidean_division_equations; lia.

(** ** Functional record update

    [s <| f := v |>] rebuilds the record [s] with field [f] replaced and
    [s <| f ::= g |>] applies [g] to the field.  A record type declares its
    eta expansion once ([Eta]); the setter of each field is derived from it. *)

Class Eta (R : Type) := eta : R -> R.
Class Field {R T : Type} (proj : R -> T) := upd : (T -> T) -> R -> R.
Arguments upd {R T} proj {_} _ _ /.

Ltac derive_field proj :=
  lazymatch type of proj with
  | ?R -> ?T =>
    let e := eval hnf in (_ : Eta R) in
    lazymatch eval pattern proj in e with
    | ?build _ =>
      let t := eval cbv beta in (fun (g : T -> T) => build (fun r => g (proj r)))
      in exact t
    end
  end.

Notation "s <| f := v |>" := (upd f (fun _ => v) s)
  (at level 1, f at level 0, left associativity).
Notation "s <| f ::= g |>" := (upd f g s)
  (at level 1, f at level 0, left associativity).

(** ** Lists and maps *)

Lemma list_alter_id_at {X} (f : X -> X) (l : list X) i x :
  l !! i = Some x -> f x = x -> alter f i l = l.
Proof.
  revert i. induction l as [|y l IH]; intros [|i] Hi Hf; simplify_eq/=; f_equal; auto.
Qed.

Lemma list_alter_insert_at {X} (f : X -> X) (l : list X) i x :
  l !! i = Some x -> alter f i l = <[i := f x]> l.
Proof.
  revert i. induction l as [|y l IH]; intros [|i] Hi; simplify_eq/=; f_equal; auto.
Qed.

(** [patch l off bs] overwrites the bytes of an array [l] from offset [off]. *)
Definition patch (l : list Z) (off : nat) (bs : list Z) : list Z :=
  take off l ++ bs ++ drop (off + length bs) l.

Lemma length_patch l off bs :
  (off + length bs <= length l)%nat -> length (patch l off bs) = length l.
Proof. intros. unfold patch. rewrite !length_app, length_take, length_drop. lia. Qed.

Lemma patch_all l bs : length bs = length l -> patch l 0 bs = bs.
Proof. intros H. unfold patch. cbn. by rewrite H, drop_all, app_nil_r. Qed.

Lemma patch_lookup l off bs (i : nat) :
  (off + length bs <= length l)%nat ->
  patch l off bs !! i
  = if decide (off <= i < off + length bs)%nat then bs !! (i - off)%nat else l !! i.
Proof.
  intros Hle. unfold patch. case_decide as H.
  - rewrite lookup_app_r; rewrite length_take; [|lia].
    rewrite lookup_app_l; [f_equal; lia|lia].
  - destruct (decide (i < off)%nat).
    + rewrite lookup_app_l; [apply lookup_take_lt; lia|rewrite length_take; lia].
    + rewrite lookup_app_r; rewrite length_take; [|lia].
      rewrite lookup_app_r; [|lia]. rewrite lookup_drop. f_equal. lia.
Qed.

(** The first element of a list that satisfies a decidable property. *)
Lemma first_split {X} (P : X -> Prop) `{forall x, Decision (P x)} (l : list X) x :
  x ∈ l -> P x -> exists l1 y l2, l = l1 ++ y :: l2 /\ P y /\ forall z, z ∈ l1 -> ~ P z.
Proof.
  induction l as [|z l IH]; intros Hin HP; [by apply elem_of_nil in Hin|].
  destruct (decide (P z)) as [Hz|Hz].
  { exists [], z, l. split_and!; [done|done|]. intros ? []%elem_of_nil. }
  apply elem_of_cons in Hin as [->|Hin]; [done|].
  destruct (IH Hin HP) as (l1 & y & l2 & -> & Hy & Hl1). exists (z :: l1), y, l2.
  split_and!; [done|done|]. intros w [->|Hw]%elem_of_cons; auto.
Qed.

Lemma filter_shorter {X} (P : X -> Prop) `{forall x, Decision (P x)} (l : list X) :
  (length (filter P l) < length l)%nat -> exists (i : nat) x, l !! i = Some x /\ ~ P x.
Proof.
  induction l as [|x l IH]; [cbn; lia|]. rewrite filter_cons. case_decide as HP.
  - cbn [length]. intros Hlt. destruct IH as (i & y & Hi & Hy); [lia|]. by exists (S i), y.
  - intros _. by exists 0%nat, x.
Qed.

(** How replacing one element changes the number of those with a property. *)
Lemma filter_alter {X} (P : X -> Prop) `{forall x, Decision (P x)} (f : X -> X) (l : list X) i x :
  l !! i = Some x ->
  (length (filter P (alter f i l)) + (if decide (P x) then 1 else 0)
   = length (filter P l) + (if decide (P (f x)) then 1 else 0))%nat.
Proof.
  revert i. induction l as [|y l IH]; intros [|i] Hi; try done.
  - injection Hi as ->. change (alter f 0%nat (x :: l)) with (f x :: l).
    rewrite !filter_cons. repeat case_decide; cbn [length]; lia.
  - change (alter f (S i) (y :: l)) with (y :: alter f i l).
    specialize (IH i Hi). rewrite !filter_cons. destruct (decide (P y)); cbn [length]; lia.
Qed.
