(* ===== verification/Defs.v ===== *)
(** * Constants, structures and the kernel state.

    The constants and structures of the kernel's headers (param.h, riscv.h,
    memlayout.h, spinlock.h, sleeplock.h, proc.h, buf.h, file.h, fs.h, stat.h)
    and of the global variables of its C files, gathered in one record
    [kstate] that every operation of the model transforms.

    Pointers into a static table ([struct proc *], [struct buf *],
    [struct inode *], [struct file *]) are indices, nullable ones options;
    physical and virtual addresses are [Z] with 0 as the null pointer. *)

From S2P Require Import Prelude.

(** ** param.h *)

Definition NPROC : nat := 64.
Definition NCPU : nat := 8.
Definition NOFILE : nat := 16.
Definition NFILE : nat := 100.
Definition NINODE : nat := 50.
Definition NDEV : Z := 10.
Definition ROOTDEV : Z := 1.
Definition MAXARG : nat := 32.
Definition MAXOPBLOCKS : Z := 10.
Definition LOGSIZE : Z := MAXOPBLOCKS * 3.
Definition NBUF : nat := 30.
Definition FSSIZE : Z := 2000.
Definition MAXPATH : Z := 128.

(** ** riscv.h: pages and page-table entries *)

Definition PGSIZE : Z := 4096.
Definition PGSHIFT : Z := 12.
Definition PGROUNDUP (sz : Z) : Z := Z.land (u64 (sz + PGSIZE - 1)) (u64 (Z.lnot (PGSIZE - 1))).
Definition PGROUNDDOWN (a : Z) : Z := Z.land a (u64 (Z.lnot (PGSIZE - 1))).

Definition PTE_V : Z := Z.shiftl 1 0.
Definition PTE_R : Z := Z.shiftl 1 1.
Definition PTE_W : Z := Z.shiftl 1 2.
Definition PTE_X : Z := Z.shiftl 1 3.
Definition PTE_U : Z := Z.shiftl 1 4.

Definition PA2PTE (pa : Z) : Z := u64 (Z.shiftl (Z.shiftr pa 12) 10).
Definition PTE2PA (pte : Z) : Z := u64 (Z.shiftl (Z.shiftr pte 10) 12).
Definition PTE_FLAGS (pte : Z) : Z := Z.land pte 0x3FF.

Definition PXMASK : Z := 0x1FF.
Definition PXSHIFT (level : Z) : Z := PGSHIFT + 9 * level.
Definition PX (level va : Z) : Z := Z.land (Z.shiftr va (PXSHIFT level)) PXMASK.
Definition MAXVA : Z := Z.shiftl 1 (9 + 9 + 9 + 12 - 1).

(** Rounding to a page boundary is division by the page size. *)
Lemma page_mask x :
  0 <= x < 2 ^ 64 -> Z.land x (u64 (Z.lnot (PGSIZE - 1))) = x / PGSIZE * PGSIZE.
Proof.
  intros Hx. change (u64 (Z.lnot (PGSIZE - 1))) with (Z.ldiff (Z.ones 64) (Z.ones 12)).
  assert (Z.land x (Z.ldiff (Z.ones 64) (Z.ones 12)) = Z.ldiff x (Z.ones 12)) as ->.
  { apply Z.bits_inj'. intros n Hn. rewrite Z.land_spec, !Z.ldiff_spec.
    destruct (decide (n < 64)); [by rewrite (Z.ones_spec_low 64) by lia|].
    assert (Z.testbit x n = false) as ->; [|done].
    destruct (decide (x = 0)) as [->|]; [apply Z.testbit_0_l|].
    apply Z.bits_above_log2; [lia|]. apply Z.lt_le_trans with 64; [|lia].
    apply Z.log2_lt_pow2; lia. }
  rewrite Z.ldiff_ones_r by lia. by rewrite Z.shiftl_mul_pow2, Z.shiftr_div_pow2 by lia.
Qed.

Lemma PGROUNDDOWN_eq a : 0 <= a < 2 ^ 64 -> PGROUNDDOWN a = a / PGSIZE * PGSIZE.
Proof. apply page_mask. Qed.

Lemma PGROUNDUP_eq a :
  0 <= a -> a + PGSIZE <= 2 ^ 64 -> PGROUNDUP a = (a + PGSIZE - 1) / PGSIZE * PGSIZE.
Proof.
  intros Ha Hb. unfold PGROUNDUP. rewrite page_mask by apply u64_range.
  by rewrite u64_small by (unfold PGSIZE in *; lia).
Qed.

Lemma PGROUNDDOWN_aligned a : 0 <= a < 2 ^ 64 -> a `mod` PGSIZE = 0 -> PGROUNDDOWN a = a.
Proof.
  intros Ha Hm. rewrite PGROUNDDOWN_eq by done. unfold PGSIZE in *. dlia.
Qed.

Lemma PGROUNDUP_range a :
  0 <= a -> a + PGSIZE <= 2 ^ 64 ->
  PGROUNDUP a `mod` PGSIZE = 0 /\ a <= PGROUNDUP a < a + PGSIZE.
Proof.
  intros Ha Hb. rewrite PGROUNDUP_eq by done. unfold PGSIZE in *.
  split; [apply Z_mod_mult|]. dlia.
Qed.

(** ** memlayout.h *)

Definition UART0 : Z := 0x10000000.
Definition VIRTIO0 : Z := 0x10001000.
Definition PLIC : Z := 0x0c000000.
Definition KERNBASE : Z := 0x80000000.
Definition PHYSTOP : Z := KERNBASE + 128 * 1024 * 1024.
Definition TRAMPOLINE : Z := MAXVA - PGSIZE.
Definition KSTACK (p : Z) : Z := TRAMPOLINE - (p + 1) * 2 * PGSIZE.
Definition TRAPFRAME : Z := TRAMPOLINE - PGSIZE.

(** ** fs.h: the on-disk format *)

Definition ROOTINO : Z := 1.
Definition BSIZE : Z := 1024.
Definition FSMAGIC : Z := 0x10203040.
Definition NDIRECT : Z := 12.
Definition NINDIRECT : Z := BSIZE / 4.
Definition MAXFILE : Z := NDIRECT + NINDIRECT.
Definition DINODE_SIZE : Z := 64. (* sizeof(struct dinode) *)
Definition IPB : Z := BSIZE / DINODE_SIZE.
Definition BPB : Z := BSIZE * 8.
Definition DIRSIZ : Z := 14.
Definition DIRENT_SIZE : Z := 16. (* sizeof(struct dirent) *)

(** ** stat.h, fcntl.h, file.h, pipe.c *)

Definition T_DIR : Z := 1.
Definition T_FILE : Z := 2.
Definition T_DEVICE : Z := 3.
Definition O_RDONLY : Z := 0x000.
Definition O_WRONLY : Z := 0x001.
Definition O_RDWR : Z := 0x002.
Definition O_CREATE : Z := 0x200.
Definition O_TRUNC : Z := 0x400.
Definition CONSOLE : Z := 1.
Definition PIPESIZE : Z := 512.

(** ** Names of locks and sleep channels

    Every [struct spinlock] of the kernel is named by the object that holds
    it, every [struct sleeplock] likewise; a sleep channel is the address
    passed to [sleep] and [wakeup]. *)

Inductive slockid := SL_buf (b : nat) | SL_inode (i : nat).

Inductive lockid :=
  | L_kmem | L_pid | L_wait | L_proc (p : nat) | L_bcache | L_sleep (sl : slockid)
  | L_log | L_itable | L_ftable | L_pipe (pi : Z) | L_cons | L_uart_tx | L_pr
  | L_ticks | L_vdisk.

Inductive chan :=
  | Ch_sleeplock (sl : slockid) | Ch_proc (p : nat) | Ch_log | Ch_nread (pi : Z)
  | Ch_nwrite (pi : Z) | Ch_cons | Ch_ticks | Ch_uart | Ch_buf (b : nat) | Ch_vdisk.

#[global] Instance slockid_eq_dec : EqDecision slockid.
Proof. solve_decision. Defined.
#[global] Instance lockid_eq_dec : EqDecision lockid.
Proof. solve_decision. Defined.
#[global] Instance chan_eq_dec : EqDecision chan.
Proof. solve_decision. Defined.

Definition slockid_code (sl : slockid) : nat * nat :=
  match sl with SL_buf b => (0, b)%nat | SL_inode i => (1, i)%nat end.
Definition slockid_decode (c : nat * nat) : slockid :=
  match c with (O, b) => SL_buf b | (_, i) => SL_inode i end.
#[global] Instance slockid_countable : Countable slockid.
Proof. apply (inj_countable' slockid_code slockid_decode). by intros []. Defined.

Definition lockid_code (l : lockid) : nat * (nat * slockid * Z) :=
  let z := SL_buf 0 in
  match l with
  | L_kmem => (0, (0, z, 0%Z)) | L_pid => (1, (0, z, 0%Z)) | L_wait => (2, (0, z, 0%Z))
  | L_proc p => (3, (p, z, 0%Z)) | L_bcache => (4, (0, z, 0%Z))
  | L_sleep sl => (5, (0, sl, 0%Z)) | L_log => (6, (0, z, 0%Z))
  | L_itable => (7, (0, z, 0%Z)) | L_ftable => (8, (0, z, 0%Z))
  | L_pipe pi => (9, (0, z, pi)) | L_cons => (10, (0, z, 0%Z))
  | L_uart_tx => (11, (0, z, 0%Z)) | L_pr => (12, (0, z, 0%Z))
  | L_ticks => (13, (0, z, 0%Z)) | L_vdisk => (14, (0, z, 0%Z))
  end%nat.
Definition lockid_decode (c : nat * (nat * slockid * Z)) : lockid :=
  match c with
  | (0, _) => L_kmem | (1, _) => L_pid | (2, _) => L_wait | (3, (p, _, _)) => L_proc p
  | (4, _) => L_bcache | (5, (_, sl, _)) => L_sleep sl | (6, _) => L_log
  | (7, _) => L_itable | (8, _) => L_ftable | (9, (_, _, pi)) => L_pipe pi
  | (10, _) => L_cons | (11, _) => L_uart_tx | (12, _) => L_pr | (13, _) => L_ticks
  | _ => L_vdisk
  end%nat.
#[global] Instance lockid_countable : Countable lockid.
Proof. apply (inj_countable' lockid_code lockid_decode). by intros []. Defined.

(** ** Structures *)

(** spinlock.h: [struct spinlock]. *)
Record spinlock := mk_spinlock {
  lk_locked : Z;  (* is the lock held? *)
  lk_name : string;  (* for debugging *)
  lk_cpu : option nat  (* the cpu holding it *)
}.
#[global] Instance eta_spinlock : Eta spinlock := fun s =>
  mk_spinlock (lk_locked s) (lk_name s) (lk_cpu s).
#[global] Instance set_lk_locked : Field lk_locked := ltac:(derive_field lk_locked).
#[global] Instance set_lk_name : Field lk_name := ltac:(derive_field lk_name).
#[global] Instance set_lk_cpu : Field lk_cpu := ltac:(derive_field lk_cpu).

(** sleeplock.h: [struct sleeplock]; its inner spinlock is [L_sleep] of its name. *)
Record sleeplock := mk_sleeplock {
  sl_locked : Z;  (* is the lock held? *)
  sl_name : string;
  sl_pid : Z  (* process holding the lock *)
}.
#[global] Instance eta_sleeplock : Eta sleeplock := fun s =>
  mk_sleeplock (sl_locked s) (sl_name s) (sl_pid s).
#[global] Instance set_sl_locked : Field sl_locked := ltac:(derive_field sl_locked).
#[global] Instance set_sl_name : Field sl_name := ltac:(derive_field sl_name).
#[global] Instance set_sl_pid : Field sl_pid := ltac:(derive_field sl_pid).

(** proc.h: [struct context], the registers saved by swtch. *)
Record context := mk_context {
  ctx_ra : Z;
  ctx_sp : Z;
  ctx_s : list Z  (* s0 .. s11, callee-saved *)
}.
#[global] Instance eta_context : Eta context := fun s =>
  mk_context (ctx_ra s) (ctx_sp s) (ctx_s s).
#[global] Instance set_ctx_ra : Field ctx_ra := ltac:(derive_field ctx_ra).
#[global] Instance set_ctx_sp : Field ctx_sp := ltac:(derive_field ctx_sp).
#[global] Instance set_ctx_s : Field ctx_s := ltac:(derive_field ctx_s).

(** proc.h: [struct cpu] (its scheduler context is the continuation of the scheduler's own swtch call). *)
Record cpu := mk_cpu {
  c_proc : option nat;  (* the process running on this cpu, or null *)
  c_noff : Z;  (* depth of push_off() nesting *)
  c_intena : Z  (* were interrupts enabled before push_off()? *)
}.
#[global] Instance eta_cpu : Eta cpu := fun s =>
  mk_cpu (c_proc s) (c_noff s) (c_intena s).
#[global] Instance set_c_proc : Field c_proc := ltac:(derive_field c_proc).
#[global] Instance set_c_noff : Field c_noff := ltac:(derive_field c_noff).
#[global] Instance set_c_intena : Field c_intena := ltac:(derive_field c_intena).

(** proc.h: [struct trapframe]. *)
Record trapframe := mk_trapframe {
  tf_kernel_satp : Z;
  tf_kernel_sp : Z;
  tf_kernel_trap : Z;
  tf_epc : Z;
  tf_kernel_hartid : Z;
  tf_ra : Z;
  tf_sp : Z;
  tf_gp : Z;
  tf_tp : Z;
  tf_t0 : Z;
  tf_t1 : Z;
  tf_t2 : Z;
  tf_s0 : Z;
  tf_s1 : Z;
  tf_a0 : Z;
  tf_a1 : Z;
  tf_a2 : Z;
  tf_a3 : Z;
  tf_a4 : Z;
  tf_a5 : Z;
  tf_a6 : Z;
  tf_a7 : Z;
  tf_s2 : Z;
  tf_s3 : Z;
  tf_s4 : Z;
  tf_s5 : Z;
  tf_s6 : Z;
  tf_s7 : Z;
  tf_s8 : Z;
  tf_s9 : Z;
  tf_s10 : Z;
  tf_s11 : Z;
  tf_t3 : Z;
  tf_t4 : Z;
  tf_t5 : Z;
  tf_t6 : Z
}.
#[global] Instance eta_trapframe : Eta trapframe := fun s =>
  mk_trapframe (tf_kernel_satp s) (tf_kernel_sp s) (tf_kernel_trap s)
    (tf_epc s) (tf_kernel_hartid s) (tf_ra s) (tf_sp s) (tf_gp s) (tf_tp s)
    (tf_t0 s) (tf_t1 s) (tf_t2 s) (tf_s0 s) (tf_s1 s) (tf_a0 s) (tf_a1 s)
    (tf_a2 s) (tf_a3 s) (tf_a4 s) (tf_a5 s) (tf_a6 s) (tf_a7 s) (tf_s2 s)
    (tf_s3 s) (tf_s4 s) (tf_s5 s) (tf_s6 s) (tf_s7 s) (tf_s8 s) (tf_s9 s)
    (tf_s10 s) (tf_s11 s) (tf_t3 s) (tf_t4 s) (tf_t5 s) (tf_t6 s).
#[global] Instance set_tf_kernel_satp : Field tf_kernel_satp := ltac:(derive_field tf_kernel_satp).
#[global] Instance set_tf_kernel_sp : Field tf_kernel_sp := ltac:(derive_field tf_kernel_sp).
#[global] Instance set_tf_kernel_trap : Field tf_kernel_trap := ltac:(derive_field tf_kernel_trap).
#[global] Instance set_tf_epc : Field tf_epc := ltac:(derive_field tf_epc).
#[global] Instance set_tf_kernel_hartid : Field tf_kernel_hartid := ltac:(derive_field tf_kernel_hartid).
#[global] Instance set_tf_sp : Field tf_sp := ltac:(derive_field tf_sp).
#[global] Instance set_tf_a0 : Field tf_a0 := ltac:(derive_field tf_a0).
#[global] Instance set_tf_a1 : Field tf_a1 := ltac:(derive_field tf_a1).

(** proc.h: [enum procstate]. *)
Inductive procstate := UNUSED | USED | SLEEPING | RUNNABLE | RUNNING | ZOMBIE.
#[global] Instance procstate_eq_dec : EqDecision procstate.
Proof. solve_decision. Defined.

(** proc.h: [struct proc]; its lock is [L_proc]. *)
Record proc := mk_proc {
  p_state : procstate;  (* process state *)
  p_chan : option chan;  (* if non-zero, sleeping on chan *)
  p_killed : Z;  (* if non-zero, have been killed *)
  p_xstate : Z;  (* exit status for the parent's wait *)
  p_pid : Z;  (* process ID *)
  p_parent : option nat;  (* parent process *)
  p_kstack : Z;  (* virtual address of kernel stack *)
  p_sz : Z;  (* size of process memory (bytes) *)
  p_pagetable : Z;  (* user page table *)
  p_trapframe : Z;  (* data page for trampoline.S *)
  p_context : context;  (* swtch() here to run process *)
  p_ofile : list (option nat);  (* open files *)
  p_cwd : option nat;  (* current directory *)
  p_name : list Z  (* process name (debugging) *)
}.
#[global] Instance eta_proc : Eta proc := fun s =>
  mk_proc (p_state s) (p_chan s) (p_killed s) (p_xstate s) (p_pid s)
    (p_parent s) (p_kstack s) (p_sz s) (p_pagetable s) (p_trapframe s)
    (p_context s) (p_ofile s) (p_cwd s) (p_name s).
#[global] Instance set_p_state : Field p_state := ltac:(derive_field p_state).
#[global] Instance set_p_chan : Field p_chan := ltac:(derive_field p_chan).
#[global] Instance set_p_killed : Field p_killed := ltac:(derive_field p_killed).
#[global] Instance set_p_xstate : Field p_xstate := ltac:(derive_field p_xstate).
#[global] Instance set_p_pid : Field p_pid := ltac:(derive_field p_pid).
#[global] Instance set_p_parent : Field p_parent := ltac:(derive_field p_parent).
#[global] Instance set_p_kstack : Field p_kstack := ltac:(derive_field p_kstack).
#[global] Instance set_p_sz : Field p_sz := ltac:(derive_field p_sz).
#[global] Instance set_p_pagetable : Field p_pagetable := ltac:(derive_field p_pagetable).
#[global] Instance set_p_trapframe : Field p_trapframe := ltac:(derive_field p_trapframe).
#[global] Instance set_p_context : Field p_context := ltac:(derive_field p_context).
#[global] Instance set_p_ofile : Field p_ofile := ltac:(derive_field p_ofile).
#[global] Instance set_p_cwd : Field p_cwd := ltac:(derive_field p_cwd).
#[global] Instance set_p_name : Field p_name := ltac:(derive_field p_name).

(** buf.h: [struct buf]; its sleep lock is [SL_buf]. The links are indices into [bcache.buf], with [NBUF] for [&bcache.head]. *)
Record buf := mk_buf {
  b_valid : Z;  (* has data been read from disk? *)
  b_disk : Z;  (* does disk own buf? *)
  b_dev : Z;
  b_blockno : Z;
  b_refcnt : Z;
  b_prev : nat;  (* LRU cache list *)
  b_next : nat;
  b_data : list Z  (* BSIZE bytes *)
}.
#[global] Instance eta_buf : Eta buf := fun s =>
  mk_buf (b_valid s) (b_disk s) (b_dev s) (b_blockno s) (b_refcnt s)
    (b_prev s) (b_next s) (b_data s).
#[global] Instance set_b_valid : Field b_valid := ltac:(derive_field b_valid).
#[global] Instance set_b_disk : Field b_disk := ltac:(derive_field b_disk).
#[global] Instance set_b_dev : Field b_dev := ltac:(derive_field b_dev).
#[global] Instance set_b_blockno : Field b_blockno := ltac:(derive_field b_blockno).
#[global] Instance set_b_refcnt : Field b_refcnt := ltac:(derive_field b_refcnt).
#[global] Instance set_b_prev : Field b_prev := ltac:(derive_field b_prev).
#[global] Instance set_b_next : Field b_next := ltac:(derive_field b_next).
#[global] Instance set_b_data : Field b_data := ltac:(derive_field b_data).

(** file.h: the type tag of [struct file]. *)
Inductive filetype := FD_NONE | FD_PIPE | FD_INODE | FD_DEVICE.
#[global] Instance filetype_eq_dec : EqDecision filetype.
Proof. solve_decision. Defined.

(** file.h: [struct file]. *)
Record file := mk_file {
  f_type : filetype;
  f_ref : Z;  (* reference count *)
  f_readable : Z;
  f_writable : Z;
  f_pipe : Z;  (* FD_PIPE *)
  f_ip : option nat;  (* FD_INODE and FD_DEVICE *)
  f_off : Z;  (* FD_INODE *)
  f_major : Z  (* FD_DEVICE *)
}.
#[global] Instance eta_file : Eta file := fun s =>
  mk_file (f_type s) (f_ref s) (f_readable s) (f_writable s) (f_pipe s)
    (f_ip s) (f_off s) (f_major s).
#[global] Instance set_f_type : Field f_type := ltac:(derive_field f_type).
#[global] Instance set_f_ref : Field f_ref := ltac:(derive_field f_ref).
#[global] Instance set_f_readable : Field f_readable := ltac:(derive_field f_readable).
#[global] Instance set_f_writable : Field f_writable := ltac:(derive_field f_writable).
#[global] Instance set_f_pipe : Field f_pipe := ltac:(derive_field f_pipe).
#[global] Instance set_f_ip : Field f_ip := ltac:(derive_field f_ip).
#[global] Instance set_f_off : Field f_off := ltac:(derive_field f_off).
#[global] Instance set_f_major : Field f_major := ltac:(derive_field f_major).

(** file.h: [struct inode], the in-memory copy of an inode; its sleep lock is [SL_inode]. *)
Record inode := mk_inode {
  i_dev : Z;  (* device number *)
  i_inum : Z;  (* inode number *)
  i_ref : Z;  (* reference count *)
  i_valid : Z;  (* inode has been read from disk? *)
  i_type : Z;  (* copy of disk inode *)
  i_major : Z;
  i_minor : Z;
  i_nlink : Z;
  i_size : Z;
  i_addrs : list Z  (* NDIRECT+1 block addresses *)
}.
#[global] Instance eta_inode : Eta inode := fun s =>
  mk_inode (i_dev s) (i_inum s) (i_ref s) (i_valid s) (i_type s) (i_major s)
    (i_minor s) (i_nlink s) (i_size s) (i_addrs s).
#[global] Instance set_i_dev : Field i_dev := ltac:(derive_field i_dev).
#[global] Instance set_i_inum : Field i_inum := ltac:(derive_field i_inum).
#[global] Instance set_i_ref : Field i_ref := ltac:(derive_field i_ref).
#[global] Instance set_i_valid : Field i_valid := ltac:(derive_field i_valid).
#[global] Instance set_i_type : Field i_type := ltac:(derive_field i_type).
#[global] Instance set_i_major : Field i_major := ltac:(derive_field i_major).
#[global] Instance set_i_minor : Field i_minor := ltac:(derive_field i_minor).
#[global] Instance set_i_nlink : Field i_nlink := ltac:(derive_field i_nlink).
#[global] Instance set_i_size : Field i_size := ltac:(derive_field i_size).
#[global] Instance set_i_addrs : Field i_addrs := ltac:(derive_field i_addrs).

(** fs.h: [struct superblock]. *)
Record superblock := mk_superblock {
  sb_magic : Z;  (* must be FSMAGIC *)
  sb_size : Z;  (* size of file system image (blocks) *)
  sb_nblocks : Z;  (* number of data blocks *)
  sb_ninodes : Z;  (* number of inodes *)
  sb_nlog : Z;  (* number of log blocks *)
  sb_logstart : Z;  (* block number of first log block *)
  sb_inodestart : Z;  (* block number of first inode block *)
  sb_bmapstart : Z  (* block number of first free map block *)
}.
#[global] Instance eta_superblock : Eta superblock := fun s =>
  mk_superblock (sb_magic s) (sb_size s) (sb_nblocks s) (sb_ninodes s)
    (sb_nlog s) (sb_logstart s) (sb_inodestart s) (sb_bmapstart s).

(** fs.h: [struct dinode], the on-disk inode. *)
Record dinode := mk_dinode {
  d_type : Z;
  d_major : Z;
  d_minor : Z;
  d_nlink : Z;
  d_size : Z;
  d_addrs : list Z
}.
#[global] Instance eta_dinode : Eta dinode := fun s =>
  mk_dinode (d_type s) (d_major s) (d_minor s) (d_nlink s) (d_size s)
    (d_addrs s).
#[global] Instance set_d_type : Field d_type := ltac:(derive_field d_type).

(** log.c: [struct logheader]. *)
Record logheader := mk_logheader {
  lh_n : Z;
  lh_block : list Z  (* LOGSIZE block numbers *)
}.
#[global] Instance eta_logheader : Eta logheader := fun s =>
  mk_logheader (lh_n s) (lh_block s).
#[global] Instance set_lh_n : Field lh_n := ltac:(derive_field lh_n).
#[global] Instance set_lh_block : Field lh_block := ltac:(derive_field lh_block).

(** log.c: [struct log]. *)
Record logst := mk_logst {
  log_start : Z;
  log_size : Z;
  log_outstanding : Z;  (* how many FS sys calls are executing *)
  log_committing : Z;  (* in commit(), please wait *)
  log_dev : Z;
  log_lh : logheader
}.
#[global] Instance eta_logst : Eta logst := fun s =>
  mk_logst (log_start s) (log_size s) (log_outstanding s) (log_committing s)
    (log_dev s) (log_lh s).
#[global] Instance set_log_start : Field log_start := ltac:(derive_field log_start).
#[global] Instance set_log_size : Field log_size := ltac:(derive_field log_size).
#[global] Instance set_log_outstanding : Field log_outstanding := ltac:(derive_field log_outstanding).
#[global] Instance set_log_committing : Field log_committing := ltac:(derive_field log_committing).
#[global] Instance set_log_dev : Field log_dev := ltac:(derive_field log_dev).
#[global] Instance set_log_lh : Field log_lh := ltac:(derive_field log_lh).

(** pipe.c: [struct pipe]; its lock is [L_pipe] of its address. *)
Record pipe := mk_pipe {
  pi_data : list Z;  (* PIPESIZE bytes *)
  pi_nread : Z;  (* number of bytes read *)
  pi_nwrite : Z;  (* number of bytes written *)
  pi_readopen : Z;  (* read fd is still open *)
  pi_writeopen : Z  (* write fd is still open *)
}.
#[global] Instance eta_pipe : Eta pipe := fun s =>
  mk_pipe (pi_data s) (pi_nread s) (pi_nwrite s) (pi_readopen s)
    (pi_writeopen s).
#[global] Instance set_pi_data : Field pi_data := ltac:(derive_field pi_data).
#[global] Instance set_pi_nread : Field pi_nread := ltac:(derive_field pi_nread).
#[global] Instance set_pi_nwrite : Field pi_nwrite := ltac:(derive_field pi_nwrite).
#[global] Instance set_pi_readopen : Field pi_readopen := ltac:(derive_field pi_readopen).
#[global] Instance set_pi_writeopen : Field pi_writeopen := ltac:(derive_field pi_writeopen).

(** console.c: the input buffer [cons]. *)
Record consst := mk_consst {
  cons_buf : list Z;  (* INPUT_BUF_SIZE bytes *)
  cons_r : Z;  (* read index *)
  cons_w : Z;  (* write index *)
  cons_e : Z  (* edit index *)
}.
#[global] Instance eta_consst : Eta consst := fun s =>
  mk_consst (cons_buf s) (cons_r s) (cons_w s) (cons_e s).
#[global] Instance set_cons_buf : Field cons_buf := ltac:(derive_field cons_buf).
#[global] Instance set_cons_r : Field cons_r := ltac:(derive_field cons_r).
#[global] Instance set_cons_w : Field cons_w := ltac:(derive_field cons_w).
#[global] Instance set_cons_e : Field cons_e := ltac:(derive_field cons_e).

(** virtio_disk.c: what a descriptor's address points at. *)
Inductive dptr := P_null | P_op (i : Z) | P_data (b : nat) | P_status (i : Z).

(** virtio.h: [struct virtq_desc]. *)
Record vdesc := mk_vdesc {
  vd_addr : dptr;
  vd_len : Z;
  vd_flags : Z;
  vd_next : Z
}.
#[global] Instance eta_vdesc : Eta vdesc := fun s =>
  mk_vdesc (vd_addr s) (vd_len s) (vd_flags s) (vd_next s).
(** virtio_disk.c: [struct disk]. *)
Record vdisk := mk_vdisk {
  dk_desc : list vdesc;  (* NUM DMA descriptors *)
  dk_avail_ring : list Z;  (* head descriptors for the device *)
  dk_avail_idx : Z;
  dk_used_ring : list Z;  (* head descriptors the device has finished *)
  dk_used_dev_idx : Z;  (* disk.used->idx, written by the device *)
  dk_free : list Z;  (* is a descriptor free? *)
  dk_used_idx : Z;  (* we've looked this far in used *)
  dk_info : list (option nat * Z);  (* buffer and status of in-flight operations *)
  dk_ops : list (Z * Z)  (* command headers: type and sector *)
}.
#[global] Instance eta_vdisk : Eta vdisk := fun s =>
  mk_vdisk (dk_desc s) (dk_avail_ring s) (dk_avail_idx s) (dk_used_ring s)
    (dk_used_dev_idx s) (dk_free s) (dk_used_idx s) (dk_info s) (dk_ops s).
#[global] Instance set_dk_desc : Field dk_desc := ltac:(derive_field dk_desc).
#[global] Instance set_dk_avail_ring : Field dk_avail_ring := ltac:(derive_field dk_avail_ring).
#[global] Instance set_dk_avail_idx : Field dk_avail_idx := ltac:(derive_field dk_avail_idx).
#[global] Instance set_dk_used_ring : Field dk_used_ring := ltac:(derive_field dk_used_ring).
#[global] Instance set_dk_used_dev_idx : Field dk_used_dev_idx := ltac:(derive_field dk_used_dev_idx).
#[global] Instance set_dk_free : Field dk_free := ltac:(derive_field dk_free).
#[global] Instance set_dk_used_idx : Field dk_used_idx := ltac:(derive_field dk_used_idx).
#[global] Instance set_dk_info : Field dk_info := ltac:(derive_field dk_info).
#[global] Instance set_dk_ops : Field dk_ops := ltac:(derive_field dk_ops).
(** file.h: [struct devsw]; the kernel installs only the console's functions. *)
Inductive devfn := DEV_null | DEV_console.

(** uart.c: the transmit buffer, with free-running 64-bit indices. *)
Record uartst := mk_uartst {
  tx_buf : list Z;  (* UART_TX_BUF_SIZE bytes *)
  tx_w : Z;  (* write next to uart_tx_buf[uart_tx_w % UART_TX_BUF_SIZE] *)
  tx_r : Z  (* read next from uart_tx_buf[uart_tx_r % UART_TX_BUF_SIZE] *)
}.
#[global] Instance eta_uartst : Eta uartst := fun s => mk_uartst (tx_buf s) (tx_w s) (tx_r s).
#[global] Instance set_tx_buf : Field tx_buf := ltac:(derive_field tx_buf).
#[global] Instance set_tx_w : Field tx_w := ltac:(derive_field tx_w).
#[global] Instance set_tx_r : Field tx_r := ltac:(derive_field tx_r).

(** The executing hart's supervisor trap registers (riscv.h); [SIE] is [ks_sie]. *)
Record csrst := mk_csrst {
  r_scause : Z;
  r_sepc : Z;
  r_spp : bool;  (* sstatus.SPP: the trap came from supervisor mode *)
  r_spie : bool;  (* sstatus.SPIE *)
  r_stval : Z;
  r_stvec : Z;
  r_satp : Z;
  r_sip : Z
}.
#[global] Instance eta_csrst : Eta csrst := fun s =>
  mk_csrst (r_scause s) (r_sepc s) (r_spp s) (r_spie s) (r_stval s) (r_stvec s) (r_satp s) (r_sip s).
#[global] Instance set_r_sepc : Field r_sepc := ltac:(derive_field r_sepc).
#[global] Instance set_r_spp : Field r_spp := ltac:(derive_field r_spp).
#[global] Instance set_r_spie : Field r_spie := ltac:(derive_field r_spie).
#[global] Instance set_r_stvec : Field r_stvec := ltac:(derive_field r_stvec).
#[global] Instance set_r_satp : Field r_satp := ltac:(derive_field r_satp).
#[global] Instance set_r_sip : Field r_sip := ltac:(derive_field r_sip).

(** ** The kernel state

    [ks_tp] and [ks_sie] are the executing hart's [tp] register and
    [sstatus.SIE] bit.  [ks_mem] is physical memory, byte by byte;
    [ks_disk] is the block device and [ks_dwrites] the sequence of block
    writes it has received, newest first, from which the possible disk
    contents after a crash are read off.  The other fields are the kernel's
    global variables.  Structures that live in a page of their own (trap
    frames and pipes) are kept typed, by address. *)

Record kstate := mk_kstate {
  ks_tp : nat;
  ks_sie : bool;
  ks_mem : gmap Z Z;
  ks_disk : gmap Z (list Z);
  ks_dwrites : list (Z * list Z);
  ks_uart : list Z;  (* bytes sent to the uart, newest first *)
  ks_cpus : list cpu;
  ks_locks : gmap lockid spinlock;
  ks_slocks : gmap slockid sleeplock;
  ks_freelist : Z;  (* kmem.freelist *)
  ks_kpgtbl : Z;  (* kernel_pagetable *)
  ks_proc : list proc;
  ks_initproc : option nat;
  ks_nextpid : Z;
  ks_first : bool;  (* forkret's static variable *)
  ks_tframes : gmap Z trapframe;
  ks_pipes : gmap Z pipe;
  ks_bufs : list buf;  (* bcache.buf *)
  ks_bhead_prev : nat;  (* bcache.head.prev *)
  ks_bhead_next : nat;  (* bcache.head.next *)
  ks_log : logst;
  ks_sb : superblock;
  ks_itable : list inode;
  ks_ftable : list file;
  ks_devsw : list (devfn * devfn);
  ks_cons : consst;
  ks_ticks : Z;
  ks_vdisk : vdisk;
  ks_uarttx : uartst;
  ks_prlocking : Z;  (* printf.c: pr.locking *)
  ks_panicked : Z;
  ks_csr : csrst;
  ks_started : Z  (* main.c: started *)
}.
#[global] Instance eta_kstate : Eta kstate := fun s =>
  mk_kstate (ks_tp s) (ks_sie s) (ks_mem s) (ks_disk s) (ks_dwrites s)
    (ks_uart s) (ks_cpus s) (ks_locks s) (ks_slocks s) (ks_freelist s)
    (ks_kpgtbl s) (ks_proc s) (ks_initproc s) (ks_nextpid s) (ks_first s)
    (ks_tframes s) (ks_pipes s) (ks_bufs s) (ks_bhead_prev s)
    (ks_bhead_next s) (ks_log s) (ks_sb s) (ks_itable s) (ks_ftable s)
    (ks_devsw s) (ks_cons s) (ks_ticks s) (ks_vdisk s) (ks_uarttx s) (ks_prlocking s)
    (ks_panicked s) (ks_csr s) (ks_started s).
#[global] Instance set_ks_tp : Field ks_tp := ltac:(derive_field ks_tp).
#[global] Instance set_ks_sie : Field ks_sie := ltac:(derive_field ks_sie).
#[global] Instance set_ks_mem : Field ks_mem := ltac:(derive_field ks_mem).
#[global] Instance set_ks_disk : Field ks_disk := ltac:(derive_field ks_disk).
#[global] Instance set_ks_dwrites : Field ks_dwrites := ltac:(derive_field ks_dwrites).
#[global] Instance set_ks_uart : Field ks_uart := ltac:(derive_field ks_uart).
#[global] Instance set_ks_cpus : Field ks_cpus := ltac:(derive_field ks_cpus).
#[global] Instance set_ks_locks : Field ks_locks := ltac:(derive_field ks_locks).
#[global] Instance set_ks_slocks : Field ks_slocks := ltac:(derive_field ks_slocks).
#[global] Instance set_ks_freelist : Field ks_freelist := ltac:(derive_field ks_freelist).
#[global] Instance set_ks_kpgtbl : Field ks_kpgtbl := ltac:(derive_field ks_kpgtbl).
#[global] Instance set_ks_proc : Field ks_proc := ltac:(derive_field ks_proc).
#[global] Instance set_ks_initproc : Field ks_initproc := ltac:(derive_field ks_initproc).
#[global] Instance set_ks_nextpid : Field ks_nextpid := ltac:(derive_field ks_nextpid).
#[global] Instance set_ks_first : Field ks_first := ltac:(derive_field ks_first).
#[global] Instance set_ks_tframes : Field ks_tframes := ltac:(derive_field ks_tframes).
#[global] Instance set_ks_pipes : Field ks_pipes := ltac:(derive_field ks_pipes).
#[global] Instance set_ks_bufs : Field ks_bufs := ltac:(derive_field ks_bufs).
#[global] Instance set_ks_bhead_prev : Field ks_bhead_prev := ltac:(derive_field ks_bhead_prev).
#[global] Instance set_ks_bhead_next : Field ks_bhead_next := ltac:(derive_field ks_bhead_next).
#[global] Instance set_ks_log : Field ks_log := ltac:(derive_field ks_log).
#[global] Instance set_ks_sb : Field ks_sb := ltac:(derive_field ks_sb).
#[global] Instance set_ks_itable : Field ks_itable := ltac:(derive_field ks_itable).
#[global] Instance set_ks_ftable : Field ks_ftable := ltac:(derive_field ks_ftable).
#[global] Instance set_ks_devsw : Field ks_devsw := ltac:(derive_field ks_devsw).
#[global] Instance set_ks_cons : Field ks_cons := ltac:(derive_field ks_cons).
#[global] Instance set_ks_ticks : Field ks_ticks := ltac:(derive_field ks_ticks).
#[global] Instance set_ks_vdisk : Field ks_vdisk := ltac:(derive_field ks_vdisk).
#[global] Instance set_ks_uarttx : Field ks_uarttx := ltac:(derive_field ks_uarttx).
#[global] Instance set_ks_prlocking : Field ks_prlocking := ltac:(derive_field ks_prlocking).
#[global] Instance set_ks_panicked : Field ks_panicked := ltac:(derive_field ks_panicked).
#[global] Instance set_ks_csr : Field ks_csr := ltac:(derive_field ks_csr).
#[global] Instance set_ks_started : Field ks_started := ltac:(derive_field ks_started).

(** Two states with equal fields are equal; [kstate_eq] reduces an equality of
    updated states to the fields that differ. *)
Lemma eta_kstate_eq (s : kstate) : eta s = s.
Proof. by destruct s. Qed.

Ltac kstate_eq :=
  refine (eq_trans (eq_sym (eta_kstate_eq _)) (eq_trans _ (eta_kstate_eq _)));
  unfold eta, eta_kstate; cbn; f_equal; try reflexivity.

(** Rewrite the state a computation is applied to. *)
Ltac restate s' :=
  lazymatch goal with
  | |- ?m ?x = _ => replace x with s'; [|symmetry; kstate_eq]
  end.

(** ** The state before the kernel's initialisation: .bss is zero, [nextpid]
    and forkret's [first] are 1, interrupts are off. *)
Definition zero_proc : proc :=
  mk_proc UNUSED None 0 0 0 None 0 0 0 0 (mk_context 0 0 (replicate 12 0))
    (replicate NOFILE None) None (replicate 16 0).
Definition zero_buf : buf := mk_buf 0 0 0 0 0 0 0 (replicate (Z.to_nat BSIZE) 0).
Definition zero_inode : inode :=
  mk_inode 0 0 0 0 0 0 0 0 0 (replicate (Z.to_nat NDIRECT + 1) 0).
Definition zero_file : file := mk_file FD_NONE 0 0 0 0 None 0 0.
Definition NUM : nat := 8.
Definition zero_vdisk : vdisk :=
  mk_vdisk (replicate NUM (mk_vdesc P_null 0 0 0)) (replicate NUM 0) 0 (replicate NUM 0) 0
    (replicate NUM 0) 0 (replicate NUM (None, 0)) (replicate NUM (0, 0)).
Definition zero_state : kstate :=
  mk_kstate 0 false ∅ ∅ [] []
    (replicate NCPU (mk_cpu None 0 0)) ∅ ∅ 0 0
    (replicate NPROC zero_proc) None 1 true ∅ ∅
    (replicate NBUF zero_buf) 0 0
    (mk_logst 0 0 0 0 0 (mk_logheader 0 (replicate (Z.to_nat LOGSIZE) 0)))
    (mk_superblock 0 0 0 0 0 0 0 0)
    (replicate NINODE zero_inode) (replicate NFILE zero_file)
    (replicate (Z.to_nat NDEV) (DEV_null, DEV_null))
    (mk_consst (replicate 128 0) 0 0 0) 0 zero_vdisk
    (mk_uartst (replicate 32 0) 0 0) 0 0 (mk_csrst 0 0 false false 0 0 0 0) 0.
