(* ===== verification/KMonad.v ===== *)
(** * The kernel monad.

    C functions of the kernel become computations [K A]: they take the kernel
    state and end in an outcome.  A function may return ([Done]), stop the
    machine ([Panic], a call of panic() in printf.c), do something C leaves
    undefined such as dereferencing a null or dangling pointer ([Fault]), or
    give up the processor ([Yield]): a [Yield] carries why, the state at that
    moment and the rest of the function, which continues from whatever state
    the other harts and processes have produced.  [OutOfFuel] ends a loop that
    exceeded the bound the model gives it; the theorems show when that does
    not happen. *)

From S2P Require Import Prelude Defs.

(** Why a hart waits: it spins on a lock another hart holds, or its process
    has called swtch() in sched(); the scheduler has called swtch() to run a
    process, or waits for an interrupt; a hart waits in main() for hart 0 to have
    booted. *)
Inductive wait := Spin (l : lockid) | Swtch (p : nat) | Dispatch (p : nat) | Wfi | Started.

Inductive out (A : Type) :=
  | Done (a : A) (s : kstate)
  | Panic (msg : string)
  | Fault
  | Yield (w : wait) (s : kstate) (k : kstate -> out A)
  | OutOfFuel.
Arguments Done {A} a s.
Arguments Panic {A} msg.
Arguments Fault {A}.
Arguments Yield {A} w s k.
Arguments OutOfFuel {A}.

Definition K (A : Type) : Type := kstate -> out A.

Fixpoint obind {A B} (o : out A) (f : A -> K B) : out B :=
  match o with
  | Done a s => f a s
  | Panic m => Panic m
  | Fault => Fault
  | Yield w s k => Yield w s (fun s' => obind (k s') f)
  | OutOfFuel => OutOfFuel
  end.

Definition ret {A} (a : A) : K A := fun s => Done a s.
Definition kbind {A B} (m : K A) (f : A -> K B) : K B := fun s => obind (m s) f.
Definition panic {A} (msg : string) : K A := fun _ => Panic msg.
Definition fault {A} : K A := fun _ => Fault.
Definition out_of_fuel {A} : K A := fun _ => OutOfFuel.
Definition get {A} (f : kstate -> A) : K A := fun s => Done (f s) s.
Definition modify (f : kstate -> kstate) : K unit := fun s => Done tt (f s).
Definition yield_to (w : wait) : K unit := fun s => Yield w s (fun s' => Done tt s').

Declare Scope kernel_scope.
Delimit Scope kernel_scope with K.
Bind Scope kernel_scope with K.
Notation "'let!' x := m 'in' k" := (kbind m (fun x => k))
  (at level 10, x binder, m at level 100, k at level 200,
   format "'[v' 'let!'  x  :=  m  'in' '/' k ']'") : kernel_scope.
Notation "m ;; k" := (kbind m (fun _ => k))
  (at level 100, k at level 200, right associativity) : kernel_scope.
#[global] Open Scope kernel_scope.

(** [when b m] is [if(b) m;], [for_each l f] a loop over a static table. *)
Definition when (b : bool) (m : K unit) : K unit := if b then m else ret tt.

Fixpoint for_each {X} (l : list X) (f : X -> K unit) : K unit :=
  match l with
  | [] => ret tt
  | x :: l => f x ;; for_each l f
  end.

(** A loop over a table that an iteration can leave with a value, as [return]
    or [goto] in the body do. *)
Fixpoint for_find {X A} (l : list X) (f : X -> K (option A)) : K (option A) :=
  match l with
  | [] => ret None
  | x :: l => let! r := f x in
              match r with Some a => ret (Some a) | None => for_find l f end
  end.

(** A loop with explicit state, at most [n] iterations; the body returns the
    next state ([inl]) or leaves the loop ([inr]). *)
Fixpoint loop {X A} (n : nat) (f : X -> K (X + A)) (x : X) : K A :=
  match n with
  | O => out_of_fuel
  | S n => let! r := f x in
           match r with inl x' => loop n f x' | inr a => ret a end
  end.

(** [deref l i] reads entry [i] of a static table; an index outside it is an
    invalid pointer. *)
Definition deref {X} (l : list X) (i : nat) : K X :=
  match l !! i with Some x => ret x | None => fault end.

(** A nullable pointer is dereferenced. *)
Definition nonnull {X} (o : option X) : K X :=
  match o with Some x => ret x | None => fault end.

(** ** Running a computation that yields

    [run_with env] resolves each [Yield] with the environment [env]: the rest
    of the system takes the state at the yield to the state in which the
    function continues. *)
Fixpoint run_with {A} (env : wait -> kstate -> kstate) (o : out A) : out A :=
  match o with
  | Yield w s k => run_with env (k (env w s))
  | o => o
  end.

(** ** Weakest preconditions

    [wp R Q o]: along [o] nothing panics or faults, and it can only end with a
    result satisfying [Q], when the rest of the system takes a state at a
    yield only to states related by [R].  It says nothing about how long a
    function waits; [runs] below is the total notion. *)
Fixpoint wp {A} (R : wait -> kstate -> kstate -> Prop) (Q : A -> kstate -> Prop)
    (o : out A) : Prop :=
  match o with
  | Done a s => Q a s
  | Panic _ | Fault => False
  | Yield w s k => forall s', R w s s' -> wp R Q (k s')
  | OutOfFuel => True
  end.

(** Total correctness without waiting. *)
Definition runs {A} (m : K A) (s : kstate) (Q : A -> kstate -> Prop) : Prop :=
  exists a s', m s = Done a s' /\ Q a s'.

(** ** Laws *)

Section Laws.
Context {A B C : Type}.

Lemma kbind_ret (a : A) (f : A -> K B) s : kbind (ret a) f s = f a s.
Proof. reflexivity. Qed.

Lemma kbind_done (m : K A) (f : A -> K B) s a s' :
  m s = Done a s' -> kbind m f s = f a s'.
Proof. intros H. unfold kbind. by rewrite H. Qed.

Lemma kbind_panic (m : K A) (f : A -> K B) s msg :
  m s = Panic msg -> kbind m f s = Panic msg.
Proof. intros H. unfold kbind. by rewrite H. Qed.

Lemma kbind_assoc_done (m : K A) (f : A -> K B) (g : B -> K C) s a s' :
  m s = Done a s' -> kbind (kbind m f) g s = kbind (f a) g s'.
Proof. intros H. unfold kbind. by rewrite H. Qed.

(** Two statements that ended are followed by the rest. *)
Lemma kseq2_done (m1 m2 : K unit) (k : K A) s s' :
  kbind m1 (fun _ => m2) s = Done tt s' -> kbind m1 (fun _ => kbind m2 (fun _ => k)) s = k s'.
Proof. unfold kbind. destruct (m1 s) as [? s1| | | |]; cbn; try done. by intros ->. Qed.

Lemma kbind_seq_done (m : K A) (f g : A -> K unit) (k : K B) s s' :
  kbind m (fun a => kbind (f a) (fun _ => g a)) s = Done tt s' ->
  kbind m (fun a => kbind (f a) (fun _ => kbind (g a) (fun _ => k))) s = k s'.
Proof.
  unfold kbind. destruct (m s) as [a s1| | | |]; cbn; try done.
  destruct (f a s1) as [? s2| | | |]; cbn; try done. by intros ->.
Qed.

(** Three statements that ended are followed by the rest. *)
Lemma kseq3_done (m1 m2 m3 : K unit) (k : K A) s s' :
  kbind m1 (fun _ => kbind m2 (fun _ => m3)) s = Done tt s' ->
  kbind m1 (fun _ => kbind m2 (fun _ => kbind m3 (fun _ => k))) s = k s'.
Proof.
  unfold kbind. destruct (m1 s) as [? s1| | | |]; cbn; try done.
  destruct (m2 s1) as [? s2| | | |]; cbn; try done. by intros ->.
Qed.

Lemma runs_bind (m : K A) (f : A -> K B) s Q :
  runs m s (fun a s' => runs (f a) s' Q) -> runs (kbind m f) s Q.
Proof.
  intros (a & s' & H & b & s'' & H' & HQ). exists b, s''.
  by rewrite (kbind_done _ _ _ _ _ H).
Qed.

Lemma runs_conseq (m : K A) s (Q Q' : A -> kstate -> Prop) :
  runs m s Q -> (forall a s', Q a s' -> Q' a s') -> runs m s Q'.
Proof. intros (a & s' & H & HQ) HQQ. exists a, s'. auto. Qed.

Lemma wp_obind R (o : out A) (f : A -> K B) Q :
  wp R (fun a s => wp R Q (f a s)) o -> wp R Q (obind o f).
Proof. induction o as [| | |w s k IH|]; cbn; auto. Qed.

Lemma wp_conseq R (o : out A) (Q Q' : A -> kstate -> Prop) :
  wp R Q o -> (forall a s, Q a s -> Q' a s) -> wp R Q' o.
Proof. intros H HQ. induction o; cbn in *; eauto. Qed.

Lemma wp_rely (R R' : wait -> kstate -> kstate -> Prop) (o : out A) Q :
  wp R Q o -> (forall w s s', R' w s s' -> R w s s') -> wp R' Q o.
Proof. intros H HR. induction o; cbn in *; eauto. Qed.
End Laws.

Lemma wp_done {A} R (m : K A) s Q : runs m s Q -> wp R Q (m s).
Proof. intros (a & s' & -> & H). exact H. Qed.

(** Two computations are equivalent when they agree up to the equivalence of
    their continuations; [kbind] respects it, which is what setoid rewriting
    under binds uses. *)
Inductive oeq {A} : relation (out A) :=
  | oeq_done a s : oeq (Done a s) (Done a s)
  | oeq_panic m : oeq (Panic m) (Panic m)
  | oeq_fault : oeq Fault Fault
  | oeq_yield w s k k' : (forall s', oeq (k s') (k' s')) -> oeq (Yield w s k) (Yield w s k')
  | oeq_fuel : oeq OutOfFuel OutOfFuel.

Definition keq {A} (m m' : K A) : Prop := forall s, oeq (m s) (m' s).

#[global] Instance oeq_equivalence {A} : Equivalence (@oeq A).
Proof.
  split.
  - intros o. induction o; by constructor.
  - intros o o'. induction 1; constructor; auto.
  - intros o1 o2 o3 H. revert o3. induction H; intros o3 H3; inversion H3; subst;
      constructor; auto.
Qed.
#[global] Instance keq_equivalence {A} : Equivalence (@keq A).
Proof.
  split; [by intros m s | intros m m' H s; by symmetry |].
  intros m1 m2 m3 H1 H2 s. by transitivity (m2 s).
Qed.

#[global] Instance obind_proper {A B} :
  Proper (oeq ==> pointwise_relation A keq ==> oeq) (@obind A B).
Proof.
  intros o o' H f f' Hf. induction H; cbn; try constructor; auto. apply Hf.
Qed.
#[global] Instance kbind_proper {A B} :
  Proper (keq ==> pointwise_relation A keq ==> keq) (@kbind A B).
Proof. intros m m' Hm f f' Hf s. unfold kbind. by rewrite (Hm s), Hf. Qed.

Lemma kbind_assoc {A B C} (m : K A) (f : A -> K B) (g : B -> K C) :
  keq (kbind (kbind m f) g) (kbind m (fun a => kbind (f a) g)).
Proof.
  intros s. unfold kbind. induction (m s); cbn; try constructor; auto. reflexivity.
Qed.

Lemma kbind_ret_r {A} (m : K A) : keq (kbind m ret) m.
Proof. intros s. unfold kbind. induction (m s); cbn; constructor; auto. Qed.

(** ** Symbolic execution

    [kstep H] runs the head of a bind whose outcome the equation [H] gives;
    [kprim] runs heads that are monadic primitives. *)
Section Primitives.
Context {A B : Type}.
Lemma kbind_get (f : kstate -> A) (k : A -> K B) s : kbind (get f) k s = k (f s) s.
Proof. reflexivity. Qed.
Lemma kbind_modify f (k : unit -> K B) s : kbind (modify f) k s = k tt (f s).
Proof. reflexivity. Qed.
Lemma kbind_kbind_get (f : kstate -> A) (g : A -> K B) {C} (k : B -> K C) s :
  kbind (kbind (get f) g) k s = kbind (g (f s)) k s.
Proof. reflexivity. Qed.
Lemma deref_some (l : list A) i x s : l !! i = Some x -> deref l i s = Done x s.
Proof. intros H. unfold deref. by rewrite H. Qed.
Lemma when_true b m s : b = true -> when b m s = m s.
Proof. by intros ->. Qed.
Lemma when_false b m s : b = false -> when b m s = Done tt s.
Proof. by intros ->. Qed.
Lemma loop_done (f : A -> K (A + B)) n x s b s' :
  f x s = Done (inr b) s' -> loop (S n) f x s = Done b s'.
Proof. intros H. cbn [loop]. by rewrite (kbind_done _ _ _ _ _ H). Qed.
Lemma loop_next (f : A -> K (A + B)) n x s y s' :
  f x s = Done (inl y) s' -> loop (S n) f x s = loop n f y s'.
Proof. intros H. cbn [loop]. by rewrite (kbind_done _ _ _ _ _ H). Qed.
End Primitives.

Tactic Notation "kstep" uconstr(H) := erewrite kbind_done; [|eapply H].
Ltac kprim :=
  repeat first [rewrite kbind_get | rewrite kbind_modify | rewrite kbind_ret
               | rewrite kbind_kbind_get]; cbv beta.
