(* ===== verification/Lock.v ===== *)
(** * Spin locks (spinlock.c, and the per-cpu accessors of proc.c).

    [push_off], [pop_off], [acquire], [release] and [holding] as the executing
    hart runs them; acquiring a lock another hart holds spins, which is a
    [Yield] at each failed atomic swap.  The lemmas describe a hart inside a
    critical section by [acq lk s], where [s] is the state as seen from
    outside the section, so that entering and leaving a section are inverse
    rewriting steps.

    Module [SpinSys] is the same code run by several harts at once, one shared
    memory access per step. *)

From S2P Require Import Prelude Defs KMonad.

(** The bound on loops that wait: how often a spinning or sleeping thread is
    resumed.  Nothing proved below depends on its value. *)
Class Fuel := { fuel : nat; fuel_pos : (0 < fuel)%nat }.

(** ** The executing hart *)

Definition intr_get : K bool := get ks_sie.
Definition intr_on : K unit := modify (fun s => s <| ks_sie := true |>).
Definition intr_off : K unit := modify (fun s => s <| ks_sie := false |>).

Definition cpuid : K nat := get ks_tp.

(** mycpu() returns a pointer into [cpus]: its index; [cpu_of] and [set_cpu]
    read and write through it. *)
Definition mycpu : K nat := cpuid.
Definition cpu_of (c : nat) : K cpu := let! l := get ks_cpus in deref l c.
Definition set_cpu (c : nat) (f : cpu -> cpu) : K unit :=
  let! _ := cpu_of c in modify (fun s => s <| ks_cpus ::= alter f c |>).

Definition push_off : K unit :=
  let! old := intr_get in
  intr_off ;;
  let! c := mycpu in
  let! cp := cpu_of c in
  when (c_noff cp =? 0) (set_cpu c (fun x => x <| c_intena := b2z old |>)) ;;
  set_cpu c (fun x => x <| c_noff ::= Z.add 1 |>).

Definition pop_off : K unit :=
  let! c := mycpu in
  let! on := intr_get in
  if on then panic "pop_off - interruptible" else
  let! cp := cpu_of c in
  if c_noff cp <? 1 then panic "pop_off" else
  set_cpu c (fun x => x <| c_noff ::= fun n => n - 1 |>) ;;
  let! cp := cpu_of c in
  when ((c_noff cp =? 0) && z2b (c_intena cp)) intr_on.

(** ** Locks *)

Definition lock_of (lk : lockid) : K spinlock :=
  let! m := get ks_locks in nonnull (m !! lk).
Definition set_lock (lk : lockid) (l : spinlock) : K unit :=
  modify (fun s => s <| ks_locks ::= <[lk := l]> |>).

Definition initlock (lk : lockid) (name : string) : K unit :=
  set_lock lk {| lk_name := name; lk_locked := 0; lk_cpu := None |}.

Definition holding (lk : lockid) : K bool :=
  let! l := lock_of lk in
  let! c := mycpu in
  ret (z2b (lk_locked l) && bool_decide (lk_cpu l = Some c)).

(** __sync_lock_test_and_set(&lk->locked, 1) *)
Definition test_and_set (lk : lockid) : K Z :=
  let! l := lock_of lk in
  set_lock lk (l <| lk_locked := 1 |>) ;;
  ret (lk_locked l).

Section Code.
Context `{Fuel}.

Definition acquire (lk : lockid) : K unit :=
  push_off ;;
  let! h := holding lk in
  if h then panic "acquire" else
  loop fuel (fun _ =>
    let! old := test_and_set lk in
    if old =? 0 then ret (inr tt)
    else yield_to (Spin lk) ;; ret (inl tt)) tt ;;
  let! c := mycpu in
  let! l := lock_of lk in
  set_lock lk (l <| lk_cpu := Some c |>).

Definition release (lk : lockid) : K unit :=
  let! h := holding lk in
  if negb h then panic "release" else
  let! l := lock_of lk in
  set_lock lk (l <| lk_cpu := None |>) ;;
  let! l := lock_of lk in
  set_lock lk (l <| lk_locked := 0 |>) ;;
  pop_off.
End Code.

(** ** Sections, seen from outside *)

(** A hart between critical sections or inside some: its nesting depth is
    consistent with the interrupt flag, and [intena] is what the flag was. *)
Definition cpu_consistent (sie : bool) (c : cpu) : Prop :=
  if decide (c_noff c = 0) then c_intena c = b2z sie else 0 < c_noff c /\ sie = false.

Definition hart_ok (s : kstate) : Prop :=
  match ks_cpus s !! ks_tp s with
  | Some c => cpu_consistent (ks_sie s) c
  | None => False
  end.

Definition lock_free (lk : lockid) (s : kstate) : Prop :=
  match ks_locks s !! lk with
  | Some l => lk_locked l = 0 /\ lk_cpu l = None
  | None => False
  end.

(** [s'] has the locks and the hart state of [s]: what a function that
    releases all it acquires guarantees. *)
Record same_hart (s s' : kstate) : Prop := mk_same_hart {
  sh_locks : ks_locks s' = ks_locks s;
  sh_cpus : ks_cpus s' = ks_cpus s;
  sh_sie : ks_sie s' = ks_sie s;
  sh_tp : ks_tp s' = ks_tp s
}.
#[global] Instance same_hart_equivalence : Equivalence same_hart.
Proof.
  split; [by split | by intros ? ? []; split |].
  intros s1 s2 s3 [] []. split; congruence.
Qed.
Lemma hart_ok_same s s' : same_hart s s' -> hart_ok s -> hart_ok s'.
Proof. intros [_ Hc Hs Ht]. unfold hart_ok. by rewrite Hc, Hs, Ht. Qed.
Lemma lock_free_same lk s s' : same_hart s s' -> lock_free lk s -> lock_free lk s'.
Proof. intros [Hl _ _ _]. unfold lock_free. by rewrite Hl. Qed.

(** push_off on a consistent hart. *)
Definition pushed (s : kstate) : kstate :=
  s <| ks_sie := false |> <| ks_cpus ::= alter (upd c_noff (Z.add 1)) (ks_tp s) |>.

(** The state while [lk] is held, entered from [s]. *)
Definition acq (lk : lockid) (s : kstate) : kstate :=
  (pushed s) <| ks_locks ::= alter (fun l => mk_spinlock 1 (lk_name l) (Some (ks_tp s))) lk |>.

(** ** Lemmas on a hart's sections *)

(** Unfold the accessors of the executing hart and of one lock. *)
Ltac lock_unfold :=
  unfold push_off, pop_off, intr_get, intr_on, intr_off, mycpu, cpuid, set_cpu, cpu_of,
    holding, lock_of, set_lock, test_and_set, kbind, get, modify, ret, when, deref,
    nonnull, panic, fault in *; cbn in *.

Ltac hart_cases :=
  match goal with
  | H : hart_ok ?s |- _ =>
    let E := fresh "Ecpu" in let c := fresh "c" in
    unfold hart_ok, cpu_consistent in H; cbn in H;
    destruct (ks_cpus s !! ks_tp s) as [c|] eqn:E; [|done]; case_decide
  end.

Ltac lock_cases :=
  match goal with
  | H : lock_free ?lk ?s |- _ =>
    let E := fresh "Elk" in let l := fresh "l" in
    unfold lock_free in H; cbn in H;
    destruct (ks_locks s !! lk) as [l|] eqn:E; [|done]; destruct H as [? ?]
  end.

Lemma cpus_pop_push s c :
  ks_cpus s !! ks_tp s = Some c ->
  alter (upd c_noff (fun n => n - 1)) (ks_tp s)
    (alter (upd c_noff (Z.add 1)) (ks_tp s) (ks_cpus s)) = ks_cpus s.
Proof.
  intros Hc. rewrite list_alter_alter_eq. apply (list_alter_id_at _ _ _ c); [done|].
  destruct c. cbn. unfold set_c_noff. cbn. f_equal. lia.
Qed.

Lemma push_off_ok s : hart_ok s -> push_off s = Done tt (pushed s).
Proof.
  intros Hs. hart_cases; lock_unfold; rewrite Ecpu; cbn.
  - replace (c_noff c =? 0) with true by lia. cbn. rewrite Ecpu. cbn.
    rewrite list_lookup_alter_eq, Ecpu. cbn.
    f_equal. kstate_eq. rewrite list_alter_alter_eq.
    apply list_alter_ext; [|done]. intros c' Hc'. simplify_eq.
    destruct c; cbn in *. unfold set_c_noff, set_c_intena. cbn. congruence.
  - replace (c_noff c =? 0) with false by lia. cbn. by rewrite Ecpu.
Qed.

Lemma pop_off_pushed s : hart_ok s -> pop_off (pushed s) = Done tt s.
Proof.
  intros Hs. hart_cases; pose proof (cpus_pop_push s c Ecpu) as Hid; lock_unfold;
    rewrite !list_lookup_alter_eq, Ecpu; cbn.
  - replace (1 + c_noff c <? 1) with false by lia. cbn.
    rewrite !list_lookup_alter_eq, Ecpu. cbn.
    rewrite !list_lookup_alter_eq, Ecpu. cbn.
    replace (1 + c_noff c - 1 =? 0) with true by lia. cbn. rewrite Hs.
    destruct (ks_sie s) eqn:Esie; cbn; f_equal; kstate_eq; done.
  - destruct Hs as [? Hs]. replace (1 + c_noff c <? 1) with false by lia. cbn.
    rewrite !list_lookup_alter_eq, Ecpu. cbn.
    rewrite !list_lookup_alter_eq, Ecpu. cbn.
    replace (1 + c_noff c - 1 =? 0) with false by lia. cbn.
    f_equal; kstate_eq; done.
Qed.

Lemma hart_ok_pushed s : hart_ok s -> hart_ok (pushed s).
Proof.
  intros Hs. hart_cases; unfold hart_ok, cpu_consistent; cbn;
    rewrite list_lookup_alter_eq, Ecpu; cbn; case_decide; lia || done.
Qed.

(** ** Entering and leaving a section *)

Lemma lock_of_some lk s l : ks_locks s !! lk = Some l -> lock_of lk s = Done l s.
Proof. intros Hl. unfold lock_of. kprim. by rewrite Hl. Qed.

Lemma set_lock_eq lk l s : set_lock lk l s = Done tt (s <| ks_locks ::= <[lk := l]> |>).
Proof. reflexivity. Qed.

Lemma holding_eq lk s l :
  ks_locks s !! lk = Some l ->
  holding lk s = Done (z2b (lk_locked l) && bool_decide (lk_cpu l = Some (ks_tp s))) s.
Proof. intros Hl. unfold holding. by kstep (lock_of_some _ _ _ Hl). Qed.

Lemma test_and_set_eq lk s l :
  ks_locks s !! lk = Some l ->
  test_and_set lk s
  = Done (lk_locked l) (s <| ks_locks ::= <[lk := l <| lk_locked := 1 |>]> |>).
Proof. intros Hl. unfold test_and_set. by kstep (lock_of_some _ _ _ Hl). Qed.

Lemma locks_acq lk s l :
  ks_locks s !! lk = Some l ->
  ks_locks (acq lk s) = <[lk := mk_spinlock 1 (lk_name l) (Some (ks_tp s))]> (ks_locks s).
Proof.
  intros Hl. cbn. apply map_eq. intros k.
  destruct (decide (lk = k)) as [<-|]; [|by rewrite lookup_insert_ne, lookup_alter_ne].
  by rewrite lookup_insert_eq, lookup_alter_eq, Hl.
Qed.

Section Sections.
Context `{Fuel}.

Lemma acquire_ok lk s :
  hart_ok s -> lock_free lk s -> acquire lk s = Done tt (acq lk s).
Proof.
  intros Hs Hl. unfold acquire. kstep (push_off_ok s Hs). lock_cases.
  kstep (holding_eq lk (pushed s) l Elk). rewrite H0. cbn [z2b negb andb Z.eqb].
  pose proof fuel_pos. destruct fuel as [|n]; [lia|]. 
  kstep (loop_done _ n tt); [|by kstep (test_and_set_eq lk (pushed s) l Elk); rewrite H0].
  unfold mycpu, cpuid. kprim. kstep (lock_of_some lk); [|apply lookup_insert_eq].
  rewrite set_lock_eq. f_equal. kstate_eq.
  rewrite insert_insert_eq. symmetry. exact (locks_acq lk s l Elk).
Qed.

Lemma holding_acq lk s : lock_free lk s -> holding lk (acq lk s) = Done true (acq lk s).
Proof.
  intros Hl. lock_cases. erewrite holding_eq by (rewrite (locks_acq _ _ _ Elk);
    apply lookup_insert_eq). cbn. by rewrite bool_decide_true.
Qed.

Lemma release_acq lk s :
  hart_ok s -> lock_free lk s -> release lk (acq lk s) = Done tt s.
Proof.
  intros Hs Hl. unfold release. kstep (holding_acq lk s Hl). cbn [negb]. lock_cases.
  kstep (lock_of_some lk); [|rewrite (locks_acq _ _ _ Elk); apply lookup_insert_eq].
  kstep (set_lock_eq lk). kstep (lock_of_some lk); [|apply lookup_insert_eq].
  kstep (set_lock_eq lk). rewrite <- (pop_off_pushed s Hs). f_equal. kstate_eq.
  rewrite !insert_insert_eq. apply map_eq. intros k.
  destruct (decide (lk = k)) as [<-|]; [|by rewrite lookup_insert_ne, lookup_alter_ne].
  rewrite lookup_insert_eq, Elk. f_equal. destruct l; cbn in *.
  unfold set_lk_locked, set_lk_cpu. cbn. congruence.
Qed.

(** A lock is not recursive: acquiring a lock this hart holds panics. *)
Lemma acquire_twice lk s :
  hart_ok s -> lock_free lk s -> acquire lk (acq lk s) = Panic "acquire".
Proof.
  intros Hs Hl. unfold acquire. kstep push_off_ok; [|by apply hart_ok_pushed].
  lock_cases. kstep holding_eq; [|cbn; by rewrite lookup_alter_eq, Elk].
  cbn. by rewrite bool_decide_true.
Qed.

(** Releasing a lock this hart does not hold panics. *)
Lemma release_unheld lk s l :
  ks_locks s !! lk = Some l -> lk_cpu l <> Some (ks_tp s) ->
  release lk s = Panic "release".
Proof.
  intros Hl Hc. unfold release. kstep holding_eq; [|done].
  by rewrite bool_decide_false, andb_false_r.
Qed.

(** A lock held by another hart is waited for: the first swap fails, the
    word stays 1 and the hart spins. *)
Lemma acquire_spins lk s l :
  hart_ok s -> ks_locks s !! lk = Some l -> lk_locked l = 1 ->
  lk_cpu l <> Some (ks_tp s) ->
  exists k, acquire lk s = Yield (Spin lk) (pushed s) k.
Proof.
  intros Hs Hl H1 Hc. unfold acquire. kstep push_off_ok; [|done].
  kstep holding_eq; [|done]. rewrite bool_decide_false, andb_false_r by done.
  pose proof fuel_pos. destruct fuel as [|n]; [lia|]. cbn [loop]. unfold kbind at 1 2.
  rewrite (kbind_done (test_and_set lk) _ _ _ _ (test_and_set_eq lk (pushed s) l Hl)).
  rewrite H1. cbn. eexists. f_equal. kstate_eq. apply insert_id.
  rewrite Hl. f_equal. destruct l; cbn in *. unfold set_lk_locked. cbn. congruence.
Qed.
End Sections.

Lemma hart_ok_acq lk s : hart_ok s -> hart_ok (acq lk s).
Proof. apply hart_ok_pushed. Qed.

Lemma lock_free_acq lk lk' s : lk <> lk' -> lock_free lk s -> lock_free lk (acq lk' s).
Proof. intros Hne. unfold lock_free. cbn. by rewrite lookup_alter_ne by congruence. Qed.

(** Two locks taken together can be released in either order. *)
Lemma acq_comm lk lk' s : lk <> lk' -> acq lk (acq lk' s) = acq lk' (acq lk s).
Proof. intros Hne. kstate_eq. by apply partial_alter_partial_alter_ne. Qed.

(** ** One lock, many harts

    Each hart runs acquire() and release() on one lock; a step is one access
    to the shared lock structure: the atomic swap of acquire, its store of
    [lk->cpu], the load of holding, release's store of [lk->cpu] and its
    atomic store of [lk->locked].  Harts interleave freely. *)
Module SpinSys.

(** Where a hart is: outside, in the swap loop, past the winning swap,
    inside the section, past [lk->cpu = 0]; or stopped by panic(). *)
Inductive pc := Outside | Spinning | Won | Inside | Leaving | Panicked.
#[global] Instance pc_eq_dec : EqDecision pc.
Proof. solve_decision. Defined.

Record st := mk_st { locked : Z; owner : option nat; pcs : list pc }.

Definition start (n : nat) : st := mk_st 0 None (replicate n Outside).

(** holding(lk) as hart [h] computes it. *)
Definition holds (s : st) (h : nat) : bool :=
  z2b (locked s) && bool_decide (owner s = Some h).

Definition goto (s : st) (h : nat) (p : pc) : st :=
  mk_st (locked s) (owner s) (<[h := p]> (pcs s)).

Inductive step : st -> st -> Prop :=
  | acquire_check s h :
      pcs s !! h = Some Outside ->
      step s (goto s h (if holds s h then Panicked else Spinning))
  | acquire_swap s h :
      pcs s !! h = Some Spinning ->
      step s (goto (mk_st 1 (owner s) (pcs s)) h
                   (if locked s =? 0 then Won else Spinning))
  | acquire_record s h :
      pcs s !! h = Some Won ->
      step s (goto (mk_st (locked s) (Some h) (pcs s)) h Inside)
  | release_forget s h :
      pcs s !! h = Some Inside ->
      step s (if holds s h then goto (mk_st (locked s) None (pcs s)) h Leaving
              else goto s h Panicked)
  | release_store s h :
      pcs s !! h = Some Leaving ->
      step s (goto (mk_st 0 (owner s) (pcs s)) h Outside).

Definition owns (p : pc) : bool :=
  match p with Won | Inside | Leaving => true | _ => false end.

(** Either the lock is free, [lk->cpu] is null and no hart owns it; or the
    word is 1, exactly one hart owns it, and [lk->cpu] names that hart
    precisely while it is inside.  No hart has panicked. *)
Definition free_inv (s : st) : Prop :=
  locked s = 0 /\ owner s = None /\ forall h p, pcs s !! h = Some p -> owns p = false.
Definition held_inv (s : st) (h : nat) (p : pc) : Prop :=
  locked s = 1 /\ pcs s !! h = Some p /\ owns p = true /\
  owner s = (if decide (p = Inside) then Some h else None) /\
  forall h' p', pcs s !! h' = Some p' -> owns p' = true -> h' = h.
Definition inv (s : st) : Prop :=
  (forall h, pcs s !! h <> Some Panicked) /\ (free_inv s \/ exists h p, held_inv s h p).

Definition reachable (n : nat) : st -> Prop := rtc step (start n).

Lemma inv_start n : inv (start n).
Proof.
  split; [|left; split_and!; [done..|]].
  - intros h [? _]%lookup_replicate. done.
  - by intros h p [-> _]%lookup_replicate.
Qed.

Lemma lookup_goto s h p h' q :
  pcs (goto s h p) !! h' = Some q ->
  (h' = h /\ q = p) \/ (h' <> h /\ pcs s !! h' = Some q).
Proof.
  cbn. intros [(<- & -> & _)|[Hne Hq]]%list_lookup_insert_Some; eauto.
Qed.

Lemma lookup_goto_eq s h p q : pcs s !! h = Some q -> pcs (goto s h p) !! h = Some p.
Proof. intros Hq. cbn. apply list_lookup_insert_eq. by apply lookup_lt_Some in Hq. Qed.
Lemma lookup_goto_ne s h p h' : h <> h' -> pcs (goto s h p) !! h' = pcs s !! h'.
Proof. intros Hne. cbn. by rewrite list_lookup_insert_ne. Qed.

Lemma holds_inside s h : inv s -> holds s h = true <-> pcs s !! h = Some Inside.
Proof.
  intros [_ [(Hl & Ho & Hf)|(h0 & p0 & Hl & Hh & Hp & Ho & Hu)]]; unfold holds;
    rewrite Hl, Ho; cbn.
  - split; [done|]. intros Hh%Hf. done.
  - rewrite bool_decide_eq_true. case_decide; subst; split; intros Hx; simplify_eq; auto.
    + by rewrite (Hu _ _ Hx).
    + by rewrite (Hu _ _ Hx) in Hx; simplify_eq.
Qed.

(** A hart that does not own the lock may move between non-owning places. *)
Lemma inv_move s h p q :
  inv s -> pcs s !! h = Some p -> owns p = false -> owns q = false -> q <> Panicked ->
  inv (goto s h q).
Proof.
  intros [Hr Hs] Hp Hop Hoq Hq. split.
  { intros h' [[_ ?]|[_ ?]]%lookup_goto; [congruence|by eapply Hr]. }
  destruct Hs as [(Hl & Ho & Hf)|(h0 & p0 & Hl & Hh & Hp0 & Ho & Hu)].
  - left. split_and!; [done..|]. intros h' p' [[_ ->]|[_ ?]]%lookup_goto; eauto.
  - right. assert (h <> h0) by congruence. exists h0, p0. split_and!; auto.
    + by rewrite lookup_goto_ne.
    + intros h' p' [[-> ->]|[_ ?]]%lookup_goto ?; [congruence|eauto].
Qed.

(** The owner moves to its next place, recording or forgetting itself. *)
Lemma inv_owner_move s h p q o :
  inv s -> pcs s !! h = Some p -> owns p = true -> owns q = true ->
  o = (if decide (q = Inside) then Some h else None) ->
  inv (goto (mk_st (locked s) o (pcs s)) h q).
Proof.
  intros [Hr Hs] Hp Hop Hoq ->.
  destruct Hs as [(Hl & Ho & Hf)|(h0 & p0 & Hl & Hh & Hp0 & Ho & Hu)].
  { by rewrite (Hf _ _ Hp) in Hop. }
  pose proof (Hu _ _ Hp Hop); simplify_eq. split.
  { intros h' [[_ <-]|[_ ?]]%lookup_goto; [done|by eapply Hr]. }
  right. exists h0, q. split_and!; auto.
  - by eapply lookup_goto_eq.
  - intros h' p' [[-> _]|[_ ?]]%lookup_goto ?; eauto.
Qed.

Lemma inv_step s s' : inv s -> step s s' -> inv s'.
Proof.
  intros I Hst. pose proof (holds_inside s) as Hh.
  destruct Hst as [s h Hp|s h Hp|s h Hp|s h Hp|s h Hp].
  - destruct (holds s h) eqn:E; [apply Hh in E; [congruence|done]|].
    by eapply inv_move.
  - destruct I as [Hr [(Hl & Ho & Hf)|(h0 & p0 & Hl & Hrest)]]; rewrite Hl; cbn.
    + split; [intros h' [[_ ?]|[_ ?]]%lookup_goto; [done|by eapply Hr]|].
      right. exists h, Won. split_and!; auto.
      * by eapply lookup_goto_eq.
      * intros h' p' [[-> _]|[_ Hp']]%lookup_goto Ho'; [done|].
        apply Hf in Hp'. congruence.
    + replace (mk_st 1 (owner s) (pcs s)) with s by (destruct s; cbn in *; congruence).
      eapply inv_move; eauto. split; [done|]. right. exists h0, p0. by split.
  - eapply inv_owner_move; eauto.
  - rewrite (proj2 (Hh h I) Hp). eapply inv_owner_move; eauto.
  - destruct I as [Hr [(Hl & Ho & Hf)|(h0 & p0 & Hl & Hh0 & Hp0 & Ho & Hu)]].
    { by apply Hf in Hp. }
    pose proof (Hu _ _ Hp eq_refl); simplify_eq.
    split; [intros h' [[_ ?]|[_ ?]]%lookup_goto; [done|by eapply Hr]|].
    left. split_and!; [done..|]. intros h' p' [[_ ->]|[? Hp']]%lookup_goto; [done|].
    destruct (owns p') eqn:E; [|done]. by pose proof (Hu _ _ Hp' E).
Qed.

Lemma inv_reachable n s : reachable n s -> inv s.
Proof.
  unfold reachable. generalize (inv_start n). generalize (start n). intros s0 I Hr.
  induction Hr; eauto using inv_step.
Qed.


(** C39: in every interleaving holding() answers true exactly for
    the hart inside the section, so that neither panic() of acquire() and
    release() is reached by harts that pair them. *)
Theorem holding_exact n s h :
  reachable n s ->
  (holds s h = true <-> pcs s !! h = Some Inside) /\ pcs s !! h <> Some Panicked.
Proof.
  intros I%inv_reachable. split; [by apply holds_inside|]. apply (proj1 I).
Qed.

(** Two harts: hart 0 inside, hart 1 spinning. *)
Definition contended : st := mk_st 1 (Some 0%nat) [Inside; Spinning].
Lemma contended_reachable : reachable 2 contended.
Proof.
  unfold reachable.
  eapply rtc_l; [apply (acquire_check _ 0); reflexivity|]. cbn.
  eapply rtc_l; [apply (acquire_check _ 1); reflexivity|]. cbn.
  eapply rtc_l; [apply (acquire_swap _ 0); reflexivity|]. cbn.
  eapply rtc_l; [apply (acquire_record _ 0); reflexivity|]. cbn.
  eapply rtc_l; [apply (acquire_swap _ 1); reflexivity|]. cbn. apply rtc_refl.
Defined.
Lemma holding_exact_witness : holds contended 1 = true <-> pcs contended !! 1%nat = Some Inside.
Proof. exact (proj1 (holding_exact 2 contended 1 contended_reachable)). Defined.

End SpinSys.
