(* ===== verification/Mem.v ===== *)
(** * Physical memory and the kernel's string functions (string.c).

    Memory is a finite map from addresses to bytes; an address never written
    reads 0.  memset, memmove and memcmp work on it in place, byte by byte in
    the order of the C loops, so overlapping ranges behave as they do in C.
    The string functions take a [char *] as the bytes it points at,
    [p : Z -> Z] with [p i] for [p[i]]. *)

From S2P Require Import Prelude Defs.

(** ** Bytes and words *)

Definition load8 (m : gmap Z Z) (a : Z) : Z := default 0 (m !! a).
Definition store8 (m : gmap Z Z) (a v : Z) : gmap Z Z := <[a := v]> m.

Fixpoint load_bytes (m : gmap Z Z) (a : Z) (n : nat) : list Z :=
  match n with O => [] | S n => load8 m a :: load_bytes m (a + 1) n end.
Fixpoint store_bytes (m : gmap Z Z) (a : Z) (bs : list Z) : gmap Z Z :=
  match bs with [] => m | b :: bs => store_bytes (store8 m a b) (a + 1) bs end.

(** Little-endian encoding. *)
Fixpoint le_bytes (n : nat) (v : Z) : list Z :=
  match n with O => [] | S n => v `mod` 256 :: le_bytes n (v / 256) end.
Fixpoint le_val (bs : list Z) : Z :=
  match bs with [] => 0 | b :: bs => b + 256 * le_val bs end.

Definition load64 (m : gmap Z Z) (a : Z) : Z := le_val (load_bytes m a 8).
Definition store64 (m : gmap Z Z) (a v : Z) : gmap Z Z := store_bytes m a (le_bytes 8 v).

#[global] Arguments load8 : simpl never.
#[global] Arguments store8 : simpl never.
#[global] Arguments load64 : simpl never.
#[global] Arguments store64 : simpl never.

(** ** string.c *)

(** [for(i = 0; i < n; i++) cdst[i] = c;] *)
Fixpoint memset_loop (n : nat) (i : Z) (dst c : Z) (m : gmap Z Z) : gmap Z Z :=
  match n with
  | O => m
  | S n => memset_loop n (i + 1) dst c (store8 m (dst + i) (u8 c))
  end.
Definition memset (m : gmap Z Z) (dst c n : Z) : gmap Z Z :=
  memset_loop (Z.to_nat n) 0 dst c m.

Fixpoint memcmp_loop (n : nat) (m : gmap Z Z) (s1 s2 : Z) : Z :=
  match n with
  | O => 0
  | S n => if load8 m s1 =? load8 m s2 then memcmp_loop n m (s1 + 1) (s2 + 1)
           else load8 m s1 - load8 m s2
  end.
Definition memcmp (m : gmap Z Z) (v1 v2 n : Z) : Z := memcmp_loop (Z.to_nat n) m v1 v2.

(** [while(n-- > 0) *--d = *--s;] *)
Fixpoint move_down (n : nat) (d s : Z) (m : gmap Z Z) : gmap Z Z :=
  match n with
  | O => m
  | S n => move_down n (d - 1) (s - 1) (store8 m (d - 1) (load8 m (s - 1)))
  end.
(** [while(n-- > 0) *d++ = *s++;] *)
Fixpoint move_up (n : nat) (d s : Z) (m : gmap Z Z) : gmap Z Z :=
  match n with
  | O => m
  | S n => move_up n (d + 1) (s + 1) (store8 m d (load8 m s))
  end.
Definition memmove (m : gmap Z Z) (dst src n : Z) : gmap Z Z :=
  if n =? 0 then m
  else if (src <? dst) && (dst <? src + n)
  then move_down (Z.to_nat n) (dst + n) (src + n) m
  else move_up (Z.to_nat n) dst src m.
Definition memcpy (m : gmap Z Z) (dst src n : Z) : gmap Z Z := memmove m dst src n.

Definition ptr_at (m : gmap Z Z) (a : Z) : Z -> Z := fun i => load8 m (a + i).
Definition ptr_of (l : list Z) : Z -> Z := fun i => default 0 (l !! Z.to_nat i).

(** [i] is how far [p] and [q] have advanced. *)
Fixpoint strncmp_loop (n : nat) (i : Z) (p q : Z -> Z) : Z :=
  match n with
  | O => 0
  | S n' => if negb (p i =? 0) && (p i =? q i) then strncmp_loop n' (i + 1) p q
            else u8 (p i) - u8 (q i)
  end.
Definition strncmp (p q : Z -> Z) (n : Z) : Z := strncmp_loop (Z.to_nat n) 0 p q.

(** The [n] bytes strncpy stores: those of [t] through its NUL, then NULs. *)
Fixpoint strncpy_loop (n : nat) (i : Z) (t : Z -> Z) : list Z :=
  match n with
  | O => []
  | S n => if t i =? 0 then 0 :: replicate n 0 else t i :: strncpy_loop n (i + 1) t
  end.
Definition strncpy (t : Z -> Z) (n : Z) : list Z := strncpy_loop (Z.to_nat n) 0 t.

(** The bytes safestrcpy stores at the front of its destination: the copying
    loop may run [n - 1] times, then a NUL is stored. *)
Fixpoint safestrcpy_loop (n : nat) (i : Z) (t : Z -> Z) : list Z :=
  match n with
  | O => [0]
  | S n => if t i =? 0 then [0; 0] else t i :: safestrcpy_loop n (i + 1) t
  end.
Definition safestrcpy (s : list Z) (t : Z -> Z) (n : Z) : list Z :=
  if n <=? 0 then s else patch s 0 (safestrcpy_loop (Z.to_nat (n - 1)) 0 t).

(** [fuel] bounds the scan; [None] when no NUL occurs in it. *)
Fixpoint strlen_loop (fuel : nat) (n : Z) (s : Z -> Z) : option Z :=
  match fuel with
  | O => None
  | S fuel => if s n =? 0 then Some n else strlen_loop fuel (n + 1) s
  end.
Definition strlen (fuel : nat) (s : Z -> Z) : option Z := strlen_loop fuel 0 s.

#[global] Arguments memset : simpl never.
#[global] Arguments memmove : simpl never.

(** ** Memory lemmas *)

Lemma load8_store8 m a v b : load8 (store8 m a v) b = if decide (a = b) then v else load8 m b.
Proof. unfold load8, store8. rewrite lookup_insert. by case_decide. Qed.

Lemma load8_store_bytes m a bs b :
  load8 (store_bytes m a bs) b
  = if decide (a <= b < a + Z.of_nat (length bs)) then ptr_of bs (b - a) else load8 m b.
Proof.
  revert m a. induction bs as [|x bs IH]; intros m a; cbn [store_bytes length].
  { rewrite decide_False by lia. done. }
  rewrite IH, load8_store8. unfold ptr_of. repeat case_decide; try lia; try done.
  - replace (Z.to_nat (b - a)) with (S (Z.to_nat (b - (a + 1)))) by lia. done.
  - replace (Z.to_nat (b - a)) with O by lia. done.
Qed.

Lemma length_load_bytes m a n : length (load_bytes m a n) = n.
Proof. revert a. induction n; intros; cbn; auto. Qed.

Lemma load_bytes_lookup m a n (i : nat) :
  (i < n)%nat -> load_bytes m a n !! i = Some (load8 m (a + Z.of_nat i)).
Proof.
  revert a i. induction n as [|n IH]; intros a [|i] Hi; cbn; try lia.
  - do 2 f_equal. lia.
  - rewrite IH by lia. do 2 f_equal. lia.
Qed.

Lemma load_bytes_app m a n k : load_bytes m a (n + k) = load_bytes m a n ++ load_bytes m (a + Z.of_nat n) k.
Proof.
  revert a. induction n as [|n IH]; intros a; cbn [load_bytes app Nat.add]; [f_equal; lia|].
  rewrite IH. do 2 f_equal. f_equal. lia.
Qed.

Lemma load_bytes_ext m m' a n :
  (forall b, a <= b < a + Z.of_nat n -> load8 m b = load8 m' b) ->
  load_bytes m a n = load_bytes m' a n.
Proof.
  revert a. induction n as [|n IH]; intros a H; cbn [load_bytes]; [done|].
  f_equal; [apply H; lia|apply IH; intros; apply H; lia].
Qed.

Lemma store_bytes_app m a bs bs' :
  store_bytes m a (bs ++ bs') = store_bytes (store_bytes m a bs) (a + Z.of_nat (length bs)) bs'.
Proof.
  revert m a. induction bs as [|b bs IH]; intros m a; cbn [store_bytes app length]; [by rewrite Z.add_0_r|].
  rewrite IH. f_equal. lia.
Qed.

Lemma load_bytes_store_eq m a bs : load_bytes (store_bytes m a bs) a (length bs) = bs.
Proof.
  apply list_eq_same_length with (length bs); [done|by rewrite length_load_bytes|].
  intros i x y Hi Hx Hy. rewrite load_bytes_lookup in Hx by lia. simplify_eq.
  rewrite load8_store_bytes, decide_True by lia. unfold ptr_of.
  replace (Z.to_nat (a + Z.of_nat i - a)) with i by lia. by rewrite Hy.
Qed.

Lemma load_bytes_store_ne m a bs b n :
  b + Z.of_nat n <= a \/ a + Z.of_nat (length bs) <= b ->
  load_bytes (store_bytes m a bs) b n = load_bytes m b n.
Proof.
  intros H. apply load_bytes_ext. intros c Hc.
  rewrite load8_store_bytes, decide_False; [done|lia].
Qed.

Lemma length_le_bytes n v : length (le_bytes n v) = n.
Proof. revert v. induction n; intros; cbn; auto. Qed.

Lemma le_val_bytes n v : le_val (le_bytes n v) = v `mod` 256 ^ Z.of_nat n.
Proof.
  revert v. induction n as [|n IH]; intros v; cbn [le_bytes le_val].
  { by rewrite Z.mod_1_r. }
  rewrite IH, Nat2Z.inj_succ, Z.pow_succ_r by lia.
  rewrite Z.rem_mul_r by lia. lia.
Qed.

Lemma le_bytes_val bs :
  Forall (fun b => 0 <= b < 256) bs -> le_bytes (length bs) (le_val bs) = bs.
Proof.
  induction 1 as [|b bs Hb _ IH]; cbn [length le_bytes le_val]; [done|].
  rewrite (Z.mul_comm 256), Z_mod_plus_full, Z.div_add, Z.div_small, Z.mod_small by lia.
  f_equal. by rewrite Z.add_0_l.
Qed.

Lemma load64_store64_eq m a v : 0 <= v < 2 ^ 64 -> load64 (store64 m a v) a = v.
Proof.
  intros Hv. unfold load64, store64.
  pose proof (load_bytes_store_eq m a (le_bytes 8 v)) as H. rewrite length_le_bytes in H.
  rewrite H, le_val_bytes. apply Z.mod_small. done.
Qed.

Lemma load64_store64_ne m a v b :
  b + 8 <= a \/ a + 8 <= b -> load64 (store64 m a v) b = load64 m b.
Proof.
  intros H. unfold load64, store64. f_equal. apply load_bytes_store_ne.
  rewrite length_le_bytes. lia.
Qed.

Lemma load64_ext m m' a : (forall x, a <= x < a + 8 -> load8 m' x = load8 m x) -> load64 m' a = load64 m a.
Proof. intros E. unfold load64. f_equal. apply load_bytes_ext. intros i Hi. apply E. lia. Qed.

(** ** What memset and memmove do *)

Lemma load8_store64_ne m a v b : ~ (a <= b < a + 8) -> load8 (store64 m a v) b = load8 m b.
Proof.
  intros Hb. unfold store64. rewrite load8_store_bytes, length_le_bytes, decide_False; [done|lia].
Qed.

Lemma load8_memset_loop n i dst c m a :
  load8 (memset_loop n i dst c m) a
  = if decide (dst + i <= a < dst + i + Z.of_nat n) then u8 c else load8 m a.
Proof.
  revert i m. induction n as [|n IH]; intros i m; cbn [memset_loop].
  { by rewrite decide_False by lia. }
  rewrite IH, load8_store8. repeat case_decide; done || lia.
Qed.

Lemma load8_memset m dst c n a :
  0 <= n ->
  load8 (memset m dst c n) a = if decide (dst <= a < dst + n) then u8 c else load8 m a.
Proof.
  intros Hn. unfold memset. rewrite load8_memset_loop. repeat case_decide; done || lia.
Qed.

Lemma load64_zero_bytes n m a :
  (forall b, a <= b < a + Z.of_nat n -> load8 m b = 0) -> le_val (load_bytes m a n) = 0.
Proof.
  revert a. induction n as [|n IH]; intros a H; cbn [load_bytes le_val]; [done|].
  rewrite IH by (intros; apply H; lia). rewrite H by lia. done.
Qed.

(** A word of a zeroed page is 0; a word outside it is unchanged. *)
Lemma load64_memset_zero m dst n a :
  0 <= n -> dst <= a -> a + 8 <= dst + n -> load64 (memset m dst 0 n) a = 0.
Proof.
  intros. apply load64_zero_bytes. intros b Hb.
  by rewrite load8_memset, decide_True by lia.
Qed.
Lemma load64_memset_ne m dst c n a :
  0 <= n -> a + 8 <= dst \/ dst + n <= a -> load64 (memset m dst c n) a = load64 m a.
Proof.
  intros. unfold load64. f_equal. apply load_bytes_ext. intros b Hb.
  by rewrite load8_memset, decide_False by lia.
Qed.

(** Copying upwards is right unless the destination starts inside the source,
    copying downwards unless the source starts above it. *)
Lemma load8_move_up n d s m a :
  d <= s \/ s + Z.of_nat n <= d ->
  load8 (move_up n d s m) a
  = if decide (d <= a < d + Z.of_nat n) then load8 m (s + (a - d)) else load8 m a.
Proof.
  revert d s m. induction n as [|n IH]; intros d s m H; cbn [move_up].
  { by rewrite decide_False by lia. }
  rewrite IH by lia. rewrite !load8_store8. repeat case_decide; try lia; try done.
  - f_equal. lia.
  - f_equal. lia.
Qed.

Lemma load8_move_down n d s m a :
  s <= d ->
  load8 (move_down n d s m) a
  = if decide (d - Z.of_nat n <= a < d) then load8 m (s - (d - a)) else load8 m a.
Proof.
  revert d s m. induction n as [|n IH]; intros d s m H; cbn [move_down].
  { by rewrite decide_False by lia. }
  rewrite IH by lia. rewrite !load8_store8. repeat case_decide; try lia; try done.
  - f_equal. lia.
  - f_equal. lia.
Qed.

Lemma load8_memmove m dst src n a :
  0 <= n ->
  load8 (memmove m dst src n) a
  = if decide (dst <= a < dst + n) then load8 m (src + (a - dst)) else load8 m a.
Proof.
  intros Hn. unfold memmove. destruct (Z.eqb_spec n 0).
  { by rewrite decide_False by lia. }
  destruct ((src <? dst) && (dst <? src + n)) eqn:E.
  - rewrite load8_move_down by lia. repeat case_decide; try lia; try done. f_equal. lia.
  - rewrite load8_move_up by lia. repeat case_decide; done || lia.
Qed.

(** memmove leaves at the destination what the source held
    before the call, however the two ranges overlap, and changes nothing else. *)
Theorem memmove_correct m dst src n a :
  0 <= n ->
  load_bytes (memmove m dst src n) dst (Z.to_nat n) = load_bytes m src (Z.to_nat n) /\
  (a < dst \/ dst + n <= a -> load8 (memmove m dst src n) a = load8 m a).
Proof.
  intros Hn. split.
  - apply list_eq_same_length with (Z.to_nat n); [by rewrite length_load_bytes..|].
    intros i x y Hi Hx Hy. rewrite load_bytes_lookup in Hx, Hy by lia. simplify_eq.
    rewrite load8_memmove, decide_True by lia. f_equal. lia.
  - intros Ha. by rewrite load8_memmove, decide_False by lia.
Qed.
Lemma memmove_correct_witness :
  load_bytes (memmove (store_bytes ∅ 100 [1;2;3;4]) 101 100 3) 101 3 = [1;2;3].
Proof.
  etransitivity; [exact (proj1 (memmove_correct (store_bytes ∅ 100 [1;2;3;4]) 101 100 3 0
    ltac:(lia)))|]. vm_compute. reflexivity.
Defined.

(** ** C strings

    [cstr n p] is the string at [p] as a list: its bytes up to, not
    including, the first NUL, and at most [n] of them. *)
Fixpoint cstr_from (n : nat) (i : Z) (p : Z -> Z) : list Z :=
  match n with
  | O => []
  | S n => if p i =? 0 then [] else p i :: cstr_from n (i + 1) p
  end.
Definition cstr (n : nat) (p : Z -> Z) : list Z := cstr_from n 0 p.

Definition is_bytes (p : Z -> Z) : Prop := forall i, 0 <= p i < 256.

Lemma is_bytes_ptr_of l : Forall (fun b => 0 <= b < 256) l -> is_bytes (ptr_of l).
Proof.
  intros Hl i. unfold ptr_of. destruct (l !! Z.to_nat i) eqn:E; cbn; [|lia].
  rewrite Forall_lookup in Hl. eauto.
Qed.

Lemma strncmp_loop_eq n i p q :
  is_bytes p -> is_bytes q ->
  strncmp_loop n i p q = 0 <-> cstr_from n i p = cstr_from n i q.
Proof.
  intros Hp Hq. revert i. induction n as [|n IH]; intros i; cbn; [done|].
  specialize (Hp i). specialize (Hq i). rewrite !u8_small by done.
  destruct (Z.eqb_spec (p i) 0), (Z.eqb_spec (q i) 0), (Z.eqb_spec (p i) (q i));
    cbn; try lia; rewrite ?IH; split; intros; simplify_eq; lia || congruence || done.
Qed.

(** strncmp returns 0 exactly for strings that agree up to
    their terminator or their first [n] bytes; this is what namecmp relies on. *)
Theorem strncmp_zero p q n :
  is_bytes p -> is_bytes q ->
  strncmp p q n = 0 <-> cstr (Z.to_nat n) p = cstr (Z.to_nat n) q.
Proof. apply strncmp_loop_eq. Qed.
Lemma strncmp_zero_witness :
  strncmp (ptr_of [65;0;1]) (ptr_of [65;0;2]) 3 = 0
  <-> cstr 3 (ptr_of [65;0;1]) = cstr 3 (ptr_of [65;0;2]).
Proof.
  apply (strncmp_zero (ptr_of [65;0;1]) (ptr_of [65;0;2]) 3);
    apply is_bytes_ptr_of; repeat constructor; lia.
Defined.

Lemma ptr_of_cons b l i : 0 <= i -> ptr_of (b :: l) (i + 1) = ptr_of l i.
Proof.
  intros. unfold ptr_of. replace (Z.to_nat (i + 1)) with (S (Z.to_nat i)) by lia. done.
Qed.

Lemma cstr_from_ext n i p j q :
  (forall k, 0 <= k < Z.of_nat n -> p (i + k) = q (j + k)) -> cstr_from n i p = cstr_from n j q.
Proof.
  revert i j. induction n as [|n IH]; intros i j H; cbn; [done|].
  pose proof (H 0 ltac:(lia)) as H0. rewrite !Z.add_0_r in H0. rewrite H0.
  case_match; [done|]. f_equal. apply IH. intros k Hk.
  replace (i + 1 + k) with (i + (k + 1)) by lia. replace (j + 1 + k) with (j + (k + 1)) by lia.
  apply H. lia.
Qed.

Lemma cstr_cons n b l :
  cstr (S n) (ptr_of (b :: l)) = if b =? 0 then [] else b :: cstr n (ptr_of l).
Proof.
  unfold cstr. cbn [cstr_from]. change (ptr_of (b :: l) 0) with b.
  destruct (b =? 0); [done|]. f_equal.
  apply cstr_from_ext. intros k Hk. rewrite (Z.add_0_l k), <- (ptr_of_cons b l k) by lia.
  f_equal. lia.
Qed.

Lemma strncpy_loop_cstr n i t : cstr n (ptr_of (strncpy_loop n i t)) = cstr_from n i t.
Proof.
  revert i. induction n as [|n IH]; intros i; [done|]. cbn [strncpy_loop cstr_from].
  destruct (Z.eqb_spec (t i) 0) as [E|E]; rewrite cstr_cons; [done|].
  rewrite (proj2 (Z.eqb_neq _ _)) by done. by rewrite IH.
Qed.

Lemma length_strncpy t n : length (strncpy t n) = Z.to_nat n.
Proof.
  unfold strncpy. generalize 0. induction (Z.to_nat n) as [|k IH]; intros i; cbn; [done|].
  case_match; cbn; [by rewrite length_replicate|by rewrite IH].
Qed.

(** strncpy fills exactly [n] bytes that hold the string it was given. *)
Lemma strncpy_cstr t n : cstr (Z.to_nat n) (ptr_of (strncpy t n)) = cstr (Z.to_nat n) t.
Proof. apply strncpy_loop_cstr. Qed.

Lemma length_safestrcpy_loop n i t : (1 <= length (safestrcpy_loop n i t) <= S n)%nat.
Proof.
  revert i. induction n as [|n IH]; intros i; cbn; [lia|].
  case_match; cbn; [lia|]. pose proof (IH (i + 1)). lia.
Qed.

Lemma safestrcpy_loop_cstr n i t l :
  cstr (S n) (ptr_of (safestrcpy_loop n i t ++ l)) = cstr_from n i t.
Proof.
  revert i. induction n as [|n IH]; intros i; cbn [safestrcpy_loop cstr_from app].
  { by rewrite cstr_cons. }
  destruct (Z.eqb_spec (t i) 0) as [E|E]; cbn [app]; rewrite cstr_cons; [done|].
  rewrite (proj2 (Z.eqb_neq _ _)) by done. by rewrite IH.
Qed.

(** safestrcpy into a buffer of [n] bytes keeps its size and
    always leaves it NUL-terminated: the string it holds is the source cut to
    [n - 1] bytes, so it never fills the buffer. *)
Theorem safestrcpy_terminates s t n :
  0 < n -> Z.to_nat n = length s ->
  length (safestrcpy s t n) = length s /\
  cstr (length s) (ptr_of (safestrcpy s t n)) = cstr (Z.to_nat (n - 1)) t /\
  (length (cstr (length s) (ptr_of (safestrcpy s t n))) < length s)%nat.
Proof.
  intros Hn Hl. unfold safestrcpy. rewrite (proj2 (Z.leb_gt _ _)) by lia.
  pose proof (length_safestrcpy_loop (Z.to_nat (n - 1)) 0 t) as Hlen.
  assert (length s = S (Z.to_nat (n - 1))) as Hs by lia.
  assert (forall k i, length (cstr_from k i t) <= k)%nat as Hbound.
  { intros k. induction k as [|k IH]; intros i; cbn; [lia|].
    case_match; cbn; [lia|]. specialize (IH (i + 1)). lia. }
  assert (cstr (length s) (ptr_of (patch s 0 (safestrcpy_loop (Z.to_nat (n - 1)) 0 t)))
          = cstr (Z.to_nat (n - 1)) t) as Hc.
  { rewrite Hs. unfold patch. cbn [take app]. apply safestrcpy_loop_cstr. }
  split_and!; [apply length_patch; lia|done|]. rewrite Hc.
  specialize (Hbound (Z.to_nat (n - 1)) 0). unfold cstr. lia.
Qed.
Lemma safestrcpy_terminates_witness :
  cstr 4 (ptr_of (safestrcpy [7;7;7;7] (ptr_of [65;66;67;68;69;0]) 4)) = [65;66;67].
Proof.
  etransitivity; [exact (proj1 (proj2 (safestrcpy_terminates [7;7;7;7]
    (ptr_of [65;66;67;68;69;0]) 4 ltac:(lia) eq_refl)))|]. reflexivity.
Defined.

Lemma strlen_loop_some fuel i s k :
  (forall j, i <= j < i + k -> s j <> 0) -> s (i + k) = 0 -> 0 <= k < Z.of_nat fuel ->
  strlen_loop fuel i s = Some (i + k).
Proof.
  revert i k. induction fuel as [|f IH]; intros i k Hnz Hz Hk; [lia|]. cbn.
  destruct (decide (k = 0)) as [->|].
  - rewrite Z.add_0_r in Hz. rewrite Hz, Z.add_0_r. done.
  - rewrite (proj2 (Z.eqb_neq (s i) 0)) by (apply Hnz; lia).
    rewrite (IH (i + 1) (k - 1)); [f_equal; lia| |rewrite <- Hz; f_equal; lia|lia].
    intros j Hj. apply Hnz. lia.
Qed.
