(* ===== verification/Kalloc.v ===== *)
(** * The physical page allocator (kalloc.c).

    Free pages form a linked list threaded through the pages themselves: the
    first word of a free page is the address of the next one.  [free_list]
    relates memory and [kmem.freelist] to the abstract list of free pages; the
    operations refine pushing and popping it. *)

From S2P Require Import Prelude Defs KMonad Lock Mem.

(** Addresses fixed by the linker (kernel.ld) and the code addresses stored
    in trap frames and contexts. *)
Class KernelImage := {
  end_ : Z;
  etext : Z;
  trampoline : Z;
  forkret_addr : Z;
  usertrap_addr : Z;
  image_layout : KERNBASE < etext /\ etext <= end_ /\ end_ <= PHYSTOP
}.

Section Code.
Context `{Fuel, KernelImage}.

Definition mem_memset (a c n : Z) : K unit :=
  modify (fun s => s <| ks_mem ::= fun m => memset m a c n |>).

(** r->next *)
Definition run_next (r : Z) : K Z := get (fun s => load64 (ks_mem s) r).
Definition set_run_next (r v : Z) : K unit :=
  modify (fun s => s <| ks_mem ::= fun m => store64 m r v |>).

Definition kfree (pa : Z) : K unit :=
  if negb (pa `mod` PGSIZE =? 0) || (pa <? end_) || (PHYSTOP <=? pa) then panic "kfree"
  else
    mem_memset pa 1 PGSIZE ;;
    acquire L_kmem ;;
    let! hd := get ks_freelist in
    set_run_next pa hd ;;
    modify (fun s => s <| ks_freelist := pa |>) ;;
    release L_kmem.

Definition kalloc : K Z :=
  acquire L_kmem ;;
  let! r := get ks_freelist in
  when (negb (r =? 0))
    (let! next := run_next r in modify (fun s => s <| ks_freelist := next |>)) ;;
  release L_kmem ;;
  when (negb (r =? 0)) (mem_memset r 5 PGSIZE) ;;
  ret r.

(** [for(; p + PGSIZE <= pa_end; p += PGSIZE) kfree(p);] *)
Definition freerange (pa_start pa_end : Z) : K unit :=
  let p := PGROUNDUP pa_start in
  loop (S (Z.to_nat ((pa_end - p) / PGSIZE)))
    (fun p => if p + PGSIZE <=? pa_end then kfree p ;; ret (inl (p + PGSIZE))
              else ret (inr tt)) p.

Definition kinit : K unit :=
  initlock L_kmem "kmem" ;;
  freerange end_ PHYSTOP.
End Code.

(** ** The free list *)

Section Invariant.
Context `{KernelImage}.

Definition page_ok (pa : Z) : Prop :=
  pa `mod` PGSIZE = 0 /\ end_ <= pa < PHYSTOP.
#[global] Instance page_ok_dec pa : Decision (page_ok pa).
Proof. unfold page_ok. apply _. Defined.

Fixpoint chain (m : gmap Z Z) (r : Z) (l : list Z) : Prop :=
  match l with
  | [] => r = 0
  | p :: l => r = p /\ chain m (load64 m p) l
  end.

(** [l] is the list of free pages, in allocation order. *)
Record free_list (s : kstate) (l : list Z) : Prop := mk_free_list {
  fl_chain : chain (ks_mem s) (ks_freelist s) l;
  fl_nodup : NoDup l;
  fl_pages : Forall page_ok l
}.

Lemma page_ok_bounds pa : page_ok pa -> KERNBASE < pa /\ pa + PGSIZE <= PHYSTOP.
Proof.
  intros [Hm Hb]. pose proof image_layout.
  split; [lia|]. unfold PHYSTOP, KERNBASE, PGSIZE in *.
  apply Z.mod_divide in Hm; [|done]. destruct Hm as [k ->]. lia.
Qed.

Lemma page_ok_nz pa : page_ok pa -> (pa =? 0) = false.
Proof. intros Hp%page_ok_bounds. unfold KERNBASE in Hp. lia. Qed.

(** Distinct pages do not overlap. *)
Lemma page_disjoint p q :
  page_ok p -> page_ok q -> p <> q -> p + PGSIZE <= q \/ q + PGSIZE <= p.
Proof.
  intros [Hp _] [Hq _] Hne. unfold PGSIZE in *.
  apply Z.mod_divide in Hp as [a ->]; [|done]. apply Z.mod_divide in Hq as [b ->]; [|done].
  lia.
Qed.

Lemma chain_ext m m' r l :
  (forall p, p ∈ l -> load64 m p = load64 m' p) -> chain m r l -> chain m' r l.
Proof.
  revert r. induction l as [|p l IH]; intros r Hext; cbn; [done|].
  intros [-> Hc]. split; [done|]. rewrite <- Hext by set_solver.
  apply IH; [set_solver|done].
Qed.

(** The free list survives any change of memory outside the free pages. *)
Lemma free_list_frame s s' l :
  ks_freelist s' = ks_freelist s ->
  (forall p, p ∈ l -> load64 (ks_mem s') p = load64 (ks_mem s) p) ->
  free_list s l -> free_list s' l.
Proof.
  intros Hf Hm [Hc Hn Hp]. split; [|done..]. rewrite Hf.
  eapply chain_ext; [|done]. intros p Hin. symmetry. auto.
Qed.
End Invariant.

(** ** The operations *)

Section Specs.
Context `{Fuel, KernelImage}.

(** The state in which kfree(pa) and kalloc() leave the machine. *)
Definition freed (pa : Z) (s : kstate) : kstate :=
  s <| ks_mem ::= fun m => store64 (memset m pa 1 PGSIZE) pa (ks_freelist s) |>
    <| ks_freelist := pa |>.
Definition alloced (s : kstate) : kstate :=
  s <| ks_mem ::= fun m => memset m (ks_freelist s) 5 PGSIZE |>
    <| ks_freelist := load64 (ks_mem s) (ks_freelist s) |>.

Lemma kfree_eq pa s :
  hart_ok s -> lock_free L_kmem s -> page_ok pa -> kfree pa s = Done tt (freed pa s).
Proof.
  intros Hs Hl [Hm Hb]. unfold kfree. rewrite Hm.
  replace (pa <? end_) with false by lia. replace (PHYSTOP <=? pa) with false by lia.
  cbn [Z.eqb negb orb]. unfold mem_memset. kprim. kstep acquire_ok; [|done..].
  unfold set_run_next. kprim.
  restate (acq L_kmem (freed pa s)). by apply release_acq.
Qed.

Lemma kfree_bad pa s : ~ page_ok pa -> kfree pa s = Panic "kfree".
Proof.
  intros Hp. unfold kfree.
  destruct (negb (pa `mod` PGSIZE =? 0) || (pa <? end_) || (PHYSTOP <=? pa)) eqn:E; [done|].
  destruct Hp. unfold page_ok. lia.
Qed.

Lemma kalloc_some_eq s l p :
  hart_ok s -> lock_free L_kmem s -> free_list s (p :: l) ->
  kalloc s = Done p (alloced s).
Proof.
  intros Hs Hl [[Hr Hc] Hn Hp]. inversion Hp as [|? ? Hpp _].
  unfold kalloc. kstep acquire_ok; [|done..]. kprim. cbn [ks_freelist acq].
  change (ks_freelist (acq L_kmem s)) with (ks_freelist s).
  rewrite Hr, (page_ok_nz p Hpp). cbn [negb]. unfold when, run_next. kprim.
  restate (acq L_kmem (s <| ks_freelist := load64 (ks_mem s) p |>)).
  kstep release_acq; [|done..]. unfold mem_memset. kprim.
  unfold ret, alloced. rewrite Hr. apply f_equal. kstate_eq.
Qed.

Lemma kalloc_none_eq s :
  hart_ok s -> lock_free L_kmem s -> free_list s [] -> kalloc s = Done 0 s.
Proof.
  intros Hs Hl [Hr _ _]. unfold kalloc. kstep acquire_ok; [|done..]. kprim.
  change (ks_freelist (acq L_kmem s)) with (ks_freelist s).
  cbn in Hr. rewrite Hr. cbn [negb Z.eqb when]. kprim.
  kstep (release_acq L_kmem s); [|done..]. done.
Qed.
End Specs.

(** ** Refinement of the free list *)

Section Theorems.
Context `{Fuel, KernelImage}.

Lemma free_list_freed pa s l :
  free_list s l -> page_ok pa -> pa ∉ l -> free_list (freed pa s) (pa :: l).
Proof.
  intros [Hc Hn Hp] Hpa Hnin. split; [|by constructor..].
  assert (0 <= ks_freelist s < 2 ^ 64).
  { destruct l as [|q l]; cbn in Hc; [lia|]. destruct Hc as [-> _].
    apply Forall_cons in Hp as [Hq _]. apply page_ok_bounds in Hq.
    unfold PHYSTOP, KERNBASE, PGSIZE in Hq. lia. }
  cbn. split; [done|]. rewrite load64_store64_eq by done.
  eapply chain_ext; [|done]. intros q Hq. cbn.
  rewrite Forall_forall in Hp. 
  assert (pa <> q) by (by intros ->). pose proof (page_disjoint pa q Hpa (Hp q Hq)) as Hd.
  unfold PGSIZE in *.
  rewrite load64_store64_ne by lia. by rewrite load64_memset_ne by lia.
Qed.

Lemma free_list_alloced p l s : free_list s (p :: l) -> free_list (alloced s) l.
Proof.
  intros [[Hr Hc] Hn Hp]. apply NoDup_cons in Hn as [Hnin Hn'].
  apply Forall_cons in Hp as [Hpp Hpl]. rewrite Forall_forall in Hpl.
  split; [|done|by apply Forall_forall]. cbn. rewrite Hr in *.
  eapply chain_ext; [|done]. intros q Hq.
  assert (p <> q) by (by intros ->). pose proof (page_disjoint _ q Hpp (Hpl q Hq)).
  unfold PGSIZE in *.
  by rewrite load64_memset_ne by lia.
Qed.

(** C27: with free pages [p :: l], kalloc() returns [p], which is a
    page of RAM not free any more, leaves exactly [l] free, fills the page
    with 5s, touches no memory outside it and leaves every lock and the
    hart's interrupt state as they were. *)
Theorem kalloc_correct s p l :
  hart_ok s -> lock_free L_kmem s -> free_list s (p :: l) ->
  runs kalloc s (fun r s' =>
    r = p /\ page_ok r /\ (r ∉ l) /\ free_list s' l /\
    (forall a, p <= a < p + PGSIZE -> load8 (ks_mem s') a = 5) /\
    (forall a, ~ (p <= a < p + PGSIZE) -> load8 (ks_mem s') a = load8 (ks_mem s) a) /\
    same_hart s s').
Proof.
  intros Hs Hl Hf. exists p, (alloced s). split; [by eapply kalloc_some_eq|].
  pose proof (free_list_alloced p l s Hf) as Hf'. destruct Hf as [[Hr _] Hn Hp].
  apply NoDup_cons in Hn as [Hn _]. apply Forall_cons in Hp as [Hp _].
  split_and!; [done|done|done|done| | |done..]; intros a Ha; cbn;
    rewrite Hr, load8_memset by done.
  - by rewrite decide_True.
  - by rewrite decide_False.
Qed.

(** with no free page kalloc() returns the null pointer
    and changes nothing. *)
Theorem kalloc_empty s :
  hart_ok s -> lock_free L_kmem s -> free_list s [] -> kalloc s = Done 0 s.
Proof. apply kalloc_none_eq. Qed.

(** C26: kfree() of a page of RAM that is not free puts it at the
    head of the free list and touches only that page; of anything else (not
    page aligned, inside the kernel image, beyond RAM) it panics. *)
Theorem kfree_correct s pa l :
  hart_ok s -> lock_free L_kmem s -> free_list s l -> pa ∉ l ->
  if decide (page_ok pa) then
    runs (kfree pa) s (fun _ s' =>
      free_list s' (pa :: l) /\
      (forall a, ~ (pa <= a < pa + PGSIZE) -> load8 (ks_mem s') a = load8 (ks_mem s) a) /\
      same_hart s s')
  else kfree pa s = Panic "kfree".
Proof.
  intros Hs Hl Hf Hn. case_decide as Hp; [|by apply kfree_bad].
  exists tt, (freed pa s). split; [by apply kfree_eq|].
  split_and!; [by apply free_list_freed| |done..].
  intros a Ha. cbn. unfold store64. rewrite load8_store_bytes, length_le_bytes.
  rewrite decide_False, load8_memset, decide_False; unfold PGSIZE in *; lia || done.
Qed.

(** ** Initialisation *)

Definition free_body (pa_end p : Z) : K (Z + unit) :=
  if p + PGSIZE <=? pa_end then kfree p ;; ret (inl (p + PGSIZE)) else ret (inr tt).

(** The loop of freerange, from a page [p] with the pages below it free. *)
Lemma freerange_loop n p s l :
  hart_ok s -> lock_free L_kmem s -> free_list s l ->
  p `mod` PGSIZE = 0 -> end_ <= p <= PHYSTOP -> (PHYSTOP - p) / PGSIZE < Z.of_nat n ->
  (forall q, q ∈ l <-> page_ok q /\ q < p) ->
  exists s' l', loop n (free_body PHYSTOP) p s = Done tt s' /\
    free_list s' l' /\ (forall q, q ∈ l' <-> page_ok q) /\
    same_hart s s'.
Proof.
  revert p s l. induction n as [|n IH]; intros p s l Hs Hk Hf Hm Hp Hn Hl.
  { assert (0 <= (PHYSTOP - p) / PGSIZE) by (apply Z.div_pos; [lia|done]). lia. }
  assert (PHYSTOP `mod` PGSIZE = 0) as HP by done.
  destruct (decide (p = PHYSTOP)) as [->|Hne].
  - exists s, l. split; [apply loop_done; reflexivity|]. split_and!; try done.
    intros q. rewrite Hl. unfold page_ok. lia.
  - assert (p + PGSIZE <= PHYSTOP) as Hle by (unfold PGSIZE in *; dlia).
    assert (page_ok p) as Hpp by (split; lia).
    assert (p ∉ l) as Hnin by (rewrite Hl; lia).
    destruct (IH (p + PGSIZE) (freed p s) (p :: l)) as (s' & l' & Hrun & Hf' & Hl' & Hh'); try done.
    + by apply free_list_freed.
    + unfold PGSIZE in *. dlia.
    + unfold PGSIZE in *. lia.
    + replace (PHYSTOP - (p + PGSIZE)) with (PHYSTOP - p + (-1) * PGSIZE) by lia.
      rewrite Z.div_add by done. lia.
    + intros q. rewrite elem_of_cons, Hl. pose proof (page_disjoint p q Hpp) as Hd.
      assert (q = p -> page_ok q) by (by intros ->). unfold PGSIZE in *.
      destruct (decide (q = p)); [|destruct (decide (page_ok q)); [|tauto]].
      * split; [intros _; split; [auto|lia]|by left].
      * assert (q < p <-> q < p + 4096) by (specialize (Hd ltac:(assumption)); lia). tauto.
    + exists s', l'. split_and!; [|done..|by transitivity (freed p s)]. erewrite loop_next; [exact Hrun|].
      unfold free_body. rewrite (proj2 (Z.leb_le _ _)) by done.
      by kstep kfree_eq.
Qed.

(** from an empty allocator kinit() frees exactly the pages of
    RAM beyond the kernel image, each once, and returns with [kmem.lock]
    initialised and free. *)
Theorem kinit_correct s :
  hart_ok s -> ks_freelist s = 0 ->
  runs kinit s (fun _ s' => exists l,
    free_list s' l /\ (forall p, p ∈ l <-> page_ok p) /\
    lock_free L_kmem s' /\ hart_ok s').
Proof.
  intros Hs Hf. unfold runs, kinit, initlock. kstep set_lock_eq.
  set (s1 := s <| ks_locks ::= <[L_kmem := _]> |>).
  pose proof image_layout as (Hk & Hke & Hend).
  assert (0 <= end_ /\ end_ + PGSIZE <= 2 ^ 64) as [He0 He1]
    by (unfold PHYSTOP, KERNBASE, PGSIZE in *; lia).
  destruct (PGROUNDUP_range end_ He0 He1) as [Hm Hr].
  assert (PGROUNDUP end_ <= PHYSTOP).
  { assert (PHYSTOP `mod` PGSIZE = 0) by done. unfold PGSIZE in *. dlia. }
  assert (lock_free L_kmem s1) as Hl1 by (unfold lock_free; cbn; by rewrite lookup_insert_eq).
  destruct (freerange_loop (S (Z.to_nat ((PHYSTOP - PGROUNDUP end_) / PGSIZE)))
    (PGROUNDUP end_) s1 []) as (s' & l & Hrun & Hfl & Hl & Hsame); try done.
  - by split; [|constructor..].
  - lia.
  - rewrite Nat2Z.inj_succ, Z2Nat.id; [lia|]. apply Z.div_pos; [lia|done].
  - intros q. rewrite elem_of_nil. split; [done|]. intros [[Hq1 Hq2] Hq3].
    unfold PGSIZE in *. dlia.
  - exists tt, s'. split; [exact Hrun|]. exists l. split_and!; try done.
    + by apply (lock_free_same _ s1).
    + by apply (hart_ok_same s1).
Qed.
End Theorems.

(** ** Witnesses: a machine with three free pages of RAM. *)

#[local] Instance fuel_two : Fuel := {| fuel := 2; fuel_pos := ltac:(lia) |}.
#[local] Instance small_image : KernelImage := {|
  end_ := PHYSTOP - 3 * PGSIZE; etext := KERNBASE + 0x8000; trampoline := KERNBASE + 0x7000;
  forkret_addr := 0; usertrap_addr := 0; image_layout := ltac:(vm_compute; intuition congruence) |}.

Definition booted : kstate :=
  match kinit zero_state with Done _ s => s | _ => zero_state end.
Definition page (i : Z) : Z := PHYSTOP - (i + 1) * PGSIZE.

Lemma booted_free : free_list booted [page 0; page 1; page 2].
Proof.
  split; [vm_compute; intuition congruence|apply (bool_decide_unpack _); vm_compute; done|].
  apply (bool_decide_unpack _). vm_compute. done.
Defined.
Lemma booted_hart : hart_ok booted /\ lock_free L_kmem booted.
Proof. vm_compute. intuition congruence. Defined.

Lemma kalloc_correct_witness :
  runs kalloc booted (fun r s' => r = page 0 /\ free_list s' [page 1; page 2]).
Proof.
  pose proof (kalloc_correct booted (page 0) [page 1; page 2] (proj1 booted_hart)
    (proj2 booted_hart) booted_free) as Hw.
  eapply runs_conseq; [exact Hw|]. cbv beta. intros a s' H. split; apply H.
Defined.

Definition drained : kstate := booted <| ks_freelist := 0 |>.
Lemma kalloc_empty_witness : kalloc drained = Done 0 drained.
Proof.
  apply kalloc_empty; [vm_compute; reflexivity|vm_compute; split; reflexivity|].
  split; [reflexivity|constructor..].
Defined.

Lemma kfree_correct_witness :
  runs (kfree (page 0)) (alloced booted)
    (fun _ s' => free_list s' [page 0; page 1; page 2]).
Proof.
  pose proof (kfree_correct (alloced booted) (page 0) [page 1; page 2]
    ltac:(vm_compute; reflexivity) ltac:(vm_compute; split; reflexivity)
    (free_list_alloced _ _ _ booted_free)
    ltac:(apply (bool_decide_unpack _); vm_compute; done)) as Hw.
  rewrite decide_True in Hw by (apply (bool_decide_unpack _); vm_compute; done).
  eapply runs_conseq; [exact Hw|]. cbv beta. intros a s' H. apply H.
Defined.

Lemma kinit_correct_witness : runs kinit zero_state (fun _ s' => lock_free L_kmem s').
Proof.
  eapply runs_conseq; [exact (kinit_correct zero_state eq_refl eq_refl)|].
  cbv beta. intros a s' (l & H). apply H.
Defined.
