(* ===== verification/Sched.v ===== *)
(** * Processes as seen by the scheduler (proc.c: myproc, sched, yield, sleep,
    wakeup, kill, killed, setkilled, scheduler).

    swtch() hands the processor over: in the model it is a [Yield], after
    which the function continues from whatever state the rest of the system
    reached. *)

From S2P Require Import Prelude Defs KMonad Lock.

(** ** Code *)

Definition proc_of (p : nat) : K proc := let! l := get ks_proc in deref l p.
Definition set_proc (p : nat) (f : proc -> proc) : K unit :=
  let! _ := proc_of p in modify (fun s => s <| ks_proc ::= alter f p |>).

Definition myproc : K (option nat) :=
  push_off ;;
  let! c := mycpu in
  let! cp := cpu_of c in
  pop_off ;;
  ret (c_proc cp).

(** [struct proc *p = myproc();] followed by a use of [p->...]. *)
Definition cur_proc : K nat := let! p := myproc in nonnull p.

Section Code.
Context `{Fuel}.

Definition sched : K unit :=
  let! p := cur_proc in
  let! h := holding (L_proc p) in
  if negb h then panic "sched p->lock" else
  let! c := mycpu in
  let! cp := cpu_of c in
  if negb (c_noff cp =? 1) then panic "sched locks" else
  let! pr := proc_of p in
  if bool_decide (p_state pr = RUNNING) then panic "sched running" else
  let! on := intr_get in
  if on then panic "sched interruptible" else
  let! c := mycpu in
  let! cp := cpu_of c in
  let intena := c_intena cp in
  yield_to (Swtch p) ;;
  let! c := mycpu in
  set_cpu c (fun x => x <| c_intena := intena |>).

Definition yield : K unit :=
  let! p := cur_proc in
  acquire (L_proc p) ;;
  set_proc p (fun x => x <| p_state := RUNNABLE |>) ;;
  sched ;;
  release (L_proc p).

Definition sleep (ch : chan) (lk : lockid) : K unit :=
  let! p := cur_proc in
  acquire (L_proc p) ;;
  release lk ;;
  set_proc p (fun x => x <| p_chan := Some ch |>) ;;
  set_proc p (fun x => x <| p_state := SLEEPING |>) ;;
  sched ;;
  set_proc p (fun x => x <| p_chan := None |>) ;;
  release (L_proc p) ;;
  acquire lk.

Definition wakeup_one (ch : chan) (p : nat) : K unit :=
  let! me := myproc in
  if bool_decide (me = Some p) then ret tt else
  acquire (L_proc p) ;;
  let! pr := proc_of p in
  when (bool_decide (p_state pr = SLEEPING) && bool_decide (p_chan pr = Some ch))
    (set_proc p (fun x => x <| p_state := RUNNABLE |>)) ;;
  release (L_proc p).

Definition wakeup (ch : chan) : K unit := for_each (seq 0 NPROC) (wakeup_one ch).

Definition kill (pid : Z) : K Z :=
  let! r := for_find (seq 0 NPROC) (fun p =>
    acquire (L_proc p) ;;
    let! pr := proc_of p in
    if p_pid pr =? pid then
      set_proc p (fun x => x <| p_killed := 1 |>) ;;
      let! pr := proc_of p in
      when (bool_decide (p_state pr = SLEEPING))
        (set_proc p (fun x => x <| p_state := RUNNABLE |>)) ;;
      release (L_proc p) ;;
      ret (Some 0)
    else release (L_proc p) ;; ret None) in
  ret (default (-1) r).

Definition setkilled (p : nat) : K unit :=
  acquire (L_proc p) ;;
  set_proc p (fun x => x <| p_killed := 1 |>) ;;
  release (L_proc p).

Definition killed (p : nat) : K Z :=
  acquire (L_proc p) ;;
  let! pr := proc_of p in
  let k := p_killed pr in
  release (L_proc p) ;;
  ret k.

(** One round of the scheduler's endless loop on the executing cpu [c]. *)
Definition scheduler_round (c : nat) : K unit :=
  intr_on ;;
  let! found := loop (S NPROC) (fun '(p, found) =>
    if (NPROC <=? p)%nat then ret (inr found) else
    acquire (L_proc p) ;;
    let! pr := proc_of p in
    if bool_decide (p_state pr = RUNNABLE) then
      set_proc p (fun x => x <| p_state := RUNNING |>) ;;
      set_cpu c (fun x => x <| c_proc := Some p |>) ;;
      yield_to (Dispatch p) ;;
      set_cpu c (fun x => x <| c_proc := None |>) ;;
      release (L_proc p) ;;
      ret (inl (S p, true))
    else
      release (L_proc p) ;;
      ret (inl (S p, found))) (O, false) in
  when (negb found) (intr_on ;; yield_to Wfi).

(** scheduler(): [rounds] of the loop, which in the source never ends. *)
Definition scheduler (rounds : nat) : K unit :=
  let! c := mycpu in
  set_cpu c (fun x => x <| c_proc := None |>) ;;
  for_each (seq 0 rounds) (fun _ => scheduler_round c).
End Code.

(** ** The current process *)

Definition cur (s : kstate) : option nat :=
  match ks_cpus s !! ks_tp s with Some c => c_proc c | None => None end.

Lemma cur_acq lk s : cur (acq lk s) = cur s.
Proof.
  unfold cur. cbn. rewrite list_lookup_alter_eq. by destruct (ks_cpus s !! ks_tp s).
Qed.
Lemma cur_same s s' : same_hart s s' -> cur s' = cur s.
Proof. intros [_ Hc _ Ht]. unfold cur. by rewrite Hc, Ht. Qed.

Lemma cpu_of_pushed s c :
  ks_cpus s !! ks_tp s = Some c ->
  cpu_of (ks_tp s) (pushed s) = Done (c <| c_noff ::= Z.add 1 |>) (pushed s).
Proof.
  intros Hc. unfold cpu_of. rewrite kbind_get. apply deref_some. cbn.
  by rewrite list_lookup_alter_eq, Hc.
Qed.

Lemma myproc_ok s : hart_ok s -> myproc s = Done (cur s) s.
Proof.
  intros Hs. unfold myproc, cur. kstep push_off_ok; [|done].
  unfold mycpu, cpuid. kprim. change (ks_tp (pushed s)) with (ks_tp s).
  pose proof Hs as Hs'. hart_cases; (kstep cpu_of_pushed; [|done]);
    (kstep pop_off_pushed; [|done]); done.
Qed.

Lemma cur_proc_ok s p : hart_ok s -> cur s = Some p -> cur_proc s = Done p s.
Proof. intros Hs Hp. unfold cur_proc. kstep myproc_ok; [|done]. by rewrite Hp. Qed.

Lemma proc_of_ok s p pr : ks_proc s !! p = Some pr -> proc_of p s = Done pr s.
Proof. intros Hp. unfold proc_of. rewrite kbind_get. by apply deref_some. Qed.

Lemma set_proc_ok s p pr f :
  ks_proc s !! p = Some pr -> set_proc p f s = Done tt (s <| ks_proc ::= alter f p |>).
Proof. intros Hp. unfold set_proc. by kstep proc_of_ok. Qed.

(** ** wakeup *)

Definition wake (ch : chan) (pr : proc) : proc :=
  if bool_decide (p_state pr = SLEEPING) && bool_decide (p_chan pr = Some ch)
  then pr <| p_state := RUNNABLE |> else pr.

Definition woken (me : option nat) (ch : chan) (s : kstate) : kstate :=
  s <| ks_proc ::= imap (fun p pr => if bool_decide (me = Some p) then pr else wake ch pr) |>.

Section Specs.
Context `{Fuel}.

Lemma wakeup_one_ok ch p s pr :
  hart_ok s -> (cur s <> Some p -> lock_free (L_proc p) s) -> ks_proc s !! p = Some pr ->
  wakeup_one ch p s
  = Done tt (s <| ks_proc ::= alter (fun x => if bool_decide (cur s = Some p) then x
                                              else wake ch x) p |>).
Proof.
  intros Hs Hl Hp. unfold wakeup_one. kstep myproc_ok; [|done]. case_bool_decide as Hc.
  { unfold ret. apply f_equal. kstate_eq. symmetry. by eapply list_alter_id_at. }
  specialize (Hl Hc). kstep acquire_ok; [|done..].
  kstep proc_of_ok; [|done]. set (f := fun x : proc => x <| p_state := RUNNABLE |>).
  unfold wake. destruct (bool_decide _ && bool_decide _) eqn:E; cbn [when].
  - kstep set_proc_ok; [|done].
    restate (acq (L_proc p) (s <| ks_proc ::= alter f p |>)).
    rewrite release_acq by done. apply f_equal. kstate_eq.
    apply list_alter_ext; [|done]. intros x Hx. simplify_eq. by rewrite E.
  - rewrite kbind_ret, release_acq by done. apply f_equal. kstate_eq. symmetry.
    eapply list_alter_id_at; [done|]. cbn. by rewrite E.
Qed.

Lemma wakeup_seq_ok ch n k s :
  hart_ok s ->
  (forall p, (k <= p < k + n)%nat -> cur s <> Some p -> lock_free (L_proc p) s) ->
  (k + n <= length (ks_proc s))%nat ->
  for_each (seq k n) (wakeup_one ch) s
  = Done tt (s <| ks_proc ::= imap (fun p pr =>
      if bool_decide (k <= p < k + n)%nat && bool_decide (cur s <> Some p)
      then wake ch pr else pr) |>).
Proof.
  revert k s. induction n as [|n IH]; intros k s Hs Hl Hlen; cbn [seq for_each].
  - unfold ret. apply f_equal. kstate_eq. apply list_eq. intros i. rewrite list_lookup_imap.
    destruct (ks_proc s !! i); cbn; [|done]. by rewrite bool_decide_false by lia.
  - destruct (lookup_lt_is_Some_2 (ks_proc s) k) as [pr Hpr]; [lia|].
    kstep wakeup_one_ok; [|done|apply Hl; lia|done].
    rewrite IH; [|done|intros; apply Hl; [lia|done]|cbn; rewrite length_alter; lia].
    apply f_equal. kstate_eq. apply list_eq. intros i.
    rewrite !list_lookup_imap, list_lookup_alter. change (cur (upd _ _ s)) with (cur s).
    case_decide as Hi; [subst i; rewrite Hpr|destruct (ks_proc s !! i); [|done]]; cbn; f_equal.
    + rewrite (bool_decide_false (S k <= k < _)%nat) by lia.
      rewrite (bool_decide_true (k <= k < _)%nat) by lia. cbn.
      by repeat case_bool_decide.
    + replace (bool_decide (S k <= i < S k + n)%nat) with (bool_decide (k <= i < k + S n)%nat);
        [done|]. apply bool_decide_ext. lia.
Qed.

Lemma wakeup_ok ch s :
  hart_ok s -> (forall p, (p < NPROC)%nat -> cur s <> Some p -> lock_free (L_proc p) s) ->
  length (ks_proc s) = NPROC -> wakeup ch s = Done tt (woken (cur s) ch s).
Proof.
  intros Hs Hl Hlen. unfold wakeup. rewrite wakeup_seq_ok; [|done|..].
  - apply f_equal. kstate_eq. apply imap_ext. intros i x Hi%lookup_lt_Some.
    rewrite (bool_decide_true (0 <= i < _)%nat) by (rewrite Hlen in Hi; lia). cbn.
    by repeat case_bool_decide.
  - intros p Hp. apply Hl. lia.
  - rewrite Hlen. lia.
Qed.

(** ** sched and sleep *)

(** A process on a hart that holds no lock: what sched() checks before the
    process's own lock is taken. *)
Record on_cpu (s : kstate) (p : nat) (c : cpu) (pr : proc) : Prop := mk_on_cpu {
  oc_hart : hart_ok s;
  oc_cpu : ks_cpus s !! ks_tp s = Some c;
  oc_noff : c_noff c = 0;
  oc_proc : c_proc c = Some p;
  oc_entry : ks_proc s !! p = Some pr;
  oc_lock : lock_free (L_proc p) s
}.

(** The thread [p] resumed on the hart of [s']: it brings its own interrupt
    flag [sie]. *)
Definition resumed (sie : bool) (s' : kstate) : kstate :=
  s' <| ks_sie := sie |>
     <| ks_cpus ::= alter (fun x => x <| c_intena := b2z sie |>) (ks_tp s') |>.

Lemma cpu_of_acq lk s c :
  ks_cpus s !! ks_tp s = Some c ->
  cpu_of (ks_tp s) (acq lk s) = Done (c <| c_noff ::= Z.add 1 |>) (acq lk s).
Proof.
  intros Hc. unfold cpu_of. rewrite kbind_get. apply deref_some. cbn.
  by rewrite list_lookup_alter_eq, Hc.
Qed.

Lemma set_cpu_ok c f s x :
  ks_cpus s !! c = Some x -> set_cpu c f s = Done tt (s <| ks_cpus ::= alter f c |>).
Proof.
  intros Hx. unfold set_cpu, cpu_of. rewrite kbind_kbind_get. by kstep deref_some.
Qed.

Lemma resumed_acq lk sie s' :
  (acq lk s') <| ks_cpus ::= alter (fun x => x <| c_intena := b2z sie |>) (ks_tp s') |>
  = acq lk (resumed sie s').
Proof.
  kstate_eq. rewrite !list_alter_alter_eq. by apply list_alter_ext.
Qed.

Lemma sched_yields s p c pr :
  on_cpu s p c pr -> p_state pr <> RUNNING ->
  exists k, sched (acq (L_proc p) s) = Yield (Swtch p) (acq (L_proc p) s) k /\
    forall s' c', ks_cpus s' !! ks_tp s' = Some c' ->
      k (acq (L_proc p) s') = Done tt (acq (L_proc p) (resumed (ks_sie s) s')).
Proof.
  intros [Hs Hc Hn Hp Hpr Hl] Hst. unfold sched.
  kstep (cur_proc_ok _ p); [|by apply hart_ok_acq|rewrite cur_acq; unfold cur; by rewrite Hc].
  kstep holding_acq; [|done]. cbn [negb]. unfold mycpu, cpuid, intr_get. kprim.
  change (ks_tp (acq (L_proc p) s)) with (ks_tp s). kstep cpu_of_acq; [|done].
  replace (c_noff (c <| c_noff ::= Z.add 1 |>)) with 1 by (cbn; lia). cbn [negb Z.eqb Pos.eqb].
  kstep proc_of_ok; [|done]. rewrite bool_decide_false by done. kprim.
  change (ks_sie (acq (L_proc p) s)) with false. cbv iota. kprim.
  change (ks_tp (acq (L_proc p) s)) with (ks_tp s). kstep cpu_of_acq; [|done].
  eexists. split; [reflexivity|]. intros s' c' Hc'. cbn [obind]. kprim.
  change (ks_tp (acq (L_proc p) s')) with (ks_tp s'). erewrite set_cpu_ok.
  2: { cbn. rewrite list_lookup_alter_eq, Hc'. reflexivity. }
  apply f_equal. rewrite <- resumed_acq. do 3 f_equal.
  unfold hart_ok, cpu_consistent in Hs. rewrite Hc, decide_True in Hs by done.
  destruct c; cbn in *. by rewrite Hs.
Qed.

Lemma hart_ok_resumed sie s' c' :
  ks_cpus s' !! ks_tp s' = Some c' -> c_noff c' = 0 -> hart_ok (resumed sie s').
Proof.
  intros Hc Hn. unfold hart_ok, cpu_consistent. cbn.
  by rewrite list_lookup_alter_eq, Hc; cbn; rewrite decide_True.
Qed.

(** sleep, as its callers use it. *)
Lemma sleep_yields s p c pr ch lk :
  on_cpu s p c pr -> lock_free lk s -> lk <> L_proc p ->
  exists k,
    sleep ch lk (acq lk s)
    = Yield (Swtch p)
        (acq (L_proc p) (s <| ks_proc ::= alter (fun x =>
           x <| p_chan := Some ch |> <| p_state := SLEEPING |>) p |>)) k /\
    forall s' c' pr',
      ks_cpus s' !! ks_tp s' = Some c' -> c_noff c' = 0 -> ks_proc s' !! p = Some pr' ->
      lock_free lk s' -> lock_free (L_proc p) s' ->
      k (acq (L_proc p) s')
      = Done tt (acq lk ((resumed (ks_sie s) s')
                          <| ks_proc ::= alter (fun x => x <| p_chan := None |>) p |>)).
Proof.
  intros Hon Hlk Hne. pose proof Hon as [Hs Hc Hn Hp Hpr Hl]. unfold sleep.
  kstep (cur_proc_ok _ p); [|by apply hart_ok_acq|rewrite cur_acq; unfold cur; by rewrite Hc].
  kstep acquire_ok; [|by apply hart_ok_acq|by apply lock_free_acq].
  rewrite acq_comm by done.
  kstep release_acq; [|by apply hart_ok_acq|by apply lock_free_acq].
  kstep set_proc_ok; [|done].
  kstep set_proc_ok; [|by cbn; rewrite list_lookup_alter_eq, Hpr].
  set (s1 := s <| ks_proc ::= alter (fun x =>
           x <| p_chan := Some ch |> <| p_state := SLEEPING |>) p |>).
  match goal with |- context [kbind sched _ ?x] =>
    replace x with (acq (L_proc p) s1) by (kstate_eq; by rewrite list_alter_alter_eq) end.
  destruct (sched_yields s1 p c (pr <| p_chan := Some ch |> <| p_state := SLEEPING |>))
    as (k & Hk & Hres); [|done|].
  { split; try done. cbn. by rewrite list_lookup_alter_eq, Hpr. }
  unfold kbind at 1. rewrite Hk. cbn [obind]. eexists. split; [reflexivity|].
  intros s' c' pr' Hc' Hn' Hp' Hlk' Hlp'. cbv beta. rewrite (Hres s' c' Hc'). cbn [obind].
  pose proof (hart_ok_resumed (ks_sie s) s' c' Hc' Hn') as Hs'.
  kstep set_proc_ok; [|done].
  restate (acq (L_proc p) ((resumed (ks_sie s) s')
    <| ks_proc ::= alter (fun x => x <| p_chan := None |>) p |>)).
  kstep release_acq; [|done..]. by rewrite acquire_ok by done.
Qed.

(** C24: sleep(chan, lk), called holding only [lk], gives up the
    processor in a state where [lk] is free, the process is SLEEPING on [chan]
    and its own lock is held, so that no wakeup(chan) that takes [lk] first
    can be missed; when the scheduler switches back to it on any hart, with
    its lock held, it returns with [lk] held again, no channel and the
    interrupt flag it had. *)
Theorem sleep_protocol s p c pr ch lk :
  on_cpu s p c pr -> lock_free lk s -> lk <> L_proc p ->
  exists k,
    sleep ch lk (acq lk s)
    = Yield (Swtch p)
        (acq (L_proc p) (s <| ks_proc ::= alter (fun x =>
           x <| p_chan := Some ch |> <| p_state := SLEEPING |>) p |>)) k /\
    forall s' c' pr',
      ks_cpus s' !! ks_tp s' = Some c' -> c_noff c' = 0 -> ks_proc s' !! p = Some pr' ->
      lock_free lk s' -> lock_free (L_proc p) s' ->
      k (acq (L_proc p) s')
      = Done tt (acq lk ((resumed (ks_sie s) s')
                          <| ks_proc ::= alter (fun x => x <| p_chan := None |>) p |>)).
Proof. apply sleep_yields. Qed.

(** wakeup(chan) makes every other process that sleeps on
    [chan] runnable and changes nothing else. *)
Theorem wakeup_correct ch s :
  hart_ok s -> (forall p, (p < NPROC)%nat -> cur s <> Some p -> lock_free (L_proc p) s) ->
  length (ks_proc s) = NPROC ->
  runs (wakeup ch) s (fun _ s' =>
    same_hart s s' /\
    forall p pr, ks_proc s !! p = Some pr ->
      ks_proc s' !! p = Some
        (if bool_decide (cur s <> Some p) && bool_decide (p_state pr = SLEEPING)
            && bool_decide (p_chan pr = Some ch)
         then pr <| p_state := RUNNABLE |> else pr)).
Proof.
  intros Hs Hl Hlen. exists tt, (woken (cur s) ch s). split; [by apply wakeup_ok|].
  split; [by split|]. intros p pr Hp. cbn. rewrite list_lookup_imap, Hp. cbn. unfold wake.
  f_equal. by repeat case_bool_decide.
Qed.
End Specs.
