(* ===== verification/Sleeplock.v ===== *)
(** * Sleep locks (sleeplock.c), and the quiet state of a thread.

    [quiet s p]: process [p] runs on the executing hart, the kernel's static
    spin locks are initialised and free, and nobody sleeps on a sleep lock.
    In such a state the functions of the block layer run to completion
    without waiting; their specifications below say to which state. *)

From S2P Require Import Prelude Defs KMonad Lock Sched.

(** ** Code *)

Definition slock_of (sl : slockid) : K sleeplock :=
  let! m := get ks_slocks in nonnull (m !! sl).
Definition set_slock (sl : slockid) (l : sleeplock) : K unit :=
  modify (fun s => s <| ks_slocks ::= <[sl := l]> |>).

Definition initsleeplock (sl : slockid) (name : string) : K unit :=
  initlock (L_sleep sl) "sleep lock" ;;
  set_slock sl {| sl_name := name; sl_locked := 0; sl_pid := 0 |}.

Section Code.
Context `{Fuel}.

Definition acquiresleep (sl : slockid) : K unit :=
  acquire (L_sleep sl) ;;
  loop fuel (fun _ =>
    let! l := slock_of sl in
    if z2b (sl_locked l) then sleep (Ch_sleeplock sl) (L_sleep sl) ;; ret (inl tt)
    else ret (inr tt)) tt ;;
  let! l := slock_of sl in
  set_slock sl (l <| sl_locked := 1 |>) ;;
  let! p := cur_proc in
  let! pr := proc_of p in
  let! l := slock_of sl in
  set_slock sl (l <| sl_pid := p_pid pr |>) ;;
  release (L_sleep sl).

Definition releasesleep (sl : slockid) : K unit :=
  acquire (L_sleep sl) ;;
  let! l := slock_of sl in
  set_slock sl (l <| sl_locked := 0 |>) ;;
  let! l := slock_of sl in
  set_slock sl (l <| sl_pid := 0 |>) ;;
  wakeup (Ch_sleeplock sl) ;;
  release (L_sleep sl).

(** [lk->locked && (lk->pid == myproc()->pid)] *)
Definition holdingsleep (sl : slockid) : K bool :=
  acquire (L_sleep sl) ;;
  let! l := slock_of sl in
  let! r := (if z2b (sl_locked l) then
               let! p := cur_proc in
               let! pr := proc_of p in
               ret (sl_pid l =? p_pid pr)
             else ret false) in
  release (L_sleep sl) ;;
  ret r.
End Code.

(** ** The quiet state *)

Definition static_lock (lk : lockid) : bool :=
  match lk with
  | L_proc p => (p <? NPROC)%nat
  | L_sleep (SL_buf b) => (b <? NBUF)%nat
  | L_sleep (SL_inode i) => (i <? NINODE)%nat
  | L_pipe _ => false
  | _ => true
  end.

Definition no_sleepers (ch : chan) (s : kstate) : Prop :=
  forall p pr, ks_proc s !! p = Some pr -> p_state pr = SLEEPING -> p_chan pr <> Some ch.

Record quiet (s : kstate) (p : nat) : Prop := mk_quiet {
  q_hart : hart_ok s;
  q_cur : cur s = Some p;
  q_proc : is_Some (ks_proc s !! p);
  q_nproc : length (ks_proc s) = NPROC;
  q_locks lk : static_lock lk = true -> lock_free lk s;
  q_wait sl : no_sleepers (Ch_sleeplock sl) s
}.

(** Being quiet depends on the hart, the locks and the process table only. *)
Lemma quiet_same s s' p :
  same_hart s s' -> ks_proc s' = ks_proc s -> quiet s p -> quiet s' p.
Proof.
  intros Hh Hp []. split.
  - by eapply hart_ok_same.
  - by rewrite (cur_same s).
  - by rewrite Hp.
  - by rewrite Hp.
  - intros lk Hl. eapply lock_free_same; eauto.
  - intros sl. unfold no_sleepers. rewrite Hp. apply q_wait0.
Qed.

(** The process's id, as [myproc()->pid] reads it. *)
Definition mypid (s : kstate) (p : nat) : Z :=
  match ks_proc s !! p with Some pr => p_pid pr | None => 0 end.

Lemma woken_none me ch s : no_sleepers ch s -> woken me ch s = s.
Proof.
  intros Hn. kstate_eq. apply list_eq. intros i. rewrite list_lookup_imap.
  destruct (ks_proc s !! i) as [pr|] eqn:E; [|done]. cbn. f_equal.
  case_bool_decide; [done|]. unfold wake.
  destruct (decide (p_state pr = SLEEPING)); [|by rewrite bool_decide_false].
  rewrite (bool_decide_false (p_chan pr = _)), andb_false_r; [done|]. by eapply Hn.
Qed.

Definition valid_slock (sl : slockid) : Prop := static_lock (L_sleep sl) = true.

Section Specs.
Context `{Fuel}.

Lemma slock_of_ok sl s l : ks_slocks s !! sl = Some l -> slock_of sl s = Done l s.
Proof. intros Hl. unfold slock_of. kprim. by rewrite Hl. Qed.
Lemma set_slock_ok sl l s : set_slock sl l s = Done tt (s <| ks_slocks ::= <[sl := l]> |>).
Proof. reflexivity. Qed.

Lemma quiet_pid s p : quiet s p -> exists pr, ks_proc s !! p = Some pr /\ mypid s p = p_pid pr.
Proof. intros [_ _ [pr Hp] _ _ _]. exists pr. unfold mypid. by rewrite Hp. Qed.

(** The state after a free sleep lock is taken, and after it is released. *)
Definition slept_in (sl : slockid) (pid : Z) (s : kstate) : kstate :=
  s <| ks_slocks ::= alter (fun l => mk_sleeplock 1 (sl_name l) pid) sl |>.
Definition slept_out (sl : slockid) (s : kstate) : kstate :=
  s <| ks_slocks ::= alter (fun l => mk_sleeplock 0 (sl_name l) 0) sl |>.

Lemma insert_alter_at {X} (f : X -> X) (m : gmap slockid X) k x :
  m !! k = Some x -> <[k := f x]> m = alter f k m.
Proof.
  intros Hx. apply map_eq. intros j. destruct (decide (k = j)) as [<-|Hne].
  - by rewrite lookup_insert_eq, lookup_alter_eq, Hx.
  - by rewrite lookup_insert_ne, lookup_alter_ne.
Qed.

Lemma acquiresleep_ok sl s p l :
  quiet s p -> valid_slock sl -> ks_slocks s !! sl = Some l -> sl_locked l = 0 ->
  acquiresleep sl s = Done tt (slept_in sl (mypid s p) s).
Proof.
  intros Hq Hv Hl H0. pose proof (quiet_pid s p Hq) as (pr & Hpr & Hpid).
  pose proof (q_hart s p Hq) as Hs. pose proof (q_locks s p Hq _ Hv) as Hlk.
  unfold acquiresleep. kstep acquire_ok; [|done..].
  pose proof fuel_pos. destruct fuel as [|n]; [lia|].
  kstep loop_done; [|kstep slock_of_ok; [|done]; rewrite H0; reflexivity].
  kstep slock_of_ok; [|done]. kstep set_slock_ok.
  kstep (cur_proc_ok _ p); [|by apply hart_ok_acq|].
  2: { transitivity (cur s); [apply (cur_acq (L_sleep sl))|apply (q_cur _ _ Hq)]. }
  kstep proc_of_ok; [|done].
  kstep slock_of_ok; [|apply lookup_insert_eq]. kstep set_slock_ok.
  restate (acq (L_sleep sl) (slept_in sl (mypid s p) s)); [by apply release_acq|].
  rewrite insert_insert_eq, Hpid.
  rewrite <- (insert_alter_at _ _ _ _ Hl). by destruct l.
Qed.

Lemma releasesleep_ok sl s p l :
  quiet s p -> valid_slock sl -> ks_slocks s !! sl = Some l ->
  releasesleep sl s = Done tt (slept_out sl s).
Proof.
  intros Hq Hv Hl. pose proof (q_hart s p Hq) as Hs. pose proof (q_locks s p Hq _ Hv) as Hlk.
  unfold releasesleep. kstep acquire_ok; [|done..].
  kstep slock_of_ok; [|done]. kstep set_slock_ok.
  kstep slock_of_ok; [|apply lookup_insert_eq]. kstep set_slock_ok.
  restate (acq (L_sleep sl) (slept_out sl s)).
  - kstep wakeup_ok; [|by apply hart_ok_acq| |apply (q_nproc _ _ Hq)].
    2: { intros i Hi _. apply lock_free_acq; [done|]. apply (q_locks _ _ Hq).
         by apply Nat.ltb_lt. }
    rewrite woken_none by (intros i pr Hi; by eapply (q_wait _ _ Hq)).
    by apply release_acq.
  - rewrite insert_insert_eq.
    rewrite <- (insert_alter_at _ _ _ _ Hl). by destruct l.
Qed.

Lemma holdingsleep_ok sl s p l :
  quiet s p -> valid_slock sl -> ks_slocks s !! sl = Some l ->
  holdingsleep sl s = Done (z2b (sl_locked l) && (sl_pid l =? mypid s p)) s.
Proof.
  intros Hq Hv Hl. pose proof (quiet_pid s p Hq) as (pr & Hpr & Hpid).
  pose proof (q_hart s p Hq) as Hs. pose proof (q_locks s p Hq _ Hv) as Hlk.
  unfold holdingsleep. kstep acquire_ok; [|done..]. kstep slock_of_ok; [|done].
  destruct (z2b (sl_locked l)); cbn [andb].
  - erewrite (kbind_assoc_done cur_proc).
    2: { apply cur_proc_ok; [by apply hart_ok_acq|]. rewrite cur_acq. apply (q_cur _ _ Hq). }
    erewrite (kbind_assoc_done (proc_of p)) by (by apply proc_of_ok).
    rewrite kbind_ret, Hpid. by kstep release_acq.
  - rewrite kbind_ret. by kstep release_acq.
Qed.

Lemma quiet_slept_in sl pid s p : quiet s p -> quiet (slept_in sl pid s) p.
Proof. by apply quiet_same. Qed.
Lemma quiet_slept_out sl s p : quiet s p -> quiet (slept_out sl s) p.
Proof. by apply quiet_same. Qed.
End Specs.
