(* ===== verification/Bio.v ===== *)
(** * The buffer cache (bio.c).

    The buffers form a doubly linked ring through [bcache.head], most recently
    used first; the model keeps the [prev] and [next] fields as they are in
    the source, [NBUF] standing for [&bcache.head].  The block device under
    the cache is the interface [BlockDevice]. *)

From S2P Require Import Prelude Defs KMonad Lock Sched Sleeplock.

(** ** Buffers *)

Definition HEAD : nat := NBUF.

Definition buf_of (b : nat) : K buf := let! l := get ks_bufs in deref l b.
Definition set_buf (b : nat) (f : buf -> buf) : K unit :=
  let! _ := buf_of b in modify (fun s => s <| ks_bufs ::= alter f b |>).

(** [b->next], [b->prev] and assignments to them, [b] possibly the head. *)
Definition get_next (b : nat) : K nat :=
  if (b =? HEAD)%nat then get ks_bhead_next else let! bf := buf_of b in ret (b_next bf).
Definition get_prev (b : nat) : K nat :=
  if (b =? HEAD)%nat then get ks_bhead_prev else let! bf := buf_of b in ret (b_prev bf).
Definition set_next (b v : nat) : K unit :=
  if (b =? HEAD)%nat then modify (fun s => s <| ks_bhead_next := v |>)
  else set_buf b (fun x => x <| b_next := v |>).
Definition set_prev (b v : nat) : K unit :=
  if (b =? HEAD)%nat then modify (fun s => s <| ks_bhead_prev := v |>)
  else set_buf b (fun x => x <| b_prev := v |>).

(** ** The block device below *)

(** The contents of block [n] of the device. *)
Definition dblock (s : kstate) (n : Z) : list Z :=
  default (replicate (Z.to_nat BSIZE) 0) (ks_disk s !! n).

(** This thread holds the sleep lock of buffer [b]. *)
Definition buf_locked (s : kstate) (p b : nat) : Prop :=
  exists l, ks_slocks s !! SL_buf b = Some l /\ sl_locked l = 1 /\ sl_pid l = mypid s p.

(** A block write reaches the device: its contents and the sequence of writes
    it has seen. *)
Definition disk_put (n : Z) (data : list Z) (s : kstate) : kstate :=
  s <| ks_disk ::= <[n := data]> |> <| ks_dwrites ::= cons (n, data) |>.

(** What the buffer cache needs of the driver: [disk_rw b w] transfers the
    locked buffer [b] to its block ([w]) or from it, and returns when the
    transfer is done. *)
Class BlockDevice := {
  disk_rw : nat -> bool -> K unit;
  disk_write_ok s p b bf :
    quiet s p -> buf_locked s p b -> ks_bufs s !! b = Some bf -> b_disk bf = 0 ->
    disk_rw b true s = Done tt (disk_put (b_blockno bf) (b_data bf) s);
  disk_read_ok s p b bf :
    quiet s p -> buf_locked s p b -> ks_bufs s !! b = Some bf -> b_disk bf = 0 ->
    disk_rw b false s
    = Done tt (s <| ks_bufs ::= alter (fun x => x <| b_data := dblock s (b_blockno bf) |>) b |>)
}.

(** ** Code *)

Section Code.
Context `{Fuel, BlockDevice}.

Definition binit : K unit :=
  initlock L_bcache "bcache" ;;
  set_prev HEAD HEAD ;;
  set_next HEAD HEAD ;;
  for_each (seq 0 NBUF) (fun b =>
    let! hn := get_next HEAD in
    set_next b hn ;;
    set_prev b HEAD ;;
    initsleeplock (SL_buf b) "buffer" ;;
    let! hn := get_next HEAD in
    set_prev hn b ;;
    set_next HEAD b).

Definition bget_hit (dev blockno : Z) (b : nat) : K (nat + option nat) :=
  if (b =? HEAD)%nat then ret (inr None) else
  let! bf := buf_of b in
  if (b_dev bf =? dev) && (b_blockno bf =? blockno) then
    set_buf b (fun x => x <| b_refcnt ::= fun r => u32 (r + 1) |>) ;;
    release L_bcache ;;
    acquiresleep (SL_buf b) ;;
    ret (inr (Some b))
  else ret (inl (b_next bf)).

Definition bget_recycle (dev blockno : Z) (b : nat) : K (nat + option nat) :=
  if (b =? HEAD)%nat then ret (inr None) else
  let! bf := buf_of b in
  if b_refcnt bf =? 0 then
    set_buf b (fun x => x <| b_dev := dev |>) ;;
    set_buf b (fun x => x <| b_blockno := blockno |>) ;;
    set_buf b (fun x => x <| b_valid := 0 |>) ;;
    set_buf b (fun x => x <| b_refcnt := 1 |>) ;;
    release L_bcache ;;
    acquiresleep (SL_buf b) ;;
    ret (inr (Some b))
  else ret (inl (b_prev bf)).

(** Both scans visit the [NBUF] buffers of the ring and then the head. *)
Definition bget (dev blockno : Z) : K nat :=
  acquire L_bcache ;;
  let! b := get_next HEAD in
  let! hit := loop (S NBUF) (bget_hit dev blockno) b in
  match hit with
  | Some b => ret b
  | None =>
    let! b := get_prev HEAD in
    let! fresh := loop (S NBUF) (bget_recycle dev blockno) b in
    match fresh with
    | Some b => ret b
    | None => panic "bget: no buffers"
    end
  end.

Definition bread (dev blockno : Z) : K nat :=
  let! b := bget dev blockno in
  let! bf := buf_of b in
  when (negb (z2b (b_valid bf)))
    (disk_rw b false ;;
     set_buf b (fun x => x <| b_valid := 1 |>)) ;;
  ret b.

Definition bwrite (b : nat) : K unit :=
  let! h := holdingsleep (SL_buf b) in
  if negb h then panic "bwrite" else
  disk_rw b true.

Definition brelse (b : nat) : K unit :=
  let! h := holdingsleep (SL_buf b) in
  if negb h then panic "brelse" else
  releasesleep (SL_buf b) ;;
  acquire L_bcache ;;
  set_buf b (fun x => x <| b_refcnt ::= fun r => u32 (r - 1) |>) ;;
  let! bf := buf_of b in
  when (b_refcnt bf =? 0)
    (let! n := get_next b in
     let! p := get_prev b in
     set_prev n p ;;
     let! p := get_prev b in
     let! n := get_next b in
     set_next p n ;;
     let! hn := get_next HEAD in
     set_next b hn ;;
     set_prev b HEAD ;;
     let! hn := get_next HEAD in
     set_prev hn b ;;
     set_next HEAD b) ;;
  release L_bcache.

Definition bpin (b : nat) : K unit :=
  acquire L_bcache ;;
  set_buf b (fun x => x <| b_refcnt ::= fun r => u32 (r + 1) |>) ;;
  release L_bcache.

Definition bunpin (b : nat) : K unit :=
  acquire L_bcache ;;
  set_buf b (fun x => x <| b_refcnt ::= fun r => u32 (r - 1) |>) ;;
  release L_bcache.
End Code.

(** ** The ring

    [nxt s] and [prv s] read the links; [ring s l] says that following [next]
    from the head visits the buffers [l] and returns, and following [prev]
    visits them in reverse. *)

Definition nxt (s : kstate) (b : nat) : nat :=
  if (b =? HEAD)%nat then ks_bhead_next s
  else match ks_bufs s !! b with Some bf => b_next bf | None => 0%nat end.
Definition prv (s : kstate) (b : nat) : nat :=
  if (b =? HEAD)%nat then ks_bhead_prev s
  else match ks_bufs s !! b with Some bf => b_prev bf | None => 0%nat end.

Fixpoint path (f : nat -> nat) (x : nat) (l : list nat) (y : nat) : Prop :=
  match l with
  | [] => f x = y
  | z :: l => f x = z /\ path f z l y
  end.

Record ring (s : kstate) (l : list nat) : Prop := mk_ring {
  ring_next : path (nxt s) HEAD l HEAD;
  ring_prev : path (prv s) HEAD (reverse l) HEAD;
  ring_perm : l ≡ₚ seq 0 NBUF
}.

Lemma path_app f x l1 z l2 y : path f x (l1 ++ z :: l2) y <-> path f x l1 z /\ path f z l2 y.
Proof.
  revert x. induction l1 as [|w l1 IH]; intros x; cbn; [done|]. rewrite IH. tauto.
Qed.

(** A path does not depend on the links of nodes it does not leave from. *)
Lemma path_ext f g x l y :
  (forall z, z = x \/ z ∈ l -> f z = g z) -> path f x l y -> path g x l y.
Proof.
  revert x. induction l as [|z l IH]; intros x Hext; cbn.
  - intros <-. symmetry. auto.
  - intros [<- Hp]. split; [symmetry; auto|].
    apply IH; [|done]. intros w [->|Hw]; apply Hext; right; by constructor.
Qed.

Definition fupd (f : nat -> nat) (a v : nat) : nat -> nat :=
  fun x => if decide (x = a) then v else f x.

Lemma fupd_eq f a v : fupd f a v a = v.
Proof. unfold fupd. by rewrite decide_True. Qed.
Lemma fupd_ne f a v x : x <> a -> fupd f a v x = f x.
Proof. intros. unfold fupd. by rewrite decide_False. Qed.

(** The last node of the path through [l] from [x]. *)
Fixpoint end_of (x : nat) (l : list nat) : nat :=
  match l with [] => x | z :: l => end_of z l end.

Lemma end_of_snoc x l z : end_of x (l ++ [z]) = z.
Proof. revert x. induction l; intros x; cbn; auto. Qed.

Lemma end_of_in x l : end_of x l = x \/ end_of x l ∈ l.
Proof.
  revert x. induction l as [|z l IH]; intros x; [by left|]. cbn.
  right. destruct (IH z) as [->|]; [by left|by right].
Qed.

(** Taking a node out: its predecessor is linked to its successor. *)
Lemma path_unlink f x l1 b l2 y :
  NoDup (x :: l1 ++ b :: l2) -> path f x (l1 ++ b :: l2) y ->
  path (fupd f (end_of x l1) (f b)) x (l1 ++ l2) y.
Proof.
  revert x. induction l1 as [|w l1 IH]; intros x Hnd; cbn.
  - intros [<- Hp]. cbn [app] in Hnd. apply NoDup_cons in Hnd as [Hx Hnd].
    destruct l2 as [|z l2]; cbn in *; rewrite fupd_eq; [done|].
    destruct Hp as [-> Hp]. split; [done|]. eapply path_ext; [|exact Hp].
    intros w Hw. rewrite fupd_ne; [done|]. intros ->. apply Hx. destruct Hw; set_solver.
  - intros [<- Hp]. cbn [app] in Hnd. apply NoDup_cons in Hnd as [Hx Hnd].
    split; [|by apply IH]. apply fupd_ne.
    intros Heq. destruct (end_of_in (f x) l1) as [E|E]; rewrite <- Heq in E; apply Hx; set_solver.
Qed.

(** Putting a node in at the front, and at the back. *)
Lemma path_push f x l b y :
  x <> b -> (b ∉ l) -> (x ∉ l) -> path f x l y ->
  path (fupd (fupd f b (f x)) x b) x (b :: l) y.
Proof.
  intros Hxb Hb Hx Hp. split; [apply fupd_eq|].
  destruct l as [|z l]; cbn in *; rewrite fupd_ne, fupd_eq by done; [done|].
  destruct Hp as [-> Hp]. split; [done|]. eapply path_ext; [|exact Hp].
  intros w Hw. rewrite !fupd_ne; [done|set_solver..].
Qed.

Lemma path_snoc f x l b y :
  x <> b -> (b ∉ l) -> (x ∉ l) -> NoDup l -> path f x l y ->
  path (fupd (fupd f b y) (end_of x l) b) x (l ++ [b]) y.
Proof.
  revert x. induction l as [|z l IH]; intros x Hxb Hb Hx Hnd; cbn.
  - intros <-. rewrite fupd_eq. split; [done|].
    by rewrite fupd_ne, fupd_eq by done.
  - intros [<- Hp]. apply NoDup_cons in Hnd as [Hz Hnd].
    split; [|apply IH; set_solver]. rewrite !fupd_ne; [done|done|].
    intros Heq. destruct (end_of_in (f x) l) as [E|E]; rewrite <- Heq in E; set_solver.
Qed.

(** The state after an assignment to a link. *)
Definition link_next (b v : nat) (s : kstate) : kstate :=
  if (b =? HEAD)%nat then s <| ks_bhead_next := v |>
  else s <| ks_bufs ::= alter (fun x => x <| b_next := v |>) b |>.
Definition link_prev (b v : nat) (s : kstate) : kstate :=
  if (b =? HEAD)%nat then s <| ks_bhead_prev := v |>
  else s <| ks_bufs ::= alter (fun x => x <| b_prev := v |>) b |>.

Definition valid_link (s : kstate) (b : nat) : Prop :=
  b = HEAD \/ (b < length (ks_bufs s))%nat.

Lemma nxt_link_next s b v x :
  valid_link s b -> nxt (link_next b v s) x = fupd (nxt s) b v x.
Proof.
  intros Hb. unfold nxt, link_next, fupd.
  destruct (Nat.eqb_spec b HEAD), (Nat.eqb_spec x HEAD); case_decide; subst; try done; cbn.
  - destruct Hb; [done|]. rewrite list_lookup_alter_eq.
    destruct (lookup_lt_is_Some_2 (ks_bufs s) b) as [bf ->]; done.
  - by rewrite list_lookup_alter_ne by done.
Qed.
Lemma prv_link_prev s b v x :
  valid_link s b -> prv (link_prev b v s) x = fupd (prv s) b v x.
Proof.
  intros Hb. unfold prv, link_prev, fupd.
  destruct (Nat.eqb_spec b HEAD), (Nat.eqb_spec x HEAD); case_decide; subst; try done; cbn.
  - destruct Hb; [done|]. rewrite list_lookup_alter_eq.
    destruct (lookup_lt_is_Some_2 (ks_bufs s) b) as [bf ->]; done.
  - by rewrite list_lookup_alter_ne by done.
Qed.
Lemma prv_link_next s b v x : prv (link_next b v s) x = prv s x.
Proof.
  unfold prv, link_next. destruct (b =? HEAD)%nat; [done|].
  destruct (x =? HEAD)%nat; [done|]. cbn. rewrite list_lookup_alter.
  case_decide; subst; [|done]. by destruct (ks_bufs s !! x).
Qed.
Lemma nxt_link_prev s b v x : nxt (link_prev b v s) x = nxt s x.
Proof.
  unfold nxt, link_prev. destruct (b =? HEAD)%nat; [done|].
  destruct (x =? HEAD)%nat; [done|]. cbn. rewrite list_lookup_alter.
  case_decide; subst; [|done]. by destruct (ks_bufs s !! x).
Qed.

Lemma length_bufs_link_next b v s : length (ks_bufs (link_next b v s)) = length (ks_bufs s).
Proof. unfold link_next. case_match; [done|]. cbn. by rewrite length_alter. Qed.
Lemma length_bufs_link_prev b v s : length (ks_bufs (link_prev b v s)) = length (ks_bufs s).
Proof. unfold link_prev. case_match; [done|]. cbn. by rewrite length_alter. Qed.

(** The state after brelse has moved buffer [b] to the front of the ring. *)
Definition unlinked (b : nat) (s : kstate) : kstate :=
  link_next (prv s b) (nxt s b) (link_prev (nxt s b) (prv s b) s).
Definition pushed_front (b : nat) (s : kstate) : kstate :=
  let h := nxt s HEAD in
  link_next HEAD b (link_prev h b (link_prev b HEAD (link_next b h s))).
Definition mru (b : nat) (s : kstate) : kstate := pushed_front b (unlinked b s).

Lemma ring_nodup s l : ring s l -> NoDup (HEAD :: l).
Proof.
  intros [_ _ Hp]. apply NoDup_cons. rewrite Hp. split; [|apply NoDup_seq].
  rewrite elem_of_seq. unfold HEAD. lia.
Qed.

Lemma ring_elem s l b : ring s l -> b ∈ l <-> (b < NBUF)%nat.
Proof. intros [_ _ Hp]. rewrite Hp, elem_of_seq. lia. Qed.

Lemma path_first f x l y : path f x l y -> f x = end_of y (reverse l).
Proof.
  destruct l as [|z l]; [done|]. intros [-> _]. by rewrite reverse_cons, end_of_snoc.
Qed.

(** Taking [b] out of the ring [l1 ++ b :: l2]. *)
Lemma unlinked_paths s l1 b l2 :
  length (ks_bufs s) = NBUF -> ring s (l1 ++ b :: l2) ->
  path (nxt (unlinked b s)) HEAD (l1 ++ l2) HEAD /\
  path (prv (unlinked b s)) HEAD (reverse l2 ++ reverse l1) HEAD.
Proof.
  intros Hlen Hr. pose proof (ring_nodup _ _ Hr) as Hnd.
  pose proof (fun x => ring_elem s _ x Hr) as Hel. destruct Hr as [Hn Hp _].
  rewrite reverse_app, reverse_cons, <- app_assoc in Hp. cbn [app] in Hp.
  assert (nxt s b = end_of HEAD (reverse l2)) as En.
  { apply path_app in Hn as [_ Hn]. by apply path_first in Hn. }
  assert (prv s b = end_of HEAD l1) as Ep.
  { apply path_app in Hp as [_ Hp]. apply path_first in Hp. by rewrite reverse_involutive in Hp. }
  assert (valid_link s (prv s b)) as Vp.
  { rewrite Ep. destruct (end_of_in HEAD l1) as [->|E]; [by left|right].
    rewrite Hlen. apply Hel. apply elem_of_app. by left. }
  assert (valid_link s (nxt s b)) as Vn.
  { rewrite En. destruct (end_of_in HEAD (reverse l2)) as [->|E]; [by left|right].
    rewrite Hlen. apply Hel. rewrite elem_of_reverse in E. apply elem_of_app. right. by right. }
  unfold unlinked. split.
  - eapply path_ext; [|apply path_unlink; [exact Hnd|exact Hn]]. intros z _.
    rewrite nxt_link_next by (unfold valid_link; by rewrite length_bufs_link_prev).
    rewrite <- Ep. unfold fupd. case_decide; [done|]. by rewrite nxt_link_prev.
  - eapply path_ext; [|apply path_unlink; [|exact Hp]].
    + intros z _. rewrite prv_link_next, prv_link_prev, <- En by done. done.
    + replace (HEAD :: reverse l2 ++ b :: reverse l1)
        with (HEAD :: reverse (l1 ++ b :: l2)).
      * apply NoDup_cons in Hnd as [Hh Hnd]. apply NoDup_cons. split.
        { by rewrite elem_of_reverse. } by rewrite reverse_Permutation.
      * rewrite reverse_app, reverse_cons, <- app_assoc. done.
Qed.

Lemma pushed_front_paths s l b :
  length (ks_bufs s) = NBUF -> NoDup (HEAD :: b :: l) -> (forall x, x ∈ b :: l -> (x < NBUF)%nat) ->
  path (nxt s) HEAD l HEAD -> path (prv s) HEAD (reverse l) HEAD ->
  path (nxt (pushed_front b s)) HEAD (b :: l) HEAD /\
  path (prv (pushed_front b s)) HEAD (reverse (b :: l)) HEAD.
Proof.
  intros Hlen Hnd Hel Hn Hp. apply NoDup_cons in Hnd as [Hh Hnd].
  apply NoDup_cons in Hnd as [Hb Hnd].
  assert (HEAD <> b) by set_solver.
  pose proof (path_first _ _ _ _ Hn) as Ef.
  assert (valid_link s (nxt s HEAD)) as Vh.
  { rewrite Ef. destruct (end_of_in HEAD (reverse l)) as [->|E]; [by left|right].
    rewrite Hlen. apply Hel. rewrite elem_of_reverse in E. by right. }
  assert (forall s', length (ks_bufs s') = NBUF -> valid_link s' b) as Vb.
  { intros s' Hs'. right. rewrite Hs'. apply Hel. by left. }
  unfold pushed_front. split.
  - eapply path_ext; [|apply (path_push (nxt s) HEAD l b); [done|done|set_solver|exact Hn]].
    intros z _. rewrite nxt_link_next by (by left). unfold fupd at 1 3.
    case_decide; [done|]. rewrite !nxt_link_prev, nxt_link_next by auto. done.
  - rewrite reverse_cons. eapply path_ext; [|apply (path_snoc (prv s) HEAD (reverse l) b); [| | | |exact Hp]].
    + intros z _. rewrite prv_link_next, prv_link_prev, <- Ef.
      2: { unfold valid_link. rewrite length_bufs_link_prev, length_bufs_link_next. apply Vh. }
      unfold fupd at 1 3. case_decide; [done|].
      rewrite prv_link_prev by (apply Vb; by rewrite length_bufs_link_next).
      unfold fupd. by rewrite prv_link_next.
    + done.
    + by rewrite elem_of_reverse.
    + rewrite elem_of_reverse. set_solver.
    + by rewrite reverse_Permutation.
Qed.

(** brelse's surgery moves [b] to the front and keeps the order of the rest. *)
Lemma ring_mru s l1 b l2 :
  length (ks_bufs s) = NBUF -> ring s (l1 ++ b :: l2) -> ring (mru b s) (b :: l1 ++ l2).
Proof.
  intros Hlen Hr. pose proof (unlinked_paths s l1 b l2 Hlen Hr) as [Hn Hp].
  pose proof (ring_nodup _ _ Hr) as Hnd. pose proof (fun x => ring_elem s _ x Hr) as Hel.
  destruct (pushed_front_paths (unlinked b s) (l1 ++ l2) b) as [Hn' Hp'].
  - unfold unlinked. by rewrite length_bufs_link_next, length_bufs_link_prev.
  - by rewrite <- Permutation_middle in Hnd.
  - intros x Hx. apply Hel. by rewrite <- Permutation_middle.
  - done.
  - by rewrite reverse_app.
  - split; [done|done|]. rewrite Permutation_middle. apply (ring_perm _ _ Hr).
Qed.

(** ** What the cache promises

    For the one device [d] in use: [cval s d n] is the contents of block [n]
    as readers see it (the valid buffer's, else the disk's), [refs s d n] the
    reference count of its buffer and [nbusy s] the number of buffers in use. *)

Definition caches (d n : Z) (bf : buf) : Prop := b_dev bf = d /\ b_blockno bf = n.
#[global] Instance caches_dec d n bf : Decision (caches d n bf).
Proof. unfold caches. apply _. Defined.

Definition bidx (s : kstate) (d n : Z) : option (nat * buf) :=
  list_find (caches d n) (ks_bufs s).
Definition cval (s : kstate) (d n : Z) : list Z :=
  match bidx s d n with
  | Some (_, bf) => if z2b (b_valid bf) then b_data bf else dblock s n
  | None => dblock s n
  end.
Definition refs (s : kstate) (d n : Z) : Z :=
  match bidx s d n with Some (_, bf) => b_refcnt bf | None => 0 end.
Definition in_use (bf : buf) : Prop := b_refcnt bf <> 0.
#[global] Instance in_use_dec bf : Decision (in_use bf).
Proof. unfold in_use. apply _. Defined.
Definition nbusy (s : kstate) : nat := length (filter in_use (ks_bufs s)).

(** [bio_ok s p d held]: the cache's invariant while thread [p] holds the
    locks of the buffers [held] and no other thread holds any. *)
Record bio_ok (s : kstate) (p : nat) (d : Z) (held : list nat) : Prop := mk_bio_ok {
  bo_quiet : quiet s p;
  bo_dev : d <> 0;
  bo_len : length (ks_bufs s) = NBUF;
  bo_ring : exists l, ring s l;
  bo_buf b bf : ks_bufs s !! b = Some bf ->
    length (b_data bf) = Z.to_nat BSIZE /\ b_disk bf = 0 /\ 0 <= b_refcnt bf < 2 ^ 32 /\
    (b_refcnt bf <> 0 -> b_dev bf = d);
  bo_uniq b b' bf bf' : ks_bufs s !! b = Some bf -> ks_bufs s !! b' = Some bf' ->
    b_dev bf = d -> b_dev bf' = d -> b_blockno bf = b_blockno bf' -> b = b';
  bo_lock b : (b < NBUF)%nat ->
    exists l, ks_slocks s !! SL_buf b = Some l /\
      (if decide (b ∈ held) then sl_locked l = 1 /\ sl_pid l = mypid s p else sl_locked l = 0);
  bo_held b bf : b ∈ held -> ks_bufs s !! b = Some bf -> b_refcnt bf <> 0 /\ b_valid bf <> 0;
  bo_clean b bf : ks_bufs s !! b = Some bf -> b_dev bf = d -> b_valid bf <> 0 ->
    b_refcnt bf = 0 -> b_data bf = dblock s (b_blockno bf);
  bo_disk n : length (dblock s n) = Z.to_nat BSIZE;
  bo_held_valid b : b ∈ held -> (b < NBUF)%nat;
  bo_nodup : NoDup held
}.

(** Only the fields of the block layer differ. *)
Definition bio_frame (s s' : kstate) : Prop :=
  s' = s <| ks_bufs := ks_bufs s' |> <| ks_bhead_prev := ks_bhead_prev s' |>
         <| ks_bhead_next := ks_bhead_next s' |> <| ks_slocks := ks_slocks s' |>
         <| ks_disk := ks_disk s' |> <| ks_dwrites := ks_dwrites s' |>.

#[global] Instance bio_frame_preorder : PreOrder bio_frame.
Proof.
  split; [intros s; unfold bio_frame; kstate_eq|].
  intros s1 s2 s3 H12 H23. unfold bio_frame in *. rewrite H23, H12. kstate_eq.
Qed.

Lemma bio_frame_hart s s' : bio_frame s s' -> same_hart s s'.
Proof. intros ->. by split. Qed.
Lemma bio_frame_proc s s' : bio_frame s s' -> ks_proc s' = ks_proc s.
Proof. by intros ->. Qed.
Lemma bio_frame_quiet s s' p : bio_frame s s' -> quiet s p -> quiet s' p.
Proof. intros Hf. apply quiet_same; [by apply bio_frame_hart|by apply bio_frame_proc]. Qed.
Lemma bio_frame_pid s s' p : bio_frame s s' -> mypid s' p = mypid s p.
Proof. intros Hf. unfold mypid. by rewrite (bio_frame_proc s s'). Qed.

Lemma bidx_some s p d held n b bf :
  bio_ok s p d held -> bidx s d n = Some (b, bf) <-> ks_bufs s !! b = Some bf /\ caches d n bf.
Proof.
  intros Hok. unfold bidx. rewrite list_find_Some. split; [tauto|].
  intros [Hb Hc]. split_and!; [done|done|]. intros j bf' Hj Hlt Hc'.
  assert (j = b); [|lia]. destruct Hc, Hc'. eapply (bo_uniq _ _ _ _ Hok); eauto. congruence.
Qed.
Lemma bidx_none s d n :
  bidx s d n = None <-> forall b bf, ks_bufs s !! b = Some bf -> ~ caches d n bf.
Proof.
  unfold bidx. rewrite list_find_None, Forall_lookup. naive_solver.
Qed.

(** ** Scanning the ring *)

Section Specs.
Context `{Fuel, BlockDevice}.

Lemma buf_of_ok s b bf : ks_bufs s !! b = Some bf -> buf_of b s = Done bf s.
Proof. intros Hb. unfold buf_of. rewrite kbind_get. by apply deref_some. Qed.
Lemma set_buf_ok s b bf f :
  ks_bufs s !! b = Some bf -> set_buf b f s = Done tt (s <| ks_bufs ::= alter f b |>).
Proof. intros Hb. unfold set_buf. by kstep buf_of_ok. Qed.

Lemma get_next_ok s b : valid_link s b -> get_next b s = Done (nxt s b) s.
Proof.
  intros Hb. unfold get_next, nxt. destruct (Nat.eqb_spec b HEAD); [done|].
  destruct Hb as [|Hb]; [done|]. apply lookup_lt_is_Some_2 in Hb as [bf Hb].
  kstep buf_of_ok; [|done]. by rewrite Hb.
Qed.
Lemma get_prev_ok s b : valid_link s b -> get_prev b s = Done (prv s b) s.
Proof.
  intros Hb. unfold get_prev, prv. destruct (Nat.eqb_spec b HEAD); [done|].
  destruct Hb as [|Hb]; [done|]. apply lookup_lt_is_Some_2 in Hb as [bf Hb].
  kstep buf_of_ok; [|done]. by rewrite Hb.
Qed.
Lemma set_next_ok s b v : valid_link s b -> set_next b v s = Done tt (link_next b v s).
Proof.
  intros Hb. unfold set_next, link_next. destruct (Nat.eqb_spec b HEAD); [done|].
  destruct Hb as [|Hb]; [done|]. apply lookup_lt_is_Some_2 in Hb as [bf Hb].
  by erewrite set_buf_ok.
Qed.
Lemma set_prev_ok s b v : valid_link s b -> set_prev b v s = Done tt (link_prev b v s).
Proof.
  intros Hb. unfold set_prev, link_prev. destruct (Nat.eqb_spec b HEAD); [done|].
  destruct Hb as [|Hb]; [done|]. apply lookup_lt_is_Some_2 in Hb as [bf Hb].
  by erewrite set_buf_ok.
Qed.

(** A scan along [f]-links from [f x] through [l] that stops at the first
    buffer satisfying a test, or at the head. *)
Lemma scan_none (body : nat -> K (nat + option nat)) (f : nat -> nat) x l k s :
  path f x l HEAD -> (length l < k)%nat -> (HEAD ∉ l) ->
  (forall b, b ∈ l -> body b s = Done (inl (f b)) s) ->
  body HEAD s = Done (inr None) s ->
  loop k body (f x) s = Done None s.
Proof.
  revert x k. induction l as [|z l IH]; intros x k Hp Hk Hh Hb Hd.
  - cbn in Hp. rewrite Hp. destruct k; [cbn in Hk; lia|]. by apply loop_done.
  - destruct Hp as [-> Hp]. destruct k; [cbn in Hk; lia|].
    rewrite (loop_next _ _ _ _ (f z) s) by (apply Hb; by left).
    apply IH; [done|cbn in Hk; lia|set_solver| |done]. intros b Hin. apply Hb. by right.
Qed.

Lemma scan_some (body : nat -> K (nat + option nat)) (f : nat -> nat) x l1 b l2 k s s' :
  path f x (l1 ++ b :: l2) HEAD -> (length l1 < k)%nat ->
  (forall z, z ∈ l1 -> body z s = Done (inl (f z)) s) ->
  body b s = Done (inr (Some b)) s' ->
  loop k body (f x) s = Done (Some b) s'.
Proof.
  revert x k. induction l1 as [|z l1 IH]; intros x k Hp Hk Hb Hd.
  - destruct Hp as [-> _]. destruct k; [cbn in Hk; lia|]. by apply loop_done.
  - destruct Hp as [-> Hp]. destruct k; [cbn in Hk; lia|].
    rewrite (loop_next _ _ _ _ (f z) s) by (apply Hb; by left).
    apply IH; [done|cbn in Hk; lia| |done]. intros w Hin. apply Hb. by right.
Qed.

(** The state bget leaves: the buffer found is pinned once more and locked; a
    recycled one is renamed, invalid and locked. *)
Definition hit (b p : nat) (s : kstate) : kstate :=
  slept_in (SL_buf b) (mypid s p)
    (s <| ks_bufs ::= alter (fun x => x <| b_refcnt ::= fun r => u32 (r + 1) |>) b |>).
Definition renamed (d n : Z) (x : buf) : buf :=
  mk_buf 0 (b_disk x) d n 1 (b_prev x) (b_next x) (b_data x).
Definition recycled (b p : nat) (d n : Z) (s : kstate) : kstate :=
  slept_in (SL_buf b) (mypid s p) (s <| ks_bufs ::= alter (renamed d n) b |>).

Lemma lt_NBUF_slock b : (b < NBUF)%nat -> valid_slock (SL_buf b).
Proof. intros Hb. by apply Nat.ltb_lt. Qed.

Lemma bget_hit_miss d n b bf s :
  ks_bufs s !! b = Some bf -> b <> HEAD -> ~ caches d n bf ->
  bget_hit d n b (acq L_bcache s) = Done (inl (nxt s b)) (acq L_bcache s).
Proof.
  intros Hb Hne Hc. unfold bget_hit, nxt. rewrite (proj2 (Nat.eqb_neq _ _)) by done.
  kstep buf_of_ok; [|done]. rewrite Hb.
  destruct (Z.eqb_spec (b_dev bf) d), (Z.eqb_spec (b_blockno bf) n); try done. by destruct Hc.
Qed.

(** Leaving the cache's lock and taking the buffer's. *)
Lemma leave_bcache s p b l :
  quiet s p -> (b < NBUF)%nat -> ks_slocks s !! SL_buf b = Some l -> sl_locked l = 0 ->
  kbind (release L_bcache) (fun _ => kbind (acquiresleep (SL_buf b)) (fun _ => ret (inr (Some b))))
    (acq L_bcache s)
  = Done (inr (Some b) : nat + option nat) (slept_in (SL_buf b) (mypid s p) s).
Proof.
  intros Hq Hb Hl Hz. kstep release_acq; [|apply (q_hart _ _ Hq)|by apply (q_locks _ _ Hq)].
  kstep acquiresleep_ok; [done|done|by apply lt_NBUF_slock|done|done].
Qed.

Lemma bget_hit_found d n b bf s p l :
  quiet s p -> ks_bufs s !! b = Some bf -> (b < NBUF)%nat -> caches d n bf ->
  ks_slocks s !! SL_buf b = Some l -> sl_locked l = 0 ->
  bget_hit d n b (acq L_bcache s) = Done (inr (Some b)) (hit b p s).
Proof.
  intros Hq Hb Hlt [Hd Hn] Hl Hz. unfold bget_hit.
  rewrite (proj2 (Nat.eqb_neq _ _)) by (unfold HEAD; lia).
  kstep buf_of_ok; [|done]. rewrite Hd, Hn, !Z.eqb_refl. cbn [andb].
  kstep set_buf_ok; [|done].
  restate (acq L_bcache (s <| ks_bufs ::= alter (fun x => x <| b_refcnt ::= fun r => u32 (r + 1) |>) b |>)).
  rewrite (leave_bcache _ p b l); [done|by apply (quiet_same s)|done..].
Qed.

Lemma bget_recycle_busy d n b bf s :
  ks_bufs s !! b = Some bf -> b <> HEAD -> b_refcnt bf <> 0 ->
  bget_recycle d n b (acq L_bcache s) = Done (inl (prv s b)) (acq L_bcache s).
Proof.
  intros Hb Hne Hc. unfold bget_recycle, prv. rewrite (proj2 (Nat.eqb_neq _ _)) by done.
  kstep buf_of_ok; [|done]. rewrite Hb. by rewrite (proj2 (Z.eqb_neq _ _)).
Qed.

Lemma bget_recycle_found d n b bf s p l :
  quiet s p -> ks_bufs s !! b = Some bf -> (b < NBUF)%nat -> b_refcnt bf = 0 ->
  ks_slocks s !! SL_buf b = Some l -> sl_locked l = 0 ->
  bget_recycle d n b (acq L_bcache s) = Done (inr (Some b)) (recycled b p d n s).
Proof.
  intros Hq Hb Hlt Hr Hl Hz. unfold bget_recycle.
  rewrite (proj2 (Nat.eqb_neq _ _)) by (unfold HEAD; lia).
  kstep buf_of_ok; [|done]. rewrite Hr. cbn [Z.eqb].
  kstep set_buf_ok; [|done].
  do 3 (kstep set_buf_ok; [|cbn; rewrite ?list_lookup_alter_eq, Hb; reflexivity]).
  restate (acq L_bcache (s <| ks_bufs ::= alter (renamed d n) b |>)).
  - rewrite (leave_bcache _ p b l); [done|by apply (quiet_same s)|done..].
  - rewrite !list_alter_alter_eq. by apply list_alter_ext.
Qed.

(** What a scan of the ring relies on. *)
Lemma ring_facts s p d held l :
  bio_ok s p d held -> ring s l ->
  (HEAD ∉ l) /\ length l = NBUF /\ (forall b, b ∈ l <-> (b < NBUF)%nat) /\
  (forall b, b ∈ l -> exists bf, ks_bufs s !! b = Some bf /\ b <> HEAD).
Proof.
  intros Hok Hr. pose proof (fun x => ring_elem s _ x Hr) as Hel.
  pose proof (ring_nodup _ _ Hr) as [Hh _]%NoDup_cons. split_and!; [done| |done|].
  - rewrite (ring_perm _ _ Hr). apply length_seq.
  - intros b Hb%Hel. destruct (lookup_lt_is_Some_2 (ks_bufs s) b) as [bf Hbf];
      [rewrite (bo_len _ _ _ _ Hok); lia|].
    exists bf. split; [done|]. unfold HEAD. lia.
Qed.

Lemma bget_cached s p d held n b bf :
  bio_ok s p d held -> ks_bufs s !! b = Some bf -> caches d n bf -> (b ∉ held) ->
  bget d n s = Done b (hit b p s).
Proof.
  intros Hok Hb Hc Hbh. pose proof (bo_quiet _ _ _ _ Hok) as Hq.
  destruct (bo_ring _ _ _ _ Hok) as [l Hr].
  destruct (ring_facts _ _ _ _ _ Hok Hr) as (Hh & Hll & Hel & Hbuf).
  assert (b < NBUF)%nat as Hlt by (rewrite <- (bo_len _ _ _ _ Hok); by eapply lookup_lt_Some).
  destruct (bo_lock _ _ _ _ Hok b Hlt) as (lk & Hlk & Hlz). rewrite decide_False in Hlz by done.
  unfold bget. kstep acquire_ok; [|apply (q_hart _ _ Hq)|by apply (q_locks _ _ Hq)].
  kstep get_next_ok; [|by left]. change (nxt (acq L_bcache s) HEAD) with (nxt s HEAD).
  pose proof (proj2 (Hel b) Hlt) as (l1 & l2 & ->)%list_elem_of_split.
  kstep scan_some; [done|apply (ring_next _ _ Hr)|rewrite length_app in Hll; cbn in Hll; lia| |].
  - intros z Hz. destruct (Hbuf z) as (bf' & Hz' & Hne); [apply elem_of_app; by left|].
    eapply bget_hit_miss; [done|done|]. intros Hc'.
    assert (z = b) as ->.
    { destruct Hc, Hc'. eapply (bo_uniq _ _ _ _ Hok); eauto. congruence. }
    apply ring_nodup in Hr. apply NoDup_cons in Hr as [_ Hr].
    apply NoDup_app in Hr as (_ & Hr & _). apply (Hr b Hz). by left.
  - by eapply bget_hit_found.
Qed.

(** bget on a block that is not cached goes through its first scan and reaches
    the second. *)
Lemma bget_uncached s p d held n l :
  bio_ok s p d held -> ring s l -> bidx s d n = None ->
  bget d n s = (let! fresh := loop (S NBUF) (bget_recycle d n) (prv s HEAD) in
                match fresh with Some b => ret b | None => panic "bget: no buffers" end) (acq L_bcache s).
Proof.
  intros Hok Hr E. pose proof (bo_quiet _ _ _ _ Hok) as Hq. rewrite bidx_none in E.
  destruct (ring_facts _ _ _ _ _ Hok Hr) as (Hh & Hll & Hel & Hbuf).
  unfold bget. kstep acquire_ok; [|apply (q_hart _ _ Hq)|by apply (q_locks _ _ Hq)].
  kstep get_next_ok; [|by left]. change (nxt (acq L_bcache s) HEAD) with (nxt s HEAD).
  kstep (scan_none _ (nxt s) HEAD l); [|apply (ring_next _ _ Hr)|lia|done| |done].
  2: { intros b Hb. destruct (Hbuf b Hb) as (bf & Hb' & Hne). by eapply bget_hit_miss; eauto. }
  cbv iota. kstep get_prev_ok; [|by left]. done.
Qed.

(** The buffer recycled is the least recently used idle one. *)
Lemma bget_recycles s p d held n l :
  bio_ok s p d held -> ring s l -> bidx s d n = None -> (nbusy s < NBUF)%nat ->
  exists l1 b l2 bf, l = l1 ++ b :: l2 /\ ks_bufs s !! b = Some bf /\ b_refcnt bf = 0 /\ (b ∉ held) /\
    (forall x y, x ∈ l2 -> ks_bufs s !! x = Some y -> b_refcnt y <> 0) /\
    bget d n s = Done b (recycled b p d n s).
Proof.
  intros Hok Hr E Hfree. rewrite (bget_uncached _ _ _ _ _ _ Hok Hr E).
  destruct (ring_facts _ _ _ _ _ Hok Hr) as (Hh & Hll & Hel & Hbuf).
  pose proof (bo_quiet _ _ _ _ Hok) as Hq. pose proof (bo_len _ _ _ _ Hok) as Hlen.
  destruct (filter_shorter in_use (ks_bufs s)) as (b0 & bf0 & Hb0 & Hr0); [by rewrite Hlen|].
  destruct (first_split (fun b => b_refcnt <$> ks_bufs s !! b = Some 0) (reverse l) b0)
    as (l1 & b & l2 & El & Hrb & Hl1).
  { rewrite elem_of_reverse. apply Hel. rewrite <- Hlen. by eapply lookup_lt_Some. }
  { rewrite Hb0. cbn. f_equal. unfold in_use in Hr0. by apply dec_stable. }
  apply fmap_Some in Hrb as (bf & Hb & Hrb).
  assert (b < NBUF)%nat as Hlt by (rewrite <- Hlen; by eapply lookup_lt_Some).
  assert (b ∉ held) as Hbh.
  { intros Hin. by destruct (bo_held _ _ _ _ Hok b bf Hin Hb). }
  destruct (bo_lock _ _ _ _ Hok b Hlt) as (lk & Hlk & Hlz). rewrite decide_False in Hlz by done.
  assert (l = reverse l2 ++ b :: reverse l1) as Hl.
  { rewrite <- (reverse_involutive l), El, reverse_app, reverse_cons, <- app_assoc. done. }
  exists (reverse l2), b, (reverse l1), bf. split_and!; try done.
  { intros x y Hx Hy. rewrite elem_of_reverse in Hx. specialize (Hl1 x Hx). rewrite Hy in Hl1. cbn in Hl1. congruence. }
  pose proof (ring_prev _ _ Hr) as Hp. rewrite El in Hp.
  assert (length l1 < S NBUF)%nat.
  { apply (f_equal length) in El. rewrite length_reverse, length_app in El. cbn in El. lia. }
  kstep scan_some; [done|exact Hp|done| |by eapply bget_recycle_found].
  intros z Hz. destruct (Hbuf z) as (bf' & Hz' & Hne).
  { rewrite <- elem_of_reverse, El. apply elem_of_app. by left. }
  eapply bget_recycle_busy; [done|done|]. specialize (Hl1 z Hz). rewrite Hz' in Hl1. cbn in Hl1. congruence.
Qed.

Lemma bget_ok s p d held n :
  bio_ok s p d held ->
  (forall b bf, b ∈ held -> ks_bufs s !! b = Some bf -> b_blockno bf <> n) ->
  (refs s d n = 0 -> (nbusy s < NBUF)%nat) ->
  (exists b bf, bidx s d n = Some (b, bf) /\ bget d n s = Done b (hit b p s) /\ (b ∉ held)) \/
  (exists b bf, bidx s d n = None /\ ks_bufs s !! b = Some bf /\ b_refcnt bf = 0 /\ (b ∉ held) /\
                bget d n s = Done b (recycled b p d n s)).
Proof.
  intros Hok Hnh Hfree. destruct (bidx s d n) as [[b bf]|] eqn:E.
  - left. exists b, bf. apply (bidx_some _ _ _ _ _ _ _ Hok) in E as [Hb Hc].
    assert (b ∉ held) as Hbh by (intros Hin; destruct Hc; by eapply Hnh).
    split_and!; [done|by eapply bget_cached|done].
  - right. destruct (bo_ring _ _ _ _ Hok) as [l Hr].
    destruct (bget_recycles s p d held n l Hok Hr E) as (l1 & b & l2 & bf & _ & ? & ? & ? & _ & ?).
    { apply Hfree. unfold refs. by rewrite E. }
    exists b, bf. done.
Qed.

(** ** Steps of the cache

    Everything but the ring depends on the buffers without their links. *)

Definition core (bf : buf) : buf := bf <| b_prev := 0%nat |> <| b_next := 0%nat |>.
Definition cores (s : kstate) : list buf := core <$> ks_bufs s.

Lemma core_inv x y :
  core x = core y ->
  b_valid x = b_valid y /\ b_disk x = b_disk y /\ b_dev x = b_dev y /\
  b_blockno x = b_blockno y /\ b_refcnt x = b_refcnt y /\ b_data x = b_data y.
Proof. intros Hc. destruct x, y. by injection Hc. Qed.

Lemma core_view x y v :
  core x = core y ->
  (if z2b (b_valid x) then b_data x else v) = if z2b (b_valid y) then b_data y else v.
Proof. by intros (-> & _ & _ & _ & _ & ->)%core_inv. Qed.

Lemma cores_lookup s s' b bf' x y :
  cores s' = <[b := core bf']> (cores s) -> ks_bufs s' !! x = Some y ->
  (x = b /\ core y = core bf') \/ (x <> b /\ exists z, ks_bufs s !! x = Some z /\ core y = core z).
Proof.
  intros Hc Hx. assert (cores s' !! x = Some (core y)) as Hy.
  { unfold cores. by rewrite list_lookup_fmap, Hx. }
  rewrite Hc in Hy. apply list_lookup_insert_Some in Hy as [(-> & -> & _)|[Hne Hy]]; [by left|].
  right. split; [done|]. unfold cores in Hy. rewrite list_lookup_fmap in Hy.
  apply fmap_Some in Hy as (z & Hz & Hyz). eauto.
Qed.

Lemma cores_other s s' b bf' x z :
  cores s' = <[b := core bf']> (cores s) -> x <> b -> ks_bufs s !! x = Some z ->
  exists y, ks_bufs s' !! x = Some y /\ core y = core z.
Proof.
  intros Hc Hne Hz. assert (cores s' !! x = Some (core z)) as Hy.
  { rewrite Hc, list_lookup_insert_ne by done. unfold cores. by rewrite list_lookup_fmap, Hz. }
  unfold cores in Hy. rewrite list_lookup_fmap in Hy. apply fmap_Some in Hy as (y & Hy & E). eauto.
Qed.

Lemma cores_here s s' b bf' :
  cores s' = <[b := core bf']> (cores s) -> (b < length (ks_bufs s))%nat ->
  exists y, ks_bufs s' !! b = Some y /\ core y = core bf'.
Proof.
  intros Hc Hb. assert (cores s' !! b = Some (core bf')) as Hy.
  { rewrite Hc. apply list_lookup_insert_eq. unfold cores. by rewrite length_fmap. }
  unfold cores in Hy. rewrite list_lookup_fmap in Hy. apply fmap_Some in Hy as (y & Hy & E). eauto.
Qed.

(** One buffer [b] goes from [bf] to [bf'] (links aside). *)
Record buf_step (s s' : kstate) (d : Z) (b : nat) (bf bf' : buf) : Prop := mk_buf_step {
  bs_frame : bio_frame s s';
  bs_at : ks_bufs s !! b = Some bf;
  bs_cores : cores s' = <[b := core bf']> (cores s);
  bs_ring : exists l, ring s' l;
  bs_disk : ks_disk s' = ks_disk s;
  bs_fields : length (b_data bf') = Z.to_nat BSIZE /\ b_disk bf' = 0 /\
    0 <= b_refcnt bf' < 2 ^ 32 /\ (b_refcnt bf' <> 0 -> b_dev bf' = d);
  bs_fresh x y : x <> b -> ks_bufs s !! x = Some y -> b_dev y = d -> b_dev bf' = d ->
    b_blockno y <> b_blockno bf';
  bs_clean : b_dev bf' = d -> b_valid bf' <> 0 -> b_refcnt bf' = 0 ->
    b_data bf' = dblock s (b_blockno bf')
}.

Ltac core_facts :=
  repeat match goal with
  | H : core _ = core _ |- _ => apply core_inv in H as (? & ? & ? & ? & ? & ?)
  end.

Lemma dblock_disk s s' n : ks_disk s' = ks_disk s -> dblock s' n = dblock s n.
Proof. intros Hd. unfold dblock. by rewrite Hd. Qed.

(** The invariant is kept by a step whose sleep locks agree with [held']. *)
Lemma bio_ok_step s s' p d held held' b bf bf' :
  bio_ok s p d held -> buf_step s s' d b bf bf' ->
  (forall x, (x < NBUF)%nat -> exists l, ks_slocks s' !! SL_buf x = Some l /\
     (if decide (x ∈ held') then sl_locked l = 1 /\ sl_pid l = mypid s p else sl_locked l = 0)) ->
  (b ∈ held' -> b_refcnt bf' <> 0 /\ b_valid bf' <> 0) ->
  (forall x, x ∈ held' -> x = b \/ x ∈ held) -> NoDup held' ->
  bio_ok s' p d held'.
Proof.
  intros Hok [Hf Hb Hc Hr Hd Hfields Hfresh Hclean] Hlk Hhb Hsub Hnd.
  pose proof (bo_len _ _ _ _ Hok) as Hlen.
  assert (length (ks_bufs s') = NBUF) as Hlen'.
  { apply (f_equal length) in Hc. unfold cores in Hc. rewrite length_insert, !length_fmap in Hc. lia. }
  split.
  - by eapply bio_frame_quiet, (bo_quiet _ _ _ _ Hok).
  - apply (bo_dev _ _ _ _ Hok).
  - done.
  - done.
  - intros x y Hx. destruct (cores_lookup _ _ _ _ _ _ Hc Hx) as [[-> E]|(Hne & z & Hz & E)]; core_facts.
    + destruct Hfields as (? & ? & ? & Hdev). split_and!; congruence || lia.
    + destruct (bo_buf _ _ _ _ Hok _ _ Hz) as (? & ? & ? & Hdev).
      split_and!; congruence || lia.
  - intros x x' y y' Hx Hx' Hy Hy' Hbn.
    destruct (cores_lookup _ _ _ _ _ _ Hc Hx) as [[-> E]|(Hne & z & Hz & E)],
             (cores_lookup _ _ _ _ _ _ Hc Hx') as [[-> E']|(Hne' & z' & Hz' & E')]; core_facts; try done.
    + exfalso. eapply (Hfresh x' z'); congruence.
    + exfalso. eapply (Hfresh x z); congruence.
    + eapply (bo_uniq _ _ _ _ Hok); eauto; congruence.
  - intros x Hx. destruct (Hlk x Hx) as (l & Hl & Hx'). exists l. split; [done|].
    by rewrite (bio_frame_pid s s').
  - intros x y Hin Hx. destruct (cores_lookup _ _ _ _ _ _ Hc Hx) as [[-> E]|(Hne & z & Hz & E)]; core_facts.
    + destruct (Hhb Hin). split; congruence.
    + destruct (Hsub x Hin) as [?|Hin']; [done|].
      destruct (bo_held _ _ _ _ Hok x z Hin' Hz). split; congruence.
  - intros x y Hx Hdx Hvx Hrx. rewrite (dblock_disk s) by done.
    destruct (cores_lookup _ _ _ _ _ _ Hc Hx) as [[-> E]|(Hne & z & Hz & E)]; core_facts.
    + replace (b_data y) with (b_data bf') by done. replace (b_blockno y) with (b_blockno bf') by done.
      apply Hclean; congruence.
    + replace (b_data y) with (b_data z) by done. replace (b_blockno y) with (b_blockno z) by done.
      apply (bo_clean _ _ _ _ Hok x z); congruence.
  - intros n. rewrite (dblock_disk s) by done. apply (bo_disk _ _ _ _ Hok).
  - intros x Hin. destruct (Hsub x Hin) as [->|Hin']; [|by apply (bo_held_valid _ _ _ _ Hok)].
    rewrite <- Hlen. by eapply lookup_lt_Some.
  - done.
Qed.

Lemma cval_at s p d held n b bf :
  bio_ok s p d held -> ks_bufs s !! b = Some bf -> caches d n bf ->
  cval s d n = (if z2b (b_valid bf) then b_data bf else dblock s n) /\ refs s d n = b_refcnt bf.
Proof.
  intros Hok Hb Hc. unfold cval, refs.
  by rewrite (proj2 (bidx_some _ _ _ _ _ _ _ Hok) (conj Hb Hc)).
Qed.
Lemma cval_none s d n :
  (forall b bf, ks_bufs s !! b = Some bf -> ~ caches d n bf) ->
  cval s d n = dblock s n /\ refs s d n = 0.
Proof. intros Hn. unfold cval, refs. by rewrite (proj2 (bidx_none _ _ _) Hn). Qed.

(** A buffer of reference count 0 shows what is on the disk. *)
Lemma cval_idle s p d held n b bf :
  bio_ok s p d held -> ks_bufs s !! b = Some bf -> caches d n bf -> b_refcnt bf = 0 ->
  cval s d n = dblock s n.
Proof.
  intros Hok Hb Hc Hr. destruct (cval_at _ _ _ _ _ _ _ Hok Hb Hc) as [-> _].
  unfold z2b. destruct (Z.eqb_spec (b_valid bf) 0); [done|]. cbn. destruct Hc as [Hd Hn].
  rewrite <- Hn. by eapply (bo_clean _ _ _ _ Hok).
Qed.

Definition busy (r : Z) : Z := if r =? 0 then 0 else 1.

(** What one operation does to the cache as its clients see it: block [n]
    reads [v] and has [r] references, all else is unchanged. *)
Record cstep (s s' : kstate) (d n : Z) (v : list Z) (r : Z) : Prop := mk_cstep {
  cs_frame : bio_frame s s';
  cs_disk : ks_disk s' = ks_disk s;
  cs_cval m : cval s' d m = if decide (m = n) then v else cval s d m;
  cs_refs m : refs s' d m = if decide (m = n) then r else refs s d m;
  cs_nbusy : Z.of_nat (nbusy s') = Z.of_nat (nbusy s) + busy r - busy (refs s d n)
}.

(** Buffer [b] is the one holding block [n]. *)
Definition holds_block (s : kstate) (d n : Z) (b : nat) : Prop :=
  exists bf, ks_bufs s !! b = Some bf /\ caches d n bf.

Lemma nbusy_cores s : nbusy s = length (filter in_use (cores s)).
Proof.
  unfold nbusy, cores. induction (ks_bufs s) as [|x l IH]; [done|].
  rewrite fmap_cons, !filter_cons. change (in_use (core x)) with (in_use x).
  destruct (decide (in_use x)); cbn [length]; by rewrite IH.
Qed.

Lemma nbusy_step s s' b bf bf' :
  ks_bufs s !! b = Some bf -> cores s' = <[b := core bf']> (cores s) ->
  Z.of_nat (nbusy s') = Z.of_nat (nbusy s) + busy (b_refcnt bf') - busy (b_refcnt bf).
Proof.
  intros Hb Hc. rewrite !nbusy_cores, Hc.
  assert (cores s !! b = Some (core bf)) as Hcb.
  { unfold cores. by rewrite list_lookup_fmap, Hb. }
  rewrite <- (list_alter_insert_at (fun _ => core bf') _ _ _ Hcb).
  pose proof (filter_alter in_use (fun _ => core bf') _ _ _ Hcb) as Hn. cbv beta in Hn.
  revert Hn. set (l' := length (filter in_use (alter _ _ _))). set (l := length (filter in_use _)).
  clearbody l l'. unfold busy. intros Hn. repeat case_decide; unfold in_use in *; cbn in *;
    destruct (Z.eqb_spec (b_refcnt bf') 0), (Z.eqb_spec (b_refcnt bf) 0); try done; lia.
Qed.

Lemma view_step s s' p d held held' b bf bf' n :
  bio_ok s p d held -> bio_ok s' p d held' -> buf_step s s' d b bf bf' -> caches d n bf' ->
  caches d n bf \/ (bidx s d n = None /\ b_refcnt bf = 0) ->
  cstep s s' d n (if z2b (b_valid bf') then b_data bf' else dblock s n) (b_refcnt bf').
Proof.
  intros Hok Hok' [Hf Hb Hc Hr Hd Hfields Hfresh Hclean] Hcn Hold.
  assert (b < length (ks_bufs s))%nat as Hlt by by eapply lookup_lt_Some.
  destruct (cores_here _ _ _ _ Hc Hlt) as (y & Hy & E).
  assert (refs s d n = b_refcnt bf) as Hrefs.
  { destruct Hold as [Ho|[Ho Hz]]; [by eapply cval_at|].
    unfold refs. by rewrite Ho, Hz. }
  assert (caches d n y) as Hcy by (core_facts; destruct Hcn; split; congruence).
  destruct (cval_at _ _ _ _ _ _ _ Hok' Hy Hcy) as [Hv Hrf].
  assert (forall m, m <> n -> cval s' d m = cval s d m /\ refs s' d m = refs s d m) as Hoth.
  { intros m Hm. destruct (bidx s d m) as [[x z]|] eqn:Em.
    - apply (bidx_some _ _ _ _ _ _ _ Hok) in Em as [Hx Hcx].
      destruct (decide (x = b)) as [->|Hne].
      + assert (z = bf) as -> by congruence.
        destruct Hold as [Ho|[_ Hz]]; [destruct Ho, Hcx; congruence|].
        destruct (cval_at _ _ _ _ _ _ _ Hok Hx Hcx) as [_ ->].
        rewrite (cval_idle _ _ _ _ _ _ _ Hok Hx Hcx Hz), Hz.
        rewrite <- (dblock_disk s s' m Hd). apply cval_none. intros x' z' Hx' Hcx'.
        destruct (cores_lookup _ _ _ _ _ _ Hc Hx') as [[-> E']|(Hne & w & Hw & E')]; core_facts.
        * destruct Hcx', Hcn; congruence.
        * apply Hne. destruct Hcx, Hcx'. eapply (bo_uniq _ _ _ _ Hok); eauto; congruence.
      + destruct (cores_other _ _ _ _ _ _ Hc Hne Hx) as (z' & Hz' & E').
        destruct (cval_at _ _ _ _ _ _ _ Hok Hx Hcx) as [-> ->].
        assert (caches d m z') as Hcz by (core_facts; destruct Hcx; split; congruence).
        destruct (cval_at _ _ _ _ _ _ _ Hok' Hz' Hcz) as [-> ->]. rewrite (dblock_disk s s' m Hd).
        rewrite (core_view _ _ _ E'). core_facts. by split.
    - rewrite bidx_none in Em. destruct (cval_none s d m Em) as [-> ->].
      rewrite <- (dblock_disk s s' m Hd). apply cval_none. intros x' z' Hx' Hcx'.
      destruct (cores_lookup _ _ _ _ _ _ Hc Hx') as [[-> E']|(Hne & w & Hw & E')]; core_facts.
      + destruct Hcx', Hcn; congruence.
      + eapply Em; [exact Hw|]. destruct Hcx'; split; congruence. }
  split.
  - done.
  - done.
  - intros m. case_decide as Hm; [subst m|by apply Hoth]. rewrite Hv, (dblock_disk s s' n Hd).
    by apply core_view.
  - intros m. case_decide as Hm; [subst m|by apply Hoth]. rewrite Hrf. by core_facts.
  - rewrite (nbusy_step _ _ _ _ _ Hb Hc), Hrefs. done.
Qed.

(** ** The operations *)

Lemma ring_links s s' l :
  (forall b, nxt s' b = nxt s b) -> (forall b, prv s' b = prv s b) -> ring s l -> ring s' l.
Proof.
  intros Hn Hp [Hrn Hrp Hperm]. split; [| |done].
  - eapply path_ext; [|exact Hrn]. intros; by rewrite Hn.
  - eapply path_ext; [|exact Hrp]. intros; by rewrite Hp.
Qed.

Lemma ring_alter s s' f b l :
  ks_bufs s' = alter f b (ks_bufs s) -> ks_bhead_next s' = ks_bhead_next s ->
  ks_bhead_prev s' = ks_bhead_prev s ->
  (forall x, b_next (f x) = b_next x) -> (forall x, b_prev (f x) = b_prev x) ->
  ring s l -> ring s' l.
Proof.
  intros Hb Hn Hp Hfn Hfp. apply ring_links; intros x; unfold nxt, prv;
    rewrite ?Hb, ?Hn, ?Hp; case_match; try done; rewrite list_lookup_alter; case_decide; try done;
    subst; destruct (ks_bufs s !! x); cbn; congruence.
Qed.

Lemma cores_alter s s' f b bf :
  ks_bufs s' = alter f b (ks_bufs s) -> ks_bufs s !! b = Some bf ->
  cores s' = <[b := core (f bf)]> (cores s).
Proof.
  intros Hb Hbf. unfold cores. rewrite Hb, (list_alter_insert_at _ _ _ _ Hbf).
  apply list_fmap_insert.
Qed.

(** A buffer record for block [n] of [d] with contents [v]. *)
Definition read_buf (val d n r : Z) (v : list Z) (x : buf) : buf :=
  mk_buf val (b_disk x) d n r (b_prev x) (b_next x) v.

(** The tail of bread on the locked buffer that bget returned. *)
Lemma fill_ok s p b bf :
  quiet s p -> buf_locked s p b -> ks_bufs s !! b = Some bf -> b_disk bf = 0 ->
  (let! bf := buf_of b in
   when (negb (z2b (b_valid bf)))
     (disk_rw b false ;; set_buf b (fun x => x <| b_valid := 1 |>)) ;;
   ret b) s
  = Done b (if z2b (b_valid bf) then s else
            s <| ks_bufs ::= alter (fun x =>
                   x <| b_data := dblock s (b_blockno bf) |> <| b_valid := 1 |>) b |>).
Proof.
  intros Hq Hl Hb Hd. kstep buf_of_ok; [|done]. destruct (z2b (b_valid bf)); [done|]. cbn [negb when].
  erewrite kbind_assoc_done by (by eapply disk_read_ok).
  kstep set_buf_ok; [|cbn; by rewrite list_lookup_alter_eq, Hb].
  unfold ret. apply f_equal. kstate_eq. by rewrite list_alter_alter_eq.
Qed.

Lemma bread_eq s p d held n :
  bio_ok s p d held ->
  (forall b bf, b ∈ held -> ks_bufs s !! b = Some bf -> b_blockno bf <> n) ->
  (refs s d n = 0 -> (nbusy s < NBUF)%nat) -> refs s d n < 2 ^ 32 - 1 ->
  exists b bf val, ks_bufs s !! b = Some bf /\ (b ∉ held) /\ val <> 0 /\
    (caches d n bf \/ (bidx s d n = None /\ b_refcnt bf = 0)) /\
    bread d n s = Done b (slept_in (SL_buf b) (mypid s p)
      (s <| ks_bufs ::= alter (read_buf val d n (refs s d n + 1) (cval s d n)) b |>)).
Proof.
  intros Hok Hnh Hfree Hlim. pose proof (bo_quiet _ _ _ _ Hok) as Hq.
  destruct (bget_ok s p d held n Hok Hnh Hfree)
    as [(b & bf & Hi & Hg & Hbh)|(b & bf & Hi & Hb & Hr & Hbh & Hg)]; unfold bread; kstep Hg.
  - apply (bidx_some _ _ _ _ _ _ _ Hok) in Hi as [Hb Hc].
    destruct (cval_at _ _ _ _ _ _ _ Hok Hb Hc) as [Hv Hr].
    destruct (bo_buf _ _ _ _ Hok _ _ Hb) as (Hl & Hd & Hrr & _).
    assert (u32 (b_refcnt bf + 1) = b_refcnt bf + 1) as Hu by (apply u32_small; lia).
    assert (b < NBUF)%nat as Hlt by (rewrite <- (bo_len _ _ _ _ Hok); by eapply lookup_lt_Some).
    destruct (bo_lock _ _ _ _ Hok b Hlt) as (lk & Hlk & _).
    destruct Hc as [Hcd Hcn].
    erewrite (fill_ok (hit b p s) p);
      [|apply quiet_slept_in; by apply (quiet_same s)|eexists; cbn; rewrite lookup_alter_eq, Hlk; done
       |cbn; rewrite list_lookup_alter_eq, Hb; reflexivity|done].
    cbn [b_valid b_blockno upd set_b_refcnt]. unfold z2b in *.
    destruct (Z.eqb_spec (b_valid bf) 0) as [E|E]; cbn [negb] in *.
    + exists b, bf, 1. split_and!; [done|done|done|by left|].
      apply f_equal. kstate_eq. rewrite !list_alter_alter_eq.
      apply list_alter_ext; [|done]. intros x Hx. simplify_eq. unfold read_buf, compose.
      by rewrite Hv, Hr, <- Hu.
    + exists b, bf, (b_valid bf). split_and!; [done|done|done|by left|].
      apply f_equal. kstate_eq.
      apply list_alter_ext; [|done]. intros x Hx. simplify_eq. unfold read_buf.
      rewrite Hv, Hr, <- Hu. by destruct bf.
  - destruct (bo_buf _ _ _ _ Hok _ _ Hb) as (Hl & Hd & _).
    assert (b < NBUF)%nat as Hlt by (rewrite <- (bo_len _ _ _ _ Hok); by eapply lookup_lt_Some).
    destruct (bo_lock _ _ _ _ Hok b Hlt) as (lk & Hlk & _).
    destruct (cval_none s d n (proj1 (bidx_none _ _ _) Hi)) as [Hv Hr0].
    erewrite (fill_ok (recycled b p d n s) p);
      [|apply quiet_slept_in; by apply (quiet_same s)|eexists; cbn; rewrite lookup_alter_eq, Hlk; done
       |cbn; rewrite list_lookup_alter_eq, Hb; reflexivity|done].
    exists b, bf, 1. split_and!; [done|done|done|by right|].
    cbn [b_valid b_blockno renamed z2b Z.eqb negb].
    apply f_equal. kstate_eq. rewrite !list_alter_alter_eq.
    apply list_alter_ext; [|done]. intros x Hx. simplify_eq. unfold read_buf, compose.
    cbn. by rewrite Hv, Hr0.
Qed.

Lemma slock_slept_in s b pid x :
  ks_slocks (slept_in (SL_buf b) pid s) !! SL_buf x
  = if decide (x = b) then (fun l => mk_sleeplock 1 (sl_name l) pid) <$> ks_slocks s !! SL_buf b
    else ks_slocks s !! SL_buf x.
Proof.
  cbn. case_decide as E; [subst; apply lookup_alter_eq|]. apply lookup_alter_ne. congruence.
Qed.
Lemma slock_slept_out s b x :
  ks_slocks (slept_out (SL_buf b) s) !! SL_buf x
  = if decide (x = b) then (fun l => mk_sleeplock 0 (sl_name l) 0) <$> ks_slocks s !! SL_buf b
    else ks_slocks s !! SL_buf x.
Proof.
  cbn. case_decide as E; [subst; apply lookup_alter_eq|]. apply lookup_alter_ne. congruence.
Qed.

(** The buffers [held] keep their block, contents and reference count. *)
Definition keeps (s s' : kstate) (held : list nat) : Prop :=
  forall b bf, b ∈ held -> ks_bufs s !! b = Some bf ->
    exists bf', ks_bufs s' !! b = Some bf' /\ core bf' = core bf.

Lemma keeps_step s s' d b bf bf' held :
  buf_step s s' d b bf bf' -> (b ∉ held) -> keeps s s' held.
Proof.
  intros [_ _ Hc _ _ _ _ _] Hb x z Hx Hz. eapply cores_other; [done| |done]. by intros ->.
Qed.

(** bread(d, n) locks the buffer of block [n], with the block's current
    contents, and changes nothing its clients can see but the reference. *)
Lemma bread_ok s p d held n :
  bio_ok s p d held ->
  (forall b bf, b ∈ held -> ks_bufs s !! b = Some bf -> b_blockno bf <> n) ->
  (refs s d n = 0 -> (nbusy s < NBUF)%nat) -> refs s d n < 2 ^ 32 - 1 ->
  exists b bf s', bread d n s = Done b s' /\ bio_ok s' p d (b :: held) /\ (b ∉ held) /\
    ks_bufs s' !! b = Some bf /\ caches d n bf /\ b_data bf = cval s d n /\
    cstep s s' d n (cval s d n) (refs s d n + 1) /\
    ks_dwrites s' = ks_dwrites s /\ keeps s s' held.
Proof.
  intros Hok Hnh Hfree Hlim.
  destruct (bread_eq s p d held n Hok Hnh Hfree Hlim) as (b & bf & val & Hb & Hbh & Hval & Hold & E).
  set (f := read_buf val d n (refs s d n + 1) (cval s d n)) in *.
  set (s' := slept_in _ _ _) in E.
  destruct (bo_buf _ _ _ _ Hok _ _ Hb) as (Hl & Hd & Hrr & Hdev).
  assert (refs s d n = b_refcnt bf) as Hrefs.
  { destruct Hold as [Ho|[Ho Hz]]; [by eapply cval_at|]. unfold refs. by rewrite Ho, Hz. }
  assert (buf_step s s' d b bf (f bf)) as Hst.
  { split.
    - unfold bio_frame. kstate_eq.
    - done.
    - by apply (cores_alter s s' f).
    - destruct (bo_ring _ _ _ _ Hok) as [l Hr]. exists l. by apply (ring_alter s s' f b).
    - done.
    - split_and!; [|done|cbn; lia|cbn; lia|done]. cbn. destruct Hold as [Ho|[Ho _]].
      + destruct (cval_at _ _ _ _ _ _ _ Hok Hb Ho) as [-> _].
        case_match; [done|apply (bo_disk _ _ _ _ Hok)].
      + destruct (cval_none s d n (proj1 (bidx_none _ _ _) Ho)) as [-> _]. apply (bo_disk _ _ _ _ Hok).
    - cbn. intros x y Hne Hx Hdy _ Hny. destruct Hold as [[Ho1 Ho2]|[Ho _]].
      + apply Hne. eapply (bo_uniq _ _ _ _ Hok); eauto. congruence.
      + rewrite bidx_none in Ho. by eapply Ho.
    - cbn. lia. }
  assert (bio_ok s' p d (b :: held)) as Hok'.
  { eapply (bio_ok_step s s' p d held (b :: held)); [done|exact Hst| | | |].
    - intros x Hx. destruct (bo_lock _ _ _ _ Hok x Hx) as (l & Hl1 & Hl2).
      unfold s'. rewrite slock_slept_in. destruct (decide (x = b)) as [Ex|Ex].
      + subst x. cbn. rewrite Hl1. eexists. split; [done|]. rewrite decide_True by (by left). done.
      + exists l. split; [done|]. destruct (decide (x ∈ held)).
        * by rewrite decide_True by (by right).
        * by rewrite decide_False by (intros [->|?]%elem_of_cons; done).
    - cbn. intros _. split; [lia|done].
    - intros x [->|?]%elem_of_cons; auto.
    - constructor; [done|apply (bo_nodup _ _ _ _ Hok)]. }
  exists b, (f bf), s'. split_and!; try done.
  - cbn. by rewrite list_lookup_alter_eq, Hb.
  - pose proof (view_step _ _ _ _ _ _ _ _ _ n Hok Hok' Hst (conj eq_refl eq_refl) Hold) as Hv.
    cbn [f read_buf b_valid b_data b_refcnt] in Hv. unfold z2b in Hv.
    by rewrite (proj2 (Z.eqb_neq _ _) Hval) in Hv.
  - by eapply keeps_step.
Qed.

(** The holder of a buffer writes its data. *)
Lemma bdata_ok s p d held n b bf v :
  bio_ok s p d held -> b ∈ held -> ks_bufs s !! b = Some bf -> b_blockno bf = n ->
  length v = Z.to_nat BSIZE ->
  exists s', set_buf b (fun x => x <| b_data := v |>) s = Done tt s' /\ bio_ok s' p d held /\
    ks_bufs s' !! b = Some (bf <| b_data := v |>) /\
    cstep s s' d n v (refs s d n) /\ ks_dwrites s' = ks_dwrites s /\
    (forall held', (b ∉ held') -> keeps s s' held').
Proof.
  intros Hok Hin Hb Hn Hlen. set (f := fun x : buf => x <| b_data := v |>).
  exists (s <| ks_bufs ::= alter f b |>). set (s' := upd ks_bufs _ s).
  destruct (bo_held _ _ _ _ Hok _ _ Hin Hb) as [Hr0 Hv0].
  destruct (bo_buf _ _ _ _ Hok _ _ Hb) as (Hl & Hd & Hrr & Hdev).
  assert (caches d n bf) as Hc by (split; auto).
  assert (buf_step s s' d b bf (f bf)) as Hst.
  { split.
    - unfold bio_frame. kstate_eq.
    - done.
    - by apply (cores_alter s s' f).
    - destruct (bo_ring _ _ _ _ Hok) as [l Hr]. exists l. by apply (ring_alter s s' f b).
    - done.
    - split_and!; [done|done|apply Hrr|apply Hrr|auto].
    - intros x y Hne Hx Hdy _ Hny. apply Hne. cbn in Hny. eapply (bo_uniq _ _ _ _ Hok); eauto.
    - cbn. done. }
  assert (bio_ok s' p d held) as Hok'.
  { eapply (bio_ok_step s s' p d held held); [done|exact Hst|apply (bo_lock _ _ _ _ Hok)|done|auto|].
    apply (bo_nodup _ _ _ _ Hok). }
  split_and!.
  - by eapply set_buf_ok.
  - done.
  - cbn. by rewrite list_lookup_alter_eq, Hb.
  - pose proof (view_step _ _ _ _ _ _ _ _ _ n Hok Hok' Hst Hc (or_introl Hc)) as Hv.
    destruct (cval_at _ _ _ _ _ _ _ Hok Hb Hc) as [_ ->].
    cbn in Hv. unfold z2b in Hv. by rewrite (proj2 (Z.eqb_neq _ _) Hv0) in Hv.
  - done.
  - intros held' Hh. by eapply keeps_step.
Qed.

(** A change of one reference count. *)
Lemma ref_step s s' p d held b bf r :
  bio_ok s p d held -> ks_bufs s !! b = Some bf -> b_dev bf = d -> 0 <= r < 2 ^ 32 ->
  bio_frame s s' -> cores s' = <[b := core (bf <| b_refcnt := r |>)]> (cores s) ->
  (exists l, ring s' l) -> ks_disk s' = ks_disk s ->
  (r = 0 -> b_data bf = dblock s (b_blockno bf)) ->
  buf_step s s' d b bf (bf <| b_refcnt := r |>).
Proof.
  intros Hok Hb Hdev Hr Hf Hc Hring Hd Hclean.
  destruct (bo_buf _ _ _ _ Hok _ _ Hb) as (Hl & Hdk & _ & _). split; try done.
  - intros x y Hne Hx Hdy _ Hny. apply Hne. cbn in Hny. eapply (bo_uniq _ _ _ _ Hok); eauto.
Qed.

Lemma view_ref s s' p d held held' b bf r :
  bio_ok s p d held -> bio_ok s' p d held' -> b_dev bf = d ->
  buf_step s s' d b bf (bf <| b_refcnt := r |>) ->
  cstep s s' d (b_blockno bf) (cval s d (b_blockno bf)) r.
Proof.
  intros Hok Hok' Hdev Hst. pose proof (bs_at _ _ _ _ _ _ Hst) as Hb.
  assert (caches d (b_blockno bf) bf) as Hc by (by split).
  destruct (cval_at _ _ _ _ _ _ _ Hok Hb Hc) as [-> _].
  exact (view_step _ _ _ _ _ _ _ _ _ _ Hok Hok' Hst Hc (or_introl Hc)).
Qed.

(** bpin and bunpin on a held buffer. *)
Lemma bref_ok s p d held b bf (g : Z -> Z) :
  bio_ok s p d held -> b ∈ held -> ks_bufs s !! b = Some bf ->
  0 < g (b_refcnt bf) < 2 ^ 32 ->
  exists s', (acquire L_bcache ;; set_buf b (fun x => x <| b_refcnt ::= g |>) ;;
              release L_bcache) s = Done tt s' /\
    bio_ok s' p d held /\ ks_bufs s' !! b = Some (bf <| b_refcnt ::= g |>) /\
    cstep s s' d (b_blockno bf) (cval s d (b_blockno bf)) (g (b_refcnt bf)) /\
    ks_dwrites s' = ks_dwrites s /\ (forall held', (b ∉ held') -> keeps s s' held').
Proof.
  intros Hok Hin Hb Hg. pose proof (bo_quiet _ _ _ _ Hok) as Hq.
  set (f := fun x : buf => x <| b_refcnt ::= g |>).
  set (s' := s <| ks_bufs ::= alter f b |>).
  destruct (bo_held _ _ _ _ Hok _ _ Hin Hb) as [Hr0 Hv0].
  destruct (bo_buf _ _ _ _ Hok _ _ Hb) as (_ & _ & _ & Hdev). specialize (Hdev Hr0).
  assert (buf_step s s' d b bf (bf <| b_refcnt := g (b_refcnt bf) |>)) as Hst.
  { eapply ref_step; try done; [lia|by apply (cores_alter s s' f)| |lia].
    destruct (bo_ring _ _ _ _ Hok) as [l Hr]. exists l. by apply (ring_alter s s' f b). }
  assert (bio_ok s' p d held) as Hok'.
  { eapply (bio_ok_step s s' p d held held); [done|exact Hst|apply (bo_lock _ _ _ _ Hok)| |auto|].
    - cbn. intros _. split; [lia|done].
    - apply (bo_nodup _ _ _ _ Hok). }
  exists s'. split_and!; try done.
  - kstep acquire_ok; [|apply (q_hart _ _ Hq)|by apply (q_locks _ _ Hq)].
    kstep set_buf_ok; [|done]. restate (acq L_bcache s').
    apply release_acq; [|by apply (q_locks _ _ Hq)].
    eapply hart_ok_same; [|apply (q_hart _ _ Hq)]. by split.
  - cbn. by rewrite list_lookup_alter_eq, Hb.
  - by eapply view_ref.
  - intros held' Hh. by eapply keeps_step.
Qed.

Lemma bwrite_ok s p d held b bf :
  bio_ok s p d held -> b ∈ held -> ks_bufs s !! b = Some bf ->
  let s' := disk_put (b_blockno bf) (b_data bf) s in
  bwrite b s = Done tt s' /\ bio_ok s' p d held /\
  (forall m, cval s' d m = cval s d m) /\ (forall m, refs s' d m = refs s d m).
Proof.
  intros Hok Hin Hb s'. pose proof (bo_quiet _ _ _ _ Hok) as Hq.
  pose proof (bo_held_valid _ _ _ _ Hok _ Hin) as Hlt.
  destruct (bo_held _ _ _ _ Hok _ _ Hin Hb) as [Hr0 Hv0].
  destruct (bo_buf _ _ _ _ Hok _ _ Hb) as (Hl & Hd & _ & Hdev). specialize (Hdev Hr0).
  destruct (bo_lock _ _ _ _ Hok b Hlt) as (lk & Hlk & Hlk').
  rewrite decide_True in Hlk' by done. destruct Hlk' as [Hlk1 Hlk2].
  assert (forall m, m <> b_blockno bf -> dblock s' m = dblock s m) as Hdb.
  { intros m Hm. unfold dblock. cbn. by rewrite lookup_insert_ne by done. }
  assert (forall m x y, ks_bufs s !! x = Some y -> caches d m y -> x <> b -> m <> b_blockno bf) as Hun.
  { intros m x y Hx [Hyd Hyn] Hne ->. apply Hne. eapply (bo_uniq _ _ _ _ Hok); eauto. }
  split_and!.
  - unfold bwrite. kstep (holdingsleep_ok _ _ p); [|done|by apply lt_NBUF_slock|done].
    rewrite Hlk1, Hlk2, Z.eqb_refl. cbn [andb negb z2b Z.eqb].
    eapply disk_write_ok; [done|by exists lk|done|done].
  - destruct Hok as [? ? ? Hring ? ? ? ? Hclean Hdisk ? ?]. split; try done.
    + by apply (quiet_same s).
    + destruct Hring as [l Hring]. exists l. by apply (ring_links s).
    + intros x y Hx Hyd Hyv Hyr. change (ks_bufs s !! x = Some y) in Hx.
      destruct (decide (x = b)) as [->|Hne]; [congruence|].
      rewrite Hdb; [by eapply Hclean|]. eapply Hun; [exact Hx|by split|done].
    + intros m. destruct (decide (m = b_blockno bf)) as [->|Hm]; [|by rewrite Hdb].
      unfold dblock. cbn. by rewrite lookup_insert_eq.
  - intros m. unfold cval. change (bidx s' d m) with (bidx s d m).
    destruct (bidx s d m) as [[x y]|] eqn:E.
    + apply (bidx_some _ _ _ _ _ _ _ Hok) in E as [Hx Hc].
      destruct (decide (x = b)) as [->|Hne].
      * simplify_eq. unfold z2b. by rewrite (proj2 (Z.eqb_neq _ _) Hv0).
      * by rewrite Hdb by (by eapply Hun).
    + rewrite bidx_none in E. rewrite Hdb; [done|]. intros ->. by apply (E b bf).
  - done.
Qed.

(** ** brelse *)

Lemma path_step_in f x l y z : path f x l y -> z = x \/ z ∈ l -> f z = y \/ f z ∈ l.
Proof.
  revert x. induction l as [|w l IH]; intros x; cbn.
  - intros <- [->|[]%elem_of_nil]. by left.
  - intros [<- Hp] [->|[->|Hz]%elem_of_cons]; [right; by left| |];
      (destruct (IH _ Hp) as [->|]; [by auto|by left|right; by right]).
Qed.

Lemma ring_valid_next s l b :
  length (ks_bufs s) = NBUF -> ring s l -> valid_link s b -> valid_link s (nxt s b).
Proof.
  intros Hlen Hr Hb. pose proof (fun x => ring_elem s l x Hr) as Hel.
  destruct (path_step_in _ _ _ _ b (ring_next _ _ Hr)) as [->|Hin].
  - destruct Hb; [by left|right]. apply Hel. lia.
  - by left.
  - right. rewrite Hlen. by apply Hel.
Qed.
Lemma ring_valid_prev s l b :
  length (ks_bufs s) = NBUF -> ring s l -> valid_link s b -> valid_link s (prv s b).
Proof.
  intros Hlen Hr Hb. pose proof (fun x => ring_elem s l x Hr) as Hel.
  destruct (path_step_in _ _ _ _ b (ring_prev _ _ Hr)) as [->|Hin].
  - destruct Hb; [by left|right]. rewrite elem_of_reverse. apply Hel. lia.
  - by left.
  - right. rewrite Hlen. apply Hel. by rewrite elem_of_reverse in Hin.
Qed.

Lemma valid_link_len s s' b :
  length (ks_bufs s') = length (ks_bufs s) -> valid_link s b -> valid_link s' b.
Proof. intros Hl. unfold valid_link. by rewrite Hl. Qed.

Definition move_front (b : nat) : K unit :=
  let! n := get_next b in
  let! p := get_prev b in
  set_prev n p ;;
  let! p := get_prev b in
  let! n := get_next b in
  set_next p n ;;
  let! hn := get_next HEAD in
  set_next b hn ;;
  set_prev b HEAD ;;
  let! hn := get_next HEAD in
  set_prev hn b ;;
  set_next HEAD b.

Lemma length_unlinked b s : length (ks_bufs (unlinked b s)) = length (ks_bufs s).
Proof. unfold unlinked. by rewrite length_bufs_link_next, length_bufs_link_prev. Qed.

Lemma move_front_ok s l b :
  length (ks_bufs s) = NBUF -> ring s l -> (b < NBUF)%nat -> move_front b s = Done tt (mru b s).
Proof.
  intros Hlen Hr Hlt. assert (valid_link s b) as Vb by (right; lia).
  pose proof (ring_valid_next _ _ _ Hlen Hr Vb) as Vn.
  pose proof (ring_valid_prev _ _ _ Hlen Hr Vb) as Vp.
  pose proof (proj2 (ring_elem _ _ b Hr) Hlt) as (l1 & l2 & ->)%list_elem_of_split.
  pose proof (unlinked_paths s l1 b l2 Hlen Hr) as [Hn _].
  pose proof (fun x => ring_elem s _ x Hr) as Hel. pose proof (length_unlinked b s) as Hlu.
  assert (valid_link (unlinked b s) (nxt (unlinked b s) HEAD)) as Vh.
  { destruct (path_step_in _ _ _ _ HEAD Hn (or_introl eq_refl)) as [->|Hin]; [by left|right].
    rewrite Hlu, Hlen. apply Hel. apply elem_of_app in Hin. apply elem_of_app.
    destruct Hin; [by left|right; by right]. }
  unfold move_front. kstep get_next_ok; [|done]. kstep get_prev_ok; [|done].
  kstep set_prev_ok; [|done]. set (s1 := link_prev (nxt s b) (prv s b) s).
  assert (length (ks_bufs s1) = length (ks_bufs s)) as Hl1 by apply length_bufs_link_prev.
  assert (prv s1 b = prv s b) as Ep.
  { unfold s1. rewrite prv_link_prev by done. unfold fupd. by case_decide. }
  kstep get_prev_ok; [|by eapply valid_link_len]. kstep get_next_ok; [|by eapply valid_link_len].
  rewrite Ep. replace (nxt s1 b) with (nxt s b) by (symmetry; apply nxt_link_prev).
  kstep set_next_ok; [|by eapply valid_link_len].
  change (link_next (prv s b) (nxt s b) s1) with (unlinked b s).
  kstep get_next_ok; [|by left]. kstep set_next_ok; [|by eapply valid_link_len].
  set (h := nxt (unlinked b s) HEAD) in *. set (s2 := link_next b h (unlinked b s)).
  assert (length (ks_bufs s2) = length (ks_bufs s)) as Hl2
    by (unfold s2; by rewrite length_bufs_link_next).
  kstep set_prev_ok; [|by eapply valid_link_len].
  kstep get_next_ok; [|by left].
  assert (nxt (link_prev b HEAD s2) HEAD = h) as ->.
  { rewrite nxt_link_prev. unfold s2. rewrite nxt_link_next by (by eapply valid_link_len).
    apply fupd_ne. unfold HEAD. lia. }
  kstep set_prev_ok; [|eapply valid_link_len; [|exact Vh]; by rewrite length_bufs_link_prev, Hl2].
  by rewrite set_next_ok by (by left).
Qed.

Lemma link_next_acq b v lk s : link_next b v (acq lk s) = acq lk (link_next b v s).
Proof. unfold link_next. by case_match. Qed.
Lemma link_prev_acq b v lk s : link_prev b v (acq lk s) = acq lk (link_prev b v s).
Proof. unfold link_prev. by case_match. Qed.
Lemma mru_acq b lk s : mru b (acq lk s) = acq lk (mru b s).
Proof.
  unfold mru, pushed_front, unlinked.
  change (nxt (acq lk s) b) with (nxt s b). change (prv (acq lk s) b) with (prv s b).
  rewrite link_prev_acq, link_next_acq. set (s1 := link_next _ _ (link_prev _ _ s)).
  change (nxt (acq lk s1) HEAD) with (nxt s1 HEAD).
  by rewrite link_next_acq, !link_prev_acq, link_next_acq.
Qed.

Lemma cores_link_next b v s : cores (link_next b v s) = cores s.
Proof.
  unfold link_next, cores. case_match; [done|]. cbn. apply list_eq. intros i.
  rewrite !list_lookup_fmap, list_lookup_alter.
  case_decide; subst; [|done]. by destruct (ks_bufs s !! i).
Qed.
Lemma cores_link_prev b v s : cores (link_prev b v s) = cores s.
Proof.
  unfold link_prev, cores. case_match; [done|]. cbn. apply list_eq. intros i.
  rewrite !list_lookup_fmap, list_lookup_alter.
  case_decide; subst; [|done]. by destruct (ks_bufs s !! i).
Qed.
Lemma cores_mru b s : cores (mru b s) = cores s.
Proof.
  unfold mru, pushed_front, unlinked.
  by rewrite !cores_link_next, !cores_link_prev, !cores_link_next, cores_link_prev.
Qed.

(** Relinking touches only the buffers and the head. *)
Definition ring_frame (s s' : kstate) : Prop :=
  s' = s <| ks_bufs := ks_bufs s' |> <| ks_bhead_prev := ks_bhead_prev s' |>
         <| ks_bhead_next := ks_bhead_next s' |>.
#[local] Instance ring_frame_preorder : PreOrder ring_frame.
Proof.
  split; [intros s; unfold ring_frame; kstate_eq|].
  intros s1 s2 s3 H12 H23. unfold ring_frame in *. rewrite H23, H12. kstate_eq.
Qed.
Lemma ring_frame_next b v s : ring_frame s (link_next b v s).
Proof. unfold ring_frame, link_next. case_match; kstate_eq. Qed.
Lemma ring_frame_prev b v s : ring_frame s (link_prev b v s).
Proof. unfold ring_frame, link_prev. case_match; kstate_eq. Qed.
Lemma ring_frame_mru b s : ring_frame s (mru b s).
Proof.
  unfold mru, pushed_front, unlinked.
  repeat first [reflexivity | etransitivity; [|apply ring_frame_next]
               | etransitivity; [|apply ring_frame_prev]].
Qed.

(** What brelse leaves: the sleep lock free, one reference less and, with
    none left, the buffer at the front of the ring. *)
Definition released (b : nat) (s : kstate) : kstate :=
  (slept_out (SL_buf b) s) <| ks_bufs ::= alter (fun x => x <| b_refcnt ::= fun r => u32 (r - 1) |>) b |>.
Definition brelsed (b : nat) (bf : buf) (s : kstate) : kstate :=
  if b_refcnt bf =? 1 then mru b (released b s) else released b s.

Lemma ring_released b s l : ring s l -> ring (released b s) l.
Proof. by apply (ring_alter s _ (fun x => x <| b_refcnt ::= fun r => u32 (r - 1) |>) b). Qed.

Lemma brelse_eq s p d held b bf :
  bio_ok s p d held -> b ∈ held -> ks_bufs s !! b = Some bf ->
  brelse b s = Done tt (brelsed b bf s).
Proof.
  intros Hok Hin Hb. pose proof (bo_quiet _ _ _ _ Hok) as Hq.
  pose proof (bo_held_valid _ _ _ _ Hok _ Hin) as Hlt.
  destruct (bo_held _ _ _ _ Hok _ _ Hin Hb) as [Hr0 _].
  destruct (bo_buf _ _ _ _ Hok _ _ Hb) as (_ & _ & Hrr & _).
  destruct (bo_lock _ _ _ _ Hok b Hlt) as (lk & Hlk & Hlk').
  rewrite decide_True in Hlk' by done. destruct Hlk' as [Hlk1 Hlk2].
  unfold brelse. kstep (holdingsleep_ok _ _ p); [|done|by apply lt_NBUF_slock|done].
  rewrite Hlk1, Hlk2, Z.eqb_refl. cbn [andb negb z2b Z.eqb].
  kstep (releasesleep_ok _ _ p); [|done|by apply lt_NBUF_slock|done].
  kstep acquire_ok; [|apply (q_hart _ _ Hq)|by apply (q_locks _ _ Hq)].
  kstep set_buf_ok; [|done].
  match goal with |- kbind _ _ ?x = _ =>
    replace x with (acq L_bcache (released b s)) by (symmetry; kstate_eq) end.
  kstep buf_of_ok; [|cbn -[u32]; rewrite list_lookup_alter_eq, Hb; reflexivity].
  change (b_refcnt _) with (u32 (b_refcnt bf - 1)). rewrite u32_small by lia.
  replace (b_refcnt bf - 1 =? 0) with (b_refcnt bf =? 1) 
    by (destruct (Z.eqb_spec (b_refcnt bf) 1), (Z.eqb_spec (b_refcnt bf - 1) 0); lia).
  unfold brelsed. destruct (b_refcnt bf =? 1); cbn [when].
  - change (kbind _ _ _) with (kbind (move_front b) (fun _ => release L_bcache) (acq L_bcache (released b s))).
    destruct (bo_ring _ _ _ _ Hok) as [l Hr].
    kstep (move_front_ok _ l); [| | |done].
    + rewrite mru_acq. apply release_acq.
      * eapply hart_ok_same; [|apply (q_hart _ _ Hq)]. rewrite (ring_frame_mru b _). by split.
      * eapply lock_free_same; [|by apply (q_locks _ _ Hq)]. rewrite (ring_frame_mru b _). by split.
    + cbn. rewrite length_alter. apply (bo_len _ _ _ _ Hok).
    + apply (ring_links (released b s)); [done|done|]. by apply ring_released.
  - rewrite kbind_ret. apply release_acq; [apply (q_hart _ _ Hq)|by apply (q_locks _ _ Hq)].
Qed.

(** brelse(b): the client drops its lock and one reference; the last one only
    when the buffer's contents are on the disk. *)
Lemma brelse_ok s p d held b bf :
  bio_ok s p d (b :: held) -> ks_bufs s !! b = Some bf ->
  (b_refcnt bf = 1 -> b_data bf = dblock s (b_blockno bf)) ->
  exists s', brelse b s = Done tt s' /\ bio_ok s' p d held /\
    cstep s s' d (b_blockno bf) (cval s d (b_blockno bf)) (b_refcnt bf - 1) /\
    ks_dwrites s' = ks_dwrites s /\ keeps s s' held.
Proof.
  intros Hok Hb Hclean. assert (b ∈ b :: held) as Hin by by left.
  pose proof (bo_nodup _ _ _ _ Hok) as [Hbh Hnd]%NoDup_cons.
  destruct (bo_held _ _ _ _ Hok _ _ Hin Hb) as [Hr0 Hv0].
  destruct (bo_buf _ _ _ _ Hok _ _ Hb) as (_ & _ & Hrr & Hdev). specialize (Hdev Hr0).
  set (s' := brelsed b bf s). set (f := fun x : buf => x <| b_refcnt ::= fun r => u32 (r - 1) |>).
  assert (ring_frame (released b s) s') as Hrf.
  { unfold s', brelsed. case_match; [apply ring_frame_mru|reflexivity]. }
  assert (cores s' = cores (released b s)) as Hcr.
  { unfold s', brelsed. case_match; [apply cores_mru|done]. }
  assert (buf_step s s' d b bf (bf <| b_refcnt := b_refcnt bf - 1 |>)) as Hst.
  { eapply ref_step; [exact Hok|done|done|lia| | | | |].
    - unfold bio_frame. rewrite Hrf. kstate_eq.
    - rewrite Hcr, (cores_alter s (released b s) f b bf) by done. f_equal.
      change (f bf) with (bf <| b_refcnt := u32 (b_refcnt bf - 1) |>). by rewrite u32_small by lia.
    - destruct (bo_ring _ _ _ _ Hok) as [l Hr]. apply (ring_released b) in Hr.
      unfold s', brelsed. case_match; [|by eexists].
      assert (b < NBUF)%nat as Hlt by (by apply (bo_held_valid _ _ _ _ Hok)).
      pose proof (proj2 (ring_elem _ _ b Hr) Hlt) as (l1 & l2 & ->)%list_elem_of_split.
      eexists. apply ring_mru; [|done]. cbn. rewrite length_alter. apply (bo_len _ _ _ _ Hok).
    - by rewrite Hrf.
    - intros Hz. apply Hclean. lia. }
  assert (ks_slocks s' = ks_slocks (slept_out (SL_buf b) s)) as Hsl by (by rewrite Hrf).
  assert (bio_ok s' p d held) as Hok'.
  { eapply (bio_ok_step s s' p d (b :: held) held); [done|exact Hst| |done| |done].
    - intros x Hx. rewrite Hsl, slock_slept_out.
      destruct (bo_lock _ _ _ _ Hok x Hx) as (l & Hl1 & Hl2).
      destruct (decide (x = b)) as [->|Hne].
      + rewrite Hl1. cbn. eexists. split; [done|]. by rewrite decide_False.
      + exists l. split; [done|]. destruct (decide (x ∈ held)).
        * by rewrite decide_True in Hl2 by (by right).
        * by rewrite decide_False in Hl2 by (intros [->|?]%elem_of_cons; done).
    - intros x Hx. right. by right. }
  exists s'. split_and!; [by eapply brelse_eq|done|by eapply view_ref|by rewrite Hrf|].
  by eapply keeps_step.
Qed.

Lemma bio_ok_perm s p d held held' : held ≡ₚ held' -> bio_ok s p d held -> bio_ok s p d held'.
Proof.
  intros Hp Hok. pose proof Hok as []. split; try done.
  - intros x Hx. destruct (bo_lock0 x Hx) as (l & Hl & Hd). exists l. split; [done|].
    destruct (decide (x ∈ held)) as [E|E].
    + by rewrite decide_True by (by rewrite <- Hp).
    + by rewrite decide_False by (by rewrite <- Hp).
  - intros x bf. rewrite <- Hp. apply bo_held0.
  - intros x. rewrite <- Hp. apply bo_held_valid0.
  - by rewrite <- Hp.
Qed.

(** ** The cache as its clients see it

    An abstract cache: the buffers held and the block in each, every block's
    current contents and number of references, how many buffers are in use,
    the device and the writes it has received. *)

Record cache := mk_cache {
  ca_held : list (nat * Z);
  ca_val : Z -> list Z;
  ca_refs : Z -> Z;
  ca_busy : Z;
  ca_disk : gmap Z (list Z);
  ca_writes : list (Z * list Z)
}.

Definition fset {X} (f : Z -> X) (n : Z) (v : X) : Z -> X := fun m => if decide (m = n) then v else f m.
Lemma fset_eq {X} (f : Z -> X) n v : fset f n v n = v.
Proof. unfold fset. by rewrite decide_True. Qed.
Lemma fset_ne {X} (f : Z -> X) n v m : m <> n -> fset f n v m = f m.
Proof. intros. unfold fset. by rewrite decide_False. Qed.

Definition disk_at (D : gmap Z (list Z)) (n : Z) : list Z :=
  default (replicate (Z.to_nat BSIZE) 0) (D !! n).

Definition c_refs (n r : Z) (c : cache) : cache :=
  mk_cache (ca_held c) (ca_val c) (fset (ca_refs c) n r)
    (ca_busy c + busy r - busy (ca_refs c n)) (ca_disk c) (ca_writes c).
Definition c_hold (b : nat) (n : Z) (c : cache) : cache :=
  c_refs n (ca_refs c n + 1)
    (mk_cache ((b, n) :: ca_held c) (ca_val c) (ca_refs c) (ca_busy c) (ca_disk c) (ca_writes c)).
Definition c_set (n : Z) (v : list Z) (c : cache) : cache :=
  mk_cache (ca_held c) (fset (ca_val c) n v) (ca_refs c) (ca_busy c) (ca_disk c) (ca_writes c).
Definition c_flush (n : Z) (c : cache) : cache :=
  mk_cache (ca_held c) (ca_val c) (ca_refs c) (ca_busy c)
    (<[n := ca_val c n]> (ca_disk c)) ((n, ca_val c n) :: ca_writes c).
Definition c_drop (n : Z) (hs : list (nat * Z)) (c : cache) : cache :=
  c_refs n (ca_refs c n - 1)
    (mk_cache hs (ca_val c) (ca_refs c) (ca_busy c) (ca_disk c) (ca_writes c)).

(** The kernel state [s] implements the abstract cache [c] for thread [p]. *)
Record represents (s : kstate) (p : nat) (d : Z) (c : cache) : Prop := mk_represents {
  rp_ok : bio_ok s p d (ca_held c).*1;
  rp_held b n : (b, n) ∈ ca_held c -> exists bf, ks_bufs s !! b = Some bf /\ b_blockno bf = n;
  rp_val m : cval s d m = ca_val c m;
  rp_refs m : refs s d m = ca_refs c m;
  rp_busy : Z.of_nat (nbusy s) = ca_busy c;
  rp_disk : ks_disk s = ca_disk c;
  rp_writes : ks_dwrites s = ca_writes c
}.

(** The abstract cache of a state in which no buffer is held. *)
Definition abs_cache (s : kstate) (d : Z) : cache :=
  mk_cache [] (cval s d) (refs s d) (Z.of_nat (nbusy s)) (ks_disk s) (ks_dwrites s).
Lemma represents_abs s p d : bio_ok s p d [] -> represents s p d (abs_cache s d).
Proof. intros Hok. split; try done. by intros ? ? []%elem_of_nil. Qed.

Lemma held_buf s p d c b n :
  represents s p d c -> (b, n) ∈ ca_held c ->
  exists bf, ks_bufs s !! b = Some bf /\ b ∈ (ca_held c).*1 /\ b_blockno bf = n /\
    b_data bf = ca_val c n /\ b_refcnt bf = ca_refs c n /\ b_dev bf = d.
Proof.
  intros Hr Hin. destruct (rp_held _ _ _ _ Hr _ _ Hin) as (bf & Hb & Hn).
  pose proof (rp_ok _ _ _ _ Hr) as Hok.
  assert (b ∈ (ca_held c).*1) as Hin' by (apply list_elem_of_fmap; by exists (b, n)).
  destruct (bo_held _ _ _ _ Hok _ _ Hin' Hb) as [Hr0 Hv0].
  destruct (bo_buf _ _ _ _ Hok _ _ Hb) as (_ & _ & _ & Hdev). specialize (Hdev Hr0).
  destruct (cval_at _ _ _ _ n _ _ Hok Hb) as [Hv Hrf]; [by split|].
  exists bf. rewrite <- (rp_val _ _ _ _ Hr), <- (rp_refs _ _ _ _ Hr), Hv, Hrf. unfold z2b.
  by rewrite (proj2 (Z.eqb_neq _ _) Hv0).
Qed.

(** Other held buffers stay where they are. *)
Lemma keeps_held s s' p d c hs :
  represents s p d c -> keeps s s' hs.*1 -> (forall x, x ∈ hs -> x ∈ ca_held c) ->
  forall b n, (b, n) ∈ hs -> exists bf, ks_bufs s' !! b = Some bf /\ b_blockno bf = n.
Proof.
  intros Hr Hk Hsub b n Hin. destruct (rp_held _ _ _ _ Hr b n (Hsub _ Hin)) as (bf & Hb & Hn).
  destruct (Hk b bf) as (bf' & Hb' & Hc); [apply list_elem_of_fmap; by exists (b, n)|done|].
  exists bf'. split; [done|]. apply core_inv in Hc. naive_solver.
Qed.

Lemma bread_refines s p d c n :
  represents s p d c -> (n ∉ (ca_held c).*2) -> ca_refs c n < 2 ^ 32 - 1 ->
  (ca_refs c n = 0 -> ca_busy c < Z.of_nat NBUF) ->
  exists b s', bread d n s = Done b s' /\ bio_frame s s' /\ (b ∉ (ca_held c).*1) /\
    represents s' p d (c_hold b n c).
Proof.
  intros Hr Hnh Hlim Hfree. pose proof (rp_ok _ _ _ _ Hr) as Hok.
  rewrite <- (rp_refs _ _ _ _ Hr) in Hlim, Hfree. rewrite <- (rp_busy _ _ _ _ Hr) in Hfree.
  destruct (bread_ok s p d (ca_held c).*1 n) as (b & bf & s' & E & Hok' & Hb & Hbf & [_ Hn] & _ & Cs & Dw & Hk);
    [done| |lia|done|].
  { intros b bf Hin Hb Hbn. apply Hnh. apply list_elem_of_fmap in Hin as ([b' n'] & -> & Hin).
    destruct (rp_held _ _ _ _ Hr _ _ Hin) as (bf' & Hb' & Hn'). cbn in *.
    apply list_elem_of_fmap. exists (b', n'). split; [cbn; congruence|done]. }
  exists b, s'. split_and!; [done|apply (cs_frame _ _ _ _ _ _ Cs)|done|]. split; cbn.
  - done.
  - intros b' n' [E'|Hin]%elem_of_cons; [simplify_eq; eauto|].
    by eapply (keeps_held s s' p d c (ca_held c)).
  - intros m. rewrite (cs_cval _ _ _ _ _ _ Cs). case_decide; subst; apply (rp_val _ _ _ _ Hr).
  - intros m. rewrite (cs_refs _ _ _ _ _ _ Cs). unfold fset. rewrite <- !(rp_refs _ _ _ _ Hr). done.
  - rewrite (cs_nbusy _ _ _ _ _ _ Cs), <- !(rp_refs _ _ _ _ Hr), (rp_busy _ _ _ _ Hr). done.
  - rewrite (cs_disk _ _ _ _ _ _ Cs). apply (rp_disk _ _ _ _ Hr).
  - rewrite Dw. apply (rp_writes _ _ _ _ Hr).
Qed.

Lemma represents_step s s' p d c b n v r :
  represents s p d c -> (b, n) ∈ ca_held c -> bio_ok s' p d (ca_held c).*1 ->
  (forall hs, (b ∉ hs) -> keeps s s' hs) -> (exists bf, ks_bufs s' !! b = Some bf /\ b_blockno bf = n) ->
  cstep s s' d n v r -> ks_dwrites s' = ks_dwrites s ->
  represents s' p d (c_refs n r (c_set n v c)).
Proof.
  intros Hr Hin Hok' Hk Hb' Cs Dw. split; cbn.
  - done.
  - intros b' n' Hin'. destruct (decide (b' = b)) as [->|Hne].
    + destruct (rp_held _ _ _ _ Hr _ _ Hin) as (bf & Hb & Hn).
      destruct (rp_held _ _ _ _ Hr _ _ Hin') as (bf' & Hb2 & Hn'). simplify_eq. done.
    + apply (keeps_held s s' p d c [(b', n')]); [done| |set_solver|set_solver].
      apply Hk. cbn. set_solver.
  - intros m. rewrite (cs_cval _ _ _ _ _ _ Cs). unfold fset. by rewrite (rp_val _ _ _ _ Hr).
  - intros m. rewrite (cs_refs _ _ _ _ _ _ Cs). unfold fset. by rewrite (rp_refs _ _ _ _ Hr).
  - by rewrite (cs_nbusy _ _ _ _ _ _ Cs), (rp_refs _ _ _ _ Hr), (rp_busy _ _ _ _ Hr).
  - rewrite (cs_disk _ _ _ _ _ _ Cs). apply (rp_disk _ _ _ _ Hr).
  - rewrite Dw. apply (rp_writes _ _ _ _ Hr).
Qed.

Lemma c_eta_busy s p d c c' :
  ca_held c' = ca_held c -> (forall m, ca_val c' m = ca_val c m) ->
  (forall m, ca_refs c' m = ca_refs c m) -> ca_busy c' = ca_busy c -> ca_disk c' = ca_disk c ->
  ca_writes c' = ca_writes c -> represents s p d c -> represents s p d c'.
Proof.
  intros Hh Hv Hrf Hb Hd Hw []. split; rewrite ?Hh, ?Hb, ?Hd, ?Hw; try done.
  - intros m. by rewrite Hv.
  - intros m. by rewrite Hrf.
Qed.

(** Two abstract caches with the same observations. *)
Definition ceq (c c' : cache) : Prop :=
  ca_held c' = ca_held c /\ (forall m, ca_val c' m = ca_val c m) /\
  (forall m, ca_refs c' m = ca_refs c m) /\ ca_busy c' = ca_busy c /\ ca_disk c' = ca_disk c /\
  ca_writes c' = ca_writes c.
#[global] Instance ceq_equivalence : Equivalence ceq.
Proof.
  split.
  - by intros c.
  - intros c c' (? & ? & ? & ? & ? & ?). by split_and!.
  - intros c1 c2 c3 (? & Hv & Hrf & ? & ? & ?) (? & Hv' & Hrf' & ? & ? & ?).
    split_and!; try congruence; intros m; by rewrite ?Hv', ?Hrf'.
Qed.
#[global] Instance represents_proper s p d : Proper (ceq ==> iff) (represents s p d).
Proof.
  intros c c' (? & ? & ? & ? & ? & ?). split; by apply c_eta_busy.
Qed.

Lemma set_data_refines s p d c b n g :
  represents s p d c -> (b, n) ∈ ca_held c -> length (g (ca_val c n)) = Z.to_nat BSIZE ->
  exists s', set_buf b (fun x => x <| b_data ::= g |>) s = Done tt s' /\ bio_frame s s' /\
    represents s' p d (c_set n (g (ca_val c n)) c).
Proof.
  intros Hr Hin Hlen. destruct (held_buf _ _ _ _ _ _ Hr Hin) as (bf & Hb & Hin' & Hn & Hv & Hrf & _).
  destruct (bdata_ok s p d _ n b bf (g (ca_val c n)) (rp_ok _ _ _ _ Hr) Hin' Hb Hn Hlen)
    as (s' & E & Hok' & Hb' & Cs & Dw & Hk).
  exists s'. split_and!; [|apply (cs_frame _ _ _ _ _ _ Cs)|].
  - rewrite <- E, !(set_buf_ok _ _ _ _ Hb). apply f_equal. kstate_eq.
    apply list_alter_ext; [|done]. intros x Hx. simplify_eq. by rewrite <- Hv.
  - rewrite (rp_refs _ _ _ _ Hr) in Cs.
    eapply represents_proper; [|eapply represents_step; [exact Hr|exact Hin|done|done|eauto|exact Cs|done]].
    split_and!; cbn; try done; [|lia]. intros m. unfold fset. by case_decide; subst.
Qed.

Lemma bref_refines s p d c b n g :
  represents s p d c -> (b, n) ∈ ca_held c -> 0 < g (ca_refs c n) < 2 ^ 32 ->
  exists s', (acquire L_bcache ;; set_buf b (fun x => x <| b_refcnt ::= g |>) ;;
              release L_bcache) s = Done tt s' /\ bio_frame s s' /\
    represents s' p d (c_refs n (g (ca_refs c n)) c).
Proof.
  intros Hr Hin Hg. destruct (held_buf _ _ _ _ _ _ Hr Hin) as (bf & Hb & Hin' & Hn & Hv & Hrf & _).
  rewrite <- Hrf in Hg.
  destruct (bref_ok s p d _ b bf g (rp_ok _ _ _ _ Hr) Hin' Hb Hg) as (s' & E & Hok' & Hb' & Cs & Dw & Hk).
  exists s'. split_and!; [done|apply (cs_frame _ _ _ _ _ _ Cs)|].
  rewrite Hn, (rp_val _ _ _ _ Hr), Hrf in Cs.
  eapply represents_proper; [|eapply represents_step; [exact Hr|exact Hin|done|done|eauto|exact Cs|done]].
  split_and!; cbn; try done. intros m. unfold fset. by case_decide; subst.
Qed.

Lemma bpin_refines s p d c b n :
  represents s p d c -> (b, n) ∈ ca_held c -> 0 <= ca_refs c n < 2 ^ 32 - 1 ->
  exists s', bpin b s = Done tt s' /\ bio_frame s s' /\
    represents s' p d (c_refs n (ca_refs c n + 1) c).
Proof.
  intros Hr Hin Hlim. pose proof (bref_refines s p d c b n (fun r => u32 (r + 1)) Hr Hin) as Hp.
  cbv beta in Hp. rewrite u32_small in Hp by lia. apply Hp. lia.
Qed.
Lemma bunpin_refines s p d c b n :
  represents s p d c -> (b, n) ∈ ca_held c -> 1 < ca_refs c n < 2 ^ 32 ->
  exists s', bunpin b s = Done tt s' /\ bio_frame s s' /\
    represents s' p d (c_refs n (ca_refs c n - 1) c).
Proof.
  intros Hr Hin Hlim. pose proof (bref_refines s p d c b n (fun r => u32 (r - 1)) Hr Hin) as Hp.
  cbv beta in Hp. rewrite u32_small in Hp by lia. apply Hp. lia.
Qed.

Lemma bwrite_refines s p d c b n :
  represents s p d c -> (b, n) ∈ ca_held c ->
  exists s', bwrite b s = Done tt s' /\ bio_frame s s' /\ represents s' p d (c_flush n c).
Proof.
  intros Hr Hin. destruct (held_buf _ _ _ _ _ _ Hr Hin) as (bf & Hb & Hin' & Hn & Hv & Hrf & _).
  destruct (bwrite_ok s p d _ b bf (rp_ok _ _ _ _ Hr) Hin' Hb) as (E & Hok' & Hcv & Hrs).
  rewrite Hn, Hv in *. eexists. split_and!; [exact E|unfold bio_frame; kstate_eq|].
  destruct Hr as [_ Hh Hval Hrefs Hbusy Hd Hw]. split; cbn; try done.
  - intros m. by rewrite Hcv.
  - by rewrite Hd.
  - by rewrite Hw.
Qed.

Lemma brelse_refines s p d c b n hs :
  represents s p d c -> ca_held c ≡ₚ (b, n) :: hs ->
  (ca_refs c n = 1 -> ca_val c n = disk_at (ca_disk c) n) ->
  exists s', brelse b s = Done tt s' /\ bio_frame s s' /\ represents s' p d (c_drop n hs c).
Proof.
  intros Hr Hp Hclean. assert ((b, n) ∈ ca_held c) as Hin by (rewrite Hp; by left).
  destruct (held_buf _ _ _ _ _ _ Hr Hin) as (bf & Hb & Hin' & Hn & Hv & Hrf & _).
  destruct (brelse_ok s p d hs.*1 b bf) as (s' & E & Hok' & Cs & Dw & Hk).
  - eapply bio_ok_perm, (rp_ok _ _ _ _ Hr). by rewrite Hp.
  - done.
  - rewrite Hn, Hv, Hrf. unfold dblock, disk_at in *. rewrite (rp_disk _ _ _ _ Hr). done.
  - exists s'. split_and!; [done|apply (cs_frame _ _ _ _ _ _ Cs)|].
    rewrite Hn, (rp_val _ _ _ _ Hr), Hrf in Cs. split; cbn.
    + done.
    + apply (keeps_held s s' p d c hs); [done|done|]. intros x Hx. rewrite Hp. by right.
    + intros m. rewrite (cs_cval _ _ _ _ _ _ Cs). case_decide; subst; [done|apply (rp_val _ _ _ _ Hr)].
    + intros m. rewrite (cs_refs _ _ _ _ _ _ Cs). unfold fset. by rewrite (rp_refs _ _ _ _ Hr).
    + by rewrite (cs_nbusy _ _ _ _ _ _ Cs), (rp_refs _ _ _ _ Hr), (rp_busy _ _ _ _ Hr).
    + rewrite (cs_disk _ _ _ _ _ _ Cs). apply (rp_disk _ _ _ _ Hr).
    + rewrite Dw. apply (rp_writes _ _ _ _ Hr).
Qed.

(** ** binit *)

Definition init_slock (b : nat) (s : kstate) : kstate :=
  s <| ks_locks ::= <[L_sleep (SL_buf b) := mk_spinlock 0 "sleep lock" None]> |>
    <| ks_slocks ::= <[SL_buf b := mk_sleeplock 0 "buffer" 0]> |>.

Lemma initsleeplock_ok b s : initsleeplock (SL_buf b) "buffer" s = Done tt (init_slock b s).
Proof. reflexivity. Qed.
Lemma link_next_init b v x s : link_next b v (init_slock x s) = init_slock x (link_next b v s).
Proof. unfold link_next. by case_match. Qed.
Lemma link_prev_init b v x s : link_prev b v (init_slock x s) = init_slock x (link_prev b v s).
Proof. unfold link_prev. by case_match. Qed.

Definition binit_body (b : nat) : K unit :=
  let! hn := get_next HEAD in
  set_next b hn ;;
  set_prev b HEAD ;;
  initsleeplock (SL_buf b) "buffer" ;;
  let! hn := get_next HEAD in
  set_prev hn b ;;
  set_next HEAD b.

(** The half-built ring: the buffers [l] are linked. *)
Record linked (s : kstate) (l : list nat) : Prop := mk_linked {
  ln_len : length (ks_bufs s) = NBUF;
  ln_next : path (nxt s) HEAD l HEAD;
  ln_prev : path (prv s) HEAD (reverse l) HEAD;
  ln_lt : Forall (fun b => (b < NBUF)%nat) l
}.

Lemma length_pushed_front b s : length (ks_bufs (pushed_front b s)) = length (ks_bufs s).
Proof.
  unfold pushed_front. by rewrite length_bufs_link_next, !length_bufs_link_prev, length_bufs_link_next.
Qed.

Lemma binit_body_ok s l b :
  linked s l -> NoDup l -> (b < NBUF)%nat -> (b ∉ l) ->
  binit_body b s = Done tt (init_slock b (pushed_front b s)) /\
  linked (init_slock b (pushed_front b s)) (b :: l).
Proof.
  intros [Hlen Hn Hp Hlt] Hnd Hb Hbl. assert (HEAD <> b) as Hne by (unfold HEAD; lia).
  assert (valid_link s (nxt s HEAD)) as Vh.
  { destruct (path_step_in _ _ _ _ HEAD Hn (or_introl eq_refl)) as [->|Hin]; [by left|right].
    rewrite Hlen. rewrite Forall_forall in Hlt. auto. }
  assert (valid_link s b) as Vb by (right; lia).
  split.
  - unfold binit_body. kstep get_next_ok; [|by left]. kstep set_next_ok; [|done].
    set (h := nxt s HEAD) in *. set (s1 := link_next b h s).
    assert (length (ks_bufs s1) = length (ks_bufs s)) as Hl1 by apply length_bufs_link_next.
    kstep set_prev_ok; [|by eapply valid_link_len].
    kstep initsleeplock_ok. kstep get_next_ok; [|by left].
    set (s2 := link_prev b HEAD s1).
    assert (nxt (init_slock b s2) HEAD = h) as ->.
    { change (nxt s2 HEAD = h). unfold s2, s1. rewrite nxt_link_prev, nxt_link_next by done.
      by apply fupd_ne. }
    kstep set_prev_ok.
    2: { eapply valid_link_len; [|exact Vh]. unfold s2. cbn. by rewrite length_bufs_link_prev. }
    rewrite set_next_ok by (by left). by rewrite link_prev_init, link_next_init.
  - destruct (pushed_front_paths s l b) as [Hn' Hp']; try done.
    + constructor; [|by constructor]. intros [Eh|Hin]%elem_of_cons; [done|].
      rewrite Forall_forall in Hlt. apply Hlt in Hin. unfold HEAD in Hin. lia.
    + intros x [->|Hin]%elem_of_cons; [done|]. rewrite Forall_forall in Hlt. auto.
    + split; [|done|done|by constructor].
      change (length (ks_bufs (pushed_front b s)) = NBUF). by rewrite length_pushed_front.
Qed.

(** The states binit passes through: buffers [l] of the table still to link. *)
Definition binit_run (s : kstate) (l : list nat) : kstate :=
  foldl (fun s b => init_slock b (pushed_front b s)) s l.

Lemma binit_loop_ok n i s :
  linked s (reverse (seq 0 i)) -> (i + n <= NBUF)%nat ->
  for_each (seq i n) binit_body s = Done tt (binit_run s (seq i n)) /\
  linked (binit_run s (seq i n)) (reverse (seq 0 (i + n))).
Proof.
  revert i s. induction n as [|n IH]; intros i s Hl Hle.
  - by rewrite Nat.add_0_r.
  - cbn [seq for_each]. destruct (binit_body_ok s (reverse (seq 0 i)) i) as [E Hl'].
    + done.
    + rewrite reverse_Permutation. apply NoDup_seq.
    + lia.
    + rewrite elem_of_reverse, elem_of_seq. lia.
    + kstep E. replace (i + S n)%nat with (S i + n)%nat by lia. apply IH; [|lia].
      rewrite seq_S, reverse_snoc. done.
Qed.

Definition ring_reset (s : kstate) : kstate :=
  s <| ks_locks ::= <[L_bcache := mk_spinlock 0 "bcache" None]> |>
    <| ks_bhead_prev := HEAD |> <| ks_bhead_next := HEAD |>.
Definition binited (s : kstate) : kstate := binit_run (ring_reset s) (seq 0 NBUF).

Lemma binit_ok s :
  length (ks_bufs s) = NBUF ->
  binit s = Done tt (binited s) /\ ring (binited s) (reverse (seq 0 NBUF)).
Proof.
  intros Hlen. destruct (binit_loop_ok NBUF 0 (ring_reset s)) as [E [_ Hn Hp _]].
  - by split.
  - done.
  - split; [exact E|]. split; [exact Hn|exact Hp|apply reverse_Permutation].
Qed.

(** binit keeps the buffers' contents and initialises every sleep lock. *)
Definition binit_frame (s s' : kstate) : Prop :=
  s' = s <| ks_bufs := ks_bufs s' |> <| ks_bhead_prev := ks_bhead_prev s' |>
         <| ks_bhead_next := ks_bhead_next s' |> <| ks_slocks := ks_slocks s' |>
         <| ks_locks := ks_locks s' |>.
#[local] Instance binit_frame_preorder : PreOrder binit_frame.
Proof.
  split; [intros s; unfold binit_frame; kstate_eq|].
  intros s1 s2 s3 H12 H23. unfold binit_frame in *. rewrite H23, H12. kstate_eq.
Qed.

Lemma binit_step_frame b s : ring_frame s (pushed_front b s).
Proof.
  unfold pushed_front. repeat first [reflexivity | etransitivity; [|apply ring_frame_next]
               | etransitivity; [|apply ring_frame_prev]].
Qed.
Lemma cores_pushed_front b s : cores (pushed_front b s) = cores s.
Proof. unfold pushed_front. by rewrite cores_link_next, !cores_link_prev, cores_link_next. Qed.

Lemma binit_run_inv l s :
  cores (binit_run s l) = cores s /\ binit_frame s (binit_run s l) /\
  (forall lk, lock_free lk s -> lock_free lk (binit_run s l)) /\
  (forall b, b ∈ l \/ ks_slocks s !! SL_buf b = Some (mk_sleeplock 0 "buffer" 0) ->
     ks_slocks (binit_run s l) !! SL_buf b = Some (mk_sleeplock 0 "buffer" 0)).
Proof.
  revert s. induction l as [|b l IH]; intros s.
  - split_and!; [done|reflexivity|done|]. intros b [[]%elem_of_nil|Hb]. done.
  - change (binit_run s (b :: l)) with (binit_run (init_slock b (pushed_front b s)) l).
    set (s1 := init_slock b (pushed_front b s)). destruct (IH s1) as (Hc & Hf & Hl & Hs).
    pose proof (binit_step_frame b s) as Hrf.
    split_and!.
    + rewrite Hc. change (cores s1) with (cores (pushed_front b s)). apply cores_pushed_front.
    + etransitivity; [|exact Hf]. unfold binit_frame, s1, init_slock. rewrite Hrf. kstate_eq.
    + intros lk Hlk. apply Hl. unfold lock_free.
      change (ks_locks s1) with (<[L_sleep (SL_buf b) := mk_spinlock 0 "sleep lock" None]>
        (ks_locks (pushed_front b s))).
      rewrite lookup_insert, Hrf. case_decide; [done|exact Hlk].
    + intros x Hx. apply Hs. destruct (decide (x = b)) as [->|Hne].
      * right. apply lookup_insert_eq.
      * destruct Hx as [[->|Hx]%elem_of_cons|Hx]; [done|by left|right].
        change (ks_slocks s1) with (<[SL_buf b := mk_sleeplock 0 "buffer" 0]>
          (ks_slocks (pushed_front b s))).
        rewrite lookup_insert_ne by congruence. by rewrite Hrf.
Qed.

(** A buffer that has never been used. *)
Definition unused (bf : buf) : Prop :=
  length (b_data bf) = Z.to_nat BSIZE /\ b_disk bf = 0 /\ b_refcnt bf = 0 /\ b_dev bf = 0.

Lemma binited_unused s b bf :
  Forall unused (ks_bufs s) -> ks_bufs (binited s) !! b = Some bf -> unused bf.
Proof.
  intros Hbufs Hb. destruct (binit_run_inv (seq 0 NBUF) (ring_reset s)) as (Hc & _ & _ & _).
  fold (binited s) in Hc.
  assert (cores (binited s) !! b = Some (core bf)) as Hcb by (unfold cores; by rewrite list_lookup_fmap, Hb).
  rewrite Hc in Hcb. unfold cores in Hcb. rewrite list_lookup_fmap in Hcb.
  apply fmap_Some in Hcb as (x & Hx & Ex). core_facts. rewrite Forall_forall in Hbufs.
  destruct (Hbufs x) as (? & ? & ? & ?); [by eapply list_elem_of_lookup_2|].
  repeat split; congruence.
Qed.

(** The cache after binit on a machine whose buffers are unused. *)
Lemma binit_bio_ok s p d :
  quiet s p -> d <> 0 -> length (ks_bufs s) = NBUF -> Forall unused (ks_bufs s) ->
  (forall n, length (dblock s n) = Z.to_nat BSIZE) ->
  bio_ok (binited s) p d [].
Proof.
  intros Hq Hd Hlen Hbufs Hdisk. destruct (binit_ok s Hlen) as [_ Hr].
  destruct (binit_run_inv (seq 0 NBUF) (ring_reset s)) as (Hc & Hf & Hl & Hs).
  pose proof (fun b bf => binited_unused s b bf Hbufs) as Hb.
  fold (binited s) in *. set (s' := binited s) in *. clearbody s'.
  assert (ks_disk s' = ks_disk s) as Hdk by (rewrite Hf; done).
  split.
  - destruct Hq as [Hq1 Hq2 Hq3 Hq4 Hq5 Hq6]. split.
    + unfold hart_ok. by rewrite Hf.
    + unfold cur. by rewrite Hf.
    + by rewrite Hf.
    + by rewrite Hf.
    + intros lk Hlk. apply Hl. unfold lock_free. cbn. rewrite lookup_insert.
      case_decide; [done|]. by apply Hq5.
    + intros sl. unfold no_sleepers. rewrite Hf. apply Hq6.
  - done.
  - apply (f_equal length) in Hc. unfold cores in Hc. rewrite !length_fmap in Hc. by rewrite Hc.
  - by eexists.
  - intros b bf (? & ? & ? & ?)%Hb. split_and!; [done|done|lia|lia|congruence].
  - intros b b' bf bf' (_ & _ & _ & Hx)%Hb _ Hy. congruence.
  - intros b Hlt. exists (mk_sleeplock 0 "buffer" 0). split; [|done].
    apply Hs. left. apply elem_of_seq. lia.
  - by intros ? ? []%elem_of_nil.
  - intros b bf (_ & _ & _ & Hx)%Hb Hy. congruence.
  - intros n. rewrite (dblock_disk s) by done. apply Hdisk.
  - by intros ? []%elem_of_nil.
  - constructor.
Qed.

(** ** Properties *)

(** C11: bread(dev, n) implements the abstract cache: it returns the
    buffer of block [n], locked, whose data is the block's current contents
    (the cached ones, else those on the device), takes one reference, and no
    other block, reference, buffer held or device block changes. *)
Theorem bread_correct s p d c n :
  represents s p d c -> (n ∉ (ca_held c).*2) -> ca_refs c n < 2 ^ 32 - 1 ->
  (ca_refs c n = 0 -> ca_busy c < Z.of_nat NBUF) ->
  exists b bf s', bread d n s = Done b s' /\ represents s' p d (c_hold b n c) /\
    ks_bufs s' !! b = Some bf /\ b_dev bf = d /\ b_blockno bf = n /\ b_data bf = cval s d n /\
    buf_locked s' p b.
Proof.
  intros Hr Hn Hlim Hfree. destruct (bread_refines s p d c n Hr Hn Hlim Hfree) as (b & s' & E & _ & _ & R).
  assert ((b, n) ∈ ca_held (c_hold b n c)) as Hin by by left.
  destruct (held_buf _ _ _ _ _ _ R Hin) as (bf & Hb & Hin' & Hbn & Hv & _ & Hd).
  exists b, bf, s'. split_and!; try done; [by rewrite Hv, (rp_val _ _ _ _ Hr)|].
  pose proof (rp_ok _ _ _ _ R) as Hok. pose proof (bo_held_valid _ _ _ _ Hok _ Hin') as Hlt.
  destruct (bo_lock _ _ _ _ Hok b Hlt) as (l & Hl & Hl'). rewrite decide_True in Hl' by done. by exists l.
Qed.

(** a block that is not cached gets the least recently used idle
    buffer: every buffer after it in the ring, up to the oldest, is in use.
    With every buffer in use bget panics. *)
Theorem bget_least_recent s p d held n l :
  bio_ok s p d held -> ring s l -> bidx s d n = None ->
  if decide (nbusy s < NBUF)%nat then
    exists l1 b l2 bf, l = l1 ++ b :: l2 /\ ks_bufs s !! b = Some bf /\ b_refcnt bf = 0 /\
      (forall x y, x ∈ l2 -> ks_bufs s !! x = Some y -> b_refcnt y <> 0) /\
      bget d n s = Done b (recycled b p d n s)
  else bget d n s = Panic "bget: no buffers".
Proof.
  intros Hok Hr E. case_decide as Hfree.
  { destruct (bget_recycles s p d held n l Hok Hr E Hfree) as (l1 & b & l2 & bf & ? & ? & ? & _ & ? & ?).
    by exists l1, b, l2, bf. }
  rewrite (bget_uncached _ _ _ _ _ _ Hok Hr E).
  destruct (ring_facts _ _ _ _ _ Hok Hr) as (Hh & Hll & Hel & Hbuf).
  kstep (scan_none _ (prv s) HEAD (reverse l)); [done|apply (ring_prev _ _ Hr)| | | |done].
  - rewrite length_reverse. lia.
  - by rewrite elem_of_reverse.
  - intros b Hb. rewrite elem_of_reverse in Hb. destruct (Hbuf b Hb) as (bf & Hb' & Hne).
    apply (bget_recycle_busy _ _ _ bf); [done|done|]. intros Hz. apply Hfree.
    pose proof (bo_len _ _ _ _ Hok) as Hlen. rewrite <- Hlen. unfold nbusy.
    assert (length (filter in_use (alter (fun x : buf => x <| b_refcnt := 1%Z |>) b (ks_bufs s)))
      <= length (ks_bufs s))%nat as Hle.
    { etransitivity; [apply length_filter|]. by rewrite length_alter. }
    pose proof (filter_alter in_use (fun x : buf => x <| b_refcnt := 1 |>) _ _ _ Hb') as Hf.
    rewrite decide_False, decide_True in Hf by (unfold in_use; cbn; lia). lia.
Qed.

(** brelse(b) implements the abstract cache: it drops the lock
    and one reference of the buffer and nothing else, and when that was the
    last reference moves the buffer to the front of the ring, the most
    recently used position, keeping the order of the others. *)
Theorem brelse_correct s p d c b n hs l1 l2 :
  represents s p d c -> ca_held c ≡ₚ (b, n) :: hs -> ring s (l1 ++ b :: l2) ->
  (ca_refs c n = 1 -> ca_val c n = disk_at (ca_disk c) n) ->
  exists s', brelse b s = Done tt s' /\ represents s' p d (c_drop n hs c) /\
    ring s' (if decide (ca_refs c n = 1) then b :: l1 ++ l2 else l1 ++ b :: l2).
Proof.
  intros Hr Hp Hring Hclean. destruct (brelse_refines s p d c b n hs Hr Hp Hclean) as (s' & E & _ & R).
  exists s'. split_and!; [done|done|]. assert ((b, n) ∈ ca_held c) as Hin by (rewrite Hp; by left).
  destruct (held_buf _ _ _ _ _ _ Hr Hin) as (bf & Hb & Hin' & _ & _ & Hrf & _).
  rewrite (brelse_eq s p d _ b bf (rp_ok _ _ _ _ Hr) Hin' Hb) in E. injection E as <-.
  unfold brelsed. rewrite Hrf. apply (ring_released b) in Hring.
  destruct (Z.eqb_spec (ca_refs c n) 1); [rewrite decide_True|rewrite decide_False]; try done.
  apply ring_mru; [|done]. cbn. rewrite length_alter. apply (bo_len _ _ _ _ (rp_ok _ _ _ _ Hr)).
Qed.

(** binit() links all the buffers into the ring and initialises
    their locks: on a machine whose buffers are unused the cache is then in
    the invariant, with no buffer held. *)
Theorem binit_correct s p d :
  quiet s p -> d <> 0 -> length (ks_bufs s) = NBUF ->
  Forall unused (ks_bufs s) -> (forall n, length (dblock s n) = Z.to_nat BSIZE) ->
  exists s', binit s = Done tt s' /\ bio_ok s' p d [] /\ ring s' (reverse (seq 0 NBUF)).
Proof.
  intros Hq Hd Hlen Hbufs Hdisk. destruct (binit_ok s Hlen) as [E Hr].
  exists (binited s). split_and!; [done|by apply binit_bio_ok|done].
Qed.
End Specs.
