(* ===== verification/Machine.v ===== *)
(** * A concrete machine.

    A booted machine on which the hypotheses of the theorems about the
    scheduler, the buffer cache and the log hold: hart 0 runs process 0 with
    interrupts on, every lock is initialised and free, the other processes are
    unused.  The block device transfers at once. *)

From S2P Require Import Prelude Defs KMonad Lock Sched Sleeplock Bio.

Definition all_locks : list lockid :=
  [L_kmem; L_pid; L_wait; L_bcache; L_log; L_itable; L_ftable; L_cons; L_uart_tx; L_pr;
   L_ticks; L_vdisk] ++ (L_proc <$> seq 0 NPROC) ++
  ((fun b => L_sleep (SL_buf b)) <$> seq 0 NBUF) ++ ((fun i => L_sleep (SL_inode i)) <$> seq 0 NINODE).

Definition free_lock : spinlock := mk_spinlock 0 "lock" None.

Definition machine : kstate :=
  zero_state
    <| ks_sie := true |>
    <| ks_locks := gset_to_gmap free_lock (list_to_set all_locks) |>
    <| ks_cpus ::= <[0%nat := mk_cpu (Some 0%nat) 0 1]> |>
    <| ks_proc ::= alter (fun x => x <| p_state := RUNNING |> <| p_pid := 1 |>) 0%nat |>.

Lemma machine_lock lk : static_lock lk = true -> ks_locks machine !! lk = Some free_lock.
Proof.
  intros Hl. cbn [machine ks_locks upd set_ks_locks set_ks_cpus set_ks_proc].
  rewrite lookup_gset_to_gmap_Some. split; [|done]. apply elem_of_list_to_set.
  unfold all_locks. rewrite !elem_of_app, !list_elem_of_fmap.
  destruct lk as [| | |p| |[b|i]| | | |pi| | | | |]; cbn [static_lock] in Hl; try done;
    try (left; repeat first [apply list_elem_of_here | apply list_elem_of_further]; done);
    right; rewrite Nat.ltb_lt in Hl.
  - left. exists p. split; [done|]. apply elem_of_seq. lia.
  - right. left. exists b. split; [done|]. apply elem_of_seq. lia.
  - right. right. exists i. split; [done|]. apply elem_of_seq. lia.
Qed.

Lemma machine_lock_free lk : static_lock lk = true -> lock_free lk machine.
Proof. intros Hl. unfold lock_free. by rewrite machine_lock. Qed.

Lemma machine_proc p pr :
  ks_proc machine !! p = Some pr -> p_state pr <> SLEEPING.
Proof.
  intros Hp. cbn [machine ks_proc upd set_ks_proc] in Hp. rewrite list_lookup_alter in Hp.
  change (ks_proc _) with (replicate NPROC zero_proc) in Hp. rewrite lookup_replicate in Hp || idtac.
  case_decide.
  - apply fmap_Some in Hp as (x & _ & ->). done.
  - by apply lookup_replicate in Hp as [-> _].
Qed.

Lemma machine_quiet : quiet machine 0.
Proof.
  split.
  - by vm_compute.
  - done.
  - by eexists.
  - done.
  - apply machine_lock_free.
  - intros sl p pr Hp Hst. by apply machine_proc in Hp.
Qed.

(** The machine with the buffer cache initialised and the disk [D]. *)
Definition machine_with (D : gmap Z (list Z)) : kstate := binited (machine <| ks_disk := D |>).

#[global] Instance fuel_one : Fuel := { fuel := 1; fuel_pos := Nat.lt_0_1 }.

(** A device that transfers a block when it is asked to. *)
Definition instant_rw (b : nat) (write : bool) : K unit :=
  let! bf := buf_of b in
  if write then modify (disk_put (b_blockno bf) (b_data bf))
  else let! data := get (fun s => dblock s (b_blockno bf)) in
       set_buf b (fun x => x <| b_data := data |>).

#[global] Program Instance instant_disk : BlockDevice := { disk_rw := instant_rw }.
Next Obligation.
  intros s p b bf _ _ Hb _. unfold instant_rw. by kstep buf_of_ok.
Qed.
Next Obligation.
  intros s p b bf _ _ Hb _. unfold instant_rw. kstep buf_of_ok; [|done]. cbv iota. rewrite kbind_get.
  by erewrite set_buf_ok.
Qed.

Lemma quiet_disk s p D : quiet s p -> quiet (s <| ks_disk := D |>) p.
Proof. by apply quiet_same. Qed.

Lemma machine_bio_ok D :
  (forall n, length (disk_at D n) = Z.to_nat BSIZE) -> bio_ok (machine_with D) 0 ROOTDEV [].
Proof.
  intros HD. apply binit_bio_ok.
  - apply quiet_disk, machine_quiet.
  - done.
  - done.
  - apply Forall_replicate. done.
  - exact HD.
Qed.

Lemma machine_unused D b bf : ks_bufs (machine_with D) !! b = Some bf -> unused bf.
Proof. apply binited_unused. by apply Forall_replicate. Qed.

Lemma machine_refs D n : refs (machine_with D) ROOTDEV n = 0 /\ nbusy (machine_with D) = 0%nat.
Proof.
  pose proof (machine_unused D) as Hu. split.
  - unfold refs. destruct (bidx _ _ n) as [[b bf]|] eqn:E; [|done].
    unfold bidx in E. apply list_find_Some in E as (Hb & _ & _). by apply Hu in Hb as (_ & _ & ? & _).
  - unfold nbusy. destruct (filter in_use (ks_bufs (machine_with D))) as [|bf l] eqn:E; [done|].
    assert (bf ∈ filter in_use (ks_bufs (machine_with D))) as Hin by (rewrite E; by left).
    apply list_elem_of_filter in Hin as [Hi Hin]. apply list_elem_of_lookup in Hin as [i Hin].
    by apply Hu in Hin as (_ & _ & ? & _).
Qed.

Lemma binited_disk s : ks_disk (binited s) = ks_disk s.
Proof.
  destruct (binit_run_inv (seq 0 NBUF) (ring_reset s)) as (_ & Hf & _). fold (binited s) in Hf.
  rewrite Hf. reflexivity.
Qed.
Lemma machine_disk D : ks_disk (machine_with D) = D.
Proof. exact (binited_disk (machine <| ks_disk := D |>)). Qed.

Definition machine_cache (D : gmap Z (list Z)) : cache := abs_cache (machine_with D) ROOTDEV.

Lemma empty_disk_blocks n : length (disk_at ∅ n) = Z.to_nat BSIZE.
Proof. unfold disk_at. by rewrite lookup_empty. Qed.
Lemma machine_represents : represents (machine_with ∅) 0 ROOTDEV (machine_cache ∅).
Proof. apply represents_abs, machine_bio_ok, empty_disk_blocks. Qed.

(** ** The theorems at this machine *)

Lemma machine_on_cpu : exists pr, on_cpu machine 0 (mk_cpu (Some 0%nat) 0 1) pr.
Proof.
  eexists. split; [apply machine_quiet|done|done|done|reflexivity|by apply machine_lock_free].
Defined.

Lemma sleep_protocol_witness :
  exists k pr, ks_proc machine !! 0%nat = Some pr /\
    sleep Ch_ticks L_ticks (acq L_ticks machine)
    = Yield (Swtch 0) (acq (L_proc 0) (machine <| ks_proc ::= alter (fun x =>
        x <| p_chan := Some Ch_ticks |> <| p_state := SLEEPING |>) 0%nat |>)) k.
Proof.
  destruct machine_on_cpu as [pr Hon].
  destruct (sleep_protocol machine 0 _ pr Ch_ticks L_ticks Hon (machine_lock_free L_ticks eq_refl))
    as (k & Hk & _); [discriminate|].
  exists k, pr. split; [apply (oc_entry _ _ _ _ Hon)|exact Hk].
Defined.

(** Process 1 sleeps on the clock and process 0 wakes it. *)
Definition dozing : kstate :=
  machine <| ks_proc ::= alter (fun x => x <| p_state := SLEEPING |> <| p_chan := Some Ch_ticks |>) 1%nat |>.

Lemma same_hart_proc s f : same_hart s (s <| ks_proc ::= f |>).
Proof. by split. Qed.

Lemma wakeup_correct_witness :
  runs (wakeup Ch_ticks) dozing (fun _ s' =>
    exists pr, ks_proc s' !! 1%nat = Some pr /\ p_state pr = RUNNABLE).
Proof.
  eapply runs_conseq.
  - apply (wakeup_correct Ch_ticks dozing).
    + eapply hart_ok_same; [apply same_hart_proc|apply machine_quiet].
    + intros p Hp _. eapply lock_free_same; [apply same_hart_proc|].
      apply machine_lock_free. by apply Nat.ltb_lt.
    + reflexivity.
  - intros _ s' [_ Hp]. eexists. split; [apply (Hp 1%nat); reflexivity|reflexivity].
Defined.

Lemma bread_correct_witness :
  exists b bf s', bread ROOTDEV 5 (machine_with ∅) = Done b s' /\ ks_bufs s' !! b = Some bf /\
    b_blockno bf = 5.
Proof.
  destruct (machine_refs ∅ 5) as [Hr Hb].
  destruct (bread_correct (machine_with ∅) 0 ROOTDEV (machine_cache ∅) 5 machine_represents)
    as (b & bf & s' & E & _ & Hbf & _ & Hn & _).
  - apply not_elem_of_nil.
  - change (ca_refs (machine_cache ∅) 5) with (refs (machine_with ∅) ROOTDEV 5). rewrite Hr. done.
  - intros _. change (ca_busy (machine_cache ∅)) with (Z.of_nat (nbusy (machine_with ∅))).
    rewrite Hb. done.
  - exists b, bf, s'. split; [exact E|]. split; [exact Hbf|exact Hn].
Defined.

Lemma bget_least_recent_witness :
  exists l1 b l2, reverse (seq 0 NBUF) = l1 ++ b :: l2 /\
    bget ROOTDEV 5 (machine_with ∅) = Done b (recycled b 0 ROOTDEV 5 (machine_with ∅)).
Proof.
  destruct (machine_refs ∅ 5) as [_ Hb].
  assert (bidx (machine_with ∅) ROOTDEV 5 = None) as Hi.
  { apply bidx_none. intros b bf (_ & _ & _ & Hd)%machine_unused [Hd' _]. rewrite Hd in Hd'. discriminate. }
  pose proof (bget_least_recent (machine_with ∅) 0 ROOTDEV [] 5 (reverse (seq 0 NBUF))
    (machine_bio_ok ∅ empty_disk_blocks) (proj2 (binit_ok (machine <| ks_disk := ∅ |>) eq_refl)) Hi) as Hw.
  rewrite decide_True in Hw by (rewrite Hb; unfold NBUF; lia).
  destruct Hw as (l1 & b & l2 & bf & Hl & _ & _ & _ & E). exists l1, b, l2. split; [exact Hl|exact E].
Defined.

Lemma brelse_correct_witness :
  exists s b s', bread ROOTDEV 5 (machine_with ∅) = Done b s /\ brelse b s = Done tt s' /\
    exists l, ring s' (b :: l).
Proof.
  destruct (machine_refs ∅ 5) as [Hr Hb].
  destruct (bread_refines (machine_with ∅) 0 ROOTDEV (machine_cache ∅) 5 machine_represents)
    as (b & s & E & _ & _ & R).
  - apply not_elem_of_nil.
  - change (ca_refs (machine_cache ∅) 5) with (refs (machine_with ∅) ROOTDEV 5). rewrite Hr. done.
  - intros _. change (ca_busy (machine_cache ∅)) with (Z.of_nat (nbusy (machine_with ∅))).
    rewrite Hb. done.
  - destruct (bo_ring _ _ _ _ (rp_ok _ _ _ _ R)) as [l Hring].
    assert (b < NBUF)%nat as Hlt by (apply (bo_held_valid _ _ _ _ (rp_ok _ _ _ _ R)); by left).
    pose proof (proj2 (ring_elem _ _ b Hring) Hlt) as (l1 & l2 & ->)%list_elem_of_split.
    destruct (brelse_correct s 0 ROOTDEV (c_hold b 5 (machine_cache ∅)) b 5 [] l1 l2 R)
      as (s' & E' & _ & Hring').
    + reflexivity.
    + exact Hring.
    + intros _. change (cval (machine_with ∅) ROOTDEV 5 = dblock (machine_with ∅) 5).
      unfold cval. assert (bidx (machine_with ∅) ROOTDEV 5 = None) as ->; [|reflexivity].
      apply bidx_none. intros x bf (_ & _ & _ & Hd)%machine_unused [Hd' _]. rewrite Hd in Hd'. discriminate.
    + exists s, b, s'. split; [exact E|]. split; [exact E'|]. exists (l1 ++ l2).
      rewrite decide_True in Hring'; [exact Hring'|].
      change (fset (refs (machine_with ∅) ROOTDEV) 5 (refs (machine_with ∅) ROOTDEV 5 + 1) 5 = 1).
      rewrite fset_eq, Hr. reflexivity.
Defined.

Lemma binit_correct_witness :
  exists s', binit machine = Done tt s' /\ bio_ok s' 0 ROOTDEV [].
Proof.
  destruct (binit_correct machine 0 ROOTDEV machine_quiet) as (s' & E & Hok & _).
  - discriminate.
  - reflexivity.
  - by apply Forall_replicate.
  - apply empty_disk_blocks.
  - exists s'. split; [exact E|exact Hok].
Defined.
