(* ===== verification/SchedLive.v ===== *)
(** * Fairness of the scheduler (proc.c: scheduler).

    One hart runs rounds of scheduler().  Running a process is a step of the
    rest of the system, resolved by an environment; the waits a computation
    goes through under an environment are its trace. *)

From S2P Require Import Prelude Defs KMonad Lock Sched Sleeplock Machine.

(** The sequence of waits, each resolved by the environment. *)
Fixpoint trace {A} (env : wait -> kstate -> kstate) (o : out A) : list wait :=
  match o with
  | Yield w s k => w :: trace env (k (env w s))
  | _ => []
  end.

(** The scheduler's hart: interrupts on, no lock held. *)
Record sched_ok (c : nat) (s : kstate) : Prop := mk_sched_ok {
  so_hart : hart_ok s;
  so_tp : ks_tp s = c;
  so_sie : ks_sie s = true;
  so_locks p : (p < NPROC)%nat -> lock_free (L_proc p) s;
  so_nproc : length (ks_proc s) = NPROC
}.

Definition runnable (s : kstate) (p : nat) : Prop :=
  exists pr, ks_proc s !! p = Some pr /\ p_state pr = RUNNABLE.

(** A process that is switched to gives the hart back through sched(), holding
    its own lock and no other; what was runnable stays so. *)
Record gives_back (c : nat) (env : wait -> kstate -> kstate) : Prop := mk_gives_back {
  gb_back p s pr : sched_ok c s -> (p < NPROC)%nat -> ks_proc s !! p = Some pr -> p_state pr = RUNNING ->
    exists s', env (Dispatch p) (acq (L_proc p) s) = acq (L_proc p) s' /\ sched_ok c s' /\
      forall q, q <> p -> runnable s q -> runnable s' q
}.

Lemma set_cpu_acq lk c f s :
  ks_tp s = c -> (forall x, f (x <| c_noff ::= Z.add 1 |>) = (f x) <| c_noff ::= Z.add 1 |>) ->
  is_Some (ks_cpus s !! c) ->
  set_cpu c f (acq lk s) = Done tt (acq lk (s <| ks_cpus ::= alter f c |>)).
Proof.
  intros <- Hf [x Hx]. erewrite set_cpu_ok.
  2: { cbn. rewrite list_lookup_alter_eq, Hx. reflexivity. }
  apply f_equal. kstate_eq. rewrite !list_alter_alter_eq. apply list_alter_ext; [|done].
  intros y Hy. unfold compose. by rewrite Hf.
Qed.

Lemma sched_cpu c s : sched_ok c s -> is_Some (ks_cpus s !! c).
Proof. intros [Hs <- _ _ _]. unfold hart_ok in Hs. by destruct (ks_cpus s !! ks_tp s). Qed.

(** Changing the processes or the cpu's current process. *)
Lemma sched_ok_proc c s f :
  (forall l, length (f l) = length l) -> sched_ok c s -> sched_ok c (s <| ks_proc ::= f |>).
Proof. intros Hf []. split; try done. cbn. by rewrite Hf. Qed.
Lemma sched_ok_cur c s x : sched_ok c s -> sched_ok c (s <| ks_cpus ::= alter (fun y => y <| c_proc := x |>) c |>).
Proof.
  intros [Hs Ht Hi Hl Hn]. split; try done. subst c. unfold hart_ok in *. cbn.
  rewrite list_lookup_alter_eq. destruct (ks_cpus s !! ks_tp s) as [y|]; [|done]. exact Hs.
Qed.

Section Specs.
Context `{Fuel}.

Definition round_body (c : nat) : nat * bool -> K (nat * bool + bool) := fun '(p, found) =>
  if (NPROC <=? p)%nat then ret (inr found) else
  acquire (L_proc p) ;;
  let! pr := proc_of p in
  if bool_decide (p_state pr = RUNNABLE) then
    set_proc p (fun x => x <| p_state := RUNNING |>) ;;
    set_cpu c (fun x => x <| c_proc := Some p |>) ;;
    yield_to (Dispatch p) ;;
    set_cpu c (fun x => x <| c_proc := None |>) ;;
    release (L_proc p) ;;
    ret (inl (S p, true))
  else
    release (L_proc p) ;;
    ret (inl (S p, found)).

Definition round_end (found : bool) : K unit := when (negb found) (intr_on ;; yield_to Wfi).

Lemma round_eq c s : scheduler_round c s = kbind (loop (S NPROC) (round_body c) (O, false)) round_end (s <| ks_sie := true |>).
Proof. reflexivity. Qed.

Lemma round_skip c s p found pr :
  sched_ok c s -> (p < NPROC)%nat -> ks_proc s !! p = Some pr -> p_state pr <> RUNNABLE ->
  round_body c (p, found) s = Done (inl (S p, found)) s.
Proof.
  intros Hs Hp Hpr Hst. unfold round_body. rewrite (proj2 (Nat.leb_gt _ _)) by done.
  kstep acquire_ok; [|apply Hs|by apply Hs]. kstep proc_of_ok; [|done].
  rewrite bool_decide_eq_false_2 by done. by kstep release_acq; [|apply Hs|by apply Hs].
Qed.

Lemma round_run c s p found pr :
  sched_ok c s -> (p < NPROC)%nat -> ks_proc s !! p = Some pr -> p_state pr = RUNNABLE ->
  exists s1 k, round_body c (p, found) s = Yield (Dispatch p) (acq (L_proc p) s1) k /\
    sched_ok c s1 /\ ks_proc s1 !! p = Some (pr <| p_state := RUNNING |>) /\
    (forall q, q <> p -> ks_proc s1 !! q = ks_proc s !! q) /\
    forall s', sched_ok c s' -> exists s2, k (acq (L_proc p) s') = Done (inl (S p, true)) s2 /\
      sched_ok c s2 /\ ks_proc s2 = ks_proc s'.
Proof.
  intros Hs Hp Hpr Hst. unfold round_body. rewrite (proj2 (Nat.leb_gt _ _)) by done.
  kstep acquire_ok; [|apply Hs|by apply Hs]. kstep proc_of_ok; [|done].
  rewrite bool_decide_eq_true_2 by done. kstep set_proc_ok; [|done].
  set (s1 := s <| ks_proc ::= alter (fun x => x <| p_state := RUNNING |>) p |>).
  assert (sched_ok c s1) as Hs1 by (apply sched_ok_proc; [intros; apply length_alter|done]).
  match goal with |- context [kbind (set_cpu _ _) _ ?x] => change x with (acq (L_proc p) s1) end.
  kstep (set_cpu_acq (L_proc p) c (fun x => x <| c_proc := Some p |>) s1); [|apply Hs1|done|by apply sched_cpu].
  eexists _, _. split_and!; [reflexivity|by apply sched_ok_cur|..].
  - cbn. by rewrite list_lookup_alter_eq, Hpr.
  - intros q Hq. cbn. by rewrite list_lookup_alter_ne.
  - intros s' Hs'. cbn [obind].
    kstep (set_cpu_acq (L_proc p) c (fun x => x <| c_proc := None |>) s'); [|apply Hs'|done|by apply sched_cpu].
    pose proof (sched_ok_cur c s' None Hs') as Hs2. kstep release_acq; [|apply Hs2|by apply Hs2].
    eexists. split_and!; [reflexivity|done|done].
Qed.

(** Every process runnable when the round gets to [i] is run. *)
Lemma round_runs c env n i found s p :
  gives_back c env -> sched_ok c s -> (i <= p < NPROC)%nat -> (NPROC - i < n)%nat -> runnable s p ->
  Dispatch p ∈ trace env (kbind (loop n (round_body c) (i, found)) round_end s).
Proof.
  intros Hg. revert i found s. induction n as [|n IH]; intros i found s Hs Hp Hn Hr; [lia|].
  destruct (lookup_lt_is_Some_2 (ks_proc s) i) as [pr Hpr]; [rewrite (so_nproc _ _ Hs); lia|].
  unfold kbind. cbn [loop]. unfold kbind. destruct (decide (p_state pr = RUNNABLE)) as [Hst|Hst].
  - destruct (round_run c s i found pr Hs ltac:(lia) Hpr Hst) as (s1 & k & E & Hs1 & Hi & Hoth & Hk).
    rewrite E. cbn [obind trace]. apply elem_of_cons. destruct (decide (p = i)) as [->|Hne]; [by left|]. right.
    destruct (gb_back _ _ Hg i s1 _ Hs1 ltac:(lia) Hi eq_refl) as (s' & Ee & Hs' & Hkeep). rewrite Ee.
    destruct (Hk s' Hs') as (s2 & E2 & Hs2 & Ep). rewrite E2. cbn [obind].
    apply (IH (S i) true s2 Hs2); [lia|lia|]. unfold runnable. rewrite Ep. apply Hkeep; [done|].
    unfold runnable. by rewrite Hoth.
  - rewrite (round_skip c s i found pr Hs ltac:(lia) Hpr Hst). cbn [obind].
    apply (IH (S i) found s Hs); [|lia|done]. destruct Hr as (pr' & Hpr' & Hst').
    destruct (decide (p = i)) as [->|]; [simplify_eq|lia].
Qed.

Lemma round_idle c env n i s :
  sched_ok c s -> (NPROC - i < n)%nat -> (forall p, ~ runnable s p) ->
  trace env (kbind (loop n (round_body c) (i, false)) round_end s) = [Wfi].
Proof.
  revert i. induction n as [|n IH]; intros i Hs Hn Hr; [lia|]. unfold kbind. cbn [loop]. unfold kbind.
  destruct (decide (i < NPROC)%nat) as [Hi|Hi].
  - destruct (lookup_lt_is_Some_2 (ks_proc s) i) as [pr Hpr]; [rewrite (so_nproc _ _ Hs); lia|].
    rewrite (round_skip c s i false pr Hs Hi Hpr); [cbn [obind]; by apply (IH (S i)); [|lia|]|].
    intros Hst. apply (Hr i). by exists pr.
  - unfold round_body. rewrite (proj2 (Nat.leb_le _ _)) by lia. done.
Qed.

Lemma sched_ok_intr c s : sched_ok c s -> s <| ks_sie := true |> = s.
Proof. intros Hs. kstate_eq. symmetry. apply (so_sie _ _ Hs). Qed.

(** C23: the scheduler starves no one.  In one round of scheduler() every
    process that is RUNNABLE when the round begins is switched to, whatever
    the processes do that are run before it, as long as each gives the hart
    back through sched(); with no process runnable the round ends waiting for
    an interrupt. *)
Theorem scheduler_fair c env s :
  gives_back c env -> sched_ok c s ->
  (forall p, (p < NPROC)%nat -> runnable s p -> Dispatch p ∈ trace env (scheduler_round c s)) /\
  ((forall p, ~ runnable s p) -> trace env (scheduler_round c s) = [Wfi]).
Proof.
  intros Hg Hs. rewrite round_eq, (sched_ok_intr c s Hs). split.
  - intros p Hp Hr. apply round_runs; [done|done|lia|lia|done].
  - intros Hr. apply round_idle; [done|lia|done].
Qed.
End Specs.

(** ** At a concrete machine: two processes are runnable, and each process run
    goes to sleep at once. *)

Definition busy_machine : kstate :=
  machine <| ks_cpus ::= <[0%nat := mk_cpu None 0 1]> |>
    <| ks_proc ::= alter (fun x => x <| p_state := RUNNABLE |>) 3%nat |>
    <| ks_proc ::= alter (fun x => x <| p_state := RUNNABLE |>) 5%nat |>.

Definition sleeper (w : wait) (s : kstate) : kstate :=
  match w with
  | Dispatch p => s <| ks_proc ::= alter (fun x => x <| p_state := SLEEPING |>) p |>
  | _ => s
  end.

Lemma sleeper_gives_back : gives_back 0 sleeper.
Proof.
  split. intros p s pr Hs Hp Hpr _. exists (s <| ks_proc ::= alter (fun x => x <| p_state := SLEEPING |>) p |>).
  split_and!; [reflexivity|apply sched_ok_proc; [intros; apply length_alter|done]|].
  intros q Hq (pr' & Hpr' & Hst). exists pr'. split; [|done]. cbn. by rewrite list_lookup_alter_ne.
Qed.

Lemma busy_sched_ok : sched_ok 0 busy_machine.
Proof.
  split; [by vm_compute|reflexivity|reflexivity| |by vm_compute].
  intros p Hp. change (lock_free (L_proc p) machine). apply machine_lock_free. by apply Nat.ltb_lt.
Qed.

Lemma scheduler_fair_witness :
  Dispatch 3 ∈ trace sleeper (scheduler_round 0 busy_machine) /\
  Dispatch 5 ∈ trace sleeper (scheduler_round 0 busy_machine).
Proof.
  split.
  - apply (proj1 (scheduler_fair 0 sleeper busy_machine sleeper_gives_back busy_sched_ok)).
    + apply Nat.ltb_lt. reflexivity.
    + eexists. split; reflexivity.
  - apply (proj1 (scheduler_fair 0 sleeper busy_machine sleeper_gives_back busy_sched_ok)).
    + apply Nat.ltb_lt. reflexivity.
    + eexists. split; reflexivity.
Defined.
