(* ===== verification/Log.v ===== *)
(** * The write-ahead log (log.c).

    A transaction's blocks are pinned in the buffer cache and recorded in the
    in-memory header by log_write; commit copies them to the log area, writes
    the header block (the commit point), installs them at their home
    locations and clears the header.  [ks_dwrites] is the sequence of block
    writes the device has received, so a crash is a prefix of it; the theorem
    at the end quantifies over all of them. *)

From S2P Require Import Prelude Defs KMonad Lock Sched Mem Sleeplock Bio Machine.

#[local] Opaque machine_with.

(** ** Header blocks *)

(** A 32-bit little-endian field of a block. *)
Definition rd32 (bs : list Z) (off : nat) : Z := le_val (take 4 (drop off bs)).
Definition wr32 (bs : list Z) (off : nat) (v : Z) : list Z := patch bs off (le_bytes 4 v).

(** [lh->n] and [lh->block[i]] of a block read as a [struct logheader]. *)
Definition hdr_n (data : list Z) : Z := i32 (rd32 data 0).
Definition hdr_block (data : list Z) (i : nat) : Z := i32 (rd32 data (4 + 4 * i)).

(** ** Code *)

Definition log_of : K logst := get ks_log.
Definition set_log (f : logst -> logst) : K unit := modify (fun s => s <| ks_log ::= f |>).
Definition set_lh (f : logheader -> logheader) : K unit :=
  set_log (fun l => l <| log_lh ::= f |>).

(** log.lh.block[i]: an index outside the array is undefined behaviour. *)
Definition lh_block_at (i : nat) : K Z := let! l := log_of in deref (lh_block (log_lh l)) i.
Definition set_lh_block_at (i : nat) (v : Z) : K unit :=
  let! _ := lh_block_at i in
  set_lh (fun h => h <| lh_block ::= <[i := v]> |>).

(** [for (i = 0; i < log.lh.n; i++) body(i);] *)
Definition for_lh (body : nat -> K unit) : K unit :=
  let! l := log_of in
  loop (S (Z.to_nat (lh_n (log_lh l)))) (fun i =>
    let! l := log_of in
    if Z.of_nat i <? lh_n (log_lh l) then body i ;; ret (inl (S i)) else ret (inr tt)) O.

Section Code.
Context `{Fuel, BlockDevice}.

Definition install_body (recovering : Z) (tail : nat) : K unit :=
  let! l := log_of in
  let! lbuf := bread (log_dev l) (u32 (log_start l + Z.of_nat tail + 1)) in
  let! blk := lh_block_at tail in
  let! dbuf := bread (log_dev l) (u32 blk) in
  let! lb := buf_of lbuf in
  set_buf dbuf (fun x => x <| b_data := b_data lb |>) ;;
  bwrite dbuf ;;
  when (recovering =? 0) (bunpin dbuf) ;;
  brelse lbuf ;;
  brelse dbuf.

Definition install_trans (recovering : Z) : K unit := for_lh (install_body recovering).

Definition read_head : K unit :=
  let! l := log_of in
  let! b := bread (log_dev l) (u32 (log_start l)) in
  let! bf := buf_of b in
  set_lh (fun h => h <| lh_n := hdr_n (b_data bf) |>) ;;
  for_lh (fun i => set_lh_block_at i (hdr_block (b_data bf) i)) ;;
  brelse b.

Definition write_head : K unit :=
  let! l := log_of in
  let! b := bread (log_dev l) (u32 (log_start l)) in
  set_buf b (fun x => x <| b_data ::= fun data => wr32 data 0 (lh_n (log_lh l)) |>) ;;
  for_lh (fun i =>
    let! blk := lh_block_at i in
    set_buf b (fun x => x <| b_data ::= fun data => wr32 data (4 + 4 * i) blk |>)) ;;
  bwrite b ;;
  brelse b.

Definition recover_from_log : K unit :=
  read_head ;;
  install_trans 1 ;;
  set_lh (fun h => h <| lh_n := 0 |>) ;;
  write_head.

(** [sizeof(struct logheader)], 4 + 4 * LOGSIZE, is below BSIZE. *)
Definition initlog (dev : Z) (sb : superblock) : K unit :=
  if BSIZE <=? 4 + 4 * LOGSIZE then panic "initlog: too big logheader" else
  initlock L_log "log" ;;
  set_log (fun l => l <| log_start := i32 (sb_logstart sb) |>) ;;
  set_log (fun l => l <| log_size := i32 (sb_nlog sb) |>) ;;
  set_log (fun l => l <| log_dev := dev |>) ;;
  recover_from_log.

Definition begin_op : K unit :=
  acquire L_log ;;
  loop fuel (fun _ =>
    let! l := log_of in
    if z2b (log_committing l) then sleep Ch_log L_log ;; ret (inl tt)
    else if LOGSIZE <? lh_n (log_lh l) + (log_outstanding l + 1) * MAXOPBLOCKS
    then sleep Ch_log L_log ;; ret (inl tt)
    else
      set_log (fun l => l <| log_outstanding ::= Z.add 1 |>) ;;
      release L_log ;;
      ret (inr tt)) tt.

Definition write_log_body (tail : nat) : K unit :=
  let! l := log_of in
  let! to := bread (log_dev l) (u32 (log_start l + Z.of_nat tail + 1)) in
  let! blk := lh_block_at tail in
  let! from := bread (log_dev l) (u32 blk) in
  let! fb := buf_of from in
  set_buf to (fun x => x <| b_data := b_data fb |>) ;;
  bwrite to ;;
  brelse from ;;
  brelse to.

Definition write_log : K unit := for_lh write_log_body.

Definition commit : K unit :=
  let! l := log_of in
  when (0 <? lh_n (log_lh l))
    (write_log ;;
     write_head ;;
     install_trans 0 ;;
     set_lh (fun h => h <| lh_n := 0 |>) ;;
     write_head).

Definition end_op : K unit :=
  acquire L_log ;;
  set_log (fun l => l <| log_outstanding ::= fun n => n - 1 |>) ;;
  let! l := log_of in
  if z2b (log_committing l) then panic "log.committing" else
  let! do_commit := (if log_outstanding l =? 0 then
                       set_log (fun l => l <| log_committing := 1 |>) ;; ret true
                     else wakeup Ch_log ;; ret false) in
  release L_log ;;
  when do_commit
    (commit ;;
     acquire L_log ;;
     set_log (fun l => l <| log_committing := 0 |>) ;;
     wakeup Ch_log ;;
     release L_log).

(** The index at which the absorption loop stops. *)
Fixpoint absorb (bl : list Z) (n : Z) : nat :=
  match bl with
  | [] => O
  | x :: bl => if u32 x =? n then O else S (absorb bl n)
  end.

Definition log_write (b : nat) : K unit :=
  acquire L_log ;;
  let! l := log_of in
  let n := lh_n (log_lh l) in
  if (LOGSIZE <=? n) || (log_size l - 1 <=? n) then panic "too big a transaction" else
  if log_outstanding l <? 1 then panic "log_write outside of trans" else
  let! bf := buf_of b in
  let i := absorb (take (Z.to_nat n) (lh_block (log_lh l))) (b_blockno bf) in
  set_lh_block_at i (i32 (b_blockno bf)) ;;
  when (Z.of_nat i =? n)
    (bpin b ;; set_lh (fun h => h <| lh_n ::= Z.add 1 |>)) ;;
  release L_log.
End Code.

(** ** Blocks copied through the cache *)

(** Block [n] of the device and of the cache becomes [v] by one device write,
    and [k] of its references are dropped. *)
Definition c_put (n : Z) (v : list Z) (k : Z) (c : cache) : cache :=
  mk_cache (ca_held c) (fset (ca_val c) n v) (fset (ca_refs c) n (ca_refs c n - k))
    (ca_busy c + busy (ca_refs c n - k) - busy (ca_refs c n))
    (<[n := v]> (ca_disk c)) ((n, v) :: ca_writes c).

Lemma disk_at_insert_eq D n v : disk_at (<[n := v]> D) n = v.
Proof. unfold disk_at. by rewrite lookup_insert_eq. Qed.
Lemma disk_at_insert_ne D n v m : m <> n -> disk_at (<[n := v]> D) m = disk_at D m.
Proof. intros. unfold disk_at. by rewrite lookup_insert_ne. Qed.

Ltac ceq_solve :=
  split_and!; cbn; unfold fset; intros; repeat case_decide; subst;
  rewrite ?Z.add_simpl_r, ?Z.sub_0_r, ?Z.add_0_r; try done; try congruence; try lia.

Section Copies.
Context `{Fuel, BlockDevice}.

Lemma buf_of_held s p d c b n :
  represents s p d c -> (b, n) ∈ ca_held c ->
  exists bf, buf_of b s = Done bf s /\ b_data bf = ca_val c n /\ b_blockno bf = n.
Proof.
  intros Hr Hin. destruct (held_buf _ _ _ _ _ _ Hr Hin) as (bf & Hb & _ & Hn & Hv & _).
  exists bf. split_and!; [by apply buf_of_ok|done|done].
Qed.

Lemma val_length s p d c n : represents s p d c -> length (ca_val c n) = Z.to_nat BSIZE.
Proof.
  intros Hr. pose proof (rp_ok _ _ _ _ Hr) as Hok. rewrite <- (rp_val _ _ _ _ Hr).
  destruct (bidx s d n) as [[b bf]|] eqn:E.
  - apply (bidx_some _ _ _ _ _ _ _ Hok) in E as [Hb Hc].
    destruct (cval_at _ _ _ _ _ _ _ Hok Hb Hc) as [-> _].
    case_match; [apply (bo_buf _ _ _ _ Hok _ _ Hb)|apply (bo_disk _ _ _ _ Hok)].
  - rewrite (proj1 (cval_none s d n (proj1 (bidx_none _ _ _) E))). apply (bo_disk _ _ _ _ Hok).
Qed.

(** An unreferenced block reads what is on the device. *)
Lemma val_unref s p d c n :
  represents s p d c -> ca_refs c n = 0 -> ca_val c n = disk_at (ca_disk c) n.
Proof.
  intros Hr Hz. pose proof (rp_ok _ _ _ _ Hr) as Hok.
  rewrite <- (rp_val _ _ _ _ Hr), <- (rp_disk _ _ _ _ Hr). rewrite <- (rp_refs _ _ _ _ Hr) in Hz.
  change (disk_at (ks_disk s) n) with (dblock s n). unfold refs in Hz.
  destruct (bidx s d n) as [[b bf]|] eqn:E.
  - apply (bidx_some _ _ _ _ _ _ _ Hok) in E as [Hb Hc]. by eapply cval_idle.
  - by apply cval_none, bidx_none.
Qed.

(** write_log's copy of the pinned block [nf] to the log block [nt]. *)
Lemma copy_to_log s p d c nt nf (m : K Z) :
  (forall s1, bio_frame s s1 -> m s1 = Done nf s1) -> u32 nf = nf ->
  represents s p d c -> ca_held c = [] -> nt <> nf -> ca_refs c nt = 0 ->
  1 <= ca_refs c nf < 2 ^ 32 - 1 -> ca_busy c < Z.of_nat NBUF ->
  exists s', (let! to := bread d nt in
     let! blk := m in
     let! from := bread d (u32 blk) in
     let! fb := buf_of from in
     set_buf to (fun x => x <| b_data := b_data fb |>) ;;
     bwrite to ;; brelse from ;; brelse to) s = Done tt s' /\
    bio_frame s s' /\ represents s' p d (c_put nt (ca_val c nf) 0 c).
Proof.
  intros Hm Hnf Hr Hh Hne Hrt Hrf Hbusy.
  destruct (bread_refines s p d c nt Hr) as (bt & s1 & E1 & F1 & _ & R1);
    [rewrite Hh; apply not_elem_of_nil|lia|done|]. kstep E1. kstep (Hm s1 F1). rewrite Hnf.
  destruct (bread_refines s1 p d _ nf R1) as (bf & s2 & E2 & F2 & _ & R2);
    [cbn; rewrite Hh; set_solver|cbn; rewrite fset_ne by done; lia..|]. kstep E2.
  destruct (buf_of_held s2 p d _ bf nf R2) as (fb & E3 & Hv & _); [cbn; set_solver|].
  kstep E3. rewrite Hv. cbn [ca_val c_hold c_refs].
  destruct (set_data_refines s2 p d _ bt nt (fun _ => ca_val c nf) R2) as (s3 & E4 & F3 & R3);
    [cbn; set_solver|by eapply val_length|]. kstep E4.
  destruct (bwrite_refines s3 p d _ bt nt R3) as (s4 & E5 & F4 & R4); [cbn; set_solver|]. kstep E5.
  destruct (brelse_refines s4 p d _ bf nf [(bt, nt)] R4) as (s5 & E6 & F5 & R5).
  { cbn. by rewrite Hh. }
  { cbn. rewrite fset_eq, fset_ne by done. lia. }
  kstep E6. destruct (brelse_refines s5 p d _ bt nt [] R5) as (s6 & E7 & F6 & R6).
  { done. }
  { cbn. by rewrite !fset_eq, disk_at_insert_eq. }
  exists s6. split_and!; [done|by rewrite F1, F2, F3, F4, F5|].
  eapply represents_proper; [|exact R6]. unfold c_put. ceq_solve.
Qed.

(** install_trans's copy of the log block [nl] to its home [nd]: at commit the
    block is pinned once more than it will be, at recovery nothing is. *)
Lemma copy_home s p d c nl nd rec (m : K Z) :
  (forall s1, bio_frame s s1 -> m s1 = Done nd s1) -> u32 nd = nd ->
  represents s p d c -> ca_held c = [] -> nl <> nd -> ca_refs c nl = 0 ->
  (rec = 0 /\ 1 <= ca_refs c nd < 2 ^ 32 - 1 /\ ca_busy c < Z.of_nat NBUF \/
   rec = 1 /\ ca_refs c nd = 0 /\ ca_busy c + 1 < Z.of_nat NBUF) ->
  exists s', (let! lbuf := bread d nl in
     let! blk := m in
     let! dbuf := bread d (u32 blk) in
     let! lb := buf_of lbuf in
     set_buf dbuf (fun x => x <| b_data := b_data lb |>) ;;
     bwrite dbuf ;; when (rec =? 0) (bunpin dbuf) ;; brelse lbuf ;; brelse dbuf) s = Done tt s' /\
    bio_frame s s' /\ represents s' p d (c_put nd (ca_val c nl) (1 - rec) c).
Proof.
  intros Hm Hnd Hr Hh Hne Hrl Hcase.
  destruct (bread_refines s p d c nl Hr) as (bl & s1 & E1 & F1 & _ & R1);
    [rewrite Hh; apply not_elem_of_nil|lia|lia|]. kstep E1. kstep (Hm s1 F1). rewrite Hnd.
  destruct (bread_refines s1 p d _ nd R1) as (bd & s2 & E2 & F2 & _ & R2);
    [cbn; rewrite Hh; set_solver|cbn; rewrite fset_ne by done; lia| |].
  { cbn. rewrite fset_ne by done. rewrite Hrl. change (busy (0 + 1)) with 1. change (busy 0) with 0. lia. }
  kstep E2. destruct (buf_of_held s2 p d _ bl nl R2) as (lb & E3 & Hv & _); [cbn; set_solver|].
  kstep E3. rewrite Hv. cbn [ca_val c_hold c_refs].
  destruct (set_data_refines s2 p d _ bd nd (fun _ => ca_val c nl) R2) as (s3 & E4 & F3 & R3);
    [cbn; set_solver|by eapply val_length|]. kstep E4.
  destruct (bwrite_refines s3 p d _ bd nd R3) as (s4 & E5 & F4 & R4); [cbn; set_solver|]. kstep E5.
  assert (exists s5, when (rec =? 0) (bunpin bd) s4 = Done tt s5 /\ bio_frame s4 s5 /\
    represents s5 p d (c_refs nd (ca_refs c nd + rec)
      (c_flush nd (c_set nd (ca_val c nl) (c_hold bd nd (c_hold bl nl c)))))) as (s5 & E6 & F5 & R5).
  { destruct Hcase as [(-> & Hrd & _)|(-> & Hrd & _)]; cbn [Z.eqb when].
    - destruct (bunpin_refines s4 p d _ bd nd R4) as (s5 & E6 & F5 & R5);
        [cbn; set_solver|cbn; rewrite fset_eq, fset_ne by done; lia|].
      exists s5. split_and!; [done|done|]. eapply represents_proper; [|exact R5]. ceq_solve.
    - exists s4. split_and!; [done|done|]. eapply represents_proper; [|exact R4]. ceq_solve. }
  kstep E6. destruct (brelse_refines s5 p d _ bl nl [(bd, nd)] R5) as (s6 & E7 & F6 & R6).
  { cbn. rewrite Hh. apply Permutation_swap. }
  { cbn. intros _. rewrite fset_ne, disk_at_insert_ne by done. by eapply val_unref. }
  kstep E7. destruct (brelse_refines s6 p d _ bd nd [] R6) as (s7 & E8 & F7 & R7).
  { done. }
  { cbn. by rewrite fset_eq, disk_at_insert_eq. }
  exists s7. split_and!; [done|by rewrite F1, F2, F3, F4, F5, F6|].
  eapply represents_proper; [|exact R7]. unfold c_put.
  replace (ca_refs c nd - (1 - rec)) with (ca_refs c nd + rec - 1) by lia. ceq_solve.
Qed.
End Copies.

(** ** Header fields *)

Lemma rd32_wr32_eq bs off v :
  (off + 4 <= length bs)%nat -> rd32 (wr32 bs off v) off = v `mod` 2 ^ 32.
Proof.
  intros Hl. unfold rd32, wr32, patch.
  rewrite drop_app_length' by (rewrite length_take; lia).
  rewrite take_app_length' by (by rewrite length_le_bytes). by rewrite le_val_bytes.
Qed.

Lemma length_wr32 bs off v : (off + 4 <= length bs)%nat -> length (wr32 bs off v) = length bs.
Proof. intros Hl. unfold wr32. apply length_patch. rewrite length_le_bytes. lia. Qed.

Lemma rd32_wr32_ne bs off v off' :
  (off + 4 <= length bs)%nat -> (off' + 4 <= off \/ off + 4 <= off')%nat ->
  rd32 (wr32 bs off v) off' = rd32 bs off'.
Proof.
  intros Hl Hd. unfold rd32. f_equal. apply list_eq. intros i.
  destruct (decide (i < 4)%nat); [|by rewrite !lookup_take_ge by lia].
  rewrite !lookup_take_lt, !lookup_drop by lia. unfold wr32.
  rewrite patch_lookup by (rewrite length_le_bytes; lia).
  rewrite length_le_bytes, decide_False by lia. done.
Qed.

(** The block numbers written at index [i] and up, and the whole header. *)
Fixpoint put_blocks (i : nat) (bl : list Z) (data : list Z) : list Z :=
  match bl with
  | [] => data
  | b :: bl => put_blocks (S i) bl (wr32 data (4 + 4 * i) b)
  end.
Definition write_hdr (bl : list Z) (data : list Z) : list Z :=
  put_blocks 0 bl (wr32 data 0 (Z.of_nat (length bl))).
Definition hdr_blocks (data : list Z) : list Z :=
  hdr_block data <$> seq 0 (Z.to_nat (hdr_n data)).

Definition int32 (x : Z) : Prop := - 2 ^ 31 <= x < 2 ^ 31.
Lemma i32_mod x : int32 x -> i32 (x `mod` 2 ^ 32) = x.
Proof. unfold i32, int32. intros. rewrite Zplus_mod_idemp_l. rewrite Z.mod_small; lia. Qed.

Lemma length_put_blocks i bl data :
  (4 + 4 * (i + length bl) <= length data)%nat -> length (put_blocks i bl data) = length data.
Proof.
  revert i data. induction bl as [|b bl IH]; intros i data Hl; cbn [put_blocks]; [done|].
  cbn [length] in Hl. rewrite IH; rewrite length_wr32; lia.
Qed.

Lemma rd32_put_blocks i bl data off :
  (4 + 4 * (i + length bl) <= length data)%nat -> (off + 4 <= 4 + 4 * i)%nat ->
  rd32 (put_blocks i bl data) off = rd32 data off.
Proof.
  revert i data. induction bl as [|b bl IH]; intros i data Hl Ho; cbn [put_blocks]; [done|].
  cbn [length] in Hl. rewrite IH; [|rewrite length_wr32; lia|lia]. apply rd32_wr32_ne; lia.
Qed.

Lemma hdr_put_blocks i bl data (j : nat) b :
  (4 + 4 * (i + length bl) <= length data)%nat -> Forall int32 bl -> bl !! j = Some b ->
  hdr_block (put_blocks i bl data) (i + j) = b.
Proof.
  revert i j data. induction bl as [|x bl IH]; intros i j data Hl Hr Hj; [done|].
  cbn [length put_blocks] in *. apply Forall_cons in Hr as [Hx Hr]. destruct j as [|j].
  - injection Hj as ->. unfold hdr_block.
    rewrite rd32_put_blocks by (rewrite ?length_wr32; lia).
    replace (4 + 4 * (i + 0))%nat with (4 + 4 * i)%nat by lia.
    rewrite rd32_wr32_eq by lia. by apply i32_mod.
  - replace (i + S j)%nat with (S i + j)%nat by lia. apply IH; [rewrite length_wr32; lia|done|done].
Qed.

Section Header.
Context (bl data : list Z) (Hbl : Z.of_nat (length bl) <= LOGSIZE)
  (Hdata : length data = Z.to_nat BSIZE) (Hint : Forall int32 bl).

Lemma hdr_fits : (4 + 4 * (0 + length bl) <= length data)%nat.
Proof. rewrite Hdata. unfold LOGSIZE, MAXOPBLOCKS, BSIZE in *. lia. Qed.

Lemma length_write_hdr : length (write_hdr bl data) = Z.to_nat BSIZE.
Proof.
  pose proof hdr_fits. unfold write_hdr. rewrite length_put_blocks; rewrite length_wr32; lia.
Qed.
Lemma hdr_n_write_hdr : hdr_n (write_hdr bl data) = Z.of_nat (length bl).
Proof.
  pose proof hdr_fits. unfold hdr_n, write_hdr.
  rewrite rd32_put_blocks, rd32_wr32_eq by (rewrite ?length_wr32; lia).
  apply i32_mod. unfold int32, LOGSIZE, MAXOPBLOCKS in *. lia.
Qed.
Lemma hdr_blocks_write_hdr : hdr_blocks (write_hdr bl data) = bl.
Proof.
  unfold hdr_blocks. rewrite hdr_n_write_hdr, Nat2Z.id. apply list_eq. intros j.
  rewrite list_lookup_fmap. destruct (bl !! j) as [b|] eqn:Hj.
  - rewrite lookup_seq_lt by (by eapply lookup_lt_Some). cbn. f_equal. unfold write_hdr.
    apply (hdr_put_blocks 0); [|done|done]. rewrite length_wr32; pose proof hdr_fits; lia.
  - apply lookup_ge_None in Hj. by rewrite lookup_seq_ge.
Qed.
End Header.

(** ** The loops over the header *)

(** The in-memory log describes a log area of [size] blocks from [start] and
    a transaction of the blocks [bl]. *)
Record log_hdr (s : kstate) (d start size : Z) (bl : list Z) : Prop := mk_log_hdr {
  lg_dev : log_dev (ks_log s) = d;
  lg_start : log_start (ks_log s) = start;
  lg_size : log_size (ks_log s) = size;
  lg_fits : Z.of_nat (length bl) < size;
  lg_n : lh_n (log_lh (ks_log s)) = Z.of_nat (length bl);
  lg_blocks : take (length bl) (lh_block (log_lh (ks_log s))) = bl;
  lg_len : length (lh_block (log_lh (ks_log s))) = Z.to_nat LOGSIZE
}.

Lemma log_hdr_log s s' d start size bl :
  ks_log s' = ks_log s -> log_hdr s d start size bl -> log_hdr s' d start size bl.
Proof. intros Hl []. split; rewrite ?Hl; done. Qed.
Lemma bio_frame_log s s' : bio_frame s s' -> ks_log s' = ks_log s.
Proof. by intros ->. Qed.

Lemma log_hdr_length s d start size bl : log_hdr s d start size bl -> Z.of_nat (length bl) <= LOGSIZE.
Proof.
  intros []. apply (f_equal length) in lg_blocks0. rewrite length_take in lg_blocks0.
  unfold LOGSIZE, MAXOPBLOCKS in *. lia.
Qed.

Lemma lh_block_at_ok s d start size pre b rest :
  log_hdr s d start size (pre ++ b :: rest) -> lh_block_at (length pre) s = Done b s.
Proof.
  intros []. unfold lh_block_at, log_of. rewrite kbind_get. apply deref_some.
  assert ((pre ++ b :: rest) !! length pre = Some b) as Hb by (by apply list_lookup_middle).
  rewrite <- lg_blocks0 in Hb. by apply lookup_take_Some in Hb as [Hb _].
Qed.

Fixpoint fold_at {A} (F : nat -> Z -> A -> A) (i : nat) (l : list Z) (c : A) : A :=
  match l with [] => c | x :: l => fold_at F (S i) l (F i x c) end.

Section Loops.
Context `{Fuel, BlockDevice}.

Lemma for_lh_from body (F : nat -> Z -> cache -> cache) (Pre : nat -> list Z -> cache -> Prop)
    p d start size bl s :
  (forall pre b rest s1 c1, bl = pre ++ b :: rest -> bio_frame s s1 -> represents s1 p d c1 ->
     Pre (length pre) (b :: rest) c1 ->
     exists s2, body (length pre) s1 = Done tt s2 /\ bio_frame s1 s2 /\
       represents s2 p d (F (length pre) b c1) /\ Pre (S (length pre)) rest (F (length pre) b c1)) ->
  log_hdr s d start size bl ->
  forall rest pre s1 c1 k, bl = pre ++ rest -> (length rest < k)%nat -> bio_frame s s1 ->
  represents s1 p d c1 -> Pre (length pre) rest c1 ->
  exists s', loop k (fun i =>
    let! l := log_of in
    if Z.of_nat i <? lh_n (log_lh l) then body i ;; ret (inl (S i)) else ret (inr tt)) (length pre) s1
    = Done tt s' /\ bio_frame s1 s' /\ represents s' p d (fold_at F (length pre) rest c1).
Proof.
  intros Hbody Hlog rest. induction rest as [|b rest IH]; intros pre s1 c1 k Hbl Hk Hf Hr Hpre;
    (destruct k as [|k]; [cbn in Hk; lia|]);
    assert (lh_n (log_lh (ks_log s1)) = Z.of_nat (length bl)) as Hn
      by (rewrite (bio_frame_log _ _ Hf); apply (lg_n _ _ _ _ _ Hlog)).
  - exists s1. split_and!; [|done|done]. apply loop_done. unfold log_of. rewrite kbind_get, Hn, Hbl.
    rewrite length_app. cbn [length]. by rewrite (proj2 (Z.ltb_ge _ _)) by lia.
  - destruct (Hbody pre b rest s1 c1) as (s2 & E & F2 & R2 & P2); [done..|].
    erewrite loop_next.
    2: { unfold log_of. rewrite kbind_get, Hn, Hbl, length_app. cbn [length].
         rewrite (proj2 (Z.ltb_lt _ _)) by lia. by kstep E. }
    destruct (IH (pre ++ [b]) s2 (F (length pre) b c1) k) as (s3 & E3 & F3 & R3).
    + by rewrite <- app_assoc.
    + cbn in Hk. lia.
    + by rewrite Hf.
    + done.
    + rewrite length_app. cbn. by rewrite Nat.add_1_r.
    + rewrite length_app, Nat.add_1_r in E3, R3. exists s3. split_and!; [done|by rewrite F2|done].
Qed.

Lemma for_lh_refines body (F : nat -> Z -> cache -> cache) (Pre : nat -> list Z -> cache -> Prop)
    p d start size bl s c :
  (forall pre b rest s1 c1, bl = pre ++ b :: rest -> bio_frame s s1 -> represents s1 p d c1 ->
     Pre (length pre) (b :: rest) c1 ->
     exists s2, body (length pre) s1 = Done tt s2 /\ bio_frame s1 s2 /\
       represents s2 p d (F (length pre) b c1) /\ Pre (S (length pre)) rest (F (length pre) b c1)) ->
  log_hdr s d start size bl -> represents s p d c -> Pre O bl c ->
  exists s', for_lh body s = Done tt s' /\ bio_frame s s' /\ represents s' p d (fold_at F 0 bl c).
Proof.
  intros Hbody Hlog Hr Hpre. unfold for_lh, log_of. rewrite kbind_get.
  apply (for_lh_from body F Pre p d start size bl s Hbody Hlog bl []); [done| |done|done|done].
  rewrite (lg_n _ _ _ _ _ Hlog). lia.
Qed.
End Loops.

(** ** The phases of a commit, on the abstract cache *)

Definition log_blk (start : Z) (i : nat) : Z := start + Z.of_nat i + 1.

Definition c_write_log (start : Z) : list Z -> cache -> cache :=
  fold_at (fun i b c => c_put (log_blk start i) (ca_val c b) 0 c) 0.
Definition c_install (start k : Z) : list Z -> cache -> cache :=
  fold_at (fun i b c => c_put b (ca_val c (log_blk start i)) k c) 0.
Definition c_write_head (start : Z) (bl : list Z) (c : cache) : cache :=
  c_put start (write_hdr bl (ca_val c start)) 0 c.
Definition c_commit (start : Z) (bl : list Z) (c : cache) : cache :=
  c_write_head start [] (c_install start 1 bl (c_write_head start bl (c_write_log start bl c))).
Definition c_recover (start : Z) (c : cache) : cache :=
  c_write_head start [] (c_install start 0 (hdr_blocks (ca_val c start)) c).

(** A home block: outside the log area of [size] blocks from [start]. *)
Definition home (start size b : Z) : Prop := 0 <= b < 2 ^ 31 /\ (b < start \/ start + size <= b).
#[global] Instance home_dec start size b : Decision (home start size b).
Proof. unfold home. apply _. Defined.
Definition geometry (start size : Z) : Prop := 0 <= start /\ 0 < size /\ start + size < 2 ^ 31.

(** No log block is in use; [pinned] blocks are; a buffer is free. *)
Record quiet_log (start size : Z) (c : cache) : Prop := mk_quiet_log {
  ql_held : ca_held c = [];
  ql_log b : start <= b < start + size -> ca_refs c b = 0;
  ql_busy : ca_busy c < Z.of_nat NBUF
}.

Lemma busy_sub r k : 0 <= k -> 0 <= r - k -> busy (r - k) <= busy r.
Proof. unfold busy. destruct (Z.eqb_spec (r - k) 0), (Z.eqb_spec r 0); lia. Qed.

Lemma quiet_log_put start size c n v k :
  quiet_log start size c -> 0 <= k <= ca_refs c n ->
  quiet_log start size (c_put n v k c).
Proof.
  intros [Hh Hl Hb] Hk. split; cbn; [done| |].
  - intros b Hin. unfold fset. case_decide; [subst|by apply Hl].
    specialize (Hl _ Hin). lia.
  - pose proof (busy_sub (ca_refs c n) k). lia.
Qed.

Lemma u32_blk x : 0 <= x < 2 ^ 31 -> u32 x = x.
Proof. intros. apply u32_small. lia. Qed.

Section Phases.
Context `{Fuel, BlockDevice}.
Context (p : nat) (d start size : Z) (Hgeo : geometry start size).

Lemma log_blk_range i : Z.of_nat i + 1 < size ->
  start <= log_blk start i < start + size /\ 0 <= log_blk start i < 2 ^ 31.
Proof. unfold log_blk. destruct Hgeo. lia. Qed.

Lemma home_not_log b i : home start size b -> Z.of_nat i + 1 < size -> log_blk start i <> b.
Proof. intros [_ Hb] Hi. destruct (log_blk_range i Hi). lia. Qed.

(** The loop reads the block numbers of the header it was given. *)
Lemma loop_block s pre b rest s1 s2 :
  log_hdr s d start size (pre ++ b :: rest) -> bio_frame s s1 -> bio_frame s1 s2 ->
  lh_block_at (length pre) s2 = Done b s2.
Proof.
  intros Hlog F1 F2. eapply lh_block_at_ok, log_hdr_log; [|exact Hlog].
  apply bio_frame_log. by rewrite F1.
Qed.

Lemma write_log_ok s c bl :
  represents s p d c -> log_hdr s d start size bl -> quiet_log start size c ->
  Forall (fun b => home start size b /\ 1 <= ca_refs c b < 2 ^ 32 - 1) bl ->
  exists s', write_log s = Done tt s' /\ bio_frame s s' /\ represents s' p d (c_write_log start bl c).
Proof.
  intros Hr Hlog Hq Hbl.
  apply (for_lh_refines write_log_body _ (fun _ rest c => quiet_log start size c /\
    Forall (fun b => home start size b /\ 1 <= ca_refs c b < 2 ^ 32 - 1) rest) p d start size bl);
    [|done|done|done].
  intros pre b rest s1 c1 -> Hf R1 [Q1 [[Hb Hrb] Hrest]%Forall_cons].
  assert (log_hdr s1 d start size (pre ++ b :: rest)) as Hlog1
    by (eapply log_hdr_log; [by apply bio_frame_log|done]).
  pose proof (lg_fits _ _ _ _ _ Hlog) as Hfit. rewrite length_app in Hfit. cbn [length] in Hfit.
  destruct (log_blk_range (length pre)) as [Hi Hi']; [lia|].
  unfold write_log_body, log_of. rewrite kbind_get, (lg_dev _ _ _ _ _ Hlog1), (lg_start _ _ _ _ _ Hlog1).
  fold (log_blk start (length pre)). rewrite u32_blk by done.
  destruct (copy_to_log s1 p d c1 (log_blk start (length pre)) b (lh_block_at (length pre)))
    as (s2 & E & F2 & R2); try apply Q1; try done.
  - intros s2 F2. by eapply loop_block.
  - apply u32_blk, Hb.
  - apply home_not_log; [done|lia].
  - exists s2. split_and!; [done|done|done|apply quiet_log_put; [done|]; by rewrite (ql_log _ _ _ Q1)|].
    eapply Forall_impl; [exact Hrest|]. intros x [? ?]. split; [done|]. cbn. unfold fset.
    case_decide; subst; lia.
Qed.

Lemma install_ok s c bl rec :
  represents s p d c -> log_hdr s d start size bl -> quiet_log start size c -> NoDup bl ->
  (rec = 0 /\ Forall (fun b => home start size b /\ 1 <= ca_refs c b < 2 ^ 32 - 1) bl \/
   rec = 1 /\ Forall (fun b => home start size b /\ ca_refs c b = 0) bl /\
   ca_busy c + 1 < Z.of_nat NBUF) ->
  exists s', install_trans rec s = Done tt s' /\ bio_frame s s' /\
    represents s' p d (c_install start (1 - rec) bl c).
Proof.
  intros Hr Hlog Hq Hnd Hbl.
  apply (for_lh_refines (install_body rec) _ (fun _ rest c => quiet_log start size c /\ NoDup rest /\
    (rec = 0 /\ Forall (fun b => home start size b /\ 1 <= ca_refs c b < 2 ^ 32 - 1) rest \/
     rec = 1 /\ Forall (fun b => home start size b /\ ca_refs c b = 0) rest /\
     ca_busy c + 1 < Z.of_nat NBUF)) p d start size bl);
    [|done|done|done].
  intros pre b rest s1 c1 -> Hf R1 (Q1 & [Hnb Hnd1]%NoDup_cons & Hc).
  assert (log_hdr s1 d start size (pre ++ b :: rest)) as Hlog1
    by (eapply log_hdr_log; [by apply bio_frame_log|done]).
  pose proof (lg_fits _ _ _ _ _ Hlog) as Hfit. rewrite length_app in Hfit. cbn [length] in Hfit.
  destruct (log_blk_range (length pre)) as [Hi Hi']; [lia|].
  assert (home start size b) as Hb.
  { destruct Hc as [[_ [[? _] _]%Forall_cons]|(_ & [[? _] _]%Forall_cons & _)]; done. }
  unfold install_body, log_of. rewrite kbind_get, (lg_dev _ _ _ _ _ Hlog1), (lg_start _ _ _ _ _ Hlog1).
  fold (log_blk start (length pre)). rewrite u32_blk by done.
  destruct (copy_home s1 p d c1 (log_blk start (length pre)) b rec (lh_block_at (length pre)))
    as (s2 & E & F2 & R2); try apply Q1; try done.
  - intros s2 F2. by eapply loop_block.
  - apply u32_blk, Hb.
  - apply home_not_log; [done|lia].
  - destruct Hc as [[-> [[_ ?] _]%Forall_cons]|(-> & [[_ ?] _]%Forall_cons & ?)]; [left|right]; split_and!;
      try done; try apply Q1; lia.
  - exists s2. split_and!; [done|done|done| |done|].
    + apply quiet_log_put; [done|].
      destruct Hc as [[-> [[_ ?] _]%Forall_cons]|(-> & [[_ ->] _]%Forall_cons & _)]; lia.
    + destruct Hc as [[-> [[_ ?] Hc]%Forall_cons]|(-> & [[_ ?] Hc]%Forall_cons & ?)];
        [left; split; [done|]|right; split_and!; [done| |cbn; rewrite Z.sub_0_r; lia]];
        apply Forall_forall; intros x Hx; rewrite Forall_forall in Hc; destruct (Hc x Hx);
        (split; [done|]); cbn; rewrite fset_ne by (intros ->; done); done.
Qed.

Definition c_put_blk (i : nat) (b : Z) (c : cache) : cache :=
  c_set start (wr32 (ca_val c start) (4 + 4 * i) b) c.

Lemma fold_put_blk bl i c :
  ceq (fold_at c_put_blk i bl c) (c_set start (put_blocks i bl (ca_val c start)) c).
Proof.
  revert i c. induction bl as [|b bl IH]; intros i c; cbn [fold_at put_blocks].
  - ceq_solve.
  - rewrite IH. unfold c_put_blk. cbn [ca_val c_set]. rewrite fset_eq. ceq_solve.
Qed.

(** Filling in a held header buffer. *)
Lemma fill_head_ok s c b bl :
  represents s p d c -> (b, start) ∈ ca_held c -> log_hdr s d start size bl ->
  exists s', for_lh (fun i =>
      let! blk := lh_block_at i in
      set_buf b (fun x => x <| b_data ::= fun data => wr32 data (4 + 4 * i) blk |>)) s = Done tt s' /\
    bio_frame s s' /\ represents s' p d (c_set start (put_blocks 0 bl (ca_val c start)) c).
Proof.
  intros Hr Hin Hlog. pose proof (log_hdr_length _ _ _ _ _ Hlog) as Hlen.
  destruct (for_lh_refines (fun i =>
      let! blk := lh_block_at i in
      set_buf b (fun x => x <| b_data ::= fun data => wr32 data (4 + 4 * i) blk |>))
    c_put_blk (fun _ _ c => (b, start) ∈ ca_held c) p d start size bl s c)
    as (s' & E & F & R); [|done|done|done|].
  - intros pre x rest s1 c1 -> F1 R1 Hin1. erewrite kbind_done by (by eapply loop_block).
    destruct (set_data_refines s1 p d c1 b start (fun data => wr32 data (4 + 4 * length pre) x) R1 Hin1)
      as (s2 & E & F2 & R2); [|by exists s2].
    rewrite length_app in Hlen. cbn [length] in Hlen.
    rewrite length_wr32; rewrite (val_length _ _ _ _ _ R1); [done|].
    unfold LOGSIZE, MAXOPBLOCKS, BSIZE in *. lia.
  - exists s'. split_and!; [done|done|]. by rewrite <- fold_put_blk.
Qed.

Lemma write_head_ok s c bl :
  represents s p d c -> log_hdr s d start size bl -> quiet_log start size c ->
  exists s', write_head s = Done tt s' /\ bio_frame s s' /\ represents s' p d (c_write_head start bl c).
Proof.
  intros Hr Hlog Hq. pose proof Hgeo as (Hg1 & Hg2 & Hg3).
  unfold write_head, log_of. rewrite kbind_get, (lg_dev _ _ _ _ _ Hlog), (lg_start _ _ _ _ _ Hlog).
  rewrite u32_blk by lia. assert (ca_refs c start = 0) as Hz by (apply (ql_log _ _ _ Hq); lia).
  destruct (bread_refines s p d c start Hr) as (b & s1 & E1 & F1 & _ & R1);
    [rewrite (ql_held _ _ _ Hq); apply not_elem_of_nil|lia|intros _; apply Hq|]. kstep E1.
  rewrite (lg_n _ _ _ _ _ Hlog).
  destruct (set_data_refines s1 p d _ b start (fun data => wr32 data 0 (Z.of_nat (length bl))) R1)
    as (s2 & E2 & F2 & R2); [by left| |].
  { rewrite length_wr32; rewrite (val_length _ _ _ _ _ R1); [done|]. unfold BSIZE. lia. }
  kstep E2. destruct (fill_head_ok s2 _ b bl R2) as (s3 & E3 & F3 & R3);
    [by left|eapply log_hdr_log, Hlog; apply bio_frame_log; by rewrite F1|].
  kstep E3. destruct (bwrite_refines s3 p d _ b start R3) as (s4 & E4 & F4 & R4); [by left|].
  kstep E4. destruct (brelse_refines s4 p d _ b start [] R4) as (s5 & E5 & F5 & R5).
  { cbn. by rewrite (ql_held _ _ _ Hq). }
  { cbn. by rewrite !fset_eq, disk_at_insert_eq. }
  exists s5. split_and!; [done|by rewrite F1, F2, F3, F4|].
  eapply represents_proper; [|exact R5]. cbn. unfold c_write_head, c_put, write_hdr.
  pose proof (ql_held _ _ _ Hq). ceq_solve.
Qed.
End Phases.

(** ** Reading the header *)

Lemma represents_log s p d c l :
  represents s p d c -> represents (s <| ks_log := l |>) p d c.
Proof.
  intros [Hok ? ? ? ? ? ?]. split; try done. destruct Hok as [Hq ? ? [r Hring] ? ? ? ? ? ? ? ?].
  split; try done; [by apply (quiet_same s)|]. exists r. by apply (ring_links s).
Qed.

Lemma patch_step (l : list Z) i v vs :
  (i + S (length vs) <= length l)%nat -> patch (<[i := v]> l) (S i) vs = patch l i (v :: vs).
Proof.
  intros Hl. apply list_eq. intros j.
  rewrite !patch_lookup by (rewrite ?length_insert; cbn; lia). cbn [length].
  repeat case_decide; try lia.
  - replace (j - i)%nat with (S (j - S i)) by lia. done.
  - replace j with i by lia. rewrite list_lookup_insert_eq by lia. by rewrite Nat.sub_diag.
  - rewrite list_lookup_insert_ne by lia. done.
Qed.

Lemma take_patch (l vs : list Z) : take (length vs) (patch l 0 vs) = vs.
Proof. unfold patch. rewrite take_0. cbn [app]. by rewrite take_app_length. Qed.

Definition put_lh (i : nat) (vs : list Z) (s : kstate) : kstate :=
  s <| ks_log ::= upd log_lh (upd lh_block (fun l => patch l i vs)) |>.

Lemma read_loop data m i k s :
  lh_n (log_lh (ks_log s)) = Z.of_nat (i + m) ->
  (i + m <= length (lh_block (log_lh (ks_log s))))%nat -> (m < k)%nat ->
  loop k (fun i =>
    let! l := log_of in
    if Z.of_nat i <? lh_n (log_lh l)
    then set_lh_block_at i (hdr_block data i) ;; ret (inl (S i)) else ret (inr tt)) i s
  = Done tt (put_lh i (hdr_block data <$> seq i m) s).
Proof.
  revert i k s. induction m as [|m IH]; intros i k s Hn Hl Hk; (destruct k as [|k]; [lia|]).
  - apply loop_done. unfold log_of. rewrite kbind_get, Hn, (proj2 (Z.ltb_ge _ _)) by lia.
    unfold ret. apply f_equal. kstate_eq. destruct (ks_log s) as [? ? ? ? ? [n l]]. cbn.
    unfold set_log_lh, set_lh_block, patch. cbn. by rewrite Nat.add_0_r, take_drop.
  - destruct (lookup_lt_is_Some_2 (lh_block (log_lh (ks_log s))) i) as [x Hx]; [lia|].
    erewrite loop_next.
    2: { unfold log_of. rewrite kbind_get, Hn, (proj2 (Z.ltb_lt _ _)) by lia.
         unfold set_lh_block_at, lh_block_at, log_of. erewrite kbind_assoc_done.
         2: { rewrite kbind_get. by apply deref_some. }
         unfold set_lh, set_log. reflexivity. }
    rewrite IH; [|cbn; rewrite Hn; lia|cbn; rewrite length_insert; lia|lia].
    apply f_equal. kstate_eq. destruct (ks_log s) as [? ? ? ? ? [n l]]. cbn in *.
    unfold set_log_lh, set_lh_block. cbn. do 2 f_equal. apply patch_step.
    rewrite length_fmap, length_seq. lia.
Qed.

Record log_cfg (s : kstate) (d start size : Z) : Prop := mk_log_cfg {
  lc_dev : log_dev (ks_log s) = d;
  lc_start : log_start (ks_log s) = start;
  lc_size : log_size (ks_log s) = size;
  lc_len : length (lh_block (log_lh (ks_log s))) = Z.to_nat LOGSIZE
}.

(** A header block that a crash can leave: it lists at most as many blocks as
    the log holds, all of them home blocks. *)
Record hdr_ok (start size : Z) (h : list Z) : Prop := mk_hdr_ok {
  ho_n : 0 <= hdr_n h < size;
  ho_max : hdr_n h <= LOGSIZE;
  ho_home : Forall (home start size) (hdr_blocks h);
  ho_nodup : NoDup (hdr_blocks h)
}.

Section Recovery.
Context `{Fuel, BlockDevice}.
Context (p : nat) (d start size : Z) (Hgeo : geometry start size).

Lemma read_head_ok s c :
  represents s p d c -> log_cfg s d start size -> quiet_log start size c ->
  hdr_ok start size (ca_val c start) ->
  exists s', read_head s = Done tt s' /\ represents s' p d c /\
    log_hdr s' d start size (hdr_blocks (ca_val c start)).
Proof.
  intros Hr [Hdev Hst Hsz Hlen] Hq [Hn Hmax Hhome _]. destruct Hgeo as (Hg1 & Hg2 & Hg3).
  set (h := ca_val c start) in *.
  unfold read_head, log_of. rewrite kbind_get, Hdev, Hst, u32_blk by lia.
  assert (ca_refs c start = 0) as Hz by (apply (ql_log _ _ _ Hq); lia).
  destruct (bread_refines s p d c start Hr) as (b & s1 & E1 & F1 & _ & R1);
    [rewrite (ql_held _ _ _ Hq); apply not_elem_of_nil|lia|intros _; apply Hq|]. kstep E1.
  destruct (buf_of_held s1 p d _ b start R1) as (bf & E2 & Hv & _); [by left|]. kstep E2.
  cbn in Hv. fold h in Hv. rewrite Hv. unfold set_lh, set_log. rewrite kbind_modify.
  set (s2 := upd ks_log _ s1). assert (length (hdr_blocks h) = Z.to_nat (hdr_n h)) as Hbl.
  { unfold hdr_blocks. by rewrite length_fmap, length_seq. }
  assert (ks_log s1 = ks_log s) as Hls by (by apply bio_frame_log).
  unfold for_lh, log_of. rewrite kbind_kbind_get. erewrite kbind_done.
  2: { apply (read_loop h (Z.to_nat (hdr_n h))); cbn; rewrite ?Hls, ?Hlen; lia. }
  set (s3 := put_lh _ _ s2).
  assert (represents s3 p d (c_hold b start c)) as R3.
  { by apply (represents_log s2), (represents_log s1). }
  destruct (brelse_refines s3 p d _ b start [] R3) as (s4 & E4 & F4 & R4).
  { cbn. by rewrite (ql_held _ _ _ Hq). }
  { cbn. intros _. by eapply val_unref. }
  exists s4. split_and!; [done| |].
  - eapply represents_proper; [|exact R4]. pose proof (ql_held _ _ _ Hq). ceq_solve.
  - eapply log_hdr_log; [by apply bio_frame_log|].
    split; cbn; rewrite ?Hls; try done; rewrite ?Hbl; try lia.
    + fold (hdr_blocks h). rewrite <- Hbl. apply take_patch.
    + change (length (patch (lh_block (log_lh (ks_log s))) 0 (hdr_blocks h)) = Z.to_nat LOGSIZE).
      rewrite length_patch; rewrite ?Hbl, ?Hlen; lia.
Qed.
End Recovery.

(** ** Sequences of device writes *)

Definition apply_writes (D : gmap Z (list Z)) (ws : list (Z * list Z)) : gmap Z (list Z) :=
  foldl (fun D w => <[w.1 := w.2]> D) D ws.
Definition c_puts (ws : list (Z * list Z)) (k : Z) (c : cache) : cache :=
  foldl (fun c w => c_put w.1 w.2 k c) c ws.

Fixpoint log_writes (start : Z) (i : nat) (vs : list (list Z)) : list (Z * list Z) :=
  match vs with [] => [] | v :: vs => (log_blk start i, v) :: log_writes start (S i) vs end.
Definition log_vals (f : Z -> list Z) (start : Z) (i n : nat) : list (list Z) :=
  (fun j => f (log_blk start j)) <$> seq i n.

(** What commit writes for the blocks [bl] with contents [vs] over header [h],
    and what recovery writes over the disk [D]. *)
Definition commit_writes (start : Z) (bl : list Z) (vs : list (list Z)) (h : list Z) :=
  log_writes start 0 vs ++ (start, write_hdr bl h) :: zip bl vs ++
  [(start, write_hdr [] (write_hdr bl h))].
Definition recover_writes (start : Z) (D : gmap Z (list Z)) : list (Z * list Z) :=
  let h := disk_at D start in
  zip (hdr_blocks h) (log_vals (disk_at D) start 0 (length (hdr_blocks h))) ++
  [(start, write_hdr [] h)].

Lemma apply_writes_cons D n v ws : apply_writes D ((n, v) :: ws) = apply_writes (<[n := v]> D) ws.
Proof. done. Qed.
Lemma apply_writes_nil D : apply_writes D [] = D.
Proof. done. Qed.
Lemma c_puts_cons n v ws k c : c_puts ((n, v) :: ws) k c = c_puts ws k (c_put n v k c).
Proof. done. Qed.
#[local] Arguments apply_writes : simpl never.
#[local] Arguments c_puts : simpl never.

Lemma apply_writes_app D ws ws' : apply_writes D (ws ++ ws') = apply_writes (apply_writes D ws) ws'.
Proof. apply foldl_app. Qed.

Lemma apply_writes_other D ws n : (n ∉ ws.*1) -> disk_at (apply_writes D ws) n = disk_at D n.
Proof.
  revert D. induction ws as [|[m v] ws IH]; intros D Hn; [done|]. cbn in Hn.
  rewrite apply_writes_cons, IH by set_solver. apply disk_at_insert_ne. set_solver.
Qed.

Lemma apply_writes_at D ws n v :
  NoDup ws.*1 -> (n, v) ∈ ws -> disk_at (apply_writes D ws) n = v.
Proof.
  revert D. induction ws as [|[m w] ws IH]; intros D Hnd Hin; [by apply elem_of_nil in Hin|].
  cbn in *. apply NoDup_cons in Hnd as [Hm Hnd]. apply elem_of_cons in Hin as [E|Hin].
  - simplify_eq. rewrite apply_writes_cons, apply_writes_other by done. apply disk_at_insert_eq.
  - rewrite apply_writes_cons. by apply IH.
Qed.

Lemma puts_disk ws k c :
  ca_disk (c_puts ws k c) = apply_writes (ca_disk c) ws /\
  ca_writes (c_puts ws k c) = rev ws ++ ca_writes c.
Proof.
  revert c. induction ws as [|[n v] ws IH]; intros c; [done|].
  rewrite c_puts_cons. destruct (IH (c_put n v k c)) as [-> ->]. cbn. by rewrite <- app_assoc.
Qed.
Lemma puts_val_other ws k c n : (n ∉ ws.*1) -> ca_val (c_puts ws k c) n = ca_val c n.
Proof.
  revert c. induction ws as [|[m v] ws IH]; intros c Hn; [done|]. cbn in *.
  rewrite c_puts_cons, IH by set_solver. cbn. apply fset_ne. set_solver.
Qed.
Lemma puts_val_at ws k c n v : NoDup ws.*1 -> (n, v) ∈ ws -> ca_val (c_puts ws k c) n = v.
Proof.
  revert c. induction ws as [|[m w] ws IH]; intros c Hnd Hin; [by apply elem_of_nil in Hin|].
  cbn in *. apply NoDup_cons in Hnd as [Hm Hnd]. apply elem_of_cons in Hin as [E|Hin].
  - simplify_eq. rewrite c_puts_cons, puts_val_other by done. apply fset_eq.
  - rewrite c_puts_cons. by apply IH.
Qed.
Lemma puts_refs ws k c n :
  NoDup ws.*1 -> ca_refs (c_puts ws k c) n = ca_refs c n - if decide (n ∈ ws.*1) then k else 0.
Proof.
  revert c. induction ws as [|[m v] ws IH]; intros c Hnd.
  { rewrite decide_False by apply not_elem_of_nil. change (c_puts [] k c) with c. lia. }
  cbn in *. apply NoDup_cons in Hnd as [Hm Hnd]. rewrite c_puts_cons, IH by done. cbn. unfold fset.
  destruct (decide (n = m)) as [->|Hne].
  - rewrite decide_False, decide_True by (done || by left). lia.
  - destruct (decide (n ∈ ws.*1)); [rewrite decide_True by (by right)
      |rewrite decide_False by (intros [->|?]%elem_of_cons; done)]; lia.
Qed.
Lemma puts_held ws k c : ca_held (c_puts ws k c) = ca_held c.
Proof. revert c. induction ws as [|[n v] ws IH]; intros c; [done|]. by rewrite c_puts_cons, IH. Qed.
Lemma puts_busy ws c : ca_busy (c_puts ws 0 c) = ca_busy c.
Proof.
  revert c. induction ws as [|[n v] ws IH]; intros c; [done|]. rewrite c_puts_cons, IH. cbn.
  rewrite Z.sub_0_r. lia.
Qed.
Lemma puts_quiet start size ws k c :
  quiet_log start size c -> NoDup ws.*1 -> 0 <= k ->
  Forall (fun n => k <= ca_refs c n) ws.*1 -> quiet_log start size (c_puts ws k c).
Proof.
  revert c. induction ws as [|[n v] ws IH]; intros c Hq Hnd Hk Hr; [done|]. cbn in *.
  apply NoDup_cons in Hnd as [Hm Hnd]. apply Forall_cons in Hr as [Hn Hr].
  rewrite c_puts_cons. apply IH; [apply quiet_log_put; [done|lia]|done|done|].
  rewrite Forall_forall in *. intros x Hx. cbn. rewrite fset_ne by congruence. auto.
Qed.

Lemma log_writes_fst start i vs : (log_writes start i vs).*1 = log_blk start <$> seq i (length vs).
Proof. revert i. induction vs as [|v vs IH]; intros i; [done|]. cbn. by rewrite IH. Qed.
Lemma log_writes_in start vs j v i :
  vs !! j = Some v -> (log_blk start (i + j), v) ∈ log_writes start i vs.
Proof.
  revert i j. induction vs as [|w vs IH]; intros i [|j] Hj; try done; cbn.
  - simplify_eq/=. rewrite Nat.add_0_r. by left.
  - right. replace (i + S j)%nat with (S i + j)%nat by lia. by apply IH.
Qed.
Lemma log_writes_nodup start i vs : NoDup (log_writes start i vs).*1.
Proof.
  rewrite log_writes_fst. apply NoDup_fmap_2; [|apply NoDup_seq].
  intros x y Hxy. unfold log_blk in Hxy. lia.
Qed.

Section Phase_writes.
Context (start size : Z).

Lemma log_range_home n b i :
  home start size b -> Z.of_nat (i + n) < size -> b ∉ log_blk start <$> seq i n.
Proof.
  intros [_ Hb] Hn (j & -> & Hj%elem_of_seq)%list_elem_of_fmap. unfold log_blk in Hb. lia.
Qed.

Lemma write_log_puts bl i c :
  Forall (home start size) bl -> Z.of_nat (i + length bl) < size ->
  fold_at (fun i b c => c_put (log_blk start i) (ca_val c b) 0 c) i bl c
  = c_puts (log_writes start i (ca_val c <$> bl)) 0 c.
Proof.
  revert i c. induction bl as [|b bl IH]; intros i c Hb Hn; [done|].
  cbn [fold_at fmap list_fmap log_writes length] in *. apply Forall_cons in Hb as [Hb Hbl].
  rewrite c_puts_cons, IH by (done || lia). f_equal. f_equal. apply list_fmap_ext.
  intros j x Hj. cbn. apply fset_ne. rewrite Forall_forall in Hbl.
  destruct (Hbl x) as [_ Hx]; [by eapply list_elem_of_lookup_2|]. unfold log_blk. lia.
Qed.

Lemma install_puts k bl i c :
  Forall (home start size) bl -> Z.of_nat (i + length bl) < size ->
  fold_at (fun i b c => c_put b (ca_val c (log_blk start i)) k c) i bl c
  = c_puts (zip bl (log_vals (ca_val c) start i (length bl))) k c.
Proof.
  revert i c. induction bl as [|b bl IH]; intros i c Hb Hn; [done|].
  cbn [length] in *. apply Forall_cons in Hb as [[_ Hb] Hbl].
  change (log_vals (ca_val c) start i (S (length bl)))
    with (ca_val c (log_blk start i) :: log_vals (ca_val c) start (S i) (length bl)).
  cbn [fold_at zip zip_with]. rewrite c_puts_cons, IH by (done || lia). f_equal. f_equal.
  unfold log_vals. apply list_fmap_ext. intros j x (-> & Hj)%lookup_seq.
  apply fset_ne. unfold log_blk. lia.
Qed.

Lemma zip_fst (bl : list Z) (vs : list (list Z)) : length vs = length bl -> (zip bl vs).*1 = bl.
Proof. intros Hl. apply fst_zip. lia. Qed.

(** What commit does to the abstract cache: the device sees [commit_writes],
    every block keeps its contents, and the pins are gone. *)
Lemma commit_view bl c :
  quiet_log start size c -> Forall (home start size) bl -> NoDup bl ->
  Z.of_nat (length bl) < size ->
  let vs := ca_val c <$> bl in
  let c1 := c_write_log start bl c in
  let c2 := c_write_head start bl c1 in
  let ws := commit_writes start bl vs (ca_val c start) in
  c1 = c_puts (log_writes start 0 vs) 0 c /\
  c_install start 1 bl c2 = c_puts (zip bl vs) 1 c2 /\
  ca_disk (c_commit start bl c) = apply_writes (ca_disk c) ws /\
  ca_writes (c_commit start bl c) = rev ws ++ ca_writes c.
Proof.
  intros Hq Hh Hnd Hn vs c1 c2 ws.
  assert (length vs = length bl) as Hvs by (unfold vs; apply length_fmap).
  assert (c1 = c_puts (log_writes start 0 vs) 0 c) as E1 by (by apply write_log_puts).
  assert (log_vals (ca_val c2) start 0 (length bl) = vs) as E2.
  { apply list_eq. intros j. unfold log_vals. rewrite list_lookup_fmap.
    destruct (vs !! j) as [v|] eqn:Hj.
    - rewrite lookup_seq_lt by (rewrite <- Hvs; by eapply lookup_lt_Some). cbn. f_equal.
      rewrite fset_ne by (unfold log_blk; lia). rewrite E1.
      apply puts_val_at; [apply log_writes_nodup|]. by apply (log_writes_in start vs j v 0).
    - apply lookup_ge_None in Hj. rewrite lookup_seq_ge by lia. done. }
  assert (c_install start 1 bl c2 = c_puts (zip bl vs) 1 c2) as E3.
  { unfold c_install. by rewrite (install_puts 1 bl 0 c2), E2. }
  assert (ca_val c1 start = ca_val c start) as E4.
  { rewrite E1. apply puts_val_other. rewrite log_writes_fst.
    intros (j & Hj & _)%list_elem_of_fmap. unfold log_blk in Hj. lia. }
  assert (ca_val (c_puts (zip bl vs) 1 c2) start = write_hdr bl (ca_val c start)) as E5.
  { rewrite puts_val_other; [cbn; by rewrite fset_eq, E4|]. rewrite zip_fst by done.
    rewrite Forall_forall in Hh. intros Hin%Hh. destruct Hin. lia. }
  split_and!; [done|done|..].
  - unfold c_commit. fold c1. fold c2. rewrite E3. cbn. rewrite E5, (proj1 (puts_disk _ _ _)). cbn.
    rewrite E1, (proj1 (puts_disk _ _ _)), <- E1, E4. unfold ws, commit_writes.
    by rewrite apply_writes_app, apply_writes_cons, apply_writes_app.
  - unfold c_commit. fold c1. fold c2. rewrite E3. cbn. rewrite E5, (proj2 (puts_disk _ _ _)). cbn.
    rewrite E1, (proj2 (puts_disk _ _ _)), <- E1, E4. unfold ws, commit_writes.
    by rewrite rev_app_distr; cbn; rewrite rev_app_distr; cbn; rewrite <- !app_assoc.
Qed.
End Phase_writes.

Lemma log_hdr_empty s d start size bl :
  log_hdr s d start size bl -> log_hdr (s <| ks_log ::= upd log_lh (upd lh_n (fun _ => 0)) |>) d start size [].
Proof. intros []. split; cbn; try done. lia. Qed.

Section Transactions.
Context `{Fuel, BlockDevice}.
Context (p : nat) (d start size : Z) (Hgeo : geometry start size).

(** set_lh(n = 0) and write_head, at the end of a commit or a recovery. *)
Lemma clear_head_ok s c bl :
  represents s p d c -> log_hdr s d start size bl -> quiet_log start size c ->
  exists s', (set_lh (fun h => h <| lh_n := 0 |>) ;; write_head) s = Done tt s' /\
    represents s' p d (c_write_head start [] c) /\ log_hdr s' d start size [] /\
    log_outstanding (ks_log s') = log_outstanding (ks_log s).
Proof.
  intros Hr Hlog Hq. unfold set_lh, set_log. rewrite kbind_modify.
  set (s1 := upd ks_log _ s). assert (log_hdr s1 d start size []) as Hlog1 by (by eapply log_hdr_empty).
  destruct (write_head_ok p d start size Hgeo s1 c []) as (s2 & E & F & R);
    [by apply represents_log|done|done|].
  exists s2. split_and!; [done|done|eapply log_hdr_log; [by apply bio_frame_log|done]|].
  by rewrite (bio_frame_log _ _ F).
Qed.

Lemma commit_ok s c bl :
  represents s p d c -> log_hdr s d start size bl -> quiet_log start size c ->
  NoDup bl -> bl <> [] ->
  Forall (fun b => home start size b /\ 1 <= ca_refs c b < 2 ^ 32 - 1) bl ->
  exists s', commit s = Done tt s' /\ represents s' p d (c_commit start bl c) /\
    log_hdr s' d start size [] /\ log_outstanding (ks_log s') = log_outstanding (ks_log s).
Proof.
  intros Hr Hlog Hq Hnd Hne Hbl. assert (Forall (home start size) bl) as Hhome
    by (eapply Forall_impl; [exact Hbl|]; naive_solver).
  pose proof (lg_fits _ _ _ _ _ Hlog) as Hfit.
  destruct (commit_view start size bl c Hq Hhome Hnd Hfit) as (E1 & E2 & _ & _).
  unfold commit, log_of. rewrite kbind_get, when_true.
  2: { rewrite (lg_n _ _ _ _ _ Hlog). destruct bl; [done|]. apply Z.ltb_lt. cbn [length]. lia. }
  destruct (write_log_ok p d start size Hgeo s c bl Hr Hlog Hq Hbl) as (s1 & Es1 & F1 & R1).
  kstep Es1. set (c1 := c_write_log start bl c) in *.
  assert (forall b, ca_refs c1 b = ca_refs c b) as Hr1.
  { intros b. rewrite E1, puts_refs by apply log_writes_nodup. case_decide; lia. }
  assert (quiet_log start size c1) as Q1.
  { rewrite E1. apply puts_quiet; [done|apply log_writes_nodup|done|].
    rewrite log_writes_fst, Forall_forall. intros b (j & -> & Hj%elem_of_seq)%list_elem_of_fmap.
    rewrite length_fmap in Hj. rewrite (ql_log _ _ _ Hq); unfold log_blk; destruct Hgeo; lia. }
  assert (log_hdr s1 d start size bl) as Hlog1 by (eapply log_hdr_log; [by apply bio_frame_log|done]).
  destruct (write_head_ok p d start size Hgeo s1 c1 bl R1 Hlog1 Q1) as (s2 & Es2 & F2 & R2).
  kstep Es2. set (c2 := c_write_head start bl c1) in *.
  assert (forall b, ca_refs c2 b = ca_refs c b) as Hr2.
  { intros b. cbn. unfold fset. case_decide; subst; rewrite Hr1; lia. }
  assert (quiet_log start size c2) as Q2.
  { apply quiet_log_put; [done|]. rewrite (ql_log _ _ _ Q1); destruct Hgeo; lia. }
  assert (log_hdr s2 d start size bl) as Hlog2 by (eapply log_hdr_log; [by apply bio_frame_log|done]).
  destruct (install_ok p d start size Hgeo s2 c2 bl 0 R2 Hlog2 Q2 Hnd) as (s3 & Es3 & F3 & R3).
  { left. split; [done|]. eapply Forall_impl; [exact Hbl|]. intros b. cbv beta. by rewrite Hr2. }
  kstep Es3. rewrite <- (bio_frame_log s s3) by (by rewrite F1, F2).
  apply (clear_head_ok s3 (c_install start 1 bl c2) bl); [exact R3|eapply log_hdr_log; [by apply bio_frame_log|done]|].
  rewrite E2. apply puts_quiet; [done| |done|];
    rewrite zip_fst by apply length_fmap; [done|].
  eapply Forall_impl; [exact Hbl|]. intros b. cbv beta. rewrite Hr2. lia.
Qed.

(** After a crash the cache is cold: no block is referenced. *)
Definition cold (c : cache) : Prop :=
  ca_held c = [] /\ (forall b, ca_refs c b = 0) /\ ca_busy c = 0.

Lemma recover_ok s c :
  represents s p d c -> log_cfg s d start size -> cold c ->
  hdr_ok start size (disk_at (ca_disk c) start) ->
  exists s' c', recover_from_log s = Done tt s' /\ represents s' p d c' /\ cold c' /\
    log_hdr s' d start size [] /\
    ca_disk c' = apply_writes (ca_disk c) (recover_writes start (ca_disk c)).
Proof.
  intros Hr Hcfg (Hh & Hz & Hb) Hho.
  assert (forall n, ca_val c n = disk_at (ca_disk c) n) as Hval by (intros n; by eapply val_unref).
  assert (quiet_log start size c) as Hq by (split; [done|done|rewrite Hb; done]).
  rewrite <- Hval in Hho. set (h := ca_val c start) in *. pose proof Hho as [Hn Hmax Hhome Hnd].
  unfold recover_from_log.
  destruct (read_head_ok p d start size Hgeo s c Hr Hcfg Hq Hho) as (s1 & E1 & R1 & Hlog1). kstep E1.
  fold h in Hlog1. assert (Forall (fun b => home start size b /\ ca_refs c b = 0) (hdr_blocks h)) as Hbl.
  { eapply Forall_impl; [exact Hhome|]. auto. }
  destruct (install_ok p d start size Hgeo s1 c (hdr_blocks h) 1 R1 Hlog1 Hq Hnd) as (s2 & E2 & F2 & R2).
  { right. split_and!; [done|done|rewrite Hb; done]. }
  kstep E2. change (1 - 1) with 0 in R2.
  assert (length (hdr_blocks h) = Z.to_nat (hdr_n h)) as Hlen.
  { unfold hdr_blocks. by rewrite length_fmap, length_seq. }
  assert (c_install start 0 (hdr_blocks h) c
    = c_puts (zip (hdr_blocks h) (log_vals (ca_val c) start 0 (length (hdr_blocks h)))) 0 c) as E3.
  { unfold c_install. apply (install_puts start size); [done|rewrite Hlen; lia]. }
  set (ws := zip _ _) in E3.
  assert (ws.*1 = hdr_blocks h) as Hws.
  { apply zip_fst. unfold log_vals. by rewrite length_fmap, length_seq. }
  destruct (clear_head_ok s2 _ (hdr_blocks h) R2) as (s3 & E4 & R4 & Hlog4 & _).
  { eapply log_hdr_log; [by apply bio_frame_log|done]. }
  { rewrite E3. apply puts_quiet; [done|by rewrite Hws|done|].
    rewrite Hws. eapply Forall_impl; [exact Hbl|]. cbv beta. lia. }
  exists s3, (c_write_head start [] (c_install start 0 (hdr_blocks h) c)).
  rewrite E3. unfold c_write_head, cold. split_and!; [exact E4|by rewrite E3 in R4| | | |done|].
  - cbn. by rewrite puts_held.
  - intros b. cbn. unfold fset. case_decide; subst; rewrite puts_refs, Hz by (by rewrite Hws);
      case_decide; lia.
  - cbn. rewrite puts_busy, Z.sub_0_r. lia.
  - cbn. rewrite (proj1 (puts_disk _ _ _)). unfold recover_writes.
    rewrite apply_writes_app, <- Hval. fold h.
    rewrite puts_val_other; fold h.
    + rewrite apply_writes_cons. replace (log_vals (disk_at (ca_disk c)) start 0 _)
        with (log_vals (ca_val c) start 0 (length (hdr_blocks h))); [done|].
      apply list_fmap_ext. intros. apply Hval.
    + rewrite Hws. rewrite Forall_forall in Hhome. intros [_ ?]%Hhome. destruct Hgeo. lia.
Qed.
End Transactions.

(** ** Crashes

    A crash leaves the device with a prefix of the writes; recovery then runs
    on what is there. *)

Definition recovered (start : Z) (D : gmap Z (list Z)) : gmap Z (list Z) :=
  apply_writes D (recover_writes start D).

Lemma prefix_app_cases {X} (w a b : list X) x :
  w `prefix_of` a ++ x :: b -> w `prefix_of` a \/ exists w', w = a ++ x :: w' /\ w' `prefix_of` b.
Proof.
  revert w. induction a as [|y a IH]; intros w Hw; cbn in Hw.
  - destruct w as [|z w]; [left; apply prefix_nil|].
    apply prefix_cons_inv_1 in Hw as Hz. apply prefix_cons_inv_2 in Hw. subst. right. by exists w.
  - destruct w as [|z w]; [left; apply prefix_nil|].
    apply prefix_cons_inv_1 in Hw as Hz. apply prefix_cons_inv_2 in Hw. subst.
    destruct (IH w Hw) as [Hp|(w' & -> & Hp)]; [left; by apply prefix_cons|right]. by exists w'.
Qed.

Section Crash.
Context (start size : Z) (Hgeo : geometry start size).

Lemma home_start n : home start size n -> n <> start.
Proof. intros [_ ?] ->. destruct Hgeo. lia. Qed.

Lemma hdr_blocks_nil h : hdr_n h = 0 -> hdr_blocks h = [].
Proof. intros Hz. unfold hdr_blocks. by rewrite Hz. Qed.

Lemma hdr_ok_nil h : hdr_n h = 0 -> hdr_ok start size h.
Proof.
  intros Hz. split; rewrite ?(hdr_blocks_nil h) by done; rewrite ?Hz; try constructor;
    destruct Hgeo; unfold LOGSIZE, MAXOPBLOCKS; lia.
Qed.

(** With an empty header recovery leaves the home blocks alone. *)
Lemma recovered_empty D n :
  hdr_n (disk_at D start) = 0 -> home start size n -> disk_at (recovered start D) n = disk_at D n.
Proof.
  intros Hz Hn. unfold recovered, recover_writes. rewrite (hdr_blocks_nil _ Hz). cbn [zip zip_with app].
  rewrite apply_writes_cons. apply disk_at_insert_ne. by apply home_start.
Qed.

Context (D0 : gmap Z (list Z)) (bl : list Z) (vs : list (list Z)) (h : list Z).
Context (Hh0 : disk_at D0 start = h) (Hhn : hdr_n h = 0) (Hhl : length h = Z.to_nat BSIZE).
Context (Hbl : Forall (home start size) bl) (Hnd : NoDup bl) (Hvs : length vs = length bl).
Context (Hfit : Z.of_nat (length bl) < size) (Hmax : Z.of_nat (length bl) <= LOGSIZE).

Lemma bl_int32 : Forall int32 bl.
Proof. eapply Forall_impl; [exact Hbl|]. intros b [? _]. unfold int32. lia. Qed.

Lemma log_writes_home w n :
  w `prefix_of` log_writes start 0 vs -> n = start \/ home start size n -> n ∉ w.*1.
Proof.
  intros Hw Hn Hin. assert (n ∈ (log_writes start 0 vs).*1) as Hin'.
  { destruct Hw as [w' ->]. rewrite fmap_app. apply elem_of_app. by left. }
  rewrite log_writes_fst in Hin'. apply list_elem_of_fmap in Hin' as (j & -> & Hj%elem_of_seq).
  unfold log_blk in Hn. destruct Hn as [?|[_ ?]]; lia.
Qed.

(** Before the header write: the old contents. *)
Lemma crash_before w :
  w `prefix_of` log_writes start 0 vs ->
  let D := apply_writes D0 w in
  hdr_ok start size (disk_at D start) /\
  forall n, home start size n -> disk_at (recovered start D) n = disk_at D0 n.
Proof.
  intros Hw D. assert (disk_at D start = h) as Hs.
  { unfold D. rewrite apply_writes_other; [done|]. apply log_writes_home; auto. }
  split; [rewrite Hs; by apply hdr_ok_nil|]. intros n Hn. rewrite recovered_empty by (by rewrite ?Hs).
  apply apply_writes_other, log_writes_home; auto.
Qed.

(** Once the header is written: the new contents, however far installing got. *)
Lemma crash_installing w :
  w `prefix_of` zip bl vs ->
  let D := apply_writes D0 (log_writes start 0 vs ++ (start, write_hdr bl h) :: w) in
  hdr_ok start size (disk_at D start) /\
  forall n, home start size n ->
    disk_at (recovered start D) n = disk_at (apply_writes D0 (zip bl vs)) n.
Proof.
  intros Hw D. assert (forall n, n ∈ w.*1 -> n ∈ bl) as Hsub.
  { intros n Hn. rewrite <- (zip_fst bl vs Hvs). destruct Hw as [w' ->]. rewrite fmap_app.
    apply elem_of_app. by left. }
  assert (forall n, n ∈ bl -> home start size n) as Hhome by (by apply Forall_forall).
  assert (disk_at D start = write_hdr bl h) as Hs.
  { unfold D. rewrite apply_writes_app, apply_writes_cons, apply_writes_other.
    - apply disk_at_insert_eq.
    - intros Hin%Hsub%Hhome%home_start. done. }
  assert (hdr_blocks (write_hdr bl h) = bl) as Hb by (by apply hdr_blocks_write_hdr, bl_int32).
  assert (log_vals (disk_at D) start 0 (length bl) = vs) as Hlv.
  { apply list_eq. intros j. unfold log_vals. rewrite list_lookup_fmap.
    destruct (vs !! j) as [v|] eqn:Hj.
    - assert (j < length bl)%nat as Hlt by (rewrite <- Hvs; by eapply lookup_lt_Some).
      rewrite lookup_seq_lt by done. cbn. f_equal. unfold D.
      rewrite apply_writes_app, apply_writes_cons, apply_writes_other.
      2: { intros [_ Hin]%Hsub%Hhome. unfold log_blk in Hin. lia. }
      rewrite disk_at_insert_ne by (unfold log_blk; lia).
      apply apply_writes_at; [apply log_writes_nodup|]. by apply (log_writes_in start vs j v 0).
    - apply lookup_ge_None in Hj. by rewrite lookup_seq_ge by lia. }
  split.
  - rewrite Hs. split; rewrite ?hdr_n_write_hdr, ?Hb by done; (lia || done).
  - intros n Hn. unfold recovered, recover_writes. rewrite Hs, Hb, Hlv, apply_writes_app, apply_writes_cons, apply_writes_nil.
    rewrite disk_at_insert_ne by (by apply home_start).
    destruct (decide (n ∈ bl)) as [Hin|Hin].
    + rewrite <- (zip_fst bl vs Hvs) in Hin. apply list_elem_of_fmap in Hin as ([n' v] & -> & Hin).
      by rewrite !(apply_writes_at _ _ _ _ (ltac:(by rewrite zip_fst)) Hin).
    + rewrite !apply_writes_other by (by rewrite zip_fst). unfold D.
      rewrite apply_writes_app, apply_writes_cons, apply_writes_other by (intros ?%Hsub; done).
      rewrite disk_at_insert_ne by (by apply home_start).
      apply apply_writes_other, log_writes_home; auto.
Qed.

(** After the last write of a commit: the new contents. *)
Lemma crash_after :
  let D := apply_writes D0 (commit_writes start bl vs h) in
  hdr_ok start size (disk_at D start) /\
  (forall n, home start size n -> disk_at D n = disk_at (apply_writes D0 (zip bl vs)) n) /\
  forall n, home start size n ->
    disk_at (recovered start D) n = disk_at (apply_writes D0 (zip bl vs)) n.
Proof.
  intros D. assert (disk_at D start = write_hdr [] (write_hdr bl h)) as Hs.
  { unfold D, commit_writes. rewrite apply_writes_app, apply_writes_cons, apply_writes_app,
      apply_writes_cons. apply disk_at_insert_eq. }
  assert (hdr_n (disk_at D start) = 0) as Hz.
  { rewrite Hs. apply hdr_n_write_hdr; [done|]. by apply length_write_hdr. }
  assert (forall n, home start size n -> disk_at D n = disk_at (apply_writes D0 (zip bl vs)) n) as HD.
  { intros n Hn. unfold D, commit_writes. rewrite apply_writes_app, apply_writes_cons, apply_writes_app,
      apply_writes_cons, apply_writes_nil, disk_at_insert_ne by (by apply home_start).
    destruct (decide (n ∈ bl)) as [Hin|Hin].
    - rewrite <- (zip_fst bl vs Hvs) in Hin. apply list_elem_of_fmap in Hin as ([n' v] & -> & Hin).
      by rewrite !(apply_writes_at _ _ _ _ (ltac:(by rewrite zip_fst)) Hin).
    - rewrite !(apply_writes_other _ (zip bl vs)) by (by rewrite zip_fst).
      rewrite disk_at_insert_ne by (by apply home_start). apply apply_writes_other, log_writes_home; auto. }
  split_and!; [by apply hdr_ok_nil|done|]. intros n Hn. by rewrite recovered_empty, HD.
Qed.

(** Every crash point of a commit recovers to the old or to the new contents. *)
Lemma crash_any w :
  w `prefix_of` commit_writes start bl vs h ->
  let D := apply_writes D0 w in
  hdr_ok start size (disk_at D start) /\
  ((forall n, home start size n -> disk_at (recovered start D) n = disk_at D0 n) \/
   (forall n, home start size n ->
      disk_at (recovered start D) n = disk_at (apply_writes D0 (zip bl vs)) n)).
Proof.
  intros Hw D. apply prefix_app_cases in Hw as [Hw|(w' & -> & Hw)].
  { destruct (crash_before w Hw) as [? ?]. auto. }
  apply prefix_app_cases in Hw as [Hw|(w2 & -> & Hw)].
  { destruct (crash_installing w' Hw) as [? ?]. auto. }
  apply prefix_nil_inv in Hw as ->.
  destruct crash_after as (? & _ & ?). auto.
Qed.
End Crash.

(** ** Transactions *)

(** The state in which end_op calls commit: the blocks [bl] are recorded and
    pinned, every other home block is clean, the header on disk is empty, and
    a buffer is free. *)
Record in_transaction (s : kstate) (p : nat) (d start size : Z) (bl : list Z) (c : cache) : Prop :=
  mk_in_transaction {
    it_rep : represents s p d c;
    it_log : log_hdr s d start size bl;
    it_quiet : quiet_log start size c;
    it_nodup : NoDup bl;
    it_pinned : Forall (fun b => home start size b /\ 1 <= ca_refs c b < 2 ^ 32 - 1) bl;
    it_hdr : hdr_n (disk_at (ca_disk c) start) = 0;
    it_clean n : home start size n -> (n ∉ bl) -> ca_val c n = disk_at (ca_disk c) n
  }.

(** A machine started on the disk [D]: initlog has read the superblock. *)
Record booted (s : kstate) (p : nat) (d start size : Z) (D : gmap Z (list Z)) : Prop := mk_booted {
  bt_rep : exists c, represents s p d c /\ cold c;
  bt_cfg : log_cfg s d start size;
  bt_disk : ks_disk s = D
}.

Section Atomicity.
Context `{Fuel, BlockDevice}.

Lemma new_contents start size s p d bl c n :
  in_transaction s p d start size bl c -> home start size n ->
  disk_at (apply_writes (ca_disk c) (zip bl (ca_val c <$> bl))) n = cval s d n.
Proof.
  intros Ht Hn. rewrite (rp_val _ _ _ _ (it_rep _ _ _ _ _ _ _ Ht)).
  assert (length (ca_val c <$> bl) = length bl) as Hl by apply length_fmap.
  destruct (decide (n ∈ bl)) as [Hin|Hin].
  - apply apply_writes_at; [rewrite zip_fst by done; apply (it_nodup _ _ _ _ _ _ _ Ht)|].
    apply list_elem_of_lookup in Hin as [j Hj]. apply list_elem_of_lookup. exists j.
    rewrite lookup_zip_with, list_lookup_fmap, Hj. done.
  - rewrite apply_writes_other by (by rewrite zip_fst). symmetry. by apply (it_clean _ _ _ _ _ _ _ Ht).
Qed.

Lemma boot_recovers p d start size s D :
  geometry start size -> booted s p d start size D -> hdr_ok start size (disk_at D start) ->
  exists s', recover_from_log s = Done tt s' /\ forall n, dblock s' n = disk_at (recovered start D) n.
Proof.
  intros Hg [(c & Hr & Hc) Hcfg HD] Hho. rewrite (rp_disk _ _ _ _ Hr) in HD. subst D.
  destruct (recover_ok p d start size Hg s c Hr Hcfg Hc Hho) as (s' & c' & E & R & _ & _ & Hd).
  exists s'. split; [done|]. intros n. unfold recovered. rewrite <- Hd, <- (rp_disk _ _ _ _ R). done.
Qed.

(** With nothing logged, commit does nothing and a crash finds nothing. *)
Lemma commit_nothing s p d start size c :
  geometry start size -> in_transaction s p d start size [] c ->
  exists s' ws, commit s = Done tt s' /\ ks_dwrites s' = rev ws ++ ks_dwrites s /\
    (forall n, home start size n -> dblock s' n = cval s d n) /\
    forall w p' s1, w `prefix_of` ws ->
      booted s1 p' d start size (apply_writes (ks_disk s) w) ->
      exists s1', recover_from_log s1 = Done tt s1' /\
        ((forall n, home start size n -> dblock s1' n = dblock s n) \/
         (forall n, home start size n -> dblock s1' n = cval s d n)) /\
        (w = ws -> forall n, home start size n -> dblock s1' n = cval s d n).
Proof.
  intros Hg Ht. pose proof Ht as [Hr Hlog Hq Hnd Hpin Hhdr Hclean].
  assert (forall n, disk_at (ca_disk c) n = dblock s n) as Hdb.
  { intros n. by rewrite <- (rp_disk _ _ _ _ Hr). }
  assert (forall n, home start size n -> dblock s n = cval s d n) as Hc.
  { intros n Hn. rewrite (rp_val _ _ _ _ Hr), Hclean, Hdb; [done|done|]. apply not_elem_of_nil. }
  exists s, []. split_and!; [|done|done|].
  - unfold commit, log_of. rewrite kbind_get. apply when_false. by rewrite (lg_n _ _ _ _ _ Hlog).
  - intros w p' s1 ->%prefix_nil_inv Hb. rewrite apply_writes_nil in Hb.
    destruct (boot_recovers _ _ _ _ _ _ Hg Hb) as (s1' & E & Hd).
    { rewrite (rp_disk _ _ _ _ Hr). by apply hdr_ok_nil. }
    assert (forall n, home start size n -> dblock s1' n = dblock s n) as Ho.
    { intros n Hn. rewrite Hd, (recovered_empty start size Hg); [done| |done]. by rewrite (rp_disk _ _ _ _ Hr). }
    exists s1'. split_and!; [done|by left|]. intros _ n Hn. by rewrite Ho, Hc.
Qed.

(** C1: commit() makes the transaction atomic and durable.  It runs
    to completion; whichever prefix [w] of the block writes it issued has
    reached the device when the machine stops, the recover_from_log() of the
    next boot completes and leaves every block outside the log either with
    its contents on disk before the commit, for all of them, or with its
    contents in the cache at the commit, for all of them; and once commit()
    has returned it is the latter. *)
Theorem commit_atomic p d start size s bl c :
  geometry start size -> in_transaction s p d start size bl c ->
  exists s' ws, commit s = Done tt s' /\ ks_dwrites s' = rev ws ++ ks_dwrites s /\
    (forall n, home start size n -> dblock s' n = cval s d n) /\
    forall w p' s1, w `prefix_of` ws ->
      booted s1 p' d start size (apply_writes (ks_disk s) w) ->
      exists s1', recover_from_log s1 = Done tt s1' /\
        ((forall n, home start size n -> dblock s1' n = dblock s n) \/
         (forall n, home start size n -> dblock s1' n = cval s d n)) /\
        (w = ws -> forall n, home start size n -> dblock s1' n = cval s d n).
Proof.
  intros Hg Ht. pose proof Ht as [Hr Hlog Hq Hnd Hpin Hhdr Hclean].
  set (vs := ca_val c <$> bl). set (h := ca_val c start).
  assert (Forall (home start size) bl) as Hhome by (eapply Forall_impl; [exact Hpin|]; naive_solver).
  assert (disk_at (ca_disk c) start = h) as Hh.
  { symmetry. eapply val_unref; [exact Hr|]. apply (ql_log _ _ _ Hq). destruct Hg. lia. }
  assert (length vs = length bl) as Hvs by apply length_fmap.
  assert (length h = Z.to_nat BSIZE) as Hhl by (by eapply val_length).
  rewrite Hh in Hhdr. pose proof (lg_fits _ _ _ _ _ Hlog) as Hfit.
  pose proof (log_hdr_length _ _ _ _ _ Hlog) as Hmax.
  assert (forall n, disk_at (ca_disk c) n = dblock s n) as Hdb.
  { intros n. by rewrite <- (rp_disk _ _ _ _ Hr). }
  destruct (decide (bl = [])) as [->|Hne]; [exact (commit_nothing s p d start size c Hg Ht)|].
  destruct (commit_ok p d start size Hg s c bl Hr Hlog Hq Hnd Hne Hpin) as (s' & E & R & _ & _).
  destruct (commit_view start size bl c Hq Hhome Hnd Hfit) as (_ & _ & HD & HW).
  fold vs h in HD, HW. set (ws := commit_writes start bl vs h) in *.
  destruct (crash_after start size Hg (ca_disk c) bl vs h) as (_ & Hdone & Hrec); [done..|].
  assert (forall n, home start size n ->
    disk_at (apply_writes (ca_disk c) (zip bl vs)) n = cval s d n) as Hnew.
  { intros n Hn. by eapply new_contents. }
  exists s', ws. split_and!; [done| | |].
  - by rewrite (rp_writes _ _ _ _ R), HW, (rp_writes _ _ _ _ Hr).
  - intros n Hn. change (dblock s' n) with (disk_at (ks_disk s') n).
    by rewrite (rp_disk _ _ _ _ R), HD, Hdone, Hnew.
  - intros w p' s1 Hw Hb. rewrite (rp_disk _ _ _ _ Hr) in Hb.
    destruct (crash_any start size Hg (ca_disk c) bl vs h) with (w := w) as [Hho Hcr]; [done..|].
    destruct (boot_recovers _ _ _ _ _ _ Hg Hb Hho) as (s1' & E1 & Hd1). exists s1'. split_and!; [done| |].
    + destruct Hcr as [Ho|Hn]; [left|right]; intros n Hhn; rewrite Hd1.
      * by rewrite Ho, Hdb.
      * by rewrite Hn, Hnew.
    + intros -> n Hn. by rewrite Hd1, Hrec, Hnew.
Qed.
End Atomicity.

(** ** log_write *)

Section Log_write.
Context `{Fuel, BlockDevice}.

Lemma bref_eq s b bf g :
  hart_ok s -> lock_free L_bcache s -> ks_bufs s !! b = Some bf ->
  (acquire L_bcache ;; set_buf b (fun x => x <| b_refcnt ::= g |>) ;; release L_bcache) s
  = Done tt (s <| ks_bufs ::= alter (fun x => x <| b_refcnt ::= g |>) b |>).
Proof.
  intros Hs Hl Hb. kstep acquire_ok; [|done..]. kstep set_buf_ok; [|done].
  restate (acq L_bcache (s <| ks_bufs ::= alter (fun x => x <| b_refcnt ::= g |>) b |>)).
  by apply release_acq.
Qed.

Lemma log_of_acq {X} (m : logst -> K X) lk s : kbind log_of m (acq lk s) = m (ks_log s) (acq lk s).
Proof. done. Qed.

Definition log_added (n : Z) (bl : list Z) : list Z := if decide (n ∈ bl) then bl else bl ++ [n].
Definition c_pinned (n : Z) (bl : list Z) (c : cache) : cache :=
  if decide (n ∈ bl) then c else c_refs n (ca_refs c n + 1) c.

Lemma absorb_in bl n :
  Forall (fun b => 0 <= b < 2 ^ 31) bl ->
  (n ∈ bl -> bl !! absorb bl n = Some n) /\ ((n ∉ bl) -> absorb bl n = length bl).
Proof.
  induction bl as [|b bl IH]; intros Hr; [split; [by intros []%elem_of_nil|done]|].
  apply Forall_cons in Hr as [Hb Hr]. destruct (IH Hr) as [IH1 IH2]. cbn [absorb].
  rewrite u32_blk by done. destruct (Z.eqb_spec b n) as [->|Hne]; split; cbn.
  - done.
  - intros Hn. destruct Hn. by left.
  - intros [->|Hin]%elem_of_cons; [done|]. by apply IH1.
  - intros Hn. rewrite IH2; [done|]. intros Hin. apply Hn. by right.
Qed.

(** Only the cache and the log change. *)
Definition log_frame (s s' : kstate) : Prop :=
  s' = s <| ks_bufs := ks_bufs s' |> <| ks_bhead_prev := ks_bhead_prev s' |>
         <| ks_bhead_next := ks_bhead_next s' |> <| ks_slocks := ks_slocks s' |>
         <| ks_disk := ks_disk s' |> <| ks_dwrites := ks_dwrites s' |> <| ks_log := ks_log s' |>.
#[global] Instance log_frame_preorder : PreOrder log_frame.
Proof.
  split; [intros s; unfold log_frame; kstate_eq|].
  intros s1 s2 s3 H12 H23. unfold log_frame in *. rewrite H23, H12. kstate_eq.
Qed.
Lemma bio_log_frame s s' : bio_frame s s' -> log_frame s s'.
Proof. unfold bio_frame, log_frame. intros ->. kstate_eq. Qed.

(** The log after log_write has recorded block [n]. *)
Definition logged (n : Z) (bl : list Z) (s : kstate) : kstate :=
  if decide (n ∈ bl) then s else
  s <| ks_log ::= upd log_lh (fun h => mk_logheader (lh_n h + 1) (<[length bl := n]> (lh_block h))) |>.

Lemma log_hdr_logged s d start size bl n :
  log_hdr s d start size bl -> Z.of_nat (length bl) < size - 1 -> Z.of_nat (length bl) < LOGSIZE ->
  log_hdr (logged n bl s) d start size (log_added n bl).
Proof.
  intros [] Hsz Hmax. unfold logged, log_added. case_decide; [by split|].
  assert (length bl < length (lh_block (log_lh (ks_log s))))%nat as Hlt
    by (unfold LOGSIZE, MAXOPBLOCKS in *; lia).
  split; cbn; try done.
  - rewrite length_app. cbn. lia.
  - rewrite length_app, lg_n0. cbn. lia.
  - rewrite length_app, Nat.add_1_r. rewrite (take_S_r _ _ n) by (by apply list_lookup_insert_eq).
    rewrite take_insert_ge by lia. by rewrite lg_blocks0.
  - by rewrite length_insert.
Qed.

Lemma absorb_le bl n : (absorb bl n <= length bl)%nat.
Proof. induction bl as [|b bl IH]; cbn [absorb length]; [lia|]. case_match; lia. Qed.

(** log_write past its guards: the slot is written and, when it is a new one,
    the buffer is pinned and the count raised. *)
Lemma log_write_slot s p d c start size bl b n :
  represents s p d c -> log_hdr s d start size bl -> (b, n) ∈ ca_held c -> 0 <= n < 2 ^ 31 ->
  1 <= log_outstanding (ks_log s) ->
  Z.of_nat (length bl) < size - 1 -> Z.of_nat (length bl) < LOGSIZE ->
  log_write b s =
  (when (Z.of_nat (absorb bl n) =? Z.of_nat (length bl))
     (bpin b ;; set_lh (fun h => h <| lh_n ::= Z.add 1 |>)) ;;
   release L_log)
    (acq L_log (s <| ks_log ::= fun l => l <| log_lh ::= fun h => h <| lh_block ::= <[absorb bl n := n]> |> |> |>)).
Proof.
  intros Hr Hlog Hin Hn Hout Hsz Hmax.
  pose proof (bo_quiet _ _ _ _ (rp_ok _ _ _ _ Hr)) as Hq.
  pose proof (q_hart _ _ Hq) as Hs. pose proof (q_locks _ _ Hq L_log eq_refl) as Hl.
  destruct (held_buf _ _ _ _ _ _ Hr Hin) as (bf & Hb & _ & Hbn & _ & Hbr & _).
  unfold log_write, log_of. kstep acquire_ok; [|done..]. rewrite kbind_get.
  change (ks_log (acq L_log s)) with (ks_log s). rewrite (lg_n _ _ _ _ _ Hlog), (lg_size _ _ _ _ _ Hlog).
  rewrite (proj2 (Z.leb_gt _ _)), (proj2 (Z.leb_gt _ _)) by lia. cbn [orb].
  rewrite (proj2 (Z.ltb_ge _ _)) by lia. kstep buf_of_ok; [|done].
  rewrite Nat2Z.id, (lg_blocks _ _ _ _ _ Hlog), Hbn.
  assert (i32 n = n) as Hi by (apply i32_small; lia).
  assert (absorb bl n < length (lh_block (log_lh (ks_log s))))%nat as Hlt.
  { pose proof (absorb_le bl n). rewrite (lg_len _ _ _ _ _ Hlog). unfold LOGSIZE, MAXOPBLOCKS in *. lia. }
  destruct (lookup_lt_is_Some_2 _ _ Hlt) as [x Hx].
  unfold set_lh_block_at, lh_block_at, log_of. erewrite kbind_assoc_done.
  2: { rewrite kbind_get. by apply deref_some. }
  unfold set_lh, set_log. by rewrite kbind_modify, Hi.
Qed.

Lemma log_write_ok s p d c start size bl b n :
  represents s p d c -> log_hdr s d start size bl -> (b, n) ∈ ca_held c ->
  Forall (fun b => 0 <= b < 2 ^ 31) bl -> 0 <= n < 2 ^ 31 -> 0 <= ca_refs c n < 2 ^ 32 - 1 ->
  1 <= log_outstanding (ks_log s) ->
  Z.of_nat (length bl) < size - 1 -> Z.of_nat (length bl) < LOGSIZE ->
  exists s', log_write b s = Done tt s' /\ represents s' p d (c_pinned n bl c) /\
    log_hdr s' d start size (log_added n bl) /\
    log_outstanding (ks_log s') = log_outstanding (ks_log s) /\
    log_committing (ks_log s') = log_committing (ks_log s) /\ log_frame s s'.
Proof.
  intros Hr Hlog Hin Hbl Hn Hrf Hout Hsz Hmax.
  pose proof (bo_quiet _ _ _ _ (rp_ok _ _ _ _ Hr)) as Hq.
  pose proof (q_hart _ _ Hq) as Hs. pose proof (q_locks _ _ Hq L_log eq_refl) as Hl.
  rewrite (log_write_slot s p d c start size bl b n) by done. destruct (absorb_in bl n Hbl) as [Habs1 Habs2].
  assert (log_hdr (logged n bl s) d start size (log_added n bl)) as Hlog' by (by apply log_hdr_logged).
  exists (if decide (n ∈ bl) then s else
    logged n bl (s <| ks_bufs ::= alter (fun x => x <| b_refcnt ::= fun r => u32 (r + 1) |>) b |>)).
  unfold c_pinned, log_added, logged in *. destruct (decide (n ∈ bl)) as [E|E].
  - split_and!; [|done|done|done|done|reflexivity].
    assert (bl !! absorb bl n = Some n) as Ha by auto.
    rewrite (proj2 (Z.eqb_neq _ _)).
    2: { apply lookup_lt_Some in Ha. lia. }
    cbn [when]. rewrite kbind_ret. restate (acq L_log s); [by apply release_acq|].
    destruct (ks_log s) as [? ? ? ? ? [? lb]] eqn:El. destruct Hlog as [_ _ _ _ _ Hbk _].
    rewrite El in *. cbn in *. unfold set_log_lh, set_lh_block. cbn. do 2 f_equal.
    apply list_insert_id. rewrite <- Hbk in Ha at 2. by apply lookup_take_Some in Ha as [? _].
  - destruct (held_buf _ _ _ _ _ _ Hr Hin) as (bf & Hb & _).
    destruct (bpin_refines s p d c b n Hr Hin Hrf) as (s' & Ep & _ & Rp).
    unfold bpin in Ep. rewrite (bref_eq s b bf _ Hs (q_locks _ _ Hq L_bcache eq_refl) Hb) in Ep.
    injection Ep as <-. split_and!.
    + rewrite Habs2, Z.eqb_refl by done. cbn [when]. unfold bpin.
      erewrite kbind_assoc_done.
      2: { apply (bref_eq _ b bf); [by apply hart_ok_acq|by apply lock_free_acq; [|apply (q_locks _ _ Hq)]|done]. }
      cbn [obind]. unfold set_lh, set_log. rewrite kbind_modify.
      match goal with |- _ = Done tt ?s2 => restate (acq L_log s2) end.
      * by apply release_acq.
      * destruct (ks_log s) as [? ? ? ? ? [m lb]]. cbn. unfold set_log_lh, set_lh_block, set_lh_n. cbn.
        by rewrite (Z.add_comm 1).
    + eapply represents_log in Rp. exact Rp.
    + eapply log_hdr_log; [|exact Hlog']. done.
    + done.
    + done.
    + unfold log_frame. kstate_eq.
Qed.

(** C31: log_write(b) on every branch: with the log full or outside
    a transaction it panics; otherwise it records the block of [b] in the
    header and pins its buffer, once however often it is called (log
    absorption), and changes nothing else in the cache. *)
Theorem log_write_correct s p d c start size bl b n :
  represents s p d c -> log_hdr s d start size bl -> (b, n) ∈ ca_held c ->
  Forall (fun b => 0 <= b < 2 ^ 31) bl -> 0 <= n < 2 ^ 31 -> 0 <= ca_refs c n < 2 ^ 32 - 1 ->
  if decide (LOGSIZE <= Z.of_nat (length bl) \/ size - 1 <= Z.of_nat (length bl))
  then log_write b s = Panic "too big a transaction"
  else if decide (log_outstanding (ks_log s) < 1)
  then log_write b s = Panic "log_write outside of trans"
  else exists s', log_write b s = Done tt s' /\ represents s' p d (c_pinned n bl c) /\
    log_hdr s' d start size (log_added n bl) /\
    log_outstanding (ks_log s') = log_outstanding (ks_log s) /\
    log_committing (ks_log s') = log_committing (ks_log s) /\ log_frame s s'.
Proof.
  intros Hr Hlog Hin Hbl Hn Hrf. pose proof (bo_quiet _ _ _ _ (rp_ok _ _ _ _ Hr)) as Hq.
  case_decide as Hfull; [|case_decide as Ho; [|by apply log_write_ok; lia || done]].
  - unfold log_write. kstep acquire_ok; [|apply (q_hart _ _ Hq)|by apply (q_locks _ _ Hq)].
    rewrite log_of_acq, (lg_n _ _ _ _ _ Hlog), (lg_size _ _ _ _ _ Hlog).
    destruct (Z.leb_spec LOGSIZE (Z.of_nat (length bl))), (Z.leb_spec (size - 1) (Z.of_nat (length bl)));
      [done..|lia].
  - unfold log_write. kstep acquire_ok; [|apply (q_hart _ _ Hq)|by apply (q_locks _ _ Hq)].
    rewrite log_of_acq, (lg_n _ _ _ _ _ Hlog), (lg_size _ _ _ _ _ Hlog).
    rewrite (proj2 (Z.leb_gt _ _)), (proj2 (Z.leb_gt _ _)) by lia. cbn [orb].
    by rewrite (proj2 (Z.ltb_lt _ _)) by lia.
Qed.


(** C38: begin_op() enters the transaction at once exactly when no
    commit is running and MAXOPBLOCKS blocks for it and for every running
    operation still fit; it then counts itself.  Otherwise it gives up the
    processor, with the log's lock released and asleep on the log. *)
Theorem begin_op_admission s p cp pr :
  on_cpu s p cp pr -> lock_free L_log s ->
  if decide (log_committing (ks_log s) = 0 /\
             lh_n (log_lh (ks_log s)) + (log_outstanding (ks_log s) + 1) * MAXOPBLOCKS <= LOGSIZE)
  then begin_op s = Done tt (s <| ks_log ::= upd log_outstanding (Z.add 1) |>)
  else exists k, begin_op s = Yield (Swtch p) (acq (L_proc p) (s <| ks_proc ::= alter (fun x =>
           x <| p_chan := Some Ch_log |> <| p_state := SLEEPING |>) p |>)) k.
Proof.
  intros Hon Hl. pose proof (oc_hart _ _ _ _ Hon) as Hs.
  pose proof fuel_pos. unfold begin_op. kstep acquire_ok; [|done..]. destruct fuel as [|f]; [lia|].
  case_decide as Hc.
  - destruct Hc as [Hc Hsp]. erewrite loop_done; [done|]. rewrite log_of_acq, Hc. cbn [z2b Z.eqb negb].
    rewrite (proj2 (Z.ltb_ge _ _)) by lia. unfold set_log. rewrite kbind_modify.
    erewrite kbind_done; [done|].
    restate (acq L_log (s <| ks_log ::= upd log_outstanding (Z.add 1) |>)). by apply release_acq.
  - destruct (sleep_yields s p cp pr Ch_log L_log Hon Hl) as (k & Ek & _); [done|].
    cbn [loop]. unfold kbind at 1. rewrite log_of_acq. unfold z2b.
    destruct (Z.eqb_spec (log_committing (ks_log s)) 0); cbn [negb].
    + rewrite (proj2 (Z.ltb_lt _ _)) by lia. unfold kbind at 1. rewrite Ek. by eexists.
    + unfold kbind at 1. rewrite Ek. by eexists.
Qed.

Lemma in_transaction_log s p d start size bl c f :
  log_lh (f (ks_log s)) = log_lh (ks_log s) -> log_dev (f (ks_log s)) = log_dev (ks_log s) ->
  log_start (f (ks_log s)) = log_start (ks_log s) -> log_size (f (ks_log s)) = log_size (ks_log s) ->
  in_transaction s p d start size bl c -> in_transaction (s <| ks_log ::= f |>) p d start size bl c.
Proof.
  intros Hl1 Hl2 Hl3 Hl4 [Hr [] Hq Hnd Hpin Hhdr Hclean]. split; try done.
  - by apply (represents_log s).
  - split; cbn; rewrite ?Hl1, ?Hl2, ?Hl3, ?Hl4; done.
Qed.

Lemma commit_done p d start size s bl c :
  geometry start size -> in_transaction s p d start size bl c ->
  exists s', commit s = Done tt s' /\ quiet s' p /\ log_hdr s' d start size [] /\
    log_outstanding (ks_log s') = log_outstanding (ks_log s) /\
    forall n, home start size n -> dblock s' n = cval s d n.
Proof.
  intros Hg Ht. pose proof Ht as [Hr Hlog Hq Hnd Hpin Hhdr Hclean].
  assert (disk_at (ca_disk c) start = ca_val c start) as Hh.
  { symmetry. eapply val_unref; [exact Hr|]. apply (ql_log _ _ _ Hq). destruct Hg. lia. }
  destruct (decide (bl = [])) as [->|Hne].
  { exists s. split_and!; [|apply (bo_quiet _ _ _ _ (rp_ok _ _ _ _ Hr))|done|done|].
    - unfold commit, log_of. rewrite kbind_get. apply when_false. by rewrite (lg_n _ _ _ _ _ Hlog).
    - intros n Hn. rewrite (rp_val _ _ _ _ Hr), Hclean by (done || apply not_elem_of_nil).
      by rewrite <- (rp_disk _ _ _ _ Hr). }
  destruct (commit_ok p d start size Hg s c bl Hr Hlog Hq Hnd Hne Hpin) as (s' & E & R & Hlog' & Hout).
  assert (Forall (home start size) bl) as Hhome by (eapply Forall_impl; [exact Hpin|]; naive_solver).
  destruct (commit_view start size bl c Hq Hhome Hnd (lg_fits _ _ _ _ _ Hlog)) as (_ & _ & HD & _).
  exists s'. split_and!; [done|apply (bo_quiet _ _ _ _ (rp_ok _ _ _ _ R))|done|done|].
  intros n Hn. change (dblock s' n) with (disk_at (ks_disk s') n). rewrite (rp_disk _ _ _ _ R), HD.
  destruct (crash_after start size Hg (ca_disk c) bl (ca_val c <$> bl) (ca_val c start))
    as (_ & Hdone & _); [by eapply val_length|done|apply length_fmap
    |apply (lg_fits _ _ _ _ _ Hlog)|by eapply log_hdr_length|].
  rewrite Hdone by done. by eapply new_contents.
Qed.

End Log_write.

(** ** A transaction on the concrete machine

    A log area of LOGSIZE blocks from block 2, as mkfs lays it out; one
    operation is running and writes block 40. *)

Definition log_init : logst :=
  mk_logst 2 LOGSIZE 1 0 ROOTDEV (mk_logheader 0 (replicate (Z.to_nat LOGSIZE) 0)).
Definition log_machine : kstate := (machine_with ∅) <| ks_log := log_init |>.

Lemma log_machine_represents : represents log_machine 0 ROOTDEV (machine_cache ∅).
Proof. exact (represents_log _ _ _ _ log_init machine_represents). Qed.
Lemma log_machine_hdr : log_hdr log_machine ROOTDEV 2 LOGSIZE [].
Proof. by split. Qed.

Lemma machine_cache_refs n : ca_refs (machine_cache ∅) n = 0.
Proof. exact (proj1 (machine_refs ∅ n)). Qed.
Lemma machine_cache_busy : ca_busy (machine_cache ∅) = 0.
Proof.
  change (ca_busy (machine_cache ∅)) with (Z.of_nat (nbusy (machine_with ∅))).
  by rewrite (proj2 (machine_refs ∅ 0)).
Qed.

(** Block 40 is read and held. *)
Lemma sample_held :
  exists b s, bread ROOTDEV 40 log_machine = Done b s /\ bio_frame log_machine s /\
    represents s 0 ROOTDEV (c_hold b 40 (machine_cache ∅)).
Proof.
  destruct (bread_refines log_machine 0 ROOTDEV (machine_cache ∅) 40 log_machine_represents)
    as (b & s & E & F & _ & R).
  - apply not_elem_of_nil.
  - rewrite machine_cache_refs. done.
  - intros _. rewrite machine_cache_busy. done.
  - exists b, s. split; [exact E|]. split; [exact F|exact R].
Qed.

Lemma log_write_correct_witness :
  exists b s s', bread ROOTDEV 40 log_machine = Done b s /\ log_write b s = Done tt s' /\
    log_hdr s' ROOTDEV 2 LOGSIZE [40].
Proof.
  destruct sample_held as (b & s & E & F & R).
  assert (log_hdr s ROOTDEV 2 LOGSIZE []) as Hlog.
  { eapply log_hdr_log; [apply (bio_frame_log _ _ F)|apply log_machine_hdr]. }
  pose proof (log_write_correct s 0 ROOTDEV _ 2 LOGSIZE [] b 40 R Hlog) as Hw.
  rewrite decide_False in Hw by (unfold LOGSIZE, MAXOPBLOCKS; cbn; lia).
  rewrite decide_False in Hw by (rewrite (bio_frame_log _ _ F); cbn; lia).
  destruct Hw as (s' & E' & _ & Hlog' & _).
  - by left.
  - by apply Forall_nil.
  - lia.
  - change (0 <= fset (ca_refs (machine_cache ∅)) 40 (ca_refs (machine_cache ∅) 40 + 1) 40 < 2 ^ 32 - 1).
    rewrite fset_eq, machine_cache_refs. lia.
  - exists b, s, s'. split; [exact E|]. split; [exact E'|exact Hlog'].
Defined.

Lemma machine_cache_val n : ca_val (machine_cache ∅) n = disk_at ∅ n.
Proof.
  rewrite (val_unref _ _ _ _ n machine_represents) by apply machine_cache_refs.
  change (ca_disk (machine_cache ∅)) with (ks_disk (machine_with ∅)). by rewrite machine_disk.
Qed.

Lemma sample_transaction :
  exists s c, in_transaction s 0 ROOTDEV 2 LOGSIZE [40] c /\
    log_outstanding (ks_log s) = 1 /\ log_committing (ks_log s) = 0 /\
    cval s ROOTDEV 40 = replicate (Z.to_nat BSIZE) 7 /\ ks_disk s = ∅.
Proof.
  destruct sample_held as (b & s & _ & F & R). pose proof machine_cache_refs as Hz.
  pose proof machine_cache_busy as Hb. pose proof machine_cache_val as Hv0.
  assert (ca_held (machine_cache ∅) = []) as Hh by reflexivity.
  assert (ca_disk (machine_cache ∅) = ∅) as Hd by exact (machine_disk ∅).
  revert R Hz Hb Hv0 Hh Hd. generalize (machine_cache ∅). intros c R Hz Hb Hv0 Hh Hd.
  set (v := replicate (Z.to_nat BSIZE) 7).
  destruct (set_data_refines s 0 ROOTDEV _ b 40 (fun _ => v) R) as (s1 & _ & F1 & R1); [by left|done|].
  assert (log_hdr s1 ROOTDEV 2 LOGSIZE []) as Hlog.
  { eapply log_hdr_log, log_machine_hdr. apply bio_frame_log. by rewrite F. }
  destruct (log_write_ok s1 0 ROOTDEV _ 2 LOGSIZE [] b 40 R1 Hlog) as (s2 & _ & R2 & Hlog2 & Ho & Hc & _);
    [by left|by apply Forall_nil|lia|cbn; rewrite fset_eq, Hz; lia
    |rewrite (bio_frame_log log_machine s1) by (by rewrite F); cbn; lia|done|done|].
  rewrite (bio_frame_log log_machine s1) in Ho, Hc by (by rewrite F).
  unfold c_pinned in R2. rewrite decide_False in R2 by apply not_elem_of_nil.
  destruct (brelse_refines s2 0 ROOTDEV _ b 40 [] R2) as (s3 & _ & F3 & R3).
  { cbn. by rewrite Hh. }
  { cbn. rewrite !fset_eq, Hz. lia. }
  set (c3 := c_drop _ _ _) in R3.
  assert (forall n, n <> 40 -> ca_refs c3 n = 0) as Hz3.
  { intros n Hn. cbn. rewrite !fset_ne by done. apply Hz. }
  assert (ca_refs c3 40 = 1) as H40 by (cbn; rewrite !fset_eq, Hz; done).
  exists s3, c3. split_and!.
  - split.
    + exact R3.
    + eapply log_hdr_log; [apply (bio_frame_log _ _ F3)|exact Hlog2].
    + split; [done| |].
      * intros n Hn. apply Hz3. unfold LOGSIZE, MAXOPBLOCKS in Hn. lia.
      * cbn. rewrite !fset_eq, Hz, Hb. done.
    + apply NoDup_singleton.
    + apply Forall_singleton. rewrite H40. unfold home, LOGSIZE, MAXOPBLOCKS. lia.
    + change (ca_disk c3) with (ca_disk c). rewrite Hd. vm_compute. reflexivity.
    + intros n _ Hn. change (ca_disk c3) with (ca_disk c). cbn. rewrite fset_ne by set_solver.
      by rewrite Hv0, Hd.
  - by rewrite (bio_frame_log _ _ F3), Ho.
  - by rewrite (bio_frame_log _ _ F3), Hc.
  - rewrite (rp_val _ _ _ _ R3). cbn. apply fset_eq.
  - by rewrite (rp_disk _ _ _ _ R3).
Qed.

Lemma log_geometry : geometry 2 LOGSIZE.
Proof. unfold geometry, LOGSIZE, MAXOPBLOCKS. lia. Qed.

Lemma same_hart_log s l : same_hart s (s <| ks_log := l |>).
Proof. by split. Qed.
Lemma disk_of_log s l : ks_disk (s <| ks_log := l |>) = ks_disk s.
Proof. done. Qed.

(** The machine that starts on an empty disk is a machine after a crash. *)
Lemma log_machine_booted : booted log_machine 0 ROOTDEV 2 LOGSIZE ∅.
Proof.
  split.
  - exists (machine_cache ∅). split; [apply log_machine_represents|].
    split; [reflexivity|]. split; [apply machine_cache_refs|apply machine_cache_busy].
  - by split.
  - etransitivity; [apply disk_of_log|apply machine_disk].
Qed.

Lemma commit_atomic_witness :
  exists s s' s1, commit s = Done tt s' /\ cval s ROOTDEV 40 = replicate (Z.to_nat BSIZE) 7 /\
    dblock s' 40 = cval s ROOTDEV 40 /\ recover_from_log log_machine = Done tt s1.
Proof.
  destruct sample_transaction as (s & c & Ht & _ & _ & Hv & HD).
  destruct (commit_atomic 0 ROOTDEV 2 LOGSIZE s [40] c log_geometry Ht) as (s' & ws & E & _ & Hd & Hcr).
  destruct (Hcr [] 0%nat log_machine (prefix_nil _)) as (s1 & E1 & _).
  { rewrite HD. apply log_machine_booted. }
  exists s, s', s1. split; [exact E|]. split; [exact Hv|]. split; [|exact E1]. apply Hd.
  unfold home, LOGSIZE, MAXOPBLOCKS. lia.
Defined.


(** Three operations are running and 29 blocks are logged. *)
Definition full_log : kstate :=
  machine <| ks_log := mk_logst 2 LOGSIZE 3 0 ROOTDEV
    (mk_logheader (LOGSIZE - 1) ((fun i => 100 + Z.of_nat i) <$> seq 0 (Z.to_nat LOGSIZE))) |>.

Lemma begin_op_admission_witness :
  exists s, begin_op s = Done tt (s <| ks_log ::= upd log_outstanding (Z.add 1) |>).
Proof.
  destruct machine_on_cpu as [pr Hon].
  pose proof (begin_op_admission machine 0 _ pr Hon (machine_lock_free L_log eq_refl)) as Hb.
  rewrite decide_True in Hb by (split; vm_compute; congruence). exists machine. exact Hb.
Defined.
