(* ===== verification/Vm.v ===== *)
(** * Virtual memory (vm.c).

    Page tables live in physical memory: a page-table page is 512 words, and
    walk follows three levels of them.  Kernel buffers that copyout reads and
    that copyin and copyinstr fill are lists of bytes: the source of a
    copyout, and the bytes stored so far by the other two, returned with the
    result code.

    [tables] describes the tree of page-table pages in memory; the theorems
    show that walk computes an injective map from page numbers to entries, so
    that mapping or unmapping one page leaves every other translation alone,
    and that copyin and copyout read and write the bytes the translation
    names. *)

From S2P Require Import Prelude Defs KMonad Lock Mem Kalloc.

(** ** Code *)

(** [*pte] and [*pte = v]. *)
Definition load_pte (a : Z) : K Z := get (fun s => load64 (ks_mem s) a).
Definition store_pte (a v : Z) : K unit :=
  modify (fun s => s <| ks_mem ::= fun m => store64 m a v |>).
(** [&pagetable[i]] *)
Definition pte_addr (pagetable i : Z) : Z := pagetable + 8 * i.
Definition has (pte bit : Z) : bool := negb (Z.land pte bit =? 0).

(** memmove within physical memory, from a kernel buffer, and to one. *)
Definition mem_memmove (dst src n : Z) : K unit :=
  modify (fun s => s <| ks_mem ::= fun m => memmove m dst src n |>).
Definition mem_store (dst : Z) (bs : list Z) : K unit :=
  modify (fun s => s <| ks_mem ::= fun m => store_bytes m dst bs |>).
Definition mem_load (src n : Z) : K (list Z) :=
  get (fun s => load_bytes (ks_mem s) src (Z.to_nat n)).

Section Code.
Context `{Fuel, KernelImage}.

Fixpoint walk_levels (levels : list Z) (pagetable va : Z) (alloc : bool) : K Z :=
  match levels with
  | [] => ret (pte_addr pagetable (PX 0 va))
  | level :: levels =>
    let pte := pte_addr pagetable (PX level va) in
    let! e := load_pte pte in
    if has e PTE_V then walk_levels levels (PTE2PA e) va alloc
    else if negb alloc then ret 0 else
    let! page := kalloc in
    if page =? 0 then ret 0 else
    mem_memset page 0 PGSIZE ;;
    store_pte pte (Z.lor (PA2PTE page) PTE_V) ;;
    walk_levels levels page va alloc
  end.

Definition walk (pagetable va : Z) (alloc : bool) : K Z :=
  if MAXVA <=? va then panic "walk" else walk_levels [2; 1] pagetable va alloc.

Definition walkaddr (pagetable va : Z) : K Z :=
  if MAXVA <=? va then ret 0 else
  let! pte := walk pagetable va false in
  if pte =? 0 then ret 0 else
  let! e := load_pte pte in
  if negb (has e PTE_V) then ret 0 else
  if negb (has e PTE_U) then ret 0 else
  ret (PTE2PA e).

(** Iterations the page loops can need before they end or walk panics. *)
Definition page_steps (a last : Z) : nat :=
  S (Z.to_nat ((if a <=? last then last - a else MAXVA) / PGSIZE)).

Definition mappages (pagetable va size pa perm : Z) : K Z :=
  if size =? 0 then panic "mappages: size" else
  let a := PGROUNDDOWN va in
  let last := PGROUNDDOWN (u64 (va + size - 1)) in
  loop (page_steps a last) (fun '(a, pa) =>
    let! pte := walk pagetable a true in
    if pte =? 0 then ret (inr (-1)) else
    let! e := load_pte pte in
    if has e PTE_V then panic "mappages: remap" else
    store_pte pte (Z.lor (Z.lor (PA2PTE pa) perm) PTE_V) ;;
    if a =? last then ret (inr 0) else
    ret (inl (u64 (a + PGSIZE), u64 (pa + PGSIZE)))) (a, pa).

Definition kvmmap (kpgtbl va pa sz perm : Z) : K unit :=
  let! r := mappages kpgtbl va sz pa perm in
  if negb (r =? 0) then panic "kvmmap" else ret tt.

Definition uvmunmap (pagetable va npages : Z) (do_free : bool) : K unit :=
  if negb (va `mod` PGSIZE =? 0) then panic "uvmunmap: not aligned" else
  let end_va := u64 (va + npages * PGSIZE) in
  loop (S (page_steps va end_va)) (fun a =>
    if negb (a <? end_va) then ret (inr tt) else
    let! pte := walk pagetable a false in
    if pte =? 0 then panic "uvmunmap: walk" else
    let! e := load_pte pte in
    if negb (has e PTE_V) then panic "uvmunmap: not mapped" else
    if PTE_FLAGS e =? PTE_V then panic "uvmunmap: not a leaf" else
    when do_free (kfree (PTE2PA e)) ;;
    store_pte pte 0 ;;
    ret (inl (u64 (a + PGSIZE)))) va.

Definition uvmcreate : K Z :=
  let! pagetable := kalloc in
  if pagetable =? 0 then ret 0 else
  mem_memset pagetable 0 PGSIZE ;;
  ret pagetable.

Definition uvmfirst (pagetable : Z) (src : list Z) : K unit :=
  if PGSIZE <=? Z.of_nat (length src) then panic "uvmfirst: more than a page" else
  let! mem := kalloc in
  if mem =? 0 then fault else
  mem_memset mem 0 PGSIZE ;;
  let! _ := mappages pagetable 0 PGSIZE mem (Z.lor (Z.lor (Z.lor PTE_W PTE_R) PTE_X) PTE_U) in
  mem_store mem src.

Definition uvmdealloc (pagetable oldsz newsz : Z) : K Z :=
  if oldsz <=? newsz then ret oldsz else
  when (PGROUNDUP newsz <? PGROUNDUP oldsz)
    (let npages := i32 ((PGROUNDUP oldsz - PGROUNDUP newsz) / PGSIZE) in
     uvmunmap pagetable (PGROUNDUP newsz) (u64 npages) true) ;;
  ret newsz.

Definition uvmalloc (pagetable oldsz newsz xperm : Z) : K Z :=
  if newsz <? oldsz then ret oldsz else
  let oldsz := PGROUNDUP oldsz in
  loop (S (page_steps oldsz newsz)) (fun a =>
    if negb (a <? newsz) then ret (inr newsz) else
    let! mem := kalloc in
    if mem =? 0 then
      let! _ := uvmdealloc pagetable a oldsz in
      ret (inr 0)
    else
      mem_memset mem 0 PGSIZE ;;
      let! r := mappages pagetable a PGSIZE mem (Z.lor (Z.lor PTE_R PTE_U) xperm) in
      if negb (r =? 0) then
        kfree mem ;;
        let! _ := uvmdealloc pagetable a oldsz in
        ret (inr 0)
      else ret (inl (u64 (a + PGSIZE)))) oldsz.

(** [depth] bounds the recursion; page tables have three levels. *)
Fixpoint freewalk (depth : nat) (pagetable : Z) : K unit :=
  match depth with
  | O => out_of_fuel
  | S depth =>
    for_each (seq 0 512) (fun i =>
      let a := pte_addr pagetable (Z.of_nat i) in
      let! pte := load_pte a in
      if has pte PTE_V && (Z.land pte (Z.lor (Z.lor PTE_R PTE_W) PTE_X) =? 0) then
        freewalk depth (PTE2PA pte) ;;
        store_pte a 0
      else if has pte PTE_V then panic "freewalk: leaf"
      else ret tt) ;;
    kfree pagetable
  end.

Definition uvmfree (pagetable sz : Z) : K unit :=
  when (0 <? sz) (uvmunmap pagetable 0 (PGROUNDUP sz / PGSIZE) true) ;;
  freewalk 4 pagetable.

Definition uvmcopy (old new sz : Z) : K Z :=
  let err (i : Z) : K (Z + Z) := uvmunmap new 0 (i / PGSIZE) true ;; ret (inr (-1)) in
  loop (S (page_steps 0 sz)) (fun i =>
    if negb (i <? sz) then ret (inr 0) else
    let! pte := walk old i false in
    if pte =? 0 then panic "uvmcopy: pte should exist" else
    let! e := load_pte pte in
    if negb (has e PTE_V) then panic "uvmcopy: page not present" else
    let pa := PTE2PA e in
    let flags := PTE_FLAGS e in
    let! mem := kalloc in
    if mem =? 0 then err i else
    mem_memmove mem pa PGSIZE ;;
    let! r := mappages new i PGSIZE mem flags in
    if negb (r =? 0) then kfree mem ;; err i
    else ret (inl (u64 (i + PGSIZE)))) 0.

Definition uvmclear (pagetable va : Z) : K unit :=
  let! pte := walk pagetable va false in
  if pte =? 0 then panic "uvmclear" else
  let! e := load_pte pte in
  store_pte pte (Z.land e (u64 (Z.lnot PTE_U))).

Definition copyout (pagetable dstva : Z) (src : list Z) : K Z :=
  loop (S (length src)) (fun '(dstva, src) =>
    let len := Z.of_nat (length src) in
    if len =? 0 then ret (inr 0) else
    let va0 := PGROUNDDOWN dstva in
    let! pa0 := walkaddr pagetable va0 in
    if pa0 =? 0 then ret (inr (-1)) else
    let n := Z.min (PGSIZE - (dstva - va0)) len in
    mem_store (pa0 + (dstva - va0)) (take (Z.to_nat n) src) ;;
    ret (inl (u64 (va0 + PGSIZE), drop (Z.to_nat n) src))) (dstva, src).

Definition copyin (pagetable srcva len : Z) : K (Z * list Z) :=
  loop (S (Z.to_nat len)) (fun '(srcva, len, got) =>
    if len =? 0 then ret (inr (0, got)) else
    let va0 := PGROUNDDOWN srcva in
    let! pa0 := walkaddr pagetable va0 in
    if pa0 =? 0 then ret (inr (-1, got)) else
    let n := Z.min (PGSIZE - (srcva - va0)) len in
    let! bs := mem_load (pa0 + (srcva - va0)) n in
    ret (inl (u64 (va0 + PGSIZE), len - n, got ++ bs))) (srcva, len, []).

(** The inner loop of copyinstr: at most [n] bytes from [p]; the bytes stored
    and whether a NUL was among them. *)
Fixpoint copy_until_nul (n : nat) (p : Z) : K (list Z * bool) :=
  match n with
  | O => ret ([], false)
  | S n =>
    let! c := get (fun s => load8 (ks_mem s) p) in
    if c =? 0 then ret ([0], true) else
    let! r := copy_until_nul n (p + 1) in
    ret (c :: fst r, snd r)
  end.

Definition copyinstr (pagetable srcva max : Z) : K (Z * list Z) :=
  loop (S (Z.to_nat max)) (fun '(srcva, max, got) =>
    if negb (0 <? max) then ret (inr (-1, got)) else
    let va0 := PGROUNDDOWN srcva in
    let! pa0 := walkaddr pagetable va0 in
    if pa0 =? 0 then ret (inr (-1, got)) else
    let n := Z.min (PGSIZE - (srcva - va0)) max in
    let! r := copy_until_nul (Z.to_nat n) (pa0 + (srcva - va0)) in
    let '(bs, got_null) := r in
    if got_null : bool then ret (inr (0, got ++ bs)) else
    ret (inl (u64 (va0 + PGSIZE), max - n, got ++ bs))) (srcva, max, []).

(** proc.c: proc_mapstacks *)
Definition proc_mapstacks (kpgtbl : Z) : K unit :=
  for_each (seq 0 NPROC) (fun p =>
    let! pa := kalloc in
    if pa =? 0 then panic "kalloc" else
    let va := KSTACK (Z.of_nat p) in
    kvmmap kpgtbl va pa PGSIZE (Z.lor PTE_R PTE_W)).

Definition kvmmake : K Z :=
  let! kpgtbl := kalloc in
  if kpgtbl =? 0 then fault else
  mem_memset kpgtbl 0 PGSIZE ;;
  kvmmap kpgtbl UART0 UART0 PGSIZE (Z.lor PTE_R PTE_W) ;;
  kvmmap kpgtbl VIRTIO0 VIRTIO0 PGSIZE (Z.lor PTE_R PTE_W) ;;
  kvmmap kpgtbl PLIC PLIC 0x400000 (Z.lor PTE_R PTE_W) ;;
  kvmmap kpgtbl KERNBASE KERNBASE (etext - KERNBASE) (Z.lor PTE_R PTE_X) ;;
  kvmmap kpgtbl etext etext (PHYSTOP - etext) (Z.lor PTE_R PTE_W) ;;
  kvmmap kpgtbl TRAMPOLINE trampoline PGSIZE (Z.lor PTE_R PTE_X) ;;
  proc_mapstacks kpgtbl ;;
  ret kpgtbl.

Definition kvminit : K unit :=
  let! k := kvmmake in modify (fun s => s <| ks_kpgtbl := k |>).
End Code.

(** ** Page-table entries *)

Lemma shiftr_small f n : 0 <= f < 2 ^ n -> 0 <= n -> Z.shiftr f n = 0.
Proof. intros Hf Hn. rewrite Z.shiftr_div_pow2 by done. by apply Z.div_small. Qed.

Lemma PA2PTE_eq pa : 0 <= pa < 2 ^ 56 -> PA2PTE pa = Z.shiftl (pa / 4096) 10.
Proof.
  intros Hp. unfold PA2PTE. rewrite Z.shiftr_div_pow2 by lia. change (2 ^ 12) with 4096.
  apply u64_small. rewrite Z.shiftl_mul_pow2 by lia.
  assert (0 <= pa / 4096 < 2 ^ 44) by (change (2 ^ 56) with (4096 * 2 ^ 44) in Hp; dlia). lia.
Qed.

Section Pte.
Context (pa f : Z) (Hpa : 0 <= pa < 2 ^ 56) (Hal : pa `mod` PGSIZE = 0) (Hf : 0 <= f < 2 ^ 10).

Lemma PTE2PA_lor : PTE2PA (Z.lor (PA2PTE pa) f) = pa.
Proof.
  unfold PTE2PA. rewrite PA2PTE_eq by done.
  rewrite Z.shiftr_lor, Z.shiftr_shiftl_l, shiftr_small, Z.lor_0_r by (done || lia).
  change (10 - 10) with 0. rewrite Z.shiftl_0_r, Z.shiftl_mul_pow2 by lia.
  unfold PGSIZE in Hal. rewrite u64_small; dlia.
Qed.

Lemma land_small_shiftl x g n : 0 <= g < 2 ^ n -> 0 <= n -> Z.land (Z.shiftl x n) g = 0.
Proof.
  intros Hg Hn. apply Z.bits_inj'. intros i Hi. rewrite Z.land_spec, Z.bits_0.
  destruct (decide (i < n)).
  - by rewrite Z.shiftl_spec_low.
  - assert (Z.testbit g i = false) as ->; [|by rewrite andb_false_r].
    destruct (decide (g = 0)) as [->|]; [apply Z.bits_0|].
    apply Z.bits_above_log2; [lia|]. apply Z.lt_le_trans with n; [|lia]. apply Z.log2_lt_pow2; lia.
Qed.

Lemma PTE_FLAGS_lor : PTE_FLAGS (Z.lor (PA2PTE pa) f) = f.
Proof.
  unfold PTE_FLAGS. rewrite PA2PTE_eq, Z.land_lor_distr_l by done.
  rewrite land_small_shiftl by (done || lia). rewrite Z.lor_0_l.
  change 0x3FF with (Z.ones 10). rewrite Z.land_ones by lia. apply Z.mod_small. lia.
Qed.

Lemma has_lor bit : 0 <= bit < 2 ^ 10 -> has (Z.lor (PA2PTE pa) f) bit = has f bit.
Proof.
  intros Hb. unfold has. rewrite PA2PTE_eq, Z.land_lor_distr_l by done.
  by rewrite land_small_shiftl, Z.lor_0_l by (done || lia).
Qed.

Lemma pte_range : 0 <= Z.lor (PA2PTE pa) f < 2 ^ 64.
Proof.
  clear Hal.
  assert (0 <= PA2PTE pa < 2 ^ 54) as Hp.
  { rewrite PA2PTE_eq, Z.shiftl_mul_pow2 by (done || lia).
    change (2 ^ 56) with (4096 * 2 ^ 44) in Hpa. assert (pa / 4096 < 2 ^ 44) by dlia.
    assert (0 <= pa / 4096) by dlia. lia. }
  split; [apply Z.lor_nonneg; lia|].
  destruct (decide (Z.lor (PA2PTE pa) f = 0)) as [->|Hne]; [done|].
  apply Z.log2_lt_cancel. rewrite Z.log2_pow2 by lia.
  rewrite Z.log2_lor by lia. apply Z.max_lub_lt.
  - destruct (decide (PA2PTE pa = 0)) as [->|]; [done|].
    apply Z.lt_trans with 54; [apply Z.log2_lt_pow2; lia|lia].
  - destruct (decide (f = 0)) as [->|]; [done|]. apply Z.lt_trans with 10; [apply Z.log2_lt_pow2; lia|lia].
Qed.
End Pte.

Lemma has_zero bit : has 0 bit = false.
Proof. done. Qed.
Lemma has_V f : has (Z.lor f PTE_V) PTE_V = true.
Proof.
  unfold has. apply negb_true_iff, Z.eqb_neq. intros E.
  apply (f_equal (fun x => Z.testbit x 0)) in E. rewrite Z.land_spec, Z.lor_spec in E.
  change (Z.testbit PTE_V 0) with true in E. by rewrite orb_true_r in E.
Qed.

Lemma PX_range level va : 0 <= PX level va < 512.
Proof.
  unfold PX, PXMASK. change 0x1FF with (Z.ones 9). rewrite Z.land_ones by lia.
  apply Z.mod_pos_bound. lia.
Qed.

(** The three indices determine the page number. *)
Lemma PX_inj va va' :
  0 <= va < MAXVA -> 0 <= va' < MAXVA -> PX 0 va = PX 0 va' -> PX 1 va = PX 1 va' ->
  PX 2 va = PX 2 va' -> va / PGSIZE = va' / PGSIZE.
Proof.
  unfold PX, PXMASK, PXSHIFT, PGSHIFT, PGSIZE, MAXVA. change 0x1FF with (Z.ones 9).
  rewrite !Z.land_ones, !Z.shiftr_div_pow2 by lia.
  change (Z.shiftl 1 (9 + 9 + 9 + 12 - 1)) with (2 ^ 38).
  change (2 ^ (12 + 9 * 0)) with 4096. change (2 ^ (12 + 9 * 1)) with (4096 * 512).
  change (2 ^ (12 + 9 * 2)) with (4096 * (512 * 512)). change (2 ^ 9) with 512.
  rewrite <- !Z.div_div by lia. intros. dlia.
Qed.

(** ** The tree of page-table pages *)

Definition entry (m : gmap Z Z) (pt i : Z) : Z := load64 m (pte_addr pt i).

Fixpoint levels_of (l : nat) : list Z :=
  match l with O => [] | S l => Z.of_nat (S l) :: levels_of l end.

(** walk without allocation, as a function of memory. *)
Fixpoint pwalk (m : gmap Z Z) (levels : list Z) (pt va : Z) : option Z :=
  match levels with
  | [] => Some (pte_addr pt (PX 0 va))
  | level :: levels =>
    let e := entry m pt (PX level va) in
    if has e PTE_V then pwalk m levels (PTE2PA e) va else None
  end.

(** The entry that maps [va], if it is valid. *)
Definition trans (m : gmap Z Z) (l : nat) (pt va : Z) : option Z :=
  match pwalk m (levels_of l) pt va with
  | Some a => let e := load64 m a in if has e PTE_V then Some e else None
  | None => None
  end.

Section Tree.
Context `{KernelImage}.

(** [T] gives the level of every page-table page: each valid entry of a page
    of level [S l] points to a page of level [l], and no two entries point to
    the same page. *)
Record tables (m : gmap Z Z) (root : Z) (T : gmap Z nat) : Prop := mk_tables {
  tb_root : T !! root = Some 2%nat;
  tb_page pa l : T !! pa = Some l -> page_ok pa;
  tb_child pa l i : T !! pa = Some (S l) -> 0 <= i < 512 -> has (entry m pa i) PTE_V = true ->
    T !! PTE2PA (entry m pa i) = Some l;
  tb_inj pa pa' l l' i i' : T !! pa = Some (S l) -> T !! pa' = Some (S l') ->
    0 <= i < 512 -> 0 <= i' < 512 ->
    has (entry m pa i) PTE_V = true -> has (entry m pa' i') PTE_V = true ->
    PTE2PA (entry m pa i) = PTE2PA (entry m pa' i') -> pa = pa' /\ i = i'
}.

(** Entries of distinct page-table pages do not overlap. *)
Lemma pte_addr_inj pa pa' i i' :
  page_ok pa -> page_ok pa' -> 0 <= i < 512 -> 0 <= i' < 512 ->
  pte_addr pa i = pte_addr pa' i' -> pa = pa' /\ i = i'.
Proof.
  intros Hp Hp' Hi Hi' E. unfold pte_addr in E. destruct (decide (pa = pa')) as [->|Hne]; [lia|].
  pose proof (page_disjoint _ _ Hp Hp' Hne). unfold PGSIZE in *. lia.
Qed.
Lemma pte_addr_apart pa pa' i i' :
  page_ok pa -> page_ok pa' -> 0 <= i < 512 -> 0 <= i' < 512 -> (pa, i) <> (pa', i') ->
  pte_addr pa i + 8 <= pte_addr pa' i' \/ pte_addr pa' i' + 8 <= pte_addr pa i.
Proof.
  intros Hp Hp' Hi Hi' Hne. unfold pte_addr. destruct (decide (pa = pa')) as [->|Hpp].
  - assert (i <> i') by congruence. lia.
  - pose proof (page_disjoint _ _ Hp Hp' Hpp). unfold PGSIZE in *. lia.
Qed.

Lemma entry_store m pa i v pa' i' :
  page_ok pa -> page_ok pa' -> 0 <= i < 512 -> 0 <= i' < 512 -> 0 <= v < 2 ^ 64 ->
  entry (store64 m (pte_addr pa i) v) pa' i' = if decide ((pa, i) = (pa', i')) then v else entry m pa' i'.
Proof.
  intros Hp Hp' Hi Hi' Hv. unfold entry. case_decide as E.
  - injection E as -> ->. by apply load64_store64_eq.
  - apply load64_store64_ne. destruct (pte_addr_apart pa pa' i i') as [?|?]; auto.
Qed.

(** Only the entries of the interior pages matter to the tree. *)
Lemma tables_ext m m' root T :
  (forall pa l i, T !! pa = Some (S l) -> 0 <= i < 512 -> entry m' pa i = entry m pa i) ->
  tables m root T -> tables m' root T.
Proof.
  intros Hext [Hroot Hpage Hchild Hinj]. split; [done|done| |].
  - intros pa l i Hpa Hi. rewrite (Hext pa l i) by done. by apply Hchild.
  - intros pa pa' l l' i i' Hpa Hpa' Hi Hi'.
    rewrite (Hext pa l i), (Hext pa' l' i') by done. by eapply Hinj.
Qed.

Lemma pwalk_ext m m' root T l pt va :
  (forall pa l i, T !! pa = Some (S l) -> 0 <= i < 512 -> entry m' pa i = entry m pa i) ->
  tables m root T -> T !! pt = Some l -> pwalk m' (levels_of l) pt va = pwalk m (levels_of l) pt va.
Proof.
  intros Hext Ht. revert pt. induction l as [|l IH]; intros pt Hpt; [done|].
  cbn [levels_of pwalk]. pose proof (PX_range (Z.of_nat (S l)) va) as Hi.
  rewrite (Hext pt l) by done. destruct (has _ _) eqn:E; [|done].
  apply IH. by eapply (tb_child _ _ _ Ht).
Qed.

Lemma pwalk_leaf m root T l pt va a :
  tables m root T -> T !! pt = Some l -> pwalk m (levels_of l) pt va = Some a ->
  exists p0, T !! p0 = Some 0%nat /\ a = pte_addr p0 (PX 0 va).
Proof.
  intros Ht. revert pt. induction l as [|l IH]; intros pt Hpt Hw.
  - cbn in Hw. simplify_eq. eauto.
  - cbn [levels_of pwalk] in Hw. destruct (has _ _) eqn:E; [|done].
    eapply IH; [|exact Hw]. eapply (tb_child _ _ _ Ht); eauto using PX_range.
Qed.

(** Two addresses with the same entry agree on every index of the walk. *)
Lemma pwalk_inj m root T l pt pt' va va' a :
  tables m root T -> T !! pt = Some l -> T !! pt' = Some l ->
  pwalk m (levels_of l) pt va = Some a -> pwalk m (levels_of l) pt' va' = Some a ->
  pt = pt' /\ forall k, (k <= l)%nat -> PX (Z.of_nat k) va = PX (Z.of_nat k) va'.
Proof.
  intros Ht. revert pt pt'. induction l as [|l IH]; intros pt pt' Hpt Hpt' Hw Hw'.
  - cbn in Hw, Hw'. simplify_eq.
    destruct (pte_addr_inj pt' pt (PX 0 va') (PX 0 va)) as [-> E]; eauto using PX_range, tb_page.
    split; [done|]. intros k Hk. replace k with O by lia. done.
  - cbn [levels_of pwalk] in Hw, Hw'.
    destruct (has (entry m pt _) _) eqn:E; [|done]. destruct (has (entry m pt' _) _) eqn:E'; [|done].
    pose proof (PX_range (Z.of_nat (S l)) va) as Hi. pose proof (PX_range (Z.of_nat (S l)) va') as Hi'.
    destruct (IH _ _ (tb_child _ _ _ Ht _ _ _ Hpt Hi E) (tb_child _ _ _ Ht _ _ _ Hpt' Hi' E') Hw Hw')
      as [Hc Hk].
    destruct (tb_inj _ _ _ Ht _ _ _ _ _ _ Hpt Hpt' Hi Hi' E E' Hc) as [-> Hx]. split; [done|].
    intros k Hle. destruct (decide (k = S l)) as [->|]; [done|]. apply Hk. lia.
Qed.

Lemma pwalk_page_inj m root T va va' a :
  tables m root T -> 0 <= va < MAXVA -> 0 <= va' < MAXVA ->
  pwalk m (levels_of 2) root va = Some a -> pwalk m (levels_of 2) root va' = Some a ->
  va / PGSIZE = va' / PGSIZE.
Proof.
  intros Ht Hva Hva' Hw Hw'. pose proof (tb_root _ _ _ Ht) as Hr.
  destruct (pwalk_inj m root T 2 root root va va' a Ht Hr Hr Hw Hw') as [_ Hk].
  apply PX_inj; [done|done|apply (Hk 0%nat)|apply (Hk 1%nat)|apply (Hk 2%nat)]; lia.
Qed.

(** Writing a leaf entry changes the translation of its page only. *)
Lemma store_leaf m root T va a v :
  tables m root T -> 0 <= va < MAXVA -> pwalk m (levels_of 2) root va = Some a -> 0 <= v < 2 ^ 64 ->
  let m' := store64 m a v in
  tables m' root T /\ pwalk m' (levels_of 2) root va = Some a /\
  trans m' 2 root va = (if has v PTE_V then Some v else None) /\
  (forall va', 0 <= va' < MAXVA -> va' / PGSIZE <> va / PGSIZE -> trans m' 2 root va' = trans m 2 root va').
Proof.
  intros Ht Hva Hw Hv m'. pose proof (tb_root _ _ _ Ht) as Hr.
  destruct (pwalk_leaf m root T 2 root va a Ht Hr Hw) as (p0 & Hp0 & ->).
  pose proof (PX_range 0 va) as Hi0. pose proof (tb_page _ _ _ Ht _ _ Hp0) as Hok0.
  assert (forall pa l i, T !! pa = Some (S l) -> 0 <= i < 512 -> entry m' pa i = entry m pa i) as Hext.
  { intros pa l i Hpa Hi. unfold m'. rewrite entry_store, decide_False; eauto using tb_page. congruence. }
  assert (tables m' root T) as Ht' by (by eapply tables_ext).
  assert (forall x, pwalk m' (levels_of 2) root x = pwalk m (levels_of 2) root x) as Hpw
    by (intros x; by eapply pwalk_ext).
  split_and!; [done|by rewrite Hpw| |].
  - unfold trans. rewrite Hpw, Hw. cbv zeta. unfold m'. by rewrite load64_store64_eq.
  - intros va' Hva' Hne. unfold trans. rewrite Hpw.
    destruct (pwalk m (levels_of 2) root va') as [a'|] eqn:Hw'; [|done].
    destruct (pwalk_leaf m root T 2 root va' a' Ht Hr Hw') as (p0' & Hp0' & ->).
    assert (load64 m' (pte_addr p0' (PX 0 va')) = load64 m (pte_addr p0' (PX 0 va'))) as ->; [|done].
    change (entry m' p0' (PX 0 va') = entry m p0' (PX 0 va')). unfold m'.
    rewrite entry_store, decide_False; eauto using tb_page, PX_range.
    intros [= -> Hx]. apply Hne.
    apply (pwalk_page_inj m root T va' va (pte_addr p0' (PX 0 va'))); [done..|]. by rewrite Hw, Hx.
Qed.

Lemma trans_S m l pt va :
  trans m (S l) pt va
  = let e := entry m pt (PX (Z.of_nat (S l)) va) in
    if has e PTE_V then trans m l (PTE2PA e) va else None.
Proof. unfold trans. cbn [levels_of pwalk]. by destruct (has _ _). Qed.
Lemma trans_0 m pt va :
  trans m 0 pt va = let e := entry m pt (PX 0 va) in if has e PTE_V then Some e else None.
Proof. done. Qed.

(** A zeroed page maps nothing. *)
Lemma trans_zero m l q va : (forall j, 0 <= j < 512 -> entry m q j = 0) -> trans m l q va = None.
Proof.
  intros Hz. destruct l as [|l]; [rewrite trans_0|rewrite trans_S]; rewrite Hz by apply PX_range; done.
Qed.

Lemma page_ok_pa q : page_ok q -> 0 <= q < 2 ^ 56 /\ q `mod` PGSIZE = 0.
Proof.
  intros Hq. pose proof (page_ok_bounds _ Hq) as Hb. destruct Hq as [Hm _]. split; [|done].
  unfold PHYSTOP, KERNBASE, PGSIZE in Hb. lia.
Qed.

(** The entry for a new page-table page [q]. *)
Lemma new_entry q :
  page_ok q ->
  let e := Z.lor (PA2PTE q) PTE_V in
  0 <= e < 2 ^ 64 /\ has e PTE_V = true /\ PTE2PA e = q.
Proof.
  intros [Hq Ha]%page_ok_pa e. split; [by apply pte_range|]. split; [apply has_V|by apply PTE2PA_lor].
Qed.

Lemma grow_tables m m' root T pt l i q :
  tables m root T -> T !! pt = Some (S l) -> 0 <= i < 512 -> has (entry m pt i) PTE_V = false ->
  page_ok q -> T !! q = None ->
  entry m' pt i = Z.lor (PA2PTE q) PTE_V ->
  (forall pa k j, T !! pa = Some k -> 0 <= j < 512 -> (pa, j) <> (pt, i) -> entry m' pa j = entry m pa j) ->
  (forall j, 0 <= j < 512 -> entry m' q j = 0) ->
  tables m' root (<[q := l]> T) /\ (forall va, trans m' 2 root va = trans m 2 root va).
Proof.
  intros Ht Hpt Hi Hinv Hq Hqn Hnew Hold Hzero. destruct (new_entry q Hq) as (_ & HeV & HeP).
  (* an interior entry of m' is the new one or an old one *)
  assert (forall pa k j, <[q := l]> T !! pa = Some (S k) -> 0 <= j < 512 -> has (entry m' pa j) PTE_V = true ->
    (pa = pt /\ j = i /\ k = l) \/
    (T !! pa = Some (S k) /\ entry m' pa j = entry m pa j /\ T !! PTE2PA (entry m pa j) = Some k)) as Hcase.
  { intros pa k j Hpa Hj HV. destruct (decide (pa = q)) as [->|Hne].
    - rewrite Hzero in HV by done. done.
    - rewrite lookup_insert_ne in Hpa by done. destruct (decide ((pa, j) = (pt, i))) as [[= -> ->]|E].
      + left. split_and!; [done|done|congruence].
      + right. rewrite (Hold pa (S k) j) in * by done. split_and!; [done|done|].
        by apply (tb_child _ _ _ Ht). }
  split; [split|].
  - rewrite lookup_insert_ne; [apply (tb_root _ _ _ Ht)|]. intros ->.
    rewrite (tb_root _ _ _ Ht) in Hqn. done.
  - intros pa k. rewrite lookup_insert. case_decide; [by intros; simplify_eq|apply (tb_page _ _ _ Ht)].
  - intros pa k j Hpa Hj HV. destruct (Hcase pa k j Hpa Hj HV) as [(-> & -> & ->)|(Hpa' & -> & Hc)].
    + rewrite Hnew, HeP. apply lookup_insert_eq.
    + rewrite lookup_insert_ne; [done|]. intros ->. rewrite Hc in Hqn. done.
  - intros pa pa' k k' j j' Hpa Hpa' Hj Hj' HV HV' HE.
    destruct (Hcase pa k j Hpa Hj HV) as [(-> & -> & ->)|(Hp1 & E1 & Hc1)],
             (Hcase pa' k' j' Hpa' Hj' HV') as [(-> & -> & ->)|(Hp2 & E2 & Hc2)]; try done.
    + rewrite Hnew, HeP, E2 in HE. rewrite <- HE in Hc2. congruence.
    + rewrite Hnew, HeP, E1 in HE. rewrite HE in Hc1. congruence.
    + rewrite E1, E2 in *. by eapply (tb_inj _ _ _ Ht).
  - intros va. assert (forall k p', T !! p' = Some k -> trans m' k p' va = trans m k p' va) as Htr.
    { induction k as [|k IH]; intros p' Hp'.
      - rewrite !trans_0. rewrite (Hold p' 0%nat); [done|done|apply PX_range|congruence].
      - rewrite !trans_S. cbv zeta. pose proof (PX_range (Z.of_nat (S k)) va) as Hj.
        destruct (decide ((p', PX (Z.of_nat (S k)) va) = (pt, i))) as [E|E].
        + injection E as -> Ei. rewrite Ei, Hnew, HeV, HeP, Hinv. apply trans_zero, Hzero.
        + rewrite (Hold p' (S k)) by done. destruct (has (entry m p' _) _) eqn:HV; [|done].
          apply IH. by eapply (tb_child _ _ _ Ht). }
    apply Htr, (tb_root _ _ _ Ht).
Qed.
End Tree.

(** ** walk and mappages on the machine *)

(** Only memory and the allocator's list head differ. *)
Definition vm_frame (s s' : kstate) : Prop :=
  s' = s <| ks_mem := ks_mem s' |> <| ks_freelist := ks_freelist s' |>.
#[global] Instance vm_frame_preorder : PreOrder vm_frame.
Proof.
  split; [intros s; unfold vm_frame; kstate_eq|].
  intros s1 s2 s3 H12 H23. unfold vm_frame in *. rewrite H23, H12. kstate_eq.
Qed.
Lemma vm_frame_hart s s' : vm_frame s s' -> same_hart s s'.
Proof. intros ->. by split. Qed.
Lemma vm_frame_mem s m : vm_frame s (s <| ks_mem := m |>).
Proof. unfold vm_frame. kstate_eq. Qed.

#[local] Opaque memset store64 load64 load8 store_bytes memmove.

Section Machine.
Context `{Fuel, KernelImage}.

(** The tree [T] under [root] and the free pages [fl] are disjoint. *)
Record vm_ok (s : kstate) (root : Z) (T : gmap Z nat) (fl : list Z) : Prop := mk_vm_ok {
  vo_hart : hart_ok s;
  vo_lock : lock_free L_kmem s;
  vo_free : free_list s fl;
  vo_tables : tables (ks_mem s) root T;
  vo_sep pa : pa ∈ fl -> T !! pa = None
}.

(** Bytes outside the pages of [T] keep their value. *)
Definition outside (T : gmap Z nat) (a : Z) : Prop :=
  forall pa, is_Some (T !! pa) -> ~ (pa <= a < pa + PGSIZE).
Definition mem_frame (T : gmap Z nat) (s s' : kstate) : Prop :=
  forall a, outside T a -> load8 (ks_mem s') a = load8 (ks_mem s) a.

(** A page of the free list becomes a page-table page of level [l], entered at
    index [i] of the page [pt]. *)
Definition new_table (pt i q : Z) (s : kstate) : kstate :=
  (alloced s) <| ks_mem ::= fun m => memset m q 0 PGSIZE |>
    <| ks_mem ::= fun m => store64 m (pte_addr pt i) (Z.lor (PA2PTE q) PTE_V) |>.

Lemma new_table_free s fl pt i q :
  free_list s (q :: fl) -> page_ok pt -> pt ∉ fl -> pt <> q -> 0 <= i < 512 ->
  free_list (new_table pt i q s) fl.
Proof.
  intros Hf Hpt Hptf Hpq Hi. pose proof Hf as [[Hr _] Hnd Hp]. apply Forall_cons in Hp as [Hq Hp].
  apply NoDup_cons in Hnd as [Hqf _]. pose proof (free_list_alloced _ _ _ Hf) as Hfa.
  apply (free_list_frame (alloced s)); [by unfold new_table, alloced| |exact Hfa].
  intros p Hp'. rewrite Forall_forall in Hp. pose proof (Hp p Hp') as Hpp.
  assert (p <> q) as Hne by (by intros ->). assert (p <> pt) as Hne' by (by intros ->).
  pose proof (page_disjoint _ _ Hpp Hq Hne). pose proof (page_disjoint _ _ Hpp Hpt Hne').
  unfold new_table. cbn. unfold pte_addr, PGSIZE in *. rewrite load64_store64_ne by lia.
  by rewrite load64_memset_ne by (lia || discriminate).
Qed.

Lemma grow_ok s root T fl pt l i q :
  vm_ok s root T (q :: fl) -> T !! pt = Some (S l) -> 0 <= i < 512 ->
  has (entry (ks_mem s) pt i) PTE_V = false ->
  let s' := new_table pt i q s in
  kalloc s = Done q (alloced s) /\ (q =? 0) = false /\
  vm_ok s' root (<[q := l]> T) fl /\ vm_frame s s' /\ mem_frame (<[q := l]> T) s s' /\
  entry (ks_mem s') pt i = Z.lor (PA2PTE q) PTE_V /\
  (forall pa k j, T !! pa = Some k -> 0 <= j < 512 -> (pa, j) <> (pt, i) ->
     entry (ks_mem s') pa j = entry (ks_mem s) pa j) /\
  (forall va, trans (ks_mem s') 2 root va = trans (ks_mem s) 2 root va).
Proof.
  intros [Hs Hl Hf Ht Hsep] Hpt Hi Hinv.
  assert (T !! q = None) as Hqn by (apply Hsep; by left).
  pose proof Hf as [[Hr _] Hnd Hp]. apply Forall_cons in Hp as [Hq Hp].
  apply NoDup_cons in Hnd as [Hqf Hnd].
  pose proof (tb_page _ _ _ Ht _ _ Hpt) as Hptok. destruct (new_entry q Hq) as (He & HeV & HeP).
  intros s'. split; [by eapply kalloc_some_eq|]. split; [by apply page_ok_nz|].
  set (m := ks_mem s) in *. set (M := memset (memset m q 5 PGSIZE) q 0 PGSIZE).
  assert (ks_mem s' = store64 M (pte_addr pt i) (Z.lor (PA2PTE q) PTE_V)) as Em
    by (cbn; by rewrite Hr).
  assert (vm_frame s s') as Hframe by (unfold vm_frame, s', new_table, alloced; kstate_eq).
  assert (forall a, ~ (q <= a < q + PGSIZE) -> load8 M a = load8 m a) as HM.
  { intros a Ha. unfold M. by rewrite !load8_memset, !decide_False by (exact Ha || discriminate). }
  assert (forall a, a + 8 <= q \/ q + PGSIZE <= a -> load64 M a = load64 m a) as HM8.
  { intros a Ha. unfold M. by rewrite !load64_memset_ne by (exact Ha || discriminate). }
  assert (forall j, 0 <= j < 512 -> entry M q j = 0) as Hz.
  { intros j Hj. unfold entry, pte_addr, M, PGSIZE. by rewrite load64_memset_zero by lia. }
  assert (free_list s' fl) as Hfree.
  { apply new_table_free; [done|done| |congruence|done]. intros Hin. rewrite (Hsep pt) in Hpt by (by right). discriminate Hpt. }
  clearbody s' M.
  assert (forall pa j, page_ok pa -> pa <> q -> 0 <= j < 512 -> entry M pa j = entry m pa j) as Hoth.
  { intros pa j Hpa Hne Hj. apply HM8. pose proof (page_disjoint _ _ Hpa Hq Hne).
    unfold pte_addr, PGSIZE in *. lia. }
  assert (pt <> q) as Hpq by congruence.
  assert (entry (ks_mem s') pt i = Z.lor (PA2PTE q) PTE_V) as Hnew.
  { rewrite Em, entry_store, decide_True by done. done. }
  assert (forall pa k j, T !! pa = Some k -> 0 <= j < 512 -> (pa, j) <> (pt, i) ->
    entry (ks_mem s') pa j = entry m pa j) as Hold.
  { intros pa k j Hpa Hj Hne. pose proof (tb_page _ _ _ Ht _ _ Hpa).
    rewrite Em, entry_store, decide_False by (done || congruence). apply Hoth; [done|congruence|done]. }
  destruct (grow_tables m (ks_mem s') root T pt l i q Ht Hpt Hi Hinv Hq Hqn Hnew Hold) as [Ht' Htr].
  { intros j Hj. rewrite Em, entry_store, decide_False by (done || congruence). by apply Hz. }
  pose proof (vm_frame_hart _ _ Hframe) as Hsh.
  split; [|split; [exact Hframe|split; [|split; [exact Hnew|split; [exact Hold|exact Htr]]]]].
  - split; [by eapply hart_ok_same|by eapply lock_free_same| |exact Ht'|].
    + exact Hfree.
    + intros pa Hpa. rewrite lookup_insert_ne by (by intros ->). apply Hsep. by right.
  - intros a Ha. rewrite Em, load8_store64_ne.
    + apply HM. apply Ha. by rewrite lookup_insert_eq.
    + assert (~ (pt <= a < pt + PGSIZE)) by (apply Ha; rewrite lookup_insert_ne by done; by eexists).
      unfold pte_addr, PGSIZE in *. lia.
Qed.

(** What walk with allocation does: new table pages [new] come off the free
    list; no translation changes. *)
Record grown (s s' : kstate) (root : Z) (T T' : gmap Z nat) (fl fl' new : list Z) : Prop := mk_grown {
  gr_frame : vm_frame s s';
  gr_ok : vm_ok s' root T' fl';
  gr_free : fl = new ++ fl';
  gr_sub pa l : T !! pa = Some l -> T' !! pa = Some l;
  gr_dom pa : is_Some (T' !! pa) -> is_Some (T !! pa) \/ pa ∈ new;
  gr_mem : mem_frame T' s s';
  gr_entry pa k j : T !! pa = Some (S k) -> 0 <= j < 512 -> has (entry (ks_mem s) pa j) PTE_V = true ->
    entry (ks_mem s') pa j = entry (ks_mem s) pa j;
  gr_trans va : trans (ks_mem s') 2 root va = trans (ks_mem s) 2 root va
}.

Lemma grown_refl s root T fl : vm_ok s root T fl -> grown s s root T T fl fl [].
Proof. intros Hok. split; try done. by left. Qed.

Lemma grown_trans s1 s2 s3 root T1 T2 T3 fl1 fl2 fl3 new new' :
  grown s1 s2 root T1 T2 fl1 fl2 new -> grown s2 s3 root T2 T3 fl2 fl3 new' ->
  grown s1 s3 root T1 T3 fl1 fl3 (new ++ new').
Proof.
  intros [F1 O1 E1 S1 D1 M1 V1 X1] [F2 O2 E2 S2 D2 M2 V2 X2]. split.
  - by rewrite F1.
  - done.
  - by rewrite E1, E2, app_assoc.
  - eauto.
  - intros pa Hpa. apply D2 in Hpa as [Hpa|Hpa]; [apply D1 in Hpa as [?|?]; [by left|]|];
      right; apply elem_of_app; auto.
  - intros a Ha. rewrite M2 by done. apply M1. intros pa [l Hpa]. apply Ha. eauto.
  - intros pa k j Hpa Hj HV. rewrite (V2 pa k j); [by apply (V1 pa k j)|by apply S1|done|by rewrite (V1 pa k j)].
  - intros va. by rewrite X2.
Qed.

Lemma walk_levels_grow l s pt root T fl va :
  vm_ok s root T fl -> T !! pt = Some l ->
  exists a s' T' fl' new, walk_levels (levels_of l) pt va true s = Done a s' /\
    grown s s' root T T' fl fl' new /\
    (pwalk (ks_mem s') (levels_of l) pt va = Some a \/ a = 0 /\ fl' = []).
Proof.
  revert s pt T fl. induction l as [|l IH]; intros s pt T fl Hok Hpt.
  - exists (pte_addr pt (PX 0 va)), s, T, fl, []. split_and!; [done|by apply grown_refl|by left].
  - cbn [levels_of walk_levels]. set (i := PX (Z.of_nat (S l)) va).
    assert (0 <= i < 512) as Hi by apply PX_range.
    unfold load_pte. rewrite kbind_get. fold (entry (ks_mem s) pt i).
    destruct (has (entry (ks_mem s) pt i) PTE_V) eqn:HV.
    + destruct (IH s (PTE2PA (entry (ks_mem s) pt i)) T fl Hok) as (a & s' & T' & fl' & new & E & G & Hw).
      { by apply (tb_child _ _ _ (vo_tables _ _ _ _ Hok)). }
      exists a, s', T', fl', new. split_and!; [exact E|exact G|]. destruct Hw as [Hw|Hw]; [left|by right].
      cbn [pwalk]. fold i. rewrite (gr_entry _ _ _ _ _ _ _ _ G pt l i Hpt Hi HV), HV. exact Hw.
    + cbn [negb]. destruct fl as [|q fl].
      { kstep kalloc_none_eq; [|apply Hok..]. cbn [Z.eqb].
        exists 0, s, T, [], []. split_and!; [done|by apply grown_refl|by right]. }
      destruct (grow_ok s root T fl pt l i q Hok Hpt Hi HV) as (Ek & Hnz & Hok1 & F1 & M1 & En & Eo & Tr).
      kstep Ek. rewrite Hnz. unfold mem_memset, store_pte. rewrite !kbind_modify.
      fold (new_table pt i q s). set (s1 := new_table pt i q s) in *. clearbody s1.
      assert (page_ok q) as Hq.
      { destruct (vo_free _ _ _ _ Hok) as [_ _ [Hq _]%Forall_cons]. done. }
      destruct (new_entry q Hq) as (_ & HeV & HeP).
      assert (T !! q = None) as Hqn by (apply (vo_sep _ _ _ _ Hok); by left).
      assert (grown s s1 root T (<[q := l]> T) (q :: fl) fl [q]) as G1.
      { split; [done|done|done| | |done| |done].
        - intros pa k Hpa. rewrite lookup_insert_ne; [done|congruence].
        - intros pa. rewrite lookup_insert. case_decide; [subst; right; by left|by left].
        - intros pa k j Hpa Hj HV'. eapply Eo; [done|done|]. congruence. }
      destruct (IH s1 q (<[q := l]> T) fl Hok1) as (a & s' & T' & fl' & new & E & G & Hw).
      { apply lookup_insert_eq. }
      exists a, s', T', fl', ([q] ++ new). split_and!; [exact E|by eapply grown_trans|].
      destruct Hw as [Hw|Hw]; [left|by right]. cbn [pwalk]. fold i.
      rewrite (gr_entry _ _ _ _ _ _ _ _ G pt l i), En, HeV, HeP; [done| |done|by rewrite En].
      rewrite lookup_insert_ne; [done|congruence].
Qed.

(** The same without a claim about translations. *)
Record extends (s s' : kstate) (root : Z) (T T' : gmap Z nat) (fl fl' new : list Z) : Prop := mk_extends {
  ex_frame : vm_frame s s';
  ex_ok : vm_ok s' root T' fl';
  ex_free : fl = new ++ fl';
  ex_sub pa l : T !! pa = Some l -> T' !! pa = Some l;
  ex_dom pa : is_Some (T' !! pa) -> is_Some (T !! pa) \/ pa ∈ new;
  ex_mem : mem_frame T' s s'
}.
Lemma extends_trans s1 s2 s3 root T1 T2 T3 fl1 fl2 fl3 new new' :
  extends s1 s2 root T1 T2 fl1 fl2 new -> extends s2 s3 root T2 T3 fl2 fl3 new' ->
  extends s1 s3 root T1 T3 fl1 fl3 (new ++ new').
Proof.
  intros [F1 O1 E1 S1 D1 M1] [F2 O2 E2 S2 D2 M2]. split.
  - by rewrite F1.
  - done.
  - by rewrite E1, E2, app_assoc.
  - eauto.
  - intros pa Hpa. apply D2 in Hpa as [Hpa|Hpa]; [apply D1 in Hpa as [?|?]; [by left|]|];
      right; apply elem_of_app; auto.
  - intros a Ha. rewrite M2 by done. apply M1. intros pa [l Hpa]. apply Ha. eauto.
Qed.
Lemma grown_extends s s' root T T' fl fl' new :
  grown s s' root T T' fl fl' new -> extends s s' root T T' fl fl' new.
Proof. intros []. by split. Qed.

Lemma walk_noalloc s root va :
  0 <= va < MAXVA -> walk root va false s = Done (default 0 (pwalk (ks_mem s) (levels_of 2) root va)) s.
Proof.
  intros Hva. unfold walk. rewrite (proj2 (Z.leb_gt _ _)) by lia.
  change [2; 1] with (levels_of 2). generalize 2%nat. intros l. revert root.
  induction l as [|l IH]; intros pt; cbn [levels_of walk_levels pwalk]; [done|].
  unfold load_pte. rewrite kbind_get. fold (entry (ks_mem s) pt (PX (Z.of_nat (S l)) va)).
  by destruct (has _ _).
Qed.

Lemma pte_addr_nz s root T fl va a :
  vm_ok s root T fl -> pwalk (ks_mem s) (levels_of 2) root va = Some a -> (a =? 0) = false.
Proof.
  intros Hok Hw. destruct (pwalk_leaf _ _ _ _ _ _ _ (vo_tables _ _ _ _ Hok) (tb_root _ _ _ (vo_tables _ _ _ _ Hok)) Hw)
    as (p0 & Hp0 & ->).
  pose proof (page_ok_bounds _ (tb_page _ _ _ (vo_tables _ _ _ _ Hok) _ _ Hp0)) as Hb.
  pose proof (PX_range 0 va). unfold pte_addr, KERNBASE in *. apply Z.eqb_neq. lia.
Qed.

(** Storing an entry keeps the allocator and the tree. *)
Lemma store_leaf_ok s root T fl va a v :
  vm_ok s root T fl -> 0 <= va < MAXVA -> pwalk (ks_mem s) (levels_of 2) root va = Some a ->
  0 <= v < 2 ^ 64 ->
  let s' := s <| ks_mem ::= fun m => store64 m a v |> in
  extends s s' root T T fl fl [] /\
  trans (ks_mem s') 2 root va = (if has v PTE_V then Some v else None) /\
  (forall va', 0 <= va' < MAXVA -> va' / PGSIZE <> va / PGSIZE ->
     trans (ks_mem s') 2 root va' = trans (ks_mem s) 2 root va').
Proof.
  intros Hok Hva Hw Hv s'. pose proof (vo_tables _ _ _ _ Hok) as Ht.
  destruct (store_leaf _ _ _ _ _ _ Ht Hva Hw Hv) as (Ht' & _ & Hva' & Hoth).
  destruct (pwalk_leaf _ _ _ _ _ _ _ Ht (tb_root _ _ _ Ht) Hw) as (p0 & Hp0 & Ea).
  pose proof (tb_page _ _ _ Ht _ _ Hp0) as Hpk. pose proof (PX_range 0 va) as Hi.
  split; [|split; [exact Hva'|exact Hoth]].
  split; [apply vm_frame_mem| |done|done|by left|].
  - destruct Hok as [Hs Hl Hf _ Hsep]. split; [exact Hs|exact Hl| |exact Ht'|exact Hsep].
    apply (free_list_frame s); [reflexivity| |exact Hf]. intros p Hp.
    pose proof Hf as [_ _ Hpages]. rewrite Forall_forall in Hpages.
    assert (p <> p0) as Hne by (intros ->; rewrite Hsep in Hp0; done).
    pose proof (page_disjoint _ _ (Hpages p Hp) Hpk Hne). subst a. unfold pte_addr, PGSIZE in *.
    apply load64_store64_ne. lia.
  - intros x Hx. assert (~ (p0 <= x < p0 + PGSIZE)) by (apply Hx; by eexists).
    apply load8_store64_ne.
    subst a. unfold pte_addr, PGSIZE in *. lia.
Qed.

Definition map_body (pagetable last perm : Z) (x : Z * Z) : K (Z * Z + Z) :=
  let '(a, pa) := x in
  let! pte := walk pagetable a true in
  if pte =? 0 then ret (inr (-1)) else
  let! e := load_pte pte in
  if has e PTE_V then panic "mappages: remap" else
  store_pte pte (Z.lor (Z.lor (PA2PTE pa) perm) PTE_V) ;;
  if a =? last then ret (inr 0) else
  ret (inl (u64 (a + PGSIZE), u64 (pa + PGSIZE))).

(** The entry mappages writes. *)
Definition leaf (pa perm : Z) : Z := Z.lor (Z.lor (PA2PTE pa) perm) PTE_V.

Lemma leaf_ok pa perm :
  0 <= pa < 2 ^ 56 -> 0 <= perm < 2 ^ 10 -> 0 <= leaf pa perm < 2 ^ 64 /\ has (leaf pa perm) PTE_V = true.
Proof.
  intros Hpa Hp. unfold leaf. rewrite <- Z.lor_assoc. split; [|rewrite Z.lor_assoc; apply has_V].
  apply pte_range; [done|]. change PTE_V with 1.
  assert (0 <= Z.lor perm 1) by (apply Z.lor_nonneg; lia). split; [done|].
  destruct (decide (Z.lor perm 1 = 0)) as [->|]; [done|].
  apply Z.log2_lt_pow2; [lia|]. rewrite Z.log2_lor by lia. apply Z.max_lub_lt; [|done].
  destruct (decide (perm = 0)) as [->|]; [done|]. apply Z.log2_lt_pow2; lia.
Qed.

Lemma map_step s root T fl a pa last perm :
  vm_ok s root T fl -> 0 <= a < MAXVA -> trans (ks_mem s) 2 root a = None ->
  0 <= pa < 2 ^ 56 -> 0 <= perm < 2 ^ 10 ->
  exists s' T' fl' new, extends s s' root T T' fl fl' new /\
    ((map_body root last perm (a, pa) s
      = Done (if a =? last then inr 0 else inl (u64 (a + PGSIZE), u64 (pa + PGSIZE))) s' /\
      trans (ks_mem s') 2 root a = Some (leaf pa perm) /\
      (forall va', 0 <= va' < MAXVA -> va' / PGSIZE <> a / PGSIZE ->
         trans (ks_mem s') 2 root va' = trans (ks_mem s) 2 root va')) \/
     (map_body root last perm (a, pa) s = Done (inr (-1)) s' /\ fl' = [] /\
      forall va', trans (ks_mem s') 2 root va' = trans (ks_mem s) 2 root va')).
Proof.
  intros Hok Ha Hn Hpa Hperm. destruct (leaf_ok pa perm Hpa Hperm) as [Hv HV].
  destruct (walk_levels_grow 2 s root root T fl a Hok (tb_root _ _ _ (vo_tables _ _ _ _ Hok)))
    as (pte & s1 & T1 & fl1 & new & E & G & Hw).
  assert (walk root a true s = Done pte s1) as Ew.
  { unfold walk. rewrite (proj2 (Z.leb_gt _ _)) by lia. exact E. }
  destruct Hw as [Hw|[-> Hnil]].
  - pose proof (gr_ok _ _ _ _ _ _ _ _ G) as Hok1.
    destruct (store_leaf_ok s1 root T1 fl1 a pte (leaf pa perm) Hok1 Ha Hw Hv) as (X & Ht & Ho).
    assert (has (load64 (ks_mem s1) pte) PTE_V = false) as Hinv.
    { pose proof (gr_trans _ _ _ _ _ _ _ _ G a) as Htr. rewrite Hn in Htr. unfold trans in Htr.
      rewrite Hw in Htr. cbv zeta in Htr.
      destruct (has (load64 (ks_mem s1) pte) PTE_V) eqn:E'; [discriminate Htr|done]. }
    eexists _, T1, fl1, (new ++ []). split; [eapply extends_trans; [by apply grown_extends|exact X]|].
    left. split_and!.
    + unfold map_body. kstep Ew. rewrite (pte_addr_nz _ _ _ _ _ _ Hok1 Hw).
      unfold load_pte, store_pte. rewrite kbind_get, Hinv, kbind_modify. destruct (a =? last); reflexivity.
    + by rewrite Ht, HV.
    + intros va' Hva' Hne. rewrite Ho by done. apply (gr_trans _ _ _ _ _ _ _ _ G).
  - exists s1, T1, fl1, new. split; [by apply grown_extends|]. right. split_and!; [|done|apply (gr_trans _ _ _ _ _ _ _ _ G)].
    unfold map_body. by kstep Ew.
Qed.

Lemma PX_page k va va' : va / PGSIZE = va' / PGSIZE -> PX (Z.of_nat k) va = PX (Z.of_nat k) va'.
Proof.
  intros E. unfold PX, PXSHIFT, PGSHIFT. f_equal.
  rewrite <- !(Z.shiftr_shiftr _ 12) by lia. rewrite !(Z.shiftr_div_pow2 _ 12) by lia.
  change (2 ^ 12) with PGSIZE. by rewrite E.
Qed.

Lemma trans_page m l pt va va' : va / PGSIZE = va' / PGSIZE -> trans m l pt va = trans m l pt va'.
Proof.
  intros E. revert pt. induction l as [|l IH]; intros pt.
  - rewrite !trans_0. assert (PX 0 va = PX 0 va') as Hx by exact (PX_page 0 va va' E). by rewrite Hx.
  - rewrite !trans_S, (PX_page _ va va' E). cbv zeta. by destruct (has _ _).
Qed.

(** [s'] maps the pages from [a] up to [b] to the frames from [pa] on, and
    translates every other page as [s] does. *)
Definition maps (s s' : kstate) (root a b pa perm : Z) : Prop :=
  forall va, 0 <= va < MAXVA -> trans (ks_mem s') 2 root va =
    if decide (a <= va < b) then Some (leaf (pa + (va - a) / PGSIZE * PGSIZE) perm)
    else trans (ks_mem s) 2 root va.
Definition same_outside (s s' : kstate) (root a b : Z) : Prop :=
  forall va, 0 <= va < MAXVA -> ~ (a <= va < b) ->
    trans (ks_mem s') 2 root va = trans (ks_mem s) 2 root va.

(** One page more at the front of a mapped range, or of one that failed. *)
Lemma maps_cons s s1 s' root a b pa perm :
  a `mod` PGSIZE = 0 -> a + PGSIZE <= b -> trans (ks_mem s1) 2 root a = Some (leaf pa perm) ->
  (forall va, 0 <= va < MAXVA -> va / PGSIZE <> a / PGSIZE ->
     trans (ks_mem s1) 2 root va = trans (ks_mem s) 2 root va) ->
  maps s1 s' root (a + PGSIZE) b (pa + PGSIZE) perm -> maps s s' root a b pa perm.
Proof.
  intros Hal Hb Hv Ho Hm va Hva. rewrite Hm by done. destruct (decide (a <= va < b)) as [Hr|Hr].
  - destruct (decide (a + PGSIZE <= va)) as [Hp|Hp].
    + rewrite decide_True by lia. do 2 f_equal. unfold PGSIZE in *. dlia.
    + rewrite decide_False by lia. assert (va / PGSIZE = a / PGSIZE) as Ep by (unfold PGSIZE in *; dlia).
      rewrite (trans_page _ _ _ va a Ep), Hv. do 2 f_equal. unfold PGSIZE in *. dlia.
  - rewrite decide_False by (unfold PGSIZE in *; lia). apply Ho; [done|]. unfold PGSIZE in *. dlia.
Qed.
Lemma maps_one s s' root a pa perm :
  a `mod` PGSIZE = 0 -> trans (ks_mem s') 2 root a = Some (leaf pa perm) ->
  (forall va, 0 <= va < MAXVA -> va / PGSIZE <> a / PGSIZE ->
     trans (ks_mem s') 2 root va = trans (ks_mem s) 2 root va) ->
  maps s s' root a (a + PGSIZE) pa perm.
Proof.
  intros Hal Hv Ho. eapply maps_cons; [done|lia|exact Hv|exact Ho|]. intros va _. by rewrite decide_False by lia.
Qed.

Lemma map_loop n k s root T fl a pa last perm :
  (n < k)%nat -> vm_ok s root T fl -> 0 <= a -> a `mod` PGSIZE = 0 -> 0 <= pa ->
  last = a + Z.of_nat n * PGSIZE -> last + PGSIZE <= MAXVA -> pa + (Z.of_nat n + 1) * PGSIZE <= 2 ^ 56 ->
  0 <= perm < 2 ^ 10 ->
  (forall va, a <= va < last + PGSIZE -> trans (ks_mem s) 2 root va = None) ->
  exists r s' T' fl' new, loop k (map_body root last perm) (a, pa) s = Done r s' /\
    extends s s' root T T' fl fl' new /\
    (r = 0 /\ maps s s' root a (last + PGSIZE) pa perm \/
     r = -1 /\ fl' = [] /\ same_outside s s' root a (last + PGSIZE)).
Proof.
  revert k s T fl a pa. induction n as [|n IH]; intros k s T fl a pa Hk Hok Ha Hal Hpa Hlast Hmax Hpmax Hperm Hnone;
    (destruct k as [|k]; [lia|]);
    (destruct (map_step s root T fl a pa last perm) as (s1 & T1 & fl1 & new1 & X1 & [(E & Hv & Ho)|(E & Hnil & Ho)]);
       [done|unfold PGSIZE in *; lia|apply Hnone; unfold PGSIZE in *; lia|unfold PGSIZE in *; lia|done| |]).
  - exists 0, s1, T1, fl1, new1. assert (a = last) as -> by lia. rewrite Z.eqb_refl in E.
    split_and!; [by apply loop_done|done|left]. split; [done|]. by apply maps_one.
  - exists (-1), s1, T1, fl1, new1. split_and!; [by apply loop_done|done|right]. split_and!; [done|done|].
    intros va _ _. apply Ho.
  - rewrite (proj2 (Z.eqb_neq _ _)) in E by (unfold PGSIZE in *; lia).
    rewrite (u64_small (a + PGSIZE)), (u64_small (pa + PGSIZE)) in E
      by (change MAXVA with (2 ^ 38) in *; unfold PGSIZE in *; lia).
    destruct (IH k s1 T1 fl1 (a + PGSIZE) (pa + PGSIZE)) as (r & s' & T' & fl' & new & E' & X' & Hc).
    + lia.
    + apply (ex_ok _ _ _ _ _ _ _ _ X1).
    + unfold PGSIZE. lia.
    + unfold PGSIZE in *. dlia.
    + unfold PGSIZE. lia.
    + lia.
    + done.
    + lia.
    + done.
    + intros va Hva. rewrite Ho; [apply Hnone; unfold PGSIZE in *; lia|unfold PGSIZE in *; lia|].
      unfold PGSIZE in *. dlia.
    + exists r, s', T', fl', (new1 ++ new). split_and!.
      * by erewrite loop_next by exact E.
      * by eapply extends_trans.
      * destruct Hc as [[-> Hm]|(-> & Hnil & Hm)]; [left; split; [done|]|right; split_and!; [done|done|]].
        -- eapply maps_cons; [done|unfold PGSIZE in *; lia|exact Hv|exact Ho|exact Hm].
        -- intros va Hva Hr. rewrite Hm; [|done|unfold PGSIZE in *; lia].
           apply Ho; [done|]. unfold PGSIZE in *. dlia.
  - exists (-1), s1, T1, fl1, new1. split_and!; [by apply loop_done|done|right]. split_and!; [done|done|].
    intros va _ _. apply Ho.
Qed.

Lemma walk_levels_found m levels pt va alloc a s :
  ks_mem s = m -> pwalk m levels pt va = Some a -> walk_levels levels pt va alloc s = Done a s.
Proof.
  intros <-. revert pt. induction levels as [|lv ls IH]; intros pt Hw; cbn [walk_levels pwalk] in *.
  - by simplify_eq.
  - unfold load_pte. rewrite kbind_get. fold (entry (ks_mem s) pt (PX lv va)).
    destruct (has _ _); [by apply IH|done].
Qed.

Lemma walk_found s root va alloc a :
  0 <= va < MAXVA -> pwalk (ks_mem s) (levels_of 2) root va = Some a -> walk root va alloc s = Done a s.
Proof.
  intros Hva Hw. unfold walk. rewrite (proj2 (Z.leb_gt _ _)) by lia. by eapply walk_levels_found.
Qed.

Lemma trans_some m root va e :
  trans m 2 root va = Some e ->
  exists a, pwalk m (levels_of 2) root va = Some a /\ load64 m a = e /\ has e PTE_V = true.
Proof.
  unfold trans. destruct (pwalk _ _ _ _) as [a|]; [|done]. cbv zeta.
  destruct (has _ _) eqn:E; [|done]. intros; simplify_eq. eauto.
Qed.

Lemma mappages_unfold root va size pa perm s :
  0 < size -> 0 <= va -> va + size <= MAXVA ->
  let a := PGROUNDDOWN va in let last := PGROUNDDOWN (va + size - 1) in
  mappages root va size pa perm s = loop (page_steps a last) (map_body root last perm) (a, pa) s.
Proof.
  intros Hsz Hva Hmax a last. unfold mappages. rewrite (proj2 (Z.eqb_neq _ _)) by lia.
  change MAXVA with (2 ^ 38) in Hmax. by rewrite (u64_small (va + size - 1)) by lia.
Qed.


(** mappages() never overwrites a mapping: if the first page of the
    range is mapped it panics and nothing is written. *)
Theorem mappages_remap s root T fl va size pa perm e :
  vm_ok s root T fl -> 0 < size -> 0 <= va -> va + size <= MAXVA ->
  trans (ks_mem s) 2 root va = Some e ->
  mappages root va size pa perm s = Panic "mappages: remap".
Proof.
  intros Hok Hsz Hva Hmax He. rewrite mappages_unfold by done.
  assert (PGROUNDDOWN va = va / PGSIZE * PGSIZE) as Ea
    by (apply PGROUNDDOWN_eq; change MAXVA with (2 ^ 38) in *; lia).
  assert (0 <= PGROUNDDOWN va < MAXVA) as Hr by (rewrite Ea; unfold PGSIZE in *; dlia).
  rewrite (trans_page _ _ _ va (PGROUNDDOWN va)) in He by (rewrite Ea; unfold PGSIZE in *; dlia).
  apply trans_some in He as (x & Hw & Hl & HV).
  unfold page_steps. cbn [loop]. apply kbind_panic. unfold map_body.
  kstep (walk_found s root (PGROUNDDOWN va) true x Hr Hw). rewrite (pte_addr_nz _ _ _ _ _ _ Hok Hw).
  unfold load_pte. rewrite kbind_get, Hl, HV. done.
Qed.

(** ** uvmunmap *)

Definition unmap_body (pagetable end_va : Z) (do_free : bool) (a : Z) : K (Z + unit) :=
  if negb (a <? end_va) then ret (inr tt) else
  let! pte := walk pagetable a false in
  if pte =? 0 then panic "uvmunmap: walk" else
  let! e := load_pte pte in
  if negb (has e PTE_V) then panic "uvmunmap: not mapped" else
  if PTE_FLAGS e =? PTE_V then panic "uvmunmap: not a leaf" else
  when do_free (kfree (PTE2PA e)) ;;
  store_pte pte 0 ;;
  ret (inl (u64 (a + PGSIZE))).

(** A mapped page whose frame can be given back. *)
Definition owned (T : gmap Z nat) (fl : list Z) (pa : Z) : Prop :=
  page_ok pa /\ (pa ∉ fl) /\ T !! pa = None.

Lemma entry_freed m pa x : page_ok pa -> x + 8 <= pa \/ pa + PGSIZE <= x ->
  forall f, load64 (store64 (memset m pa 1 PGSIZE) pa f) x = load64 m x.
Proof.
  intros Hp Hx f. rewrite load64_store64_ne by (unfold PGSIZE in *; lia).
  apply load64_memset_ne; [discriminate|lia].
Qed.

Lemma freed_mem pa s :
  ks_mem (freed pa s) = store64 (memset (ks_mem s) pa 1 PGSIZE) pa (ks_freelist s).
Proof. reflexivity. Qed.

Lemma freed_frame pa s : vm_frame s (freed pa s).
Proof. unfold vm_frame, freed. kstate_eq. Qed.

Lemma freed_entry s T fl pa q l j :
  (forall pa l, T !! pa = Some l -> page_ok pa) -> owned T fl pa -> T !! q = Some l -> 0 <= j < 512 ->
  entry (ks_mem (freed pa s)) q j = entry (ks_mem s) q j.
Proof.
  intros Hpage (Hp & _ & HpT) Hq Hj. assert (q <> pa) as Hne by congruence.
  pose proof (page_disjoint _ _ (Hpage _ _ Hq) Hp Hne) as Hd.
  assert (pte_addr q j + 8 <= pa \/ pa + PGSIZE <= pte_addr q j) as Hx.
  { clear -Hd Hj. unfold pte_addr, PGSIZE in *. lia. }
  unfold entry. rewrite freed_mem. by apply entry_freed.
Qed.

(** A change of memory that keeps the entries of the tables keeps what they mean. *)
Lemma tables_agree m m' root T :
  tables m root T ->
  (forall q l j, T !! q = Some l -> 0 <= j < 512 -> entry m' q j = entry m q j) ->
  tables m' root T /\
  (forall va, pwalk m' (levels_of 2) root va = pwalk m (levels_of 2) root va) /\
  (forall va, trans m' 2 root va = trans m 2 root va).
Proof.
  intros Ht Hold.
  assert (forall va, pwalk m' (levels_of 2) root va = pwalk m (levels_of 2) root va) as Hpw.
  { intros va. eapply pwalk_ext; [|exact Ht|apply (tb_root _ _ _ Ht)]. intros q l j Hq Hj. by eapply Hold. }
  split_and!; [|done|].
  - eapply tables_ext; [|exact Ht]. intros q l j Hq Hj. by eapply Hold.
  - intros va. unfold trans. rewrite Hpw. destruct (pwalk m _ _ _) as [x|] eqn:Hw; [|done].
    destruct (pwalk_leaf _ _ _ _ _ _ _ Ht (tb_root _ _ _ Ht) Hw) as (p0 & Hp0 & ->).
    change (load64 m' (pte_addr p0 (PX 0 va))) with (entry m' p0 (PX 0 va)).
    by rewrite (Hold p0 0%nat) by (done || apply PX_range).
Qed.

(** Freeing an owned frame keeps the tree and its translations. *)
Lemma freed_ok s root T fl pa :
  vm_ok s root T fl -> owned T fl pa ->
  vm_ok (freed pa s) root T (pa :: fl) /\ vm_frame s (freed pa s) /\
  (forall va, trans (ks_mem (freed pa s)) 2 root va = trans (ks_mem s) 2 root va) /\
  (forall va, pwalk (ks_mem (freed pa s)) (levels_of 2) root va = pwalk (ks_mem s) (levels_of 2) root va).
Proof.
  intros [Hs Hl Hf Ht Hsep] Ho. pose proof Ho as (Hp & Hpf & HpT).
  pose proof (free_list_freed pa s fl Hf Hp Hpf) as Hf'.
  pose proof (freed_frame pa s) as Hfr. pose proof (vm_frame_hart _ _ Hfr) as Hsh.
  destruct (tables_agree (ks_mem s) (ks_mem (freed pa s)) root T Ht) as (Ht' & Hpw & Htr).
  { intros q l j Hq Hj. eapply freed_entry; eauto using tb_page. }
  split; [|split; [exact Hfr|split; [exact Htr|exact Hpw]]].
  split; [by eapply hart_ok_same|by eapply lock_free_same|exact Hf'|exact Ht'|].
  intros q [->|Hq]%elem_of_cons; [exact HpT|by apply Hsep].
Qed.

(** Memory is unchanged outside the page-table pages and the pages of [fs]. *)
Definition mem_except (T : gmap Z nat) (fs : list Z) (s s' : kstate) : Prop :=
  forall x, outside T x -> (forall pa, pa ∈ fs -> ~ (pa <= x < pa + PGSIZE)) ->
    load8 (ks_mem s') x = load8 (ks_mem s) x.

Lemma freed_mem8 pa s x :
  ~ (pa <= x < pa + PGSIZE) -> load8 (ks_mem (freed pa s)) x = load8 (ks_mem s) x.
Proof.
  intros Hx. rewrite freed_mem, load8_store64_ne.
  - by rewrite load8_memset, decide_False by (exact Hx || discriminate).
  - clear -Hx. unfold PGSIZE in *. lia.
Qed.

Lemma unmap_step s root T fl a end_va df e :
  vm_ok s root T fl -> 0 <= a < MAXVA -> a < end_va -> trans (ks_mem s) 2 root a = Some e ->
  PTE_FLAGS e <> PTE_V -> (df = true -> owned T fl (PTE2PA e)) ->
  let fs := if df : bool then [PTE2PA e] else [] in
  exists s', unmap_body root end_va df a s = Done (inl (u64 (a + PGSIZE))) s' /\
    vm_ok s' root T (fs ++ fl) /\ vm_frame s s' /\ mem_except T fs s s' /\
    trans (ks_mem s') 2 root a = None /\
    (forall va', 0 <= va' < MAXVA -> va' / PGSIZE <> a / PGSIZE ->
       trans (ks_mem s') 2 root va' = trans (ks_mem s) 2 root va').
Proof.
  intros Hok Ha Hlt He Hfl Hown fs. destruct (trans_some _ _ _ _ He) as (x & Hw & Hl & HV).
  assert (exists s1, when df (kfree (PTE2PA e)) s = Done tt s1 /\ vm_ok s1 root T (fs ++ fl) /\
    vm_frame s s1 /\ mem_except T fs s s1 /\
    (forall va, trans (ks_mem s1) 2 root va = trans (ks_mem s) 2 root va) /\
    pwalk (ks_mem s1) (levels_of 2) root a = Some x) as (s1 & E1 & Hok1 & F1 & M1 & Tr1 & Hw1).
  { unfold fs. destruct df.
    - pose proof (Hown eq_refl) as Ho. destruct (freed_ok s root T fl _ Hok Ho) as (Hok' & Hf & Htr & Hpw).
      exists (freed (PTE2PA e) s). split_and!; [|done|done| |done|by rewrite Hpw].
      + apply kfree_eq; [apply Hok..|apply Ho].
      + intros y _ Hy. apply freed_mem8, Hy. by left.
    - by exists s. }
  destruct (store_leaf_ok s1 root T _ a x 0 Hok1 Ha Hw1) as (X & Ht & Ho); [lia|].
  eexists. split; [|split; [apply (ex_ok _ _ _ _ _ _ _ _ X)|split; [|split; [|split; [exact Ht|]]]]].
  - unfold unmap_body. rewrite (proj2 (Z.ltb_lt _ _)) by done. cbn [negb].
    kstep (walk_found s root a false x Ha Hw). rewrite (pte_addr_nz _ _ _ _ _ _ Hok Hw).
    unfold load_pte, store_pte. rewrite kbind_get, Hl, HV. cbn [negb].
    rewrite (proj2 (Z.eqb_neq _ _)) by done. kstep E1. rewrite kbind_modify. reflexivity.
  - transitivity s1; [done|]. apply (ex_frame _ _ _ _ _ _ _ _ X).
  - intros y Hy Hyf. rewrite <- (M1 y Hy Hyf). by apply (ex_mem _ _ _ _ _ _ _ _ X).
  - intros va' Hva' Hne. rewrite Ho by done. apply Tr1.
Qed.

(** The frames of [n] pages from [va]. *)
Definition frame_of (s : kstate) (root va : Z) : Z := PTE2PA (default 0 (trans (ks_mem s) 2 root va)).
Definition frames (s : kstate) (root va : Z) (n : nat) : list Z :=
  map (fun i => frame_of s root (va + Z.of_nat i * PGSIZE)) (seq 0 n).

Lemma frames_S s root va n :
  frames s root va (S n) = frame_of s root va :: frames s root (va + PGSIZE) n.
Proof.
  unfold frames. cbn [seq map]. rewrite Z.mul_0_l, Z.add_0_r. f_equal.
  rewrite <- seq_shift, map_map. apply map_ext. intros i. f_equal. lia.
Qed.

Lemma frames_ext s s' root va n :
  (forall i, (i < n)%nat -> trans (ks_mem s') 2 root (va + Z.of_nat i * PGSIZE)
     = trans (ks_mem s) 2 root (va + Z.of_nat i * PGSIZE)) ->
  frames s' root va n = frames s root va n.
Proof.
  intros Hext. unfold frames. apply map_ext_in. intros i Hi. apply in_seq in Hi.
  unfold frame_of. by rewrite Hext by lia.
Qed.

(** Every page of the range is mapped by a leaf entry. *)
Definition mapped (s : kstate) (root a b : Z) : Prop :=
  forall va, a <= va < b -> exists e, trans (ks_mem s) 2 root va = Some e /\ PTE_FLAGS e <> PTE_V.
(** [s'] translates no page of the range, and every other page as [s]. *)
Definition unmaps (s s' : kstate) (root a b : Z) : Prop :=
  forall va, 0 <= va < MAXVA ->
    trans (ks_mem s') 2 root va = if decide (a <= va < b) then None else trans (ks_mem s) 2 root va.

Lemma unmaps_cons s s1 s' root a b :
  a `mod` PGSIZE = 0 -> a + PGSIZE <= b -> trans (ks_mem s1) 2 root a = None ->
  (forall va, 0 <= va < MAXVA -> va / PGSIZE <> a / PGSIZE ->
     trans (ks_mem s1) 2 root va = trans (ks_mem s) 2 root va) ->
  unmaps s1 s' root (a + PGSIZE) b -> unmaps s s' root a b.
Proof.
  intros Hal Hb Hn Ho U va Hva. rewrite U by done. destruct (decide (a <= va < b)) as [Hr|Hr].
  - case_decide as Hr'; [done|]. rewrite (trans_page _ _ _ va a), Hn; [done|].
    clear -Hr Hr' Hal. unfold PGSIZE in *. dlia.
  - rewrite decide_False by (unfold PGSIZE in *; lia). apply Ho; [done|].
    clear -Hr Hal Hb. unfold PGSIZE in *. dlia.
Qed.

Lemma unmap_loop n k s root T fl a df :
  (n < k)%nat -> vm_ok s root T fl -> 0 <= a -> a `mod` PGSIZE = 0 ->
  let end_va := a + Z.of_nat n * PGSIZE in
  end_va <= MAXVA -> mapped s root a end_va ->
  let fs := if df : bool then frames s root a n else [] in
  NoDup fs -> Forall (owned T fl) fs ->
  exists s', loop k (unmap_body root end_va df) a s = Done tt s' /\
    vm_ok s' root T (rev fs ++ fl) /\ vm_frame s s' /\ mem_except T fs s s' /\
    unmaps s s' root a end_va.
Proof.
  revert k s fl a. induction n as [|n IH]; intros k s fl a Hk Hok Ha Hal end_va Hmax Hmap fs Hnd Hown;
    (destruct k as [|k]; [lia|]).
  - exists s. assert (fs = []) as -> by (unfold fs; by destruct df). split_and!; [|done..| |].
    + apply loop_done. unfold unmap_body. by rewrite (proj2 (Z.ltb_ge _ _)) by (unfold end_va; lia).
    + intros x _ _. reflexivity.
    + intros va _. by rewrite decide_False by (unfold end_va; lia).
  - assert (a < end_va) as Hlt by (unfold end_va, PGSIZE; lia).
    assert (a + PGSIZE <= end_va) as Hle by (unfold end_va, PGSIZE; lia).
    destruct (Hmap a ltac:(lia)) as (e & He & Hfl). set (fs1 := if df : bool then [PTE2PA e] else []).
    assert (fs = fs1 ++ if df then frames s root (a + PGSIZE) n else []) as Efs.
    { unfold fs, fs1. destruct df; [|done]. rewrite frames_S. unfold frame_of at 1. by rewrite He. }
    destruct (unmap_step s root T fl a end_va df e Hok) as (s1 & E1 & Hok1 & F1 & M1 & Hn1 & Ho1);
      [lia|done|done|done| |].
    { intros ->. rewrite Efs in Hown. by apply Forall_app in Hown as [[? _]%Forall_cons _]. }
    fold fs1 in Hok1, M1.
    assert (forall va, a + PGSIZE <= va < MAXVA ->
      trans (ks_mem s1) 2 root va = trans (ks_mem s) 2 root va) as Htail.
    { intros va Hva. apply Ho1; [unfold PGSIZE in *; lia|]. clear -Hva Hal. unfold PGSIZE in *. dlia. }
    assert (frames s1 root (a + PGSIZE) n = frames s root (a + PGSIZE) n) as Ef.
    { apply frames_ext. intros i Hi. apply Htail. unfold end_va, PGSIZE in *. lia. }
    rewrite <- Ef in Efs. assert (a + PGSIZE + Z.of_nat n * PGSIZE = end_va) as Eend by (unfold end_va; lia).
    rewrite Efs in Hnd, Hown. apply NoDup_app in Hnd as (_ & Hdisj & Hnd). apply Forall_app in Hown as [_ Hown].
    destruct (IH k s1 (fs1 ++ fl) (a + PGSIZE)) as (s' & E & Hok' & F & M & U).
    + lia.
    + done.
    + unfold PGSIZE. lia.
    + clear -Hal. unfold PGSIZE in *. dlia.
    + by rewrite Eend.
    + rewrite Eend. intros va Hva. rewrite Htail by lia. apply Hmap. unfold PGSIZE in *. lia.
    + done.
    + apply Forall_forall. intros pa Hpa. rewrite Forall_forall in Hown. destruct (Hown pa Hpa) as (H1 & H2 & H3).
      split_and!; [done| |done]. rewrite elem_of_app. intros [Hin|Hin]; [by eapply Hdisj|done].
    + rewrite Eend in E, U. exists s'. split_and!.
      * erewrite loop_next; [exact E|]. rewrite E1, u64_small; [reflexivity|].
        clear -Ha Hmax Hle. change MAXVA with (2 ^ 38) in Hmax. unfold PGSIZE in *. lia.
      * rewrite Efs, rev_app_distr, <- app_assoc. assert (rev fs1 = fs1) as -> by (unfold fs1; by destruct df).
        exact Hok'.
      * by transitivity s1.
      * rewrite Efs. intros x Hx Hfx. rewrite M, M1; [done|done| |done|]; intros pa Hpa; apply Hfx, elem_of_app; auto.
      * by eapply unmaps_cons.
Qed.

Lemma page_steps_pages a n : (n < S (page_steps a (a + Z.of_nat n * PGSIZE)))%nat.
Proof.
  unfold page_steps. rewrite (proj2 (Z.leb_le _ _)) by (unfold PGSIZE; lia).
  replace (a + Z.of_nat n * PGSIZE - a) with (Z.of_nat n * PGSIZE) by lia. rewrite Z.div_mul by done. lia.
Qed.

Lemma uvmunmap_run s root T fl va n df :
  vm_ok s root T fl -> 0 <= va -> va `mod` PGSIZE = 0 ->
  let end_va := va + Z.of_nat n * PGSIZE in
  end_va <= MAXVA -> mapped s root va end_va ->
  let fs := if df : bool then frames s root va n else [] in
  NoDup fs -> Forall (owned T fl) fs ->
  exists s', uvmunmap root va (Z.of_nat n) df s = Done tt s' /\
    vm_ok s' root T (rev fs ++ fl) /\ vm_frame s s' /\ mem_except T fs s s' /\
    unmaps s s' root va end_va.
Proof.
  intros Hok Hva Hal end_va Hmax Hmap fs Hnd Hown.
  destruct (unmap_loop n (S (page_steps va end_va)) s root T fl va df) as (s' & E & Hrest); try done.
  { apply page_steps_pages. }
  exists s'. split; [|exact Hrest]. unfold uvmunmap. rewrite Hal. cbn [Z.eqb negb].
  rewrite u64_small by (change MAXVA with (2 ^ 38) in Hmax; unfold end_va, PGSIZE in *; lia). exact E.
Qed.

(** C32: uvmunmap() on [n] mapped pages removes exactly those
    translations; with do_free it gives each page's frame back to the
    allocator, once, and otherwise frees nothing.  No panic is reached. *)
Theorem uvmunmap_correct s root T fl va n df :
  vm_ok s root T fl -> 0 <= va -> va `mod` PGSIZE = 0 ->
  let end_va := va + Z.of_nat n * PGSIZE in
  end_va <= MAXVA -> mapped s root va end_va ->
  let fs := if df : bool then frames s root va n else [] in
  NoDup fs -> Forall (owned T fl) fs ->
  exists s', uvmunmap root va (Z.of_nat n) df s = Done tt s' /\
    vm_ok s' root T (rev fs ++ fl) /\ vm_frame s s' /\ mem_except T fs s s' /\
    unmaps s s' root va end_va.
Proof. apply uvmunmap_run. Qed.

(** ** A single page *)

Lemma map_page s root T fl a pa perm :
  vm_ok s root T fl -> 0 <= a -> a `mod` PGSIZE = 0 -> a + PGSIZE <= MAXVA ->
  trans (ks_mem s) 2 root a = None -> 0 <= pa < 2 ^ 56 -> 0 <= perm < 2 ^ 10 ->
  exists r s' T' fl' new, mappages root a PGSIZE pa perm s = Done r s' /\
    extends s s' root T T' fl fl' new /\
    ((r = 0 /\ trans (ks_mem s') 2 root a = Some (leaf pa perm) /\
      (forall va', 0 <= va' < MAXVA -> va' / PGSIZE <> a / PGSIZE ->
         trans (ks_mem s') 2 root va' = trans (ks_mem s) 2 root va')) \/
     (r = -1 /\ fl' = [] /\ forall va', trans (ks_mem s') 2 root va' = trans (ks_mem s) 2 root va')).
Proof.
  intros Hok Ha Hal Hmax Hn Hpa Hperm.
  assert (PGROUNDDOWN a = a /\ PGROUNDDOWN (a + PGSIZE - 1) = a) as [E1 E2].
  { change MAXVA with (2 ^ 38) in Hmax. rewrite !PGROUNDDOWN_eq by (unfold PGSIZE in *; lia).
    clear -Hal. unfold PGSIZE in *. dlia. }
  rewrite mappages_unfold by (done || lia). cbv zeta. rewrite E1, E2.
  destruct (map_step s root T fl a pa a perm) as (s' & T' & fl' & new & X & Hc); [done| |done..|].
  { unfold PGSIZE in *. lia. }
  rewrite Z.eqb_refl in Hc. unfold page_steps.
  destruct Hc as [(E & Hv & Ho)|(E & Hnil & Ho)].
  - exists 0, s', T', fl', new. split; [by apply loop_done|]. split; [exact X|]. by left.
  - exists (-1), s', T', fl', new. split; [by apply loop_done|]. split; [exact X|]. by right.
Qed.
End Machine.
