(* ===== verification/VmAlloc.v ===== *)
(** * Allocating user memory (vm.c: uvmalloc, uvmdealloc, uvmcreate, uvmcopy).

    Both uvmalloc() and uvmcopy() take frames off the free list one by one,
    fill them and map them, and give everything back when they run out of
    memory.  [allocd] describes such a loop after some pages, for any filling
    and any permissions. *)

From S2P Require Import Prelude Defs KMonad Lock Mem Kalloc Vm.

#[local] Opaque memset store64 load64 load8 store_bytes memmove.

Section Machine.
Context `{Fuel, KernelImage}.

(** Page [q] holds the bytes [c]. *)
Definition page_holds (s : kstate) (q : Z) (c : Z -> Z) : Prop :=
  forall x, 0 <= x < PGSIZE -> load8 (ks_mem s) (q + x) = c x.

(** From [s] to [s1] the page [q] has been taken off the free list and filled
    with [c]. *)
Record taken (s s1 : kstate) (root : Z) (T : gmap Z nat) (q : Z) (fl : list Z) (c : Z -> Z) : Prop := mk_taken {
  tk_owned : owned T fl q;
  tk_ok : vm_ok s1 root T fl;
  tk_frame : vm_frame s s1;
  tk_mem : mem_except T [q] s s1;
  tk_page : page_holds s1 q c;
  tk_trans va : trans (ks_mem s1) 2 root va = trans (ks_mem s) 2 root va
}.

(** kalloc() of page [q], then memory [m]. *)
Definition filled (m : gmap Z Z) (s : kstate) : kstate := (alloced s) <| ks_mem := m |>.
(** kalloc() followed by memset(mem, 0, PGSIZE). *)
Definition zeroed (q : Z) (s : kstate) : kstate :=
  (alloced s) <| ks_mem ::= fun m => memset m q 0 PGSIZE |>.

Lemma alloced_mem s : ks_mem (alloced s) = memset (ks_mem s) (ks_freelist s) 5 PGSIZE.
Proof. reflexivity. Qed.
Lemma alloced_list s : ks_freelist (alloced s) = load64 (ks_mem s) (ks_freelist s).
Proof. reflexivity. Qed.
Lemma filled_list m s : ks_freelist (filled m s) = load64 (ks_mem s) (ks_freelist s).
Proof. reflexivity. Qed.
Lemma filled_frame m s : vm_frame s (filled m s).
Proof. unfold vm_frame, filled, alloced. kstate_eq. Qed.

(** Memory that differs from before the allocation only in the page. *)
Definition in_page (q : Z) (s : kstate) (m : gmap Z Z) : Prop :=
  forall x, ~ (q <= x < q + PGSIZE) -> load8 m x = load8 (ks_mem s) x.

Lemma filled_free s q fl m : free_list s (q :: fl) -> in_page q s m -> free_list (filled m s) fl.
Proof.
  intros Hf Hm. pose proof Hf as [[Hr _] Hnd Hp]. apply Forall_cons in Hp as [Hq Hp].
  apply NoDup_cons in Hnd as [Hqf Hnd]. pose proof (free_list_alloced _ _ _ Hf) as Hfa.
  assert (forall p, p + 8 <= q \/ q + PGSIZE <= p -> load64 m p = load64 (ks_mem (alloced s)) p) as HA.
  { intros p Hpp. rewrite alloced_mem, Hr, load64_memset_ne by done. apply load64_ext.
    intros x Hx. apply Hm. unfold PGSIZE in *. lia. }
  pose proof (filled_list m s) as Hzl. rewrite <- alloced_list in Hzl.
  apply (free_list_frame (alloced s)); [exact Hzl| |exact Hfa].
  intros p Hpp. rewrite Forall_forall in Hp. assert (p <> q) as Hne by congruence.
  pose proof (page_disjoint _ _ (Hp p Hpp) Hq Hne) as Hd. apply HA. clear -Hd. unfold PGSIZE in *. lia.
Qed.

Lemma kalloc_vm s root T q fl : vm_ok s root T (q :: fl) -> kalloc s = Done q (alloced s) /\ (q =? 0) = false.
Proof.
  intros [Hs Hl Hf _ _]. pose proof Hf as [_ _ Hp]. apply Forall_cons in Hp as [Hq _].
  split; [by eapply kalloc_some_eq|by apply page_ok_nz].
Qed.

Lemma filled_taken s root T q fl m c :
  vm_ok s root T (q :: fl) -> in_page q s m -> (forall x, 0 <= x < PGSIZE -> load8 m (q + x) = c x) ->
  taken s (filled m s) root T q fl c.
Proof.
  intros [Hs Hl Hf Ht Hsep] Hm Hc. pose proof Hf as [[Hr _] Hnd Hp]. apply Forall_cons in Hp as [Hq Hp].
  apply NoDup_cons in Hnd as [Hqf Hnd]. assert (T !! q = None) as HqT by (apply Hsep; by left).
  pose proof (filled_frame m s) as Hfr. pose proof (vm_frame_hart _ _ Hfr) as Hsh.
  pose proof (filled_free s q fl m Hf Hm) as Hf'.
  destruct (tables_agree (ks_mem s) m root T Ht) as (Ht' & _ & Htr).
  { intros pa l j Hpa Hj. assert (pa <> q) as Hne by congruence.
    pose proof (page_disjoint _ _ (tb_page _ _ _ Ht _ _ Hpa) Hq Hne) as Hd.
    apply load64_ext. intros x Hx. apply Hm. clear -Hd Hj Hx. unfold pte_addr, PGSIZE in *. lia. }
  split; [by split_and!| |exact Hfr| |exact Hc|exact Htr].
  - split; [by eapply hart_ok_same|by eapply lock_free_same|exact Hf'|exact Ht'|].
    intros pa Hpa. apply Hsep. by right.
  - intros x _ Hx. apply Hm, Hx. by left.
Qed.

Lemma zeroed_taken s root T q fl : vm_ok s root T (q :: fl) -> taken s (zeroed q s) root T q fl (fun _ => 0).
Proof.
  intros Hok. pose proof (vo_free _ _ _ _ Hok) as [[Hr _] _ _].
  apply (filled_taken s root T q fl (memset (ks_mem (alloced s)) q 0 PGSIZE)); [done|..]; intros x Hx.
  - by rewrite load8_memset, decide_False, alloced_mem, Hr, load8_memset, decide_False by (exact Hx || discriminate).
  - rewrite load8_memset, decide_True by (lia || discriminate). reflexivity.
Qed.

(** ** Growing and shrinking user memory *)

Lemma leaf_flags pa perm :
  page_ok pa -> 0 <= perm < 2 ^ 10 ->
  PTE2PA (leaf pa perm) = pa /\ PTE_FLAGS (leaf pa perm) = Z.lor perm PTE_V.
Proof.
  intros [Hp Ha]%page_ok_pa Hperm. unfold leaf. rewrite <- Z.lor_assoc.
  assert (0 <= Z.lor perm PTE_V < 2 ^ 10) as Hf.
  { change (2 ^ 10) with 1024 in *. change PTE_V with 1.
    assert (0 <= Z.lor perm 1) by (apply Z.lor_nonneg; lia). split; [done|].
    destruct (decide (Z.lor perm 1 = 0)) as [->|]; [done|].
    apply (Z.log2_lt_pow2 _ 10); [lia|]. rewrite Z.log2_lor by lia. apply Z.max_lub_lt; [|done].
    destruct (decide (perm = 0)) as [->|]; [done|]. apply (Z.log2_lt_pow2 _ 10); lia. }
  split; [by apply PTE2PA_lor|by apply PTE_FLAGS_lor].
Qed.

Lemma uvmdealloc_run s root T fl old n :
  vm_ok s root T fl -> 0 <= old -> old `mod` PGSIZE = 0 ->
  let a := old + Z.of_nat n * PGSIZE in
  a <= MAXVA -> mapped s root old a -> NoDup (frames s root old n) ->
  Forall (owned T fl) (frames s root old n) ->
  exists r s', uvmdealloc root a old s = Done r s' /\
    vm_ok s' root T (rev (frames s root old n) ++ fl) /\ vm_frame s s' /\
    mem_except T (frames s root old n) s s' /\ unmaps s s' root old a.
Proof.
  intros Hok Hold Hal a Hmax Hmap Hnd Hown. unfold uvmdealloc. destruct n as [|n].
  { assert (a = old) as -> by (unfold a; lia). rewrite (proj2 (Z.leb_le _ _)) by lia.
    exists old, s. split_and!; [done..|]. intros va _. by rewrite decide_False by lia. }
  assert (old < a) as Hlt by (unfold a, PGSIZE; lia). rewrite (proj2 (Z.leb_gt _ _)) by done.
  assert (a `mod` PGSIZE = 0) as Ham by (unfold a; by rewrite Z_mod_plus_full).
  assert (PGROUNDUP old = old /\ PGROUNDUP a = a) as [-> ->].
  { change MAXVA with (2 ^ 38) in Hmax. rewrite !PGROUNDUP_eq by (unfold PGSIZE in *; lia).
    clear -Hal Ham Hold Hlt. clearbody a. unfold PGSIZE in *. dlia. }
  rewrite (proj2 (Z.ltb_lt _ _)) by done.
  assert (u64 (i32 ((a - old) / PGSIZE)) = Z.of_nat (S n)) as ->.
  { assert ((a - old) / PGSIZE = Z.of_nat (S n)) as ->.
    { unfold a. replace (old + Z.of_nat (S n) * PGSIZE - old) with (Z.of_nat (S n) * PGSIZE) by lia.
      by apply Z.div_mul. }
    assert (Z.of_nat (S n) < 2 ^ 31).
    { change MAXVA with (67108864 * PGSIZE) in Hmax. unfold a, PGSIZE in *. lia. }
    rewrite i32_small by lia. apply u64_small. lia. }
  destruct (uvmunmap_run s root T fl old (S n) true) as (s' & E & Hrest); try done.
  exists old, s'. split; [|exact Hrest]. cbn [when]. by kstep E.
Qed.

(** The loop after [length fs] pages: [fs] are the frames mapped from [old],
    the [i]-th with permissions [perm i] and filled with [fill i]; [new] are
    the page-table pages added. *)
Record allocd (s0 s : kstate) (root old : Z) (perm : nat -> Z) (fill : nat -> Z -> Z)
    (T0 T : gmap Z nat) (fl0 fl new fs : list Z) : Prop :=
  mk_allocd {
    al_frame : vm_frame s0 s;
    al_ok : vm_ok s root T fl;
    al_free : fl0 ≡ₚ new ++ fs ++ fl;
    al_sub pa l : T0 !! pa = Some l -> T !! pa = Some l;
    al_dom pa : is_Some (T !! pa) -> is_Some (T0 !! pa) \/ pa ∈ new;
    al_mem : mem_except T fl0 s0 s;
    al_page i q : fs !! i = Some q -> page_holds s q (fill i);
    al_trans va : 0 <= va < MAXVA -> trans (ks_mem s) 2 root va =
      if decide (old <= va < old + Z.of_nat (length fs) * PGSIZE)
      then let i := Z.to_nat ((va - old) / PGSIZE) in (fun q => leaf q (perm i)) <$> fs !! i
      else trans (ks_mem s0) 2 root va
  }.

Section Allocd.
Context (s0 : kstate) (root old : Z) (perm : nat -> Z) (fill : nat -> Z -> Z) (T0 : gmap Z nat) (fl0 : list Z).
Context (Hok0 : vm_ok s0 root T0 fl0) (Hold : 0 <= old) (Hal : old `mod` PGSIZE = 0).
Context (Hperm : forall i, 0 <= perm i < 2 ^ 10) (Hleaf : forall i, Z.lor (perm i) PTE_V <> PTE_V).

Lemma allocd_nodup s T fl new fs :
  allocd s0 s root old perm fill T0 T fl0 fl new fs -> NoDup (new ++ fs ++ fl) /\ Forall page_ok (new ++ fs ++ fl).
Proof.
  intros A. destruct (vo_free _ _ _ _ Hok0) as [_ Hnd Hp].
  split; [by rewrite <- (al_free _ _ _ _ _ _ _ _ _ _ _ _ A)|by rewrite <- (al_free _ _ _ _ _ _ _ _ _ _ _ _ A)].
Qed.

Lemma allocd_owned s T fl new fs :
  allocd s0 s root old perm fill T0 T fl0 fl new fs -> Forall (owned T fl) fs /\ NoDup fs.
Proof.
  intros A. destruct (allocd_nodup _ _ _ _ _ A) as [Hnd Hp].
  apply NoDup_app in Hnd as (_ & Hnew & Hnd). apply NoDup_app in Hnd as (Hfs & Hdis & _).
  apply Forall_app in Hp as [_ [Hp _]%Forall_app]. split; [|done]. apply Forall_forall. intros q Hq.
  rewrite Forall_forall in Hp. split_and!; [by apply Hp|by apply Hdis|].
  destruct (T !! q) as [l|] eqn:E; [|done]. exfalso.
  destruct (al_dom _ _ _ _ _ _ _ _ _ _ _ _ A q ltac:(by eexists)) as [[l' Hl']|Hin].
  - rewrite (vo_sep _ _ _ _ Hok0) in Hl'; [done|]. rewrite (al_free _ _ _ _ _ _ _ _ _ _ _ _ A).
    rewrite !elem_of_app. auto.
  - apply (Hnew q Hin). rewrite elem_of_app. auto.
Qed.

Lemma allocd_page s T fl new fs i :
  allocd s0 s root old perm fill T0 T fl0 fl new fs -> old + Z.of_nat (length fs) * PGSIZE <= MAXVA ->
  (i < length fs)%nat ->
  trans (ks_mem s) 2 root (old + Z.of_nat i * PGSIZE) = (fun q => leaf q (perm i)) <$> fs !! i.
Proof.
  intros A Hmax Hi. rewrite (al_trans _ _ _ _ _ _ _ _ _ _ _ _ A) by (unfold PGSIZE in *; lia).
  rewrite decide_True by (unfold PGSIZE; lia).
  replace (old + Z.of_nat i * PGSIZE - old) with (Z.of_nat i * PGSIZE) by lia.
  cbv zeta. by rewrite Z.div_mul, Nat2Z.id by done.
Qed.

Lemma allocd_frames s T fl new fs :
  allocd s0 s root old perm fill T0 T fl0 fl new fs -> old + Z.of_nat (length fs) * PGSIZE <= MAXVA ->
  frames s root old (length fs) = fs.
Proof.
  intros A Hmax. destruct (allocd_owned _ _ _ _ _ A) as [Ho _]. apply list_eq. intros i. unfold frames.
  rewrite list_lookup_fmap. destruct (decide (i < length fs)%nat) as [Hi|Hi].
  - rewrite lookup_seq_lt by done. cbn [fmap option_fmap option_map]. unfold frame_of.
    rewrite (allocd_page _ _ _ _ _ (0 + i) A) by done.
    cbn [Nat.add]. destruct (lookup_lt_is_Some_2 fs i Hi) as [q Hq]. rewrite Hq. cbn.
    rewrite Forall_lookup in Ho. destruct (Ho i q Hq) as [Hp _]. by rewrite (proj1 (leaf_flags q (perm i) Hp (Hperm i))).
  - rewrite lookup_seq_ge, lookup_ge_None_2 by lia. done.
Qed.

Lemma allocd_mapped s T fl new fs :
  allocd s0 s root old perm fill T0 T fl0 fl new fs -> old + Z.of_nat (length fs) * PGSIZE <= MAXVA ->
  mapped s root old (old + Z.of_nat (length fs) * PGSIZE).
Proof.
  intros A Hmax va Hva. destruct (allocd_owned _ _ _ _ _ A) as [Ho _].
  rewrite (al_trans _ _ _ _ _ _ _ _ _ _ _ _ A) by lia. rewrite decide_True by done.
  destruct (lookup_lt_is_Some_2 fs (Z.to_nat ((va - old) / PGSIZE))) as [q Hq].
  { clear -Hva. unfold PGSIZE in *. dlia. }
  cbv zeta. rewrite Hq. eexists. split; [reflexivity|].
  rewrite Forall_lookup in Ho. destruct (Ho _ q Hq) as [Hp _]. by rewrite (proj2 (leaf_flags q _ Hp (Hperm _))).
Qed.

Lemma mem_except_trans T T' fs fs' s1 s2 s3 :
  (forall pa, is_Some (T !! pa) -> is_Some (T' !! pa) \/ pa ∈ fs') -> (forall pa, pa ∈ fs -> pa ∈ fs') ->
  mem_except T fs s1 s2 -> mem_except T' fs' s2 s3 -> mem_except T' fs' s1 s3.
Proof.
  intros HT Hfs M1 M2 x Hx Hp. rewrite M2 by done. apply M1; [|intros pa Hpa; by apply Hp, Hfs].
  intros pa Hpa Hin. destruct (HT pa Hpa) as [H'|H']; [by apply (Hx pa)|by apply (Hp pa)].
Qed.

(** Giving every page back. *)
Lemma allocd_back s s' T fl new fs :
  allocd s0 s root old perm fill T0 T fl0 fl new fs ->
  (forall va, old <= va < old + Z.of_nat (length fs) * PGSIZE -> trans (ks_mem s0) 2 root va = None) ->
  vm_ok s' root T (rev fs ++ fl) -> vm_frame s s' -> mem_except T fs s s' ->
  unmaps s s' root old (old + Z.of_nat (length fs) * PGSIZE) ->
  allocd s0 s' root old perm fill T0 T fl0 (rev fs ++ fl) new [].
Proof.
  intros [F1 Hok1 Hfl Hsub Hdom M1 Hz Ht] Hnone Hok' F M U. split.
  - by transitivity s.
  - done.
  - rewrite Hfl. cbn [app]. by rewrite <- (Permutation_rev fs).
  - done.
  - done.
  - eapply mem_except_trans; [|intros pa Hpa; exact Hpa|exact M1|]; [auto|].
    intros x Hx Hp. apply M; [done|]. intros pa Hpa. apply Hp. rewrite Hfl, !elem_of_app. auto.
  - done.
  - intros va Hva. rewrite (decide_False (P := old <= va < _)) by (cbn [length]; lia).
    rewrite U by done. case_decide as Hr; [by rewrite Hnone|]. rewrite Ht by done. by rewrite decide_False.
Qed.

Lemma allocd_dealloc s T fl new fs :
  allocd s0 s root old perm fill T0 T fl0 fl new fs -> old + Z.of_nat (length fs) * PGSIZE <= MAXVA ->
  (forall va, old <= va < old + Z.of_nat (length fs) * PGSIZE -> trans (ks_mem s0) 2 root va = None) ->
  exists r s', uvmdealloc root (old + Z.of_nat (length fs) * PGSIZE) old s = Done r s' /\
    allocd s0 s' root old perm fill T0 T fl0 (rev fs ++ fl) new [].
Proof.
  intros A Hmax Hnone. pose proof (allocd_frames _ _ _ _ _ A Hmax) as Ef.
  destruct (allocd_owned _ _ _ _ _ A) as [Ho Hnd].
  destruct (uvmdealloc_run s root T fl old (length fs) (al_ok _ _ _ _ _ _ _ _ _ _ _ _ A) Hold Hal Hmax
    (allocd_mapped _ _ _ _ _ A Hmax)) as (r & s' & E & Hok' & F & M & U); rewrite ?Ef in *; [done|done|].
  exists r, s'. split; [done|]. by eapply allocd_back.
Qed.
Lemma allocd_unmap s T fl new fs :
  allocd s0 s root old perm fill T0 T fl0 fl new fs -> old + Z.of_nat (length fs) * PGSIZE <= MAXVA ->
  (forall va, old <= va < old + Z.of_nat (length fs) * PGSIZE -> trans (ks_mem s0) 2 root va = None) ->
  exists s', uvmunmap root old (Z.of_nat (length fs)) true s = Done tt s' /\
    allocd s0 s' root old perm fill T0 T fl0 (rev fs ++ fl) new [].
Proof.
  intros A Hmax Hnone. pose proof (allocd_frames _ _ _ _ _ A Hmax) as Ef.
  destruct (allocd_owned _ _ _ _ _ A) as [Ho Hnd].
  destruct (uvmunmap_run s root T fl old (length fs) true (al_ok _ _ _ _ _ _ _ _ _ _ _ _ A) Hold Hal Hmax
    (allocd_mapped _ _ _ _ _ A Hmax)) as (s' & E & Hok' & F & M & U); rewrite ?Ef in *; [done|done|].
  exists s'. split; [done|]. by eapply allocd_back.
Qed.

Lemma tables_outside m r T p x :
  tables m r T -> page_ok p -> T !! p = None -> p <= x < p + PGSIZE -> outside T x.
Proof.
  intros Ht Hp HpT Hx pa [l Hpa] Hin. assert (p <> pa) as Hne by congruence.
  pose proof (page_disjoint _ _ Hp (tb_page _ _ _ Ht _ _ Hpa) Hne) as Hd. clear -Hd Hx Hin. lia.
Qed.

(** The translation of a range that grows by the page [q]. *)
Lemma trans_snoc s s2 fs q :
  let a := old + Z.of_nat (length fs) * PGSIZE in
  (forall va, 0 <= va < MAXVA -> trans (ks_mem s) 2 root va =
     if decide (old <= va < a)
     then let i := Z.to_nat ((va - old) / PGSIZE) in (fun q => leaf q (perm i)) <$> fs !! i
     else trans (ks_mem s0) 2 root va) ->
  trans (ks_mem s2) 2 root a = Some (leaf q (perm (length fs))) ->
  (forall va', 0 <= va' < MAXVA -> va' / PGSIZE <> a / PGSIZE ->
     trans (ks_mem s2) 2 root va' = trans (ks_mem s) 2 root va') ->
  forall va, 0 <= va < MAXVA -> trans (ks_mem s2) 2 root va =
    if decide (old <= va < old + Z.of_nat (length (fs ++ [q])) * PGSIZE)
    then let i := Z.to_nat ((va - old) / PGSIZE) in (fun q => leaf q (perm i)) <$> (fs ++ [q]) !! i
    else trans (ks_mem s0) 2 root va.
Proof.
  intros a Ht Ha Ho va Hva. rewrite length_app. cbn [length].
  assert (a `mod` PGSIZE = 0) as Ham by (unfold a; by rewrite Z_mod_plus_full).
  destruct (decide (va / PGSIZE = a / PGSIZE)) as [Ep|Ep].
  - assert (a <= va < a + PGSIZE) as Hr by (clear -Ep Ham; clearbody a; unfold PGSIZE in *; dlia).
    rewrite (trans_page _ _ _ va a Ep), Ha, decide_True by (unfold a, PGSIZE in *; lia).
    assert (Z.to_nat ((va - old) / PGSIZE) = length fs) as ->.
    { clear -Hr. unfold a, PGSIZE in *. dlia. }
    cbv zeta. by rewrite list_lookup_middle by done.
  - rewrite Ho, Ht by done. destruct (decide (old <= va < a)) as [Hr|Hr].
    + rewrite decide_True by (unfold a, PGSIZE in *; lia). cbv zeta. rewrite lookup_app_l; [done|].
      clear -Hr. unfold a, PGSIZE in *. dlia.
    + rewrite decide_False; [done|]. intros Hr'. apply Ep.
      assert (a <= va < a + PGSIZE) as Hr2 by (clear -Hr Hr'; unfold a, PGSIZE in *; lia).
      clear -Hr2 Ham. clearbody a. unfold PGSIZE in *. dlia.
Qed.

(** One more page. *)
Lemma allocd_snoc s s1 T q fl new fs s2 T2 fl2 new2 :
  allocd s0 s root old perm fill T0 T fl0 (q :: fl) new fs ->
  let a := old + Z.of_nat (length fs) * PGSIZE in
  a + PGSIZE <= MAXVA -> taken s s1 root T q fl (fill (length fs)) ->
  extends s1 s2 root T T2 fl fl2 new2 ->
  trans (ks_mem s2) 2 root a = Some (leaf q (perm (length fs))) ->
  (forall va', 0 <= va' < MAXVA -> va' / PGSIZE <> a / PGSIZE ->
     trans (ks_mem s2) 2 root va' = trans (ks_mem s) 2 root va') ->
  allocd s0 s2 root old perm fill T0 T2 fl0 fl2 (new ++ new2) (fs ++ [q]).
Proof.
  intros A a Hmax [Hq _ Fz Mz Zz _] X Ha Ho. pose proof (al_ok _ _ _ _ _ _ _ _ _ _ _ _ A) as Hok.
  destruct (allocd_owned _ _ _ _ _ A) as [Hown _].
  destruct X as [F2 Hok2 E2 Hsub2 Hdom2 M2]. destruct A as [F1 _ Hfl Hsub Hdom M1 Hz Ht].
  pose proof (vo_free _ _ _ _ Hok) as [_ Hnd _].
  assert (T2 !! q = None) as HqT2.
  { destruct (T2 !! q) eqn:E; [|done]. destruct (Hdom2 q ltac:(by eexists)) as [[? Hc]|Hc].
    - destruct Hq as (_ & _ & Hq). congruence.
    - apply NoDup_cons in Hnd as [Hnd _]. exfalso. apply Hnd. rewrite E2, elem_of_app. auto. }
  pose proof (fun p x => tables_outside _ _ _ p x (vo_tables _ _ _ _ Hok2)) as Hout.
  split.
  - by rewrite F1, Fz.
  - done.
  - rewrite Hfl, E2, <- !app_assoc. apply Permutation_app_head.
    rewrite (Permutation_app_swap_app new2). apply Permutation_app_head, Permutation_middle.
  - eauto.
  - intros pa Hpa. destruct (Hdom2 pa Hpa) as [Hpa'|Hin]; [destruct (Hdom pa Hpa') as [?|?]|].
    + by left.
    + right. rewrite elem_of_app. auto.
    + right. rewrite elem_of_app. auto.
  - intros x Hx Hp. assert (outside T x) as HxT by (intros pa [l Hl]; apply Hx; eauto).
    rewrite M2, Mz by (done || (intros pa Hpa; apply list_elem_of_singleton in Hpa as ->; apply Hp;
      rewrite Hfl, !elem_of_app; right; right; by left)).
    by apply M1.
  - intros i p Hip. apply lookup_app_Some in Hip as [Hip|[Hle Hip]].
    + intros x Hx. rewrite Forall_lookup in Hown. destruct (Hown i p Hip) as (Hpk & Hpf & HpT).
      assert (p <> q) as Hne by (intros ->; apply Hpf; by left).
      assert (T2 !! p = None) as HpT2.
      { destruct (T2 !! p) eqn:E; [|done]. destruct (Hdom2 p ltac:(by eexists)) as [[? Hc]|Hc]; [congruence|].
        exfalso. apply Hpf. right. rewrite E2, elem_of_app. auto. }
      assert (p <= p + x < p + PGSIZE) as Hpx by lia.
      rewrite M2 by (by eapply Hout). rewrite Mz; [by apply (Hz i p Hip)| |].
      * intros pa [l Hl]. apply (Hout p _ Hpk HpT2 Hpx). eauto.
      * intros pa Hpa. apply list_elem_of_singleton in Hpa as ->.
        pose proof (page_disjoint _ _ Hpk (proj1 Hq) Hne) as Hd. clear -Hd Hpx. lia.
    + apply list_lookup_singleton_Some in Hip as [Hi <-]. intros x Hx.
      rewrite M2 by (eapply Hout; [apply Hq|done|lia]). replace i with (length fs) by lia. by apply Zz.
  - by apply (trans_snoc s).
Qed.

(** A page that could not be mapped goes back to the free list. *)
Lemma allocd_unmapped s s1 T q fl new fs s2 T2 fl2 new2 c :
  allocd s0 s root old perm fill T0 T fl0 (q :: fl) new fs ->
  taken s s1 root T q fl c -> extends s1 s2 root T T2 fl fl2 new2 ->
  (forall va, trans (ks_mem s2) 2 root va = trans (ks_mem s) 2 root va) ->
  kfree q s2 = Done tt (freed q s2) /\
  allocd s0 (freed q s2) root old perm fill T0 T2 fl0 (q :: fl2) (new ++ new2) fs.
Proof.
  intros A [Hq _ Fz Mz Zz _] X Ho. pose proof (al_ok _ _ _ _ _ _ _ _ _ _ _ _ A) as Hok.
  destruct (allocd_owned _ _ _ _ _ A) as [Hown _].
  destruct X as [F2 Hok2 E2 Hsub2 Hdom2 M2]. destruct A as [F1 _ Hfl Hsub Hdom M1 Hz Ht].
  pose proof (vo_free _ _ _ _ Hok) as [_ Hnd _]. apply NoDup_cons in Hnd as [Hnd _].
  assert (forall p, owned T fl p -> owned T2 fl2 p) as Hkeep.
  { intros p (Hp & Hpf & HpT). split_and!; [done| |].
    - intros Hin. apply Hpf. rewrite E2, elem_of_app. auto.
    - destruct (T2 !! p) eqn:E; [|done]. destruct (Hdom2 p ltac:(by eexists)) as [[? Hc]|Hc]; [congruence|].
      exfalso. apply Hpf. rewrite E2, elem_of_app. auto. }
  pose proof (Hkeep q Hq) as Hq2. destruct (freed_ok s2 root T2 fl2 q Hok2 Hq2) as (Hok3 & F3 & Ht3 & _).
  split; [apply kfree_eq; [apply Hok2..|apply Hq]|].
  pose proof (freed_mem8 q s2) as M3. set (s3 := freed q s2) in *. clearbody s3.
  split.
  - by rewrite F1, Fz, F2.
  - done.
  - rewrite Hfl, E2, <- !app_assoc. apply Permutation_app_head.
    rewrite (Permutation_app_swap_app new2). apply Permutation_app_head, Permutation_middle.
  - eauto.
  - intros pa Hpa. destruct (Hdom2 pa Hpa) as [Hpa'|Hin]; [destruct (Hdom pa Hpa') as [?|?]|];
      [by left|right; rewrite elem_of_app; auto..].
  - intros x Hx Hp. assert (outside T x) as HxT by (intros pa [l Hl]; apply Hx; eauto).
    assert (q ∈ fl0) as Hqin by (rewrite Hfl, !elem_of_app; right; right; by left).
    rewrite M3, M2, Mz by (by auto || (intros pa Hpa; apply list_elem_of_singleton in Hpa as ->; by apply Hp)).
    by apply M1.
  - intros i p Hip x Hx. rewrite Forall_lookup in Hown.
    destruct (Hown i p Hip) as (Hpk & Hpf & HpT). apply not_elem_of_cons in Hpf as [Hne Hpf].
    destruct (Hkeep p) as (_ & _ & HpT2); [by split_and!|]. assert (p <= p + x < p + PGSIZE) as Hpx by lia.
    pose proof (tables_outside _ _ _ p (p + x) (vo_tables _ _ _ _ Hok2) Hpk HpT2 Hpx) as Hx2.
    assert (~ (q <= p + x < q + PGSIZE)) as Hxq.
    { pose proof (page_disjoint _ _ Hpk (proj1 Hq) Hne) as Hd. clear -Hd Hpx. lia. }
    rewrite M3, M2, Mz by (done || (intros pa Hpa; apply list_elem_of_singleton in Hpa as ->; done) ||
      (intros pa [l Hl]; apply Hx2; eauto)). by apply (Hz i p Hip).
  - intros va Hva. rewrite Ht3, Ho. by apply Ht.
Qed.

Lemma allocd_refl : allocd s0 s0 root old perm fill T0 T0 fl0 fl0 [] [].
Proof.
  split; try done; [by left|]. intros va _.
  by rewrite decide_False by (cbn [length]; lia).
Qed.
End Allocd.

(** ** uvmalloc *)

Section Uvmalloc.
Context (s0 : kstate) (root old perm : Z) (T0 : gmap Z nat) (fl0 : list Z).
Context (Hok0 : vm_ok s0 root T0 fl0) (Hold : 0 <= old) (Hal : old `mod` PGSIZE = 0).
Context (Hperm : 0 <= perm < 2 ^ 10) (Hleaf : Z.lor perm PTE_V <> PTE_V).

Definition alloc_body (newsz : Z) (a : Z) : K (Z + Z) :=
  if negb (a <? newsz) then ret (inr newsz) else
  let! mem := kalloc in
  if mem =? 0 then
    let! _ := uvmdealloc root a old in
    ret (inr 0)
  else
    mem_memset mem 0 PGSIZE ;;
    let! r := mappages root a PGSIZE mem perm in
    if negb (r =? 0) then
      kfree mem ;;
      let! _ := uvmdealloc root a old in
      ret (inr 0)
    else ret (inl (u64 (a + PGSIZE))).

(** One iteration: another page, or everything given back. *)
Lemma alloc_step s T fl new fs newsz :
  allocd s0 s root old (fun _ => perm) (fun _ _ => 0) T0 T fl0 fl new fs ->
  let a := old + Z.of_nat (length fs) * PGSIZE in
  a < newsz -> a + PGSIZE <= MAXVA ->
  (forall va, old <= va < a + PGSIZE -> trans (ks_mem s0) 2 root va = None) ->
  exists s' T' fl' new',
    (exists q, alloc_body newsz a s = Done (inl (a + PGSIZE)) s' /\
       allocd s0 s' root old (fun _ => perm) (fun _ _ => 0) T0 T' fl0 fl' new' (fs ++ [q])) \/
    (alloc_body newsz a s = Done (inr 0) s' /\ allocd s0 s' root old (fun _ => perm) (fun _ _ => 0) T0 T' fl0 fl' new' []).
Proof.
  intros A a Hlt Hmax Hnone. pose proof (al_ok _ _ _ _ _ _ _ _ _ _ _ _ A) as Hok. unfold alloc_body.
  rewrite (proj2 (Z.ltb_lt _ _)) by done. cbn [negb].
  assert (forall va, old <= va < a -> trans (ks_mem s0) 2 root va = None) as Hnone'.
  { intros va Hva. apply Hnone. unfold PGSIZE. lia. }
  assert (a <= MAXVA) as Hmax' by (unfold PGSIZE in Hmax; lia).
  destruct fl as [|q fl].
  { destruct (allocd_dealloc s0 root old (fun _ => perm) (fun _ _ => 0) T0 fl0 Hok0 Hold Hal (fun _ => Hperm) (fun _ => Hleaf) s T [] new fs A Hmax' Hnone') as (r & s' & E & A').
    exists s', T, (rev fs ++ []), new. right. split; [|exact A'].
    kstep kalloc_none_eq; [|apply Hok..]. cbn [Z.eqb]. kstep E. reflexivity. }
  destruct (kalloc_vm s root T q fl Hok) as [Ek Hnz].
  pose proof (zeroed_taken s root T q fl Hok) as Htk. pose proof Htk as [Hq Hokz _ _ _ Htz].
  assert (0 <= q < 2 ^ 56) as Hq56 by (apply page_ok_pa, Hq).
  destruct (map_page (zeroed q s) root T fl a q perm Hokz) as (r & s2 & T2 & fl2 & new2 & Em & X & Hc).
  { unfold a, PGSIZE. lia. }
  { unfold a. by rewrite Z_mod_plus_full. }
  { done. }
  { rewrite Htz, (al_trans _ _ _ _ _ _ _ _ _ _ _ _ A) by (unfold a, PGSIZE in *; lia).
    rewrite decide_False by (unfold a; lia). apply Hnone. unfold a, PGSIZE. lia. }
  { done. }
  { done. }
  destruct Hc as [(-> & Ha & Ho)|(-> & Hnil & Ho)].
  - exists s2, T2, fl2, (new ++ new2). left. exists q. split.
    + kstep Ek. rewrite Hnz. unfold mem_memset. rewrite kbind_modify. fold (zeroed q s). kstep Em.
      cbn [Z.eqb negb]. rewrite u64_small; [reflexivity|].
      change MAXVA with (2 ^ 38) in *. unfold a, PGSIZE in *. lia.
    + eapply (allocd_snoc s0 root old (fun _ => perm) (fun _ _ => 0) T0 fl0 Hok0 Hal); [exact A|done|exact Htk|exact X|exact Ha|].
      intros va' Hva' Hne. rewrite Ho by done. apply Htz.
  - destruct (allocd_unmapped s0 root old (fun _ => perm) (fun _ _ => 0) T0 fl0 Hok0 s _ T q fl new fs s2 T2 fl2 new2 _ A Htk X) as [Ef A2].
    { intros va. by rewrite Ho. }
    destruct (allocd_dealloc s0 root old (fun _ => perm) (fun _ _ => 0) T0 fl0 Hok0 Hold Hal (fun _ => Hperm) (fun _ => Hleaf) _ _ _ _ _ A2 Hmax' Hnone') as (r & s' & E & A').
    exists s', T2, (rev fs ++ q :: fl2), (new ++ new2). right. split; [|exact A'].
    kstep Ek. rewrite Hnz. unfold mem_memset. rewrite kbind_modify. fold (zeroed q s). kstep Em.
    cbn [Z.eqb negb]. kstep Ef. kstep E. reflexivity.
Qed.

Lemma alloc_loop n k s T fl new fs newsz :
  (n < k)%nat -> allocd s0 s root old (fun _ => perm) (fun _ _ => 0) T0 T fl0 fl new fs ->
  let a := old + Z.of_nat (length fs) * PGSIZE in
  newsz <= a + Z.of_nat n * PGSIZE < newsz + PGSIZE -> a + Z.of_nat n * PGSIZE <= MAXVA ->
  (forall va, old <= va < a + Z.of_nat n * PGSIZE -> trans (ks_mem s0) 2 root va = None) ->
  exists r s' T' fl' new' fs', loop k (alloc_body newsz) a s = Done r s' /\
    allocd s0 s' root old (fun _ => perm) (fun _ _ => 0) T0 T' fl0 fl' new' fs' /\
    (r = newsz /\ length fs' = (length fs + n)%nat \/ r = 0 /\ fs' = []).
Proof.
  revert k s T fl new fs. induction n as [|n IH]; intros k s T fl new fs Hk A a Hend Hmax Hnone;
    (destruct k as [|k]; [lia|]).
  - exists newsz, s, T, fl, new, fs. split; [|split; [exact A|left; split; [done|lia]]].
    apply loop_done. unfold alloc_body. rewrite (proj2 (Z.ltb_ge _ _)) by lia. reflexivity.
  - destruct (alloc_step s T fl new fs newsz A) as (s1 & T1 & fl1 & new1 & Hc).
    { fold a. unfold PGSIZE in *. lia. }
    { fold a. unfold PGSIZE in *. lia. }
    { intros va Hva. apply Hnone. fold a in Hva. unfold PGSIZE in *. lia. }
    fold a in Hc. destruct Hc as [(q & E & A1)|(E & A1)].
    + assert (a + PGSIZE = old + Z.of_nat (length (fs ++ [q])) * PGSIZE) as Ea.
      { rewrite length_app. cbn [length]. unfold a. lia. }
      destruct (IH k s1 T1 fl1 new1 (fs ++ [q])) as (r & s' & T' & fl' & new' & fs' & E' & A' & Hr).
      * lia.
      * exact A1.
      * rewrite <- Ea. lia.
      * rewrite <- Ea. lia.
      * intros va. rewrite <- Ea. intros Hva. apply Hnone. lia.
      * exists r, s', T', fl', new', fs'. split; [|split; [exact A'|]].
        -- rewrite <- Ea in E'. by erewrite loop_next by exact E.
        -- rewrite length_app in Hr. cbn [length] in Hr. destruct Hr as [[-> Hr]|Hr]; [left; split; [done|lia]|by right].
    + exists 0, s1, T1, fl1, new1, []. split; [by apply loop_done|]. split; [exact A1|by right].
Qed.
End Uvmalloc.

Lemma uvmalloc_run s root T fl oldsz newsz xperm :
  vm_ok s root T fl -> 0 <= oldsz <= newsz -> newsz + PGSIZE <= MAXVA -> 0 <= xperm < 2 ^ 10 ->
  let old := PGROUNDUP oldsz in
  let perm := Z.lor (Z.lor PTE_R PTE_U) xperm in
  (forall va, old <= va < PGROUNDUP newsz -> trans (ks_mem s) 2 root va = None) ->
  exists r s' T' fl' new fs, uvmalloc root oldsz newsz xperm s = Done r s' /\
    allocd s s' root old (fun _ => perm) (fun _ _ => 0) T T' fl fl' new fs /\
    (r = newsz /\ Z.of_nat (length fs) * PGSIZE = PGROUNDUP newsz - old \/ r = 0 /\ fs = []).
Proof.
  intros Hok Hsz Hmax Hx old perm Hnone.
  destruct (PGROUNDUP_range oldsz) as [Hal Hold]; [lia|change MAXVA with (2 ^ 38) in *; unfold PGSIZE in *; lia|].
  destruct (PGROUNDUP_range newsz) as [Haln Hnew]; [lia|change MAXVA with (2 ^ 38) in *; unfold PGSIZE in *; lia|].
  fold old in Hal, Hold. set (new_ := PGROUNDUP newsz) in *.
  assert (old <= new_) as Hle.
  { clear -Hal Haln Hold Hnew Hsz. clearbody old new_. unfold PGSIZE in *. dlia. }
  assert (0 <= perm < 2 ^ 10 /\ Z.lor perm PTE_V <> PTE_V) as [Hperm Hleaf].
  { unfold perm. split.
    - split; [apply Z.lor_nonneg; split; [done|lia]|].
      assert (0 <= Z.lor (Z.lor PTE_R PTE_U) xperm) by (apply Z.lor_nonneg; split; [done|lia]).
      destruct (decide (Z.lor (Z.lor PTE_R PTE_U) xperm = 0)) as [->|]; [done|].
      apply Z.log2_lt_pow2; [lia|]. rewrite Z.log2_lor by (done || lia). apply Z.max_lub_lt; [done|].
      destruct (decide (xperm = 0)) as [->|]; [done|]. apply Z.log2_lt_pow2; lia.
    - intros E. apply (f_equal (fun x => Z.testbit x 1)) in E. rewrite !Z.lor_spec in E.
      change (Z.testbit PTE_V 1) with false in E. change (Z.testbit PTE_R 1) with true in E. done. }
  set (n := Z.to_nat ((new_ - old) / PGSIZE)).
  assert (Z.of_nat n * PGSIZE = new_ - old) as En.
  { unfold n. clear -Hal Haln Hle. clearbody old new_. unfold PGSIZE in *. dlia. }
  destruct (alloc_loop s root old perm T fl Hok) with (n := n) (k := S (page_steps old newsz)) (s := s) (T := T)
    (fl := fl) (new := @nil Z) (fs := @nil Z) (newsz := newsz)
    as (r & s' & T' & fl' & new' & fs' & E & A & Hr); cbn [length]; rewrite ?Z.add_0_r, ?Z.mul_0_l, ?Z.add_0_r, ?En.
  - lia.
  - done.
  - done.
  - done.
  - unfold page_steps. case_match eqn:Hb; [apply Z.leb_le in Hb|apply Z.leb_gt in Hb].
    + clear -En Hnew Hb. clearbody n old new_. unfold PGSIZE in *. dlia.
    + assert (new_ = old) as Eno.
      { clear -Hb Hle Hal Haln Hnew Hold. clearbody old new_. unfold PGSIZE in *. dlia. }
      rewrite Eno in En. clear -En. unfold PGSIZE in En. lia.
  - by apply allocd_refl.
  - lia.
  - unfold PGSIZE in *. lia.
  - intros va Hva. apply Hnone. lia.
  - exists r, s', T', fl', new', fs'. split; [|split; [exact A|]].
    + unfold uvmalloc. rewrite (proj2 (Z.ltb_ge _ _)) by lia. cbn [length] in E.
      rewrite Z.mul_0_l, Z.add_0_r in E. exact E.
    + destruct Hr as [[-> Hr]|Hr]; [left; split; [done|]|by right]. rewrite Hr. cbn [length Nat.add]. exact En.
Qed.

(** C14: uvmalloc() on an unmapped range is all or nothing.  Either
    it returns newsz, every page from PGROUNDUP(oldsz) to newsz is mapped
    readable for the user to a distinct zero-filled frame taken from the
    free list; or it returns 0 and every translation is what it was and every
    frame it took is back, except those that became page-table pages.  No
    other page is remapped and no memory that was in use changes. *)
Theorem uvmalloc_correct s root T fl oldsz newsz xperm :
  vm_ok s root T fl -> 0 <= oldsz <= newsz -> newsz + PGSIZE <= MAXVA -> 0 <= xperm < 2 ^ 10 ->
  let old := PGROUNDUP oldsz in
  let perm := Z.lor (Z.lor PTE_R PTE_U) xperm in
  (forall va, old <= va < PGROUNDUP newsz -> trans (ks_mem s) 2 root va = None) ->
  exists r s' T' fl' new fs, uvmalloc root oldsz newsz xperm s = Done r s' /\
    allocd s s' root old (fun _ => perm) (fun _ _ => 0) T T' fl fl' new fs /\
    (r = newsz /\ Z.of_nat (length fs) * PGSIZE = PGROUNDUP newsz - old \/ r = 0 /\ fs = []).
Proof. apply uvmalloc_run. Qed.

(** ** An empty address space *)

Lemma fresh_tables m q :
  page_ok q -> (forall x, q <= x < q + PGSIZE -> load8 m x = 0) ->
  tables m q {[q := 2%nat]} /\ forall va, trans m 2 q va = None.
Proof.
  intros Hq Hz. assert (forall i, 0 <= i < 512 -> entry m q i = 0) as He.
  { intros i Hi. Transparent load64. unfold entry, load64. Opaque load64.
    apply load64_zero_bytes. intros b Hb. apply Hz. unfold pte_addr, PGSIZE in *. lia. }
  split; [split|].
  - apply lookup_singleton_eq.
  - intros pa l [<- _]%lookup_singleton_Some. done.
  - intros pa l i [<- _]%lookup_singleton_Some Hi. by rewrite He.
  - intros pa pa' l l' i i' [<- _]%lookup_singleton_Some _ Hi _. by rewrite He.
  - intros va. by apply trans_zero.
Qed.

Lemma uvmcreate_run s q fl :
  hart_ok s -> lock_free L_kmem s -> free_list s (q :: fl) ->
  uvmcreate s = Done q (zeroed q s) /\ vm_ok (zeroed q s) q {[q := 2%nat]} fl /\
  forall va, trans (ks_mem (zeroed q s)) 2 q va = None.
Proof.
  intros Hs Hl Hf. pose proof Hf as [[Hr _] Hnd Hp]. apply Forall_cons in Hp as [Hq Hp].
  apply NoDup_cons in Hnd as [Hqf Hnd]. split.
  { unfold uvmcreate. kstep kalloc_some_eq; [|done..]. rewrite page_ok_nz by done. reflexivity. }
  assert (in_page q s (ks_mem (zeroed q s)) /\ forall x, q <= x < q + PGSIZE -> load8 (ks_mem (zeroed q s)) x = 0)
    as [Hm Hz].
  { split; intros x Hx; change (ks_mem (zeroed q s)) with (memset (ks_mem (alloced s)) q 0 PGSIZE).
    - by rewrite load8_memset, decide_False, alloced_mem, Hr, load8_memset, decide_False by (exact Hx || discriminate).
    - by rewrite load8_memset, decide_True by (exact Hx || discriminate). }
  pose proof (vm_frame_hart _ _ (filled_frame (ks_mem (zeroed q s)) s)) as Hsh.
  destruct (fresh_tables (ks_mem (zeroed q s)) q Hq Hz) as [Ht Htr]. split; [|exact Htr].
  split; [by eapply hart_ok_same|by eapply lock_free_same| |exact Ht|].
  - by apply (filled_free s q fl (ks_mem (zeroed q s))).
  - intros pa Hpa. apply lookup_singleton_ne. congruence.
Qed.
End Machine.
