(* ===== verification/VmCopy.v ===== *)
(** * Copying an address space (vm.c: uvmcopy, for fork()).

    uvmcopy() reads one tree of page tables while it builds another.  The
    parent's tables and frames are pages that are neither free nor tables of
    the child ([owned]), so what they hold stays the same. *)

From S2P Require Import Prelude Defs KMonad Lock Mem Kalloc Vm VmAlloc.

#[local] Opaque memset store64 load64 load8 store_bytes memmove.

Section Copy.
Context `{Fuel, KernelImage}.
Context (s0 : kstate) (old new : Z) (To T0 : gmap Z nat) (fl0 : list Z) (sz : Z).

(** The parent's tables, and its memory up to [sz]. *)
Record parent : Prop := mk_parent {
  pa_tables : tables (ks_mem s0) old To;
  pa_owned pa l : To !! pa = Some l -> owned T0 fl0 pa;
  pa_mapped va : 0 <= va < sz -> exists e, trans (ks_mem s0) 2 old va = Some e /\
    PTE_FLAGS e <> PTE_V /\ owned T0 fl0 (PTE2PA e)
}.

Context (Hpar : parent) (Hok0 : vm_ok s0 new T0 fl0) (Hmax : 0 <= sz /\ sz + PGSIZE <= MAXVA).
Context (Hnone : forall va, 0 <= va < PGROUNDUP sz -> trans (ks_mem s0) 2 new va = None).

(** The entry of the parent's page [i], its permissions and contents. *)
Definition page_pte (i : nat) : Z :=
  if decide (Z.of_nat i * PGSIZE < sz) then default PTE_R (trans (ks_mem s0) 2 old (Z.of_nat i * PGSIZE)) else PTE_R.
Definition copy_perm (i : nat) : Z := PTE_FLAGS (page_pte i).
Definition copy_fill (i : nat) (x : Z) : Z := load8 (ks_mem s0) (PTE2PA (page_pte i) + x).

Notation copied := (allocd s0).

Lemma flags_range e : 0 <= PTE_FLAGS e < 2 ^ 10.
Proof.
  unfold PTE_FLAGS. change 0x3FF with (Z.ones 10). rewrite Z.land_ones by lia. apply Z.mod_pos_bound. lia.
Qed.
Lemma page_pte_some i : Z.of_nat i * PGSIZE < sz ->
  trans (ks_mem s0) 2 old (Z.of_nat i * PGSIZE) = Some (page_pte i) /\ owned T0 fl0 (PTE2PA (page_pte i)) /\
  has (page_pte i) PTE_V = true /\ PTE_FLAGS (page_pte i) <> PTE_V.
Proof.
  intros Hi. destruct (pa_mapped Hpar (Z.of_nat i * PGSIZE)) as (e & He & Hf & Ho); [unfold PGSIZE in *; lia|].
  unfold page_pte. rewrite decide_True, He by done. destruct (trans_some _ _ _ _ He) as (_ & _ & _ & Hv). done.
Qed.

Lemma owned_kept s perm fill T fl nw fs p x :
  copied s new 0 perm fill T0 T fl0 fl nw fs -> owned T0 fl0 p -> p <= x < p + PGSIZE ->
  load8 (ks_mem s) x = load8 (ks_mem s0) x.
Proof.
  intros A (Hp & Hpf & HpT) Hx. pose proof (al_ok _ _ _ _ _ _ _ _ _ _ _ _ A) as Hok.
  apply (al_mem _ _ _ _ _ _ _ _ _ _ _ _ A).
  - eapply tables_outside; [apply (vo_tables _ _ _ _ Hok)|exact Hp| |exact Hx].
    destruct (T !! p) eqn:E; [|done]. exfalso.
    destruct (al_dom _ _ _ _ _ _ _ _ _ _ _ _ A p ltac:(by eexists)) as [[? Hc]|Hc]; [congruence|].
    apply Hpf. rewrite (al_free _ _ _ _ _ _ _ _ _ _ _ _ A), elem_of_app. by left.
  - intros pa Hpa Hin. assert (p <> pa) as Hne by congruence.
    pose proof (vo_free _ _ _ _ Hok0) as [_ _ Hfp]. rewrite Forall_forall in Hfp.
    pose proof (page_disjoint _ _ Hp (Hfp pa Hpa) Hne) as Hd. clear -Hd Hx Hin. lia.
Qed.

(** The parent's tree is as it was. *)
Lemma parent_kept s perm fill T fl nw fs :
  copied s new 0 perm fill T0 T fl0 fl nw fs ->
  (forall va, pwalk (ks_mem s) (levels_of 2) old va = pwalk (ks_mem s0) (levels_of 2) old va) /\
  (forall va, trans (ks_mem s) 2 old va = trans (ks_mem s0) 2 old va).
Proof.
  intros A. destruct (tables_agree (ks_mem s0) (ks_mem s) old To (pa_tables Hpar)) as (_ & Hp & Ht); [|done].
  intros q l j Hq Hj. apply load64_ext. intros x Hx. eapply owned_kept; [exact A|by eapply pa_owned|].
  unfold pte_addr, PGSIZE in *. lia.
Qed.
Lemma copy_perm_range i : 0 <= copy_perm i < 2 ^ 10.
Proof. apply flags_range. Qed.
Lemma copy_perm_leaf i : Z.lor (copy_perm i) PTE_V = copy_perm i \/ copy_perm i = PTE_R.
Proof.
  unfold copy_perm. destruct (decide (Z.of_nat i * PGSIZE < sz)) as [Hi|Hi].
  - left. destruct (page_pte_some i Hi) as (_ & _ & Hv & _). unfold has in Hv. apply negb_true_iff, Z.eqb_neq in Hv.
    apply Z.bits_inj_iff'. intros n Hn. rewrite Z.lor_spec. unfold PTE_FLAGS. rewrite Z.land_spec.
    destruct (decide (n = 0)) as [->|Hn0].
    + assert (Z.testbit (page_pte i) 0 = true) as ->; [|done].
      destruct (Z.testbit (page_pte i) 0) eqn:E; [done|]. exfalso. apply Hv.
      apply Z.bits_inj_iff'. intros k Hk. rewrite Z.land_spec, Z.bits_0.
      destruct (decide (k = 0)) as [->|Hk0]; [by rewrite E|].
      change PTE_V with (2 ^ 0). rewrite Z.pow2_bits_false by lia. apply andb_false_r.
    + change PTE_V with (2 ^ 0). rewrite (Z.pow2_bits_false 0 n) by lia. by rewrite orb_false_r.
  - right. unfold page_pte. by rewrite decide_False.
Qed.
Lemma copy_perm_ok i : Z.lor (copy_perm i) PTE_V <> PTE_V.
Proof.
  destruct (copy_perm_leaf i) as [E|E]; rewrite E; [|done].
  destruct (decide (Z.of_nat i * PGSIZE < sz)) as [Hi|Hi]; [apply (page_pte_some i Hi)|].
  unfold copy_perm, page_pte. by rewrite decide_False.
Qed.

Definition copy_body (i : Z) : K (Z + Z) :=
  if negb (i <? sz) then ret (inr 0) else
  let! pte := walk old i false in
  if pte =? 0 then panic "uvmcopy: pte should exist" else
  let! e := load_pte pte in
  if negb (has e PTE_V) then panic "uvmcopy: page not present" else
  let! mem := kalloc in
  if mem =? 0 then uvmunmap new 0 (i / PGSIZE) true ;; ret (inr (-1)) else
  mem_memmove mem (PTE2PA e) PGSIZE ;;
  let! r := mappages new i PGSIZE mem (PTE_FLAGS e) in
  if negb (r =? 0) then kfree mem ;; uvmunmap new 0 (i / PGSIZE) true ;; ret (inr (-1))
  else ret (inl (u64 (i + PGSIZE))).
Lemma uvmcopy_eq s : uvmcopy old new sz s = loop (S (page_steps 0 sz)) copy_body 0 s.
Proof. reflexivity. Qed.

(** kalloc() followed by the memmove() of the parent's page. *)
Definition moved (q pa : Z) (s : kstate) : kstate :=
  (alloced s) <| ks_mem ::= fun m => memmove m q pa PGSIZE |>.
Lemma moved_taken s T q fl nw fs :
  copied s new 0 copy_perm copy_fill T0 T fl0 (q :: fl) nw fs -> Z.of_nat (length fs) * PGSIZE < sz ->
  taken s (moved q (PTE2PA (page_pte (length fs))) s) new T q fl (copy_fill (length fs)).
Proof.
  intros A Hlt. pose proof (al_ok _ _ _ _ _ _ _ _ _ _ _ _ A) as Hok. pose proof (vo_free _ _ _ _ Hok) as [[Hr _] _ Hp].
  apply Forall_cons in Hp as [Hq _]. destruct (page_pte_some _ Hlt) as (_ & Hpa & _). set (pa := PTE2PA _) in *.
  assert (q ∈ fl0) as Hq0.
  { rewrite (al_free _ _ _ _ _ _ _ _ _ _ _ _ A), !elem_of_app. right. right. by left. }
  pose proof (page_disjoint pa q (proj1 Hpa) Hq) as Hd.
  assert (pa <> q) as Hne by (intros E; rewrite E in Hpa; by destruct Hpa as (_ & ? & _)). specialize (Hd Hne).
  apply (filled_taken s new T q fl (memmove (ks_mem (alloced s)) q pa PGSIZE)); [done|..]; intros x Hx.
  - by rewrite load8_memmove, decide_False, alloced_mem, Hr, load8_memset, decide_False by (exact Hx || discriminate).
  - rewrite load8_memmove, decide_True by (lia || discriminate).
    rewrite alloced_mem, Hr, load8_memset, decide_False by (discriminate || lia).
    replace (pa + (q + x - q)) with (pa + x) by lia. eapply owned_kept; [exact A|exact Hpa|lia].
Qed.

Lemma copied_none s T fl nw fs va :
  copied s new 0 copy_perm copy_fill T0 T fl0 fl nw fs -> Z.of_nat (length fs) * PGSIZE < sz ->
  va = Z.of_nat (length fs) * PGSIZE -> trans (ks_mem s) 2 new va = None.
Proof.
  intros A Hlt ->. destruct Hmax as [Hsz Hm]. rewrite (al_trans _ _ _ _ _ _ _ _ _ _ _ _ A) by (unfold PGSIZE in *; lia).
  rewrite decide_False by lia. apply Hnone. split; [unfold PGSIZE; lia|].
  destruct (PGROUNDUP_range sz) as [_ ?]; [lia|change MAXVA with (2 ^ 38) in *; unfold PGSIZE in *; lia|lia].
Qed.

(** The walk finds the parent's entry. *)
Lemma copy_walk s T fl nw fs (k : Z -> K (Z + Z)) :
  copied s new 0 copy_perm copy_fill T0 T fl0 fl nw fs ->
  let i := Z.of_nat (length fs) * PGSIZE in
  i < sz ->
  (let! pte := walk old i false in
   if pte =? 0 then panic "uvmcopy: pte should exist" else
   let! e := load_pte pte in
   if negb (has e PTE_V) then panic "uvmcopy: page not present" else k e) s = k (page_pte (length fs)) s.
Proof.
  intros A i Hlt. destruct Hmax as [Hsz Hm].
  destruct (page_pte_some _ Hlt) as (He & _ & Hv & _). destruct (parent_kept _ _ _ _ _ _ _ A) as [Hpw Htr].
  fold i in He. rewrite <- Htr in He. destruct (trans_some _ _ _ _ He) as (a & Ha & Hla & _).
  assert ((a =? 0) = false) as Hanz.
  { pose proof Ha as Ha'. rewrite Hpw in Ha'.
    destruct (pwalk_leaf _ _ _ _ _ _ _ (pa_tables Hpar) (tb_root _ _ _ (pa_tables Hpar)) Ha') as (p0 & Hp0 & ->).
    pose proof (page_ok_bounds _ (tb_page _ _ _ (pa_tables Hpar) _ _ Hp0)).
    pose proof (PX_range 0 i). unfold pte_addr, KERNBASE in *. apply Z.eqb_neq. lia. }
  rewrite (kbind_done _ _ _ _ _ (walk_found s old i false a ltac:(unfold i, PGSIZE in *; lia) Ha)).
  rewrite Hanz. unfold load_pte. rewrite kbind_get, Hla, Hv. reflexivity.
Qed.

(** One iteration: another page, or everything given back. *)
Lemma copy_step s T fl nw fs :
  copied s new 0 copy_perm copy_fill T0 T fl0 fl nw fs ->
  let i := Z.of_nat (length fs) * PGSIZE in
  i < sz ->
  exists s' T' fl' nw',
    (exists q, copy_body i s = Done (inl (i + PGSIZE)) s' /\
       copied s' new 0 copy_perm copy_fill T0 T' fl0 fl' nw' (fs ++ [q])) \/
    (copy_body i s = Done (inr (-1)) s' /\ copied s' new 0 copy_perm copy_fill T0 T' fl0 fl' nw' []).
Proof.
  intros A i Hlt. pose proof (al_ok _ _ _ _ _ _ _ _ _ _ _ _ A) as Hok. destruct Hmax as [Hsz Hm].
  assert (0 <= i /\ i + PGSIZE <= MAXVA) as [Hi0 Hi1] by (unfold i, PGSIZE in *; lia).
  assert (forall va, 0 <= va < i -> trans (ks_mem s0) 2 new va = None) as Hnone'.
  { intros va Hva. apply Hnone. destruct (PGROUNDUP_range sz); [lia|change MAXVA with (2 ^ 38) in *; unfold PGSIZE in *; lia|lia]. }
  assert (i / PGSIZE = Z.of_nat (length fs)) as Ei by (unfold i; by apply Z.div_mul).
  assert (i <= MAXVA) as Hi2 by (unfold PGSIZE in *; lia).
  unfold copy_body. rewrite (proj2 (Z.ltb_lt _ _)) by done. cbn [negb].
  rewrite (copy_walk _ _ _ _ _ _ A Hlt), Ei.
  pose proof (allocd_unmap s0 new 0 copy_perm copy_fill T0 fl0 Hok0 ltac:(lia) eq_refl copy_perm_range copy_perm_ok) as Hun.
  destruct fl as [|q fl].
  { destruct (Hun s T [] nw fs A Hi2 Hnone') as (s' & E & A'). exists s', T, (rev fs ++ []), nw. right.
    split; [|exact A']. kstep kalloc_none_eq; [|apply Hok..]. cbn [Z.eqb]. by kstep E. }
  destruct (kalloc_vm s new T q fl Hok) as [Ek Hnz]. pose proof (moved_taken s T q fl nw fs A Hlt) as Htk.
  pose proof Htk as [Hq Hokm _ _ _ Htm]. set (sm := moved q _ s) in *.
  destruct (map_page sm new T fl i q (copy_perm (length fs)) Hokm) as (r & s2 & T2 & fl2 & new2 & Em & X & Hc); try done.
  { unfold i. by rewrite Z_mod_mult. }
  { rewrite Htm. by eapply copied_none. }
  { apply page_ok_pa, Hq. }
  { apply copy_perm_range. }
  destruct Hc as [(-> & Ha2 & Ho)|(-> & Hnil & Ho)].
  - exists s2, T2, fl2, (nw ++ new2). left. exists q. split.
    + kstep Ek. rewrite Hnz. unfold mem_memmove. rewrite kbind_modify. fold (moved q (PTE2PA (page_pte (length fs))) s).
      fold sm. kstep Em. cbn [Z.eqb negb]. rewrite u64_small; [reflexivity|].
      change MAXVA with (2 ^ 38) in *. unfold PGSIZE in *. lia.
    + eapply (allocd_snoc s0 new 0 copy_perm copy_fill T0 fl0 Hok0 eq_refl); [exact A|lia|exact Htk|exact X|exact Ha2|].
      intros va' Hva' Hne. rewrite Ho by done. apply Htm.
  - destruct (allocd_unmapped s0 new 0 copy_perm copy_fill T0 fl0 Hok0 s _ T q fl nw fs s2 T2 fl2 new2 _ A Htk X) as [Ef A2].
    { intros va. by rewrite Ho. }
    destruct (Hun _ _ _ _ _ A2 Hi2 Hnone') as (s' & E & A').
    exists s', T2, (rev fs ++ q :: fl2), (nw ++ new2). right. split; [|exact A'].
    kstep Ek. rewrite Hnz. unfold mem_memmove. rewrite kbind_modify. fold (moved q (PTE2PA (page_pte (length fs))) s).
    fold sm. kstep Em. cbn [Z.eqb negb]. kstep Ef. by kstep E.
Qed.

Lemma copy_loop n k s T fl nw fs :
  (n < k)%nat -> copied s new 0 copy_perm copy_fill T0 T fl0 fl nw fs ->
  let i := Z.of_nat (length fs) * PGSIZE in
  sz <= i + Z.of_nat n * PGSIZE < sz + PGSIZE ->
  exists r s' T' fl' nw' fs', loop k copy_body i s = Done r s' /\
    copied s' new 0 copy_perm copy_fill T0 T' fl0 fl' nw' fs' /\
    (r = 0 /\ length fs' = (length fs + n)%nat \/ r = -1 /\ fs' = []).
Proof.
  revert k s T fl nw fs. induction n as [|n IH]; intros k s T fl nw fs Hk A i Hend; (destruct k as [|k]; [lia|]).
  - exists 0, s, T, fl, nw, fs. split; [|split; [exact A|left; split; [done|lia]]].
    apply loop_done. unfold copy_body. by rewrite (proj2 (Z.ltb_ge _ _)) by lia.
  - destruct (copy_step s T fl nw fs A) as (s1 & T1 & fl1 & nw1 & Hc); [fold i; unfold PGSIZE in *; lia|].
    fold i in Hc. destruct Hc as [(q & E & A1)|(E & A1)].
    + assert (i + PGSIZE = Z.of_nat (length (fs ++ [q])) * PGSIZE) as Ea.
      { rewrite length_app. cbn [length]. unfold i. lia. }
      destruct (IH k s1 T1 fl1 nw1 (fs ++ [q])) as (r & s' & T' & fl' & nw' & fs' & E' & A' & Hr).
      * lia.
      * exact A1.
      * rewrite <- Ea. lia.
      * exists r, s', T', fl', nw', fs'. split; [|split; [exact A'|]].
        -- rewrite <- Ea in E'. by erewrite loop_next by exact E.
        -- rewrite length_app in Hr. cbn [length] in Hr. destruct Hr as [[-> Hr]|Hr]; [left; split; [done|lia]|by right].
    + exists (-1), s1, T1, fl1, nw1, []. split; [by apply loop_done|]. split; [exact A1|by right].
Qed.

Lemma uvmcopy_run :
  exists r s' T' fl' nw fs, uvmcopy old new sz s0 = Done r s' /\
    copied s' new 0 copy_perm copy_fill T0 T' fl0 fl' nw fs /\
    (r = 0 /\ Z.of_nat (length fs) * PGSIZE = PGROUNDUP sz \/ r = -1 /\ fs = []).
Proof.
  destruct Hmax as [Hsz Hm].
  destruct (PGROUNDUP_range sz) as [Hal Hup]; [lia|change MAXVA with (2 ^ 38) in *; unfold PGSIZE in *; lia|].
  set (top := PGROUNDUP sz) in *. set (n := Z.to_nat (top / PGSIZE)).
  assert (Z.of_nat n * PGSIZE = top) as En.
  { unfold n. clear -Hal Hup Hsz. clearbody top. unfold PGSIZE in *. dlia. }
  destruct (copy_loop n (S (page_steps 0 sz)) s0 T0 fl0 [] []) as (r & s' & T' & fl' & nw & fs & E & A & Hr).
  - unfold page_steps. rewrite (proj2 (Z.leb_le _ _)) by lia. clear -En Hup. clearbody n top. unfold PGSIZE in *. dlia.
  - by apply allocd_refl.
  - cbn [length]. rewrite Z.mul_0_l, En. lia.
  - exists r, s', T', fl', nw, fs. split; [exact E|]. split; [exact A|].
    destruct Hr as [[-> Hr]|Hr]; [left; split; [done|]|by right]. rewrite Hr. exact En.
Qed.
End Copy.

