(* ===== verification/UserMem.v ===== *)
(** * User memory as the kernel sees it (copyin, copyout, copyinstr of vm.c).

    The three copy functions work page by page.  Here they are shown equal to
    reference functions that translate and move one byte at a time:
    [uread], [ureadstr] and [uwrite].  The equalities hold for every address
    and length, mapped or not, wrapping around or not, so they also give the
    error behaviour; with the ownership of frames in [uspace] they give the
    round trip of a copyout followed by a copyin. *)

From S2P Require Import Prelude Defs KMonad Lock Mem Kalloc Vm.

#[local] Opaque memset store64 load64 load8 store_bytes memmove.

(** ** Reference functions *)

(** The frame behind a user address, as walkaddr sees it. *)
Definition upage (m : gmap Z Z) (root va : Z) : option Z :=
  if MAXVA <=? va then None else
  match trans m 2 root va with
  | Some e => if has e PTE_U && negb (PTE2PA e =? 0) then Some (PTE2PA e) else None
  | None => None
  end.
(** The physical address of a user byte. *)
Definition uphys (m : gmap Z Z) (root va : Z) : option Z :=
  (fun p => p + va `mod` PGSIZE) <$> upage m root va.

(** The bytes at user address [va], up to [n] of them, as far as mapped. *)
Fixpoint uread (m : gmap Z Z) (root va : Z) (n : nat) : list Z :=
  match n with
  | O => []
  | S n => match uphys m root va with
           | Some p => load8 m p :: uread m root (va + 1) n
           | None => []
           end
  end.

(** The same up to and including a NUL, and whether there was one. *)
Fixpoint ureadstr (m : gmap Z Z) (root va : Z) (n : nat) : list Z * bool :=
  match n with
  | O => ([], false)
  | S n => match uphys m root va with
           | Some p => let c := load8 m p in
                       if c =? 0 then ([0], true) else
                       let r := ureadstr m root (va + 1) n in (c :: fst r, snd r)
           | None => ([], false)
           end
  end.

(** Storing bytes at user address [va], translated by the tables in [m0], as
    far as mapped; whether every byte was stored. *)
Fixpoint uwrite (m0 : gmap Z Z) (root : Z) (m : gmap Z Z) (va : Z) (bs : list Z) : gmap Z Z * bool :=
  match bs with
  | [] => (m, true)
  | b :: bs => match uphys m0 root va with
               | Some p => uwrite m0 root (store8 m p b) (va + 1) bs
               | None => (m, false)
               end
  end.

(** ** Within a page *)

Lemma upage_same m root va va' :
  va / PGSIZE = va' / PGSIZE -> upage m root va = upage m root va'.
Proof.
  intros E. unfold upage. rewrite (trans_page _ _ _ va va' E).
  assert ((MAXVA <=? va) = (MAXVA <=? va')) as ->; [|done].
  apply Bool.eq_iff_eq_true. rewrite !Z.leb_le. change MAXVA with (67108864 * PGSIZE).
  clear -E. unfold PGSIZE in *. dlia.
Qed.

Lemma uphys_at m root va i :
  0 <= i -> va `mod` PGSIZE + i < PGSIZE ->
  uphys m root (va + i) = (fun p => p + va `mod` PGSIZE + i) <$> upage m root va.
Proof.
  intros Hi Hlt. unfold uphys. rewrite (upage_same m root (va + i) va).
  - destruct (upage m root va); [|done]. cbn. f_equal. clear -Hi Hlt. unfold PGSIZE in *. dlia.
  - clear -Hi Hlt. unfold PGSIZE in *. dlia.
Qed.

Section Chunk.
Context (m : gmap Z Z) (root : Z).

Lemma uread_none va n : upage m root va = None -> uread m root va n = [].
Proof. intros E. destruct n; [done|]. cbn [uread]. unfold uphys. by rewrite E. Qed.

Lemma length_uread va n : (length (uread m root va n) <= n)%nat.
Proof.
  revert va. induction n as [|n IH]; intros va; cbn [uread]; [done|].
  destruct (uphys m root va); cbn [length]; [specialize (IH (va + 1)); lia|lia].
Qed.

Lemma uread_chunk va p n n' :
  upage m root va = Some p -> va `mod` PGSIZE + Z.of_nat n <= PGSIZE ->
  uread m root va (n + n')
  = load_bytes m (p + va `mod` PGSIZE) n ++ uread m root (va + Z.of_nat n) n'.
Proof.
  intros E Hle.
  assert (forall j n0, Z.of_nat j + Z.of_nat n0 = Z.of_nat n ->
    uread m root (va + Z.of_nat j) (n0 + n')
    = load_bytes m (p + va `mod` PGSIZE + Z.of_nat j) n0 ++ uread m root (va + Z.of_nat n) n') as Hgen.
  { intros j n0. revert j. induction n0 as [|n0 IH]; intros j Hj.
    - cbn. do 2 f_equal. lia.
    - cbn [Nat.add uread load_bytes app]. rewrite uphys_at, E by lia. cbn [fmap option_fmap option_map].
      f_equal. specialize (IH (S j)). rewrite !Nat2Z.inj_succ in IH.
      replace (va + Z.of_nat j + 1) with (va + Z.succ (Z.of_nat j)) by lia.
      rewrite IH by lia. do 2 f_equal. lia. }
  specialize (Hgen O n). cbn in Hgen. rewrite !Z.add_0_r in Hgen. by apply Hgen.
Qed.

Lemma ureadstr_none va n : upage m root va = None -> ureadstr m root va n = ([], false).
Proof. intros E. destruct n; [done|]. cbn [ureadstr]. unfold uphys. by rewrite E. Qed.

(** The bytes copy_until_nul reads, as a function of memory. *)
Fixpoint until_nul (a : Z) (n : nat) : list Z * bool :=
  match n with
  | O => ([], false)
  | S n => let c := load8 m a in
           if c =? 0 then ([0], true) else
           let r := until_nul (a + 1) n in (c :: fst r, snd r)
  end.

Lemma ureadstr_chunk va p n n' :
  upage m root va = Some p -> va `mod` PGSIZE + Z.of_nat n <= PGSIZE ->
  ureadstr m root va (n + n')
  = let r := until_nul (p + va `mod` PGSIZE) n in
    if snd r then r else
    let r' := ureadstr m root (va + Z.of_nat n) n' in (fst r ++ fst r', snd r').
Proof.
  intros E Hle.
  assert (forall j n0, Z.of_nat j + Z.of_nat n0 = Z.of_nat n ->
    ureadstr m root (va + Z.of_nat j) (n0 + n')
    = let r := until_nul (p + va `mod` PGSIZE + Z.of_nat j) n0 in
      if snd r then r else
      let r' := ureadstr m root (va + Z.of_nat n) n' in (fst r ++ fst r', snd r')) as Hgen.
  { intros j n0. revert j. induction n0 as [|n0 IH]; intros j Hj.
    - cbn. replace (va + Z.of_nat j) with (va + Z.of_nat n) by lia. by destruct (ureadstr _ _ _ _).
    - cbn [Nat.add ureadstr until_nul app]. rewrite uphys_at, E by lia. cbn [fmap option_fmap option_map].
      cbv zeta. destruct (load8 _ _ =? 0); [done|]. specialize (IH (S j)). rewrite !Nat2Z.inj_succ in IH.
      replace (va + Z.of_nat j + 1) with (va + Z.succ (Z.of_nat j)) by lia.
      rewrite IH by lia.
      replace (p + va `mod` PGSIZE + Z.succ (Z.of_nat j)) with (p + va `mod` PGSIZE + Z.of_nat j + 1) by lia.
      cbv zeta. cbn [fst snd].
      destruct (until_nul (p + va `mod` PGSIZE + Z.of_nat j + 1) n0) as [bs0 [|]] eqn:Er; cbn [fst snd];
        reflexivity. }
  specialize (Hgen O n). cbn in Hgen. rewrite !Z.add_0_r in Hgen. by apply Hgen.
Qed.

Lemma uwrite_none m' va bs : bs <> [] -> upage m root va = None -> uwrite m root m' va bs = (m', false).
Proof. intros Hb E. destruct bs; [done|]. cbn [uwrite]. unfold uphys. by rewrite E. Qed.

Lemma uwrite_chunk m' va p bs bs' :
  upage m root va = Some p -> va `mod` PGSIZE + Z.of_nat (length bs) <= PGSIZE ->
  uwrite m root m' va (bs ++ bs')
  = uwrite m root (store_bytes m' (p + va `mod` PGSIZE) bs) (va + Z.of_nat (length bs)) bs'.
Proof.
  intros E Hle.
  assert (forall (bs0 : list Z) (j : nat) m1, Z.of_nat j + Z.of_nat (length bs0) = Z.of_nat (length bs) ->
    uwrite m root m1 (va + Z.of_nat j) (bs0 ++ bs')
    = uwrite m root (store_bytes m1 (p + va `mod` PGSIZE + Z.of_nat j) bs0) (va + Z.of_nat (length bs)) bs') as Hgen.
  { intros bs0. induction bs0 as [|b bs0 IH]; intros j m1 Hj; cbn [length] in Hj.
    - cbn [app]. replace (va + Z.of_nat j) with (va + Z.of_nat (length bs)) by lia. reflexivity.
    - cbn [uwrite app]. rewrite uphys_at, E by lia. cbn [fmap option_fmap option_map].
      specialize (IH (S j)). rewrite !Nat2Z.inj_succ in IH.
      replace (va + Z.of_nat j + 1) with (va + Z.succ (Z.of_nat j)) by lia.
      rewrite IH by lia. f_equal.
      replace (p + va `mod` PGSIZE + Z.succ (Z.of_nat j)) with (p + va `mod` PGSIZE + Z.of_nat j + 1) by lia.
      reflexivity. }
  specialize (Hgen bs O m'). cbn [Z.of_nat] in Hgen. rewrite !Z.add_0_r in Hgen. by apply Hgen.
Qed.
End Chunk.

Section Copy.
Context `{Fuel, KernelImage}.

(** ** The code, one page at a time *)

Lemma walkaddr_upage s root T va :
  tables (ks_mem s) root T -> 0 <= va ->
  walkaddr root va s = Done (default 0 (upage (ks_mem s) root va)) s.
Proof.
  intros Ht Hva. unfold walkaddr, upage. destruct (MAXVA <=? va) eqn:Hm; [done|]. apply Z.leb_gt in Hm.
  kstep (walk_noalloc s root va); [|lia]. unfold trans.
  destruct (pwalk _ _ _ _) as [a|] eqn:Hw; [|done]. cbn [from_option id].
  destruct (pwalk_leaf _ _ _ _ _ _ _ Ht (tb_root _ _ _ Ht) Hw) as (p0 & Hp0 & ->).
  pose proof (page_ok_bounds _ (tb_page _ _ _ Ht _ _ Hp0)) as Hb. pose proof (PX_range 0 va).
  rewrite (proj2 (Z.eqb_neq _ _)) by (unfold pte_addr, KERNBASE in *; lia).
  unfold load_pte. rewrite kbind_get. cbn [id]. cbv zeta. destruct (has (load64 _ _) PTE_V); [|done].
  cbn [negb]. destruct (has (load64 _ _) PTE_U); [|done]. cbn [negb andb].
  destruct (PTE2PA (load64 _ _) =? 0) eqn:E; [|done]. apply Z.eqb_eq in E. cbn. by rewrite E.
Qed.

(** walkaddr's result as an option: 0 is the failure. *)
Lemma upage_nz m root va : (default 0 (upage m root va) =? 0) = bool_decide (upage m root va = None).
Proof.
  unfold upage. destruct (MAXVA <=? va); [done|]. destruct (trans _ _ _ _) as [e|]; [|done].
  destruct (has e PTE_U); [|done]. cbn [andb]. destruct (PTE2PA e =? 0) eqn:E; [done|].
  cbn [negb from_option id]. by rewrite E.
Qed.

Lemma page_base va :
  0 <= va < 2 ^ 64 ->
  PGROUNDDOWN va / PGSIZE = va / PGSIZE /\ va - PGROUNDDOWN va = va `mod` PGSIZE /\ 0 <= PGROUNDDOWN va.
Proof.
  intros Hva. rewrite PGROUNDDOWN_eq by done. clear -Hva. unfold PGSIZE in *. dlia.
Qed.

(** The next page's address: beyond it either nothing is left to copy, or it is
    where the chunk ended. *)
Lemma chunk_next va len :
  0 <= va < MAXVA -> 0 < len ->
  let n := Z.min (PGSIZE - va `mod` PGSIZE) len in
  0 < n <= len /\ va `mod` PGSIZE + n <= PGSIZE /\
  0 <= u64 (PGROUNDDOWN va + PGSIZE) < 2 ^ 64 /\
  (n = len \/ u64 (PGROUNDDOWN va + PGSIZE) = va + n).
Proof.
  intros Hva Hlen n. pose proof (Z.mod_pos_bound va PGSIZE ltac:(done)) as Hm.
  rewrite PGROUNDDOWN_eq by (change MAXVA with (2 ^ 38) in *; lia).
  pose proof (Z_div_mod_eq_full va PGSIZE) as Hd. rewrite u64_small.
  - unfold n. change MAXVA with (2 ^ 38) in *. unfold PGSIZE in *. lia.
  - change MAXVA with (2 ^ 38) in *. unfold PGSIZE in *. lia.
Qed.

Definition copyin_body (pagetable : Z) (x : Z * Z * list Z) : K (Z * Z * list Z + Z * list Z) :=
  let '(srcva, len, got) := x in
  if len =? 0 then ret (inr (0, got)) else
  let va0 := PGROUNDDOWN srcva in
  let! pa0 := walkaddr pagetable va0 in
  if pa0 =? 0 then ret (inr (-1, got)) else
  let n := Z.min (PGSIZE - (srcva - va0)) len in
  let! bs := mem_load (pa0 + (srcva - va0)) n in
  ret (inl (u64 (va0 + PGSIZE), len - n, got ++ bs)).

Lemma copyin_unfold root va len s :
  copyin root va len s = loop (S (Z.to_nat len)) (copyin_body root) (va, len, []) s.
Proof. reflexivity. Qed.

(** A user address at or beyond MAXVA is not mapped. *)
Lemma upage_low m root va p : upage m root va = Some p -> va < MAXVA.
Proof. unfold upage. destruct (MAXVA <=? va) eqn:E; [done|]. intros _. by apply Z.leb_gt. Qed.

(** What copyin and copyout return: 0 when all was copied. *)
Definition rc (ok : bool) : Z := if ok then 0 else -1.

Lemma copyin_loop k s root T va (len : nat) got :
  (len < k)%nat -> tables (ks_mem s) root T -> 0 <= va < 2 ^ 64 ->
  let bs := uread (ks_mem s) root va len in
  loop k (copyin_body root) (va, Z.of_nat len, got) s
  = Done (rc (length bs =? len)%nat, got ++ bs) s.
Proof.
  intros Hk Ht. revert k va got Hk. induction (lt_wf len) as [len _ IH]. intros k va got Hk Hva bs.
  destruct k as [|k]; [lia|]. destruct len as [|len'].
  { unfold bs. cbn [uread length Nat.eqb rc]. rewrite app_nil_r. by apply loop_done. }
  set (len := S len') in *. pose proof (page_base va Hva) as (Ep & Eo & Hpos).
  assert (walkaddr root (PGROUNDDOWN va) s = Done (default 0 (upage (ks_mem s) root va)) s) as Ew.
  { rewrite (walkaddr_upage s root T) by done. by rewrite (upage_same _ _ _ va Ep). }
  destruct (upage (ks_mem s) root va) as [p|] eqn:Hp.
  - assert ((p =? 0) = false) as Hnz by (pose proof (upage_nz (ks_mem s) root va) as E; by rewrite Hp in E).
    pose proof (upage_low _ _ _ _ Hp) as Hlow.
    destruct (chunk_next va (Z.of_nat len)) as (Hn & Hfit & Hu & Hnext); [lia|lia|].
    set (n := Z.min (PGSIZE - va `mod` PGSIZE) (Z.of_nat len)) in *.
    set (bs1 := load_bytes (ks_mem s) (p + va `mod` PGSIZE) (Z.to_nat n)).
    assert (copyin_body root (va, Z.of_nat len, got) s
      = Done (inl (u64 (PGROUNDDOWN va + PGSIZE), Z.of_nat len - n, got ++ bs1)) s) as Eb.
    { unfold copyin_body. rewrite (proj2 (Z.eqb_neq _ _)) by (unfold len; lia). kstep Ew. cbn [from_option id].
      rewrite Hnz. rewrite Eo. reflexivity. }
    rewrite (loop_next _ _ _ _ _ _ Eb).
    assert (bs = bs1 ++ uread (ks_mem s) root (va + n) (len - Z.to_nat n)) as Ebs.
    { unfold bs. replace len with (Z.to_nat n + (len - Z.to_nat n))%nat at 1 by lia.
      rewrite (uread_chunk _ _ _ p) by (done || lia). by rewrite Z2Nat.id by lia. }
    assert (length bs1 = Z.to_nat n) as Hl1 by apply length_load_bytes.
    replace (Z.of_nat len - n) with (Z.of_nat (len - Z.to_nat n)) by lia.
    rewrite IH by (unfold len in *; lia || exact Hu). rewrite <- app_assoc.
    assert (uread (ks_mem s) root (u64 (PGROUNDDOWN va + PGSIZE)) (len - Z.to_nat n)
      = uread (ks_mem s) root (va + n) (len - Z.to_nat n)) as ->.
    { destruct Hnext as [Hnext|Hnext]; [|by rewrite Hnext]. by replace (len - Z.to_nat n)%nat with O by lia. }
    rewrite <- Ebs. do 3 f_equal. rewrite Ebs, length_app, Hl1.
    apply Bool.eq_iff_eq_true. rewrite !Nat.eqb_eq. lia.
  - unfold bs. rewrite uread_none by done. rewrite app_nil_r. apply loop_done. unfold copyin_body.
    rewrite (proj2 (Z.eqb_neq _ _)) by (unfold len; lia). kstep Ew. reflexivity.
Qed.

Lemma copy_until_nul_eq n a s : copy_until_nul n a s = Done (until_nul (ks_mem s) a n) s.
Proof.
  revert a. induction n as [|n IH]; intros a; cbn [copy_until_nul until_nul]; [done|].
  rewrite kbind_get. destruct (load8 (ks_mem s) a =? 0); [done|]. kstep IH. done.
Qed.

Definition copyinstr_body (pagetable : Z) (x : Z * Z * list Z) : K (Z * Z * list Z + Z * list Z) :=
  let '(srcva, max, got) := x in
  if negb (0 <? max) then ret (inr (-1, got)) else
  let va0 := PGROUNDDOWN srcva in
  let! pa0 := walkaddr pagetable va0 in
  if pa0 =? 0 then ret (inr (-1, got)) else
  let n := Z.min (PGSIZE - (srcva - va0)) max in
  let! r := copy_until_nul (Z.to_nat n) (pa0 + (srcva - va0)) in
  let '(bs, got_null) := r in
  if got_null : bool then ret (inr (0, got ++ bs)) else
  ret (inl (u64 (va0 + PGSIZE), max - n, got ++ bs)).

Lemma copyinstr_unfold root va max s :
  copyinstr root va max s = loop (S (Z.to_nat max)) (copyinstr_body root) (va, max, []) s.
Proof. reflexivity. Qed.

Lemma copyinstr_loop k s root T va (len : nat) got :
  (len < k)%nat -> tables (ks_mem s) root T -> 0 <= va < 2 ^ 64 ->
  let r := ureadstr (ks_mem s) root va len in
  loop k (copyinstr_body root) (va, Z.of_nat len, got) s = Done (rc (snd r), got ++ fst r) s.
Proof.
  intros Hk Ht. revert k va got Hk. induction (lt_wf len) as [len _ IH]. intros k va got Hk Hva r.
  destruct k as [|k]; [lia|]. destruct len as [|len'].
  { unfold r. cbn [ureadstr fst snd rc]. rewrite app_nil_r. by apply loop_done. }
  set (len := S len') in *. pose proof (page_base va Hva) as (Ep & Eo & Hpos).
  assert (walkaddr root (PGROUNDDOWN va) s = Done (default 0 (upage (ks_mem s) root va)) s) as Ew.
  { rewrite (walkaddr_upage s root T) by done. by rewrite (upage_same _ _ _ va Ep). }
  assert (copyinstr_body root (va, Z.of_nat len, got) s =
    (if default 0 (upage (ks_mem s) root va) =? 0 then Done (inr (-1, got)) s else
     let n := Z.min (PGSIZE - va `mod` PGSIZE) (Z.of_nat len) in
     let r := until_nul (ks_mem s) (default 0 (upage (ks_mem s) root va) + va `mod` PGSIZE) (Z.to_nat n) in
     if snd r then Done (inr (0, got ++ fst r)) s
     else Done (inl (u64 (PGROUNDDOWN va + PGSIZE), Z.of_nat len - n, got ++ fst r)) s)) as Eb.
  { unfold copyinstr_body. rewrite (proj2 (Z.ltb_lt _ _)) by (unfold len; lia). cbn [negb]. kstep Ew.
    destruct (_ =? 0); [done|]. rewrite Eo. cbv zeta. kstep copy_until_nul_eq.
    by destruct (until_nul _ _ _) as [bs [|]]. }
  rewrite upage_nz in Eb. destruct (upage (ks_mem s) root va) as [p|] eqn:Hp.
  - rewrite bool_decide_eq_false_2 in Eb by done. cbv zeta in Eb. cbn [from_option id] in Eb.
    pose proof (upage_low _ _ _ _ Hp) as Hlow.
    destruct (chunk_next va (Z.of_nat len)) as (Hn & Hfit & Hu & Hnext); [lia|lia|].
    set (n := Z.min (PGSIZE - va `mod` PGSIZE) (Z.of_nat len)) in *.
    assert (r = ureadstr (ks_mem s) root va (Z.to_nat n + (len - Z.to_nat n))) as Er.
    { unfold r. f_equal. lia. }
    rewrite (ureadstr_chunk _ _ _ p) in Er by (done || lia). rewrite Z2Nat.id in Er by lia.
    cbv zeta in Er. destruct (until_nul _ _ _) as [bs [|]]; cbn [fst snd] in Eb, Er.
    + rewrite Er. cbn [fst snd rc]. by apply loop_done.
    + rewrite (loop_next _ _ _ _ _ _ Eb).
      replace (Z.of_nat len - n) with (Z.of_nat (len - Z.to_nat n)) by lia.
      rewrite IH by (unfold len in *; lia || exact Hu). rewrite Er. cbn [fst snd]. rewrite <- app_assoc.
      destruct Hnext as [Hnext|Hnext]; [|by rewrite Hnext].
      by replace (len - Z.to_nat n)%nat with O by lia.
  - rewrite bool_decide_eq_true_2 in Eb by done. unfold r. rewrite ureadstr_none by done. cbn [fst snd rc].
    rewrite app_nil_r. by apply loop_done.
Qed.

(** ** copyout *)

(** The frames of user pages: each belongs to one page, none is a page-table
    page or free. *)
Record uspace (m : gmap Z Z) (root : Z) (T : gmap Z nat) (fl : list Z) : Prop := mk_uspace {
  us_frame va p : 0 <= va -> upage m root va = Some p -> owned T fl p;
  us_inj va va' p : 0 <= va -> 0 <= va' -> upage m root va = Some p -> upage m root va' = Some p ->
    va / PGSIZE = va' / PGSIZE
}.

(** Memory agrees on page-table pages and free pages. *)
Definition keeps (T : gmap Z nat) (fl : list Z) (m m' : gmap Z Z) : Prop :=
  forall q, page_ok q -> is_Some (T !! q) \/ q ∈ fl -> forall x, q <= x < q + PGSIZE -> load8 m' x = load8 m x.

Lemma load64_bytes m m' a : (forall x, a <= x < a + 8 -> load8 m' x = load8 m x) -> load64 m' a = load64 m a.
Proof. intros Hx. Transparent load64. unfold load64. Opaque load64. f_equal. by apply load_bytes_ext. Qed.

Lemma keeps_ok T fl root s s' :
  vm_ok s root T fl -> keeps T fl (ks_mem s) (ks_mem s') -> s' = s <| ks_mem := ks_mem s' |> ->
  vm_ok s' root T fl /\ forall va, trans (ks_mem s') 2 root va = trans (ks_mem s) 2 root va.
Proof.
  intros [Hs Hl Hf Ht Hsep] Hk Hs'.
  assert (same_hart s s' /\ ks_freelist s' = ks_freelist s) as [Hsh Efl] by (rewrite Hs'; by split).
  destruct (tables_agree (ks_mem s) (ks_mem s') root T Ht) as (Ht' & _ & Htr).
  { intros q l j Hq Hj. apply load64_bytes. intros x Hx.
    apply (Hk q); [by eapply tb_page|left; by eexists|]. unfold pte_addr, PGSIZE in *. lia. }
  split; [|exact Htr]. split; [by eapply hart_ok_same|by eapply lock_free_same| |exact Ht'|exact Hsep].
  apply (free_list_frame s); [exact Efl| |exact Hf]. intros p Hp. apply load64_bytes. intros x Hx.
  destruct Hf as [_ _ Hpg]. rewrite Forall_forall in Hpg.
  apply (Hk p); [by apply Hpg|by right|]. unfold PGSIZE. lia.
Qed.

(** Only memory, the free list and the allocator's lock matter. *)
Lemma vm_ok_other s s' root T fl :
  hart_ok s' -> lock_free L_kmem s' -> ks_mem s' = ks_mem s -> ks_freelist s' = ks_freelist s ->
  vm_ok s root T fl -> vm_ok s' root T fl.
Proof.
  intros Hs Hl Em Ef [_ _ Hf Ht Hsep]. split; [done|done| |by rewrite Em|done].
  apply (free_list_frame s); [done| |done]. intros p _. by rewrite Em.
Qed.

Definition copyout_body (pagetable : Z) (x : Z * list Z) : K (Z * list Z + Z) :=
  let '(dstva, src) := x in
  let len := Z.of_nat (length src) in
  if len =? 0 then ret (inr 0) else
  let va0 := PGROUNDDOWN dstva in
  let! pa0 := walkaddr pagetable va0 in
  if pa0 =? 0 then ret (inr (-1)) else
  let n := Z.min (PGSIZE - (dstva - va0)) len in
  mem_store (pa0 + (dstva - va0)) (take (Z.to_nat n) src) ;;
  ret (inl (u64 (va0 + PGSIZE), drop (Z.to_nat n) src)).

Lemma copyout_unfold root va src s :
  copyout root va src s = loop (S (length src)) (copyout_body root) (va, src) s.
Proof. reflexivity. Qed.

(** Storing into a user page keeps the rest of memory. *)
Lemma keeps_store T fl m m1 p off bs :
  keeps T fl m m1 -> owned T fl p -> 0 <= off -> off + Z.of_nat (length bs) <= PGSIZE ->
  keeps T fl m (store_bytes m1 (p + off) bs).
Proof.
  intros Hk (Hp & Hpf & HpT) Hoff Hlen q Hq Hin x Hx.
  rewrite load8_store_bytes, decide_False; [by apply (Hk q)|].
  assert (p <> q) as Hne by (intros ->; destruct Hin as [[? ?]|?]; [congruence|done]).
  pose proof (page_disjoint _ _ Hp Hq Hne) as Hd. clear -Hd Hx Hoff Hlen. lia.
Qed.

(** One iteration, in a state [s1] reached by stores to user pages from [s]. *)
Lemma copyout_chunk s s1 root T fl va src :
  vm_ok s root T fl -> 0 <= va < 2 ^ 64 -> s1 = s <| ks_mem := ks_mem s1 |> ->
  keeps T fl (ks_mem s) (ks_mem s1) -> src <> [] ->
  copyout_body root (va, src) s1 =
  match upage (ks_mem s) root va with
  | None => Done (inr (-1)) s1
  | Some p =>
    let n := Z.min (PGSIZE - va `mod` PGSIZE) (Z.of_nat (length src)) in
    Done (inl (u64 (PGROUNDDOWN va + PGSIZE), drop (Z.to_nat n) src))
      (s1 <| ks_mem := store_bytes (ks_mem s1) (p + va `mod` PGSIZE) (take (Z.to_nat n) src) |>)
  end.
Proof.
  intros Hok Hva Hs1 Hkeep Hne. destruct (keeps_ok T fl root s s1 Hok Hkeep Hs1) as [Hok1 Htr].
  pose proof (page_base va Hva) as (Ep & Eo & Hb).
  assert (upage (ks_mem s1) root va = upage (ks_mem s) root va) as Eup by (unfold upage; by rewrite Htr).
  assert (walkaddr root (PGROUNDDOWN va) s1 = Done (default 0 (upage (ks_mem s) root va)) s1) as Ew.
  { rewrite (walkaddr_upage s1 root T) by (done || apply Hok1). by rewrite (upage_same _ _ _ va Ep), Eup. }
  unfold copyout_body. rewrite (proj2 (Z.eqb_neq _ _)) by (destruct src; [done|cbn [length]; lia]).
  kstep Ew. rewrite upage_nz. destruct (upage (ks_mem s) root va) as [p|].
  - rewrite bool_decide_eq_false_2 by done. rewrite Eo. unfold mem_store. rewrite kbind_modify. reflexivity.
  - by rewrite bool_decide_eq_true_2.
Qed.

Lemma copyout_loop k s s1 root T fl va src :
  (length src < k)%nat -> vm_ok s root T fl -> uspace (ks_mem s) root T fl -> 0 <= va < 2 ^ 64 ->
  s1 = s <| ks_mem := ks_mem s1 |> -> keeps T fl (ks_mem s) (ks_mem s1) ->
  let r := uwrite (ks_mem s) root (ks_mem s1) va src in
  loop k (copyout_body root) (va, src) s1 = Done (rc (snd r)) (s1 <| ks_mem := fst r |>) /\
  keeps T fl (ks_mem s) (fst r).
Proof.
  intros Hk Hok Hus. revert k s1 va Hk. remember (length src) as len eqn:El. revert src El.
  induction (lt_wf len) as [len _ IH]. intros src El k s1 va Hk Hva Hs1 Hkeep r.
  destruct k as [|k]; [lia|]. destruct (decide (src = [])) as [->|Hne].
  { unfold r. cbn [uwrite fst snd rc]. split; [|done]. apply loop_done. cbn.
    unfold ret. f_equal. symmetry. kstate_eq. }
  assert (0 < len)%nat as Hpos by (destruct src; [done|rewrite El; cbn; lia]).
  pose proof (copyout_chunk s s1 root T fl va src Hok Hva Hs1 Hkeep Hne) as Eb. rewrite <- El in Eb.
  destruct (upage (ks_mem s) root va) as [p|] eqn:Hp.
  - cbv zeta in Eb.
    pose proof (upage_low _ _ _ _ Hp) as Hlow.
    destruct (chunk_next va (Z.of_nat len)) as (Hn & Hfit & Hu & Hnext); [lia|lia|].
    set (n := Z.min (PGSIZE - va `mod` PGSIZE) (Z.of_nat len)) in *.
    set (bs1 := take (Z.to_nat n) src) in *. set (bs2 := drop (Z.to_nat n) src) in *.
    assert (length bs1 = Z.to_nat n) as Hl1 by (unfold bs1; rewrite length_take; lia).
    assert (length bs2 = len - Z.to_nat n)%nat as Hl2 by (unfold bs2; rewrite length_drop; lia).
    assert (r = uwrite (ks_mem s) root (store_bytes (ks_mem s1) (p + va `mod` PGSIZE) bs1) (va + n) bs2) as Er.
    { unfold r. rewrite <- (take_drop (Z.to_nat n) src) at 1.
      rewrite (uwrite_chunk _ _ _ _ p) by (done || (fold bs1; lia)). fold bs1 bs2.
      by rewrite Hl1, Z2Nat.id by lia. }
    set (m2 := store_bytes (ks_mem s1) (p + va `mod` PGSIZE) bs1) in *.
    assert (keeps T fl (ks_mem s) m2) as Hk2.
    { apply keeps_store; [done|exact (us_frame _ _ _ _ Hus va p ltac:(lia) Hp)|apply Z.mod_pos_bound; done|lia]. }
    clearbody m2. rewrite (loop_next _ _ _ _ _ _ Eb).
    destruct (IH (len - Z.to_nat n)%nat ltac:(lia) bs2 (eq_sym Hl2) k (s1 <| ks_mem := m2 |>)
      (u64 (PGROUNDDOWN va + PGSIZE))) as [E2 K2].
    + lia.
    + exact Hu.
    + rewrite Hs1. kstate_eq.
    + exact Hk2.
    + change (ks_mem (s1 <| ks_mem := m2 |>)) with m2 in E2, K2.
      assert (uwrite (ks_mem s) root m2 (u64 (PGROUNDDOWN va + PGSIZE)) bs2 = r) as E3.
      { rewrite Er. destruct Hnext as [Hnext|Hnext]; [|by rewrite Hnext].
        assert (bs2 = []) as -> by (apply length_zero_iff_nil; lia). done. }
      rewrite E3 in E2, K2. split; [|exact K2]. rewrite E2. reflexivity.
  - unfold r. rewrite uwrite_none by done. cbn [fst snd rc].
    split; [|done]. rewrite (loop_done _ _ _ _ _ _ Eb). f_equal. symmetry. kstate_eq.
Qed.

(** What uwrite leaves in memory. *)
Lemma uwrite_frame m0 root m va bs x :
  (forall i, 0 <= i < Z.of_nat (length bs) -> uphys m0 root (va + i) <> Some x) ->
  load8 (fst (uwrite m0 root m va bs)) x = load8 m x.
Proof.
  revert m va. induction bs as [|b bs IH]; intros m va Hx; cbn [uwrite]; [done|].
  destruct (uphys m0 root va) as [p|] eqn:Hp; [|done]. rewrite IH.
  - rewrite load8_store8, decide_False; [done|]. intros <-. apply (Hx 0); [cbn [length]; lia|].
    by rewrite Z.add_0_r.
  - intros i Hi. replace (va + 1 + i) with (va + (1 + i)) by lia. apply Hx. cbn [length]. lia.
Qed.

Lemma uphys_inj m root T fl va va' p :
  uspace m root T fl -> 0 <= va -> 0 <= va' -> uphys m root va = Some p -> uphys m root va' = Some p -> va = va'.
Proof.
  intros Hus Hva Hva'. unfold uphys. destruct (upage m root va) as [q|] eqn:Hq; [|done].
  destruct (upage m root va') as [q'|] eqn:Hq'; [|done]. cbn. intros [= E] [= E'].
  destruct (us_frame _ _ _ _ Hus va q Hva Hq) as [Hok _]. destruct (us_frame _ _ _ _ Hus va' q' Hva' Hq') as [Hok' _].
  pose proof (Z.mod_pos_bound va PGSIZE ltac:(done)). pose proof (Z.mod_pos_bound va' PGSIZE ltac:(done)).
  destruct (decide (q = q')) as [->|Hne].
  - pose proof (us_inj _ _ _ _ Hus va va' q' Hva Hva' Hq Hq') as Hd.
    clear -E E' Hd. unfold PGSIZE in *. dlia.
  - pose proof (page_disjoint _ _ Hok Hok' Hne). lia.
Qed.

(** Reading back what was written. *)
Lemma uread_uwrite m root T fl m1 va bs :
  uspace m root T fl -> 0 <= va -> snd (uwrite m root m1 va bs) = true ->
  let m2 := fst (uwrite m root m1 va bs) in
  (forall va, upage m2 root va = upage m root va) -> uread m2 root va (length bs) = bs.
Proof.
  intros Hus. revert m1 va. induction bs as [|b bs IH]; intros m1 va Hva Hok m2 Hup; [done|].
  unfold m2 in *. cbn [uwrite length uread] in *. unfold uphys at 1. rewrite Hup. fold (uphys m root va).
  destruct (uphys m root va) as [p|] eqn:Hp; [|done]. f_equal.
  - rewrite uwrite_frame; [by rewrite load8_store8, decide_True by done|]. intros i Hi Hx.
    pose proof (uphys_inj m root T fl va (va + 1 + i) p Hus Hva ltac:(lia) Hp Hx). lia.
  - apply IH; [lia|done|done].
Qed.

(** ** Claims *)

(** copyin() equals the byte-by-byte reference reader: it returns
    0 and the bytes when the whole range is mapped for the user, and
    otherwise -1 with the bytes before the first unmapped one that page-wise
    copying reaches; it changes no state.  Every address and length is
    covered, including ranges that run past MAXVA or around the address
    space. *)
Theorem copyin_reads s root T va (len : nat) :
  tables (ks_mem s) root T -> 0 <= va < 2 ^ 64 ->
  let bs := uread (ks_mem s) root va len in
  copyin root va (Z.of_nat len) s = Done (rc (length bs =? len)%nat, bs) s.
Proof.
  intros Ht Hva bs. rewrite copyin_unfold, Nat2Z.id. exact (copyin_loop (S len) s root T va len [] ltac:(lia) Ht Hva).
Qed.

(** C33: copyinstr() equals the byte-by-byte reference: it returns 0
    exactly when a NUL occurs within max bytes, all of them mapped for the
    user, and stores the string with its NUL. *)
Theorem copyinstr_reads s root T va (max : nat) :
  tables (ks_mem s) root T -> 0 <= va < 2 ^ 64 ->
  let r := ureadstr (ks_mem s) root va max in
  copyinstr root va (Z.of_nat max) s = Done (rc (snd r), fst r) s.
Proof.
  intros Ht Hva r. rewrite copyinstr_unfold, Nat2Z.id. exact (copyinstr_loop (S max) s root T va max [] ltac:(lia) Ht Hva).
Qed.

(** C13: copyout() stores the source at the user range: it returns 0
    exactly when every byte of the range is mapped for the user, and then a
    copyin() of the range returns the same bytes.  Either way it writes only to
    the frames of the range: every translation, page-table page and free
    page is kept. *)
Theorem copyout_copyin s root T fl va src :
  vm_ok s root T fl -> uspace (ks_mem s) root T fl -> 0 <= va < 2 ^ 64 ->
  exists r s', copyout root va src s = Done r s' /\ vm_ok s' root T fl /\
    s' = s <| ks_mem := ks_mem s' |> /\
    (forall va, trans (ks_mem s') 2 root va = trans (ks_mem s) 2 root va) /\
    (forall x, (forall i, 0 <= i < Z.of_nat (length src) -> uphys (ks_mem s) root (va + i) <> Some x) ->
       load8 (ks_mem s') x = load8 (ks_mem s) x) /\
    (r = 0 /\ copyin root va (Z.of_nat (length src)) s' = Done (0, src) s' \/
     r = -1 /\ exists i, 0 <= i < Z.of_nat (length src) /\ uphys (ks_mem s) root (va + i) = None).
Proof.
  intros Hok Hus Hva. set (r := uwrite (ks_mem s) root (ks_mem s) va src).
  destruct (copyout_loop (S (length src)) s s root T fl va src ltac:(lia) Hok Hus Hva) as [E K].
  { kstate_eq. }
  { intros q _ _ x _. reflexivity. }
  fold r in E, K. set (s' := s <| ks_mem := fst r |>) in *.
  assert (ks_mem s' = fst r) as Em by reflexivity.
  assert (s' = s <| ks_mem := ks_mem s' |>) as Es by (rewrite Em; reflexivity).
  clearbody s'. rewrite <- Em in K. destruct (keeps_ok T fl root s s' Hok K Es) as [Hok' Htr].
  exists (rc (snd r)), s'. rewrite copyout_unfold. split_and!; [exact E|exact Hok'|exact Es|exact Htr| |].
  { intros x Hx. rewrite Em. by apply uwrite_frame. }
  destruct (snd r) eqn:Er; [left|right]; (split; [done|]).
  - assert (uread (ks_mem s') root va (length src) = src) as Eu.
    { rewrite Em. apply (uread_uwrite _ _ T fl); [done|lia|done|]. fold r. rewrite <- Em.
      intros va'. unfold upage. by rewrite Htr. }
    rewrite copyin_unfold, Nat2Z.id.
    pose proof (copyin_loop (S (length src)) s' root T va (length src) [] ltac:(lia)
      (vo_tables _ _ _ _ Hok') Hva) as Ec.
    cbv zeta in Ec. rewrite Eu, Nat.eqb_refl in Ec. exact Ec.
  - clear -Er. unfold r in Er. clear r. revert va Er. generalize (ks_mem s) at 2.
    induction src as [|b src IH]; intros m va Er; cbn [uwrite] in Er; [done|].
    destruct (uphys (ks_mem s) root va) as [p|] eqn:Hp.
    + destruct (IH _ _ Er) as (i & Hi & Hn). exists (1 + i). cbn [length].
      replace (va + (1 + i)) with (va + 1 + i) by lia. split; [lia|done].
    + exists 0. rewrite Z.add_0_r. cbn [length]. split; [lia|done].
Qed.
End Copy.
