(* ===== verification/VmWitness.v ===== *)
(** * A concrete address space.

    A machine with eight free pages of RAM, an empty page table made by
    uvmcreate() and the same with one page of user memory from uvmalloc():
    the hypotheses of the theorems about vm.c hold on them. *)

From S2P Require Import Prelude Defs KMonad Lock Mem Kalloc Vm VmAlloc VmCopy UserMem.

#[local] Opaque memset store64 load64 load8 store_bytes memmove.

Section General.
Context `{Fuel, KernelImage}.

(** Memory that uvmalloc() gave to an empty address space is owned by it. *)
Lemma allocd_uspace s0 s root old perm fill T0 T fl0 fl new fs :
  vm_ok s0 root T0 fl0 -> 0 <= old -> old `mod` PGSIZE = 0 -> (forall i, 0 <= perm i < 2 ^ 10) ->
  allocd s0 s root old perm fill T0 T fl0 fl new fs ->
  (forall va, 0 <= va < MAXVA -> trans (ks_mem s0) 2 root va = None) ->
  uspace (ks_mem s) root T fl.
Proof.
  intros Hok0 Hold Hal Hperm A Hnone.
  destruct (allocd_owned s0 root old perm fill T0 fl0 Hok0 s T fl new fs A) as [Hown Hnd].
  assert (forall va p, 0 <= va -> upage (ks_mem s) root va = Some p ->
    old <= va /\ fs !! Z.to_nat ((va - old) / PGSIZE) = Some p) as Hcase.
  { intros va p Hva Hp. pose proof (upage_low _ _ _ _ Hp) as Hlow. unfold upage in Hp.
    rewrite (proj2 (Z.leb_gt _ _)), (al_trans _ _ _ _ _ _ _ _ _ _ _ _ A) in Hp by lia.
    case_decide as Hr; [|by rewrite Hnone in Hp by lia].
    cbv zeta in Hp. destruct (fs !! _) as [q|] eqn:Hq; [|done]. cbn [fmap option_fmap option_map] in Hp.
    rewrite Forall_lookup in Hown. destruct (Hown _ _ Hq) as [Hpq _].
    rewrite (proj1 (leaf_flags q _ Hpq (Hperm _))) in Hp.
    destruct (has _ _ && _); [|done]. simplify_eq. split; [lia|done]. }
  split.
  - intros va p Hva Hp. destruct (Hcase va p Hva Hp) as [_ Hq]. rewrite Forall_lookup in Hown. by eapply Hown.
  - intros va va' p Hva Hva' Hp Hp'. destruct (Hcase va p Hva Hp) as [Hle Hq].
    destruct (Hcase va' p Hva' Hp') as [Hle' Hq'].
    pose proof (NoDup_lookup _ _ _ _ Hnd Hq Hq') as E.
    clear -E Hle Hle' Hal. unfold PGSIZE in *. dlia.
Qed.

(** uvmcreate() next to an address space: its pages are not the new one's. *)
Lemma parent_of s root T q fl sz :
  vm_ok s root T (q :: fl) ->
  (forall va, 0 <= va < sz -> exists e, trans (ks_mem s) 2 root va = Some e /\
     PTE_FLAGS e <> PTE_V /\ owned T (q :: fl) (PTE2PA e)) ->
  parent (zeroed q s) root T {[q := 2%nat]} fl sz /\ vm_ok (zeroed q s) q {[q := 2%nat]} fl /\
  forall va, trans (ks_mem (zeroed q s)) 2 q va = None.
Proof.
  intros Hok Hmap. pose proof Hok as [Hs Hk Hf Ht Hsep].
  destruct (uvmcreate_run s q fl Hs Hk Hf) as (_ & Hok2 & Htr2). split; [|done].
  pose proof (zeroed_taken s root T q fl Hok) as [_ Hokz _ _ _ Htz].
  assert (forall pa, owned T (q :: fl) pa \/ page_ok pa /\ (pa ∉ q :: fl) -> owned {[q := 2%nat]} fl pa) as Ho.
  { intros pa Hpa. assert (page_ok pa /\ pa ∉ q :: fl) as [H1 [H2 H3]%not_elem_of_cons] by (destruct Hpa as [(? & ? & _)|?]; done).
    split_and!; [done|done|by apply lookup_singleton_ne]. }
  split.
  - exact (vo_tables _ _ _ _ Hokz).
  - intros pa l Hpa. apply Ho. right. split; [by eapply tb_page|]. intros Hin. by rewrite Hsep in Hpa.
  - intros va Hva. destruct (Hmap va Hva) as (e & He & Hfl & Hoe). exists e. rewrite Htz. auto.
Qed.
End General.

#[local] Instance vm_fuel : Fuel := {| fuel := 2; fuel_pos := ltac:(lia) |}.
#[global] Instance vm_image : KernelImage := {|
  end_ := PHYSTOP - 8 * PGSIZE; etext := KERNBASE + 0x8000; trampoline := KERNBASE + 0x7000;
  forkret_addr := 0; usertrap_addr := 0; image_layout := ltac:(vm_compute; intuition congruence) |}.

Definition vm_booted : kstate :=
  match kinit zero_state with Done _ s => s | _ => zero_state end.
Definition vm_pages : list Z := (fun i => PHYSTOP - (Z.of_nat i + 1) * PGSIZE) <$> seq 0 8.

Lemma vm_booted_free : free_list vm_booted vm_pages.
Proof.
  split; [vm_compute; intuition congruence|apply (bool_decide_unpack _); vm_compute; done|].
  apply (bool_decide_unpack _). vm_compute. done.
Qed.
Lemma vm_booted_hart : hart_ok vm_booted /\ lock_free L_kmem vm_booted.
Proof. vm_compute. intuition congruence. Qed.

(** The empty page table. *)
Definition uroot : Z := PHYSTOP - PGSIZE.
Definition vm_empty : kstate := zeroed uroot vm_booted.
Definition empty_T : gmap Z nat := {[uroot := 2%nat]}.
Definition empty_fl : list Z := (fun i => PHYSTOP - (Z.of_nat i + 1) * PGSIZE) <$> seq 1 7.

Lemma vm_empty_ok :
  vm_ok vm_empty uroot empty_T empty_fl /\ forall va, trans (ks_mem vm_empty) 2 uroot va = None.
Proof.
  assert (free_list vm_booted (uroot :: empty_fl)) as Hf by exact vm_booted_free.
  destruct (uvmcreate_run vm_booted uroot empty_fl (proj1 vm_booted_hart) (proj2 vm_booted_hart) Hf)
    as (_ & Hok & Htr).
  split; [exact Hok|exact Htr].
Qed.


Lemma uvmalloc_correct_witness :
  exists r s' T' fl' new fs, uvmalloc uroot 0 0x1800 PTE_W vm_empty = Done r s' /\
    allocd vm_empty s' uroot 0 (fun _ => Z.lor (Z.lor PTE_R PTE_U) PTE_W) (fun _ _ => 0) empty_T T' empty_fl fl' new fs.
Proof.
  destruct vm_empty_ok as [Hok Htr].
  destruct (uvmalloc_correct vm_empty uroot empty_T empty_fl 0 0x1800 PTE_W Hok
    ltac:(lia) ltac:(vm_compute; congruence) ltac:(vm_compute; intuition congruence) (fun va _ => Htr va))
    as (r & s' & T' & fl' & new & fs & E & A & _).
  exists r, s', T', fl', new, fs. split; [exact E|exact A].
Defined.

(** One page of user memory at address 0. *)
Definition uperm : Z := Z.lor (Z.lor PTE_R PTE_U) PTE_W.
Definition vm_one : kstate :=
  match uvmalloc uroot 0 0x1000 PTE_W vm_empty with Done _ s => s | _ => vm_empty end.

Lemma vm_one_rc :
  match uvmalloc uroot 0 0x1000 PTE_W vm_empty with Done r _ => r | _ => 0 end = 0x1000.
Proof. vm_compute. reflexivity. Qed.

Lemma vm_one_alloc :
  exists T fl new fs, allocd vm_empty vm_one uroot 0 (fun _ => uperm) (fun _ _ => 0) empty_T T empty_fl fl new fs /\ length fs = 1%nat.
Proof.
  destruct vm_empty_ok as [Hok Htr].
  destruct (uvmalloc_run vm_empty uroot empty_T empty_fl 0 0x1000 PTE_W Hok ltac:(lia)
    ltac:(vm_compute; congruence) ltac:(vm_compute; intuition congruence) (fun va _ => Htr va))
    as (r & s' & T & fl & new & fs & E & A & Hr).
  pose proof vm_one_rc as Hrc. unfold vm_one. rewrite E in Hrc |- *. subst r.
  exists T, fl, new, fs. split; [exact A|]. destruct Hr as [[_ Hr]|[Hr _]]; [|discriminate Hr].
  change (PGROUNDUP 0x1000 - PGROUNDUP 0) with 4096 in Hr. unfold PGSIZE in Hr. lia.
Qed.

Lemma mappages_remap_witness :
  mappages uroot 0 0x1000 0x80000000 PTE_R vm_one = Panic "mappages: remap".
Proof.
  destruct vm_one_alloc as (T & fl & new & fs & A & Hl). destruct vm_empty_ok as [Hok _].
  pose proof (allocd_page vm_empty uroot 0 (fun _ => uperm) (fun _ _ => 0) empty_T empty_fl ltac:(lia) vm_one T fl new fs 0 A) as Hp.
  rewrite Hl in Hp. specialize (Hp ltac:(vm_compute; congruence) ltac:(lia)).
  destruct (lookup_lt_is_Some_2 fs 0 ltac:(lia)) as [q Hq]. rewrite Hq in Hp.
  exact (mappages_remap vm_one uroot T fl 0 0x1000 0x80000000 PTE_R (leaf q uperm)
    (al_ok _ _ _ _ _ _ _ _ _ _ _ _ A) ltac:(lia) ltac:(lia) ltac:(vm_compute; congruence) Hp).
Defined.

Lemma uvmunmap_correct_witness :
  exists s', uvmunmap uroot 0 1 true vm_one = Done tt s'.
Proof.
  destruct vm_one_alloc as (T & fl & new & fs & A & Hl). destruct vm_empty_ok as [Hok _].
  assert (0 <= uperm < 2 ^ 10) as Hperm by (vm_compute; intuition congruence).
  assert (0 + Z.of_nat (length fs) * PGSIZE <= MAXVA) as Hmax by (rewrite Hl; vm_compute; congruence).
  pose proof (allocd_frames vm_empty uroot 0 (fun _ => uperm) (fun _ _ => 0) empty_T empty_fl Hok ltac:(lia) (fun _ => Hperm) _ _ _ _ _ A Hmax) as Ef.
  pose proof (allocd_mapped vm_empty uroot 0 (fun _ => uperm) (fun _ _ => 0) empty_T empty_fl Hok ltac:(lia) (fun _ => Hperm)
    (fun _ => ltac:(vm_compute; congruence)) _ _ _ _ _ A Hmax) as Hm.
  destruct (allocd_owned vm_empty uroot 0 (fun _ => uperm) (fun _ _ => 0) empty_T empty_fl Hok _ _ _ _ _ A) as [Hown Hnd].
  rewrite Hl in Ef, Hm, Hmax. rewrite <- Ef in Hown, Hnd.
  destruct (uvmunmap_correct vm_one uroot T fl 0 1 true (al_ok _ _ _ _ _ _ _ _ _ _ _ _ A) ltac:(lia) eq_refl
    Hmax Hm Hnd Hown) as (s' & E & _).
  exists s'. exact E.
Defined.

Lemma vm_one_ok : exists T fl, vm_ok vm_one uroot T fl /\ uspace (ks_mem vm_one) uroot T fl.
Proof.
  destruct vm_one_alloc as (T & fl & new & fs & A & Hl). destruct vm_empty_ok as [Hok Htr].
  exists T, fl. split; [apply (al_ok _ _ _ _ _ _ _ _ _ _ _ _ A)|].
  apply (allocd_uspace vm_empty vm_one uroot 0 (fun _ => uperm) (fun _ _ => 0) empty_T T empty_fl fl new fs Hok);
    [lia|reflexivity|intros _; vm_compute; intuition congruence|exact A|intros va _; apply Htr].
Qed.

Lemma copyin_reads_witness :
  let bs := uread (ks_mem vm_one) uroot 0xff0 32 in
  copyin uroot 0xff0 32 vm_one = Done (rc (length bs =? 32)%nat, bs) vm_one.
Proof.
  destruct vm_one_ok as (T & fl & Hok & _).
  exact (copyin_reads vm_one uroot T 0xff0 32 (vo_tables _ _ _ _ Hok) ltac:(lia)).
Defined.

Lemma copyinstr_reads_witness :
  let r := ureadstr (ks_mem vm_one) uroot 0x10 32 in
  copyinstr uroot 0x10 32 vm_one = Done (rc (snd r), fst r) vm_one.
Proof.
  destruct vm_one_ok as (T & fl & Hok & _).
  exact (copyinstr_reads vm_one uroot T 0x10 32 (vo_tables _ _ _ _ Hok) ltac:(lia)).
Defined.

Lemma copyout_copyin_witness :
  exists r s', copyout uroot 0x10 [1; 2; 3] vm_one = Done r s' /\
    (r = 0 /\ copyin uroot 0x10 3 s' = Done (0, [1; 2; 3]) s' \/
     r = -1 /\ exists i, 0 <= i < 3 /\ uphys (ks_mem vm_one) uroot (0x10 + i) = None).
Proof.
  destruct vm_one_ok as (T & fl & Hok & Hus).
  destruct (copyout_copyin vm_one uroot T fl 0x10 [1; 2; 3] Hok Hus ltac:(lia))
    as (r & s' & E & _ & _ & _ & _ & Hr).
  exists r, s'. split; [exact E|exact Hr].
Defined.

Lemma uperm_range : 0 <= uperm < 2 ^ 10 /\ Z.lor uperm PTE_V <> PTE_V.
Proof. vm_compute. intuition congruence. Qed.
Lemma first_page va : 0 <= va < PGSIZE -> va / PGSIZE = (0 + Z.of_nat 0 * PGSIZE) / PGSIZE.
Proof. unfold PGSIZE. dlia. Qed.
Lemma vm_one_free fl : free_list vm_one fl -> fl <> [].
Proof. intros [Hc _ _] ->. revert Hc. vm_compute. discriminate. Qed.

(** A second, empty page table next to [vm_one]. *)
Lemma vm_two : exists new s To T fl, parent s uroot To T fl PGSIZE /\ vm_ok s new T fl /\
  forall va, trans (ks_mem s) 2 new va = None.
Proof.
  destruct vm_one_alloc as (T & fl & nw & fs & A & Hl). destruct vm_empty_ok as [Hok _].
  pose proof (al_ok _ _ _ _ _ _ _ _ _ _ _ _ A) as Hok1. pose proof (vm_one_free fl (vo_free _ _ _ _ Hok1)) as Hnil.
  destruct (allocd_owned vm_empty uroot 0 (fun _ => uperm) (fun _ _ => 0) empty_T empty_fl Hok _ _ _ _ _ A) as [Hown _].
  pose proof (allocd_page vm_empty uroot 0 (fun _ => uperm) (fun _ _ => 0) empty_T empty_fl ltac:(lia) vm_one T fl nw fs 0 A) as Hp.
  rewrite Hl in Hp. specialize (Hp ltac:(vm_compute; discriminate) Nat.lt_0_1). clear A Hok.
  generalize dependent vm_one. intros s Hok1 Hp.
  destruct (lookup_lt_is_Some_2 fs 0 ltac:(lia)) as [f Hf0]. rewrite Hf0 in Hp.
  rewrite Forall_lookup in Hown. pose proof (Hown 0%nat f Hf0) as Hf. destruct fl as [|q fl]; [done|].
  exists q, (zeroed q s), T, {[q := 2%nat]}, fl. apply parent_of; [done|]. intros va Hva.
  destruct uperm_range as [Hr Hv]. destruct (leaf_flags f uperm (proj1 Hf) Hr) as [E1 E2].
  exists (leaf f uperm). by rewrite (trans_page _ _ _ _ _ (first_page va Hva)), Hp, E1, E2.
Qed.

