(* ===== verification/Pipe.v ===== *)
(** * Pipes (pipe.c: pipeclose, pipewrite, piperead).

    A pipe is a ring of PIPESIZE bytes with free-running 32-bit counters.  The
    theorems show that it is a FIFO queue: [pipe_queue] reads the queue off the
    ring, whatever the counters are, including after they wrap around.
    pipealloc is in File.v, with the file table it uses. *)

From S2P Require Import Prelude Defs KMonad Lock Mem Kalloc Vm UserMem Sched Sleeplock.

(** ** Code *)

Definition pipe_of (pi : Z) : K pipe := let! l := get ks_pipes in nonnull (l !! pi).
Definition set_pipe (pi : Z) (f : pipe -> pipe) : K unit :=
  let! _ := pipe_of pi in modify (fun s => s <| ks_pipes ::= alter f pi |>).

(** [pi->data[pi->nwrite++ % PIPESIZE] = ch] and [pi->nread++]. *)
Definition pipe_push (ch : Z) (p : pipe) : pipe :=
  p <| pi_data ::= <[Z.to_nat (pi_nwrite p `mod` PIPESIZE) := ch]> |>
    <| pi_nwrite := u32 (pi_nwrite p + 1) |>.
Definition pipe_pop (p : pipe) : pipe := p <| pi_nread := u32 (pi_nread p + 1) |>.
Definition pipe_front (p : pipe) : Z := default 0 (pi_data p !! Z.to_nat (pi_nread p `mod` PIPESIZE)).

Section Code.
Context `{Fuel, KernelImage}.

Definition pipeclose (pi : Z) (writable : Z) : K unit :=
  acquire (L_pipe pi) ;;
  (if negb (writable =? 0) then
     set_pipe pi (fun p => p <| pi_writeopen := 0 |>) ;;
     wakeup (Ch_nread pi)
   else
     set_pipe pi (fun p => p <| pi_readopen := 0 |>) ;;
     wakeup (Ch_nwrite pi)) ;;
  let! p := pipe_of pi in
  if (pi_readopen p =? 0) && (pi_writeopen p =? 0) then
    release (L_pipe pi) ;;
    kfree pi ;;
    modify (fun s => s <| ks_pipes ::= delete pi |>)
  else release (L_pipe pi).

(** One iteration of pipewrite's loop; [Some i] leaves it for the wakeup at the
    end, [None] returns -1. *)
Definition pipewrite_body (pr : nat) (pi addr n i : Z) : K (Z + option Z) :=
  if negb (i <? n) then ret (inr (Some i)) else
  let! p := pipe_of pi in
  let! stop := (if pi_readopen p =? 0 then ret true else
                let! k := killed pr in ret (negb (k =? 0))) in
  if stop then release (L_pipe pi) ;; ret (inr None) else
  let! p := pipe_of pi in
  if pi_nwrite p =? u32 (pi_nread p + PIPESIZE) then
    wakeup (Ch_nread pi) ;;
    sleep (Ch_nwrite pi) (L_pipe pi) ;;
    ret (inl i)
  else
    let! q := proc_of pr in
    let! c := copyin (p_pagetable q) (u64 (addr + i)) 1 in
    if fst c =? -1 then ret (inr (Some i)) else
    set_pipe pi (pipe_push (default 0 (head (snd c)))) ;;
    ret (inl (i + 1)).

Definition pipewrite (pi addr n : Z) : K Z :=
  let! pr := cur_proc in
  acquire (L_pipe pi) ;;
  let! r := loop (fuel + Z.to_nat n) (pipewrite_body pr pi addr n) 0 in
  match r with
  | None => ret (-1)
  | Some i =>
    wakeup (Ch_nread pi) ;;
    release (L_pipe pi) ;;
    ret i
  end.

Definition piperead_wait (pr : nat) (pi : Z) (_ : unit) : K (unit + bool) :=
  let! p := pipe_of pi in
  if negb ((pi_nread p =? pi_nwrite p) && negb (pi_writeopen p =? 0)) then ret (inr true) else
  let! k := killed pr in
  if negb (k =? 0) then release (L_pipe pi) ;; ret (inr false) else
  sleep (Ch_nread pi) (L_pipe pi) ;;
  ret (inl tt).

Definition piperead_body (pr : nat) (pi addr n i : Z) : K (Z + Z) :=
  if negb (i <? n) then ret (inr i) else
  let! p := pipe_of pi in
  if pi_nread p =? pi_nwrite p then ret (inr i) else
  let ch := pipe_front p in
  set_pipe pi pipe_pop ;;
  let! q := proc_of pr in
  let! c := copyout (p_pagetable q) (u64 (addr + i)) [ch] in
  if c =? -1 then ret (inr i) else ret (inl (i + 1)).

Definition piperead (pi addr n : Z) : K Z :=
  let! pr := cur_proc in
  acquire (L_pipe pi) ;;
  let! go := loop fuel (piperead_wait pr pi) tt in
  if negb go then ret (-1) else
  let! i := loop (S (Z.to_nat n)) (piperead_body pr pi addr n) 0 in
  wakeup (Ch_nwrite pi) ;;
  release (L_pipe pi) ;;
  ret i.
End Code.

(** ** The ring as a queue *)

Definition pipe_count (p : pipe) : nat := Z.to_nat (u32 (pi_nwrite p - pi_nread p)).
Definition pipe_queue (p : pipe) : list Z :=
  map (fun i => default 0 (pi_data p !! Z.to_nat ((pi_nread p + Z.of_nat i) `mod` PIPESIZE)))
    (seq 0 (pipe_count p)).

Record pipe_ok (p : pipe) : Prop := mk_pipe_ok {
  po_data : length (pi_data p) = Z.to_nat PIPESIZE;
  po_nread : 0 <= pi_nread p < 2 ^ 32;
  po_nwrite : 0 <= pi_nwrite p < 2 ^ 32;
  po_count : (pipe_count p <= Z.to_nat PIPESIZE)%nat
}.

Lemma length_pipe_queue p : length (pipe_queue p) = pipe_count p.
Proof. unfold pipe_queue. by rewrite length_map, length_seq. Qed.

Lemma u32_mod x : u32 x `mod` PIPESIZE = x `mod` PIPESIZE.
Proof. unfold u32, PIPESIZE. change (2 ^ 32) with (512 * 8388608). dlia. Qed.

Lemma pipe_empty p : pipe_ok p -> (pi_nread p =? pi_nwrite p) = bool_decide (pipe_queue p = []).
Proof.
  intros [_ Hr Hw _]. pose proof (length_pipe_queue p) as Hl. unfold pipe_count, u32 in Hl.
  apply Bool.eq_iff_eq_true. rewrite Z.eqb_eq, bool_decide_eq_true. split.
  - intros E. apply length_zero_iff_nil. rewrite Hl, E, Z.sub_diag. done.
  - intros E. rewrite E in Hl. cbn [length] in Hl. dlia.
Qed.

Lemma pipe_full p :
  pipe_ok p -> (pi_nwrite p =? u32 (pi_nread p + PIPESIZE)) = bool_decide (length (pipe_queue p) = Z.to_nat PIPESIZE).
Proof.
  intros [_ Hr Hw _]. rewrite length_pipe_queue. unfold pipe_count, u32, PIPESIZE.
  apply Bool.eq_iff_eq_true. rewrite Z.eqb_eq, bool_decide_eq_true. split; intros E; dlia.
Qed.

Lemma pipe_push_ok ch p :
  pipe_ok p -> (length (pipe_queue p) < Z.to_nat PIPESIZE)%nat ->
  pipe_ok (pipe_push ch p) /\ pipe_queue (pipe_push ch p) = pipe_queue p ++ [ch].
Proof.
  intros [Hd Hr Hw Hc] Hlt. rewrite length_pipe_queue in Hlt.
  assert (pipe_count (pipe_push ch p) = S (pipe_count p)) as Ec.
  { unfold pipe_count, pipe_push in *. cbn. unfold u32, PIPESIZE in *. dlia. }
  split; [split|].
  - cbn. by rewrite length_insert.
  - done.
  - cbn. apply u32_range.
  - rewrite Ec. lia.
  - unfold pipe_queue. rewrite Ec. rewrite seq_S, map_app. cbn [map]. f_equal.
    + apply map_ext_in. intros i Hi. apply in_seq in Hi. f_equal. cbn. apply list_lookup_insert_ne.
      unfold pipe_count, u32, PIPESIZE in *. dlia.
    + f_equal. cbn. unfold PIPESIZE in *.
      assert (Z.to_nat ((pi_nread p + Z.of_nat (pipe_count p)) `mod` 512) = Z.to_nat (pi_nwrite p `mod` 512)) as ->.
      { unfold pipe_count, u32 in *. dlia. }
      rewrite list_lookup_insert_eq; [done|]. rewrite Hd. pose proof (Z.mod_pos_bound (pi_nwrite p) 512). lia.
Qed.

Lemma pipe_pop_ok c q p :
  pipe_ok p -> pipe_queue p = c :: q ->
  pipe_front p = c /\ pipe_ok (pipe_pop p) /\ pipe_queue (pipe_pop p) = q.
Proof.
  intros [Hd Hr Hw Hc] Hq. pose proof (length_pipe_queue p) as Hl. rewrite Hq in Hl. cbn [length] in Hl.
  unfold pipe_queue in Hq. rewrite <- Hl in Hq. cbn [seq map] in Hq.
  assert (pipe_count (pipe_pop p) = length q) as Ec.
  { unfold pipe_count, pipe_pop in *. cbn. unfold u32, PIPESIZE in *. dlia. }
  injection Hq as Hfront Hrest. rewrite Z.add_0_r in Hfront. split; [exact Hfront|]. split; [split|].
  - done.
  - cbn. apply u32_range.
  - done.
  - rewrite Ec. lia.
  - rewrite <- seq_shift, map_map in Hrest. refine (eq_trans _ Hrest). unfold pipe_queue. rewrite Ec.
    apply map_ext. intros i. do 3 f_equal. cbn. unfold u32, PIPESIZE. dlia.
Qed.

(** ** pipewrite and piperead on the machine *)

(** Writing and reading a sequence of bytes. *)
Definition pushes (bs : list Z) (p : pipe) : pipe := foldl (fun p c => pipe_push c p) p bs.
Definition pops (n : nat) (p : pipe) : pipe := Nat.iter n pipe_pop p.

Lemma pushes_ok bs p :
  pipe_ok p -> (length (pipe_queue p) + length bs <= Z.to_nat PIPESIZE)%nat ->
  pipe_ok (pushes bs p) /\ pipe_queue (pushes bs p) = pipe_queue p ++ bs.
Proof.
  revert p. induction bs as [|b bs IH]; intros p Hp Hl; cbn [pushes foldl length] in *.
  - by rewrite app_nil_r.
  - destruct (pipe_push_ok b p Hp ltac:(lia)) as [Hp' Eq]. destruct (IH (pipe_push b p) Hp') as [Hok E].
    { rewrite Eq, length_app. cbn [length]. lia. }
    split; [exact Hok|]. unfold pushes in E. rewrite E, Eq, <- app_assoc. done.
Qed.

Section Specs.
Context `{Fuel, KernelImage}.

Lemma pipe_of_ok pi s p : ks_pipes s !! pi = Some p -> pipe_of pi s = Done p s.
Proof. intros Hp. unfold pipe_of. rewrite kbind_get, Hp. done. Qed.
Lemma set_pipe_ok pi f s p :
  ks_pipes s !! pi = Some p -> set_pipe pi f s = Done tt (s <| ks_pipes ::= alter f pi |>).
Proof. intros Hp. unfold set_pipe. by kstep pipe_of_ok. Qed.

Lemma killed_ok p s pr :
  hart_ok s -> lock_free (L_proc p) s -> ks_proc s !! p = Some pr -> killed p s = Done (p_killed pr) s.
Proof.
  intros Hs Hl Hp. unfold killed. kstep acquire_ok; [|done..]. kstep proc_of_ok; [|done].
  by kstep release_acq.
Qed.

(** Process [p] runs on a quiet machine with an end of the pipe [pi]. *)
Record at_pipe (s : kstate) (p : nat) (pr : proc) (pi : Z) (q : pipe) : Prop := mk_at_pipe {
  ap_quiet : quiet s p;
  ap_proc : ks_proc s !! p = Some pr;
  ap_alive : p_killed pr = 0;
  ap_lock : lock_free (L_pipe pi) s;
  ap_pipe : ks_pipes s !! pi = Some q;
  ap_ok : pipe_ok q
}.

Definition put_pipe (pi : Z) (q : pipe) (s : kstate) : kstate := s <| ks_pipes ::= <[pi := q]> |>.

Lemma put_pipe_alter pi f q s :
  (acq (L_pipe pi) (put_pipe pi q s)) <| ks_pipes ::= alter f pi |>
  = acq (L_pipe pi) (put_pipe pi (f q) s).
Proof.
  kstate_eq. apply map_eq. intros j. destruct (decide (pi = j)) as [<-|Hne].
  - by rewrite lookup_alter_eq, !lookup_insert_eq.
  - by rewrite lookup_alter_ne, !lookup_insert_ne.
Qed.

Lemma at_pipe_put s p pr pi q q' : at_pipe s p pr pi q -> pipe_ok q' -> at_pipe (put_pipe pi q' s) p pr pi q'.
Proof.
  intros [Hq Hp Ha Hl Hpi Hok] Hok'. split; try done.
  - by apply (quiet_same s).
  - cbn. apply lookup_insert_eq.
Qed.

Lemma at_pipe_proc_lock s p pr pi q : at_pipe s p pr pi q -> lock_free (L_proc p) s.
Proof.
  intros Ha. apply (q_locks _ _ (ap_quiet _ _ _ _ _ Ha)). apply Nat.ltb_lt.
  rewrite <- (q_nproc _ _ (ap_quiet _ _ _ _ _ Ha)). by eapply lookup_lt_Some, ap_proc.
Qed.

(** One iteration with room in the pipe and an open reader. *)
Lemma pipewrite_step s p pr pi q addr n i T :
  at_pipe s p pr pi q -> tables (ks_mem s) (p_pagetable pr) T ->
  pi_readopen q <> 0 -> (length (pipe_queue q) < Z.to_nat PIPESIZE)%nat -> i < n -> 0 <= addr + i < 2 ^ 64 ->
  pipewrite_body p pi addr n i (acq (L_pipe pi) s)
  = match uread (ks_mem s) (p_pagetable pr) (addr + i) 1 with
    | c :: _ => Done (inl (i + 1)) (acq (L_pipe pi) (put_pipe pi (pipe_push c q) s))
    | [] => Done (inr (Some i)) (acq (L_pipe pi) s)
    end.
Proof.
  intros Ha Ht Hopen Hroom Hi Haddr. pose proof Ha as [Hq Hp Hal Hl Hpi Hok].
  pose proof (q_hart _ _ Hq) as Hs. unfold pipewrite_body. rewrite (proj2 (Z.ltb_lt _ _)) by done. cbn [negb].
  kstep pipe_of_ok; [|exact Hpi]. rewrite (proj2 (Z.eqb_neq _ _)) by done.
  erewrite kbind_assoc_done.
  2: { apply killed_ok; [by apply hart_ok_acq|apply lock_free_acq; [done|by eapply at_pipe_proc_lock]|exact Hp]. }
  rewrite Hal. rewrite kbind_ret. cbn [Z.eqb negb]. kstep pipe_of_ok; [|exact Hpi].
  rewrite pipe_full, bool_decide_eq_false_2 by (done || lia). kstep proc_of_ok; [|exact Hp].
  rewrite u64_small by done. set (bs := uread (ks_mem s) (p_pagetable pr) (addr + i) 1).
  assert (copyin (p_pagetable pr) (addr + i) 1 (acq (L_pipe pi) s)
    = Done (rc (length bs =? 1)%nat, bs) (acq (L_pipe pi) s)) as Ec.
  { rewrite copyin_unfold. exact (copyin_loop 2 (acq (L_pipe pi) s) _ T _ 1 [] ltac:(lia) Ht Haddr). }
  kstep Ec. cbn [fst snd]. unfold bs in *. cbn [uread] in *.
  destruct (uphys (ks_mem s) (p_pagetable pr) (addr + i)) as [x|]; [|done].
  cbn [length Nat.eqb rc Z.eqb]. kstep set_pipe_ok; [|exact Hpi]. cbn [head default from_option id].
  unfold ret. f_equal. rewrite <- (put_pipe_alter pi (pipe_push _) q s). f_equal. unfold put_pipe.
  kstate_eq. symmetry. by apply insert_id.
Qed.

Lemma pipewrite_loop k s p pr pi q addr n i T :
  at_pipe s p pr pi q -> tables (ks_mem s) (p_pagetable pr) T -> pi_readopen q <> 0 ->
  0 <= i <= n -> 0 <= addr -> (addr + i < 2 ^ 64) ->
  (length (pipe_queue q) + Z.to_nat (n - i) <= Z.to_nat PIPESIZE)%nat -> (Z.to_nat (n - i) < k)%nat ->
  let bs := uread (ks_mem s) (p_pagetable pr) (addr + i) (Z.to_nat (n - i)) in
  loop k (pipewrite_body p pi addr n) i (acq (L_pipe pi) s)
  = Done (Some (i + Z.of_nat (length bs))) (acq (L_pipe pi) (put_pipe pi (pushes bs q) s)).
Proof.
  remember (Z.to_nat (n - i)) as m eqn:Em. revert k s q i Em.
  induction m as [|m IH]; intros k s q i Em Ha Ht Hopen Hi Haddr Hmax Hroom Hk bs; (destruct k as [|k]; [lia|]).
  - assert (i = n) as -> by lia. unfold bs. cbn [uread length pushes foldl].
    rewrite Z.add_0_r. apply loop_done. unfold pipewrite_body. rewrite Z.ltb_irrefl. cbn [negb].
    unfold ret. f_equal. f_equal. unfold put_pipe. kstate_eq. symmetry. apply insert_id, Ha.
  - pose proof (pipewrite_step s p pr pi q addr n i T Ha Ht Hopen ltac:(lia) ltac:(lia) ltac:(lia)) as Es.
    unfold bs. cbn [uread] in *. destruct (uphys _ _ (addr + i)) as [x|] eqn:Hx.
    + set (c := load8 (ks_mem s) x) in *. destruct (pipe_push_ok c q (ap_ok _ _ _ _ _ Ha) ltac:(lia)) as [Hok' Eq'].
      rewrite (loop_next _ _ _ _ _ _ Es).
      assert (addr + i < MAXVA) as Hlow.
      { unfold uphys in Hx. destruct (upage _ _ (addr + i)) as [y|] eqn:Hy; [|done]. by eapply upage_low. }
      change MAXVA with (2 ^ 38) in Hlow.
      rewrite (IH k (put_pipe pi (pipe_push c q) s) (pipe_push c q) (i + 1)).
      * change (ks_mem (put_pipe pi (pipe_push c q) s)) with (ks_mem s). rewrite Z.add_assoc.
        cbn [length pushes foldl]. f_equal; [f_equal; lia|].
        f_equal. unfold put_pipe. kstate_eq. by rewrite insert_insert_eq.
      * lia.
      * by apply at_pipe_put with q.
      * exact Ht.
      * exact Hopen.
      * lia.
      * lia.
      * lia.
      * rewrite Eq', length_app. cbn [length]. lia.
      * lia.
    + cbn [length pushes foldl]. rewrite Z.add_0_r. rewrite (loop_done _ _ _ _ _ _ Es). f_equal. f_equal.
      unfold put_pipe. kstate_eq. symmetry. apply insert_id, Ha.
Qed.

(** The wakeup and release at the end of both functions. *)
Lemma wakeup_release s p pr pi q ch (i : Z) :
  at_pipe s p pr pi q ->
  (wakeup ch ;; release (L_pipe pi) ;; ret i) (acq (L_pipe pi) s) = Done i (woken (Some p) ch s).
Proof.
  intros Ha. pose proof Ha as [Hq Hp Hal Hl Hpi Hok]. pose proof (q_hart _ _ Hq) as Hs.
  kstep wakeup_ok; [|by apply hart_ok_acq| |apply (q_nproc _ _ Hq)].
  2: { intros j Hj _. apply lock_free_acq; [done|]. apply (q_locks _ _ Hq). by apply Nat.ltb_lt. }
  rewrite cur_acq, (q_cur _ _ Hq).
  change (woken (Some p) ch (acq (L_pipe pi) s)) with (acq (L_pipe pi) (woken (Some p) ch s)).
  by kstep release_acq.
Qed.


(** with the pipe full and its read end open, pipewrite() wakes
    the readers and sleeps on the pipe's write channel having released the
    pipe's lock, before it copies anything. *)
Theorem pipewrite_blocks s p pr pi q addr n c :
  at_pipe s p pr pi q -> on_cpu s p c pr -> pi_readopen q <> 0 -> 0 < n ->
  length (pipe_queue q) = Z.to_nat PIPESIZE ->
  exists k, pipewrite pi addr n s
  = Yield (Swtch p) (acq (L_proc p) ((woken (Some p) (Ch_nread pi) s)
      <| ks_proc ::= alter (fun x => x <| p_chan := Some (Ch_nwrite pi) |> <| p_state := SLEEPING |>) p |>)) k.
Proof.
  intros Ha Hc Hopen Hn Hfull. pose proof Ha as [Hq Hp Hal Hl Hpi Hok]. pose proof (q_hart _ _ Hq) as Hs.
  unfold pipewrite. kstep (cur_proc_ok s p Hs (q_cur _ _ Hq)). kstep acquire_ok; [|done..].
  pose proof fuel_pos. destruct (fuel + Z.to_nat n)%nat as [|m] eqn:Em; [lia|]. cbn [loop].
  set (s1 := woken (Some p) (Ch_nread pi) s).
  destruct (sleep_yields s1 p c pr (Ch_nwrite pi) (L_pipe pi)) as (k & Ek & _).
  { destruct Hc as [C1 C2 C3 C4 C5 C6]. split; try done. unfold s1, woken. cbn.
    rewrite list_lookup_imap, C5. cbn. by rewrite bool_decide_eq_true_2. }
  { done. }
  { done. }
  assert (exists k', pipewrite_body p pi addr n 0 (acq (L_pipe pi) s) = Yield (Swtch p)
    (acq (L_proc p) (s1 <| ks_proc ::= alter (fun x => x <| p_chan := Some (Ch_nwrite pi) |>
       <| p_state := SLEEPING |>) p |>)) k') as [k' Eb].
  { unfold pipewrite_body. rewrite (proj2 (Z.ltb_lt _ _)) by done. cbn [negb].
    kstep pipe_of_ok; [|exact Hpi]. rewrite (proj2 (Z.eqb_neq _ _)) by done.
    erewrite kbind_assoc_done.
    2: { apply killed_ok; [by apply hart_ok_acq|apply lock_free_acq; [done|by eapply at_pipe_proc_lock]|exact Hp]. }
    rewrite Hal, kbind_ret. cbn [Z.eqb negb]. kstep pipe_of_ok; [|exact Hpi].
    rewrite pipe_full, bool_decide_eq_true_2 by done.
    kstep wakeup_ok; [|by apply hart_ok_acq| |apply (q_nproc _ _ Hq)].
    2: { intros j Hj _. apply lock_free_acq; [done|]. apply (q_locks _ _ Hq). by apply Nat.ltb_lt. }
    rewrite cur_acq, (q_cur _ _ Hq). change (woken _ _ (acq (L_pipe pi) s)) with (acq (L_pipe pi) s1).
    unfold kbind at 1. rewrite Ek. cbn [obind]. by eexists. }
  unfold kbind. rewrite Eb. cbn [obind]. by eexists.
Qed.

(** One byte of piperead. *)
Lemma piperead_step s s1 p pr pi c qs q addr n i T fl :
  at_pipe s1 p pr pi q -> pipe_queue q = c :: qs -> vm_ok s (p_pagetable pr) T fl ->
  uspace (ks_mem s) (p_pagetable pr) T fl -> s1 = put_pipe pi q (s <| ks_mem := ks_mem s1 |>) ->
  keeps T fl (ks_mem s) (ks_mem s1) -> i < n -> 0 <= addr + i < 2 ^ 64 ->
  let q' := pipe_pop q in
  match uphys (ks_mem s) (p_pagetable pr) (addr + i) with
  | Some x =>
    let m' := store8 (ks_mem s1) x c in
    piperead_body p pi addr n i (acq (L_pipe pi) s1)
    = Done (inl (i + 1)) (acq (L_pipe pi) (put_pipe pi q' (s1 <| ks_mem := m' |>))) /\
    keeps T fl (ks_mem s) m'
  | None =>
    piperead_body p pi addr n i (acq (L_pipe pi) s1)
    = Done (inr i) (acq (L_pipe pi) (put_pipe pi q' s1))
  end.
Proof.
  intros Ha Hqs Hok Hus Hs1 Hk Hi Haddr q'. pose proof Ha as [Hq Hp Hal Hl Hpi Hpok].
  destruct (pipe_pop_ok c qs q Hpok Hqs) as (Hfront & Hpok' & _).
  pose proof (copyout_loop 2 (acq (L_pipe pi) (put_pipe pi q' s))
    (acq (L_pipe pi) (put_pipe pi q' s1)) (p_pagetable pr) T fl (addr + i) [c]) as Hc.
  cbn [uwrite] in Hc. change (ks_mem (acq (L_pipe pi) (put_pipe pi q' s))) with (ks_mem s) in Hc.
  change (ks_mem (acq (L_pipe pi) (put_pipe pi q' s1))) with (ks_mem s1) in Hc.
  destruct Hc as [Ec Kc].
  { cbn. lia. }
  { apply (vm_ok_other s); [|apply lock_free_acq; [done|]|reflexivity|reflexivity|exact Hok].
    - apply hart_ok_acq. exact (vo_hart _ _ _ _ Hok).
    - exact (vo_lock _ _ _ _ Hok). }
  { exact Hus. }
  { exact Haddr. }
  { rewrite Hs1 at 1. unfold put_pipe. kstate_eq. by rewrite insert_insert_eq. }
  { exact Hk. }
  assert (piperead_body p pi addr n i (acq (L_pipe pi) s1)
    = obind (copyout (p_pagetable pr) (addr + i) [c] (acq (L_pipe pi) (put_pipe pi q' s1)))
        (fun c => if c =? -1 then ret (inr i) else ret (inl (i + 1)))) as Eb.
  { unfold piperead_body. rewrite (proj2 (Z.ltb_lt _ _)) by done. cbn [negb].
    kstep pipe_of_ok; [|exact Hpi]. rewrite pipe_empty, bool_decide_eq_false_2 by (done || by rewrite Hqs).
    kstep set_pipe_ok; [|exact Hpi].
    assert ((acq (L_pipe pi) s1) <| ks_pipes ::= alter pipe_pop pi |> = acq (L_pipe pi) (put_pipe pi q' s1)) as ->.
    { unfold q'. rewrite <- (put_pipe_alter pi pipe_pop q s1). f_equal. unfold put_pipe. kstate_eq.
      symmetry. by apply insert_id. }
    kstep proc_of_ok; [|exact Hp]. rewrite u64_small, Hfront by done. reflexivity. }
  rewrite Eb, copyout_unfold. cbn [length]. rewrite Ec. clear Eb Ec.
  destruct (uphys (ks_mem s) (p_pagetable pr) (addr + i)) as [x|]; cbn [fst snd rc obind Z.eqb] in *.
  - split; [reflexivity|exact Kc].
  - reflexivity.
Qed.

(** What piperead leaves behind: [k] bytes wanted, [m] of them mapped. *)
Definition popped (m k : nat) : nat := if (m <? k)%nat then S m else k.

Lemma popped_S m k : popped (S m) (S k) = S (popped m k).
Proof. unfold popped. by case (Nat.ltb_spec m k), (Nat.ltb_spec (S m) (S k)); try lia. Qed.

Lemma pops_ok n p :
  pipe_ok p -> (n <= length (pipe_queue p))%nat ->
  pipe_ok (pops n p) /\ pipe_queue (pops n p) = drop n (pipe_queue p).
Proof.
  intros Hp. induction n as [|n IH]; intros Hl.
  - by rewrite drop_0.
  - destruct IH as [Hok Eq]; [lia|]. change (pops (S n) p) with (pipe_pop (pops n p)).
    destruct (pipe_queue (pops n p)) as [|c qs] eqn:E.
    { apply (f_equal length) in Eq. rewrite length_drop in Eq. cbn [length] in Eq. lia. }
    destruct (pipe_pop_ok c qs (pops n p) Hok E) as (_ & Hok' & E'). split; [exact Hok'|].
    rewrite E'. replace (S n) with (n + 1)%nat by lia. rewrite <- drop_drop, <- Eq. done.
Qed.

Lemma pops_S n p : pops n (pipe_pop p) = pops (S n) p.
Proof. unfold pops. by rewrite <- Nat.iter_succ_r. Qed.

Lemma put_put pi q q' s m :
  put_pipe pi q ((put_pipe pi q' s) <| ks_mem := m |>) = put_pipe pi q (s <| ks_mem := m |>).
Proof. unfold put_pipe. kstate_eq. by rewrite insert_insert_eq. Qed.

Lemma put_same pi q s : ks_pipes s !! pi = Some q -> put_pipe pi q (s <| ks_mem := ks_mem s |>) = s.
Proof. intros Hpi. unfold put_pipe. kstate_eq. by apply insert_id. Qed.

(** The loop ends where n bytes have been read or none is left. *)
Lemma piperead_end s p pr pi q addr n i :
  at_pipe s p pr pi q -> i = n \/ pipe_queue q = [] /\ i < n ->
  piperead_body p pi addr n i (acq (L_pipe pi) s) = Done (inr i) (acq (L_pipe pi) s).
Proof.
  intros [_ _ _ _ Hpi Hpok] [->|[Eq Hi]]; unfold piperead_body; [by rewrite Z.ltb_irrefl|].
  rewrite (proj2 (Z.ltb_lt _ _)) by lia. cbn [negb]. kstep pipe_of_ok; [|exact Hpi].
  by rewrite pipe_empty, Eq, bool_decide_eq_true_2.
Qed.

Lemma piperead_loop K s s1 p pr pi q addr n i T fl :
  at_pipe s1 p pr pi q -> vm_ok s (p_pagetable pr) T fl -> uspace (ks_mem s) (p_pagetable pr) T fl ->
  s1 = put_pipe pi q (s <| ks_mem := ks_mem s1 |>) -> keeps T fl (ks_mem s) (ks_mem s1) ->
  0 <= i <= n -> 0 <= addr -> addr + i < 2 ^ 64 -> (Z.to_nat (n - i) < K)%nat ->
  let k := Nat.min (Z.to_nat (n - i)) (length (pipe_queue q)) in
  let m := length (uread (ks_mem s) (p_pagetable pr) (addr + i) k) in
  let w := uwrite (ks_mem s) (p_pagetable pr) (ks_mem s1) (addr + i) (take k (pipe_queue q)) in
  loop K (piperead_body p pi addr n) i (acq (L_pipe pi) s1)
  = Done (i + Z.of_nat m) (acq (L_pipe pi) (put_pipe pi (pops (popped m k) q) (s1 <| ks_mem := fst w |>))) /\
  at_pipe (put_pipe pi (pops (popped m k) q) (s1 <| ks_mem := fst w |>)) p pr pi (pops (popped m k) q).
Proof.
  remember (Z.to_nat (n - i)) as r eqn:Er. revert K s1 q i Er.
  induction r as [|r IH]; intros K s1 q i Er Ha Hok Hus Hs1 Hk Hi Haddr Hmax HK k m w; (destruct K as [|K]; [lia|]);
    pose proof Ha as [Hq Hp Hal Hl Hpi Hpok].
  - assert (i = n) as -> by lia. unfold w, m, k. cbn [Nat.min uread length]. rewrite take_0. cbn [uwrite fst].
    change (pops (popped 0 0) q) with q. rewrite Z.add_0_r, put_same by done.
    split; [|exact Ha]. eapply loop_done, piperead_end; [exact Ha|by left].
  - destruct (pipe_queue q) as [|c qs] eqn:Eq.
    { unfold w, m, k. cbn [Nat.min length uread]. rewrite take_0. cbn [uwrite fst].
      change (pops (popped 0 0) q) with q. rewrite Z.add_0_r, put_same by done.
      split; [|exact Ha]. eapply loop_done, piperead_end; [exact Ha|right]. split; [done|lia]. }
    destruct (pipe_pop_ok c qs q Hpok Eq) as (_ & Hpok' & Eq').
    pose proof (piperead_step s s1 p pr pi c qs q addr n i T fl Ha Eq Hok Hus Hs1 Hk ltac:(lia) ltac:(lia)) as Hst.
    unfold w, m, k. cbn [length Nat.min uread]. rewrite firstn_cons. cbn [uwrite].
    destruct (uphys (ks_mem s) (p_pagetable pr) (addr + i)) as [x|] eqn:Hx.
    + cbv zeta in Hst. destruct Hst as [Eb Hk']. set (m' := store8 (ks_mem s1) x c) in *. clearbody m'.
      assert (addr + i < MAXVA) as Hlow.
      { unfold uphys in Hx. destruct (upage _ _ (addr + i)) as [y|] eqn:Hy; [|done]. by eapply upage_low. }
      change MAXVA with (2 ^ 38) in Hlow. rewrite (loop_next _ _ _ _ _ _ Eb).
      set (s2 := put_pipe pi (pipe_pop q) (s1 <| ks_mem := m' |>)).
      destruct (IH K s2 (pipe_pop q) (i + 1)) as [E' Ha'].
      * lia.
      * apply (at_pipe_put _ p pr pi q); [|done]. destruct Ha. split; try done. by apply (quiet_same s1).
      * exact Hok.
      * exact Hus.
      * unfold s2. rewrite Hs1 at 1. unfold put_pipe. kstate_eq. by rewrite insert_insert_eq.
      * exact Hk'.
      * lia.
      * done.
      * lia.
      * lia.
      * rewrite Eq' in E', Ha'. rewrite !Z.add_assoc in E', Ha'. change (ks_mem s2) with m' in E', Ha'.
        rewrite !pops_S in E', Ha'. cbn [length]. rewrite popped_S.
        unfold s2 in E', Ha'.
        assert (forall q0 m0, put_pipe pi q0 ((put_pipe pi (pipe_pop q) (s1 <| ks_mem := m' |>)) <| ks_mem := m0 |>)
          = put_pipe pi q0 (s1 <| ks_mem := m0 |>)) as Epp.
        { intros q0 m0. rewrite put_put. reflexivity. }
        rewrite Epp in E', Ha'. split; [|exact Ha']. etransitivity; [exact E'|]. f_equal. lia.
    + cbn [length fst]. rewrite Z.add_0_r. change (popped 0 (S (Nat.min r (length qs)))) with 1%nat.
      change (pops 1 q) with (pipe_pop q).
      assert (put_pipe pi (pipe_pop q) (s1 <| ks_mem := ks_mem s1 |>) = put_pipe pi (pipe_pop q) s1) as ->.
      { unfold put_pipe. kstate_eq. }
      split; [by rewrite (loop_done _ _ _ _ _ _ Hst)|]. by apply (at_pipe_put _ p pr pi q).
Qed.

(** C22: piperead() from a pipe that is not empty, or whose write end
    is closed, takes the oldest bytes: with [k] the smaller of n and the
    queue's length, it delivers the longest prefix of those [k] bytes whose
    user addresses are mapped, returns its length and wakes the writers.  The
    queue keeps the rest, less the byte that could not be delivered. *)
Theorem piperead_takes s p pr pi q addr n T fl :
  at_pipe s p pr pi q -> vm_ok s (p_pagetable pr) T fl -> uspace (ks_mem s) (p_pagetable pr) T fl ->
  pipe_queue q <> [] \/ pi_writeopen q = 0 -> 0 <= n -> 0 <= addr < 2 ^ 64 ->
  let k := Nat.min (Z.to_nat n) (length (pipe_queue q)) in
  let m := length (uread (ks_mem s) (p_pagetable pr) addr k) in
  let w := uwrite (ks_mem s) (p_pagetable pr) (ks_mem s) addr (take k (pipe_queue q)) in
  exists q', pipe_ok q' /\ pipe_queue q' = drop (popped m k) (pipe_queue q) /\
    piperead pi addr n s
    = Done (Z.of_nat m) (woken (Some p) (Ch_nwrite pi) (put_pipe pi q' (s <| ks_mem := fst w |>))).
Proof.
  intros Ha Hok Hus Hready Hn Haddr k m w. pose proof Ha as [Hq Hp Hal Hl Hpi Hpok].
  pose proof (q_hart _ _ Hq) as Hs.
  assert (m <= k)%nat as Hmk by apply length_uread.
  assert (popped m k <= length (pipe_queue q))%nat as Hle.
  { unfold popped. destruct (Nat.ltb_spec m k); unfold k in *; lia. }
  destruct (pops_ok (popped m k) q Hpok Hle) as [Hok' Eq]. exists (pops (popped m k) q).
  split; [exact Hok'|]. split; [exact Eq|]. unfold piperead.
  kstep (cur_proc_ok s p Hs (q_cur _ _ Hq)). kstep acquire_ok; [|done..].
  pose proof fuel_pos as Hf. destruct fuel as [|f]; [lia|].
  kstep loop_done.
  2: { unfold piperead_wait. kstep pipe_of_ok; [|exact Hpi]. rewrite pipe_empty by done.
       assert (bool_decide (pipe_queue q = []) && negb (pi_writeopen q =? 0) = false) as ->; [|reflexivity].
       destruct Hready as [Hr|Hr]; [by rewrite bool_decide_eq_false_2|rewrite Hr]. by rewrite andb_false_r. }
  cbn [negb].
  destruct (piperead_loop (S (Z.to_nat n)) s s p pr pi q addr n 0 T fl Ha Hok Hus) as [El Ha'].
  - unfold put_pipe. kstate_eq. symmetry. by apply insert_id.
  - intros z _ _ x _. reflexivity.
  - lia.
  - lia.
  - lia.
  - lia.
  - rewrite Z.sub_0_r, Z.add_0_r, Z.add_0_l in El. rewrite Z.sub_0_r, Z.add_0_r in Ha'.
    kstep El. apply (wakeup_release _ p pr pi (pops (popped m k) q)). exact Ha'.
Qed.
End Specs.
