(* ===== verification/PipeWitness.v ===== *)
(** * The theorems about pipes at a concrete machine: process 0 of [machine],
    with the address space [vm_one], holds an end of a pipe. *)

From S2P Require Import Prelude Defs KMonad Lock Mem Kalloc Sched Sleeplock Bio Machine Vm UserMem VmWitness Pipe.

#[local] Opaque memset store64 load64 load8 store_bytes memmove vm_one.

Definition pipe_addr : Z := 0x87ff0000.

(** An empty pipe, one holding three bytes (its counters about to wrap) and a full one. *)
Definition empty_pipe : pipe := mk_pipe (replicate (Z.to_nat PIPESIZE) 0) 0 0 1 1.
Definition part_pipe : pipe := mk_pipe (replicate (Z.to_nat PIPESIZE) 7) (2 ^ 32 - 2) 1 1 1.
Definition full_pipe : pipe := mk_pipe (replicate (Z.to_nat PIPESIZE) 7) 0 PIPESIZE 1 1.

Definition piped (m : gmap Z Z) (f : Z) (q : pipe) : kstate :=
  machine <| ks_mem := m |> <| ks_freelist := f |>
    <| ks_proc ::= alter (fun x => x <| p_pagetable := uroot |>) 0%nat |>
    <| ks_locks ::= <[L_pipe pipe_addr := free_lock]> |>
    <| ks_pipes := {[pipe_addr := q]} |>.

Definition writer : proc := zero_proc <| p_state := RUNNING |> <| p_pid := 1 |> <| p_pagetable := uroot |>.

Lemma piped_lock m f q lk : static_lock lk = true -> lock_free lk (piped m f q).
Proof.
  intros Hl. unfold lock_free, piped. cbn [ks_locks upd set_ks_locks set_ks_pipes].
  rewrite lookup_insert_ne by (intros <-; discriminate Hl). exact (machine_lock_free lk Hl).
Qed.

Lemma piped_quiet m f q : quiet (piped m f q) 0.
Proof.
  pose proof machine_quiet as [Hh Hc Hp Hn Hl Hs]. split.
  - exact Hh.
  - exact Hc.
  - exists writer. reflexivity.
  - reflexivity.
  - apply piped_lock.
  - intros sl p pr Hpr Hst. unfold piped in Hpr. cbn [ks_proc upd set_ks_proc set_ks_locks set_ks_pipes set_ks_mem set_ks_freelist] in Hpr.
    rewrite list_lookup_alter in Hpr. case_decide.
    + apply fmap_Some in Hpr as (x & Hx & ->). exfalso. exact (machine_proc 0 x Hx Hst).
    + exfalso. exact (machine_proc p pr Hpr Hst).
Qed.

Lemma piped_at m f q : pipe_ok q -> at_pipe (piped m f q) 0 writer pipe_addr q.
Proof.
  intros Hok. split; [apply piped_quiet|reflexivity|reflexivity| |apply lookup_singleton_eq|exact Hok].
  unfold lock_free, piped. cbn [ks_locks upd set_ks_locks set_ks_pipes]. by rewrite lookup_insert_eq.
Qed.

Lemma piped_on_cpu m f q : on_cpu (piped m f q) 0 (mk_cpu (Some 0%nat) 0 1) writer.
Proof.
  split; [apply piped_quiet|reflexivity|reflexivity|reflexivity|reflexivity|by apply piped_lock].
Qed.

Lemma piped_vm s T fl q :
  vm_ok s uroot T fl -> vm_ok (piped (ks_mem s) (ks_freelist s) q) uroot T fl.
Proof.
  apply vm_ok_other; [apply piped_quiet|by apply piped_lock|reflexivity|reflexivity].
Qed.

Lemma pipe_ok_wf q :
  length (pi_data q) = Z.to_nat PIPESIZE -> 0 <= pi_nread q < 2 ^ 32 -> 0 <= pi_nwrite q < 2 ^ 32 ->
  (pipe_count q <= Z.to_nat PIPESIZE)%nat -> pipe_ok q.
Proof. by split. Qed.

Lemma pipes_ok : pipe_ok empty_pipe /\ pipe_ok part_pipe /\ pipe_ok full_pipe.
Proof. split_and!; apply pipe_ok_wf; vm_compute; intuition (congruence || lia). Qed.

(** The machine on the address space of [vm_one]. *)
Definition at_one (q : pipe) : kstate := piped (ks_mem vm_one) (ks_freelist vm_one) q.


Lemma pipewrite_blocks_witness :
  exists s' k, pipewrite pipe_addr 0 1 (at_one full_pipe) = Yield (Swtch 0) s' k.
Proof.
  destruct pipes_ok as (_ & _ & Hp). unfold at_one. generalize (ks_mem vm_one) (ks_freelist vm_one). intros m f.
  destruct (pipewrite_blocks (piped m f full_pipe) 0 writer pipe_addr full_pipe 0 1 (mk_cpu (Some 0%nat) 0 1)
    (piped_at m f _ Hp) (piped_on_cpu m f _) ltac:(discriminate) ltac:(lia) eq_refl) as (k & E).
  eexists _, k. exact E.
Defined.

Lemma piperead_takes_witness :
  exists m q' s', piperead pipe_addr 0xfff 8 (at_one part_pipe) = Done m s' /\
    ks_pipes s' !! pipe_addr = Some q' /\ pipe_queue q' = drop (popped (Z.to_nat m) 3) (pipe_queue part_pipe).
Proof.
  destruct vm_one_ok as (T & fl & Hok & Hus). destruct pipes_ok as (_ & Hp & _). unfold at_one.
  pose proof (piped_vm vm_one T fl part_pipe Hok) as Hv. clear Hok.
  generalize dependent (ks_mem vm_one). generalize (ks_freelist vm_one). intros f m Hus Hv.
  destruct (piperead_takes (piped m f part_pipe) 0 writer pipe_addr part_pipe 0xfff 8 T fl (piped_at m f _ Hp)
    Hv Hus ltac:(left; discriminate) ltac:(lia) ltac:(lia)) as (q' & _ & E & Er).
  eexists _, q', _. split; [exact Er|]. split; [apply lookup_insert_eq|]. rewrite Nat2Z.id. exact E.
Defined.
