(* ===== verification/Uart.v ===== *)
(** * The serial port and kernel output (uart.c, printf.c, consputc of
    console.c).

    The 16550 chip itself is a parameter: reads and writes of its registers.
    [UartReady] states what the code relies on when it sends a byte: the line
    status register eventually shows the transmitter idle, and a byte stored
    into THR is sent. *)

From S2P Require Import Prelude Defs KMonad Lock Sched Sleeplock.

Definition RHR : Z := 0.
Definition THR : Z := 0.
Definition IER : Z := 1.
Definition IER_RX_ENABLE : Z := Z.shiftl 1 0.
Definition IER_TX_ENABLE : Z := Z.shiftl 1 1.
Definition FCR : Z := 2.
Definition FCR_FIFO_ENABLE : Z := Z.shiftl 1 0.
Definition FCR_FIFO_CLEAR : Z := Z.shiftl 3 1.
Definition LCR : Z := 3.
Definition LCR_EIGHT_BITS : Z := Z.shiftl 3 0.
Definition LCR_BAUD_LATCH : Z := Z.shiftl 1 7.
Definition LSR : Z := 5.
Definition LSR_RX_READY : Z := Z.shiftl 1 0.
Definition LSR_TX_IDLE : Z := Z.shiftl 1 5.
Definition UART_TX_BUF_SIZE : Z := 32.
Definition BACKSPACE : Z := 0x100.

(** ReadReg and WriteReg. *)
Class Uart := { read_reg : Z -> K Z; write_reg : Z -> Z -> K unit }.

Definition uarttx_of : K uartst := get ks_uarttx.
Definition set_uarttx (f : uartst -> uartst) : K unit := modify (fun s => s <| ks_uarttx ::= f |>).

Section Code.
Context `{Fuel, Uart}.

Definition uartinit : K unit :=
  write_reg IER 0 ;;
  write_reg LCR LCR_BAUD_LATCH ;;
  write_reg 0 0x03 ;;
  write_reg 1 0x00 ;;
  write_reg LCR LCR_EIGHT_BITS ;;
  write_reg FCR (Z.lor FCR_FIFO_ENABLE FCR_FIFO_CLEAR) ;;
  write_reg IER (Z.lor IER_TX_ENABLE IER_RX_ENABLE) ;;
  initlock L_uart_tx "uart".

Definition uartstart : K unit :=
  loop (S (Z.to_nat UART_TX_BUF_SIZE)) (fun _ =>
    let! u := uarttx_of in
    if tx_w u =? tx_r u then ret (inr tt) else
    let! lsr := read_reg LSR in
    if Z.land lsr LSR_TX_IDLE =? 0 then ret (inr tt) else
    let c := default 0 (tx_buf u !! Z.to_nat (tx_r u `mod` UART_TX_BUF_SIZE)) in
    set_uarttx (fun u => u <| tx_r := u64 (tx_r u + 1) |>) ;;
    wakeup Ch_uart ;;
    write_reg THR c ;;
    ret (inl tt)) tt.

Definition uartputc (c : Z) : K unit :=
  acquire L_uart_tx ;;
  let! panicked := get ks_panicked in
  if negb (panicked =? 0) then out_of_fuel else
  loop fuel (fun _ =>
    let! u := uarttx_of in
    if tx_w u =? u64 (tx_r u + UART_TX_BUF_SIZE)
    then sleep Ch_uart L_uart_tx ;; ret (inl tt)
    else ret (inr tt)) tt ;;
  set_uarttx (fun u =>
    u <| tx_buf ::= <[Z.to_nat (tx_w u `mod` UART_TX_BUF_SIZE) := u8 c]> |>
      <| tx_w := u64 (tx_w u + 1) |>) ;;
  uartstart ;;
  release L_uart_tx.

Definition uartputc_sync (c : Z) : K unit :=
  push_off ;;
  let! panicked := get ks_panicked in
  if negb (panicked =? 0) then out_of_fuel else
  loop fuel (fun _ =>
    let! lsr := read_reg LSR in
    if Z.land lsr LSR_TX_IDLE =? 0 then ret (inl tt) else ret (inr tt)) tt ;;
  write_reg THR (u8 c) ;;
  pop_off.

Definition uartgetc : K Z :=
  let! lsr := read_reg LSR in
  if negb (Z.land lsr 0x01 =? 0) then read_reg RHR else ret (-1).

(** console.c: consputc *)
Definition consputc (c : Z) : K unit :=
  if c =? BACKSPACE then
    uartputc_sync 8 ;; uartputc_sync 32 ;; uartputc_sync 8
  else uartputc_sync c.

(** ** printf.c *)

Definition digits : list Z := [48; 49; 50; 51; 52; 53; 54; 55; 56; 57; 97; 98; 99; 100; 101; 102].
Definition digit (x : Z) : Z := default 0 (digits !! Z.to_nat x).

(** [do { buf[i++] = digits[x % base]; } while((x /= base) != 0);]; a 32-bit
    number has at most 32 digits. *)
Fixpoint digits_loop (n : nat) (x base : Z) : list Z :=
  match n with
  | O => []
  | S n => digit (x `mod` base) :: if x / base =? 0 then [] else digits_loop n (x / base) base
  end.

(** The contents of [buf], least significant digit first. *)
Definition printint_buf (xx base sign : Z) : list Z :=
  let neg := negb (sign =? 0) && (xx <? 0) in
  let x := if neg then u32 (i32 (- xx)) else u32 xx in
  digits_loop 32 x base ++ (if neg then [45] else []).

Definition printint (xx base sign : Z) : K unit :=
  for_each (rev (printint_buf xx base sign)) consputc.

Definition printptr (x : Z) : K unit :=
  consputc 48 ;;
  consputc 120 ;;
  loop 17 (fun '(i, x) =>
    if 16 <=? i then ret (inr tt) else
    consputc (digit (Z.shiftr x 60)) ;;
    ret (inl (i + 1, u64 (Z.shiftl x 4)))) (0, x).

(** The variable arguments. *)
Inductive varg := A_int (x : Z) | A_u64 (x : Z) | A_str (s : option (list Z)).
Definition va_int (ap : list varg) : Z := match ap with A_int x :: _ => x | _ => 0 end.
Definition va_u64 (ap : list varg) : Z := match ap with A_u64 x :: _ => x | _ => 0 end.
Definition va_str (ap : list varg) : option (list Z) := match ap with A_str s :: _ => s | _ => None end.
Definition null_str : list Z := [40; 110; 117; 108; 108; 41].

(** The loop over the format, whose bytes are those before its NUL. *)
Fixpoint printf_loop (fmt : list Z) (ap : list varg) : K unit :=
  match fmt with
  | [] => ret tt
  | c :: fmt =>
    if negb (c =? 37) then consputc c ;; printf_loop fmt ap else
    match fmt with
    | [] => ret tt
    | c :: fmt =>
      if c =? 100 then printint (va_int ap) 10 1 ;; printf_loop fmt (tail ap)
      else if c =? 120 then printint (va_int ap) 16 1 ;; printf_loop fmt (tail ap)
      else if c =? 112 then printptr (va_u64 ap) ;; printf_loop fmt (tail ap)
      else if c =? 115 then
        for_each (default null_str (va_str ap)) consputc ;; printf_loop fmt (tail ap)
      else if c =? 37 then consputc 37 ;; printf_loop fmt ap
      else consputc 37 ;; consputc c ;; printf_loop fmt ap
    end
  end.

Definition printf (fmt : list Z) (ap : list varg) : K unit :=
  let! locking := get ks_prlocking in
  when (negb (locking =? 0)) (acquire L_pr) ;;
  printf_loop fmt ap ;;
  when (negb (locking =? 0)) (release L_pr).

Definition printfinit : K unit :=
  initlock L_pr "pr" ;;
  modify (fun s => s <| ks_prlocking := 1 |>).
End Code.

(** String literals as bytes. *)
Definition str (s : string) : list Z := (fun a => Z.of_N (Ascii.N_of_ascii a)) <$> String.list_ascii_of_string s.
Arguments str s%_string_scope.

(** ** Reading a printed number back *)

Definition digit_val (c : Z) : Z := if c <=? 57 then c - 48 else c - 87.
(** The number a sequence of digits denotes, and the same with a sign. *)
Definition read_digits (base : Z) (l : list Z) : Z := foldl (fun a c => a * base + digit_val c) 0 l.
Definition read_int (base : Z) (l : list Z) : Z :=
  match l with
  | c :: l' => if c =? 45 then - read_digits base l' else read_digits base l
  | [] => 0
  end.

(** Least significant digit first. *)
Fixpoint digits_val (base : Z) (l : list Z) : Z :=
  match l with [] => 0 | c :: l => digit_val c + base * digits_val base l end.

Lemma read_digits_rev base l : read_digits base (rev l) = digits_val base l.
Proof.
  induction l as [|c l IH]; [done|]. cbn [rev digits_val]. unfold read_digits in *.
  rewrite foldl_app. cbn [foldl]. rewrite IH. ring.
Qed.

Lemma digit_range x : 0 <= x < 16 -> digit_val (digit x) = x /\ digit x <> 45.
Proof.
  intros Hx. assert (x ∈ seqZ 0 16) as Hin by (apply elem_of_seqZ; lia).
  assert (Forall (fun x => digit_val (digit x) = x /\ digit x <> 45) (seqZ 0 16)) as Hall.
  { apply (bool_decide_unpack _). vm_compute. done. }
  rewrite Forall_forall in Hall. by apply Hall.
Qed.

Section Digits.
Context (base : Z) (Hbase : 2 <= base <= 16).

Lemma digits_loop_val n x : 0 <= x < base ^ Z.of_nat n -> digits_val base (digits_loop n x base) = x.
Proof.
  revert x. induction n as [|n IH]; intros x Hx; cbn [digits_loop digits_val].
  - change (base ^ Z.of_nat 0) with 1 in Hx. lia.
  - pose proof (Z.mod_pos_bound x base ltac:(lia)) as Hm.
    rewrite (proj1 (digit_range (x `mod` base) ltac:(lia))). pose proof (Z_div_mod_eq_full x base) as Hd.
    destruct (x / base =? 0) eqn:E; [apply Z.eqb_eq in E; cbn [digits_val]; lia|].
    rewrite IH; [lia|]. rewrite Nat2Z.inj_succ, Z.pow_succ_r in Hx by lia. split.
    + apply Z.div_pos; lia.
    + apply Z.div_lt_upper_bound; lia.
Qed.

Lemma digits_loop_length n k x :
  (0 < k)%nat -> 0 <= x < base ^ Z.of_nat k -> (length (digits_loop n x base) <= k)%nat.
Proof.
  revert k x. induction n as [|n IH]; intros k x Hk Hx; cbn [digits_loop length]; [lia|].
  destruct (x / base =? 0) eqn:E; cbn [length]; [lia|]. apply Z.eqb_neq in E.
  destruct k as [|k]; [lia|]. rewrite Nat2Z.inj_succ, Z.pow_succ_r in Hx by lia.
  assert (0 <= x / base < base ^ Z.of_nat k) as Hq
    by (split; [apply Z.div_pos|apply Z.div_lt_upper_bound]; lia).
  destruct k as [|k].
  - change (base ^ Z.of_nat 0) with 1 in Hq. lia.
  - specialize (IH (S k) (x / base) ltac:(lia) Hq). lia.
Qed.

(** The most significant digit is not a sign. *)
Lemma digits_loop_rev n x :
  (0 < n)%nat -> 0 <= x -> exists c l, rev (digits_loop n x base) = c :: l /\ c <> 45.
Proof.
  revert x. induction n as [|n IH]; intros x Hn Hx; [lia|]. cbn [digits_loop rev].
  pose proof (Z.mod_pos_bound x base ltac:(lia)) as Hm.
  destruct (x / base =? 0) eqn:E; [eexists _, []; split; [done|by apply digit_range; lia]|].
  destruct n as [|n]; [cbn; eexists _, []; split; [done|by apply digit_range; lia]|].
  destruct (IH (x / base)) as (c & l & Hr & Hc); [lia|apply Z.div_pos; lia|].
  rewrite Hr. by exists c, (l ++ [digit (x `mod` base)]).
Qed.

Lemma read_printint xx :
  - 2 ^ 31 <= xx < 2 ^ 31 -> read_int base (rev (printint_buf xx base 1)) = xx.
Proof.
  intros Hxx. unfold printint_buf. change (negb (1 =? 0)) with true. cbn [andb].
  assert (2 ^ 32 <= base ^ Z.of_nat 32) as Hpow by (apply Z.pow_le_mono_l; lia).
  destruct (xx <? 0) eqn:E.
  - apply Z.ltb_lt in E. rewrite rev_app_distr. cbn [rev app read_int Z.eqb Pos.eqb].
    assert (u32 (i32 (- xx)) = - xx) as ->.
    { unfold u32, i32. destruct (decide (xx = - 2 ^ 31)) as [->|]; [done|].
      rewrite (Z.mod_small (- xx + 2 ^ 31)) by lia. rewrite Z.mod_small; lia. }
    rewrite read_digits_rev, digits_loop_val by lia. lia.
  - apply Z.ltb_ge in E. rewrite app_nil_r, u32_small by lia.
    destruct (digits_loop_rev 32 xx) as (c & l & Hr & Hc); [lia|lia|].
    unfold read_int. rewrite Hr, (proj2 (Z.eqb_neq _ _)) by done. rewrite <- Hr.
    rewrite read_digits_rev, digits_loop_val by lia. done.
Qed.

Lemma printint_fits xx : 10 <= base -> - 2 ^ 31 <= xx < 2 ^ 31 -> (length (printint_buf xx base 1) <= 11)%nat.
Proof.
  intros Hb Hxx. unfold printint_buf. rewrite length_app. set (neg := _ && _).
  assert (length (if neg then [45%Z] else []) <= 1)%nat by (destruct neg; cbn; lia).
  assert (length (digits_loop 32 (if neg then u32 (i32 (- xx)) else u32 xx) base) <= 10)%nat; [|lia].
  apply digits_loop_length; [lia|]. change (Z.of_nat 10) with 10.
  pose proof (Z.pow_le_mono_l 10 base 10 ltac:(lia)) as Hp10. change (10 ^ 10) with 10000000000 in Hp10.
  destruct neg; pose proof (u32_range (i32 (- xx))); pose proof (u32_range xx); lia.
Qed.
End Digits.

(** ** Sending bytes *)

(** A chip whose transmitter is idle within the polls allowed, and which sends
    what is stored into THR. *)
Class UartReady `{Uart} := {
  lsr_idle s : exists v, read_reg LSR s = Done v s /\ Z.land v LSR_TX_IDLE <> 0;
  thr_sends c s : write_reg THR c s = Done tt (s <| ks_uart ::= cons c |>)
}.

Section Specs.
Context `{Fuel, UartReady}.

Definition sent (bs : list Z) (s : kstate) : kstate := s <| ks_uart ::= app (rev bs) |>.

Lemma sent_nil s : sent [] s = s.
Proof. unfold sent. kstate_eq. Qed.
Lemma sent_app bs bs' s : sent bs' (sent bs s) = sent (bs ++ bs') s.
Proof. unfold sent. kstate_eq. by rewrite rev_app_distr, app_assoc. Qed.

Lemma uartputc_sync_ok c s :
  hart_ok s -> ks_panicked s = 0 -> uartputc_sync c s = Done tt (sent [u8 c] s).
Proof.
  intros Hs Hp. unfold uartputc_sync. kstep push_off_ok; [|done]. rewrite kbind_get.
  change (ks_panicked (pushed s)) with (ks_panicked s). rewrite Hp. cbn [Z.eqb negb].
  destruct (lsr_idle (pushed s)) as (v & Ev & Hv). pose proof fuel_pos. destruct fuel as [|n]; [lia|].
  kstep loop_done; [|kstep Ev; rewrite (proj2 (Z.eqb_neq _ _)) by done; reflexivity].
  kstep thr_sends. restate (pushed (sent [u8 c] s)). by apply pop_off_pushed.
Qed.

Lemma consputc_ok c s :
  hart_ok s -> ks_panicked s = 0 -> 0 <= c < 256 -> consputc c s = Done tt (sent [c] s).
Proof.
  intros Hs Hp Hc. unfold consputc. rewrite (proj2 (Z.eqb_neq _ _)) by (unfold BACKSPACE; lia).
  rewrite uartputc_sync_ok by done. unfold u8. by rewrite Z.mod_small.
Qed.

Lemma puts_ok bs s :
  hart_ok s -> ks_panicked s = 0 -> Forall (fun c => 0 <= c < 256) bs ->
  for_each bs consputc s = Done tt (sent bs s).
Proof.
  intros Hs Hp Hbs. revert s Hs Hp. induction Hbs as [|c bs Hc _ IH]; intros s Hs Hp; cbn [for_each].
  - unfold ret. by rewrite sent_nil.
  - kstep consputc_ok; [|done..]. rewrite IH by done. by rewrite sent_app.
Qed.

(** A format without conversions is sent as it is. *)
Lemma printf_plain fmt s :
  hart_ok s -> lock_free L_pr s -> ks_panicked s = 0 -> Forall (fun c => 0 <= c < 256 /\ c <> 37) fmt ->
  printf fmt [] s = Done tt (sent fmt s).
Proof.
  intros Hs Hl Hp Hf. assert (forall s, hart_ok s -> ks_panicked s = 0 ->
    printf_loop fmt [] s = Done tt (sent fmt s)) as Hloop.
  { clear s Hs Hl Hp. induction Hf as [|c fmt [Hc Hne] _ IH]; intros s Hs Hp; cbn [printf_loop].
    - unfold ret. by rewrite sent_nil.
    - rewrite (proj2 (Z.eqb_neq _ _)) by done. cbn [negb]. kstep consputc_ok; [|done..].
      rewrite IH by done. by rewrite sent_app. }
  unfold printf. rewrite kbind_get. destruct (Z.eqb_spec (ks_prlocking s) 0) as [E|E]; cbn [negb when].
  - rewrite kbind_ret. kstep Hloop; [|done..]. done.
  - kstep acquire_ok; [|done..]. kstep Hloop; [|by apply hart_ok_acq|done].
    change (sent fmt (acq L_pr s)) with (acq L_pr (sent fmt s)). by apply release_acq.
Qed.

Lemma digit_byte x : 0 <= digit x < 256.
Proof.
  unfold digit. destruct (digits !! Z.to_nat x) as [c|] eqn:E; cbn; [|lia].
  assert (Forall (fun c => 0 <= c < 256) digits) as Hall by (apply (bool_decide_unpack _); vm_compute; done).
  rewrite Forall_lookup in Hall. by eapply Hall.
Qed.

Lemma digits_loop_bytes n x base : Forall (fun c => 0 <= c < 256) (digits_loop n x base).
Proof.
  revert x. induction n as [|n IH]; intros x; cbn [digits_loop]; constructor; [apply digit_byte|].
  destruct (_ =? 0); [constructor|apply IH].
Qed.

(** printf's %d and %x print every int so that it can be read
    back, the most negative one included: printint() sends a sequence of
    bytes that denotes xx in the base asked for, and never uses more than 11
    of the 16 bytes of its buffer. *)
Theorem printint_reads_back xx base s :
  hart_ok s -> ks_panicked s = 0 -> 10 <= base <= 16 -> - 2 ^ 31 <= xx < 2 ^ 31 ->
  exists text, printint xx base 1 s = Done tt (sent text s) /\ read_int base text = xx /\
    (length text <= 11)%nat.
Proof.
  intros Hs Hp Hb Hx. exists (rev (printint_buf xx base 1)). split_and!.
  - apply puts_ok; [done|done|]. apply Forall_rev. unfold printint_buf. apply Forall_app.
    split; [apply digits_loop_bytes|]. case_match; repeat constructor; lia.
  - apply read_printint; lia.
  - rewrite length_rev. apply printint_fits; lia.
Qed.
End Specs.

(** A chip that is always ready. *)
Definition ready_read (reg : Z) : K Z := ret (if reg =? LSR then LSR_TX_IDLE else 0).
Definition ready_write (reg v : Z) : K unit :=
  when (reg =? THR) (modify (fun s => s <| ks_uart ::= cons v |>)).
#[global] Instance ready_uart : Uart := { read_reg := ready_read; write_reg := ready_write }.
#[global] Instance ready_uart_ok : UartReady.
Proof. split; [intros s; by exists LSR_TX_IDLE|done]. Qed.

Section Witness.
#[local] Instance uart_fuel : Fuel := { fuel := 1; fuel_pos := Nat.lt_0_1 }.
Lemma printint_reads_back_witness :
  exists text, printint (- 2 ^ 31) 10 1 zero_state = Done tt (sent text zero_state) /\
    read_int 10 text = - 2 ^ 31.
Proof.
  destruct (printint_reads_back (- 2 ^ 31) 10 zero_state ltac:(by vm_compute) eq_refl ltac:(lia) ltac:(lia))
    as (text & E & Hr & _).
  exists text. split; [exact E|exact Hr].
Defined.
End Witness.
