(* ===== verification/Fs.v ===== *)
(** * The file system (fs.c).

    Block allocator, inodes, file contents, directories and path names, on top
    of the log and the buffer cache, with either_copyin and either_copyout of
    proc.c.  Inode pointers are indices into [itable.inode]; on-disk
    structures are bytes of a block, read and written at their offsets. *)

From S2P Require Import Prelude Defs KMonad Lock Mem Kalloc Sched Sleeplock Bio Log Vm Uart.

(** ** On-disk structures *)

Definition rd16 (bs : list Z) (off : nat) : Z := le_val (take 2 (drop off bs)).

(** fs.h: BBLOCK and IBLOCK. *)
Definition BBLOCK (b : Z) (sb : superblock) : Z := u32 (b / BPB + sb_bmapstart sb).
Definition IBLOCK (i : Z) (sb : superblock) : Z := u32 (i / IPB + sb_inodestart sb).

(** A block read as a [struct superblock]. *)
Definition get_superblock (data : list Z) : superblock :=
  mk_superblock (rd32 data 0) (rd32 data 4) (rd32 data 8) (rd32 data 12) (rd32 data 16)
    (rd32 data 20) (rd32 data 24) (rd32 data 28).

(** [(struct dinode* )bp->data + inum%IPB]: its offset, the inode there, and the
    bytes of an inode. *)
Definition dinode_off (inum : Z) : nat := Z.to_nat (DINODE_SIZE * (inum `mod` IPB)).
Definition get_dinode (data : list Z) (off : nat) : dinode :=
  mk_dinode (i16 (rd16 data off)) (i16 (rd16 data (off + 2))) (i16 (rd16 data (off + 4)))
    (i16 (rd16 data (off + 6))) (rd32 data (off + 8))
    ((fun k => rd32 data (off + 12 + 4 * k)) <$> seq 0 (Z.to_nat NDIRECT + 1)).
Definition dinode_bytes (d : dinode) : list Z :=
  le_bytes 2 (d_type d) ++ le_bytes 2 (d_major d) ++ le_bytes 2 (d_minor d) ++
  le_bytes 2 (d_nlink d) ++ le_bytes 4 (d_size d) ++ concat (le_bytes 4 <$> d_addrs d).
Definition put_dinode (d : dinode) (off : nat) (data : list Z) : list Z := patch data off (dinode_bytes d).

(** A [struct dirent]: a 16-bit inode number and DIRSIZ bytes of name. *)
Definition de_inum (de : list Z) : Z := rd16 de 0.
Definition de_name (de : list Z) : list Z := drop 2 de.
Definition dirent_bytes (inum : Z) (name : list Z) : list Z := le_bytes 2 inum ++ name.

(** [data[bi/8] & (1 << (bi % 8))] and its update. *)
Definition bit_at (data : list Z) (bi : Z) : bool :=
  negb (Z.land (default 0 (data !! Z.to_nat (bi / 8))) (Z.shiftl 1 (bi `mod` 8)) =? 0).
Definition set_bit (bi : Z) (data : list Z) : list Z :=
  alter (fun x => Z.lor x (Z.shiftl 1 (bi `mod` 8))) (Z.to_nat (bi / 8)) data.
Definition clear_bit (bi : Z) (data : list Z) : list Z :=
  alter (fun x => u8 (Z.land x (Z.lnot (Z.shiftl 1 (bi `mod` 8))))) (Z.to_nat (bi / 8)) data.

(** ** Where bytes go to and come from

    The (user_dst, dst) pair of readi and the (user_src, src) pair of writei: a
    user virtual address, an address of kernel memory, or a local variable of
    the caller, whose bytes readi returns and writei is given. *)
Inductive kdst := To_user (a : Z) | To_mem (a : Z) | To_var.
Inductive ksrc := From_user (a : Z) | From_var (bs : list Z).
Definition dst_add (d : kdst) (m : Z) : kdst :=
  match d with
  | To_user a => To_user (u64 (a + m))
  | To_mem a => To_mem (u64 (a + m))
  | To_var => To_var
  end.
Definition src_add (d : ksrc) (m : Z) : ksrc :=
  match d with
  | From_user a => From_user (u64 (a + m))
  | From_var bs => From_var (drop (Z.to_nat m) bs)
  end.

Definition inode_of (ip : nat) : K inode := let! l := get ks_itable in deref l ip.
Definition set_inode (ip : nat) (f : inode -> inode) : K unit :=
  let! _ := inode_of ip in modify (fun s => s <| ks_itable ::= alter f ip |>).
Definition sb_of : K superblock := get ks_sb.
Definition set_data (b : nat) (f : list Z -> list Z) : K unit :=
  set_buf b (fun x => x <| b_data ::= f |>).

Section Code.
Context `{Fuel, BlockDevice, KernelImage, Uart}.

(** proc.c: either_copyout and either_copyin *)
Definition either_copyout (dst : kdst) (src : list Z) : K (Z * list Z) :=
  let! p := cur_proc in
  match dst with
  | To_user a =>
    let! pr := proc_of p in
    let! r := copyout (p_pagetable pr) a src in
    ret (r, [])
  | To_mem a => mem_store a src ;; ret (0, [])
  | To_var => ret (0, src)
  end.

Definition either_copyin (src : ksrc) (len : Z) : K (Z * list Z) :=
  let! p := cur_proc in
  match src with
  | From_user a =>
    let! pr := proc_of p in
    copyin (p_pagetable pr) a len
  | From_var bs => ret (0, take (Z.to_nat len) bs)
  end.

(** ** Blocks *)

Definition readsb (dev : Z) : K superblock :=
  let! bp := bread dev 1 in
  let! bf := buf_of bp in
  let sb := get_superblock (b_data bf) in
  brelse bp ;;
  ret sb.

Definition fsinit (dev : Z) : K unit :=
  let! sb := readsb dev in
  modify (fun s => s <| ks_sb := sb |>) ;;
  if negb (sb_magic sb =? FSMAGIC) then panic "invalid file system" else
  initlog dev sb.

Definition bzero (dev bno : Z) : K unit :=
  let! bp := bread dev (u32 bno) in
  set_data bp (fun _ => replicate (Z.to_nat BSIZE) 0) ;;
  log_write bp ;;
  brelse bp.

(** The inner loop: the first clear bit of the block's bitmap. *)
Definition balloc_scan (bp : nat) (b size : Z) : K (option Z) :=
  loop (S (Z.to_nat BPB)) (fun bi =>
    if negb ((bi <? BPB) && (b + bi <? size)) then ret (inr None) else
    let! bf := buf_of bp in
    if negb (bit_at (b_data bf) bi) then ret (inr (Some bi)) else ret (inl (bi + 1))) 0.

Definition balloc (dev : Z) : K Z :=
  let! sb := sb_of in
  let size := sb_size sb in
  loop (S (Z.to_nat (size / BPB + 1))) (fun b =>
    if negb (b <? size) then
      printf (str "balloc: out of blocks
") [] ;;
      ret (inr 0)
    else
      let! bp := bread dev (BBLOCK b sb) in
      let! r := balloc_scan bp b size in
      match r with
      | Some bi =>
        set_data bp (set_bit bi) ;;
        log_write bp ;;
        brelse bp ;;
        bzero dev (b + bi) ;;
        ret (inr (b + bi))
      | None => brelse bp ;; ret (inl (b + BPB))
      end) 0.

Definition bfree (dev b : Z) : K unit :=
  let! sb := sb_of in
  let! bp := bread dev (BBLOCK b sb) in
  let bi := b `mod` BPB in
  let! bf := buf_of bp in
  if negb (bit_at (b_data bf) bi) then panic "freeing free block" else
  set_data bp (clear_bit bi) ;;
  log_write bp ;;
  brelse bp.

(** ** Inodes *)

Definition iinit : K unit :=
  initlock L_itable "itable" ;;
  for_each (seq 0 NINODE) (fun i => initsleeplock (SL_inode i) "inode").

Definition iget (dev inum : Z) : K nat :=
  acquire L_itable ;;
  let! r := loop (S NINODE) (fun '(ip, empty) =>
    if (NINODE <=? ip)%nat then ret (inr (inr empty)) else
    let! i := inode_of ip in
    if (0 <? i_ref i) && (i_dev i =? dev) && (i_inum i =? inum) then
      set_inode ip (fun i => i <| i_ref := i32 (i_ref i + 1) |>) ;;
      release L_itable ;;
      ret (inr (inl ip))
    else
      let empty := match empty with
                   | None => if i_ref i =? 0 then Some ip else None
                   | Some e => Some e
                   end in
      ret (inl (S ip, empty))) (O, None) in
  match r with
  | inl ip => ret ip
  | inr None => panic "iget: no inodes"
  | inr (Some ip) =>
    set_inode ip (fun i => i <| i_dev := dev |>) ;;
    set_inode ip (fun i => i <| i_inum := inum |>) ;;
    set_inode ip (fun i => i <| i_ref := 1 |>) ;;
    set_inode ip (fun i => i <| i_valid := 0 |>) ;;
    release L_itable ;;
    ret ip
  end.

Definition ialloc (dev type : Z) : K (option nat) :=
  let! sb := sb_of in
  loop (S (Z.to_nat (sb_ninodes sb))) (fun inum =>
    if negb (inum <? sb_ninodes sb) then
      printf (str "ialloc: no inodes
") [] ;;
      ret (inr None)
    else
      let! bp := bread dev (IBLOCK inum sb) in
      let! bf := buf_of bp in
      let off := dinode_off inum in
      if d_type (get_dinode (b_data bf) off) =? 0 then
        set_data bp (fun d => patch d off (replicate (Z.to_nat DINODE_SIZE) 0)) ;;
        set_data bp (fun d => patch d off (le_bytes 2 type)) ;;
        log_write bp ;;
        brelse bp ;;
        let! ip := iget dev inum in
        ret (inr (Some ip))
      else brelse bp ;; ret (inl (inum + 1))) 1.

(** The disk part of an in-memory inode. *)
Definition to_dinode (i : inode) : dinode :=
  mk_dinode (i_type i) (i_major i) (i_minor i) (i_nlink i) (i_size i) (i_addrs i).

Definition iupdate (ip : nat) : K unit :=
  let! sb := sb_of in
  let! i := inode_of ip in
  let! bp := bread (i_dev i) (IBLOCK (i_inum i) sb) in
  set_data bp (put_dinode (to_dinode i) (dinode_off (i_inum i))) ;;
  log_write bp ;;
  brelse bp.

Definition idup (ip : nat) : K nat :=
  acquire L_itable ;;
  set_inode ip (fun i => i <| i_ref := i32 (i_ref i + 1) |>) ;;
  release L_itable ;;
  ret ip.

Definition ilock (ip : option nat) : K unit :=
  match ip with
  | None => panic "ilock"
  | Some ip =>
    let! i := inode_of ip in
    if i_ref i <? 1 then panic "ilock" else
    acquiresleep (SL_inode ip) ;;
    let! i := inode_of ip in
    when (i_valid i =? 0)
      (let! sb := sb_of in
       let! bp := bread (i_dev i) (IBLOCK (i_inum i) sb) in
       let! bf := buf_of bp in
       let d := get_dinode (b_data bf) (dinode_off (i_inum i)) in
       set_inode ip (fun i => i <| i_type := d_type d |> <| i_major := d_major d |>
         <| i_minor := d_minor d |> <| i_nlink := d_nlink d |> <| i_size := d_size d |>
         <| i_addrs := d_addrs d |>) ;;
       brelse bp ;;
       set_inode ip (fun i => i <| i_valid := 1 |>) ;;
       let! i := inode_of ip in
       if i_type i =? 0 then panic "ilock: no type" else ret tt)
  end.

Definition iunlock (ip : option nat) : K unit :=
  match ip with
  | None => panic "iunlock"
  | Some ip =>
    let! h := holdingsleep (SL_inode ip) in
    if negb h then panic "iunlock" else
    let! i := inode_of ip in
    if i_ref i <? 1 then panic "iunlock" else
    releasesleep (SL_inode ip)
  end.

(** ** File contents *)

(** [ip->addrs[n]]; an index past the array is undefined behaviour. *)
Definition addr_at (ip n : nat) : K Z := let! i := inode_of ip in deref (i_addrs i) n.
Definition set_addr (ip n : nat) (v : Z) : K unit :=
  let! _ := addr_at ip n in set_inode ip (fun i => i <| i_addrs ::= <[n := v]> |>).

Definition bmap (ip : nat) (bn : Z) : K Z :=
  if bn <? NDIRECT then
    let! addr := addr_at ip (Z.to_nat bn) in
    if negb (addr =? 0) then ret addr else
    let! i := inode_of ip in
    let! addr := balloc (i_dev i) in
    if addr =? 0 then ret 0 else
    set_addr ip (Z.to_nat bn) addr ;;
    ret addr
  else
  let bn := bn - NDIRECT in
  if bn <? NINDIRECT then
    let! addr := addr_at ip (Z.to_nat NDIRECT) in
    let! i := inode_of ip in
    let! addr := (if negb (addr =? 0) then ret addr else
                  let! addr := balloc (i_dev i) in
                  when (negb (addr =? 0)) (set_addr ip (Z.to_nat NDIRECT) addr) ;;
                  ret addr) in
    if addr =? 0 then ret 0 else
    let! bp := bread (i_dev i) addr in
    let! bf := buf_of bp in
    let off := (4 * Z.to_nat bn)%nat in
    let addr := rd32 (b_data bf) off in
    let! addr := (if negb (addr =? 0) then ret addr else
                  let! addr := balloc (i_dev i) in
                  when (negb (addr =? 0))
                    (set_data bp (fun d => wr32 d off addr) ;; log_write bp) ;;
                  ret addr) in
    brelse bp ;;
    ret addr
  else panic "bmap: out of range".

Definition itrunc (ip : nat) : K unit :=
  for_each (seq 0 (Z.to_nat NDIRECT)) (fun k =>
    let! a := addr_at ip k in
    when (negb (a =? 0))
      (let! i := inode_of ip in
       bfree (i_dev i) a ;;
       set_addr ip k 0)) ;;
  let! a := addr_at ip (Z.to_nat NDIRECT) in
  when (negb (a =? 0))
    (let! i := inode_of ip in
     let! bp := bread (i_dev i) a in
     for_each (seq 0 (Z.to_nat NINDIRECT)) (fun j =>
       let! bf := buf_of bp in
       let aj := rd32 (b_data bf) (4 * j) in
       when (negb (aj =? 0)) (bfree (i_dev i) aj)) ;;
     brelse bp ;;
     let! a := addr_at ip (Z.to_nat NDIRECT) in
     bfree (i_dev i) a ;;
     set_addr ip (Z.to_nat NDIRECT) 0) ;;
  set_inode ip (fun i => i <| i_size := 0 |>) ;;
  iupdate ip.

Definition iput (ip : nat) : K unit :=
  acquire L_itable ;;
  let! i := inode_of ip in
  when ((i_ref i =? 1) && negb (i_valid i =? 0) && (i_nlink i =? 0))
    (acquiresleep (SL_inode ip) ;;
     release L_itable ;;
     itrunc ip ;;
     set_inode ip (fun i => i <| i_type := 0 |>) ;;
     iupdate ip ;;
     set_inode ip (fun i => i <| i_valid := 0 |>) ;;
     releasesleep (SL_inode ip) ;;
     acquire L_itable) ;;
  set_inode ip (fun i => i <| i_ref := i32 (i_ref i - 1) |>) ;;
  release L_itable.

Definition iunlockput (ip : nat) : K unit := iunlock (Some ip) ;; iput ip.

(** stat.h: the bytes of a [struct stat], with its padding. *)
Definition stat_bytes (dev ino type nlink size : Z) : list Z :=
  le_bytes 4 dev ++ le_bytes 4 ino ++ le_bytes 2 type ++ le_bytes 2 nlink ++
  replicate 4 0 ++ le_bytes 8 size.
Definition stati (ip : nat) : K (list Z) :=
  let! i := inode_of ip in
  ret (stat_bytes (i_dev i) (i_inum i) (i_type i) (i_nlink i) (i_size i)).

(** The number of bytes and, for a destination that is a local variable, the
    bytes. *)
Definition readi (ip : nat) (dst : kdst) (off n : Z) : K (Z * list Z) :=
  let! i := inode_of ip in
  if (i_size i <? off) || (u32 (off + n) <? off) then ret (0, []) else
  let n := if i_size i <? u32 (off + n) then u32 (i_size i - off) else n in
  loop (S (Z.to_nat n)) (fun '(tot, off, dst, got) =>
    if negb (tot <? n) then ret (inr (i32 tot, got)) else
    let! addr := bmap ip (off / BSIZE) in
    if addr =? 0 then ret (inr (i32 tot, got)) else
    let! i := inode_of ip in
    let! bp := bread (i_dev i) addr in
    let m := Z.min (n - tot) (BSIZE - off `mod` BSIZE) in
    let! bf := buf_of bp in
    let! r := either_copyout dst (take (Z.to_nat m) (drop (Z.to_nat (off `mod` BSIZE)) (b_data bf))) in
    if fst r =? -1 then brelse bp ;; ret (inr (-1, got)) else
    brelse bp ;;
    ret (inl (tot + m, u32 (off + m), dst_add dst m, got ++ snd r))) (0, off, dst, []).

Definition writei (ip : nat) (src : ksrc) (off n : Z) : K Z :=
  let! i := inode_of ip in
  if (i_size i <? off) || (u32 (off + n) <? off) then ret (-1) else
  if MAXFILE * BSIZE <? u32 (off + n) then ret (-1) else
  let! r := loop (S (Z.to_nat n)) (fun '(tot, off, src) =>
    if negb (tot <? n) then ret (inr (tot, off)) else
    let! addr := bmap ip (off / BSIZE) in
    if addr =? 0 then ret (inr (tot, off)) else
    let! i := inode_of ip in
    let! bp := bread (i_dev i) addr in
    let m := Z.min (n - tot) (BSIZE - off `mod` BSIZE) in
    let! r := either_copyin src m in
    set_data bp (fun d => patch d (Z.to_nat (off `mod` BSIZE)) (snd r)) ;;
    if fst r =? -1 then brelse bp ;; ret (inr (tot, off)) else
    log_write bp ;;
    brelse bp ;;
    ret (inl (tot + m, u32 (off + m), src_add src m))) (0, off, src) in
  let '(tot, off) := r in
  let! i := inode_of ip in
  when (i_size i <? off) (set_inode ip (fun i => i <| i_size := off |>)) ;;
  iupdate ip ;;
  ret (i32 tot).

(** ** Directories *)

Definition namecmp (s t : list Z) : Z := strncmp (ptr_of s) (ptr_of t) DIRSIZ.

(** The inode and [*poff]. *)
Definition dirlookup (dp : nat) (name : list Z) : K (option (nat * Z)) :=
  let! d := inode_of dp in
  if negb (i_type d =? T_DIR) then panic "dirlookup not DIR" else
  loop (S (Z.to_nat (i_size d / DIRENT_SIZE + 1))) (fun off =>
    let! d := inode_of dp in
    if negb (off <? i_size d) then ret (inr None) else
    let! r := readi dp To_var off DIRENT_SIZE in
    if negb (fst r =? DIRENT_SIZE) then panic "dirlookup read" else
    let de := snd r in
    if de_inum de =? 0 then ret (inl (u32 (off + DIRENT_SIZE))) else
    if namecmp name (de_name de) =? 0 then
      let! d := inode_of dp in
      let! ip := iget (i_dev d) (de_inum de) in
      ret (inr (Some (ip, off)))
    else ret (inl (u32 (off + DIRENT_SIZE)))) 0.

Definition dirlink (dp : nat) (name : list Z) (inum : Z) : K Z :=
  let! found := dirlookup dp name in
  match found with
  | Some (ip, _) => iput ip ;; ret (-1)
  | None =>
    let! d := inode_of dp in
    let! off := loop (S (Z.to_nat (i_size d / DIRENT_SIZE + 1))) (fun off =>
      let! d := inode_of dp in
      if negb (off <? i_size d) then ret (inr off) else
      let! r := readi dp To_var off DIRENT_SIZE in
      if negb (fst r =? DIRENT_SIZE) then panic "dirlink read" else
      if de_inum (snd r) =? 0 then ret (inr off) else ret (inl (off + DIRENT_SIZE))) 0 in
    let de := dirent_bytes inum (strncpy (ptr_of name) DIRSIZ) in
    let! w := writei dp (From_var de) off DIRENT_SIZE in
    if negb (w =? DIRENT_SIZE) then ret (-1) else ret 0
  end.

(** ** Paths *)

(** The bytes of a path are those before its NUL. *)
Fixpoint skip_slashes (path : list Z) : list Z :=
  match path with
  | c :: path' => if c =? 47 then skip_slashes path' else path
  | [] => []
  end.
(** The bytes up to the next slash, and the rest. *)
Fixpoint path_elem (path : list Z) : list Z * list Z :=
  match path with
  | c :: path' => if c =? 47 then ([], path) else
                  let '(e, r) := path_elem path' in (c :: e, r)
  | [] => ([], [])
  end.

(** The rest of the path and the new contents of [name], DIRSIZ bytes. *)
Definition skipelem (path name : list Z) : option (list Z * list Z) :=
  match skip_slashes path with
  | [] => None
  | path =>
    let '(s, path) := path_elem path in
    let len := Z.of_nat (length s) in
    let name := if DIRSIZ <=? len then patch name 0 (take (Z.to_nat DIRSIZ) s)
                else patch name 0 (s ++ [0]) in
    Some (skip_slashes path, name)
  end.

(** The inode, and [name] at the end. *)
Definition namex (path : list Z) (nameiparent : bool) (name : list Z) : K (option nat * list Z) :=
  let! ip := match path with
             | 47 :: _ => iget ROOTDEV ROOTINO
             | _ => let! p := cur_proc in
                    let! pr := proc_of p in
                    let! cwd := nonnull (p_cwd pr) in
                    idup cwd
             end in
  loop (S (length path)) (fun '(ip, path, name) =>
    match skipelem path name with
    | None =>
      if nameiparent : bool then iput ip ;; ret (inr (None, name)) else ret (inr (Some ip, name))
    | Some (path, name) =>
      ilock (Some ip) ;;
      let! i := inode_of ip in
      if negb (i_type i =? T_DIR) then iunlockput ip ;; ret (inr (None, name)) else
      if nameiparent && bool_decide (path = []) then iunlock (Some ip) ;; ret (inr (Some ip, name)) else
      let! next := dirlookup ip name in
      match next with
      | None => iunlockput ip ;; ret (inr (None, name))
      | Some (next, _) => iunlockput ip ;; ret (inl (next, path, name))
      end
    end) (ip, path, name).

Definition namei (path : list Z) : K (option nat) :=
  let! r := namex path false (replicate (Z.to_nat DIRSIZ) 0) in
  ret (fst r).

(** The [name] argument is an uninitialised buffer of the caller. *)
Definition nameiparent (path : list Z) : K (option nat * list Z) :=
  namex path true (replicate (Z.to_nat DIRSIZ) 0).
End Code.
