(* ===== verification/FsBlock.v ===== *)
(** * Blocks inside a transaction.

    What the file system relies on between begin_op() and end_op(): a block
    can be read, and a read block can be changed, logged and released.  The
    block allocator (balloc, bfree) and inode updates (iupdate) are proved
    against this interface. *)

From S2P Require Import Prelude Defs KMonad Lock Mem Kalloc Sched Sleeplock Bio Log Vm Uart Fs.

(** The cache [c] with the buffers [hs] held in addition, the last one first. *)
Definition c_holds (hs : list (nat * Z)) (c : cache) : cache :=
  foldr (fun h c => c_hold h.1 h.2 c) c hs.

(** Thread [p] runs a file-system operation and holds the buffers [hs]: the
    transaction has logged the blocks [bl], the cache apart from [hs] is [c],
    and besides the log and [hs] no more than one reference per process is held
    on a block. *)
Record op_with (hs : list (nat * Z)) (s : kstate) (p : nat) (d start size : Z) (bl : list Z) (c : cache) : Prop := mk_op_with {
  io_rep : represents s p d (c_holds hs c);
  io_log : log_hdr s d start size bl;
  io_out : 1 <= log_outstanding (ks_log s);
  io_held : ca_held c = [];
  io_free n : start <= n < start + size -> ca_refs c n = 0;
  io_busy : ca_busy c + Z.of_nat (length hs - 1) < Z.of_nat NBUF;
  io_nodup : NoDup bl;
  io_pinned : Forall (fun b => home start size b /\ 1 <= ca_refs c b < 2 ^ 32 - 1) bl;
  io_hdr : hdr_n (disk_at (ca_disk c) start) = 0;
  io_clean n : home start size n -> (n ∉ bl) -> ca_val c n = disk_at (ca_disk c) n;
  io_refs n : 0 <= ca_refs c n <= Z.of_nat NPROC + (if decide (n ∈ bl) then 1 else 0);
  io_home : Forall (fun h => home start size h.2) hs;
  io_apart : NoDup hs.*2
}.
Notation in_op := (op_with []).

(** [k] more blocks can be logged while [m] buffers are held. *)
Definition room (k m : Z) (size : Z) (bl : list Z) (c : cache) : Prop :=
  Z.of_nat (length bl) + k <= size - 1 /\ Z.of_nat (length bl) + k <= LOGSIZE /\
  ca_busy c + k + m < Z.of_nat NBUF.

(** The cache after block [n] has been given the contents [v] and logged. *)
Definition c_logged (n : Z) (v : list Z) (bl : list Z) (c : cache) : cache :=
  c_pinned n bl (c_set n v c).

(** ** Held buffers *)

Lemma holds_held hs c : ca_held (c_holds hs c) = hs ++ ca_held c.
Proof. unfold c_holds in *. induction hs as [|[b n] hs IH]; [done|]. cbn. by rewrite IH. Qed.
Lemma holds_val hs c : ca_val (c_holds hs c) = ca_val c.
Proof. unfold c_holds in *. induction hs as [|[b n] hs IH]; [done|]. cbn. by rewrite IH. Qed.
Lemma holds_disk hs c : ca_disk (c_holds hs c) = ca_disk c.
Proof. unfold c_holds in *. induction hs as [|[b n] hs IH]; [done|]. cbn. by rewrite IH. Qed.
Lemma busy_range r : 0 <= busy r <= 1.
Proof. unfold busy. destruct (r =? 0); lia. Qed.
Lemma holds_busy hs c :
  (forall n, 0 <= ca_refs c n) -> ca_busy (c_holds hs c) <= ca_busy c + Z.of_nat (length hs).
Proof.
  intros Hr. induction hs as [|[b n] hs IH]; [cbn; lia|]. cbn [c_holds foldr c_hold c_refs ca_busy ca_refs fst snd length].
  pose proof (busy_range (ca_refs (c_holds hs c) n + 1)). pose proof (busy_range (ca_refs (c_holds hs c) n)).
  unfold c_holds in *. lia.
Qed.
Lemma holds_refs hs c n :
  ca_refs (c_holds hs c) n = ca_refs c n + Z.of_nat (length (filter (fun m => m = n) hs.*2)).
Proof.
  induction hs as [|[b m] hs IH]; [cbn; lia|].
  cbn [c_holds foldr c_hold c_refs ca_refs fst snd fmap list_fmap]. rewrite filter_cons. unfold fset, c_holds in *.
  destruct (decide (n = m)) as [->|Hne].
  - rewrite decide_True by done. cbn [length]. rewrite IH. lia.
  - rewrite decide_False by congruence. by rewrite IH.
Qed.
Lemma holds_refs_out hs c n : (n ∉ hs.*2) -> ca_refs (c_holds hs c) n = ca_refs c n.
Proof.
  intros Hn. rewrite holds_refs. destruct (filter _ _) as [|x l] eqn:E; [cbn; lia|].
  assert (x ∈ filter (fun m => m = n) hs.*2) as [-> Hx]%list_elem_of_filter by (rewrite E; by left). done.
Qed.

#[global] Instance c_hold_proper b n : Proper (ceq ==> ceq) (c_hold b n).
Proof.
  intros c c' (H1 & H2 & H3 & H4 & H5 & H6). split_and!; cbn; rewrite ?H1, ?H3, ?H4; try done.
  intros m. unfold fset. by rewrite H3.
Qed.
#[global] Instance c_holds_proper hs : Proper (ceq ==> ceq) (c_holds hs).
Proof. intros c c' E. induction hs as [|h hs IH]; [done|]. cbn. by rewrite IH. Qed.

(** Setting and pinning a block commute with holding buffers. *)
Lemma hold_set b m n v c : ceq (c_set n v (c_hold b m c)) (c_hold b m (c_set n v c)).
Proof. by split_and!. Qed.
Lemma hold_pinned b m n bl c : ceq (c_pinned n bl (c_hold b m c)) (c_hold b m (c_pinned n bl c)).
Proof.
  unfold c_pinned. case_decide; [done|]. split_and!; cbn; try done.
  - intros x. unfold fset. repeat case_decide; subst; lia.
  - unfold fset. repeat case_decide; subst; try done; lia.
Qed.
#[global] Instance c_pinned_proper n bl : Proper (ceq ==> ceq) (c_pinned n bl).
Proof.
  intros c c' (H1 & H2 & H3 & H4 & H5 & H6). unfold c_pinned. case_decide; split_and!; cbn; rewrite ?H3, ?H4; try done.
  intros m. unfold fset. by rewrite H3.
Qed.
#[global] Instance c_set_proper n v : Proper (ceq ==> ceq) (c_set n v).
Proof.
  intros c c' (H1 & H2 & H3 & H4 & H5 & H6). split_and!; cbn; try done. intros m. unfold fset. by rewrite H2.
Qed.
Lemma holds_logged hs n v bl c :
  ceq (c_pinned n bl (c_set n v (c_holds hs c))) (c_holds hs (c_logged n v bl c)).
Proof.
  induction hs as [|[b m] hs IH]; [done|]. cbn [c_holds foldr fst snd]. by rewrite hold_set, hold_pinned, IH.
Qed.

(** The cache does not depend on the inode table nor on the locks of inodes. *)
Record same_cache (s s' : kstate) : Prop := mk_same_cache {
  sc_hart : same_hart s s';
  sc_proc : ks_proc s' = ks_proc s;
  sc_bufs : ks_bufs s' = ks_bufs s;
  sc_prev : ks_bhead_prev s' = ks_bhead_prev s;
  sc_next : ks_bhead_next s' = ks_bhead_next s;
  sc_slock b : ks_slocks s' !! SL_buf b = ks_slocks s !! SL_buf b;
  sc_disk : ks_disk s' = ks_disk s;
  sc_writes : ks_dwrites s' = ks_dwrites s;
  sc_log : ks_log s' = ks_log s
}.

Lemma represents_same s s' p d c : same_cache s s' -> represents s p d c -> represents s' p d c.
Proof.
  intros [Hh Hp Hb Hpv Hnx Hsl Hd Hw _] [Hok Hhe Hv Hr Hbu Hdi Hwr].
  assert (forall n, dblock s' n = dblock s n) as Hdb by (intros n; unfold dblock; by rewrite Hd).
  assert (mypid s' p = mypid s p) as Hpid by (unfold mypid; by rewrite Hp).
  split.
  - destruct Hok as [Hq ? ? [r Hring] Hbuf Huniq Hlock Hheld Hclean Hdisk ? ?].
    split; try done; rewrite ?Hb; try done.
    + by apply (quiet_same s).
    + exists r. apply (ring_links s); [..|done]; intros b; unfold nxt, prv; by rewrite ?Hb, ?Hpv, ?Hnx.
    + intros b Hlt. rewrite Hsl, Hpid. by apply Hlock.
    + intros b bf Hbf Hdev Hval Hrc. rewrite Hdb. by apply (Hclean b).
    + intros n. by rewrite Hdb.
  - by rewrite Hb.
  - intros m. rewrite <- Hv. unfold cval, bidx. by rewrite Hb, Hdb.
  - intros m. rewrite <- Hr. unfold refs, bidx. by rewrite Hb.
  - unfold nbusy. by rewrite Hb.
  - by rewrite Hd.
  - by rewrite Hw.
Qed.

Section Specs.
Context `{Fuel, BlockDevice}.

Lemma op_same hs s s' p d start size bl c :
  same_cache s s' -> op_with hs s p d start size bl c -> op_with hs s' p d start size bl c.
Proof.
  intros Hs []. split; try done; [by eapply represents_same|eapply log_hdr_log; [apply Hs|done]|].
  by rewrite (sc_log _ _ Hs).
Qed.

(** Another block is read and its buffer held. *)
Lemma bread_op hs s p d start size bl c n :
  op_with hs s p d start size bl c -> home start size n -> (n ∉ hs.*2) ->
  ca_busy c + Z.of_nat (length hs) < Z.of_nat NBUF ->
  exists b s', bread d n s = Done b s' /\ bio_frame s s' /\ op_with ((b, n) :: hs) s' p d start size bl c.
Proof.
  intros [Hr Hlog Hout Hhe Hfr Hbu Hnd Hpin Hh Hcl Hrf Hho Hap] Hn Hni Hsp.
  assert (forall n, 0 <= ca_refs c n) as Hpos by (intros m; apply Hrf).
  destruct (bread_refines s p d _ n Hr) as (b & s' & E & F & _ & R).
  - by rewrite holds_held, Hhe, app_nil_r.
  - rewrite holds_refs_out by done. specialize (Hrf n). case_decide; unfold NPROC in Hrf; lia.
  - intros _. pose proof (holds_busy hs c Hpos). lia.
  - exists b, s'. split_and!; [done|done|]. pose proof (bio_frame_log _ _ F) as El.
    split; try done; [by eapply log_hdr_log|by rewrite El|cbn [length]; lia|by constructor|by constructor].
Qed.

(** The contents of the buffer held. *)
Lemma holding_buf hs s p d start size bl c b n :
  op_with ((b, n) :: hs) s p d start size bl c ->
  exists bf, ks_bufs s !! b = Some bf /\ b_data bf = ca_val c n /\ length (ca_val c n) = Z.to_nat BSIZE.
Proof.
  intros Hb. pose proof (io_rep _ _ _ _ _ _ _ _ Hb) as Hr.
  destruct (held_buf _ _ _ _ b n Hr) as (bf & E & _ & _ & Hv & _); [by left|].
  rewrite holds_val in Hv. exists bf. split_and!; [done|done|]. rewrite <- Hv.
  by apply (bo_buf _ _ _ _ (rp_ok _ _ _ _ Hr) b bf E).
Qed.
Lemma op_val_length hs s p d start size bl c n :
  op_with hs s p d start size bl c -> length (ca_val c n) = Z.to_nat BSIZE.
Proof. intros Hop. rewrite <- (holds_val hs c). eapply val_length, io_rep, Hop. Qed.

(** Dropping the buffer held last. *)
Lemma drop_hold b n c : ceq (c_drop n (ca_held c) (c_hold b n c)) c.
Proof.
  split_and!; cbn; try done.
  - intros m. rewrite fset_eq. unfold fset. case_decide; [subst; lia|done].
  - rewrite !fset_eq, Z.add_simpl_r. lia.
Qed.

(** Releasing a block that was only read, or that is logged already. *)
Lemma brelse_op hs s p d start size bl c b n :
  op_with ((b, n) :: hs) s p d start size bl c ->
  exists s', brelse b s = Done tt s' /\ bio_frame s s' /\ op_with hs s' p d start size bl c.
Proof.
  intros [Hr Hlog Hout Hhe Hfr Hbu Hnd Hpin Hh Hcl Hrf [Hn Hho]%Forall_cons [Hni Hap]%NoDup_cons].
  destruct (brelse_refines s p d _ b n (ca_held (c_holds hs c)) Hr) as (s' & E & F & R).
  - done.
  - cbn [c_holds foldr c_hold c_refs ca_refs ca_val ca_disk fst snd]. fold (c_holds hs c).
    rewrite fset_eq, holds_val, holds_disk, holds_refs_out by done. intros E1. apply Hcl; [done|]. intros Hin.
    rewrite Forall_forall in Hpin. destruct (Hpin n Hin). lia.
  - exists s'. split_and!; [done|done|]. pose proof (bio_frame_log _ _ F) as El.
    split; try done; [|by eapply log_hdr_log|by rewrite El|cbn [length] in Hbu; lia].
    eapply represents_proper; [|exact R]. symmetry. apply drop_hold.
Qed.

Lemma log_frame_out s s' :
  log_frame s s' -> ks_proc s' = ks_proc s /\ ks_itable s' = ks_itable s /\ ks_sb s' = ks_sb s.
Proof. by intros ->. Qed.

Lemma logged_refs n v bl c m :
  ca_refs (c_logged n v bl c) m
  = ca_refs c m + (if decide (m = n /\ (n ∉ bl)) then 1 else 0).
Proof.
  unfold c_logged, c_pinned. destruct (decide (n ∈ bl)); cbn; unfold fset; repeat case_decide; subst; intuition lia.
Qed.
Lemma logged_val n v bl c m : ca_val (c_logged n v bl c) m = fset (ca_val c) n v m.
Proof. unfold c_logged, c_pinned. by case_decide. Qed.
Lemma logged_disk n v bl c : ca_disk (c_logged n v bl c) = ca_disk c.
Proof. unfold c_logged, c_pinned. by case_decide. Qed.
Lemma logged_held n v bl c : ca_held (c_logged n v bl c) = ca_held c.
Proof. unfold c_logged, c_pinned. by case_decide. Qed.
Lemma logged_busy n v bl c :
  0 <= ca_refs c n -> ca_busy c <= ca_busy (c_logged n v bl c) <= ca_busy c + 1.
Proof.
  intros Hn. unfold c_logged, c_pinned. case_decide; cbn; [lia|]. unfold busy.
  destruct (Z.eqb_spec (ca_refs c n + 1) 0), (Z.eqb_spec (ca_refs c n) 0); lia.
Qed.

Lemma NoDup_log_added n bl : NoDup bl -> NoDup (log_added n bl).
Proof.
  intros Hnd. unfold log_added. case_decide; [done|]. apply NoDup_app. split_and!; [done| |apply NoDup_singleton].
  intros x Hx ->%list_elem_of_singleton. done.
Qed.
Lemma elem_of_log_added m n bl : m ∈ log_added n bl <-> m = n \/ m ∈ bl.
Proof.
  unfold log_added. case_decide; [set_solver|]. rewrite elem_of_app, list_elem_of_singleton. tauto.
Qed.

(** Logging a block keeps the bounds on references, and pins the block. *)
Lemma logged_refs_bound n v bl c :
  (forall m, 0 <= ca_refs c m <= Z.of_nat NPROC + (if decide (m ∈ bl) then 1 else 0)) ->
  forall m, 0 <= ca_refs (c_logged n v bl c) m <= Z.of_nat NPROC + (if decide (m ∈ log_added n bl) then 1 else 0).
Proof.
  intros Hrf m. rewrite logged_refs. specialize (Hrf m). revert Hrf.
  destruct (decide (m ∈ log_added n bl)) as [Hi|Hi]; rewrite elem_of_log_added in Hi;
    destruct (decide (m ∈ bl)) as [Hb'|Hb'], (decide (m = n)) as [->|Hne];
    try (rewrite decide_False by tauto; intuition lia).
  rewrite decide_True by done. lia.
Qed.
Lemma logged_pinned start size n v bl c :
  (forall m, 0 <= ca_refs c m <= Z.of_nat NPROC + (if decide (m ∈ bl) then 1 else 0)) -> home start size n ->
  Forall (fun b => home start size b /\ 1 <= ca_refs c b < 2 ^ 32 - 1) bl ->
  Forall (fun b => home start size b /\ 1 <= ca_refs (c_logged n v bl c) b < 2 ^ 32 - 1) (log_added n bl).
Proof.
  intros Hrf Hn Hpin. apply Forall_forall. intros m Hm%elem_of_log_added. rewrite logged_refs.
  rewrite Forall_forall in Hpin.
  assert (0 <= ca_refs c m <= Z.of_nat NPROC + 1) as Hrm
    by (specialize (Hrf m); revert Hrf; destruct (decide (m ∈ bl)); lia).
  destruct (decide (m ∈ bl)) as [Hi|Hi].
  - destruct (Hpin m Hi) as [Hh' Hr']. split; [done|]. unfold NPROC in *. destruct (decide (_ /\ _)); lia.
  - destruct Hm as [->|Hm]; [|done]. split; [done|]. rewrite decide_True by done. unfold NPROC in *. lia.
Qed.

(** Changing a held block and logging it. *)
Lemma change_op hs s p d start size bl c b n f :
  op_with ((b, n) :: hs) s p d start size bl c -> room 1 (Z.of_nat (length hs)) size bl c ->
  length (f (ca_val c n)) = Z.to_nat BSIZE ->
  exists s', (set_data b f ;; log_write b) s = Done tt s' /\ log_frame s s' /\
    op_with ((b, n) :: hs) s' p d start size (log_added n bl) (c_logged n (f (ca_val c n)) bl c).
Proof.
  intros Hb (Hm1 & Hm2 & Hm3) Hf. pose proof Hb as [Hr Hlog Hout Hhe Hfr Hbu Hnd Hpin Hh Hcl Hrf Hho Hap].
  pose proof (Hrf n) as Hrn. pose proof Hho as [Hn _]%Forall_cons. pose proof Hap as [Hni _]%NoDup_cons. cbn [snd] in Hn.
  assert (ca_refs c n <= Z.of_nat NPROC + 1) as Hrn' by (case_decide; lia).
  destruct (set_data_refines s p d _ b n f Hr) as (s1 & E1 & F1 & R1); [by left|by rewrite holds_val|].
  unfold set_data. kstep E1. pose proof (bio_frame_log _ _ F1) as El1. rewrite holds_val in R1.
  destruct (log_write_ok s1 p d _ start size bl b n R1) as (s2 & E2 & R2 & Hlog2 & Ho2 & _ & F2).
  { by eapply log_hdr_log. }
  { by left. }
  { eapply Forall_impl; [exact Hpin|]. by intros x [[? _] _]. }
  { apply Hn. }
  { cbn [c_set ca_refs]. cbn [c_holds foldr c_hold c_refs ca_refs fst snd]. fold (c_holds hs c).
    rewrite fset_eq, holds_refs_out by done. unfold NPROC in *. lia. }
  { by rewrite El1. }
  { lia. }
  { lia. }
  exists s2. split_and!; [exact E2|by rewrite (bio_log_frame _ _ F1), F2|].
  pose proof (logged_busy n (f (ca_val c n)) bl c ltac:(lia)). split.
  - eapply represents_proper; [|exact R2]. symmetry. apply holds_logged.
  - exact Hlog2.
  - by rewrite Ho2, El1.
  - by rewrite logged_held.
  - intros m Hm. rewrite logged_refs, Hfr by done. rewrite decide_False; [done|].
    intros [-> _]. destruct Hn. lia.
  - cbn [length]. lia.
  - by apply NoDup_log_added.
  - by apply logged_pinned.
  - by rewrite logged_disk.
  - intros m Hm Hni'. rewrite logged_val, logged_disk. rewrite elem_of_log_added in Hni'.
    rewrite fset_ne by tauto. apply Hcl; tauto.
  - by apply logged_refs_bound.
  - done.
  - done.
Qed.

(** Changing a held block, logging it and releasing it. *)
Lemma update_op hs s p d start size bl c b n f :
  op_with ((b, n) :: hs) s p d start size bl c -> room 1 (Z.of_nat (length hs)) size bl c ->
  length (f (ca_val c n)) = Z.to_nat BSIZE ->
  exists s', (set_data b f ;; log_write b ;; brelse b) s = Done tt s' /\ log_frame s s' /\
    op_with hs s' p d start size (log_added n bl) (c_logged n (f (ca_val c n)) bl c).
Proof.
  intros Hb Hroom Hf. destruct (change_op _ _ _ _ _ _ _ _ _ _ _ Hb Hroom Hf) as (s1 & E1 & F1 & Hop1).
  destruct (brelse_op _ _ _ _ _ _ _ _ _ _ Hop1) as (s2 & E2 & F2 & Hop2).
  exists s2. split_and!; [|by rewrite F1; apply bio_log_frame|done].
  by rewrite (kseq2_done _ _ _ _ _ E1).
Qed.

Lemma log_added_length n bl : (length bl <= length (log_added n bl) <= S (length bl))%nat.
Proof. unfold log_added. case_decide; [lia|]. rewrite length_app. cbn. lia. Qed.
Lemma room_logged k m size bl c n v :
  room (k + 1) m size bl c -> 0 <= ca_refs c n -> room k m size (log_added n bl) (c_logged n v bl c).
Proof.
  intros (H1 & H2 & H3) Hr. pose proof (logged_busy n v bl c Hr). pose proof (log_added_length n bl).
  split_and!; lia.
Qed.
Lemma room_logged_again k m size bl c n v :
  room k m size bl c -> n ∈ bl -> room k m size (log_added n bl) (c_logged n v bl c).
Proof. intros Hr Hn. unfold c_logged, c_pinned, log_added. by rewrite !decide_True. Qed.
Lemma room_le j k m m' size bl c : room k m size bl c -> j <= k -> m' + j <= m + k -> room j m' size bl c.
Proof. intros (H1 & H2 & H3) Hj Hm. split_and!; lia. Qed.
End Specs.
