(* ===== verification/FsInode.v ===== *)
(** * Inodes on disk (fs.c: iupdate, ilock).

    The encoding of [struct dinode] in a block, and the round trip of an inode
    through its block: what iupdate() writes, ilock() of an inode that is not
    in memory reads back. *)

From S2P Require Import Prelude Defs KMonad Lock Mem Kalloc Sched Sleeplock Bio Log Vm Uart Fs FsBlock.

(** ** The encoding *)

(** The fields fit the C types of [struct dinode]. *)
Definition int16 (x : Z) : Prop := - 2 ^ 15 <= x < 2 ^ 15.
Definition uint32 (x : Z) : Prop := 0 <= x < 2 ^ 32.
Record dinode_wf (d : dinode) : Prop := mk_dinode_wf {
  dw_type : int16 (d_type d);
  dw_major : int16 (d_major d);
  dw_minor : int16 (d_minor d);
  dw_nlink : int16 (d_nlink d);
  dw_size : uint32 (d_size d);
  dw_addrs : Forall uint32 (d_addrs d);
  dw_len : length (d_addrs d) = (Z.to_nat NDIRECT + 1)%nat
}.

Lemma i16_bytes x : int16 x -> i16 (le_val (le_bytes 2 x)) = x.
Proof.
  intros Hx. unfold int16 in Hx. rewrite le_val_bytes. change (256 ^ Z.of_nat 2) with (2 ^ 16).
  unfold i16. rewrite Z.add_mod_idemp_l by lia. rewrite Z.mod_small by lia. lia.
Qed.
Lemma u32_bytes x : uint32 x -> le_val (le_bytes 4 x) = x.
Proof. intros Hx. rewrite le_val_bytes. by apply Z.mod_small. Qed.

(** Reading [k] bytes inside and outside a patched range. *)
Lemma patch_read_in l o bs j k :
  (o + length bs <= length l)%nat -> (j + k <= length bs)%nat ->
  take k (drop (o + j) (patch l o bs)) = take k (drop j bs).
Proof.
  intros Hl Hj. unfold patch. rewrite <- drop_drop, drop_app_length' by (rewrite length_take; lia).
  rewrite drop_app_le by lia. rewrite take_app_le; [done|rewrite length_drop; lia].
Qed.
Lemma patch_read_out l o bs j k :
  (o + length bs <= length l)%nat -> (j + k <= o \/ o + length bs <= j)%nat ->
  take k (drop j (patch l o bs)) = take k (drop j l).
Proof.
  intros Hl Hd. apply list_eq. intros i.
  destruct (decide (i < k)%nat); [|by rewrite !lookup_take_ge by lia].
  rewrite !lookup_take_lt, !lookup_drop by lia. rewrite patch_lookup, decide_False by lia. done.
Qed.

Lemma concat_read (l : list Z) k x :
  l !! k = Some x -> take 4 (drop (4 * k) (concat (le_bytes 4 <$> l))) = le_bytes 4 x.
Proof.
  revert k. induction l as [|y l IH]; intros [|k] Hk; simplify_eq/=; [done|].
  replace (k + S (k + S (k + S (k + 0))))%nat with (3 + 4 * k)%nat by lia.
  cbn [drop Nat.add]. by apply IH.
Qed.

Lemma length_dinode_bytes d : length (d_addrs d) = (Z.to_nat NDIRECT + 1)%nat -> length (dinode_bytes d) = 64%nat.
Proof.
  intros Hl. assert (length (concat (le_bytes 4 <$> d_addrs d)) = 4 * length (d_addrs d))%nat as E.
  { clear. induction (d_addrs d) as [|x l IH]; [done|]. cbn [fmap list_fmap concat length].
    rewrite length_app, length_le_bytes, IH. lia. }
  unfold dinode_bytes. rewrite !length_app, !length_le_bytes, E, Hl. reflexivity.
Qed.

(** [get_dinode] reads 64 bytes. *)
Lemma get_dinode_ext data data' o o' :
  (forall j k, (j + k <= 64)%nat -> take k (drop (o + j) data) = take k (drop (o' + j) data')) ->
  get_dinode data o = get_dinode data' o'.
Proof.
  intros Hr. unfold get_dinode, rd16, rd32.
  assert (take 2 (drop o data) = take 2 (drop o' data')) as ->.
  { rewrite <- (Nat.add_0_r o), <- (Nat.add_0_r o'). apply Hr. lia. }
  rewrite !(Hr _ 2%nat), (Hr 8%nat 4%nat) by lia. f_equal.
  apply list_fmap_ext. intros i k [-> Hk]%lookup_seq. rewrite <- !Nat.add_assoc.
  rewrite Hr; [done|]. change (Z.to_nat NDIRECT + 1)%nat with 13%nat in Hk. lia.
Qed.

Lemma get_dinode_bytes d : dinode_wf d -> get_dinode (dinode_bytes d) 0 = d.
Proof.
  intros [H1 H2 H3 H4 H5 H6 Hl]. destruct d as [ty ma mi nl sz addrs]. cbn [d_type d_major d_minor d_nlink d_size d_addrs] in *.
  unfold get_dinode, rd16, rd32.
  change (take 2 (drop 0 _)) with (le_bytes 2 ty). change (take 2 (drop (0 + 2) _)) with (le_bytes 2 ma).
  change (take 2 (drop (0 + 4) _)) with (le_bytes 2 mi). change (take 2 (drop (0 + 6) _)) with (le_bytes 2 nl).
  change (take 4 (drop (0 + 8) _)) with (le_bytes 4 sz).
  rewrite !i16_bytes, u32_bytes by done. f_equal.
  apply list_eq. intros i. rewrite list_lookup_fmap. destruct (decide (i < 13)%nat) as [Hi|Hi].
  - rewrite lookup_seq_lt by (change (Z.to_nat NDIRECT + 1)%nat with 13%nat; lia). cbn [fmap option_fmap option_map].
    destruct (lookup_lt_is_Some_2 addrs i) as [x Hx]; [rewrite Hl; exact Hi|]. rewrite Hx. f_equal.
    rewrite !Nat.add_0_l. change (drop (12 + 4 * i) _) with (drop (4 * i) (concat (le_bytes 4 <$> addrs))).
    rewrite (concat_read _ _ _ Hx). apply u32_bytes. by eapply Forall_lookup_1.
  - rewrite lookup_seq_ge by (change (Z.to_nat NDIRECT + 1)%nat with 13%nat; lia).
    symmetry. apply lookup_ge_None. rewrite Hl. change (Z.to_nat NDIRECT + 1)%nat with 13%nat. lia.
Qed.

(** Writing an inode and reading that slot gives it back; the other slots of
    the block are as before. *)
Lemma get_put_dinode d o o' data :
  dinode_wf d -> (o + 64 <= length data)%nat ->
  get_dinode (put_dinode d o data) o = d /\
  ((o' + 64 <= o \/ o + 64 <= o')%nat -> get_dinode (put_dinode d o data) o' = get_dinode data o').
Proof.
  intros Hd Hl. pose proof (length_dinode_bytes d (dw_len _ Hd)) as Hb. split.
  - rewrite <- (get_dinode_bytes d Hd) at 2. apply get_dinode_ext. intros j k Hjk. rewrite Nat.add_0_l.
    apply patch_read_in; rewrite Hb; lia.
  - intros Hd'. apply get_dinode_ext. intros j k Hjk. apply patch_read_out; rewrite Hb; lia.
Qed.

Lemma dinode_off_bound inum : (dinode_off inum + 64 <= Z.to_nat BSIZE)%nat.
Proof. unfold dinode_off, DINODE_SIZE, IPB, BSIZE, DINODE_SIZE. dlia. Qed.
Lemma dinode_off_apart i j :
  0 <= i -> 0 <= j -> i / IPB = j / IPB -> i <> j ->
  (dinode_off j + 64 <= dinode_off i \/ dinode_off i + 64 <= dinode_off j)%nat.
Proof. unfold dinode_off, DINODE_SIZE, IPB, BSIZE, DINODE_SIZE. intros. dlia. Qed.

(** ** iupdate and ilock *)

Lemma inode_of_ok s ip i : ks_itable s !! ip = Some i -> inode_of ip s = Done i s.
Proof. intros Hi. unfold inode_of. rewrite kbind_get. by apply deref_some. Qed.
Lemma set_inode_ok s ip i f :
  ks_itable s !! ip = Some i -> set_inode ip f s = Done tt (s <| ks_itable ::= alter f ip |>).
Proof. intros Hi. unfold set_inode. by kstep inode_of_ok. Qed.

Lemma same_itable s f : same_cache s (s <| ks_itable ::= f |>).
Proof. by split. Qed.
Lemma same_slept_in s ip pid : same_cache s (slept_in (SL_inode ip) pid s).
Proof. split; try done. intros b. cbn. by rewrite lookup_alter_ne. Qed.

(** The in-memory inode [i] with the disk fields of [d]. *)
Definition loaded (d : dinode) (i : inode) : inode :=
  i <| i_type := d_type d |> <| i_major := d_major d |> <| i_minor := d_minor d |>
    <| i_nlink := d_nlink d |> <| i_size := d_size d |> <| i_addrs := d_addrs d |> <| i_valid := 1 |>.

Section Specs.
Context `{Fuel, BlockDevice, KernelImage, Uart}.

(** The block of inode [i]. *)
Definition iblock (s : kstate) (i : inode) : Z := IBLOCK (i_inum i) (ks_sb s).

Lemma iupdate_run s p d start size bl c ip i :
  in_op s p d start size bl c -> room 1 0 size bl c -> ks_itable s !! ip = Some i -> i_dev i = d ->
  dinode_wf (to_dinode i) -> home start size (iblock s i) ->
  let n := iblock s i in
  exists s', iupdate ip s = Done tt s' /\ log_frame s s' /\
    in_op s' p d start size (log_added n bl)
      (c_logged n (put_dinode (to_dinode i) (dinode_off (i_inum i)) (ca_val c n)) bl c).
Proof.
  intros Hop Hroom Hi Hd Hwf Hn n. unfold iupdate, sb_of. rewrite kbind_get. kstep inode_of_ok; [|done].
  rewrite Hd. destruct (bread_op [] s p d start size bl c n Hop Hn) as (b & s1 & E1 & F1 & Hb);
    [apply not_elem_of_nil|apply (io_busy _ _ _ _ _ _ _ _ Hop)|].
  change (IBLOCK (i_inum i) (ks_sb s)) with n. kstep E1.
  destruct (holding_buf _ _ _ _ _ _ _ _ _ _ Hb) as (_ & _ & _ & Hlen).
  destruct (update_op [] s1 p d start size bl c b n (put_dinode (to_dinode i) (dinode_off (i_inum i))) Hb Hroom)
    as (s2 & E2 & F2 & Hop2).
  - unfold put_dinode. rewrite length_patch; [done|].
    rewrite (length_dinode_bytes _ (dw_len _ Hwf)), Hlen. apply dinode_off_bound.
  - exists s2. split_and!; [exact E2|by rewrite (bio_log_frame _ _ F1)|done].
Qed.

(** ilock() of an inode that is not in memory. *)
Lemma ilock_loads s p d start size bl c ip i l :
  in_op s p d start size bl c -> ks_itable s !! ip = Some i -> i_dev i = d -> 1 <= i_ref i -> i_valid i = 0 ->
  (ip < NINODE)%nat -> ks_slocks s !! SL_inode ip = Some l -> sl_locked l = 0 ->
  home start size (iblock s i) ->
  let di := get_dinode (ca_val c (iblock s i)) (dinode_off (i_inum i)) in
  d_type di <> 0 ->
  exists s', ilock (Some ip) s = Done tt s' /\ in_op s' p d start size bl c /\
    ks_itable s' = <[ip := loaded di i]> (ks_itable s).
Proof.
  intros Hop Hi Hd Href Hval Hlt Hl Hfree Hn di Hty. unfold ilock. kstep inode_of_ok; [|done].
  rewrite (proj2 (Z.ltb_ge _ _)) by lia.
  pose proof (bo_quiet _ _ _ _ (rp_ok _ _ _ _ (io_rep _ _ _ _ _ _ _ _ Hop))) as Hq.
  kstep (acquiresleep_ok (SL_inode ip) s p l); [|done|by apply Nat.ltb_lt|done|done].
  set (s1 := slept_in (SL_inode ip) (mypid s p) s).
  assert (in_op s1 p d start size bl c) as Hop1 by (eapply op_same; [apply same_slept_in|done]).
  kstep inode_of_ok; [|done]. rewrite Hval. cbn [Z.eqb when]. unfold sb_of. rewrite kbind_get, Hd.
  destruct (bread_op [] s1 p d start size bl c (iblock s i) Hop1 Hn) as (b & s2 & E2 & F2 & Hb2);
    [apply not_elem_of_nil|apply (io_busy _ _ _ _ _ _ _ _ Hop)|].
  change (IBLOCK (i_inum i) (ks_sb s1)) with (iblock s i). kstep E2.
  destruct (holding_buf _ _ _ _ _ _ _ _ _ _ Hb2) as (bf & Hbf & Hdata & _). kstep buf_of_ok; [|done].
  rewrite Hdata. fold di.
  assert (ks_itable s2 = ks_itable s) as Ei by (by rewrite F2).
  kstep set_inode_ok; [|by rewrite Ei]. eapply op_same in Hb2; [|eapply same_itable].
  destruct (brelse_op _ _ _ _ _ _ _ _ _ _ Hb2) as (s3 & E3 & F3 & Hop3). kstep E3.
  set (g := fun x : inode => _) in E3, F3, Hop3, Hb2.
  assert (ks_itable s3 = alter g ip (ks_itable s)) as Ei3 by (rewrite F3; cbn; by rewrite Ei).
  kstep set_inode_ok; [|rewrite Ei3, list_lookup_alter_eq, Hi; reflexivity].
  kstep inode_of_ok.
  2: { cbn. rewrite list_lookup_alter_eq, Ei3, list_lookup_alter_eq, Hi. reflexivity. }
  change (i_type _) with (d_type di). rewrite (proj2 (Z.eqb_neq _ _)) by done.
  eexists. split_and!; [reflexivity|eapply op_same; [apply same_itable|exact Hop3]|].
  cbn. rewrite Ei3, list_alter_alter_eq. by erewrite list_alter_insert_at.
Qed.

(** C18: the round trip of an inode through the disk.  In a transaction
    iupdate() logs the inode's block with the inode in its slot, every other
    inode of the block and every other block as they were; and whenever that
    block has those contents, ilock() of an entry for the same inode that is
    not in memory loads exactly the type, device numbers, link count, size and
    addresses that were written. *)
Theorem iupdate_ilock s p d start size bl c ip i :
  in_op s p d start size bl c -> room 1 0 size bl c -> ks_itable s !! ip = Some i -> i_dev i = d ->
  0 <= i_inum i -> i_type i <> 0 -> dinode_wf (to_dinode i) -> home start size (iblock s i) ->
  let n := iblock s i in
  exists s' c', iupdate ip s = Done tt s' /\ log_frame s s' /\
    in_op s' p d start size (log_added n bl) c' /\
    (forall m, m <> n -> ca_val c' m = ca_val c m) /\
    (forall j, 0 <= j -> j / IPB = i_inum i / IPB -> j <> i_inum i ->
       get_dinode (ca_val c' n) (dinode_off j) = get_dinode (ca_val c n) (dinode_off j)) /\
    (forall s2 bl2 c2 ip2 i2 l,
       in_op s2 p d start size bl2 c2 -> ca_val c2 n = ca_val c' n -> ks_sb s2 = ks_sb s ->
       ks_itable s2 !! ip2 = Some i2 -> i_dev i2 = d -> i_inum i2 = i_inum i -> 1 <= i_ref i2 ->
       i_valid i2 = 0 -> (ip2 < NINODE)%nat -> ks_slocks s2 !! SL_inode ip2 = Some l -> sl_locked l = 0 ->
       exists s3, ilock (Some ip2) s2 = Done tt s3 /\ in_op s3 p d start size bl2 c2 /\
         ks_itable s3 = <[ip2 := loaded (to_dinode i) i2]> (ks_itable s2)).
Proof.
  intros Hop Hroom Hi Hd Hnum Hty Hwf Hn n.
  destruct (iupdate_run s p d start size bl c ip i Hop Hroom Hi Hd Hwf Hn) as (s' & E & F & Hop').
  pose proof (op_val_length _ _ _ _ _ _ _ _ n Hop) as Hlen.
  pose proof (dinode_off_bound (i_inum i)) as Hoff. rewrite <- Hlen in Hoff.
  eexists s', _. split_and!; [exact E|exact F|exact Hop'|..]; fold n.
  - intros m Hm. rewrite logged_val. by apply fset_ne.
  - intros j Hj Hblk Hne. rewrite logged_val, fset_eq.
    apply (get_put_dinode (to_dinode i) _ (dinode_off j) (ca_val c n) Hwf Hoff).
    by apply dinode_off_apart.
  - intros s2 bl2 c2 ip2 i2 l Hop2 Hv Hsb Hi2 Hd2 Hin2 Hr2 Hv2 Hlt Hl Hl0.
    rewrite logged_val, fset_eq in Hv.
    assert (iblock s2 i2 = n) as En by (unfold iblock; by rewrite Hsb, Hin2).
    pose proof (proj1 (get_put_dinode (to_dinode i) _ 0 (ca_val c n) Hwf Hoff)) as Eg. rewrite <- Hv in Eg.
    destruct (ilock_loads s2 p d start size bl2 c2 ip2 i2 l Hop2 Hi2 Hd2 Hr2 Hv2 Hlt Hl Hl0) as (s3 & E3 & Hop3 & Ei).
    + by rewrite En.
    + rewrite En, Hin2, Eg. exact Hty.
    + exists s3. split_and!; [done|done|]. rewrite Ei, En, Hin2, Eg. done.
Qed.
End Specs.
