(* ===== verification/FsAlloc.v ===== *)
(** * The block allocator (fs.c: balloc, bfree, bzero).

    A block is free when its bit in the bitmap is clear.  balloc() takes the
    lowest free block and bfree() gives one back. *)

From S2P Require Import Prelude Defs KMonad Lock Mem Kalloc Sched Sleeplock Bio Log Vm Uart Fs FsBlock.

(** ** Bits of the bitmap *)

Lemma land_bit x k : 0 <= k -> negb (Z.land x (Z.shiftl 1 k) =? 0) = Z.testbit x k.
Proof.
  intros Hk. rewrite Z.shiftl_1_l. destruct (Z.testbit x k) eqn:E.
  - apply negb_true_iff, Z.eqb_neq. intros H. apply (f_equal (fun y => Z.testbit y k)) in H.
    rewrite Z.land_spec, E, Z.pow2_bits_true, Z.bits_0 in H by done. done.
  - apply negb_false_iff, Z.eqb_eq. apply Z.bits_inj'. intros j Hj. rewrite Z.land_spec, Z.bits_0.
    destruct (decide (j = k)) as [->|Hne]; [by rewrite E|]. rewrite Z.pow2_bits_false by lia. apply andb_false_r.
Qed.

Lemma bit_at_spec data bi :
  bit_at data bi = Z.testbit (default 0 (data !! Z.to_nat (bi / 8))) (bi `mod` 8).
Proof. unfold bit_at. apply land_bit. dlia. Qed.

Lemma same_byte bi bj : 0 <= bi -> 0 <= bj -> Z.to_nat (bi / 8) = Z.to_nat (bj / 8) -> bi `mod` 8 = bj `mod` 8 -> bi = bj.
Proof. intros. dlia. Qed.

Lemma bit_at_set data bi bj :
  0 <= bi -> 0 <= bj -> (Z.to_nat (bi / 8) < length data)%nat ->
  bit_at (set_bit bi data) bj = bool_decide (bi = bj) || bit_at data bj.
Proof.
  intros Hi Hj Hl. rewrite !bit_at_spec. unfold set_bit.
  destruct (decide (Z.to_nat (bi / 8) = Z.to_nat (bj / 8))) as [E|E].
  - rewrite <- E. rewrite list_lookup_alter_eq. destruct (lookup_lt_is_Some_2 _ _ Hl) as [x ->]. cbn.
    rewrite Z.lor_spec, Z.shiftl_1_l, orb_comm. f_equal. case_bool_decide as Hb.
    + subst. apply Z.pow2_bits_true. dlia.
    + apply Z.pow2_bits_false. intros Hm. apply Hb. by apply same_byte.
  - rewrite list_lookup_alter_ne by done. rewrite bool_decide_eq_false_2; [done|by intros ->].
Qed.

Lemma bit_at_clear data bi bj :
  0 <= bi -> 0 <= bj -> (Z.to_nat (bi / 8) < length data)%nat ->
  bit_at (clear_bit bi data) bj = negb (bool_decide (bi = bj)) && bit_at data bj.
Proof.
  intros Hi Hj Hl. rewrite !bit_at_spec. unfold clear_bit.
  destruct (decide (Z.to_nat (bi / 8) = Z.to_nat (bj / 8))) as [E|E].
  - rewrite <- E. rewrite list_lookup_alter_eq. destruct (lookup_lt_is_Some_2 _ _ Hl) as [x ->]. cbn.
    unfold u8. rewrite Z.mod_pow2_bits_low by dlia. rewrite Z.land_spec, Z.shiftl_1_l, Z.lnot_spec, andb_comm by dlia.
    f_equal. f_equal. case_bool_decide as Hb.
    + subst. apply Z.pow2_bits_true. dlia.
    + apply Z.pow2_bits_false. intros Hm. apply Hb. by apply same_byte.
  - rewrite list_lookup_alter_ne by done. rewrite bool_decide_eq_false_2; [done|by intros ->].
Qed.

Lemma length_set_bit bi data : length (set_bit bi data) = length data.
Proof. apply length_alter. Qed.
Lemma length_clear_bit bi data : length (clear_bit bi data) = length data.
Proof. apply length_alter. Qed.

(** ** Free blocks *)

Definition blk_free (sb : superblock) (c : cache) (b : Z) : Prop :=
  bit_at (ca_val c (BBLOCK b sb)) (b `mod` BPB) = false.
#[global] Instance blk_free_dec sb c b : Decision (blk_free sb c b).
Proof. unfold blk_free. apply _. Defined.

(** The bitmap and the free blocks lie outside the log, and the bitmap marks its
    own blocks as used. *)
Definition layout_ok (sb : superblock) (c : cache) (start size : Z) : Prop :=
  0 <= sb_size sb < 2 ^ 31 /\ 0 <= sb_bmapstart sb < 2 ^ 31 /\
  forall b, 0 <= b < sb_size sb -> home start size (BBLOCK b sb) /\
    (blk_free sb c b -> home start size b /\ forall b', 0 <= b' < sb_size sb -> BBLOCK b' sb <> b).

(** The blocks held are in use and not of the bitmap. *)
Definition held_used (sb : superblock) (c : cache) (hs : list (nat * Z)) : Prop :=
  Forall (fun h => ~ blk_free sb c h.2 /\ forall b, 0 <= b < sb_size sb -> BBLOCK b sb <> h.2) hs.

Lemma held_used_bitmap sb c hs b : held_used sb c hs -> 0 <= b < sb_size sb -> BBLOCK b sb ∉ hs.*2.
Proof.
  intros Hu Hb ([x n] & E & Hin)%list_elem_of_fmap. unfold held_used in Hu. rewrite Forall_forall in Hu.
  by apply (proj2 (Hu _ Hin) b Hb).
Qed.
Lemma held_used_free sb c hs b : held_used sb c hs -> blk_free sb c b -> b ∉ hs.*2.
Proof.
  intros Hu Hb ([x n] & -> & Hin)%list_elem_of_fmap. unfold held_used in Hu. rewrite Forall_forall in Hu.
  by apply (proj1 (Hu _ Hin)).
Qed.

(** Either every block below [n] is used or there is a lowest free one. *)
Lemma lowest_free sb c (n : nat) :
  (forall b, 0 <= b < Z.of_nat n -> ~ blk_free sb c b) \/
  exists b, 0 <= b < Z.of_nat n /\ blk_free sb c b /\ forall b', 0 <= b' < b -> ~ blk_free sb c b'.
Proof.
  induction n as [|n [IH|(b & Hb & Hf & Hl)]]; [left; lia| |right; exists b; split_and!; [lia|lia|done|done]].
  destruct (decide (blk_free sb c (Z.of_nat n))) as [Hf|Hf].
  - right. exists (Z.of_nat n). split_and!; [lia|lia|done|done].
  - left. intros b Hb. destruct (decide (b = Z.of_nat n)) as [->|]; [done|]. apply IH. lia.
Qed.

Lemma BBLOCK_same b b' sb : b / BPB = b' / BPB -> BBLOCK b sb = BBLOCK b' sb.
Proof. intros E. unfold BBLOCK. by rewrite E. Qed.

Lemma BBLOCK_inj b b' sb c start size :
  layout_ok sb c start size -> 0 <= b < sb_size sb -> 0 <= b' < sb_size sb ->
  BBLOCK b sb = BBLOCK b' sb -> b / BPB = b' / BPB.
Proof.
  intros (Hs & Hm & _) Hb Hb'. unfold BBLOCK.
  rewrite !u32_small; [lia|unfold BPB, BSIZE; dlia|unfold BPB, BSIZE; dlia].
Qed.

Section Specs.
Context `{Fuel, BlockDevice, KernelImage, UartReady}.
(** The buffers the caller holds. *)
Context (hs : list (nat * Z)).
#[local] Notation spare c := (ca_busy c + Z.of_nat (length hs) < Z.of_nat NBUF).

(** ** The scan of one bitmap block *)

Lemma scan_step bp b size s bf bi :
  ks_bufs s !! bp = Some bf -> 0 <= bi < BPB -> b + bi < size ->
  (fun bi => if negb ((bi <? BPB) && (b + bi <? size)) then ret (inr None) else
    let! bf := buf_of bp in
    if negb (bit_at (b_data bf) bi) then ret (inr (Some bi)) else ret (inl (bi + 1))) bi s
  = Done (if bit_at (b_data bf) bi then inl (bi + 1) else inr (Some bi)) s.
Proof.
  intros Hb Hi Hs. cbv beta. rewrite !(proj2 (Z.ltb_lt _ _)) by lia. cbn [andb negb].
  kstep buf_of_ok; [|done]. by destruct (bit_at _ bi).
Qed.

Lemma scan_found bp b size s bf t :
  ks_bufs s !! bp = Some bf -> 0 <= t < BPB -> b + t < size -> bit_at (b_data bf) t = false ->
  (forall i, 0 <= i < t -> bit_at (b_data bf) i = true) ->
  balloc_scan bp b size s = Done (Some t) s.
Proof.
  intros Hb Ht Hs Hf Hlow. unfold balloc_scan.
  match goal with |- loop _ ?f _ _ = _ => enough (forall n i, (0 <= i <= t) -> t - i < Z.of_nat n ->
    loop n f i s = Done (Some t) s) as Hw; [apply Hw; lia|] end.
  induction n as [|n IH]; intros i Hi Hn; [lia|].
  destruct (decide (i = t)) as [->|Hne].
  - erewrite loop_done; [reflexivity|]. etransitivity; [apply (scan_step bp b size s bf); [done|lia|lia]|].
    by rewrite Hf.
  - rewrite (loop_next _ _ _ _ (i + 1) s); [apply IH; lia|].
    etransitivity; [apply (scan_step bp b size s bf); [done|lia|lia]|].
    by rewrite Hlow by lia.
Qed.

Lemma bitmap_full bp b size s bf :
  ks_bufs s !! bp = Some bf ->
  (forall i, 0 <= i < BPB -> b + i < size -> bit_at (b_data bf) i = true) ->
  balloc_scan bp b size s = Done None s.
Proof.
  intros Hb Hall. unfold balloc_scan.
  match goal with |- loop _ ?f _ _ = _ => enough (forall n i, (0 <= i <= BPB) -> BPB - i < Z.of_nat n ->
    loop n f i s = Done None s) as Hw; [apply Hw; unfold BPB, BSIZE; lia|] end.
  induction n as [|n IH]; intros i Hi Hn; [lia|].
  destruct (decide (i < BPB /\ b + i < size)) as [[Hx1 Hx2]|Hout].
  - rewrite (loop_next _ _ _ _ (i + 1) s); [apply IH; lia|]. etransitivity; [apply (scan_step bp b size s bf); [done|lia|lia]|].
    by rewrite Hall by lia.
  - erewrite loop_done; [reflexivity|]. destruct (Z.ltb_spec i BPB), (Z.ltb_spec (b + i) size); try done. lia.
Qed.

(** ** balloc *)

Definition no_blocks : list Z := str "balloc: out of blocks
".

(** One round of the loop on the bitmap block of [b]. *)
Definition balloc_body (dev : Z) (sb : superblock) (b : Z) : K (Z + Z) :=
  if negb (b <? sb_size sb) then
    printf no_blocks [] ;;
    ret (inr 0)
  else
    let! bp := bread dev (BBLOCK b sb) in
    let! r := balloc_scan bp b (sb_size sb) in
    match r with
    | Some bi =>
      set_data bp (set_bit bi) ;;
      log_write bp ;;
      brelse bp ;;
      bzero dev (b + bi) ;;
      ret (inr (b + bi))
    | None => brelse bp ;; ret (inl (b + BPB))
    end.

Lemma balloc_eq dev s :
  balloc dev s = loop (S (Z.to_nat (sb_size (ks_sb s) / BPB + 1))) (balloc_body dev (ks_sb s)) 0 s.
Proof. reflexivity. Qed.

Lemma used_bits sb c k i :
  0 <= k -> 0 <= i < BPB -> ~ blk_free sb c (k * BPB + i) ->
  bit_at (ca_val c (BBLOCK (k * BPB) sb)) i = true.
Proof.
  intros Hk Hi Hu. apply not_false_iff_true. intros Hf. apply Hu. unfold blk_free.
  rewrite (BBLOCK_same _ (k * BPB)) by (unfold BPB, BSIZE in *; dlia).
  replace ((k * BPB + i) `mod` BPB) with i by (unfold BPB, BSIZE in *; dlia). done.
Qed.

(** A bitmap block without a free bit is passed over. *)
Lemma balloc_skip s p d start size bl c sb k :
  op_with hs s p d start size bl c -> layout_ok sb c start size -> held_used sb c hs -> spare c -> 0 <= k -> k * BPB < sb_size sb ->
  (forall b, k * BPB <= b < k * BPB + BPB -> b < sb_size sb -> ~ blk_free sb c b) ->
  exists s', balloc_body d sb (k * BPB) s = Done (inl ((k + 1) * BPB)) s' /\ bio_frame s s' /\
    op_with hs s' p d start size bl c.
Proof.
  intros Hop (_ & _ & Hlay) Hu Hsp Hk Hlt Hused. unfold balloc_body. rewrite (proj2 (Z.ltb_lt _ _)) by lia. cbn [negb].
  assert (0 <= k * BPB) by (unfold BPB, BSIZE; lia).
  destruct (bread_op hs s p d start size bl c (BBLOCK (k * BPB) sb) Hop) as (bp & s1 & E1 & F1 & Hb1);
    [apply (proj1 (Hlay (k * BPB) ltac:(lia)))|eapply held_used_bitmap; [done|lia]|done|].
  kstep E1. destruct (holding_buf _ _ _ _ _ _ _ _ _ _ Hb1) as (bf & Hbf & Hd & _).
  kstep (bitmap_full bp (k * BPB) (sb_size sb) s1 bf); [|done|].
  2: { intros i Hi Hs. rewrite Hd. apply used_bits; [lia|done|]. apply Hused; lia. }
  destruct (brelse_op _ _ _ _ _ _ _ _ _ _ Hb1) as (s2 & E2 & F2 & Hop2). kstep E2.
  exists s2. split_and!; [unfold ret; do 2 f_equal; lia|by rewrite F1|done].
Qed.

Lemma balloc_skips s p d start size bl c sb (q : nat) n :
  op_with hs s p d start size bl c -> layout_ok sb c start size -> held_used sb c hs -> spare c -> Z.of_nat q * BPB < sb_size sb + BPB ->
  (forall b, 0 <= b < Z.of_nat q * BPB -> b < sb_size sb -> ~ blk_free sb c b) ->
  exists s', loop (q + n) (balloc_body d sb) 0 s = loop n (balloc_body d sb) (Z.of_nat q * BPB) s' /\
    bio_frame s s' /\ op_with hs s' p d start size bl c.
Proof.
  revert n. induction q as [|q IH]; intros n Hop Hlay Hu Hsp Hlt Hused.
  { exists s. by split_and!. }
  assert (0 < BPB) by (unfold BPB, BSIZE; lia).
  destruct (IH (S n)) as (s1 & E1 & F1 & Hop1); [done..|nia|intros b Hb; apply Hused; nia|].
  destruct (balloc_skip s1 p d start size bl c sb (Z.of_nat q)) as (s2 & E2 & F2 & Hop2);
    [done..|lia|nia|intros b Hb; apply Hused; nia|].
  exists s2. rewrite <- Nat.add_succ_comm in E1. rewrite E1, (loop_next _ _ _ _ _ _ E2).
  split_and!; [f_equal; lia|by rewrite F1|done].
Qed.

(** The bit of the lowest free block is set and the block zeroed. *)
Lemma balloc_take s p d start size bl c sb b :
  op_with hs s p d start size bl c -> layout_ok sb c start size -> held_used sb c hs -> room 2 (Z.of_nat (length hs)) size bl c ->
  0 <= b < sb_size sb -> blk_free sb c b -> (forall b', 0 <= b' < b -> ~ blk_free sb c b') ->
  let n := BBLOCK b sb in
  exists s', balloc_body d sb (b / BPB * BPB) s = Done (inr b) s' /\ log_frame s s' /\
    op_with hs s' p d start size (log_added b (log_added n bl))
      (c_logged b (replicate (Z.to_nat BSIZE) 0) (log_added n bl)
        (c_logged n (set_bit (b `mod` BPB) (ca_val c n)) bl c)).
Proof.
  intros Hop Hlay Hu Hroom Hb Hf Hlow n. destruct (proj2 (proj2 Hlay) b Hb) as [Hhn Hhb]. destruct (Hhb Hf) as [Hh Hne].
  assert (b / BPB * BPB + b `mod` BPB = b /\ 0 <= b `mod` BPB < BPB /\ 0 <= b / BPB) as (Eb & Hm & Hq)
    by (unfold BPB, BSIZE; dlia).
  set (k := b / BPB) in *. set (t := b `mod` BPB) in *.
  assert (BBLOCK (k * BPB) sb = n) as En.
  { apply BBLOCK_same. fold k. unfold BPB, BSIZE. dlia. }
  unfold balloc_body. rewrite (proj2 (Z.ltb_lt _ _)) by lia. cbn [negb]. rewrite En.
  destruct (bread_op hs s p d start size bl c n Hop Hhn) as (bp & s1 & E1 & F1 & Hb1);
    [eapply held_used_bitmap; [done|lia]|destruct Hroom as (_ & _ & ?); lia|]. kstep E1.
  destruct (holding_buf _ _ _ _ _ _ _ _ _ _ Hb1) as (bf & Hbf & Hd & Hlen).
  kstep (scan_found bp (k * BPB) (sb_size sb) s1 bf t); [|done|lia|lia|rewrite Hd; exact Hf|].
  2: { intros i Hi. rewrite Hd, <- En. apply used_bits; [done|lia|]. apply Hlow. unfold BPB, BSIZE in *. lia. }
  destruct (update_op hs s1 p d start size bl c bp n (set_bit t) Hb1) as (s2 & E2 & F2 & Hop2).
  { eapply room_le; [done|lia|lia]. }
  { by rewrite length_set_bit. }
  rewrite (kseq3_done _ _ _ _ _ _ E2), Eb. unfold bzero. rewrite u32_small by (destruct Hh; lia).
  pose proof (room_logged 1 (Z.of_nat (length hs)) size bl c n (set_bit t (ca_val c n)) Hroom (proj1 (io_refs _ _ _ _ _ _ _ _ Hop n))) as Hroom2.
  destruct (bread_op hs s2 _ _ _ _ _ _ b Hop2 Hh) as (bz & s3 & E3 & F3 & Hb3);
    [by eapply held_used_free|destruct Hroom2 as (_ & _ & ?); lia|].
  erewrite kbind_assoc_done by exact E3.
  destruct (update_op hs s3 _ _ _ _ _ _ bz b (fun _ => replicate (Z.to_nat BSIZE) 0) Hb3) as (s4 & E4 & F4 & Hop4).
  { done. }
  { by rewrite length_replicate. }
  erewrite kbind_done by exact E4. exists s4. split_and!; [done|..|done].
  by rewrite (bio_log_frame _ _ F1), F2, (bio_log_frame _ _ F3).
Qed.

(** The bitmap after the bit of [b] has been given the value [v]. *)
Lemma blk_free_after sb c c' b data v b' :
  0 <= b -> 0 <= b' -> length (ca_val c (BBLOCK b sb)) = Z.to_nat BSIZE ->
  (forall m, m = BBLOCK b sb \/ m = BBLOCK b' sb -> ca_val c' m = fset (ca_val c) (BBLOCK b sb) data m) ->
  (forall i, 0 <= i < BPB -> bit_at data i = if bool_decide (b `mod` BPB = i) then v else bit_at (ca_val c (BBLOCK b sb)) i) ->
  (BBLOCK b sb = BBLOCK b' sb -> b / BPB = b' / BPB) ->
  blk_free sb c' b' <-> if decide (b' = b) then v = false else blk_free sb c b'.
Proof.
  intros Hb Hb' Hlen Hval Hbit Hinj. unfold blk_free. rewrite Hval by tauto.
  assert (0 <= b' `mod` BPB < BPB) as Hm by (unfold BPB, BSIZE; dlia).
  destruct (decide (BBLOCK b' sb = BBLOCK b sb)) as [E|E].
  - rewrite E, fset_eq, Hbit by done. symmetry in E. apply Hinj in E.
    destruct (decide (b' = b)) as [->|Hne]; [by rewrite bool_decide_eq_true_2|].
    rewrite bool_decide_eq_false_2; [done|]. intros Em. apply Hne. clear -Em E. unfold BPB, BSIZE in *. dlia.
  - rewrite fset_ne, decide_False by (done || by intros ->). done.
Qed.

(** No bitmap block has a clear bit below the size of the disk. *)
Lemma balloc_none s p d start size bl c :
  op_with hs s p d start size bl c -> layout_ok (ks_sb s) c start size -> held_used (ks_sb s) c hs -> spare c -> ks_panicked s = 0 ->
  (forall b, 0 <= b < sb_size (ks_sb s) -> ~ blk_free (ks_sb s) c b) ->
  exists s', balloc d s = Done 0 (sent no_blocks s') /\ bio_frame s s' /\ op_with hs s' p d start size bl c.
Proof.
  intros Hop Hlay Hu Hsp Hpan Hnone. pose proof Hlay as (Hsz & Hbm & Hl). rewrite balloc_eq. set (sb := ks_sb s) in *.
  (* the number of bitmap blocks *)
  set (q := Z.to_nat ((sb_size sb + BPB - 1) / BPB)).
  assert (Z.of_nat q * BPB < sb_size sb + BPB /\ sb_size sb <= Z.of_nat q * BPB) as [Hq1 Hq2]
    by (fold sb in Hsz; unfold q, BPB, BSIZE in *; dlia).
  assert (exists n, S (Z.to_nat (sb_size sb / BPB + 1)) = (q + S n)%nat) as [n En].
  { exists (Z.to_nat (sb_size sb / BPB + 1) - q)%nat. fold sb in Hsz. unfold q, BPB, BSIZE in *. dlia. }
  rewrite En. destruct (balloc_skips s p d start size bl c sb q (S n) Hop Hlay Hu Hsp Hq1) as (s' & E & F & Hop').
  { intros b Hb Hb'. apply Hnone; lia. }
  exists s'. rewrite E. split_and!; [|done|done]. apply loop_done. unfold balloc_body.
  rewrite (proj2 (Z.ltb_ge _ _)) by lia. cbn [negb].
  pose proof (bo_quiet _ _ _ _ (rp_ok _ _ _ _ (io_rep _ _ _ _ _ _ _ _ Hop'))) as Hq.
  kstep printf_plain; [reflexivity|apply (q_hart _ _ Hq)|by apply (q_locks _ _ Hq)|by rewrite F|].
  apply (bool_decide_unpack _). by vm_compute.
Qed.

(** [b] is the first free block. *)
Lemma balloc_found s p d start size bl c b :
  op_with hs s p d start size bl c -> layout_ok (ks_sb s) c start size -> held_used (ks_sb s) c hs -> room 2 (Z.of_nat (length hs)) size bl c ->
  let sb := ks_sb s in
  0 <= b < sb_size sb -> blk_free sb c b -> (forall b', 0 <= b' < b -> ~ blk_free sb c b') ->
  exists s' c', balloc d s = Done b s' /\ log_frame s s' /\
    op_with hs s' p d start size (log_added b (log_added (BBLOCK b sb) bl)) c' /\
    ca_val c' b = replicate (Z.to_nat BSIZE) 0 /\
    (forall b', 0 <= b' < sb_size sb -> blk_free sb c' b' <-> blk_free sb c b' /\ b' <> b) /\
    (forall m, m <> b -> m <> BBLOCK b sb -> ca_val c' m = ca_val c m) /\
    (forall k m, room (k + 2) m size bl c -> room k m size (log_added b (log_added (BBLOCK b sb) bl)) c').
Proof.
  intros Hop Hlay Hu Hroom sb Hb Hf Hlow. pose proof Hlay as (Hsz & Hbm & Hl). rewrite balloc_eq. fold sb.
  set (q := Z.to_nat (b / BPB)).
  assert (Z.of_nat q = b / BPB) as Eq by (unfold q, BPB, BSIZE in *; dlia).
  assert (exists n, S (Z.to_nat (sb_size sb / BPB + 1)) = (q + S n)%nat) as [n En].
  { exists (Z.to_nat (sb_size sb / BPB + 1) - q)%nat. unfold q, BPB, BSIZE in *. dlia. }
  rewrite En. destruct (balloc_skips s p d start size bl c sb q (S n) Hop Hlay Hu) as (s1 & E & F & Hop1).
  { destruct Hroom as (_ & _ & ?). lia. }
  { rewrite Eq. unfold BPB, BSIZE in *. dlia. }
  { intros b' Hb' _. apply Hlow. rewrite Eq in Hb'. unfold BPB, BSIZE in *. dlia. }
  rewrite E, Eq. destruct (balloc_take s1 p d start size bl c sb b Hop1 Hlay Hu Hroom Hb Hf Hlow) as (s2 & E2 & F2 & Hop2).
  destruct (proj2 (Hl b Hb) Hf) as [Hh Hne].
  eexists s2, _. split_and!; [by apply loop_done|by rewrite (bio_log_frame _ _ F)|exact Hop2|..].
  - rewrite logged_val. apply fset_eq.
  - intros b' Hb'. rewrite (blk_free_after sb c _ b (set_bit (b `mod` BPB) (ca_val c (BBLOCK b sb))) true).
    + case_decide; [|tauto]. subst. split; [done|tauto].
    + lia.
    + lia.
    + by eapply op_val_length.
    + intros m Hm. rewrite logged_val, fset_ne, logged_val; [done|]. destruct Hm as [->| ->]; by apply Hne.
    + intros i Hi. rewrite bit_at_set; [by case_bool_decide|unfold BPB, BSIZE; dlia|lia|].
      rewrite (op_val_length _ _ _ _ _ _ _ _ _ Hop).
      clear. unfold BPB, BSIZE. dlia.
    + by eapply BBLOCK_inj.
  - intros m Hm1 Hm2. by rewrite logged_val, fset_ne, logged_val, fset_ne.
  - intros k m Hk. pose proof (io_refs _ _ _ _ _ _ _ _ Hop) as Hrf.
    apply room_logged; [|rewrite logged_refs; specialize (Hrf b); destruct (decide (_ /\ _)); lia].
    apply room_logged; [|apply Hrf]. by replace (k + 1 + 1) with (k + 2) by lia.
Qed.

(** C5: balloc() on every branch.  It returns the lowest free block,
    and then exactly that block is no longer free, its contents are zero, no
    other block but its bitmap block has changed, and both are logged; with no
    free block it says so and returns 0 having changed nothing. *)
Theorem balloc_correct s p d start size bl c :
  op_with hs s p d start size bl c -> layout_ok (ks_sb s) c start size -> held_used (ks_sb s) c hs -> room 2 (Z.of_nat (length hs)) size bl c -> ks_panicked s = 0 ->
  let sb := ks_sb s in
  (exists b s' c', balloc d s = Done b s' /\ log_frame s s' /\ 0 <= b < sb_size sb /\ blk_free sb c b /\
     (forall b', 0 <= b' < b -> ~ blk_free sb c b') /\
     op_with hs s' p d start size (log_added b (log_added (BBLOCK b sb) bl)) c' /\
     ca_val c' b = replicate (Z.to_nat BSIZE) 0 /\
     (forall b', 0 <= b' < sb_size sb -> blk_free sb c' b' <-> blk_free sb c b' /\ b' <> b) /\
     (forall m, m <> b -> m <> BBLOCK b sb -> ca_val c' m = ca_val c m)) \/
  ((forall b, 0 <= b < sb_size sb -> ~ blk_free sb c b) /\
   exists s', balloc d s = Done 0 (sent no_blocks s') /\ bio_frame s s' /\ op_with hs s' p d start size bl c).
Proof.
  intros Hop Hlay Hu Hroom Hpan sb. pose proof Hlay as (Hsz & _).
  destruct (lowest_free sb c (Z.to_nat (sb_size sb))) as [Hnone|(b & Hb & Hf & Hlow)].
  - right. rewrite Z2Nat.id in Hnone by (fold sb in Hsz; lia). split; [exact Hnone|].
    apply (balloc_none s p d start size bl c); try done. destruct Hroom as (_ & _ & ?). lia.
  - left. rewrite Z2Nat.id in Hb by (fold sb in Hsz; lia).
    destruct (balloc_found s p d start size bl c b Hop Hlay Hu Hroom Hb Hf Hlow) as (s' & c' & E & F & Hop' & Hr).
    exists b, s', c'. destruct Hr as (Hz & Hfr & Hv & _), Hb. by split_and!.
Qed.

(** bfree() of a block in use. *)
Lemma bfree_used s p d start size bl c b :
  op_with hs s p d start size bl c -> layout_ok (ks_sb s) c start size -> held_used (ks_sb s) c hs ->
  room 1 (Z.of_nat (length hs)) size bl c -> 0 <= b < sb_size (ks_sb s) ->
  let sb := ks_sb s in
  ~ blk_free sb c b ->
  exists s' c', bfree d b s = Done tt s' /\ log_frame s s' /\
    op_with hs s' p d start size (log_added (BBLOCK b sb) bl) c' /\
    (forall b', 0 <= b' < sb_size sb -> blk_free sb c' b' <-> blk_free sb c b' \/ b' = b) /\
    (forall m, m <> BBLOCK b sb -> ca_val c' m = ca_val c m) /\
    (forall k m, room (k + 1) m size bl c -> room k m size (log_added (BBLOCK b sb) bl) c') /\
    (forall k m, room k m size bl c -> BBLOCK b sb ∈ bl -> room k m size (log_added (BBLOCK b sb) bl) c').
Proof.
  intros Hop Hlay Hu Hroom Hb sb Hf. unfold bfree, sb_of. rewrite kbind_get. fold sb.
  destruct (bread_op hs s p d start size bl c (BBLOCK b sb) Hop) as (bp & s1 & E1 & F1 & Hb1);
    [apply (proj1 (proj2 (proj2 Hlay) b Hb))|by eapply held_used_bitmap|destruct Hroom as (_ & _ & ?); lia|].
  kstep E1. destruct (holding_buf _ _ _ _ _ _ _ _ _ _ Hb1) as (bf & Hbf & Hd & Hlen). kstep buf_of_ok; [|done].
  rewrite Hd. apply not_false_is_true in Hf. rewrite Hf. cbn [negb].
  destruct (update_op hs s1 p d start size bl c bp (BBLOCK b sb) (clear_bit (b `mod` BPB)) Hb1 Hroom)
    as (s2 & E2 & F2 & Hop2); [by rewrite length_clear_bit|].
  eexists s2, _. split_and!; [exact E2|by rewrite (bio_log_frame _ _ F1)|exact Hop2|..].
  - intros b' Hb'.
    rewrite (blk_free_after sb c _ b (clear_bit (b `mod` BPB) (ca_val c (BBLOCK b sb))) false); [|lia|lia|done|..].
    + case_decide; tauto.
    + intros m _. apply logged_val.
    + intros i Hi. rewrite bit_at_clear; [by case_bool_decide|unfold BPB, BSIZE; dlia|lia|].
      rewrite Hlen. clear. unfold BPB, BSIZE. dlia.
    + by eapply BBLOCK_inj.
  - intros m Hm. by rewrite logged_val, fset_ne.
  - intros k m Hk. apply room_logged; [done|]. apply (io_refs _ _ _ _ _ _ _ _ Hop).
  - intros k m Hk Hin. by apply room_logged_again.
Qed.

(** bfree() of a free block. *)
Lemma bfree_free s p d start size bl c b :
  op_with hs s p d start size bl c -> layout_ok (ks_sb s) c start size -> held_used (ks_sb s) c hs -> spare c ->
  0 <= b < sb_size (ks_sb s) -> blk_free (ks_sb s) c b -> bfree d b s = Panic "freeing free block".
Proof.
  intros Hop Hlay Hu Hsp Hb Hf. unfold bfree, sb_of. rewrite kbind_get.
  destruct (bread_op hs s p d start size bl c (BBLOCK b (ks_sb s)) Hop) as (bp & s1 & E1 & F1 & Hb1);
    [apply (proj1 (proj2 (proj2 Hlay) b Hb))|by eapply held_used_bitmap|done|].
  kstep E1. destruct (holding_buf _ _ _ _ _ _ _ _ _ _ Hb1) as (bf & Hbf & Hd & Hlen). kstep buf_of_ok; [|done].
  rewrite Hd. unfold blk_free in Hf. by rewrite Hf.
Qed.

(** bfree() of an allocated block makes exactly that block free,
    logs its bitmap block and changes no other block; of a block that is free
    already it panics. *)
Theorem bfree_correct s p d start size bl c b :
  op_with hs s p d start size bl c -> layout_ok (ks_sb s) c start size -> held_used (ks_sb s) c hs -> room 1 (Z.of_nat (length hs)) size bl c ->
  0 <= b < sb_size (ks_sb s) ->
  let sb := ks_sb s in
  if decide (blk_free sb c b) then bfree d b s = Panic "freeing free block"
  else exists s' c', bfree d b s = Done tt s' /\ log_frame s s' /\
    op_with hs s' p d start size (log_added (BBLOCK b sb) bl) c' /\
    (forall b', 0 <= b' < sb_size sb -> blk_free sb c' b' <-> blk_free sb c b' \/ b' = b) /\
    (forall m, m <> BBLOCK b sb -> ca_val c' m = ca_val c m).
Proof.
  intros Hop Hlay Hu Hroom Hb sb. case_decide as Hf.
  - eapply bfree_free; try done. destruct Hroom as (_ & _ & ?). lia.
  - destruct (bfree_used s p d start size bl c b) as (s' & c' & E & F & Hop' & Hfr & Hv & _); [done..|].
    exists s', c'. by split_and!.
Qed.
End Specs.
