(* ===== verification/FsWitness.v ===== *)
(** * The theorems about the file system at a concrete machine.

    A disk of 64 blocks: the log is at block 2, the inodes at 32, the bitmap at
    45, and blocks 0 to 46 are in use.  Process 0 has entered an operation. *)

From S2P Require Import Prelude Defs KMonad Lock Mem Kalloc Sched Sleeplock Bio Machine Log Vm VmWitness Uart Fs FsBlock FsInode FsAlloc.

Definition bitmap : list Z := replicate 5 255 ++ 127 :: replicate (Z.to_nat BSIZE - 6) 0.
Definition small_disk : gmap Z (list Z) := {[45 := bitmap]}.
Definition small_sb : superblock := mk_superblock FSMAGIC 64 17 200 LOGSIZE 2 32 45.

(** Inode 1, a directory of two blocks, is in memory and about to be written. *)
Definition root_inode : inode :=
  mk_inode ROOTDEV 1 1 1 T_DIR 0 0 3 1040 ([47; 48] ++ replicate 11 0).

Definition mounted (s : kstate) : kstate :=
  s <| ks_log := log_init |> <| ks_sb := small_sb |> <| ks_itable ::= <[0%nat := root_inode]> |>.
Definition fs_machine : kstate := mounted (machine_with small_disk).

Lemma mounted_log s :
  log_hdr (mounted s) ROOTDEV 2 LOGSIZE [] /\ 1 <= log_outstanding (ks_log (mounted s)) /\
  ks_sb (mounted s) = small_sb.
Proof. split_and!; [by split|done|done]. Qed.

Lemma small_disk_blocks n : length (disk_at small_disk n) = Z.to_nat BSIZE.
Proof.
  unfold disk_at, small_disk. destruct (decide (n = 45)) as [->|Hne].
  - rewrite lookup_singleton_eq. by vm_compute.
  - rewrite lookup_singleton_ne by done. by vm_compute.
Qed.

Lemma same_fs s sb f : same_cache s (s <| ks_sb := sb |> <| ks_itable ::= f |>).
Proof. by split. Qed.

(** The machine started on a disk of whole blocks with an empty log. *)
Section Disk.
Context (D : gmap Z (list Z)).
Hypothesis Hblk : forall n, length (disk_at D n) = Z.to_nat BSIZE.
Hypothesis Hlog : hdr_n (disk_at D 2) = 0.

Lemma mounted_rep : represents (mounted (machine_with D)) 0 ROOTDEV (machine_cache D).
Proof.
  apply (represents_same ((machine_with D) <| ks_log := log_init |>)); [apply same_fs|].
  by apply represents_log, represents_abs, machine_bio_ok.
Qed.
Lemma mounted_refs n : ca_refs (machine_cache D) n = 0.
Proof. exact (proj1 (machine_refs D n)). Qed.
Lemma mounted_busy : ca_busy (machine_cache D) = 0.
Proof.
  change (Z.of_nat (nbusy (machine_with D)) = 0). by rewrite (proj2 (machine_refs D 0)).
Qed.
Lemma mounted_disk : ca_disk (machine_cache D) = D.
Proof. exact (machine_disk D). Qed.
Lemma mounted_val n : ca_val (machine_cache D) n = disk_at D n.
Proof. rewrite (val_unref _ _ _ _ n mounted_rep) by apply mounted_refs. by rewrite mounted_disk. Qed.

Lemma mounted_op : in_op (mounted (machine_with D)) 0 ROOTDEV 2 LOGSIZE [] (machine_cache D).
Proof.
  split.
  - apply mounted_rep.
  - apply mounted_log.
  - apply mounted_log.
  - done.
  - intros n _. apply mounted_refs.
  - rewrite mounted_busy. done.
  - constructor.
  - constructor.
  - by rewrite mounted_disk.
  - intros n _ _. by rewrite mounted_val, mounted_disk.
  - intros n. rewrite mounted_refs. rewrite decide_False by apply not_elem_of_nil. done.
  - constructor.
  - constructor.
Qed.
Lemma mounted_room k m : 0 <= k <= 8 -> 0 <= m <= 2 -> room k m LOGSIZE [] (machine_cache D).
Proof. intros Hk Hm. unfold room. rewrite mounted_busy. unfold LOGSIZE, MAXOPBLOCKS, NBUF. cbn. lia. Qed.
End Disk.

Lemma small_log : hdr_n (disk_at small_disk 2) = 0.
Proof. by vm_compute. Qed.
Lemma small_val n : ca_val (machine_cache small_disk) n = disk_at small_disk n.
Proof. apply mounted_val, small_disk_blocks. Qed.
Lemma fs_machine_op : in_op fs_machine 0 ROOTDEV 2 LOGSIZE [] (machine_cache small_disk).
Proof. apply mounted_op; [apply small_disk_blocks|apply small_log]. Qed.
Lemma fs_machine_room k : 0 <= k <= 8 -> room k 0 LOGSIZE [] (machine_cache small_disk).
Proof. intros Hk. by apply mounted_room. Qed.

Lemma small_BBLOCK b : 0 <= b < 64 -> BBLOCK b small_sb = 45.
Proof. intros Hb. unfold BBLOCK. rewrite Z.div_small; [done|unfold BPB, BSIZE; lia]. Qed.

Lemma small_free b : 0 <= b < 64 -> blk_free small_sb (machine_cache small_disk) b <-> 47 <= b.
Proof.
  intros Hb. unfold blk_free. rewrite small_BBLOCK, small_val by done.
  assert (forallb (fun b => Bool.eqb (bit_at (disk_at small_disk 45) (b `mod` BPB)) (b <? 47)) (seqZ 0 64) = true)
    as Hall by (vm_compute; reflexivity).
  rewrite forallb_forall in Hall. specialize (Hall b). rewrite <- list_elem_of_In, elem_of_seqZ in Hall.
  apply eqb_prop in Hall; [|lia]. rewrite Hall. rewrite Z.ltb_ge. done.
Qed.

Lemma small_layout : layout_ok (ks_sb fs_machine) (machine_cache small_disk) 2 LOGSIZE.
Proof.
  unfold fs_machine. rewrite (proj2 (proj2 (mounted_log _))). split_and!; try done.
  intros b Hb. change (sb_size small_sb) with 64 in *. split.
  - rewrite small_BBLOCK by done. unfold home, LOGSIZE, MAXOPBLOCKS. lia.
  - intros Hf%small_free; [|done]. split; [unfold home, LOGSIZE, MAXOPBLOCKS; lia|].
    intros b' Hb'. rewrite small_BBLOCK by done. lia.
Qed.

Lemma balloc_correct_witness :
  exists s', balloc ROOTDEV fs_machine = Done 47 s'.
Proof.
  destruct (balloc_correct [] fs_machine 0 ROOTDEV 2 LOGSIZE [] (machine_cache small_disk) fs_machine_op small_layout
    (Forall_nil_2 _) (fs_machine_room 2 ltac:(lia)) eq_refl) as [(b & s' & c' & E & _ & Hb & Hf & Hlow & _)|[Hno _]].
  - change (ks_sb fs_machine) with small_sb in *. change (sb_size small_sb) with 64 in *.
    exists s'. assert (b = 47) as <-; [|exact E]. apply small_free in Hf; [|done].
    destruct (decide (b = 47)) as [->|Hne]; [done|]. exfalso. apply (Hlow 47); [lia|]. apply small_free; lia.
  - exfalso. apply (Hno 47); [done|]. apply small_free; lia.
Defined.

Lemma bfree_correct_witness :
  (exists s', bfree ROOTDEV 46 fs_machine = Done tt s') /\
  bfree ROOTDEV 47 fs_machine = Panic "freeing free block".
Proof.
  split.
  - pose proof (bfree_correct [] fs_machine 0 ROOTDEV 2 LOGSIZE [] (machine_cache small_disk) 46 fs_machine_op
      small_layout (Forall_nil_2 _) (fs_machine_room 1 ltac:(lia)) ltac:(split; [discriminate|reflexivity])) as Hw.
    rewrite decide_False in Hw by (intros Hf%small_free; lia).
    destruct Hw as (s' & c' & E & _). exists s'. exact E.
  - pose proof (bfree_correct [] fs_machine 0 ROOTDEV 2 LOGSIZE [] (machine_cache small_disk) 47 fs_machine_op
      small_layout (Forall_nil_2 _) (fs_machine_room 1 ltac:(lia)) ltac:(split; [discriminate|reflexivity])) as Hw.
    rewrite decide_True in Hw by (apply small_free; lia). exact Hw.
Defined.

Lemma root_wf : dinode_wf (to_dinode root_inode).
Proof.
  split; try (split; [by vm_compute|by vm_compute]); [|reflexivity].
  apply (bool_decide_unpack _). by vm_compute.
Qed.

Lemma iupdate_ilock_witness :
  exists s', iupdate 0 fs_machine = Done tt s' /\ log_hdr s' ROOTDEV 2 LOGSIZE [32].
Proof.
  destruct (iupdate_ilock fs_machine 0 ROOTDEV 2 LOGSIZE [] (machine_cache small_disk) 0 root_inode fs_machine_op
    (fs_machine_room 1 ltac:(lia)) eq_refl eq_refl ltac:(done) ltac:(done) root_wf ltac:(split; [split; [discriminate|reflexivity]|right; discriminate]))
    as (s' & c' & E & _ & Hop & _).
  exists s'. split; [exact E|]. exact (io_log _ _ _ _ _ _ _ _ Hop).
Defined.
