(* ===== verification/FsFile.v ===== *)
(** * Files (fs.c: bmap, readi, writei).

    The bytes of a file are those of the blocks its inode names, directly or
    through the indirect block.  bmap() finds a block of a file and allocates
    it when there is none; readi() and writei() are built on it. *)

From S2P Require Import Prelude Defs KMonad Lock Mem Kalloc Sched Sleeplock Bio Log Vm UserMem Uart Fs FsBlock FsAlloc FsInode.

(** ** The blocks of an inode

    Slot [j] is [addrs[j]] for the direct blocks and the indirect block, and
    entry [j - NDIRECT - 1] of the indirect block from there on; 0 stands for
    no block. *)
Definition islot (c : cache) (i : inode) (j : Z) : Z :=
  if j <=? NDIRECT then default 0 (i_addrs i !! Z.to_nat j) else
  let a := default 0 (i_addrs i !! Z.to_nat NDIRECT) in
  if a =? 0 then 0 else rd32 (ca_val c a) (4 * Z.to_nat (j - NDIRECT - 1)).
(** The slot of block [k] of the file. *)
Definition slot_of (k : Z) : Z := if k <? NDIRECT then k else k + 1.

(** The contents of block [k] of the file, and the byte at offset [x]. *)
Definition iblk (c : cache) (i : inode) (k : Z) : option (list Z) :=
  let a := islot c i (slot_of k) in if a =? 0 then None else Some (ca_val c a).
Definition ibyte (c : cache) (i : inode) (x : Z) : Z :=
  default 0 (default [] (iblk c i (x / BSIZE)) !! Z.to_nat (x `mod` BSIZE)).
Definition ibytes (c : cache) (i : inode) (off : Z) (n : nat) : list Z :=
  ibyte c i <$> seqZ off (Z.of_nat n).
(** The file: as many bytes as its size says. *)
Definition idata (c : cache) (i : inode) : list Z := ibytes c i 0 (Z.to_nat (i_size i)).

(** Not a block of the bitmap. *)
Definition not_bitmap (sb : superblock) (a : Z) : Prop := forall b, 0 <= b < sb_size sb -> BBLOCK b sb <> a.

(** Block 0 is never free, so balloc() returning 0 means that nothing was
    free. *)
Definition alloc_ok (sb : superblock) (start size : Z) (c : cache) : Prop :=
  layout_ok sb c start size /\ 0 < sb_size sb /\ ~ blk_free sb c 0.

(** The blocks of an inode are in use, each for one slot, and there is one
    for every byte below the size. *)
Record inode_ok (sb : superblock) (start size : Z) (c : cache) (i : inode) : Prop := mk_inode_ok {
  ik_len : length (i_addrs i) = (Z.to_nat NDIRECT + 1)%nat;
  ik_blk j : 0 <= j <= MAXFILE -> islot c i j <> 0 ->
    home start size (islot c i j) /\ 0 <= islot c i j < sb_size sb /\ ~ blk_free sb c (islot c i j) /\ not_bitmap sb (islot c i j);
  ik_inj j j' : 0 <= j <= MAXFILE -> 0 <= j' <= MAXFILE -> islot c i j <> 0 -> islot c i j = islot c i j' -> j = j';
  ik_size : 0 <= i_size i <= MAXFILE * BSIZE;
  ik_full x : 0 <= x < i_size i -> islot c i (slot_of (x / BSIZE)) <> 0
}.

(** A block in use that belongs to something else. *)
Definition foreign (sb : superblock) (c : cache) (i : inode) (m : Z) : Prop :=
  ~ blk_free sb c m /\ not_bitmap sb m /\ forall j, 0 <= j <= MAXFILE -> islot c i j <> m.

(** Blocks are only taken, and what belongs to something else is not changed. *)
Record fgrows (sb : superblock) (c : cache) (i : inode) (c' : cache) (i' : inode) : Prop := mk_fgrows {
  fg_free b : 0 <= b < sb_size sb -> blk_free sb c' b -> blk_free sb c b;
  fg_foreign m : 0 < m < sb_size sb -> foreign sb c i m -> foreign sb c' i' m /\ ca_val c' m = ca_val c m
}.

Lemma fgrows_refl sb c i : fgrows sb c i c i.
Proof. by split. Qed.
Lemma fgrows_trans sb c1 i1 c2 i2 c3 i3 :
  fgrows sb c1 i1 c2 i2 -> fgrows sb c2 i2 c3 i3 -> fgrows sb c1 i1 c3 i3.
Proof.
  intros [H1 H2] [H3 H4]. split; [auto|]. intros m Hm Hf. destruct (H2 m Hm Hf) as [Hf' E].
  destruct (H4 m Hm Hf') as [Hf'' E']. split; [done|congruence].
Qed.

Lemma slot_of_range k : 0 <= k < MAXFILE -> 0 <= slot_of k <= MAXFILE /\ slot_of k <> NDIRECT.
Proof. unfold slot_of, MAXFILE, NDIRECT, NINDIRECT, BSIZE. intros Hk. destruct (Z.ltb_spec k 12); dlia. Qed.
Lemma slot_of_inj k k' : slot_of k = slot_of k' -> k = k'.
Proof. unfold slot_of, NDIRECT. destruct (Z.ltb_spec k 12), (Z.ltb_spec k' 12); lia. Qed.

Lemma alloc_ok_grows sb start size c c' :
  alloc_ok sb start size c -> (forall b, 0 <= b < sb_size sb -> blk_free sb c' b -> blk_free sb c b) ->
  alloc_ok sb start size c'.
Proof.
  intros ((H1 & H2 & H3) & Hs & H4) Hf. split; [split_and!; [lia..|]|split; [done|intros H0; apply H4, Hf; [lia|done]]].
  intros b Hb. destruct (H3 b Hb) as [Hh Hb']. split; [done|]. intros Hfr. by apply Hb', Hf.
Qed.

(** ** A slot that gets a new block *)
Section Fill.
Context (sb : superblock) (start size : Z) (c : cache) (i : inode) (c' : cache) (i' : inode) (j b : Z).
Hypotheses (Hall : alloc_ok sb start size c) (Hi : inode_ok sb start size c i).
Hypotheses (Hj : 0 <= j <= MAXFILE) (Hz : islot c i j = 0).
Hypotheses (Hb : 0 < b < sb_size sb) (Hfree : blk_free sb c b).
Hypothesis Hbits : forall x, 0 <= x < sb_size sb -> blk_free sb c' x <-> blk_free sb c x /\ x <> b.
Hypothesis Hslot : forall k, 0 <= k <= MAXFILE -> islot c' i' k = if decide (k = j) then b else islot c i k.
Hypothesis Hsame : i' = i <| i_addrs := i_addrs i' |>.
Hypothesis Hlen : length (i_addrs i') = length (i_addrs i).
Hypothesis Hval : forall m, 0 < m < sb_size sb -> m <> b -> not_bitmap sb m -> (NDIRECT < j -> m <> islot c i NDIRECT) -> ca_val c' m = ca_val c m.

Lemma fill_free_ok : home start size b /\ not_bitmap sb b.
Proof. destruct Hall as ((_ & _ & Hl) & _). apply (Hl b ltac:(lia)), Hfree. Qed.

Lemma fill_alloc_ok : alloc_ok sb start size c'.
Proof. apply (alloc_ok_grows _ _ _ c); [done|intros x Hx Hf; by apply (Hbits x Hx)]. Qed.

Lemma fill_inode_ok : inode_ok sb start size c' i'.
Proof.
  pose proof fill_free_ok as [Hh Hnb].
  assert (forall k, 0 <= k <= MAXFILE -> islot c i k <> 0 -> islot c i k <> b) as Hne.
  { intros k Hk Hnz E. destruct (ik_blk _ _ _ _ _ Hi k Hk Hnz) as (_ & _ & [] & _). by rewrite E. }
  split.
  - rewrite Hlen. apply Hi.
  - intros k Hk. rewrite Hslot by done. case_decide as E.
    + intros _. split_and!; [done|lia|lia| |done]. rewrite Hbits by lia. tauto.
    + intros Hnz. destruct (ik_blk _ _ _ _ _ Hi k Hk Hnz) as (H1 & H2 & H3 & H4).
      split_and!; [done|lia|lia| |done]. rewrite Hbits by lia. tauto.
  - intros k k' Hk Hk'. rewrite !Hslot by done. repeat case_decide; subst; try done.
    + intros _ E. exfalso. apply (Hne k' Hk'); [lia|done].
    + intros Hnz E. exfalso. by apply (Hne k Hk).
    + by apply (ik_inj _ _ _ _ _ Hi).
  - rewrite Hsame. apply (ik_size _ _ _ _ _ Hi).
  - intros x. rewrite Hsame. intros Hx. change (i_size _) with (i_size i) in Hx. rewrite <- Hsame.
    pose proof (ik_full _ _ _ _ _ Hi x Hx). pose proof (ik_size _ _ _ _ _ Hi).
    rewrite Hslot; [case_decide; [lia|done]|]. apply slot_of_range.
    unfold MAXFILE, NDIRECT, NINDIRECT, BSIZE in *. dlia.
Qed.

Lemma fill_grows : fgrows sb c i c' i'.
Proof.
  split; [intros x Hx Hf; by apply (Hbits x Hx)|]. intros m Hm (H1 & H2 & H3). split; [split_and!; [|done|]|].
  - rewrite Hbits by lia. tauto.
  - intros k Hk. rewrite Hslot by done. case_decide; [by intros <-|by apply H3].
  - apply Hval; [done|by intros ->|done|]. intros _. intros ->. apply (H3 NDIRECT); [|done].
    unfold MAXFILE, NDIRECT, NINDIRECT, BSIZE. dlia.
Qed.

(** The blocks of the file: only the one of slot [j] differs. *)
Lemma fill_iblk k :
  0 <= k < MAXFILE -> iblk c' i' k = if decide (slot_of k = j) then Some (ca_val c' b) else iblk c i k.
Proof.
  intros Hk. destruct (slot_of_range k Hk) as [Hs Hs']. unfold iblk. rewrite Hslot by done. case_decide.
  - by rewrite (proj2 (Z.eqb_neq _ _)) by lia.
  - destruct (Z.eqb_spec (islot c i (slot_of k)) 0) as [|Hnz]; [done|]. f_equal.
    destruct (ik_blk _ _ _ _ _ Hi (slot_of k) Hs Hnz) as (H1 & H2 & H3 & H4).
    apply Hval; [lia|intros E; by rewrite E in H3|done|]. intros _ E. apply Hs'.
    apply (ik_inj _ _ _ _ _ Hi); [done| |done|done]. unfold MAXFILE, NDIRECT, NINDIRECT, BSIZE. dlia.
Qed.
End Fill.

(** Only fields of the file system differ. *)
Definition fs_frame (s s' : kstate) : Prop :=
  s' = s <| ks_bufs := ks_bufs s' |> <| ks_bhead_prev := ks_bhead_prev s' |>
         <| ks_bhead_next := ks_bhead_next s' |> <| ks_slocks := ks_slocks s' |>
         <| ks_disk := ks_disk s' |> <| ks_dwrites := ks_dwrites s' |> <| ks_log := ks_log s' |>
         <| ks_itable := ks_itable s' |> <| ks_uart := ks_uart s' |>.
#[global] Instance fs_frame_preorder : PreOrder fs_frame.
Proof.
  split; [intros s; unfold fs_frame; kstate_eq|].
  intros s1 s2 s3 H12 H23. unfold fs_frame in *. rewrite H23, H12. kstate_eq.
Qed.
Lemma log_fs_frame s s' : log_frame s s' -> fs_frame s s'.
Proof. unfold log_frame, fs_frame. intros ->. kstate_eq. Qed.
Lemma bio_fs_frame s s' : bio_frame s s' -> fs_frame s s'.
Proof. intros. by apply log_fs_frame, bio_log_frame. Qed.
Lemma itable_fs_frame s f : fs_frame s (s <| ks_itable ::= f |>).
Proof. unfold fs_frame. kstate_eq. Qed.
Lemma sent_fs_frame bs s : fs_frame s (sent bs s).
Proof. unfold fs_frame, sent. kstate_eq. Qed.
Lemma same_sent bs s : same_cache s (sent bs s).
Proof. by split. Qed.
Lemma bio_frame_itable s s' : bio_frame s s' -> ks_itable s' = ks_itable s.
Proof. by intros ->. Qed.
Lemma log_frame_itable s s' : log_frame s s' -> ks_itable s' = ks_itable s.
Proof. by intros ->. Qed.
Lemma fs_frame_eqs s s' :
  fs_frame s s' -> ks_sb s' = ks_sb s /\ ks_panicked s' = ks_panicked s /\ ks_mem s' = ks_mem s /\ ks_proc s' = ks_proc s.
Proof. by intros ->. Qed.

Lemma addr_at_ok s ip i n a :
  ks_itable s !! ip = Some i -> i_addrs i !! n = Some a -> addr_at ip n s = Done a s.
Proof. intros Hi Ha. unfold addr_at. kstep inode_of_ok; [|done]. by apply deref_some. Qed.
Lemma set_addr_ok s ip i n a v :
  ks_itable s !! ip = Some i -> i_addrs i !! n = Some a ->
  set_addr ip n v s = Done tt (s <| ks_itable ::= alter (fun i => i <| i_addrs ::= <[n := v]> |>) ip |>).
Proof. intros Hi Ha. unfold set_addr. kstep addr_at_ok; [|done..]. by eapply set_inode_ok. Qed.

Lemma islot_addr c i j :
  0 <= j <= NDIRECT -> length (i_addrs i) = (Z.to_nat NDIRECT + 1)%nat -> i_addrs i !! Z.to_nat j = Some (islot c i j).
Proof.
  intros Hj Hl. unfold islot. rewrite (proj2 (Z.leb_le _ _)) by lia.
  destruct (i_addrs i !! Z.to_nat j) eqn:E; [done|]. apply lookup_ge_None in E. rewrite Hl in E. unfold NDIRECT in *. lia.
Qed.
Lemma islot_entry c i j :
  NDIRECT < j -> islot c i j = if islot c i NDIRECT =? 0 then 0 else rd32 (ca_val c (islot c i NDIRECT)) (4 * Z.to_nat (j - NDIRECT - 1)).
Proof.
  intros Hj. unfold islot at 1. rewrite (proj2 (Z.leb_gt _ _)) by lia. done.
Qed.

Section Specs.
Context `{Fuel, BlockDevice, KernelImage, UartReady}.

(** A block that is there is found; nothing changes. *)
Lemma bmap_mapped s p d start size bl c ip i bn sb :
  in_op s p d start size bl c -> ks_itable s !! ip = Some i -> i_dev i = d -> inode_ok sb start size c i ->
  0 <= bn < MAXFILE -> islot c i (slot_of bn) <> 0 ->
  exists s', bmap ip bn s = Done (islot c i (slot_of bn)) s' /\ bio_frame s s' /\ in_op s' p d start size bl c.
Proof.
  intros Hop Hi Hd Hok Hbn Hnz. pose proof (ik_len _ _ _ _ _ Hok) as Hlen. unfold bmap. unfold slot_of in *.
  destruct (Z.ltb_spec bn NDIRECT) as [Hdir|Hind].
  - kstep addr_at_ok; [|done|apply (islot_addr c); [lia|done]].
    rewrite (proj2 (Z.eqb_neq _ _)) by done. by exists s.
  - rewrite (proj2 (Z.ltb_lt _ _)) by (unfold MAXFILE in Hbn; lia).
    rewrite islot_entry in * by lia. destruct (Z.eqb_spec (islot c i NDIRECT) 0) as [|Hnz']; [done|].
    set (a := islot c i NDIRECT) in *.
    kstep addr_at_ok; [|done|apply (islot_addr c); [unfold NDIRECT; lia|done]].
    kstep inode_of_ok; [|done]. fold a. rewrite (proj2 (Z.eqb_neq a 0)) by done. cbn [negb].
    rewrite kbind_ret, (proj2 (Z.eqb_neq a 0)), Hd by done.
    destruct (ik_blk _ _ _ _ _ Hok NDIRECT ltac:(unfold MAXFILE, NDIRECT, NINDIRECT, BSIZE; dlia) Hnz') as (Hh & _).
    destruct (bread_op [] s p d start size bl c a Hop Hh) as (bp & s1 & E1 & F1 & Hb1);
      [apply not_elem_of_nil|apply (io_busy _ _ _ _ _ _ _ _ Hop)|].
    kstep E1. destruct (holding_buf _ _ _ _ _ _ _ _ _ _ Hb1) as (bf & Hbf & Hdat & _). kstep buf_of_ok; [|done].
    rewrite Hdat. replace (bn + 1 - NDIRECT - 1) with (bn - NDIRECT) in * by lia.
    rewrite (proj2 (Z.eqb_neq (rd32 _ _) 0)) by done. cbn [negb]. rewrite kbind_ret.
    destruct (brelse_op _ _ _ _ _ _ _ _ _ _ Hb1) as (s2 & E2 & F2 & Hop2). kstep E2.
    exists s2. split_and!; [done|by rewrite F1|done].
Qed.

(** ** Allocation *)

Definition zero_block : list Z := replicate (Z.to_nat BSIZE) 0.

(** balloc() has taken the block [a]. *)
Record taken (sb : superblock) (bl : list Z) (c : cache) (a : Z) (bl' : list Z) (c' : cache) : Prop := mk_taken {
  tk_range : 0 < a < sb_size sb;
  tk_free : blk_free sb c a;
  tk_zero : ca_val c' a = zero_block;
  tk_bits b : 0 <= b < sb_size sb -> blk_free sb c' b <-> blk_free sb c b /\ b <> a;
  tk_other m : m <> a -> not_bitmap sb m -> ca_val c' m = ca_val c m;
  tk_in : a ∈ bl';
  tk_log : bl ⊆ bl'
}.

Lemma balloc_op hs s p d start size bl c k m :
  op_with hs s p d start size bl c -> alloc_ok (ks_sb s) start size c -> held_used (ks_sb s) c hs ->
  room (k + 2) m size bl c -> 0 <= k -> Z.of_nat (length hs) <= m -> ks_panicked s = 0 ->
  exists a s' bl' c', balloc d s = Done a s' /\ fs_frame s s' /\ ks_itable s' = ks_itable s /\
    op_with hs s' p d start size bl' c' /\
    (a = 0 /\ bl' = bl /\ c' = c /\ (forall b, 0 <= b < sb_size (ks_sb s) -> ~ blk_free (ks_sb s) c b) \/
     taken (ks_sb s) bl c a bl' c' /\ room k m size bl' c').
Proof.
  intros Hop (Hlay & _ & Hnz0) Hu Hroom Hk Hm Hpan. pose proof Hlay as (Hsz & _). set (sb := ks_sb s) in *.
  destruct (lowest_free sb c (Z.to_nat (sb_size sb))) as [Hnone|(b & Hb & Hf & Hlow)].
  - rewrite Z2Nat.id in Hnone by lia.
    destruct (balloc_none hs s p d start size bl c Hop Hlay Hu) as (s' & E & F & Hop');
      [destruct Hroom as (_ & _ & ?); lia|done|done|].
    exists 0, (sent no_blocks s'), bl, c. split_and!; [done| | | |left; by split_and!].
    + rewrite (bio_fs_frame _ _ F). apply sent_fs_frame.
    + cbn. by apply bio_frame_itable.
    + by eapply op_same; [apply same_sent|].
  - rewrite Z2Nat.id in Hb by lia.
    destruct (balloc_found hs s p d start size bl c b Hop Hlay Hu) as (s' & c' & E & F & Hop' & Hz & Hbits & Hv & Hr);
      [eapply room_le; [done|lia|lia]|done|done|done|].
    assert (b <> 0) by (by intros ->).
    eexists b, s', _, c'. split_and!; [done|by apply log_fs_frame|by apply log_frame_itable|exact Hop'|].
    right. split; [split|by apply Hr]; try done.
    + lia.
    + intros x Hx Hnb. apply Hv; [done|]. intros ->. by apply (Hnb b).
    + rewrite elem_of_log_added. by left.
    + intros x Hx. rewrite !elem_of_log_added. by right; right.
Qed.

(** What the indirect block may still cost the log: allocating or only logging it. *)
Definition ind_cost (bl : list Z) (c : cache) (i : inode) : Z :=
  let a := islot c i NDIRECT in if a =? 0 then 2 else if decide (a ∈ bl) then 0 else 1.

(** The outcome of bmap(): block [bn] is there now, at [a], with its old
    contents or with zeros; or no block was free. *)
Record bmapped (sb : superblock) (start size bn : Z) (bl : list Z) (c : cache) (i : inode)
    (a : Z) (bl' : list Z) (c' : cache) (i' : inode) : Prop := mk_bmapped {
  bm_alloc : alloc_ok sb start size c';
  bm_inode : inode_ok sb start size c' i';
  bm_same : i' = i <| i_addrs := i_addrs i' |>;
  bm_grows : fgrows sb c i c' i';
  bm_log : bl ⊆ bl';
  bm_other k : 0 <= k < MAXFILE -> k <> bn -> iblk c' i' k = iblk c i k;
  bm_this : if decide (a = 0) then iblk c i bn = None /\ iblk c' i' bn = None /\ forall b, 0 <= b < sb_size sb -> ~ blk_free sb c' b
            else islot c' i' (slot_of bn) = a /\ ca_val c' a = default zero_block (iblk c i bn) /\
                 (iblk c i bn = None -> a ∈ bl')
}.

(** The inode with another address. *)
Definition with_slot (j a : Z) (i : inode) : inode := i <| i_addrs ::= <[Z.to_nat j := a]> |>.

Lemma islot_with c i j a k :
  0 <= j <= NDIRECT -> 0 <= k -> length (i_addrs i) = (Z.to_nat NDIRECT + 1)%nat -> (j = NDIRECT -> islot c i j = 0) ->
  (j = NDIRECT -> a <> 0 -> ca_val c a = zero_block) -> k <= MAXFILE ->
  islot c (with_slot j a i) k = if decide (k = j) then a else islot c i k.
Proof.
  intros Hj Hk Hlen Hnd Hzero Hmax.
  assert (forall x, 0 <= x -> i_addrs (with_slot j a i) !! Z.to_nat x = if decide (x = j) then Some a else i_addrs i !! Z.to_nat x) as Hl.
  { intros x Hx. cbn. case_decide as E; [subst; apply list_lookup_insert_eq; unfold NDIRECT in *; lia|].
    apply list_lookup_insert_ne. lia. }
  unfold islot. rewrite !Hl by (unfold NDIRECT in *; lia). destruct (Z.leb_spec k NDIRECT) as [Hle|Hgt].
  - by case_decide.
  - rewrite (decide_False (P := k = j)) by lia. case_decide as E; [|done]. subst j. cbn [from_option id].
    specialize (Hnd eq_refl). unfold islot in Hnd. rewrite Z.leb_refl in Hnd. rewrite Hnd. cbn [Z.eqb].
    destruct (Z.eqb_spec a 0) as [|Hnz]; [done|]. rewrite Hzero by done. unfold zero_block, rd32.
    rewrite drop_replicate, take_replicate. generalize (4 `min` (Z.to_nat BSIZE - 4 * Z.to_nat (k - NDIRECT - 1)))%nat.
    intros n. induction n as [|n IH]; [done|]. cbn [replicate le_val]. rewrite IH. done.
Qed.

Lemma fgrows_taken sb bl c a bl' c' i :
  taken sb bl c a bl' c' -> forall k, 0 <= k <= MAXFILE -> forall start size, inode_ok sb start size c i -> islot c' i k = islot c i k.
Proof.
  intros Ht k Hk start size Hi. unfold islot. destruct (Z.leb_spec k NDIRECT); [done|].
  destruct (Z.eqb_spec (default 0 (i_addrs i !! Z.to_nat NDIRECT)) 0) as [|Hnz]; [done|]. f_equal.
  destruct (ik_blk _ _ _ _ _ Hi NDIRECT ltac:(unfold MAXFILE, NDIRECT, NINDIRECT, BSIZE; dlia)) as (_ & _ & Hu & Hnb).
  { unfold islot. by rewrite Z.leb_refl. }
  unfold islot in Hu, Hnb. rewrite Z.leb_refl in Hu, Hnb. apply (tk_other _ _ _ _ _ _ Ht); [|done].
  intros E. apply Hu. rewrite E. apply Ht.
Qed.

(** A direct slot or the indirect one is given the block balloc() took. *)
Lemma fill_direct sb start size bl c i j a bl' c' :
  alloc_ok sb start size c -> inode_ok sb start size c i -> 0 <= j <= NDIRECT -> islot c i j = 0 ->
  taken sb bl c a bl' c' ->
  let i' := with_slot j a i in
  alloc_ok sb start size c' /\ inode_ok sb start size c' i' /\ fgrows sb c i c' i' /\
  islot c' i' j = a /\ (forall k, 0 <= k <= MAXFILE -> k <> j -> islot c' i' k = islot c i k) /\
  (forall k, 0 <= k < MAXFILE -> iblk c' i' k = if decide (slot_of k = j) then Some zero_block else iblk c i k).
Proof.
  intros Hal Hi Hj Hz Ht i'. pose proof (ik_len _ _ _ _ _ Hi) as Hlen.
  assert (0 <= j <= MAXFILE) as Hj' by (unfold MAXFILE, NDIRECT, NINDIRECT, BSIZE in *; dlia).
  assert (forall k, 0 <= k <= MAXFILE -> islot c' i' k = if decide (k = j) then a else islot c i k) as Hslot.
  { intros k Hk. unfold i'. rewrite islot_with; try done; [|lia|intros; by rewrite (fgrows_taken sb bl c a bl' c' i Ht j Hj' start size)|intros; apply Ht|lia].
    case_decide; [done|]. by apply (fgrows_taken sb bl c a bl' c' i Ht k Hk start size). }
  assert (forall m, 0 < m < sb_size sb -> m <> a -> not_bitmap sb m -> (NDIRECT < j -> m <> islot c i NDIRECT) -> ca_val c' m = ca_val c m) as Hval.
  { intros m _ Hm Hnb _. by apply (tk_other _ _ _ _ _ _ Ht). }
  assert (length (i_addrs i') = length (i_addrs i)) as Hl' by (cbn; apply length_insert).
  pose proof (tk_range _ _ _ _ _ _ Ht). pose proof (tk_free _ _ _ _ _ _ Ht). pose proof (tk_bits _ _ _ _ _ _ Ht).
  split_and!.
  - eapply fill_alloc_ok; try done; try lia.
  - eapply (fill_inode_ok sb start size c i c' i' j a); try done.
  - eapply (fill_grows sb c i c' i' j a); try done.
  - rewrite Hslot by done. by rewrite decide_True.
  - intros k Hk Hne. rewrite Hslot by done. by rewrite decide_False.
  - intros k Hk. rewrite (fill_iblk sb start size c i c' i' j a) by done. by rewrite (tk_zero _ _ _ _ _ _ Ht).
Qed.

(** An entry of the indirect block is given the block balloc() took. *)
Lemma fill_entry sb start size bl c i j a bl' c1 :
  alloc_ok sb start size c -> inode_ok sb start size c i -> NDIRECT < j <= MAXFILE -> islot c i j = 0 ->
  let n := islot c i NDIRECT in
  n <> 0 -> length (ca_val c n) = Z.to_nat BSIZE -> taken sb bl c a bl' c1 ->
  let c' := c_logged n (wr32 (ca_val c1 n) (4 * Z.to_nat (j - NDIRECT - 1)) a) bl' c1 in
  alloc_ok sb start size c' /\ inode_ok sb start size c' i /\ fgrows sb c i c' i /\
  islot c' i j = a /\ (forall k, 0 <= k <= MAXFILE -> k <> j -> islot c' i k = islot c i k) /\ ca_val c' a = zero_block /\
  (forall k, 0 <= k < MAXFILE -> iblk c' i k = if decide (slot_of k = j) then Some zero_block else iblk c i k).
Proof.
  intros Hal Hi Hj Hz n Hn Hlen Ht c'.
  assert (0 <= NDIRECT <= MAXFILE /\ MAXFILE = 268 /\ NDIRECT = 12) as (HN & HM & HD) by (by vm_compute).
  destruct (ik_blk _ _ _ _ _ Hi NDIRECT HN Hn) as (Hh & Hr & Hu & Hnb). fold n in Hh, Hr, Hu, Hnb.
  pose proof (tk_range _ _ _ _ _ _ Ht) as Ha. pose proof (tk_free _ _ _ _ _ _ Ht) as Hf.
  assert (n <> a) as Hna by (intros ->; done).
  assert (ca_val c1 n = ca_val c n) as En by (by apply (tk_other _ _ _ _ _ _ Ht)).
  assert (forall m, ca_val c' m = fset (ca_val c1) n (wr32 (ca_val c n) (4 * Z.to_nat (j - NDIRECT - 1)) a) m) as Hv.
  { intros m. unfold c'. by rewrite logged_val, En. }
  assert (not_bitmap sb a) as Hnba.
  { destruct Hal as ((_ & _ & Hl) & _). exact (proj2 (proj2 (Hl a ltac:(lia)) Hf)). }
  assert (forall b, 0 <= b < sb_size sb -> blk_free sb c' b <-> blk_free sb c b /\ b <> a) as Hbits.
  { intros b Hb. rewrite <- (tk_bits _ _ _ _ _ _ Ht b Hb). unfold blk_free. rewrite Hv, fset_ne; [done|]. by apply Hnb. }
  assert (forall k, 0 <= k <= MAXFILE -> islot c' i k = if decide (k = j) then a else islot c i k) as Hslot.
  { intros k Hk. destruct (decide (k <= NDIRECT)) as [Hle|Hgt].
    - rewrite decide_False by lia. unfold islot. by rewrite (proj2 (Z.leb_le _ _)) by lia.
    - rewrite (islot_entry c' i k), (islot_entry c i k) by lia. change (islot c' i NDIRECT) with n. fold n. rewrite (proj2 (Z.eqb_neq n 0)) by done.
      rewrite Hv, fset_eq. case_decide as E.
      + subst k. rewrite rd32_wr32_eq by (rewrite Hlen; unfold BSIZE; lia). apply Z.mod_small.
        destruct Hal as ((Hs & _) & _). lia.
      + apply rd32_wr32_ne; [rewrite Hlen; unfold BSIZE; lia|lia]. }
  assert (forall m, 0 < m < sb_size sb -> m <> a -> not_bitmap sb m -> (NDIRECT < j -> m <> islot c i NDIRECT) -> ca_val c' m = ca_val c m) as Hval.
  { intros m _ Hm Hnbm Hmn. rewrite Hv, fset_ne by (apply Hmn; lia). by apply (tk_other _ _ _ _ _ _ Ht). }
  assert (ca_val c' a = zero_block) as Hza by (rewrite Hv, fset_ne by done; apply Ht).
  assert (0 <= j <= MAXFILE) as Hj' by lia.
  split_and!.
  - by apply (fill_alloc_ok sb start size c c' a).
  - eapply (fill_inode_ok sb start size c i c' i j a); try done. by destruct i.
  - eapply (fill_grows sb c i c' i j a); try done.
  - rewrite Hslot by done. by rewrite decide_True.
  - intros k Hk Hne. rewrite Hslot by done. by rewrite decide_False.
  - done.
  - intros k Hk. rewrite (fill_iblk sb start size c i c' i j a) by done. by rewrite Hza.
Qed.

(** The rest of bmap() for entry [e] of the indirect block [n]. *)
Definition bmap_entry (d n : Z) (e : nat) : K Z :=
  let! bp := bread d n in
  let! bf := buf_of bp in
  let addr := rd32 (b_data bf) (4 * e) in
  let! addr := (if negb (addr =? 0) then ret addr else
                let! addr := balloc d in
                when (negb (addr =? 0)) (set_data bp (fun d => wr32 d (4 * e) addr) ;; log_write bp) ;;
                ret addr) in
  brelse bp ;;
  ret addr.

(** The log after an entry was filled. *)
Lemma ind_cost_logged bl bl' c i c' i' :
  islot c' i' NDIRECT = islot c i NDIRECT -> bl ⊆ bl' -> ind_cost bl' c' i' <= ind_cost bl c i.
Proof.
  intros E Hs. unfold ind_cost. rewrite E. destruct (_ =? 0); [lia|]. repeat case_decide; try lia. exfalso. auto.
Qed.
Lemma ind_cost_range bl c i : 0 <= ind_cost bl c i <= 2.
Proof. unfold ind_cost. destruct (_ =? 0); [lia|]. case_decide; lia. Qed.

Lemma iblk_none c i k : iblk c i k = None <-> islot c i (slot_of k) = 0.
Proof. unfold iblk. destruct (Z.eqb_spec (islot c i (slot_of k)) 0); naive_solver. Qed.

Lemma bmap_entry_op s p d start size bl c ip i bn k :
  in_op s p d start size bl c -> alloc_ok (ks_sb s) start size c -> inode_ok (ks_sb s) start size c i ->
  ks_itable s !! ip = Some i -> NDIRECT <= bn < MAXFILE -> islot c i NDIRECT <> 0 -> islot c i (slot_of bn) = 0 ->
  room (k + 2 + ind_cost bl c i) 1 size bl c -> 1 <= k -> ks_panicked s = 0 ->
  exists a s' bl' c', bmap_entry d (islot c i NDIRECT) (Z.to_nat (bn - NDIRECT)) s = Done a s' /\ fs_frame s s' /\
    ks_itable s' = ks_itable s /\ in_op s' p d start size bl' c' /\
    bmapped (ks_sb s) start size bn bl c i a bl' c' i /\ room (k + ind_cost bl' c' i) 1 size bl' c'.
Proof.
  intros Hop Hal Hi Hip Hbn Hn Hz Hroom Hk Hpan. set (n := islot c i NDIRECT) in *. set (sb := ks_sb s) in *.
  assert (0 <= NDIRECT <= MAXFILE /\ slot_of bn = bn + 1) as (HN & Es).
  { split; [by vm_compute|]. unfold slot_of. by rewrite (proj2 (Z.ltb_ge _ _)) by lia. }
  pose proof (ind_cost_range bl c i) as Hcost.
  destruct (ik_blk _ _ _ _ _ Hi NDIRECT HN Hn) as (Hh & Hr & Hu & Hnb). fold n in Hh, Hr, Hu, Hnb.
  unfold bmap_entry.
  destruct (bread_op [] s p d start size bl c n Hop Hh) as (bp & s1 & E1 & F1 & Hb1);
    [apply not_elem_of_nil|apply (io_busy _ _ _ _ _ _ _ _ Hop)|].
  kstep E1. destruct (holding_buf _ _ _ _ _ _ _ _ _ _ Hb1) as (bf & Hbf & Hdat & Hlen). kstep buf_of_ok; [|done].
  rewrite Hdat. assert (rd32 (ca_val c n) (4 * Z.to_nat (bn - NDIRECT)) = 0) as E0.
  { rewrite Es, islot_entry in Hz by lia. fold n in Hz. rewrite (proj2 (Z.eqb_neq n 0)) in Hz by done.
    by replace (bn + 1 - NDIRECT - 1) with (bn - NDIRECT) in Hz by lia. }
  rewrite E0. cbn [Z.eqb negb].
  pose proof (fs_frame_eqs _ _ (bio_fs_frame _ _ F1)) as (Esb & Ep & _).
  destruct (balloc_op [(bp, n)] s1 p d start size bl c (k + ind_cost bl c i) 1 Hb1)
    as (a & s2 & bl2 & c2 & E2 & F2 & Ei2 & Hop2 & Hres); rewrite ?Esb; try done.
  { constructor; [|constructor]. done. }
  { by replace (k + ind_cost bl c i + 2) with (k + 2 + ind_cost bl c i) by lia. }
  { lia. }
  { by rewrite Ep. }
  erewrite kbind_assoc_done by exact E2.
  rewrite Esb in Hres. destruct Hres as [(-> & -> & -> & Hno)|[Ht Hroom2]].
  - cbn [Z.eqb negb when]. erewrite (kbind_assoc_done _ _ _ _ tt s2) by reflexivity. rewrite kbind_ret.
    destruct (brelse_op _ _ _ _ _ _ _ _ _ _ Hop2) as (s3 & E3 & F3 & Hop3). kstep E3.
    exists 0, s3, bl, c. split_and!; [done| | |done| |].
    + by rewrite (bio_fs_frame _ _ F1), F2, (bio_fs_frame _ _ F3).
    + by rewrite (bio_frame_itable _ _ F3), Ei2, (bio_frame_itable _ _ F1).
    + apply iblk_none in Hz. split; [done|done|by destruct i|apply fgrows_refl|done|done|]. by rewrite decide_True.
    + eapply room_le; [done|lia|lia].
  - pose proof (tk_range _ _ _ _ _ _ Ht) as Ha. rewrite (proj2 (Z.eqb_neq a 0)) by lia. cbn [negb when].
    assert (ca_val c2 n = ca_val c n) as En.
    { apply (tk_other _ _ _ _ _ _ Ht); [|done]. intros ->. apply Hu, Ht. }
    destruct (change_op [] s2 p d start size bl2 c2 bp n (fun d => wr32 d (4 * Z.to_nat (bn - NDIRECT)) a) Hop2)
      as (s3 & E3 & F3 & Hop3).
    { eapply room_le; [done|lia|cbn; lia]. }
    { rewrite En, length_wr32; [done|]. rewrite Hlen. unfold MAXFILE, NINDIRECT, BSIZE, NDIRECT in *. dlia. }
    erewrite kbind_assoc_done by exact E3. rewrite kbind_ret.
    destruct (brelse_op _ _ _ _ _ _ _ _ _ _ Hop3) as (s4 & E4 & F4 & Hop4). kstep E4.
    destruct (fill_entry sb start size bl c i (slot_of bn) a bl2 c2 Hal Hi) as (G1 & G2 & G3 & G4 & G5 & G6 & G7);
      [rewrite Es; lia|done|done|done|done|].
    replace (slot_of bn - NDIRECT - 1) with (bn - NDIRECT) in * by lia. fold n in G1, G2, G3, G4, G5, G6, G7.
    cbv beta in Hop4. set (c4 := c_logged n _ bl2 c2) in *.
    assert (bl2 ⊆ log_added n bl2) as Hsub by (intros x Hx; rewrite elem_of_log_added; by right).
    assert (ind_cost (log_added n bl2) c4 i = 0) as Ec.
    { unfold ind_cost. rewrite G5 by (done || lia). fold n. rewrite (proj2 (Z.eqb_neq n 0)) by done.
      apply decide_True. rewrite elem_of_log_added. by left. }
    exists a, s4, (log_added n bl2), c4. split_and!; [done| | |done| |].
    + by rewrite (bio_fs_frame _ _ F1), F2, (log_fs_frame _ _ F3), (bio_fs_frame _ _ F4).
    + by rewrite (bio_frame_itable _ _ F4), (log_frame_itable _ _ F3), Ei2, (bio_frame_itable _ _ F1).
    + pose proof Hz as Hz'%iblk_none. split; [done|done|by destruct i|done| | |].
      * intros x Hx. by apply Hsub, (tk_log _ _ _ _ _ _ Ht).
      * intros x Hx Hne. rewrite G7, decide_False by (done || by intros ->%slot_of_inj). done.
      * rewrite decide_False by lia. rewrite Hz'. split_and!; [done|done|]. intros _. by apply Hsub, (tk_in _ _ _ _ _ _ Ht).
    + rewrite Ec. unfold ind_cost in Hroom2. fold n in Hroom2. rewrite (proj2 (Z.eqb_neq n 0)) in Hroom2 by done.
      case_decide as Hin.
      * apply room_logged_again; [done|]. by apply (tk_log _ _ _ _ _ _ Ht).
      * apply room_logged; [|apply (io_refs _ _ _ _ _ _ _ _ Hop2)]. by rewrite Z.add_0_r.
Qed.

(** balloc() for a direct slot or the indirect one, and its address stored. *)
Lemma alloc_slot s p d start size bl c ip i j k :
  in_op s p d start size bl c -> alloc_ok (ks_sb s) start size c -> inode_ok (ks_sb s) start size c i ->
  ks_itable s !! ip = Some i -> 0 <= j <= NDIRECT -> islot c i j = 0 -> room (k + 2) 1 size bl c -> 0 <= k -> ks_panicked s = 0 ->
  exists a s' bl' c', balloc d s = Done a s' /\ fs_frame s s' /\ ks_itable s' = ks_itable s /\
    in_op s' p d start size bl' c' /\
    (a = 0 /\ bl' = bl /\ c' = c /\ (forall b, 0 <= b < sb_size (ks_sb s) -> ~ blk_free (ks_sb s) c b) \/
     taken (ks_sb s) bl c a bl' c' /\ room k 1 size bl' c' /\
     exists s'', set_addr ip (Z.to_nat j) a s' = Done tt s'' /\ fs_frame s s'' /\
       ks_itable s'' = <[ip := with_slot j a i]> (ks_itable s) /\ in_op s'' p d start size bl' c').
Proof.
  intros Hop Hal Hi Hip Hj Hz Hroom Hk Hpan.
  destruct (balloc_op [] s p d start size bl c k 1 Hop Hal) as (a & s1 & bl1 & c1 & E1 & F1 & Ei1 & Hop1 & Hres);
    [constructor|done|done|cbn; lia|done|].
  exists a, s1, bl1, c1. split_and!; [done..|]. destruct Hres as [Hres|[Ht Hr]]; [by left|right]. split_and!; [done|done|].
  eexists. split_and!.
  - eapply set_addr_ok; [by rewrite Ei1|]. apply (islot_addr c); [done|apply Hi].
  - rewrite F1. apply itable_fs_frame.
  - cbn. rewrite Ei1. by erewrite list_alter_insert_at.
  - by eapply op_same; [apply same_itable|].
Qed.

Lemma bmapped_none sb start size bn bl c i :
  alloc_ok sb start size c -> inode_ok sb start size c i -> islot c i (slot_of bn) = 0 ->
  (forall b, 0 <= b < sb_size sb -> ~ blk_free sb c b) -> bmapped sb start size bn bl c i 0 bl c i.
Proof.
  intros Hal Hi Hz%iblk_none Hno. split; [done|done|by destruct i|apply fgrows_refl|done|done|]. by rewrite decide_True.
Qed.

Lemma bmap_direct_op s p d start size bl c ip i bn k :
  in_op s p d start size bl c -> alloc_ok (ks_sb s) start size c -> inode_ok (ks_sb s) start size c i ->
  ks_itable s !! ip = Some i -> i_dev i = d -> 0 <= bn < NDIRECT -> islot c i (slot_of bn) = 0 ->
  room (k + 2 + ind_cost bl c i) 1 size bl c -> 1 <= k -> ks_panicked s = 0 ->
  exists a s' bl' c' i', bmap ip bn s = Done a s' /\ fs_frame s s' /\
    ks_itable s' = <[ip := i']> (ks_itable s) /\ in_op s' p d start size bl' c' /\
    bmapped (ks_sb s) start size bn bl c i a bl' c' i' /\ room (k + ind_cost bl' c' i') 1 size bl' c'.
Proof.
  intros Hop Hal Hi Hip Hd Hbn Hz Hroom Hk Hpan. pose proof (ind_cost_range bl c i) as Hcost.
  assert (slot_of bn = bn) as Es by (unfold slot_of; by rewrite (proj2 (Z.ltb_lt _ _)) by lia).
  assert (islot c i bn = 0) as Hzb by (by rewrite Es in Hz).
  assert (0 <= NDIRECT <= MAXFILE /\ MAXFILE = 268 /\ NDIRECT = 12) as (HN & HM & HD) by (by vm_compute).
  unfold bmap. rewrite (proj2 (Z.ltb_lt _ _)) by lia.
  kstep addr_at_ok; [|done|apply (islot_addr c); [lia|apply Hi]]. rewrite Hzb. cbn [Z.eqb negb].
  kstep inode_of_ok; [|done]. rewrite Hd.
  destruct (alloc_slot s p d start size bl c ip i bn (k + ind_cost bl c i)) as (a & s1 & bl1 & c1 & E1 & F1 & Ei1 & Hop1 & Hres);
    [done..|lia|done|eapply room_le; [done|lia|lia]|lia|done|].
  kstep E1. destruct Hres as [(-> & -> & -> & Hno)|(Ht & Hr & s2 & E2 & F2 & Ei2 & Hop2)].
  - exists 0, s1, bl, c, i. split_and!; [done|done| |done|by apply bmapped_none|eapply room_le; [done|lia|lia]].
    by rewrite Ei1, list_insert_id.
  - pose proof (tk_range _ _ _ _ _ _ Ht) as Ha. rewrite (proj2 (Z.eqb_neq a 0)) by lia. kstep E2.
    destruct (fill_direct (ks_sb s) start size bl c i bn a bl1 c1 Hal Hi) as (G1 & G2 & G3 & G4 & G5 & G6);
      [lia|done|done|].
    exists a, s2, bl1, c1, (with_slot bn a i). split_and!; [done|done|done|done| |].
    + pose proof Hz as Hz'%iblk_none. split; [done|done|done|done|apply Ht| |].
      * intros x Hx Hne. rewrite G6, decide_False; [done| |done]. intros E. apply Hne, slot_of_inj. by rewrite E, Es.
      * rewrite decide_False by lia. rewrite Hz', Es. split_and!; [done|apply Ht|]. intros _. apply Ht.
    + eapply room_le; [done| |]; (enough (ind_cost bl1 c1 (with_slot bn a i) <= ind_cost bl c i) by lia);
        (apply ind_cost_logged; [apply G5; lia|apply Ht]).
Qed.

(** bmap() past the direct blocks. *)
Lemma bmap_far ip bn s i :
  NDIRECT <= bn < MAXFILE -> ks_itable s !! ip = Some i -> length (i_addrs i) = (Z.to_nat NDIRECT + 1)%nat ->
  forall c, bmap ip bn s =
  (let! addr := (if negb (islot c i NDIRECT =? 0) then ret (islot c i NDIRECT) else
                 let! addr := balloc (i_dev i) in
                 when (negb (addr =? 0)) (set_addr ip (Z.to_nat NDIRECT) addr) ;;
                 ret addr) in
   if addr =? 0 then ret 0 else bmap_entry (i_dev i) addr (Z.to_nat (bn - NDIRECT))) s.
Proof.
  intros Hbn Hip Hlen c. unfold bmap. rewrite (proj2 (Z.ltb_ge _ _)) by lia.
  rewrite (proj2 (Z.ltb_lt (bn - NDIRECT) NINDIRECT)) by (unfold MAXFILE in Hbn; lia).
  kstep addr_at_ok; [|done|apply (islot_addr c); [unfold NDIRECT; lia|done]]. kstep inode_of_ok; [|done]. reflexivity.
Qed.

(** Filling the indirect slot leaves the blocks of the file as they were. *)
Lemma slot_of_indirect k : slot_of k <> NDIRECT.
Proof. unfold slot_of, NDIRECT. destruct (Z.ltb_spec k 12); lia. Qed.

Lemma bmapped_after sb start size bn bl c i bl1 c1 i1 a bl' c' i' :
  fgrows sb c i c1 i1 -> bl ⊆ bl1 -> i1 = i <| i_addrs := i_addrs i1 |> ->
  (forall k, 0 <= k < MAXFILE -> iblk c1 i1 k = iblk c i k) -> 0 <= bn < MAXFILE ->
  bmapped sb start size bn bl1 c1 i1 a bl' c' i' -> bmapped sb start size bn bl c i a bl' c' i'.
Proof.
  intros Hg Hl Hs Hk Hbn [B1 B2 B3 B4 B5 B6 B7]. split; try done.
  - rewrite B3, Hs. by destruct i.
  - by eapply fgrows_trans.
  - set_solver.
  - intros k Hk' Hne. rewrite B6 by done. by apply Hk.
  - by rewrite <- (Hk bn Hbn).
Qed.

Lemma bmap_far_op s p d start size bl c ip i bn k :
  in_op s p d start size bl c -> alloc_ok (ks_sb s) start size c -> inode_ok (ks_sb s) start size c i ->
  ks_itable s !! ip = Some i -> i_dev i = d -> NDIRECT <= bn < MAXFILE -> islot c i (slot_of bn) = 0 ->
  room (k + 2 + ind_cost bl c i) 1 size bl c -> 1 <= k -> ks_panicked s = 0 ->
  exists a s' bl' c' i', bmap ip bn s = Done a s' /\ fs_frame s s' /\
    ks_itable s' = <[ip := i']> (ks_itable s) /\ in_op s' p d start size bl' c' /\
    bmapped (ks_sb s) start size bn bl c i a bl' c' i' /\ room (k + ind_cost bl' c' i') 1 size bl' c'.
Proof.
  intros Hop Hal Hi Hip Hd Hbn Hz Hroom Hk Hpan. pose proof (ind_cost_range bl c i) as Hcost.
  assert (0 <= NDIRECT <= MAXFILE /\ MAXFILE = 268 /\ NDIRECT = 12) as (HN & HM & HD) by (by vm_compute).
  rewrite (bmap_far ip bn s i Hbn Hip (ik_len _ _ _ _ _ Hi) c), Hd.
  destruct (Z.eqb_spec (islot c i NDIRECT) 0) as [Hi0|Hnz]; cbn [negb].
  - assert (ind_cost bl c i = 2) as Ec by (unfold ind_cost; by rewrite Hi0).
    destruct (alloc_slot s p d start size bl c ip i NDIRECT (k + 2)) as (n & s1 & bl1 & c1 & E1 & F1 & Ei1 & Hop1 & Hres);
      [done..|lia|done|eapply room_le; [done|lia|lia]|lia|done|].
    erewrite kbind_assoc_done by exact E1. destruct Hres as [(-> & -> & -> & Hno)|(Ht & Hr & s2 & E2 & F2 & Ei2 & Hop2)].
    + cbn [Z.eqb negb when]. erewrite (kbind_assoc_done _ _ _ _ tt s1) by reflexivity. rewrite kbind_ret. cbn [Z.eqb].
      exists 0, s1, bl, c, i. split_and!; [done|done| |done|by apply bmapped_none|eapply room_le; [done|lia|lia]].
      by rewrite Ei1, list_insert_id.
    + pose proof (tk_range _ _ _ _ _ _ Ht) as Hn. rewrite (proj2 (Z.eqb_neq n 0)) by lia. cbn [negb when].
      erewrite kbind_assoc_done by exact E2. rewrite kbind_ret, (proj2 (Z.eqb_neq n 0)) by lia.
      destruct (fill_direct (ks_sb s) start size bl c i NDIRECT n bl1 c1 Hal Hi) as (G1 & G2 & G3 & G4 & G5 & G6);
        [lia|done|done|]. set (i1 := with_slot NDIRECT n i) in *.
      destruct (fs_frame_eqs _ _ F2) as (Esb & Ep & _).
      assert (ind_cost bl1 c1 i1 = 0) as Ec1.
      { unfold ind_cost. rewrite G4, (proj2 (Z.eqb_neq n 0)) by lia. apply decide_True, Ht. }
      destruct (bmap_entry_op s2 p d start size bl1 c1 ip i1 bn k) as (a & s3 & bl3 & c3 & E3 & F3 & Ei3 & Hop3 & Hb3 & Hr3);
        rewrite ?Esb, ?G4, ?Ei2; try done.
      { apply list_lookup_insert_eq, lookup_lt_is_Some. eauto. }
      { lia. }
      { rewrite G5; [done|apply slot_of_range; lia|apply slot_of_indirect]. }
      { by rewrite Ec1, Z.add_0_r. }
      { by rewrite Ep. }
      rewrite G4 in E3. exists a, s3, bl3, c3, i1. split_and!; [done|by rewrite F2|by rewrite Ei3, Ei2|done| |done].
      rewrite Esb in Hb3. eapply (bmapped_after _ _ _ _ _ _ _ bl1 c1 i1); [done|apply Ht|done| |lia|done].
      intros x Hx. rewrite G6, decide_False; [done|apply slot_of_indirect|done].
  - rewrite kbind_ret, (proj2 (Z.eqb_neq (islot c i NDIRECT) 0)) by done.
    destruct (bmap_entry_op s p d start size bl c ip i bn k) as (a & s3 & bl3 & c3 & E3 & F3 & Ei3 & Hop3 & Hb3 & Hr3); [done..|].
    exists a, s3, bl3, c3, i. split_and!; [done|done|by rewrite Ei3, list_insert_id|done|done|done].
Qed.

(** bmap() on every branch. *)
Lemma bmap_op s p d start size bl c ip i bn k :
  in_op s p d start size bl c -> alloc_ok (ks_sb s) start size c -> inode_ok (ks_sb s) start size c i ->
  ks_itable s !! ip = Some i -> i_dev i = d -> 0 <= bn < MAXFILE ->
  room (k + (if iblk c i bn then 0 else 2) + ind_cost bl c i) 1 size bl c -> 1 <= k -> ks_panicked s = 0 ->
  exists a s' bl' c' i', bmap ip bn s = Done a s' /\ fs_frame s s' /\
    ks_itable s' = <[ip := i']> (ks_itable s) /\ in_op s' p d start size bl' c' /\
    bmapped (ks_sb s) start size bn bl c i a bl' c' i' /\ room (k + ind_cost bl' c' i') 1 size bl' c'.
Proof.
  intros Hop Hal Hi Hip Hd Hbn Hroom Hk Hpan. destruct (iblk c i bn) as [v|] eqn:Ev.
  - assert (islot c i (slot_of bn) <> 0) as Hnz by (intros Hz%iblk_none; congruence).
    destruct (bmap_mapped s p d start size bl c ip i bn (ks_sb s)) as (s' & E & F & Hop'); [done..|].
    exists (islot c i (slot_of bn)), s', bl, c, i.
    split_and!; [done|by apply bio_fs_frame|by rewrite (bio_frame_itable _ _ F), list_insert_id|done| |by rewrite Z.add_0_r in Hroom].
    split; [done|done|by destruct i|apply fgrows_refl|done|done|]. rewrite decide_False by done. rewrite Ev.
    unfold iblk in Ev. rewrite (proj2 (Z.eqb_neq _ _)) in Ev by done. injection Ev as Ev. by split_and!.
  - apply iblk_none in Ev. destruct (decide (bn < NDIRECT)).
    + eapply bmap_direct_op; try done. lia.
    + eapply bmap_far_op; try done. lia.
Qed.

(** C19: bmap() keeps files well-formed, on every branch.  It returns the
    address of block [bn], allocating it, and the indirect block when that is
    needed; a new block reads as zeros, all other blocks of the file keep their
    contents, blocks of other files are not touched, and still every block of
    the inode is in use, outside the bitmap, for one slot only.  It returns 0
    when no block is free.  The cost to the log is at most two blocks and two
    for the indirect one. *)
Theorem bmap_correct s p d start size bl c ip i bn k :
  in_op s p d start size bl c -> alloc_ok (ks_sb s) start size c -> inode_ok (ks_sb s) start size c i ->
  ks_itable s !! ip = Some i -> i_dev i = d -> 0 <= bn < MAXFILE ->
  room (k + (if iblk c i bn then 0 else 2) + ind_cost bl c i) 1 size bl c -> 1 <= k -> ks_panicked s = 0 ->
  exists a s' bl' c' i', bmap ip bn s = Done a s' /\ fs_frame s s' /\
    ks_itable s' = <[ip := i']> (ks_itable s) /\ in_op s' p d start size bl' c' /\
    bmapped (ks_sb s) start size bn bl c i a bl' c' i' /\ room (k + ind_cost bl' c' i') 1 size bl' c'.
Proof. apply bmap_op. Qed.
End Specs.
