(* ===== verification/FsRead.v ===== *)
(** * Reading a file (fs.c: readi; proc.c: either_copyout, either_copyin).

    readi() delivers the bytes of the file in the range asked for, as far as
    the file goes, to user memory, to kernel memory or to a variable. *)

From S2P Require Import Prelude Defs KMonad Lock Mem Kalloc Sched Sleeplock Bio Log Vm UserMem Uart Fs FsBlock FsAlloc FsInode FsFile.

(** ** Bytes of a file *)

Lemma length_ibytes c i off n : length (ibytes c i off n) = n.
Proof. unfold ibytes. rewrite length_fmap, length_seqZ. lia. Qed.
Lemma ibytes_app c i off n m :
  ibytes c i off (n + m) = ibytes c i off n ++ ibytes c i (off + Z.of_nat n) m.
Proof. unfold ibytes. rewrite Nat2Z.inj_add, seqZ_app, fmap_app by lia. done. Qed.
Lemma ibytes_lookup c i off n k : (k < n)%nat -> ibytes c i off n !! k = Some (ibyte c i (off + Z.of_nat k)).
Proof. intros Hk. unfold ibytes. rewrite list_lookup_fmap, lookup_seqZ_lt by lia. done. Qed.

(** A range inside one block. *)
Lemma ibytes_chunk c i off n v :
  0 <= off -> iblk c i (off / BSIZE) = Some v -> length v = Z.to_nat BSIZE -> off `mod` BSIZE + Z.of_nat n <= BSIZE ->
  ibytes c i off n = take n (drop (Z.to_nat (off `mod` BSIZE)) v).
Proof.
  intros Hoff Hv Hlen Hn. pose proof (Z.mod_pos_bound off BSIZE ltac:(done)) as Hm.
  apply list_eq_same_length with n; [|by rewrite length_ibytes|].
  { rewrite length_take, length_drop, Hlen. lia. }
  intros k x y Hk Hx Hy. rewrite ibytes_lookup in Hx by done. injection Hx as <-.
  rewrite lookup_take_lt, lookup_drop in Hy by done. unfold ibyte.
  assert ((off + Z.of_nat k) / BSIZE = off / BSIZE /\ (off + Z.of_nat k) `mod` BSIZE = off `mod` BSIZE + Z.of_nat k) as [-> ->]
    by (unfold BSIZE in *; dlia).
  rewrite Hv. cbn [from_option id]. replace (Z.to_nat (off `mod` BSIZE + Z.of_nat k)) with (Z.to_nat (off `mod` BSIZE) + k)%nat by lia.
  by rewrite Hy.
Qed.
Lemma idata_range c i off n :
  0 <= off -> off + Z.of_nat n <= i_size i -> take n (drop (Z.to_nat off) (idata c i)) = ibytes c i off n.
Proof.
  intros Hoff Hn. unfold idata.
  replace (Z.to_nat (i_size i)) with (Z.to_nat off + (n + (Z.to_nat (i_size i) - Z.to_nat off - n)))%nat by lia.
  rewrite ibytes_app, drop_app_length' by (by rewrite length_ibytes).
  rewrite Z.add_0_l, Z2Nat.id, ibytes_app by lia. by rewrite take_app_length' by (by rewrite length_ibytes).
Qed.

(** ** Where the bytes go *)

(** Bytes put where [dst] says: the new memory, whether all of them arrived,
    and what a variable has received.  [m0] holds the page tables at [root]. *)
Definition put_to (m0 : gmap Z Z) (root : Z) (dst : kdst) (m : gmap Z Z) (bs : list Z) : gmap Z Z * bool * list Z :=
  match dst with
  | To_user a => (uwrite m0 root m a bs, [])
  | To_mem a => (store_bytes m a bs, true, [])
  | To_var => (m, true, bs)
  end.

Section Specs.
Context `{Fuel, BlockDevice, KernelImage, UartReady}.

(** A user destination lies in an address space that is kept apart from its page
    tables and from free memory; kernel memory does not wrap around. *)
Definition sink_ok (m0 : gmap Z Z) (root : Z) (T : gmap Z nat) (fl : list Z) (dst : kdst) (n : Z) (s : kstate) : Prop :=
  match dst with
  | To_user a => 0 <= a < 2 ^ 64 /\ vm_ok (s <| ks_mem := m0 |>) root T fl /\ uspace m0 root T fl /\
                 keeps T fl m0 (ks_mem s)
  | To_mem a => 0 <= a /\ a + n < 2 ^ 64
  | To_var => True
  end.

Lemma uwrite_app m0 root m va bs bs' :
  uwrite m0 root m va (bs ++ bs') =
  let r := uwrite m0 root m va bs in
  if snd r then uwrite m0 root (fst r) (va + Z.of_nat (length bs)) bs' else r.
Proof.
  revert m va. induction bs as [|b bs IH]; intros m va; cbn [uwrite app length snd fst].
  { by rewrite Z.add_0_r. }
  destruct (uphys m0 root va); [|done]. rewrite IH. cbv zeta. destruct (snd _); [|done]. f_equal. lia.
Qed.
Lemma uwrite_low m0 root m va bs :
  bs <> [] -> snd (uwrite m0 root m va bs) = true -> va + Z.of_nat (length bs) <= MAXVA.
Proof.
  revert m va. induction bs as [|b bs IH]; intros m va Hne Hok; [done|]. cbn [uwrite length] in *.
  unfold uphys in Hok. destruct (upage m0 root va) as [p|] eqn:Hp; [|done]. apply upage_low in Hp. cbn in Hok.
  destruct bs as [|b' bs]; [cbn; lia|]. specialize (IH _ _ ltac:(done) Hok). cbn [length] in *. lia.
Qed.

Lemma put_to_app m0 root T fl s dst m bs bs' :
  sink_ok m0 root T fl dst (Z.of_nat (length (bs ++ bs'))) s -> bs <> [] ->
  put_to m0 root dst m (bs ++ bs') =
  let '(m1, ok, got) := put_to m0 root dst m bs in
  if ok then let '(m2, ok', got') := put_to m0 root (dst_add dst (Z.of_nat (length bs))) m1 bs' in (m2, ok', got ++ got')
  else (m1, false, got).
Proof.
  intros Hs Hne. destruct dst as [a|a|]; cbn [put_to dst_add].
  - rewrite uwrite_app. cbv zeta. destruct (uwrite m0 root m a bs) as [m1 ok] eqn:E. cbn [fst snd].
    destruct ok; [|done]. pose proof (uwrite_low m0 root m a bs Hne) as Hl. rewrite E in Hl. specialize (Hl eq_refl).
    destruct Hs as ((Ha & _) & _). rewrite u64_small by (change MAXVA with (2 ^ 38) in Hl; lia).
    by destruct (uwrite m0 root m1 _ bs').
  - cbn in Hs. rewrite length_app in Hs. rewrite u64_small by lia. by rewrite store_bytes_app.
  - done.
Qed.

Lemma either_copyout_ok m0 T fl dst n s p pr bs :
  quiet s p -> ks_proc s !! p = Some pr -> let root := p_pagetable pr in
  sink_ok m0 root T fl dst n s -> bs <> [] -> Z.of_nat (length bs) <= n ->
  let '(m1, ok, got) := put_to m0 root dst (ks_mem s) bs in
  either_copyout dst bs s = Done (rc ok, got) (s <| ks_mem := m1 |>) /\
  (ok = true -> sink_ok m0 root T fl (dst_add dst (Z.of_nat (length bs))) (n - Z.of_nat (length bs)) (s <| ks_mem := m1 |>)).
Proof.
  intros Hq Hp root Hs Hne Hn. unfold either_copyout.
  rewrite (kbind_done _ _ _ _ _ (cur_proc_ok s p (q_hart _ _ Hq) (q_cur _ _ Hq))).
  destruct dst as [a|a|]; cbn [put_to dst_add sink_ok] in *.
  - destruct Hs as (Ha & Hok & Hus & Hk). rewrite (kbind_done _ _ _ _ _ (proc_of_ok _ _ _ Hp)). fold root.
    destruct (copyout_loop (S (length bs)) (s <| ks_mem := m0 |>) s root T fl a bs) as [E K]; [lia|done|done|done| |done|].
    { kstate_eq. }
    rewrite (kbind_done _ _ _ _ _ (eq_trans (copyout_unfold root a bs s) E)). cbn [ks_mem] in K, E |- *.
    change (ks_mem (s <| ks_mem := m0 |>)) with m0 in *.
    destruct (uwrite m0 root (ks_mem s) a bs) as [m1 ok] eqn:Eu. cbn [fst snd] in *. split; [done|].
    intros ->. pose proof (uwrite_low m0 root (ks_mem s) a bs Hne) as Hl. rewrite Eu in Hl. specialize (Hl eq_refl).
    rewrite u64_small by (change MAXVA with (2 ^ 38) in Hl; lia).
    split_and!; [lia|change MAXVA with (2 ^ 38) in Hl; lia|done|done|done].
  - split; [unfold mem_store; by rewrite kbind_modify|]. intros _. rewrite u64_small by lia. lia.
  - split; [|done]. unfold ret. f_equal. kstate_eq.
Qed.

Lemma same_mem s m : same_cache s (s <| ks_mem := m |>).
Proof. by split. Qed.
Lemma sink_ok_bio m0 root T fl dst n s s' :
  bio_frame s s' -> sink_ok m0 root T fl dst n s -> sink_ok m0 root T fl dst n s'.
Proof.
  intros F. assert (same_hart (s <| ks_mem := m0 |>) (s' <| ks_mem := m0 |>) /\ ks_freelist s' = ks_freelist s /\ ks_mem s' = ks_mem s)
    as (Hh & Hf & Hm) by (rewrite F; by split).
  destruct dst as [a|a|]; cbn [sink_ok]; [|done|done]. intros (Ha & Hok & Hus & Hk). rewrite Hm. split_and!; try done; try lia.
  apply (vm_ok_other (s <| ks_mem := m0 |>)); [eapply hart_ok_same; [done|apply Hok]|eapply lock_free_same; [done|apply Hok]|done|done|done].
Qed.
Lemma put_to_nil m0 root dst m : put_to m0 root dst m [] = (m, true, []).
Proof. by destruct dst. Qed.

(** One round of the loop of readi(). *)
Definition readi_body (ip : nat) (n : Z) (x : Z * Z * kdst * list Z) : K (Z * Z * kdst * list Z + Z * list Z) :=
  let '(tot, off, dst, got) := x in
  if negb (tot <? n) then ret (inr (i32 tot, got)) else
  let! addr := bmap ip (off / BSIZE) in
  if addr =? 0 then ret (inr (i32 tot, got)) else
  let! i := inode_of ip in
  let! bp := bread (i_dev i) addr in
  let m := Z.min (n - tot) (BSIZE - off `mod` BSIZE) in
  let! bf := buf_of bp in
  let! r := either_copyout dst (take (Z.to_nat m) (drop (Z.to_nat (off `mod` BSIZE)) (b_data bf))) in
  if fst r =? -1 then brelse bp ;; ret (inr (-1, got)) else
  brelse bp ;;
  ret (inl (tot + m, u32 (off + m), dst_add dst m, got ++ snd r)).

Section Loop.
Context (p : nat) (d start size : Z) (bl : list Z) (c : cache) (ip : nat) (i : inode) (pr : proc) (sb : superblock).
Context (m0 : gmap Z Z) (T : gmap Z nat) (fl : list Z) (n : Z).
Hypotheses (Hd : i_dev i = d) (Hi : inode_ok sb start size c i) (Hn : 0 <= n < 2 ^ 31).
#[local] Notation root := (p_pagetable pr).

(** The state in which a round starts, [r] bytes before the end. *)
Record reading (s : kstate) (off tot : Z) (dst : kdst) (r : nat) : Prop := mk_reading {
  rg_op : in_op s p d start size bl c;
  rg_itable : ks_itable s !! ip = Some i;
  rg_proc : ks_proc s !! p = Some pr;
  rg_off : 0 <= off /\ off + Z.of_nat r <= i_size i;
  rg_tot : 0 <= tot /\ n = tot + Z.of_nat r;
  rg_sink : sink_ok m0 root T fl dst (Z.of_nat r) s
}.

(** A round delivers the bytes up to the end of the block or of the range. *)
Lemma readi_round s off tot dst got r :
  reading s off tot dst r -> (0 < r)%nat ->
  let m := Z.to_nat (Z.min (Z.of_nat r) (BSIZE - off `mod` BSIZE)) in
  let '(m1, ok, got1) := put_to m0 root dst (ks_mem s) (ibytes c i off m) in
  exists s', fs_frame (s <| ks_mem := m1 |>) s' /\ ks_itable s' = ks_itable s /\ ks_mem s' = m1 /\
    if ok then readi_body ip n (tot, off, dst, got) s
               = Done (inl (tot + Z.of_nat m, off + Z.of_nat m, dst_add dst (Z.of_nat m), got ++ got1)) s' /\
               reading s' (off + Z.of_nat m) (tot + Z.of_nat m) (dst_add dst (Z.of_nat m)) (r - m)
    else readi_body ip n (tot, off, dst, got) s = Done (inr (-1, got)) s' /\ in_op s' p d start size bl c.
Proof.
  intros [Hop Hip Hpr Hoff Htot Hsink] Hr m. pose proof (ik_size _ _ _ _ _ Hi) as Hsz.
  assert (MAXFILE = 268 /\ BSIZE = 1024) as [HM HB] by done.
  pose proof (Z.mod_pos_bound off BSIZE ltac:(done)) as Hmod.
  assert (0 < m <= r)%nat as Hm by lia.
  assert (0 <= off / BSIZE < MAXFILE) as Hbn by (rewrite HM, HB in *; clear -Hoff Hr Hsz HM HB; dlia).
  pose proof (ik_full _ _ _ _ _ Hi off ltac:(lia)) as Hnz.
  destruct (bmap_mapped s p d start size bl c ip i (off / BSIZE) sb Hop Hip Hd Hi Hbn Hnz) as (s1 & E1 & F1 & Hop1).
  set (a := islot c i (slot_of (off / BSIZE))) in *. pose proof (bio_frame_itable _ _ F1) as Ei1.
  destruct (ik_blk _ _ _ _ _ Hi (slot_of (off / BSIZE)) (proj1 (slot_of_range _ Hbn)) Hnz) as (Hh & _).
  destruct (bread_op [] s1 p d start size bl c a Hop1 Hh) as (bp & s2 & E2 & F2 & Hb2);
    [apply not_elem_of_nil|apply (io_busy _ _ _ _ _ _ _ _ Hop1)|].
  destruct (holding_buf _ _ _ _ _ _ _ _ _ _ Hb2) as (bf & Hbf & Hdat & Hlen).
  assert (bio_frame s s2) as F12 by (by rewrite F1).
  assert (ks_mem s2 = ks_mem s /\ ks_proc s2 = ks_proc s) as [Em2 Ep2] by (rewrite F12; by split).
  assert (iblk c i (off / BSIZE) = Some (ca_val c a)) as Hblk.
  { unfold iblk. fold a. by rewrite (proj2 (Z.eqb_neq a 0)). }
  assert (take m (drop (Z.to_nat (off `mod` BSIZE)) (b_data bf)) = ibytes c i off m) as Eb.
  { rewrite Hdat. symmetry. apply ibytes_chunk; [lia|done|done|lia]. }
  pose proof (bo_quiet _ _ _ _ (rp_ok _ _ _ _ (io_rep _ _ _ _ _ _ _ _ Hb2))) as Hq.
  pose proof (either_copyout_ok m0 T fl dst (Z.of_nat r) s2 p pr (ibytes c i off m) Hq) as Hco.
  rewrite Ep2, Em2, length_ibytes in Hco. specialize (Hco Hpr (sink_ok_bio _ _ _ _ _ _ _ _ F12 Hsink)).
  specialize (Hco ltac:(intros E; apply (f_equal length) in E; rewrite length_ibytes in E; cbn in E; lia) ltac:(lia)).
  destruct (put_to m0 root dst (ks_mem s) (ibytes c i off m)) as [[m1 ok] got1] eqn:Eput. destruct Hco as [Eco Hsink'].
  assert (op_with [(bp, a)] (s2 <| ks_mem := m1 |>) p d start size bl c) as Hb3 by (eapply op_same; [apply same_mem|done]).
  destruct (brelse_op _ _ _ _ _ _ _ _ _ _ Hb3) as (s4 & E4 & F4 & Hop4). exists s4.
  assert (readi_body ip n (tot, off, dst, got) s =
    (if rc ok =? -1 then ret (inr (-1, got)) else
     ret (inl (tot + Z.of_nat m, u32 (off + Z.of_nat m), dst_add dst (Z.of_nat m), got ++ got1))) s4) as Ebody.
  { unfold readi_body. rewrite (proj2 (Z.ltb_lt tot n)) by lia. cbn [negb]. kstep E1. rewrite (proj2 (Z.eqb_neq a 0)) by done.
    kstep inode_of_ok; [|by rewrite Ei1]. rewrite Hd. kstep E2. kstep buf_of_ok; [|done].
    replace (Z.min (n - tot) (BSIZE - off `mod` BSIZE)) with (Z.of_nat m) by lia. rewrite Nat2Z.id, Eb. kstep Eco.
    destruct ok; cbn [fst snd rc Z.eqb Pos.eqb]; by kstep E4. }
  split_and!.
  - rewrite <- (bio_fs_frame _ _ F4). rewrite F12. unfold fs_frame. kstate_eq.
  - by rewrite (bio_frame_itable _ _ F4); change (ks_itable (s2 <| ks_mem := m1 |>)) with (ks_itable s2); rewrite (bio_frame_itable _ _ F12).
  - by rewrite F4.
  - rewrite u32_small in Ebody by (rewrite HM, HB in Hsz; lia).
    destruct ok; cbn [rc Z.eqb Pos.eqb] in Ebody.
    + split; [exact Ebody|]. split; [done| | |lia|lia|].
      * by rewrite (bio_frame_itable _ _ F4); change (ks_itable (s2 <| ks_mem := m1 |>)) with (ks_itable s2); rewrite (bio_frame_itable _ _ F12).
      * rewrite (bio_frame_proc _ _ F4). change (ks_proc (s2 <| ks_mem := m1 |>)) with (ks_proc s2). by rewrite Ep2.
      * eapply sink_ok_bio; [exact F4|]. replace (Z.of_nat (r - m)) with (Z.of_nat r - Z.of_nat m) by lia. by apply Hsink'.
    + split; [exact Ebody|done].
Qed.

Lemma put_to_failed dst m bs m1 got : put_to m0 root dst m bs = (m1, false, got) -> got = [].
Proof. destruct dst as [a|a|]; cbn; intros E; by simplify_eq. Qed.

Lemma readi_loop k s off tot dst got r :
  (r < k)%nat -> reading s off tot dst r ->
  let '(m1, ok, got1) := put_to m0 root dst (ks_mem s) (ibytes c i off r) in
  exists s', loop k (readi_body ip n) (tot, off, dst, got) s = Done (if ok then n else -1, got ++ got1) s' /\
    fs_frame (s <| ks_mem := m1 |>) s' /\ ks_itable s' = ks_itable s /\ ks_mem s' = m1 /\ in_op s' p d start size bl c.
Proof.
  revert k s off tot dst got. induction (lt_wf r) as [r _ IH]. intros k s off tot dst got Hk Hrd.
  destruct k as [|k]; [lia|]. destruct (decide (r = 0)%nat) as [->|Hr].
  { rewrite put_to_nil. exists s. pose proof (rg_tot _ _ _ _ _ Hrd) as [Ht En]. rewrite app_nil_r.
    split_and!; [|unfold fs_frame; kstate_eq|done|done|apply Hrd]. apply loop_done. unfold readi_body.
    rewrite (proj2 (Z.ltb_ge _ _)) by lia. cbn [negb]. unfold ret, i32. rewrite Z.mod_small by lia. do 3 f_equal. lia. }
  pose proof (readi_round s off tot dst got r Hrd ltac:(lia)) as Hround. cbv zeta in Hround.
  set (m := Z.to_nat (Z.min (Z.of_nat r) (BSIZE - off `mod` BSIZE))) in *.
  pose proof (Z.mod_pos_bound off BSIZE ltac:(done)) as Hmod. assert (0 < m <= r)%nat as Hm by lia.
  assert (ibytes c i off r = ibytes c i off m ++ ibytes c i (off + Z.of_nat m) (r - m)) as Eb.
  { rewrite <- ibytes_app. f_equal. lia. }
  rewrite Eb, (put_to_app m0 root T fl s).
  2: { rewrite <- Eb, length_ibytes. apply Hrd. }
  2: { intros E. apply (f_equal length) in E. rewrite length_ibytes in E. cbn in E. lia. }
  destruct (put_to m0 root dst (ks_mem s) (ibytes c i off m)) as [[m1 ok] got1] eqn:Eput.
  destruct Hround as (s1 & F1 & Ei1 & Em1 & Hres). rewrite length_ibytes. destruct ok.
  - destruct Hres as [E1 Hrd1]. pose proof (IH (r - m)%nat ltac:(lia) k s1 _ _ _ (got ++ got1) ltac:(lia) Hrd1) as IHr.
    rewrite Em1 in IHr.
    destruct (put_to m0 root _ m1 _) as [[m2 ok2] got2]. destruct IHr as (s2 & E2 & F2 & Ei2 & Em2 & Hop2).
    exists s2. split_and!; [|..|done|done].
    + rewrite (loop_next _ _ _ _ _ _ E1), E2. by rewrite app_assoc.
    + rewrite <- F2. rewrite F1. unfold fs_frame. kstate_eq.
    + by rewrite Ei2.
  - destruct Hres as [E1 Hop1]. exists s1. apply put_to_failed in Eput as ->. rewrite app_nil_r.
    split_and!; [by apply loop_done|done..].
Qed.
End Loop.

(** [off + n < off] in 32 bits. *)
Lemma range_wraps off n : 0 <= off < 2 ^ 32 -> 0 <= n < 2 ^ 32 -> (u32 (off + n) <? off) = (2 ^ 32 <=? off + n).
Proof.
  intros Hoff Hn. unfold u32. destruct (Z.leb_spec (2 ^ 32) (off + n)).
  - apply Z.ltb_lt. replace (off + n) with (off + n - 2 ^ 32 + 1 * 2 ^ 32) by lia. rewrite Z.mod_add, Z.mod_small; lia.
  - apply Z.ltb_ge. rewrite Z.mod_small; lia.
Qed.

(** What readi() has to deliver of the file: nothing when the range starts
    behind its end or wraps around, else the bytes up to the end. *)
Definition read_range (c : cache) (i : inode) (off n : Z) : list Z :=
  if (i_size i <? off) || (2 ^ 32 <=? off + n) then [] else take (Z.to_nat n) (drop (Z.to_nat off) (idata c i)).

(** readi() for every destination. *)
Lemma readi_op s p d start size bl c ip i pr dst off n T fl sb :
  in_op s p d start size bl c -> ks_itable s !! ip = Some i -> i_dev i = d -> inode_ok sb start size c i ->
  ks_proc s !! p = Some pr -> 0 <= off < 2 ^ 32 -> 0 <= n < 2 ^ 32 ->
  sink_ok (ks_mem s) (p_pagetable pr) T fl dst n s ->
  let bs := read_range c i off n in
  let '(m1, ok, got) := put_to (ks_mem s) (p_pagetable pr) dst (ks_mem s) bs in
  exists s', readi ip dst off n s = Done (if ok then Z.of_nat (length bs) else -1, got) s' /\
    fs_frame (s <| ks_mem := m1 |>) s' /\ ks_itable s' = ks_itable s /\ in_op s' p d start size bl c.
Proof.
  intros Hop Hip Hd Hi Hpr Hoff Hn Hsink bs. pose proof (ik_size _ _ _ _ _ Hi) as Hsz.
  change (MAXFILE * BSIZE) with 274432 in Hsz. unfold readi.
  rewrite (kbind_done _ _ _ _ _ (inode_of_ok s ip i Hip)).
  rewrite range_wraps by done. unfold bs, read_range. destruct ((i_size i <? off) || (2 ^ 32 <=? off + n)) eqn:Eg.
  { rewrite put_to_nil. exists s. split_and!; [done|unfold fs_frame; kstate_eq|done|done]. }
  apply orb_false_iff in Eg as [Eg1%Z.ltb_ge Eg2%Z.leb_gt]. rewrite u32_small by lia.
  set (n' := if i_size i <? off + n then u32 (i_size i - off) else n).
  assert (0 <= n' < 2 ^ 31 /\ n' <= n /\ off + n' <= i_size i /\ (n' = n \/ off + n' = i_size i)) as (Hn1 & Hn2 & Hn3 & Hn4).
  { unfold n'. destruct (Z.ltb_spec (i_size i) (off + n)); [rewrite u32_small by lia|]; lia. }
  assert (take (Z.to_nat n) (drop (Z.to_nat off) (idata c i)) = ibytes c i off (Z.to_nat n')) as Eb.
  { rewrite <- idata_range by lia. destruct Hn4 as [->|Hn4]; [done|].
    rewrite !take_ge; [done|..]; rewrite length_drop; unfold idata; rewrite length_ibytes; lia. }
  rewrite Eb, length_ibytes, Z2Nat.id by lia.
  pose proof (readi_loop p d start size bl c ip i pr sb (ks_mem s) T fl n' Hd Hi Hn1 (S (Z.to_nat n')) s off 0 dst [] (Z.to_nat n')) as Hl.
  destruct (put_to _ _ _ _ _) as [[m1 ok] got]. destruct Hl as (s' & E & F & Ei' & _ & Hop').
  { lia. }
  { split; try done; [lia|lia|]. destruct dst; cbn in *; try done; try lia. }
  exists s'. by split_and!.
Qed.

(** C3: readi() delivers exactly the bytes of the file between [off] and
    [off + n], as far as the file goes, and returns their number, whether they
    go to user memory, to kernel memory or to a variable; when user memory is
    not mapped it returns -1 and has stored what comes before the first unmapped
    byte.  The blocks, the log and the inodes are not changed. *)
Theorem readi_correct s p d start size bl c ip i pr dst off n T fl sb :
  in_op s p d start size bl c -> ks_itable s !! ip = Some i -> i_dev i = d -> inode_ok sb start size c i ->
  ks_proc s !! p = Some pr -> 0 <= off < 2 ^ 32 -> 0 <= n < 2 ^ 32 ->
  sink_ok (ks_mem s) (p_pagetable pr) T fl dst n s ->
  let bs := read_range c i off n in
  let '(m1, ok, got) := put_to (ks_mem s) (p_pagetable pr) dst (ks_mem s) bs in
  exists s', readi ip dst off n s = Done (if ok then Z.of_nat (length bs) else -1, got) s' /\
    fs_frame (s <| ks_mem := m1 |>) s' /\ ks_itable s' = ks_itable s /\ in_op s' p d start size bl c.
Proof. apply readi_op. Qed.
End Specs.
