(* ===== verification/FsWrite.v ===== *)
(** * Writing a file (fs.c: writei).

    writei() replaces the bytes of the file in the range given and extends it,
    allocating the blocks it needs, and writes the inode back.  It logs no more
    blocks than filewrite() of file.c reserves. *)

From S2P Require Import Prelude Defs KMonad Lock Mem Kalloc Sched Sleeplock Bio Log Vm UserMem Uart Fs FsBlock FsAlloc FsInode FsFile FsRead.

(** ** Where the bytes come from *)

(** As many of the next [n] bytes of the source as can be read. *)
Definition src_bytes (m : gmap Z Z) (root : Z) (src : ksrc) (n : nat) : list Z :=
  match src with
  | From_user a => uread m root a n
  | From_var bs => take n bs
  end.

Lemma uread_app m root va n n' :
  length (uread m root va n) = n -> uread m root va (n + n') = uread m root va n ++ uread m root (va + Z.of_nat n) n'.
Proof.
  revert va. induction n as [|n IH]; intros va Hf; cbn [uread Nat.add app]; [by rewrite Z.add_0_r|]. cbn [uread] in Hf.
  destruct (uphys m root va); [|done]. cbn [length] in Hf. cbn [app]. rewrite IH by lia. do 3 f_equal. lia.
Qed.
Lemma uread_prefix m root va n n' :
  length (uread m root va (n + n')) = (n + n')%nat -> length (uread m root va n) = n.
Proof.
  revert va. induction n as [|n IH]; intros va Hf; [done|]. cbn [uread Nat.add] in *.
  destruct (uphys m root va); [|done]. cbn [length] in *. f_equal. apply (IH (va + 1)). lia.
Qed.
Lemma uread_low m root va n : length (uread m root va n) = n -> (0 < n)%nat -> va + Z.of_nat n <= MAXVA.
Proof.
  revert va. induction n as [|n IH]; intros va Hf Hn; [lia|]. cbn [uread] in Hf. unfold uphys in Hf.
  destruct (upage m root va) as [q|] eqn:Hq; [|done]. apply upage_low in Hq. cbn [length fmap option_fmap option_map] in Hf.
  destruct n as [|n]; [lia|]. specialize (IH (va + 1) ltac:(lia) ltac:(lia)). lia.
Qed.

(** ** A block that is changed *)

Section Change.
Context (sb : superblock) (start size : Z) (c : cache) (i : inode) (a : Z) (v : list Z) (bl : list Z).
Hypotheses (Hal : alloc_ok sb start size c) (Hi : inode_ok sb start size c i).
#[local] Notation c' := (c_logged a v bl c).

Lemma change_free b : not_bitmap sb a -> 0 <= b < sb_size sb -> blk_free sb c' b <-> blk_free sb c b.
Proof. intros Hnb Hb. unfold blk_free. rewrite logged_val, fset_ne; [done|]. by apply Hnb. Qed.
Lemma change_islot j : a <> islot c i NDIRECT -> islot c' i j = islot c i j.
Proof.
  intros Ha. unfold islot in *. destruct (j <=? NDIRECT); [done|]. rewrite Z.leb_refl in Ha.
  destruct (_ =? 0); [done|]. rewrite logged_val, fset_ne; done.
Qed.
Lemma change_ok :
  not_bitmap sb a -> a <> islot c i NDIRECT -> alloc_ok sb start size c' /\ inode_ok sb start size c' i.
Proof.
  intros Hnb Ha. pose proof (fun b => change_free b Hnb) as Hf. pose proof (fun j => change_islot j Ha) as Hs. split.
  - apply (alloc_ok_grows _ _ _ c); [done|intros b Hb; by rewrite Hf].
  - destruct Hi as [H1 H2 H3 H4 H5]. split; [done| | |done|].
    + intros j Hj. rewrite Hs. intros Hnz. destruct (H2 j Hj Hnz) as (? & ? & ? & ?). split_and!; try done; try lia.
      by rewrite Hf.
    + intros j j'. rewrite !Hs. apply H3.
    + intros x. rewrite Hs. apply H5.
Qed.

(** A block of the file. *)
Lemma change_block bn :
  0 <= bn < MAXFILE -> a = islot c i (slot_of bn) -> a <> 0 ->
  alloc_ok sb start size c' /\ inode_ok sb start size c' i /\ fgrows sb c i c' i /\
  (forall j, islot c' i j = islot c i j) /\
  (forall k, 0 <= k < MAXFILE -> iblk c' i k = if decide (k = bn) then Some v else iblk c i k).
Proof.
  intros Hbn Ha Hnz. destruct (slot_of_range bn Hbn) as [Hs Hs'].
  destruct (ik_blk _ _ _ _ _ Hi (slot_of bn) Hs) as (Hh & Hr & Hu & Hnb); [by rewrite <- Ha|]. rewrite <- Ha in *.
  assert (0 <= NDIRECT <= MAXFILE) as HN by (by vm_compute).
  assert (a <> islot c i NDIRECT) as Hne.
  { intros E. apply Hs'. apply (ik_inj _ _ _ _ _ Hi); [done|done|by rewrite <- Ha|by rewrite <- Ha]. }
  destruct (change_ok Hnb Hne) as [Hal' Hi']. pose proof (fun j => change_islot j Hne) as Hsl.
  split_and!; [done|done| |done|].
  - split; [intros b Hb; by rewrite change_free|]. intros m Hm (F1 & F2 & F3). split; [split_and!; [by rewrite change_free by (done || lia)|done|]|].
    + intros j Hj. rewrite Hsl. by apply F3.
    + rewrite logged_val, fset_ne; [done|]. intros ->. by apply (F3 (slot_of bn)).
  - intros k Hk. unfold iblk. rewrite Hsl, logged_val. case_decide as E.
    + subst k. rewrite <- Ha, (proj2 (Z.eqb_neq a 0)) by done. by rewrite fset_eq.
    + destruct (Z.eqb_spec (islot c i (slot_of k)) 0) as [|Hnz']; [done|]. rewrite fset_ne; [done|].
      intros E'. apply E, slot_of_inj. destruct (slot_of_range k Hk). apply (ik_inj _ _ _ _ _ Hi); try done. congruence.
Qed.

(** A block that belongs to something else. *)
Lemma change_foreign :
  0 < a -> foreign sb c i a ->
  alloc_ok sb start size c' /\ inode_ok sb start size c' i /\
  (forall b, 0 <= b < sb_size sb -> blk_free sb c' b <-> blk_free sb c b) /\
  (forall j, islot c' i j = islot c i j) /\ (forall k, 0 <= k < MAXFILE -> iblk c' i k = iblk c i k).
Proof.
  intros Hpos (F1 & F2 & F3). assert (0 <= NDIRECT <= MAXFILE) as HN by (by vm_compute).
  assert (a <> islot c i NDIRECT) as Hne by (intros E; by apply (F3 NDIRECT)).
  destruct (change_ok F2 Hne) as [Hal' Hi']. pose proof (fun j => change_islot j Hne) as Hsl.
  split_and!; [done|done|intros; by apply change_free|done|]. intros k Hk. unfold iblk. rewrite Hsl, logged_val.
  destruct (_ =? 0); [done|]. rewrite fset_ne; [done|]. apply F3, slot_of_range, Hk.
Qed.
End Change.

Section Specs.
Context `{Fuel, BlockDevice, KernelImage, UartReady}.

(** A user source has page tables; all [n] bytes can be read. *)
Definition source_ok (m : gmap Z Z) (root : Z) (T : gmap Z nat) (src : ksrc) (n : nat) : Prop :=
  length (src_bytes m root src n) = n /\
  match src with From_user a => 0 <= a < 2 ^ 64 /\ tables m root T | From_var _ => True end.

Lemma source_split m root T src n n' :
  source_ok m root T src (n + n') -> (0 < n)%nat ->
  source_ok m root T src n /\ source_ok m root T (src_add src (Z.of_nat n)) n' /\
  src_bytes m root src (n + n') = src_bytes m root src n ++ src_bytes m root (src_add src (Z.of_nat n)) n'.
Proof.
  intros [Hf Hs] Hn. destruct src as [a|bs]; cbn [src_bytes src_add] in *.
  - pose proof (uread_prefix _ _ _ _ _ Hf) as Hp. pose proof (uread_low _ _ _ _ Hp Hn) as Hl.
    destruct Hs as [Ha Ht]. change MAXVA with (2 ^ 38) in Hl. rewrite u64_small by lia.
    pose proof (uread_app m root a n n' Hp) as Ea. split_and!; [by split|split; [|split; [lia|done]]|done].
    cbn [src_bytes]. rewrite Ea, length_app in Hf. lia.
  - rewrite length_take in Hf. rewrite Nat2Z.id. split_and!; [|split; [|done]|].
    + split; [|done]. cbn. rewrite length_take. lia.
    + cbn. rewrite length_take, length_drop. lia.
    + apply list_eq. intros k. destruct (decide (k < n)%nat).
      * rewrite lookup_app_l by (rewrite length_take; lia). by rewrite !lookup_take_lt by lia.
      * rewrite lookup_app_r by (rewrite length_take; lia). rewrite length_take, Nat.min_l by lia.
        destruct (decide (k < n + n')%nat); [|by rewrite !lookup_take_ge by lia].
        rewrite !lookup_take_lt, lookup_drop by lia. f_equal. lia.
Qed.

Lemma either_copyin_ok s p pr T src n :
  quiet s p -> ks_proc s !! p = Some pr -> source_ok (ks_mem s) (p_pagetable pr) T src n ->
  either_copyin src (Z.of_nat n) s = Done (0, src_bytes (ks_mem s) (p_pagetable pr) src n) s.
Proof.
  intros Hq Hp [Hf Hs]. unfold either_copyin.
  rewrite (kbind_done _ _ _ _ _ (cur_proc_ok s p (q_hart _ _ Hq) (q_cur _ _ Hq))). destruct src as [a|bs].
  - rewrite (kbind_done _ _ _ _ _ (proc_of_ok _ _ _ Hp)). destruct Hs as [Ha Ht].
    pose proof (copyin_loop (S n) s (p_pagetable pr) T a n [] ltac:(lia) Ht Ha) as E. cbv zeta in E.
    rewrite copyin_unfold, Nat2Z.id, E. cbn [src_bytes] in Hf. by rewrite Hf, Nat.eqb_refl.
  - by rewrite Nat2Z.id.
Qed.

(** ** The cost of a write

    Each block of the range costs the log its own number, and that of the bitmap
    when it has to be allocated. *)
Definition blk_cost (c : cache) (i : inode) (k : Z) : Z := if iblk c i k then 1 else 2.
Definition range_blocks (off : Z) (n : nat) : Z :=
  if decide (n = 0)%nat then 0 else (off + Z.of_nat n - 1) / BSIZE - off / BSIZE + 1.
Definition write_cost (c : cache) (i : inode) (off : Z) (n : nat) : Z :=
  foldr Z.add 0 (blk_cost c i <$> seqZ (off / BSIZE) (range_blocks off n)).

Lemma foldr_add_nonneg l : Forall (fun x => 0 <= x) l -> 0 <= foldr Z.add 0 l.
Proof. induction 1; cbn; lia. Qed.
Lemma blk_cost_range c i k : 1 <= blk_cost c i k <= 2.
Proof. unfold blk_cost. destruct (iblk c i k); lia. Qed.
Lemma write_cost_nonneg c i off n : 0 <= write_cost c i off n.
Proof.
  apply foldr_add_nonneg, Forall_forall. intros x (k & -> & _)%list_elem_of_fmap. pose proof (blk_cost_range c i k). lia.
Qed.

(** The bytes of the range in its first block. *)
Definition chunk (off : Z) (n : nat) : nat := Z.to_nat (Z.min (Z.of_nat n) (BSIZE - off `mod` BSIZE)).
Lemma chunk_range off n : (0 < n)%nat -> (0 < chunk off n <= n)%nat /\ off `mod` BSIZE + Z.of_nat (chunk off n) <= BSIZE.
Proof. intros Hn. pose proof (Z.mod_pos_bound off BSIZE ltac:(done)). unfold chunk. lia. Qed.

Lemma write_cost_step c i off n :
  0 <= off -> (0 < n)%nat ->
  write_cost c i off n = blk_cost c i (off / BSIZE) + write_cost c i (off + Z.of_nat (chunk off n)) (n - chunk off n).
Proof.
  intros Hoff Hn. pose proof (chunk_range off n Hn) as [Hm Hm']. unfold write_cost.
  set (m := chunk off n) in *. set (q := off / BSIZE).
  assert (0 < range_blocks off n) as Hpos.
  { unfold range_blocks. rewrite decide_False by lia. clear -Hoff Hn. unfold BSIZE. dlia. }
  rewrite (seqZ_cons q) by done. cbn [fmap list_fmap foldr]. f_equal. f_equal. f_equal.
  destruct (decide (m = n)) as [E|Hlt].
  - rewrite E, Nat.sub_diag. assert (range_blocks off n = 1) as ->; [|done].
    unfold range_blocks. rewrite decide_False by lia. rewrite E in Hm'. clear -Hm' Hoff Hn. unfold BSIZE in *. dlia.
  - assert ((off + Z.of_nat m) / BSIZE = q + 1 /\ range_blocks (off + Z.of_nat m) (n - m) = Z.pred (range_blocks off n)) as [-> ->]; [|done].
    assert (Z.of_nat m = BSIZE - off `mod` BSIZE) as Em by (unfold m, chunk in *; lia).
    unfold range_blocks, q. rewrite !decide_False by lia. clear -Em Hoff Hn Hlt Hm. unfold BSIZE in *. dlia.
Qed.

Lemma write_cost_ext c i c' i' off n :
  (forall k, off / BSIZE <= k <= (off + Z.of_nat n - 1) / BSIZE -> blk_cost c' i' k = blk_cost c i k) ->
  write_cost c' i' off n = write_cost c i off n.
Proof.
  intros Hk. unfold write_cost. f_equal. apply list_fmap_ext. intros j k Hj%list_elem_of_lookup_2%elem_of_seqZ.
  apply Hk. unfold range_blocks in Hj. destruct (decide (n = 0)%nat); lia.
Qed.

(** ** What a write does to a file *)
Record wrote (sb : superblock) (off : Z) (bs : list Z) (bl : list Z) (c : cache) (i : inode)
    (bl' : list Z) (c' : cache) (i' : inode) : Prop := mk_wrote {
  wr_grows : fgrows sb c i c' i';
  wr_same : i' = i <| i_addrs := i_addrs i' |>;
  wr_log : bl ⊆ bl';
  wr_kept k : 0 <= k < MAXFILE -> iblk c i k <> None -> iblk c' i' k <> None;
  wr_there x : off <= x < off + Z.of_nat (length bs) -> iblk c' i' (x / BSIZE) <> None;
  wr_byte x : 0 <= x < MAXFILE * BSIZE ->
    ibyte c' i' x = if decide (off <= x < off + Z.of_nat (length bs)) then default 0 (bs !! Z.to_nat (x - off)) else ibyte c i x
}.

Lemma wrote_nil sb off bl c i : wrote sb off [] bl c i bl c i.
Proof.
  split; [apply fgrows_refl|by destruct i|done|done|cbn; lia|]. intros x Hx. rewrite decide_False; [done|cbn; lia].
Qed.
Lemma wrote_app sb off bs bs' bl c i bl1 c1 i1 bl2 c2 i2 :
  0 <= off -> off + Z.of_nat (length (bs ++ bs')) <= MAXFILE * BSIZE ->
  wrote sb off bs bl c i bl1 c1 i1 -> wrote sb (off + Z.of_nat (length bs)) bs' bl1 c1 i1 bl2 c2 i2 ->
  wrote sb off (bs ++ bs') bl c i bl2 c2 i2.
Proof.
  intros Hoff Hmax [A1 A2 A3 A4 A5 A6] [B1 B2 B3 B4 B5 B6]. rewrite length_app in Hmax.
  change (MAXFILE * BSIZE) with 274432 in *. change MAXFILE with 268 in *. split.
  - by eapply fgrows_trans.
  - rewrite B2, A2. by destruct i.
  - set_solver.
  - auto.
  - intros x Hx. rewrite length_app in Hx. destruct (decide (x < off + Z.of_nat (length bs))); [|apply B5; lia].
    apply B4; [|apply A5; lia]. unfold BSIZE. dlia.
  - intros x Hx. rewrite B6, A6, length_app by done. destruct (decide (off + Z.of_nat (length bs) <= x < _)).
    + rewrite decide_True by lia. rewrite lookup_app_r by lia. do 2 f_equal. lia.
    + destruct (decide (off <= x < off + Z.of_nat (length bs))).
      * rewrite decide_True by lia. by rewrite lookup_app_l by lia.
      * by rewrite decide_False by lia.
Qed.

Lemma bmapped_blk sb start size bn bl c i a bl' c' i' :
  bmapped sb start size bn bl c i a bl' c' i' -> a <> 0 -> iblk c' i' bn = Some (default zero_block (iblk c i bn)).
Proof.
  intros Hb Ha. pose proof (bm_this _ _ _ _ _ _ _ _ _ _ _ Hb) as Ht. rewrite decide_False in Ht by done.
  destruct Ht as (Es & Ev & _). unfold iblk at 1. by rewrite Es, (proj2 (Z.eqb_neq a 0)), Ev.
Qed.

(** Finding or allocating a block does not change the bytes of the file. *)
Lemma bmapped_wrote sb start size bn bl c i a bl' c' i' off :
  bmapped sb start size bn bl c i a bl' c' i' -> 0 <= bn < MAXFILE -> wrote sb off [] bl c i bl' c' i'.
Proof.
  intros Hb Hbn. split; [apply Hb|apply Hb|apply Hb| |cbn; lia|].
  - intros k Hk Hnz. destruct (decide (k = bn)) as [->|Hne]; [|by rewrite (bm_other _ _ _ _ _ _ _ _ _ _ _ Hb)].
    destruct (decide (a = 0)) as [->|Ha]; [|by rewrite (bmapped_blk _ _ _ _ _ _ _ _ _ _ _ Hb)].
    pose proof (bm_this _ _ _ _ _ _ _ _ _ _ _ Hb) as Ht. rewrite decide_True in Ht by done. naive_solver.
  - intros x Hx. rewrite decide_False by (cbn; lia). unfold ibyte.
    assert (0 <= x / BSIZE < MAXFILE) as Hq by (change (MAXFILE * BSIZE) with 274432 in Hx; change MAXFILE with 268; unfold BSIZE; dlia).
    destruct (decide (x / BSIZE = bn)) as [E|Hne]; [|by rewrite (bm_other _ _ _ _ _ _ _ _ _ _ _ Hb)]. rewrite E.
    destruct (decide (a = 0)) as [->|Ha].
    + pose proof (bm_this _ _ _ _ _ _ _ _ _ _ _ Hb) as Ht. rewrite decide_True in Ht by done. by destruct Ht as (-> & -> & _).
    + rewrite (bmapped_blk _ _ _ _ _ _ _ _ _ _ _ Hb Ha). destruct (iblk c i bn) as [v|]; [done|]. cbn [from_option id].
      unfold zero_block. destruct (replicate _ 0 !! _) as [y|] eqn:Ey; [|done]. by apply lookup_replicate in Ey as [-> _].
Qed.

(** Writing within one block of the file that is there. *)
Lemma change_wrote sb start size c i off bs bl bl' v :
  alloc_ok sb start size c -> inode_ok sb start size c i -> 0 <= off -> 0 <= off / BSIZE < MAXFILE ->
  off `mod` BSIZE + Z.of_nat (length bs) <= BSIZE -> iblk c i (off / BSIZE) = Some v -> length v = Z.to_nat BSIZE ->
  bl ⊆ bl' -> forall bl0,
  let a := islot c i (slot_of (off / BSIZE)) in
  wrote sb off bs bl c i bl' (c_logged a (patch v (Z.to_nat (off `mod` BSIZE)) bs) bl0 c) i.
Proof.
  intros Hal Hi Hoff Hbn Hm Hv Hlen Hsub bl0 a. assert (BSIZE = 1024) as HB by done.
  assert (a <> 0) as Hnz by (intros E; apply iblk_none in E; congruence).
  destruct (change_block sb start size c i a (patch v (Z.to_nat (off `mod` BSIZE)) bs) bl0 Hal Hi (off / BSIZE) Hbn eq_refl Hnz)
    as (G1 & G2 & G3 & G4 & G5).
  split; [done|by destruct i|done| | |].
  - intros k Hk Hk'. rewrite G5 by done. by case_decide.
  - intros x Hx. assert (x / BSIZE = off / BSIZE) as -> by (clear -Hx Hm Hoff HB; rewrite HB in *; dlia).
    rewrite G5 by done. by rewrite decide_True.
  - intros x Hx. assert (0 <= x / BSIZE < MAXFILE) as Hq
      by (change (MAXFILE * BSIZE) with 274432 in Hx; change MAXFILE with 268; clear -Hx HB; rewrite HB; dlia).
    unfold ibyte. rewrite G5 by done. destruct (decide (x / BSIZE = off / BSIZE)) as [E|E].
    + rewrite E, Hv. cbn [from_option id]. rewrite patch_lookup by (rewrite Hlen; clear -Hm HB Hoff; rewrite HB in *; dlia).
      clear -Hx Hm Hoff HB E. destruct (decide (off <= x < _)) as [Hin|Hout].
      * rewrite decide_True by (rewrite HB in *; dlia). do 2 f_equal. rewrite HB in *. dlia.
      * rewrite decide_False by (rewrite HB in *; dlia). done.
    + rewrite decide_False; [done|]. intros Hin. apply E. clear -Hin Hm Hoff HB. rewrite HB in *. dlia.
Qed.

(** ** The loop *)

Definition writei_body (ip : nat) (n : Z) (x : Z * Z * ksrc) : K (Z * Z * ksrc + Z * Z) :=
  let '(tot, off, src) := x in
  if negb (tot <? n) then ret (inr (tot, off)) else
  let! addr := bmap ip (off / BSIZE) in
  if addr =? 0 then ret (inr (tot, off)) else
  let! i := inode_of ip in
  let! bp := bread (i_dev i) addr in
  let m := Z.min (n - tot) (BSIZE - off `mod` BSIZE) in
  let! r := either_copyin src m in
  set_data bp (fun d => patch d (Z.to_nat (off `mod` BSIZE)) (snd r)) ;;
  if fst r =? -1 then brelse bp ;; ret (inr (tot, off)) else
  log_write bp ;;
  brelse bp ;;
  ret (inl (tot + m, u32 (off + m), src_add src m)).

Section Loop.
Context (p : nat) (d start size : Z) (ip : nat) (pr : proc) (sb : superblock) (mem : gmap Z Z) (T : gmap Z nat) (n : Z).
#[local] Notation root := (p_pagetable pr).

(** A state of the file in the middle of a write. *)
Record wstate (s : kstate) (bl : list Z) (c : cache) (i : inode) : Prop := mk_wstate {
  ws_op : in_op s p d start size bl c;
  ws_alloc : alloc_ok sb start size c;
  ws_inode : inode_ok sb start size c i;
  ws_itable : ks_itable s !! ip = Some i;
  ws_dev : i_dev i = d;
  ws_proc : ks_proc s !! p = Some pr;
  ws_sb : ks_sb s = sb;
  ws_calm : ks_panicked s = 0;
  ws_mem : ks_mem s = mem
}.

(** bmap() keeps such a state. *)
Lemma wstate_bmap s bl c i bn k :
  wstate s bl c i -> 0 <= bn < MAXFILE -> 1 <= k ->
  room (k + (if iblk c i bn then 0 else 2) + ind_cost bl c i) 1 size bl c ->
  exists a s' bl' c' i', bmap ip bn s = Done a s' /\ fs_frame s s' /\ ks_itable s' = <[ip := i']> (ks_itable s) /\
    wstate s' bl' c' i' /\ bmapped sb start size bn bl c i a bl' c' i' /\ room (k + ind_cost bl' c' i') 1 size bl' c'.
Proof.
  intros [Hop Hal Hi Hip Hd Hpr Esb Hpan Hm] Hbn Hk Hroom. rewrite <- Esb in Hal, Hi.
  destruct (bmap_op s p d start size bl c ip i bn k) as (a & s' & bl' & c' & i' & E & F & Ei & Hop' & Hb & Hr); [done..|].
  rewrite Esb in Hb. exists a, s', bl', c', i'. split_and!; try done. destruct (fs_frame_eqs _ _ F) as (E1 & E2 & E3 & E4).
  split; rewrite ?E1, ?E2, ?E3, ?E4; try done; [apply Hb|apply Hb| |].
  - rewrite Ei. apply list_lookup_insert_eq, lookup_lt_is_Some. eauto.
  - by rewrite (bm_same _ _ _ _ _ _ _ _ _ _ _ Hb).
Qed.

(** The rest of a round, when the block is there. *)
Lemma writei_put {X} (stop next : X) s bl c i off src m k :
  wstate s bl c i -> 0 <= off -> 0 <= off / BSIZE < MAXFILE -> off `mod` BSIZE + Z.of_nat m <= BSIZE ->
  source_ok mem root T src m -> let a := islot c i (slot_of (off / BSIZE)) in a <> 0 ->
  1 <= k -> room (k + (if decide (a ∈ bl) then 0 else 1)) 1 size bl c ->
  exists s' bl' c', (let! i := inode_of ip in
    let! bp := bread (i_dev i) a in
    let! r := either_copyin src (Z.of_nat m) in
    set_data bp (fun d => patch d (Z.to_nat (off `mod` BSIZE)) (snd r)) ;;
    if fst r =? -1 then brelse bp ;; ret stop else
    log_write bp ;;
    brelse bp ;;
    ret next) s = Done next s' /\ fs_frame s s' /\ ks_itable s' = ks_itable s /\ wstate s' bl' c' i /\
    wrote sb off (src_bytes mem root src m) bl c i bl' c' i /\ room k 1 size bl' c' /\
    islot c' i NDIRECT = islot c i NDIRECT /\ (forall k, 0 <= k < MAXFILE -> k <> off / BSIZE -> iblk c' i k = iblk c i k).
Proof.
  intros [Hop Hal Hi Hip Hd Hpr Esb Hpan Em] Hoff Hbn Hm Hsrc a Hnz Hk Hroom. pose proof Hsrc as [Hfull _].
  destruct (ik_blk _ _ _ _ _ Hi (slot_of (off / BSIZE)) (proj1 (slot_of_range _ Hbn)) Hnz) as (Hh & _). fold a in Hh.
  kstep inode_of_ok; [|done]. rewrite Hd.
  destruct (bread_op [] s p d start size bl c a Hop Hh) as (bp & s1 & E1 & F1 & Hb1);
    [apply not_elem_of_nil|apply (io_busy _ _ _ _ _ _ _ _ Hop)|]. kstep E1.
  destruct (holding_buf _ _ _ _ _ _ _ _ _ _ Hb1) as (bf & Hbf & Hdat & Hlen).
  pose proof (bo_quiet _ _ _ _ (rp_ok _ _ _ _ (io_rep _ _ _ _ _ _ _ _ Hb1))) as Hq.
  destruct (fs_frame_eqs _ _ (bio_fs_frame _ _ F1)) as (_ & _ & Em1 & Ep1).
  pose proof (either_copyin_ok s1 p pr T src m Hq) as Ec. rewrite Em1, Ep1, Em in Ec. kstep (Ec Hpr Hsrc). cbn [fst snd Z.eqb].
  set (bs := src_bytes mem root src m) in *. set (f := fun dat => patch dat (Z.to_nat (off `mod` BSIZE)) bs).
  destruct (update_op [] s1 p d start size bl c bp a f Hb1) as (s2 & E2 & F2 & Hop2).
  { eapply room_le; [done|case_decide; lia|cbn; case_decide; lia]. }
  { unfold f. rewrite length_patch; [done|]. rewrite Hlen, Hfull. clear -Hm Hoff. unfold BSIZE in *. dlia. }
  rewrite (kseq3_done _ _ _ _ _ _ E2).
  destruct (change_block sb start size c i a (f (ca_val c a)) bl Hal Hi (off / BSIZE) Hbn eq_refl Hnz) as (G1 & G2 & G3 & G4 & G5).
  assert (fs_frame s s2) as F12 by (by rewrite (bio_fs_frame _ _ F1), (log_fs_frame _ _ F2)).
  destruct (fs_frame_eqs _ _ F12) as (Esb2 & Ep2 & Em2 & Epr2).
  assert (ks_itable s2 = ks_itable s) as Ei2 by (by rewrite (log_frame_itable _ _ F2), (bio_frame_itable _ _ F1)).
  eexists s2, (log_added a bl), _. split_and!; [done|done|done| | | |apply G4|].
  - split; rewrite ?Ei2, ?Esb2, ?Ep2, ?Em2, ?Epr2; [exact Hop2|done..].
  - apply (change_wrote sb start size); try done; [by rewrite Hfull|unfold iblk; fold a; by rewrite (proj2 (Z.eqb_neq a 0))|].
    intros x Hx. rewrite elem_of_log_added. by right.
  - case_decide as Hin.
    + apply room_logged_again; [by rewrite Z.add_0_r in Hroom|done].
    + apply room_logged; [done|]. apply (io_refs _ _ _ _ _ _ _ _ Hop).
  - intros x Hx Hne. rewrite G5 by done. by rewrite decide_False.
Qed.

Lemma write_cost_0 c i off : write_cost c i off 0 = 0.
Proof. reflexivity. Qed.

(** Blocks behind the first one cost what they did before it was written. *)
Lemma write_cost_rest c i c' i' off r :
  0 <= off -> off + Z.of_nat r <= MAXFILE * BSIZE -> (0 < r)%nat ->
  (forall k, 0 <= k < MAXFILE -> k <> off / BSIZE -> iblk c' i' k = iblk c i k) ->
  write_cost c' i' (off + Z.of_nat (chunk off r)) (r - chunk off r) = write_cost c i (off + Z.of_nat (chunk off r)) (r - chunk off r).
Proof.
  intros Hoff Hmax Hr Hk. pose proof (chunk_range off r Hr) as [Hm Hm']. set (m := chunk off r) in *.
  destruct (decide (m = r)) as [->|Hne]; [by rewrite Nat.sub_diag, !write_cost_0|].
  apply write_cost_ext. intros k Hin. unfold blk_cost. rewrite Hk; [done| |].
  - change (MAXFILE * BSIZE) with 274432 in Hmax. change MAXFILE with 268. unfold BSIZE in *. dlia.
  - assert (Z.of_nat m = BSIZE - off `mod` BSIZE) as Em by (unfold m, chunk in *; lia). clear -Em Hin Hoff. unfold BSIZE in *. dlia.
Qed.

(** One round: the bytes up to the end of the block are written, or there is
    no block for them. *)
Lemma writei_round s bl c i off tot src r :
  wstate s bl c i -> 0 <= off -> off + Z.of_nat r <= MAXFILE * BSIZE -> (0 < r)%nat -> 0 <= tot -> n = tot + Z.of_nat r ->
  source_ok mem root T src r -> room (1 + write_cost c i off r + ind_cost bl c i) 1 size bl c ->
  let m := chunk off r in
  exists s' bl' c' i', fs_frame s s' /\ ks_itable s' = <[ip := i']> (ks_itable s) /\ wstate s' bl' c' i' /\
    (writei_body ip n (tot, off, src) s = Done (inl (tot + Z.of_nat m, off + Z.of_nat m, src_add src (Z.of_nat m))) s' /\
     wrote sb off (src_bytes mem root src m) bl c i bl' c' i' /\
     room (1 + write_cost c' i' (off + Z.of_nat m) (r - m) + ind_cost bl' c' i') 1 size bl' c' \/
     writei_body ip n (tot, off, src) s = Done (inr (tot, off)) s' /\ wrote sb off [] bl c i bl' c' i' /\
     room 1 1 size bl' c' /\ forall b, 0 <= b < sb_size sb -> ~ blk_free sb c' b).
Proof.
  intros Hw Hoff Hmax Hr Htot En Hsrc Hroom m. pose proof (chunk_range off r Hr) as [Hm Hm']. fold m in Hm, Hm'.
  assert (0 <= off / BSIZE < MAXFILE) as Hbn
    by (change (MAXFILE * BSIZE) with 274432 in Hmax; change MAXFILE with 268; clear -Hmax Hoff Hr; unfold BSIZE; dlia).
  rewrite write_cost_step in Hroom by done. fold m in Hroom.
  set (rest := write_cost c i (off + Z.of_nat m) (r - m)) in *. pose proof (write_cost_nonneg c i (off + Z.of_nat m) (r - m)) as Hrest. fold rest in Hrest.
  set (x := if iblk c i (off / BSIZE) then 1 else 0 : Z).
  assert (0 <= x) as Hx by (unfold x; destruct (iblk _ _ _); lia).
  destruct (wstate_bmap s bl c i (off / BSIZE) (1 + rest + x) Hw Hbn) as (a & s1 & bl1 & c1 & i1 & E1 & F1 & Ei1 & Hw1 & Hb1 & Hr1).
  { lia. }
  { eapply room_le; [done|..]; unfold blk_cost, x; destruct (iblk c i (off / BSIZE)); lia. }
  pose proof (ind_cost_range bl1 c1 i1) as Hc1.
  unfold writei_body. rewrite (proj2 (Z.ltb_lt tot n)) by lia. cbn [negb].
  pose proof (bm_this _ _ _ _ _ _ _ _ _ _ _ Hb1) as Hthis. destruct (decide (a = 0)) as [->|Ha].
  - exists s1, bl1, c1, i1. split_and!; [done..|]. right. split_and!; [by kstep E1|by eapply bmapped_wrote|eapply room_le; [done|lia|lia]|apply Hthis].
  - destruct Hthis as (Es & _ & Hfresh).
    destruct (source_split mem root T src m (r - m)) as (Hs1 & _); [by replace (m + (r - m))%nat with r by lia|lia|].
    destruct (writei_put (@inr (Z * Z * ksrc) (Z * Z) (tot, off)) (inl (tot + Z.of_nat m, u32 (off + Z.of_nat m), src_add src (Z.of_nat m)))
      s1 bl1 c1 i1 off src m (1 + rest + ind_cost bl1 c1 i1) Hw1 Hoff Hbn Hm' Hs1)
      as (s2 & bl2 & c2 & E2 & F2 & Ei2 & Hw2 & Hwr2 & Hr2 & Hind & Hblk); [by rewrite Es|lia| |].
    { rewrite Es. eapply room_le; [done|..]; unfold x; destruct (iblk c i (off / BSIZE)); case_decide as Hin; try lia; by specialize (Hfresh eq_refl). }
    exists s2, bl2, c2, i1. split_and!; [by rewrite F1|by rewrite Ei2|done|]. left. split_and!.
    + kstep E1. rewrite (proj2 (Z.eqb_neq a 0)) by done.
      replace (Z.min (n - tot) (BSIZE - off `mod` BSIZE)) with (Z.of_nat m) by (unfold m, chunk; lia).
      rewrite Es in E2. rewrite u32_small in E2 by (change (MAXFILE * BSIZE) with 274432 in Hmax; lia).
      rewrite u32_small by (change (MAXFILE * BSIZE) with 274432 in Hmax; lia). exact E2.
    + rewrite <- (app_nil_l (src_bytes _ _ _ _)). pose proof Hs1 as [Hl _]. eapply wrote_app; [done|cbn [app]; rewrite Hl; lia|by eapply bmapped_wrote|].
      cbn [length]. by rewrite Z.add_0_r.
    + assert (write_cost c2 i1 (off + Z.of_nat m) (r - m) = rest) as ->.
      { apply write_cost_rest; try done. intros k Hk Hne. rewrite Hblk by done. by apply (bm_other _ _ _ _ _ _ _ _ _ _ _ Hb1). }
      pose proof (ind_cost_logged bl1 bl2 c1 i1 c2 i1 Hind (wr_log _ _ _ _ _ _ _ _ _ Hwr2)).
      eapply room_le; [done|lia|lia].
Qed.

Lemma writei_loop k s bl c i off tot src r :
  (r < k)%nat -> wstate s bl c i -> 0 <= off -> off + Z.of_nat r <= MAXFILE * BSIZE -> 0 <= tot -> n = tot + Z.of_nat r ->
  source_ok mem root T src r -> room (1 + write_cost c i off r + ind_cost bl c i) 1 size bl c ->
  exists t s' bl' c' i', (t <= r)%nat /\
    loop k (writei_body ip n) (tot, off, src) s = Done (tot + Z.of_nat t, off + Z.of_nat t) s' /\
    fs_frame s s' /\ ks_itable s' = <[ip := i']> (ks_itable s) /\ wstate s' bl' c' i' /\
    wrote sb off (take t (src_bytes mem root src r)) bl c i bl' c' i' /\ room 1 1 size bl' c' /\
    (t = r \/ (t = 0%nat \/ (off + Z.of_nat t) `mod` BSIZE = 0) /\ forall b, 0 <= b < sb_size sb -> ~ blk_free sb c' b).
Proof.
  revert k s bl c i off tot src. induction (lt_wf r) as [r _ IH]. intros k s bl c i off tot src Hk Hw Hoff Hmax Htot En Hsrc Hroom.
  destruct k as [|k]; [lia|]. pose proof (ind_cost_range bl c i) as Hc. destruct (decide (r = 0)%nat) as [->|Hr].
  { exists 0%nat, s, bl, c, i. rewrite !Z.add_0_r, take_0. split_and!; [done| |done|by rewrite list_insert_id by apply Hw|done|apply wrote_nil| |by left].
    - apply loop_done. unfold writei_body. by rewrite (proj2 (Z.ltb_ge _ _)) by lia.
    - eapply room_le; [done|..]; rewrite write_cost_0; lia. }
  destruct (writei_round s bl c i off tot src r) as (s1 & bl1 & c1 & i1 & F1 & Ei1 & Hw1 & Hres); try done; [lia|].
  destruct (chunk_range off r ltac:(lia)) as [Hm _]. set (m := chunk off r) in *.
  destruct Hres as [(E1 & Hwr1 & Hr1)|(E1 & Hwr1 & Hr1 & Hno)].
  - destruct (source_split mem root T src m (r - m)) as (Hs1 & Hs2 & Eb); [by replace (m + (r - m))%nat with r by lia|lia|].
    replace (m + (r - m))%nat with r in Eb by lia. pose proof Hs1 as [Hl1 _].
    destruct (IH (r - m)%nat ltac:(lia) k s1 bl1 c1 i1 (off + Z.of_nat m) (tot + Z.of_nat m) (src_add src (Z.of_nat m)))
      as (t & s2 & bl2 & c2 & i2 & Ht & E2 & F2 & Ei2 & Hw2 & Hwr2 & Hr2 & Hdone); try done; try lia.
    exists (m + t)%nat, s2, bl2, c2, i2. split_and!; [lia| |by rewrite F1| |done| |done|].
    + rewrite (loop_next _ _ _ _ _ _ E1), E2. do 2 f_equal; lia.
    + by rewrite Ei2, Ei1, list_insert_insert_eq.
    + rewrite Eb. rewrite take_app_ge by lia. rewrite Hl1. replace (m + t - m)%nat with t by lia.
      eapply wrote_app; [done| |done|by rewrite Hl1]. rewrite length_app, length_take, Hl1. lia.
    + destruct (decide (m = r)) as [Em|Hlt]; [left; lia|]. destruct Hdone as [->|[Hb Hno]]; [left; lia|]. right. split; [right|done].
      replace (off + Z.of_nat (m + t)) with (off + Z.of_nat m + Z.of_nat t) by lia. destruct Hb as [->|Hb]; [|done].
      rewrite Z.add_0_r. assert (Z.of_nat m = BSIZE - off `mod` BSIZE) as Em by (unfold m, chunk in *; lia).
      clear -Em Hoff. unfold BSIZE in *. dlia.
  - exists 0%nat, s1, bl1, c1, i1. rewrite !Z.add_0_r, take_0. split_and!; [lia|by apply loop_done|done|done|done|done|done|]. right. split; [by left|done].
Qed.
End Loop.

(** ** writei *)

Definition resized (sz : Z) (i : inode) : inode := if i_size i <? sz then i <| i_size := sz |> else i.

Lemma resized_size sz i : i_size (resized sz i) = Z.max (i_size i) sz.
Proof. unfold resized. destruct (Z.ltb_spec (i_size i) sz); cbn; lia. Qed.
Lemma resized_islot c sz i j : islot c (resized sz i) j = islot c i j.
Proof. unfold resized. by destruct (_ <? _). Qed.
Lemma resized_iblk c sz i k : iblk c (resized sz i) k = iblk c i k.
Proof. unfold iblk. by rewrite resized_islot. Qed.

(** The file may be as long as it has blocks. *)
Lemma resized_ok sb start size c i sz :
  inode_ok sb start size c i -> sz <= MAXFILE * BSIZE -> (forall x, 0 <= x < sz -> iblk c i (x / BSIZE) <> None) ->
  inode_ok sb start size c (resized sz i).
Proof.
  intros [B1 B2 B3 B4 B5] Hsz Hblk. split.
  - unfold resized. by destruct (_ <? _).
  - intros j. rewrite resized_islot. apply B2.
  - intros j j'. rewrite !resized_islot. apply B3.
  - rewrite resized_size. lia.
  - intros x. rewrite resized_size, resized_islot. intros Hx. destruct (decide (x < i_size i)); [apply B5; lia|].
    specialize (Hblk x ltac:(lia)). by rewrite iblk_none in Hblk.
Qed.

(** An inode as the file system keeps it can be written to disk. *)
Lemma inode_dinode_wf sb start size c i :
  alloc_ok sb start size c -> inode_ok sb start size c i ->
  int16 (i_type i) -> int16 (i_major i) -> int16 (i_minor i) -> int16 (i_nlink i) -> dinode_wf (to_dinode i).
Proof.
  intros ((Hsz & _) & _) Hi. intros. pose proof (ik_size _ _ _ _ _ Hi) as Hs. change (MAXFILE * BSIZE) with 274432 in Hs.
  split; try done; [unfold uint32; cbn; lia| |apply Hi].
  apply Forall_lookup_2. intros k x Hx. cbn in Hx. pose proof (lookup_lt_Some _ _ _ Hx) as Hk. rewrite (ik_len _ _ _ _ _ Hi) in Hk.
  assert (0 <= Z.of_nat k <= NDIRECT) as Hk' by (unfold NDIRECT in *; lia).
  pose proof (islot_addr c i (Z.of_nat k) Hk' (ik_len _ _ _ _ _ Hi)) as Ha. rewrite Nat2Z.id, Hx in Ha. injection Ha as ->.
  unfold uint32. destruct (decide (islot c i (Z.of_nat k) = 0)) as [->|Hnz]; [lia|].
  destruct (ik_blk _ _ _ _ _ Hi (Z.of_nat k) ltac:(change MAXFILE with 268; unfold NDIRECT in *; lia) Hnz). lia.
Qed.

Lemma idata_ext c c' i :
  (forall k, 0 <= k < MAXFILE -> iblk c' i k = iblk c i k) -> i_size i <= MAXFILE * BSIZE -> idata c' i = idata c i.
Proof.
  intros Hk Hsz. unfold idata, ibytes. apply list_fmap_ext. intros j x Hj%list_elem_of_lookup_2%elem_of_seqZ.
  unfold ibyte. rewrite Hk; [done|]. change (MAXFILE * BSIZE) with 274432 in Hsz. change MAXFILE with 268. unfold BSIZE. dlia.
Qed.

(** The bytes of the file after a write. *)
Lemma wrote_data sb off bs bl c i bl' c' i' :
  wrote sb off bs bl c i bl' c' i' -> 0 <= off <= i_size i -> 0 <= i_size i <= MAXFILE * BSIZE ->
  off + Z.of_nat (length bs) <= MAXFILE * BSIZE ->
  idata c' (resized (off + Z.of_nat (length bs)) i')
  = take (Z.to_nat off) (idata c i) ++ bs ++ drop (Z.to_nat off + length bs) (idata c i).
Proof.
  intros Hw Hoff Hsz Hmax. assert (i_size i' = i_size i) as Es by (rewrite (wr_same _ _ _ _ _ _ _ _ _ Hw); done).
  assert (forall x, ibyte c' (resized (off + Z.of_nat (length bs)) i') x = ibyte c' i' x) as Er.
  { intros x. unfold ibyte. by rewrite resized_iblk. }
  unfold idata. rewrite resized_size, Es. set (old := ibytes c i 0 (Z.to_nat (i_size i))).
  assert (length old = Z.to_nat (i_size i)) as Hl by apply length_ibytes.
  apply list_eq_same_length with (Z.to_nat (Z.max (i_size i) (off + Z.of_nat (length bs))));
    [rewrite !length_app, length_take, length_drop, Hl; lia|apply length_ibytes|].
  intros k x y Hk Hx Hy. rewrite ibytes_lookup in Hx by done. injection Hx as <-. rewrite Er, Z.add_0_l.
  rewrite (wr_byte _ _ _ _ _ _ _ _ _ Hw) by lia. destruct (decide (Z.of_nat k < off)).
  { rewrite lookup_app_l in Hy by (rewrite length_take, Hl; lia). rewrite lookup_take_lt in Hy by lia.
    unfold old in Hy. rewrite ibytes_lookup in Hy by lia. injection Hy as <-. by rewrite decide_False by lia. }
  rewrite lookup_app_r in Hy by (rewrite length_take, Hl; lia). rewrite length_take, Hl, Nat.min_l in Hy by lia.
  destruct (decide (Z.of_nat k < off + Z.of_nat (length bs))).
  - rewrite decide_True by lia. rewrite lookup_app_l in Hy by lia. replace (Z.to_nat (Z.of_nat k - off)) with (k - Z.to_nat off)%nat by lia. by rewrite Hy.
  - rewrite decide_False by lia. rewrite lookup_app_r, lookup_drop in Hy by lia.
    replace (Z.to_nat off + length bs + (k - Z.to_nat off - length bs))%nat with k in Hy by lia.
    unfold old in Hy. rewrite ibytes_lookup in Hy by lia. by injection Hy as <-.
Qed.

(** The end of writei(): the new size is stored and the inode written. *)
Lemma writei_finish s p d start size bl c ip i pr sb mem sz :
  wstate p d start size ip pr sb mem s bl c i -> room 1 1 size bl c ->
  sz <= MAXFILE * BSIZE -> (forall x, 0 <= x < sz -> iblk c i (x / BSIZE) <> None) ->
  int16 (i_type i) -> int16 (i_major i) -> int16 (i_minor i) -> int16 (i_nlink i) ->
  let n0 := IBLOCK (i_inum i) sb in
  home start size n0 -> 0 < n0 -> foreign sb c i n0 ->
  let i' := resized sz i in
  exists s' bl' c', (let! j := inode_of ip in
    when (i_size j <? sz) (set_inode ip (fun j => j <| i_size := sz |>)) ;; iupdate ip) s = Done tt s' /\
    fs_frame s s' /\ ks_itable s' = <[ip := i']> (ks_itable s) /\ wstate p d start size ip pr sb mem s' bl' c' i' /\
    get_dinode (ca_val c' n0) (dinode_off (i_inum i)) = to_dinode i' /\ (forall m, m <> n0 -> ca_val c' m = ca_val c m) /\
    (forall b, 0 <= b < sb_size sb -> blk_free sb c' b <-> blk_free sb c b) /\
    (forall k, 0 <= k < MAXFILE -> iblk c' i' k = iblk c i' k).
Proof.
  intros [Hop Hal Hi Hip Hd Hpr Esb Hpan Em] Hroom Hsz Hblk Ht1 Ht2 Ht3 Ht4 n0 Hh Hpos Hfor i'.
  kstep inode_of_ok; [|done]. 
  assert (exists s1, when (i_size i <? sz) (set_inode ip (fun j => j <| i_size := sz |>)) s = Done tt s1 /\
    fs_frame s s1 /\ ks_itable s1 = <[ip := i']> (ks_itable s) /\ in_op s1 p d start size bl c) as (s1 & E1 & F1 & Ei1 & Hop1).
  { unfold i', resized. destruct (i_size i <? sz); cbn [when].
    - eexists. split_and!; [by eapply set_inode_ok|apply itable_fs_frame|cbn; by erewrite list_alter_insert_at|by eapply op_same; [apply same_itable|]].
    - exists s. split_and!; [done|done|by rewrite list_insert_id|done]. }
  kstep E1. destruct (fs_frame_eqs _ _ F1) as (Esb1 & Ep1 & Em1 & Epr1).
  assert (ks_itable s1 !! ip = Some i') as Hip1 by (rewrite Ei1; apply list_lookup_insert_eq, lookup_lt_is_Some; eauto).
  assert (inode_ok sb start size c i') as Hi' by (by apply resized_ok).
  assert (i_type i' = i_type i /\ i_major i' = i_major i /\ i_minor i' = i_minor i /\ i_nlink i' = i_nlink i /\ i_inum i' = i_inum i /\ i_dev i' = i_dev i)
    as (T1 & T2 & T3 & T4 & T5 & T6) by (unfold i', resized; by destruct (_ <? _)).
  assert (dinode_wf (to_dinode i')) as Hwf by (eapply inode_dinode_wf; rewrite ?T1, ?T2, ?T3, ?T4; done).
  assert (iblock s1 i' = n0) as En by (unfold iblock, n0; by rewrite T5, Esb1, Esb).
  destruct (iupdate_run s1 p d start size bl c ip i' Hop1) as (s2 & E2 & F2 & Hop2).
  { eapply room_le; [done|lia|lia]. }
  { done. }
  { by rewrite T6. }
  { done. }
  { by rewrite En. }
  rewrite En, T5 in Hop2.
  assert (foreign sb c i' n0) as Hfor'.
  { destruct Hfor as (A1 & A2 & A3). split_and!; [done|done|]. intros j Hj. unfold i'. rewrite resized_islot. by apply A3. }
  destruct (change_foreign sb start size c i' n0 (put_dinode (to_dinode i') (dinode_off (i_inum i)) (ca_val c n0)) bl Hal Hi' Hpos Hfor')
    as (G1 & G2 & G3 & G4 & G5).
  assert (fs_frame s s2) as F12 by (by rewrite F1, (log_fs_frame _ _ F2)). destruct (fs_frame_eqs _ _ F12) as (Esb2 & Ep2 & Em2 & Epr2).
  assert (ks_itable s2 = <[ip := i']> (ks_itable s)) as Ei2 by (by rewrite (log_frame_itable _ _ F2)).
  eexists s2, _, _. split_and!; [exact E2|done|done| | | |exact G3|exact G5].
  - split; rewrite ?Ei2, ?Esb2, ?Ep2, ?Em2, ?Epr2; try done; [by rewrite <- Ei1|by rewrite T6].
  - rewrite logged_val, fset_eq. apply (get_put_dinode (to_dinode i') _ 0); [done|].
    rewrite (op_val_length _ _ _ _ _ _ _ _ n0 Hop). apply dinode_off_bound.
  - intros m Hm. rewrite logged_val. by apply fset_ne.
Qed.

(** writei() on every branch. *)
Lemma writei_op s p d start size bl c ip i pr src off n T :
  let sb := ks_sb s in
  wstate p d start size ip pr sb (ks_mem s) s bl c i -> 0 <= off < 2 ^ 32 -> 0 <= n < 2 ^ 31 ->
  source_ok (ks_mem s) (p_pagetable pr) T src (Z.to_nat n) ->
  int16 (i_type i) -> int16 (i_major i) -> int16 (i_minor i) -> int16 (i_nlink i) ->
  let n0 := IBLOCK (i_inum i) sb in
  home start size n0 -> 0 < n0 < sb_size sb -> foreign sb c i n0 ->
  room (1 + write_cost c i off (Z.to_nat n) + ind_cost bl c i) 1 size bl c ->
  if (i_size i <? off) || (2 ^ 32 <=? off + n) || (MAXFILE * BSIZE <? off + n) then writei ip src off n s = Done (-1) s
  else exists (t : nat) s' bl' c' i', writei ip src off n s = Done (Z.of_nat t) s' /\ fs_frame s s' /\
    ks_itable s' = <[ip := i']> (ks_itable s) /\ wstate p d start size ip pr sb (ks_mem s) s' bl' c' i' /\
    (Z.of_nat t = n \/ Z.of_nat t < n /\ (t = 0%nat \/ (off + Z.of_nat t) `mod` BSIZE = 0) /\
     forall b, 0 <= b < sb_size sb -> ~ blk_free sb c' b) /\
    idata c' i' = take (Z.to_nat off) (idata c i) ++ take t (src_bytes (ks_mem s) (p_pagetable pr) src (Z.to_nat n)) ++
                  drop (Z.to_nat off + t) (idata c i) /\
    get_dinode (ca_val c' n0) (dinode_off (i_inum i)) = to_dinode i' /\
    (forall b, 0 <= b < sb_size sb -> blk_free sb c' b -> blk_free sb c b) /\
    (forall m, 0 < m < sb_size sb -> m <> n0 -> foreign sb c i m -> ca_val c' m = ca_val c m).
Proof.
  intros sb Hw Hoff Hn Hsrc Ht1 Ht2 Ht3 Ht4 n0 Hh Hn0 Hfor Hroom. pose proof (ik_size _ _ _ _ _ (ws_inode _ _ _ _ _ _ _ _ _ _ _ _ Hw)) as Hsz.
  unfold writei. change (MAXFILE * BSIZE) with 274432 in *.
  rewrite (kbind_done _ _ _ _ _ (inode_of_ok s ip i (ws_itable _ _ _ _ _ _ _ _ _ _ _ _ Hw))).
  rewrite (range_wraps off n) by lia.
  destruct ((i_size i <? off) || (2 ^ 32 <=? off + n)) eqn:Eg; [done|]. cbn [orb].
  apply orb_false_iff in Eg as [Eg1%Z.ltb_ge Eg2%Z.leb_gt]. rewrite u32_small by lia.
  destruct (Z.ltb_spec 274432 (off + n)) as [|Hmax]; [done|].
  destruct (writei_loop p d start size ip pr sb (ks_mem s) T n (S (Z.to_nat n)) s bl c i off 0 src (Z.to_nat n))
    as (t & s1 & bl1 & c1 & i1 & Ht & E1 & F1 & Ei1 & Hw1 & Hwr1 & Hr1 & Hdone); try done; try (change (MAXFILE * BSIZE) with 274432); try lia.
  set (bs := take t _) in Hwr1. assert (length bs = t) as Hlb by (unfold bs; rewrite length_take, (proj1 Hsrc); lia).
  pose proof (wr_same _ _ _ _ _ _ _ _ _ Hwr1) as Esame.
  assert (i_type i1 = i_type i /\ i_major i1 = i_major i /\ i_minor i1 = i_minor i /\ i_nlink i1 = i_nlink i /\ i_inum i1 = i_inum i)
    as (T1 & T2 & T3 & T4 & T5) by (rewrite Esame; done).
  pose proof (wr_grows _ _ _ _ _ _ _ _ _ Hwr1) as Hg. destruct (fg_foreign _ _ _ _ _ Hg n0 Hn0 Hfor) as [Hfor1 _].
  destruct (writei_finish s1 p d start size bl1 c1 ip i1 pr sb (ks_mem s) (off + Z.of_nat t) Hw1 Hr1)
    as (s2 & bl2 & c2 & E2 & F2 & Ei2 & Hw2 & Hdi & Hoth & Hbits & Hblk); rewrite ?T1, ?T2, ?T3, ?T4, ?T5; try done.
  { change (MAXFILE * BSIZE) with 274432. lia. }
  { intros x Hx. destruct (decide (off <= x)); [apply (wr_there _ _ _ _ _ _ _ _ _ Hwr1); rewrite Hlb; lia|].
    apply (wr_kept _ _ _ _ _ _ _ _ _ Hwr1); [change MAXFILE with 268; unfold BSIZE; dlia|]. rewrite iblk_none.
    apply (ik_full _ _ _ _ _ (ws_inode _ _ _ _ _ _ _ _ _ _ _ _ Hw)). lia. }
  { lia. }
  eexists t, s2, bl2, c2, _. split_and!; [|by rewrite F1|by rewrite Ei2, Ei1, list_insert_insert_eq|exact Hw2| | | | |].
  - erewrite kbind_done by exact E1. cbv beta iota. rewrite Z.add_0_l. rewrite (kbind_seq_done _ _ _ _ _ _ E2).
    unfold ret, i32. rewrite Z.mod_small by lia. f_equal. lia.
  - destruct Hdone as [->|[Hb' Hno]]; [left; lia|]. destruct (decide (Z.of_nat t = n)); [by left|right]. split_and!; [lia|done|].
    intros b Hb. rewrite Hbits by done. by apply Hno.
  - pose proof (wrote_data sb off bs bl c i bl1 c1 i1 Hwr1) as Ed. rewrite Hlb in Ed. change (MAXFILE * BSIZE) with 274432 in Ed.
    fold bs; rewrite <- Ed by lia. apply idata_ext; [done|]. rewrite resized_size. rewrite Esame. cbn.
    change (MAXFILE * BSIZE) with 274432. lia.
  - unfold n0. rewrite <- T5. exact Hdi.
  - intros b Hb Hf. apply (fg_free _ _ _ _ _ Hg); [done|]. by apply Hbits.
  - intros m Hm Hne Hfm. rewrite Hoth by (by rewrite T5). by apply (fg_foreign _ _ _ _ _ Hg).
Qed.

End Specs.
