(* ===== verification/FsTrunc.v ===== *)
(** * Discarding a file (fs.c: itrunc).

    itrunc() frees every block of the inode, direct, indirect and behind the
    indirect block, and leaves an empty file; nothing else is freed or changed. *)

From S2P Require Import Prelude Defs KMonad Lock Mem Kalloc Sched Sleeplock Bio Log Vm UserMem Uart Fs FsBlock FsAlloc FsInode FsFile FsRead FsWrite.

(** A loop over a list keeps an invariant of the part that is done. *)
Lemma for_each_done {X} (P : list X -> kstate -> Prop) (f : X -> K unit) l s :
  P [] s ->
  (forall pre x post s, l = pre ++ x :: post -> P pre s -> exists s', f x s = Done tt s' /\ P (pre ++ [x]) s') ->
  exists s', for_each l f s = Done tt s' /\ P l s'.
Proof.
  intros H0 Hstep.
  assert (forall post pre s, l = pre ++ post -> P pre s -> exists s', for_each post f s = Done tt s' /\ P l s') as Hgen;
    [|by apply (Hgen l [] s)].
  induction post as [|x post IH]; intros pre s1 E HP; cbn [for_each].
  - exists s1. rewrite app_nil_r in E. by subst.
  - destruct (Hstep pre x post s1 E HP) as (s2 & E2 & HP2). destruct (IH (pre ++ [x]) s2) as (s3 & E3 & HP3);
      [by rewrite <- app_assoc|done|]. exists s3. by kstep E2.
Qed.

Lemma kbind_then {A B} (m : K A) (f : A -> K unit) (k : K B) s s' :
  kbind m f s = Done tt s' -> kbind m (fun a => kbind (f a) (fun _ => k)) s = k s'.
Proof. unfold kbind. destruct (m s) as [a s1| | | |]; cbn; try done. by intros ->. Qed.

(** ** The bitmap blocks that are still to be logged *)

Definition bitmap_blocks (sb : superblock) : list Z :=
  (fun k => BBLOCK (k * BPB) sb) <$> seqZ 0 ((sb_size sb + BPB - 1) / BPB).
Definition bitmap_cost (sb : superblock) (bl : list Z) : Z :=
  Z.of_nat (length (filter (fun n => n ∉ bl) (bitmap_blocks sb))).

Lemma BBLOCK_in sb b : 0 <= b < sb_size sb -> BBLOCK b sb ∈ bitmap_blocks sb.
Proof.
  intros Hb. apply list_elem_of_fmap. exists (b / BPB). split.
  - apply BBLOCK_same. unfold BPB, BSIZE. dlia.
  - apply elem_of_seqZ. unfold BPB, BSIZE. dlia.
Qed.
Lemma filter_added (l bl : list Z) n :
  (n ∉ bl) -> (length (filter (fun x => x ∉ bl ++ [n]) l) <= length (filter (fun x => x ∉ bl) l))%nat /\
  (n ∈ l -> (length (filter (fun x => x ∉ bl ++ [n]) l) < length (filter (fun x => x ∉ bl) l))%nat).
Proof.
  intros Hn. induction l as [|y l [IH1 IH2]]; [split; [done|by intros []%elem_of_nil]|]. rewrite !filter_cons.
  destruct (decide (y ∉ bl ++ [n])) as [H1|H1], (decide (y ∉ bl)) as [H2|H2]; cbn [length].
  - split; [lia|]. intros [->|Hin]%elem_of_cons; [|specialize (IH2 Hin); lia]. exfalso. apply H1, elem_of_app. right. by left.
  - exfalso. apply H2. intros Hin. apply H1, elem_of_app. by left.
  - split; [lia|]. intros _. lia.
  - split; [lia|]. intros [->|Hin]%elem_of_cons; [|by apply IH2]. done.
Qed.
Lemma bitmap_cost_added sb bl b :
  0 <= b < sb_size sb -> (BBLOCK b sb ∉ bl) -> bitmap_cost sb (log_added (BBLOCK b sb) bl) + 1 <= bitmap_cost sb bl.
Proof.
  intros Hb Hn. unfold bitmap_cost, log_added. rewrite decide_False by done.
  pose proof (proj2 (filter_added (bitmap_blocks sb) bl (BBLOCK b sb) Hn) (BBLOCK_in sb b Hb)). lia.
Qed.

Lemma addr_insert_id i k a : i_addrs i !! k = Some a -> i <| i_addrs ::= <[k := a]> |> = i.
Proof. destruct i as [dev inum ref valid ty ma mi nl sz addrs]. intros Ha. by apply (f_equal (mk_inode dev inum ref valid ty ma mi nl sz)), list_insert_id. Qed.

(** The inode of an empty file. *)
Definition emptied (i : inode) : inode := i <| i_addrs := replicate (Z.to_nat NDIRECT + 1) 0 |> <| i_size := 0 |>.

Lemma emptied_islot c i j : islot c (emptied i) j = 0.
Proof.
  assert (forall k, default 0 (replicate (Z.to_nat NDIRECT + 1) 0 !! k) = 0) as Hk.
  { intros k. destruct (_ !! k) eqn:E; [|done]. by apply lookup_replicate in E as [-> _]. }
  unfold islot, emptied. change (i_addrs _) with (replicate (Z.to_nat NDIRECT + 1) 0). rewrite !Hk. by destruct (_ <=? _).
Qed.
Lemma emptied_ok sb start size c i : inode_ok sb start size c (emptied i).
Proof.
  split; [done|intros j _; by rewrite emptied_islot|intros j j' _ _; by rewrite emptied_islot|by vm_compute|].
  change (i_size (emptied i)) with 0. lia.
Qed.

Section Specs.
Context `{Fuel, BlockDevice, KernelImage, UartReady}.

Section Trunc.
Context (p : nat) (d start size : Z) (ip : nat) (sb : superblock) (s0 : kstate) (bl0 : list Z) (c0 : cache) (i0 : inode).
Hypotheses (Hal : alloc_ok sb start size c0) (Hi0 : inode_ok sb start size c0 i0) (Hd : i_dev i0 = d).

(** The blocks of the slots [js] have been freed, and [i] is the inode now. *)
Record truncating (hs : list (nat * Z)) (js : list Z) (s : kstate) (bl : list Z) (c : cache) (i : inode) : Prop := mk_truncating {
  tr_op : op_with hs s p d start size bl c;
  tr_bits b : 0 <= b < sb_size sb -> blk_free sb c b <-> blk_free sb c0 b \/ exists j, j ∈ js /\ islot c0 i0 j = b /\ b <> 0;
  tr_val m : not_bitmap sb m -> ca_val c m = ca_val c0 m;
  tr_room : room (1 + bitmap_cost sb bl) 1 size bl c;
  tr_log : bl0 ⊆ bl;
  tr_slots : Forall (fun j => 0 <= j <= MAXFILE) js;
  tr_held : Forall (fun h => h.2 = islot c0 i0 NDIRECT) hs /\ (length hs <= 1)%nat /\ (hs <> [] -> islot c0 i0 NDIRECT <> 0 /\ NDIRECT ∉ js);
  tr_frame : fs_frame s0 s;
  tr_itable : ks_itable s = <[ip := i]> (ks_itable s0);
  tr_inode : i = i0 <| i_addrs := i_addrs i |> /\ length (i_addrs i) = length (i_addrs i0)
}.

(** A block in use whose slot has not come up is not free. *)
Lemma truncating_used hs js s bl c i j :
  truncating hs js s bl c i -> 0 <= j <= MAXFILE -> j ∉ js -> islot c0 i0 j <> 0 -> ~ blk_free sb c (islot c0 i0 j).
Proof.
  intros Ht Hj Hn Hnz. destruct (ik_blk _ _ _ _ _ Hi0 j Hj Hnz) as (_ & Hr & Hu & _).
  rewrite (tr_bits _ _ _ _ _ _ Ht) by done. intros [Hf|(j' & Hj' & E & _)]; [done|]. apply Hn.
  pose proof (tr_slots _ _ _ _ _ _ Ht) as Hs. rewrite Forall_forall in Hs.
  assert (j = j') as -> by (apply (ik_inj _ _ _ _ _ Hi0); auto). done.
Qed.

Lemma truncating_layout hs js s bl c i : truncating hs js s bl c i -> layout_ok sb c start size.
Proof.
  intros Ht. destruct Hal as ((Hs1 & Hs2 & Hl) & _). split_and!; [lia..|]. intros b Hb. destruct (Hl b Hb) as [Hh Hf]. split; [done|].
  rewrite (tr_bits _ _ _ _ _ _ Ht) by done. intros [Hfr|(j & Hj & E & Hnz)]; [by apply Hf|].
  pose proof (tr_slots _ _ _ _ _ _ Ht) as Hs. rewrite Forall_forall in Hs. subst b.
  destruct (ik_blk _ _ _ _ _ Hi0 j (Hs j Hj) Hnz) as (? & _ & _ & ?). done.
Qed.

Lemma truncating_held hs js s bl c i : truncating hs js s bl c i -> held_used sb c hs.
Proof.
  intros Ht. destruct (tr_held _ _ _ _ _ _ Ht) as (Hh & _ & Hne). apply Forall_forall. intros h Hin.
  rewrite Forall_forall in Hh. rewrite (Hh h Hin). destruct (Hne ltac:(by intros ->; apply elem_of_nil in Hin)) as [Hnz Hn].
  assert (0 <= NDIRECT <= MAXFILE) as HN by (by vm_compute). split; [by eapply truncating_used|].
  apply (ik_blk _ _ _ _ _ Hi0 NDIRECT HN Hnz).
Qed.

(** The block of one more slot is freed. *)
Lemma truncating_free hs js s bl c i j :
  truncating hs js s bl c i -> ks_sb s0 = sb -> 0 <= j <= MAXFILE -> j ∉ js -> islot c0 i0 j <> 0 -> (hs <> [] -> j <> NDIRECT) ->
  exists s' bl' c', bfree d (islot c0 i0 j) s = Done tt s' /\ truncating hs (js ++ [j]) s' bl' c' i.
Proof.
  intros Ht Hsb Hj Hn Hnz Hne. pose proof Ht as [Hop Hbits Hval Hroom Hlog Hsl Hheld Hfr Hit Hino].
  destruct (fs_frame_eqs _ _ Hfr) as (Esb & _). rewrite Hsb in Esb.
  destruct (ik_blk _ _ _ _ _ Hi0 j Hj Hnz) as (Hh & Hr & Hu & Hnb).
  destruct (bfree_used hs s p d start size bl c (islot c0 i0 j) Hop) as (s' & c' & E & F & Hop' & Hb' & Hv' & Hr1 & Hr2); rewrite ?Esb; try done.
  { by eapply truncating_layout. }
  { by eapply truncating_held. }
  { destruct Hheld as (_ & Hl & _). eapply room_le; [done|unfold bitmap_cost; lia|unfold bitmap_cost; lia]. }
  { by eapply truncating_used. }
  rewrite Esb in *. eexists s', _, c'. split; [done|]. split; [exact Hop'|..].
  - intros b Hb. rewrite Hb', Hbits by done. split.
    + intros [[Hf|(j' & Hj' & E' & Hz)]|E']; [by left|right; exists j'; rewrite elem_of_app; naive_solver|].
      right. exists j. rewrite elem_of_app, list_elem_of_singleton. subst. naive_solver.
    + intros [Hf|(j' & [Hj'|Hj']%elem_of_app & E' & Hz)]; [by left; left|left; right; by exists j'|].
      apply list_elem_of_singleton in Hj' as ->. by right.
  - intros m Hm. rewrite Hv'; [by apply Hval|]. intros ->. by apply (Hm (islot c0 i0 j)).
  - destruct (decide (BBLOCK (islot c0 i0 j) sb ∈ bl)) as [Hin|Hin].
    + apply Hr2; [|done]. unfold log_added. by rewrite decide_True.
    + apply Hr1. eapply room_le; [exact Hroom|pose proof (bitmap_cost_added sb bl _ Hr Hin); lia|pose proof (bitmap_cost_added sb bl _ Hr Hin); lia].
  - intros x Hx. rewrite elem_of_log_added. right. by apply Hlog.
  - apply Forall_app. split; [done|]. by constructor.
  - destruct Hheld as (G1 & G2 & G3). split_and!; [done|done|]. intros Hhs. destruct (G3 Hhs) as [G4 G5]. split; [done|].
    rewrite elem_of_app, list_elem_of_singleton. intros [?|E']; [done|]. by apply (Hne Hhs).
  - by rewrite Hfr, (log_fs_frame _ _ F).
  - by rewrite (log_frame_itable _ _ F).
  - done.
Qed.

(** A slot without a block. *)
Lemma truncating_skip hs js s bl c i j :
  truncating hs js s bl c i -> 0 <= j <= MAXFILE -> islot c0 i0 j = 0 -> (hs <> [] -> j <> NDIRECT) -> truncating hs (js ++ [j]) s bl c i.
Proof.
  intros [Hop Hbits Hval Hroom Hlog Hsl Hheld Hfr Hit Hino] Hj Hz Hne. split; try done.
  - intros b Hb. rewrite Hbits by done. split; (intros [Hf|(j' & Hj' & E' & Hnz)]; [by left|right]).
    + exists j'. rewrite elem_of_app. naive_solver.
    + exists j'. apply elem_of_app in Hj' as [Hj'|Hj'%list_elem_of_singleton]; [done|]. subst. congruence.
  - apply Forall_app. split; [done|]. by constructor.
  - destruct Hheld as (G1 & G2 & G3). split_and!; [done|done|]. intros Hhs. destruct (G3 Hhs) as [G4 G5]. split; [done|].
    rewrite elem_of_app, list_elem_of_singleton. intros [?|E']; [done|]. by apply (Hne Hhs).
Qed.

(** An address of the inode is cleared. *)
Lemma truncating_clear hs js s bl c i k a :
  truncating hs js s bl c i -> is_Some (ks_itable s0 !! ip) -> i_addrs i !! k = Some a ->
  exists s', set_addr ip k 0 s = Done tt s' /\ truncating hs js s' bl c (i <| i_addrs ::= <[k := 0]> |>).
Proof.
  intros [Hop Hbits Hval Hroom Hlog Hsl Hheld Hfr Hit Hino] Hip Ha.
  assert (ks_itable s !! ip = Some i) as Hi by (rewrite Hit; by apply list_lookup_insert_eq, lookup_lt_is_Some).
  eexists. split; [by eapply set_addr_ok|]. split; try done.
  - by eapply op_same; [apply same_itable|].
  - rewrite Hfr. apply itable_fs_frame.
  - cbn. erewrite list_alter_insert_at by done. by rewrite Hit, list_insert_insert_eq.
  - destruct Hino as [E1 E2]. cbn. rewrite length_insert. split; [|done]. rewrite E1. by destruct i0.
Qed.

(** The loop over the direct blocks. *)
Lemma itrunc_direct s :
  ks_sb s0 = sb -> is_Some (ks_itable s0 !! ip) -> truncating [] [] s bl0 c0 i0 ->
  exists s', for_each (seq 0 (Z.to_nat NDIRECT)) (fun k =>
    let! a := addr_at ip k in
    when (negb (a =? 0)) (let! i := inode_of ip in bfree (i_dev i) a ;; set_addr ip k 0)) s = Done tt s' /\
    exists bl c i, truncating [] (seqZ 0 NDIRECT) s' bl c i /\
      forall k, i_addrs i !! k = if decide (k < Z.to_nat NDIRECT)%nat then Some 0 else i_addrs i0 !! k.
Proof.
  intros Hsb Hip Ht. pose proof (ik_len _ _ _ _ _ Hi0) as Hlen.
  assert (NDIRECT = 12 /\ MAXFILE = 268) as [HD HM] by done.
  destruct (for_each_done (fun pre s => exists bl c i, truncating [] (Z.of_nat <$> pre) s bl c i /\
    forall k, i_addrs i !! k = if decide (k ∈ pre) then Some 0 else i_addrs i0 !! k)
    (fun k => let! a := addr_at ip k in when (negb (a =? 0)) (let! i := inode_of ip in bfree (i_dev i) a ;; set_addr ip k 0))
    (seq 0 (Z.to_nat NDIRECT)) s) as (s' & E & bl & c & i & Ht' & Ha).
  - exists bl0, c0, i0. split; [done|]. intros k. by rewrite decide_False by apply not_elem_of_nil.
  - intros pre k post s1 Epre (bl & c & i & Ht1 & Ha1).
    assert (k ∉ pre /\ (k < 12)%nat) as [Hk Hk12].
    { assert (k ∈ seq 0 (Z.to_nat NDIRECT)) as Hin%elem_of_seq by (rewrite Epre; rewrite elem_of_app; right; by left).
      assert (NoDup (seq 0 (Z.to_nat NDIRECT))) as Hnd by apply NoDup_seq. rewrite Epre in Hnd.
      apply NoDup_app in Hnd as (_ & Hnd & _). split; [intros Hin'; apply (Hnd k Hin'); by left|rewrite HD in Hin; lia]. }
    assert (i_addrs i0 !! k = Some (islot c0 i0 (Z.of_nat k))) as Ha0.
    { rewrite <- (Nat2Z.id k) at 1. apply islot_addr; [lia|done]. }
    assert (i_addrs i !! k = Some (islot c0 i0 (Z.of_nat k))) as Hak by (by rewrite Ha1, decide_False).
    assert (ks_itable s1 !! ip = Some i) as Hi1.
    { rewrite (tr_itable _ _ _ _ _ _ Ht1). by apply list_lookup_insert_eq, lookup_lt_is_Some. }
    assert (Z.of_nat <$> (pre ++ [k]) = (Z.of_nat <$> pre) ++ [Z.of_nat k]) as Efm by (by rewrite fmap_app).
    rewrite (kbind_done _ _ _ _ _ (addr_at_ok _ _ _ _ _ Hi1 Hak)).
    destruct (Z.eqb_spec (islot c0 i0 (Z.of_nat k)) 0) as [Hz|Hnz]; cbn [negb when].
    + exists s1. split; [done|]. exists bl, c, i. rewrite Efm. split; [apply truncating_skip; [done|lia|done|done]|].
      intros k'. rewrite Ha1. destruct (decide (k' ∈ pre)) as [Hin|Hin].
      * rewrite decide_True; [done|]. rewrite elem_of_app. by left.
      * destruct (decide (k' ∈ pre ++ [k])) as [[Hin'|Hin']%elem_of_app|]; [done|apply list_elem_of_singleton in Hin' as ->; by rewrite Ha0, Hz|done].
    + rewrite (kbind_done _ _ _ _ _ (inode_of_ok _ _ _ Hi1)).
      assert (i_dev i = d) as Ed by (rewrite (proj1 (tr_inode _ _ _ _ _ _ Ht1)); exact Hd). rewrite Ed.
      destruct (truncating_free [] (Z.of_nat <$> pre) s1 bl c i (Z.of_nat k)) as (s2 & bl2 & c2 & E2 & Ht2); try done.
      { lia. }
      { intros (x & Ex & Hx)%list_elem_of_fmap. by apply Nat2Z.inj in Ex as <-. }
      kstep E2. destruct (truncating_clear _ _ _ _ _ _ k _ Ht2 Hip Hak) as (s3 & E3 & Ht3).
      exists s3. split; [done|]. eexists bl2, c2, _. rewrite Efm. split; [exact Ht3|].
      intros k'. cbn. destruct (decide (k' = k)) as [->|Hne].
      * rewrite list_lookup_insert_eq by (rewrite (proj2 (tr_inode _ _ _ _ _ _ Ht2)); apply lookup_lt_Some in Ha0; lia).
        rewrite decide_True; [done|]. rewrite elem_of_app. right. by left.
      * rewrite list_lookup_insert_ne, Ha1 by done. destruct (decide (k' ∈ pre)) as [Hin|Hin].
        { rewrite decide_True; [done|]. rewrite elem_of_app. by left. }
        rewrite decide_False; [done|]. rewrite elem_of_app, list_elem_of_singleton. by intros [?|?].
  - exists s'. split; [done|]. exists bl, c, i. split.
    + replace (seqZ 0 NDIRECT) with (Z.of_nat <$> seq 0 (Z.to_nat NDIRECT)); [done|]. unfold seqZ. by apply list_fmap_ext; intros; lia.
    + intros k. rewrite Ha. destruct (decide (k ∈ seq 0 (Z.to_nat NDIRECT))) as [Hin%elem_of_seq|Hin]; [by rewrite decide_True by lia|].
      rewrite decide_False; [done|]. intros Hlt. apply Hin, elem_of_seq. lia.
Qed.

(** The loop over the indirect block [n], held in buffer [bp]. *)
Lemma itrunc_entries s bp bl c i :
  ks_sb s0 = sb -> let n := islot c0 i0 NDIRECT in n <> 0 -> truncating [(bp, n)] (seqZ 0 NDIRECT) s bl c i ->
  exists s' bl' c', for_each (seq 0 (Z.to_nat NINDIRECT)) (fun j =>
    let! bf := buf_of bp in
    let aj := rd32 (b_data bf) (4 * j) in
    when (negb (aj =? 0)) (bfree d aj)) s = Done tt s' /\
    truncating [(bp, n)] (seqZ 0 NDIRECT ++ seqZ (NDIRECT + 1) NINDIRECT) s' bl' c' i.
Proof.
  intros Hsb n Hnz Ht. assert (NDIRECT = 12 /\ MAXFILE = 268 /\ NINDIRECT = 256) as (HD & HM & HN) by done.
  destruct (ik_blk _ _ _ _ _ Hi0 NDIRECT ltac:(lia) Hnz) as (_ & _ & _ & Hnb). fold n in Hnb.
  set (js pre := seqZ 0 NDIRECT ++ ((fun j => NDIRECT + 1 + Z.of_nat j) <$> pre)).
  destruct (for_each_done (fun pre s => exists bl c, truncating [(bp, n)] (js pre) s bl c i)
    (fun j => let! bf := buf_of bp in when (negb (rd32 (b_data bf) (4 * j) =? 0)) (bfree d (rd32 (b_data bf) (4 * j))))
    (seq 0 (Z.to_nat NINDIRECT)) s) as (s' & E & bl' & c' & Ht').
  - exists bl, c. unfold js. cbn [fmap list_fmap]. by rewrite app_nil_r.
  - intros pre j post s1 Epre (bl1 & c1 & Ht1).
    assert (j ∉ pre /\ (j < 256)%nat) as [Hj Hj256].
    { assert (j ∈ seq 0 (Z.to_nat NINDIRECT)) as Hin%elem_of_seq by (rewrite Epre; rewrite elem_of_app; right; by left).
      assert (NoDup (seq 0 (Z.to_nat NINDIRECT))) as Hnd by apply NoDup_seq. rewrite Epre in Hnd.
      apply NoDup_app in Hnd as (_ & Hnd & _). split; [intros Hin'; apply (Hnd j Hin'); by left|rewrite HN in Hin; lia]. }
    destruct (holding_buf _ _ _ _ _ _ _ _ _ _ (tr_op _ _ _ _ _ _ Ht1)) as (bf & Hbf & Hdat & _).
    rewrite (kbind_done _ _ _ _ _ (buf_of_ok _ _ _ Hbf)), Hdat, (tr_val _ _ _ _ _ _ Ht1 n Hnb).
    assert (rd32 (ca_val c0 n) (4 * j) = islot c0 i0 (NDIRECT + 1 + Z.of_nat j)) as ->.
    { rewrite islot_entry by lia. fold n. rewrite (proj2 (Z.eqb_neq n 0)) by done. do 2 f_equal. lia. }
    assert (js (pre ++ [j]) = js pre ++ [NDIRECT + 1 + Z.of_nat j]) as Ejs by (unfold js; by rewrite fmap_app, app_assoc).
    set (k := NDIRECT + 1 + Z.of_nat j) in *.
    destruct (Z.eqb_spec (islot c0 i0 k) 0) as [Hz|Hz]; cbn [negb when].
    + exists s1. split; [done|]. exists bl1, c1. rewrite Ejs. apply truncating_skip; [done|lia|done|lia].
    + destruct (truncating_free [(bp, n)] (js pre) s1 bl1 c1 i k) as (s2 & bl2 & c2 & E2 & Ht2); try done.
      { lia. }
      { unfold js. rewrite elem_of_app, elem_of_seqZ, list_elem_of_fmap. intros [?|(x & Ex & Hx)]; [lia|].
        assert (x = j) as -> by lia. done. }
      { lia. }
      exists s2. split; [done|]. exists bl2, c2. by rewrite Ejs.
  - exists s', bl', c'. split; [exact E|].
    replace (seqZ (NDIRECT + 1) NINDIRECT) with ((fun j => NDIRECT + 1 + Z.of_nat j) <$> seq 0 (Z.to_nat NINDIRECT)); [done|].
    unfold seqZ. apply list_fmap_ext. intros; lia.
Qed.

(** The indirect block, when there is one. *)
Lemma itrunc_indirect s bl c i :
  ks_sb s0 = sb -> is_Some (ks_itable s0 !! ip) -> truncating [] (seqZ 0 NDIRECT) s bl c i ->
  i_addrs i !! Z.to_nat NDIRECT = Some (islot c0 i0 NDIRECT) ->
  exists s' bl' c' js, (let! a := addr_at ip (Z.to_nat NDIRECT) in
    when (negb (a =? 0))
      (let! i := inode_of ip in
       let! bp := bread (i_dev i) a in
       for_each (seq 0 (Z.to_nat NINDIRECT)) (fun j =>
         let! bf := buf_of bp in
         let aj := rd32 (b_data bf) (4 * j) in
         when (negb (aj =? 0)) (bfree (i_dev i) aj)) ;;
       brelse bp ;;
       let! a := addr_at ip (Z.to_nat NDIRECT) in
       bfree (i_dev i) a ;;
       set_addr ip (Z.to_nat NDIRECT) 0)) s = Done tt s' /\
    truncating [] js s' bl' c' (i <| i_addrs ::= <[Z.to_nat NDIRECT := 0]> |>) /\
    forall j, 0 <= j <= MAXFILE -> islot c0 i0 j <> 0 -> j ∈ js.
Proof.
  intros Hsb Hip Ht Ha. assert (NDIRECT = 12 /\ MAXFILE = 268 /\ NINDIRECT = 256) as (HD & HM & HN) by done.
  set (n := islot c0 i0 NDIRECT) in *.
  assert (forall s bl c hs js, truncating hs js s bl c i -> ks_itable s !! ip = Some i) as Hlook.
  { intros s1 bl1 c1 hs js Ht1. rewrite (tr_itable _ _ _ _ _ _ Ht1). by apply list_lookup_insert_eq, lookup_lt_is_Some. }
  rewrite (kbind_done _ _ _ _ _ (addr_at_ok _ _ _ _ _ (Hlook _ _ _ _ _ Ht) Ha)).
  destruct (Z.eqb_spec n 0) as [Hz|Hnz]; cbn [negb when].
  - exists s, bl, c, (seqZ 0 NDIRECT). split_and!; [done| |].
    + assert (i <| i_addrs ::= <[Z.to_nat NDIRECT := 0]> |> = i) as ->; [|done].
      rewrite Hz in Ha. by apply addr_insert_id.
    + intros j Hj Hj'. apply elem_of_seqZ. destruct (decide (j < NDIRECT)); [lia|]. exfalso. apply Hj'.
      destruct (decide (j = NDIRECT)) as [->|]; [done|]. rewrite islot_entry by lia. fold n. by rewrite Hz.
  - rewrite (kbind_done _ _ _ _ _ (inode_of_ok _ _ _ (Hlook _ _ _ _ _ Ht))).
    assert (i_dev i = d) as Ed by (rewrite (proj1 (tr_inode _ _ _ _ _ _ Ht)); exact Hd). rewrite Ed.
    destruct (ik_blk _ _ _ _ _ Hi0 NDIRECT ltac:(lia) Hnz) as (Hh & _ & _ & Hnb). fold n in Hh, Hnb.
    pose proof (tr_op _ _ _ _ _ _ Ht) as Hop.
    destruct (bread_op [] s p d start size bl c n Hop Hh) as (bp & s1 & E1 & F1 & Hb1);
      [apply not_elem_of_nil|apply (io_busy _ _ _ _ _ _ _ _ Hop)|]. kstep E1.
    assert (truncating [(bp, n)] (seqZ 0 NDIRECT) s1 bl c i) as Ht1.
    { destruct Ht as [_ Hbits Hval Hroom Hlog Hsl Hheld Hfr Hit Hino]. split; try done.
      - split_and!; [by constructor|done|]. intros _. split; [done|]. rewrite elem_of_seqZ. lia.
      - by rewrite Hfr, (bio_fs_frame _ _ F1).
      - by rewrite (bio_frame_itable _ _ F1). }
    destruct (itrunc_entries s1 bp bl c i Hsb Hnz Ht1) as (s2 & bl2 & c2 & E2 & Ht2). kstep E2.
    set (js := seqZ 0 NDIRECT ++ seqZ (NDIRECT + 1) NINDIRECT) in *.
    destruct (brelse_op _ _ _ _ _ _ _ _ _ _ (tr_op _ _ _ _ _ _ Ht2)) as (s3 & E3 & F3 & Hop3). kstep E3.
    assert (truncating [] js s3 bl2 c2 i) as Ht3.
    { destruct Ht2 as [_ Hbits Hval Hroom Hlog Hsl Hheld Hfr Hit Hino]. split; try done.
      - split_and!; [by constructor|cbn; lia|done].
      - by rewrite Hfr, (bio_fs_frame _ _ F3).
      - by rewrite (bio_frame_itable _ _ F3). }
    rewrite (kbind_done _ _ _ _ _ (addr_at_ok _ _ _ _ _ (Hlook _ _ _ _ _ Ht3) Ha)).
    destruct (truncating_free [] js s3 bl2 c2 i NDIRECT Ht3) as (s4 & bl4 & c4 & E4 & Ht4); try done.
    { unfold js. rewrite elem_of_app, !elem_of_seqZ. lia. }
    kstep E4. destruct (truncating_clear _ _ _ _ _ _ _ _ Ht4 Hip Ha) as (s5 & E5 & Ht5).
    exists s5, bl4, c4, (js ++ [NDIRECT]). split_and!; [done|done|]. intros j Hj _. unfold js.
    rewrite !elem_of_app, !elem_of_seqZ, list_elem_of_singleton. lia.
Qed.

(** Every slot has been gone through. *)
Lemma truncating_all js s bl c i :
  truncating [] js s bl c i -> (forall j, 0 <= j <= MAXFILE -> islot c0 i0 j <> 0 -> j ∈ js) ->
  alloc_ok sb start size c /\
  forall b, 0 <= b < sb_size sb -> blk_free sb c b <-> blk_free sb c0 b \/ exists j, 0 <= j <= MAXFILE /\ islot c0 i0 j = b /\ b <> 0.
Proof.
  intros Ht Hall. pose proof (tr_slots _ _ _ _ _ _ Ht) as Hs. rewrite Forall_forall in Hs. destruct Hal as (_ & Hsz & Hz0).
  split; [split_and!; [by eapply truncating_layout|done|]|].
  - rewrite (tr_bits _ _ _ _ _ _ Ht) by lia. intros [?|(j & _ & _ & ?)]; done.
  - intros b Hb. rewrite (tr_bits _ _ _ _ _ _ Ht) by done. split; (intros [?|(j & Hj & E & Hz)]; [by left|right; exists j]).
    + split_and!; [by apply Hs..|done|done].
    + split_and!; [apply Hall; [done|congruence]|done|done].
Qed.
End Trunc.

(** The end of itrunc(): the size is cleared and the inode written. *)
Lemma itrunc_finish s p d start size bl c ip i i' sb :
  ks_sb s = sb -> in_op s p d start size bl c -> room 1 1 size bl c -> alloc_ok sb start size c ->
  ks_itable s !! ip = Some i -> i' = i <| i_size := 0 |> -> i_dev i = d -> inode_ok sb start size c i' ->
  int16 (i_type i) -> int16 (i_major i) -> int16 (i_minor i) -> int16 (i_nlink i) ->
  let n0 := IBLOCK (i_inum i) sb in
  home start size n0 -> 0 < n0 -> foreign sb c i' n0 ->
  exists s' bl' c', (set_inode ip (fun i => i <| i_size := 0 |>) ;; iupdate ip) s = Done tt s' /\
    fs_frame s s' /\ ks_itable s' = <[ip := i']> (ks_itable s) /\ in_op s' p d start size bl' c' /\
    alloc_ok sb start size c' /\ get_dinode (ca_val c' n0) (dinode_off (i_inum i)) = to_dinode i' /\
    (forall m, m <> n0 -> ca_val c' m = ca_val c m) /\
    (forall b, 0 <= b < sb_size sb -> blk_free sb c' b <-> blk_free sb c b).
Proof.
  intros Hsb Hop Hroom Hal Hip Ei Hd Hi' Ht1 Ht2 Ht3 Ht4 n0 Hh Hpos Hfor.
  kstep set_inode_ok; [|done]. set (s1 := s <| ks_itable ::= _ |>).
  assert (ks_itable s1 = <[ip := i']> (ks_itable s)) as E1.
  { subst s1. cbn. erewrite list_alter_insert_at by done. by rewrite Ei. }
  assert (ks_itable s1 !! ip = Some i') as Hip1 by (rewrite E1; apply list_lookup_insert_eq, lookup_lt_is_Some; eauto).
  assert (dinode_wf (to_dinode i')) as Hwf by (eapply inode_dinode_wf; [done|done|by rewrite Ei..]).
  assert (iblock s1 i' = n0) as En by (rewrite Ei; unfold iblock, n0; by rewrite <- Hsb).
  destruct (iupdate_run s1 p d start size bl c ip i') as (s2 & E2 & F2 & Hop2); [by eapply op_same; [apply same_itable|]|..].
  { eapply room_le; [done|lia|lia]. }
  { done. }
  { by rewrite Ei. }
  { done. }
  { by rewrite En. }
  rewrite En in Hop2. replace (i_inum i') with (i_inum i) in Hop2 by (by rewrite Ei).
  destruct (change_foreign sb start size c i' n0 (put_dinode (to_dinode i') (dinode_off (i_inum i)) (ca_val c n0)) bl Hal Hi' Hpos Hfor)
    as (G1 & G2 & G3 & _).
  eexists s2, _, _. split_and!; [exact E2| | |exact Hop2|exact G1| | |exact G3].
  - rewrite <- (log_fs_frame _ _ F2). apply itable_fs_frame.
  - by rewrite (log_frame_itable _ _ F2).
  - rewrite logged_val, fset_eq. apply (get_put_dinode (to_dinode i') _ 0); [done|].
    rewrite (op_val_length _ _ _ _ _ _ _ _ n0 Hop). apply dinode_off_bound.
  - intros m Hm. rewrite logged_val. by apply fset_ne.
Qed.

Lemma itrunc_op s p d start size bl c ip i :
  let sb := ks_sb s in
  in_op s p d start size bl c -> alloc_ok sb start size c -> inode_ok sb start size c i ->
  ks_itable s !! ip = Some i -> i_dev i = d ->
  int16 (i_type i) -> int16 (i_major i) -> int16 (i_minor i) -> int16 (i_nlink i) ->
  let n0 := IBLOCK (i_inum i) sb in
  home start size n0 -> 0 < n0 < sb_size sb -> foreign sb c i n0 ->
  room (1 + bitmap_cost sb bl) 1 size bl c ->
  exists s' bl' c', itrunc ip s = Done tt s' /\ fs_frame s s' /\ ks_itable s' = <[ip := emptied i]> (ks_itable s) /\
    in_op s' p d start size bl' c' /\ alloc_ok sb start size c' /\ inode_ok sb start size c' (emptied i) /\
    get_dinode (ca_val c' n0) (dinode_off (i_inum i)) = to_dinode (emptied i) /\
    (forall b, 0 <= b < sb_size sb ->
       blk_free sb c' b <-> blk_free sb c b \/ exists j, 0 <= j <= MAXFILE /\ islot c i j = b /\ b <> 0) /\
    (forall m, not_bitmap sb m -> m <> n0 -> ca_val c' m = ca_val c m).
Proof.
  intros sb Hop Hal Hi Hip Hd Ht1 Ht2 Ht3 Ht4 n0 Hh Hn0 (Hf1 & Hf2 & Hf3) Hroom.
  assert (is_Some (ks_itable s !! ip)) as Hsome by eauto.
  assert (truncating p d start size ip sb s bl c i [] [] s bl c i) as Ht0.
  { split; try done.
    - intros b Hb. split; [by left|]. intros [?|(j & Hj & _)]; [done|]. by apply elem_of_nil in Hj.
    - by split_and!; [constructor|cbn; lia|].
    - by rewrite list_insert_id.
    - split; [by destruct i|done]. }
  destruct (itrunc_direct p d start size ip sb s bl c i Hal Hi Hd s eq_refl Hsome Ht0)
    as (s1 & E1 & bl1 & c1 & i1 & Htr1 & Ha1).
  unfold itrunc. kstep E1.
  destruct (itrunc_indirect p d start size ip sb s bl c i Hal Hi Hd s1 bl1 c1 i1 eq_refl Hsome Htr1)
    as (s2 & bl2 & c2 & js & E2 & Htr2 & Hjs).
  { rewrite Ha1, decide_False by lia. by apply islot_addr; [|apply Hi]. }
  rewrite (kbind_then _ _ _ _ _ E2). clear E1 E2.
  set (i2 := i1 <| i_addrs ::= <[Z.to_nat NDIRECT := 0]> |>) in *.
  destruct (truncating_all _ _ _ _ _ _ _ _ _ _ Hal Hi _ _ _ _ _ Htr2 Hjs) as [Hal2 Hbits2].
  pose proof Htr2 as [Hop2 _ Hval2 Hroom2 _ _ _ Hfr2 Hit2 [Ei2 Hlen2]]. destruct (fs_frame_eqs _ _ Hfr2) as (Esb2 & _).
  assert (emptied i = i2 <| i_size := 0 |>) as Eemp.
  { rewrite Ei2. unfold emptied. assert (i_addrs i2 = replicate (Z.to_nat NDIRECT + 1) 0) as ->; [|done].
    pose proof (ik_len _ _ _ _ _ Hi) as Hl. change (i_addrs i2) with (<[Z.to_nat NDIRECT := 0]> (i_addrs i1)) in *.
    rewrite length_insert in Hlen2. apply list_eq. intros k.
    destruct (decide (k < Z.to_nat NDIRECT + 1)%nat) as [Hk|Hk].
    - rewrite lookup_replicate_2 by done. destruct (decide (k = Z.to_nat NDIRECT)) as [->|Hne].
      + apply list_lookup_insert_eq. lia.
      + rewrite list_lookup_insert_ne, Ha1 by done. apply decide_True. lia.
    - by rewrite !lookup_ge_None_2 by (rewrite ?length_insert, ?length_replicate; lia). }
  destruct (itrunc_finish s2 p d start size bl2 c2 ip i2 (emptied i) sb) as (s3 & bl3 & c3 & E3 & F3 & Ei3 & Hop3 & Hal3 & Hdi & Hoth & Hbits3);
    try done; try by (rewrite Ei2).
  - eapply room_le; [exact Hroom2|unfold bitmap_cost; lia..].
  - rewrite Hit2. by apply list_lookup_insert_eq, lookup_lt_is_Some.
  - apply emptied_ok.
  - rewrite Ei2. change (0 < n0). lia.
  - rewrite Ei2. change (foreign sb c2 (emptied i) n0). split_and!; [|done|intros j _; rewrite emptied_islot; lia].
    rewrite Hbits2 by lia. intros [?|(j & Hj & E & _)]; [done|]. by apply (Hf3 j).
  - rewrite Ei2 in Hdi. rewrite Ei2 in Hoth. cbn [i_inum] in Hdi, Hoth. fold n0 in Hdi, Hoth.
    exists s3, bl3, c3. split_and!; [exact E3|by rewrite Hfr2| |done|done|apply emptied_ok|exact Hdi| |].
    + by rewrite Ei3, Hit2, list_insert_insert_eq.
    + intros b Hb. by rewrite Hbits3, Hbits2.
    + intros m Hm Hne. rewrite Hoth by done. by apply Hval2.
Qed.

(** C6: itrunc() empties a file: it ends, the inode has no block and size 0,
    in memory and on the disk, and exactly the blocks it had, direct, indirect
    and behind the indirect block, are free in addition to those that were;
    besides the bitmap and the block of the inode no block changes, in
    particular none of another file. *)
Theorem itrunc_correct s p d start size bl c ip i :
  let sb := ks_sb s in
  in_op s p d start size bl c -> alloc_ok sb start size c -> inode_ok sb start size c i ->
  ks_itable s !! ip = Some i -> i_dev i = d ->
  int16 (i_type i) -> int16 (i_major i) -> int16 (i_minor i) -> int16 (i_nlink i) ->
  let n0 := IBLOCK (i_inum i) sb in
  home start size n0 -> 0 < n0 < sb_size sb -> foreign sb c i n0 ->
  room (1 + bitmap_cost sb bl) 1 size bl c ->
  exists s' bl' c', itrunc ip s = Done tt s' /\ fs_frame s s' /\ ks_itable s' = <[ip := emptied i]> (ks_itable s) /\
    in_op s' p d start size bl' c' /\ alloc_ok sb start size c' /\ inode_ok sb start size c' (emptied i) /\
    get_dinode (ca_val c' n0) (dinode_off (i_inum i)) = to_dinode (emptied i) /\
    (forall b, 0 <= b < sb_size sb ->
       blk_free sb c' b <-> blk_free sb c b \/ exists j, 0 <= j <= MAXFILE /\ islot c i j = b /\ b <> 0) /\
    (forall m, not_bitmap sb m -> m <> n0 -> ca_val c' m = ca_val c m).
Proof. apply itrunc_op. Qed.
End Specs.
