(* ===== verification/FsDir.v ===== *)
(** * Directories (fs.c: iget, dirlookup).

    A directory is a file of 16-byte entries, an inode number and a name; a
    name is found in the first entry in use that has it.  iget() gives the
    entry of the inode table for an inode number. *)

From S2P Require Import Prelude Defs KMonad Lock Mem Kalloc Sched Sleeplock Bio Log Vm UserMem Uart Fs FsBlock FsAlloc FsInode FsFile FsRead.

(** ** The inode table *)

Definition is_inode (dev inum : Z) (i : inode) : Prop := 0 < i_ref i /\ i_dev i = dev /\ i_inum i = inum.
#[global] Instance is_inode_dec dev inum i : Decision (is_inode dev inum i).
Proof. unfold is_inode. apply _. Defined.
Definition no_ref (i : inode) : Prop := i_ref i = 0.
#[global] Instance no_ref_dec i : Decision (no_ref i).
Proof. unfold no_ref. apply _. Defined.

(** The entry iget() returns and the table afterwards: the inode's own entry
    with one more reference, or the first unused one made the inode's. *)
Definition itable_get (dev inum : Z) (l : list inode) : option (nat * list inode) :=
  match list_find (is_inode dev inum) l with
  | Some (ip, i) => Some (ip, <[ip := i <| i_ref := i32 (i_ref i + 1) |>]> l)
  | None =>
    match list_find no_ref l with
    | Some (ip, i) => Some (ip, <[ip := i <| i_dev := dev |> <| i_inum := inum |> <| i_ref := 1 |> <| i_valid := 0 |>]> l)
    | None => None
    end
  end.

(** ** Directories *)

(** The entries of a directory with these bytes. *)
Definition dir_entries (data : list Z) : list (list Z) :=
  (fun k => take (Z.to_nat DIRENT_SIZE) (drop (k * Z.to_nat DIRENT_SIZE) data)) <$> seq 0 (length data / Z.to_nat DIRENT_SIZE).
(** The entry is in use and has the name, up to its NUL and DIRSIZ bytes of it. *)
Definition has_name (name de : list Z) : Prop :=
  de_inum de <> 0 /\ cstr (Z.to_nat DIRSIZ) (ptr_of name) = cstr (Z.to_nat DIRSIZ) (ptr_of (de_name de)).
#[global] Instance has_name_dec name de : Decision (has_name name de).
Proof. unfold has_name. apply _. Defined.
Definition dir_find (data name : list Z) : option (nat * list Z) := list_find (has_name name) (dir_entries data).

Definition byte_list (l : list Z) : Prop := Forall (fun b => 0 <= b < 256) l.

Lemma namecmp_zero s t :
  byte_list s -> byte_list t -> (namecmp s t =? 0) = bool_decide (cstr (Z.to_nat DIRSIZ) (ptr_of s) = cstr (Z.to_nat DIRSIZ) (ptr_of t)).
Proof.
  intros Hs Ht. pose proof (strncmp_loop_eq (Z.to_nat DIRSIZ) 0 (ptr_of s) (ptr_of t)) as Hc.
  specialize (Hc ltac:(by apply is_bytes_ptr_of) ltac:(by apply is_bytes_ptr_of)).
  unfold namecmp, strncmp, cstr. destruct (Z.eqb_spec (strncmp_loop (Z.to_nat DIRSIZ) 0 (ptr_of s) (ptr_of t)) 0) as [E|E];
    symmetry; [apply bool_decide_eq_true_2|apply bool_decide_eq_false_2]; tauto.
Qed.

Section Specs.
Context `{Fuel, BlockDevice, KernelImage, UartReady}.

Definition iget_body (dev inum : Z) (x : nat * option nat) : K (nat * option nat + (nat + option nat)) :=
  let '(ip, empty) := x in
  if (NINODE <=? ip)%nat then ret (inr (inr empty)) else
  let! i := inode_of ip in
  if (0 <? i_ref i) && (i_dev i =? dev) && (i_inum i =? inum) then
    set_inode ip (fun i => i <| i_ref := i32 (i_ref i + 1) |>) ;;
    release L_itable ;;
    ret (inr (inl ip))
  else
    let empty := match empty with
                 | None => if i_ref i =? 0 then Some ip else None
                 | Some e => Some e
                 end in
    ret (inl (S ip, empty)).

Lemma is_inode_test dev inum i :
  (0 <? i_ref i) && (i_dev i =? dev) && (i_inum i =? inum) = bool_decide (is_inode dev inum i).
Proof.
  unfold is_inode. destruct (Z.ltb_spec 0 (i_ref i)), (Z.eqb_spec (i_dev i) dev), (Z.eqb_spec (i_inum i) inum);
    cbn [andb]; symmetry; first [apply bool_decide_eq_true_2; tauto|apply bool_decide_eq_false_2; intuition lia].
Qed.

(** The scan of the table from entry [k] on. *)
Lemma iget_scan dev inum s n k l e :
  hart_ok s -> lock_free L_itable s -> drop k (ks_itable s) = l -> length (ks_itable s) = NINODE -> (k + length l = NINODE)%nat -> (length l < n)%nat ->
  loop n (iget_body dev inum) (k, e) (acq L_itable s) =
  match list_find (is_inode dev inum) l with
  | Some (j, i) => Done (inl (k + j)%nat) (s <| ks_itable := <[(k + j)%nat := i <| i_ref := i32 (i_ref i + 1) |>]> (ks_itable s) |>)
  | None => Done (inr (match e with
                       | Some e => Some e
                       | None => (fun p => (k + p.1)%nat) <$> list_find no_ref l
                       end)) (acq L_itable s)
  end.
Proof.
  intros Hs Hl Hd Hlen. revert n k e Hd. induction l as [|i l IH]; intros n k e Hd Hk Hn; (destruct n as [|n]; [cbn in Hn; lia|]).
  - cbn [list_find]. erewrite loop_done; [reflexivity|]. unfold iget_body. rewrite (proj2 (Nat.leb_le _ _)) by (cbn in Hk; lia).
    by destruct e.
  - assert (ks_itable s !! k = Some i) as Hi.
    { rewrite <- (Nat.add_0_r k), <- lookup_drop, Hd. done. }
    assert (ks_itable (acq L_itable s) !! k = Some i) as Hi' by done.
    cbn [length] in *. cbn [list_find]. destruct (decide (is_inode dev inum i)) as [Hin|Hin].
    + rewrite Nat.add_0_r. apply loop_done. unfold iget_body. rewrite (proj2 (Nat.leb_gt _ _)) by lia.
      kstep inode_of_ok; [|done]. rewrite is_inode_test, bool_decide_eq_true_2 by done.
      kstep set_inode_ok; [|done]. 
      restate (acq L_itable (s <| ks_itable := <[k := i <| i_ref := i32 (i_ref i + 1) |>]> (ks_itable s) |>)).
      * by kstep release_acq.
      * by erewrite list_alter_insert_at.
    + rewrite (loop_next _ _ _ _ (S k, match e with Some e => Some e | None => if i_ref i =? 0 then Some k else None end) (acq L_itable s)).
      * rewrite IH; [|by rewrite <- Nat.add_1_r, <- drop_drop, Hd|lia|lia].
        destruct (list_find (is_inode dev inum) l) as [[j x]|]; cbn [fmap option_fmap option_map prod_map fst snd].
        { by rewrite Nat.add_succ_r. }
        do 2 f_equal. destruct e; [done|]. unfold no_ref at 2. cbn. destruct (Z.eqb_spec (i_ref i) 0).
        { rewrite decide_True by done. cbn. f_equal. lia. }
        rewrite decide_False by done. destruct (list_find no_ref l) as [[j x]|]; [|done]. cbn. f_equal. lia.
      * unfold iget_body. rewrite (proj2 (Nat.leb_gt _ _)) by lia. kstep inode_of_ok; [|done].
        rewrite is_inode_test, bool_decide_eq_false_2 by done. done.
Qed.

Lemma iget_ok dev inum s :
  hart_ok s -> lock_free L_itable s -> length (ks_itable s) = NINODE ->
  iget dev inum s = match itable_get dev inum (ks_itable s) with
                    | Some (ip, l) => Done ip (s <| ks_itable := l |>)
                    | None => Panic "iget: no inodes"
                    end.
Proof.
  intros Hs Hl Hlen. unfold iget, itable_get. kstep acquire_ok; [|done..].
  pose proof (iget_scan dev inum s (S NINODE) 0 (ks_itable s) None Hs Hl eq_refl Hlen) as E. cbn [Nat.add] in E.
  specialize (E Hlen ltac:(lia)). change (loop _ _ _) with (loop (S NINODE) (iget_body dev inum) (O, None)).
  destruct (list_find (is_inode dev inum) (ks_itable s)) as [[ip i]|].
  { by kstep E. }
  kstep E. destruct (list_find no_ref (ks_itable s)) as [[ip i]|] eqn:Ef; [|done]. cbn [fmap option_fmap option_map fst].
  apply list_find_Some in Ef as (Hi & _). assert (ks_itable (acq L_itable s) !! ip = Some i) as Hi' by done.
  kstep set_inode_ok; [|done]. do 3 (kstep set_inode_ok; [|cbn; by rewrite !list_lookup_alter_eq, Hi]).
  restate (acq L_itable (s <| ks_itable := <[ip := i <| i_dev := dev |> <| i_inum := inum |> <| i_ref := 1 |> <| i_valid := 0 |>]> (ks_itable s) |>)).
  - by kstep release_acq.
  - rewrite !list_alter_alter_eq. by erewrite list_alter_insert_at.
Qed.

Definition dirlookup_body (dp : nat) (name : list Z) (off : Z) : K (Z + option (nat * Z)) :=
  let! d := inode_of dp in
  if negb (off <? i_size d) then ret (inr None) else
  let! r := readi dp To_var off DIRENT_SIZE in
  if negb (fst r =? DIRENT_SIZE) then panic "dirlookup read" else
  let de := snd r in
  if de_inum de =? 0 then ret (inl (u32 (off + DIRENT_SIZE))) else
  if namecmp name (de_name de) =? 0 then
    let! d := inode_of dp in
    let! ip := iget (i_dev d) (de_inum de) in
    ret (inr (Some (ip, off)))
  else ret (inl (u32 (off + DIRENT_SIZE))).

Section Dir.
Context (p : nat) (d start size : Z) (bl : list Z) (c : cache) (dp : nat) (i : inode) (pr : proc) (sb : superblock) (name : list Z).
Hypotheses (Hd : i_dev i = d) (Hi : inode_ok sb start size c i).
Hypotheses (Hname : byte_list name) (Hdata : byte_list (idata c i)).

(** The state in which entry [k] is looked at. *)
Record dir_scan (s : kstate) : Prop := mk_dir_scan {
  ds_op : in_op s p d start size bl c;
  ds_itable : ks_itable s !! dp = Some i;
  ds_len : length (ks_itable s) = NINODE;
  ds_proc : ks_proc s !! p = Some pr
}.

(** Entry [k] is read. *)
Lemma dir_read s k de :
  dir_scan s -> dir_entries (idata c i) !! k = Some de ->
  exists s', readi dp To_var (DIRENT_SIZE * Z.of_nat k) DIRENT_SIZE s = Done (DIRENT_SIZE, de) s' /\ fs_frame s s' /\
    ks_itable s' = ks_itable s /\ dir_scan s' /\ length de = Z.to_nat DIRENT_SIZE /\ byte_list de /\
    DIRENT_SIZE * Z.of_nat k + DIRENT_SIZE <= i_size i.
Proof.
  intros [Hop Hip Hlen Hpr] Hde. pose proof (ik_size _ _ _ _ _ Hi) as Hsz. change (MAXFILE * BSIZE) with 274432 in Hsz.
  assert (length (idata c i) = Z.to_nat (i_size i)) as Hl by apply length_ibytes.
  unfold dir_entries in Hde. change DIRENT_SIZE with 16 in *. change (Z.to_nat 16) with 16%nat in *.
  apply list_lookup_fmap_Some in Hde as (j & -> & [-> Hk]%lookup_seq). rewrite Hl in Hk. rewrite Nat.add_0_l.
  assert (16 * Z.of_nat k + 16 <= i_size i) as Hfit by (pose proof (Nat.Div0.mul_div_le (Z.to_nat (i_size i)) 16); lia).
  pose proof (readi_op s p d start size bl c dp i pr To_var (16 * Z.of_nat k) 16 ∅ [] sb Hop Hip Hd Hi Hpr ltac:(lia) ltac:(lia) I) as Hr.
  cbn [put_to] in Hr. unfold read_range in Hr.
  rewrite (proj2 (Z.ltb_ge _ _)), (proj2 (Z.leb_gt _ _)) in Hr by lia. cbn [orb] in Hr.
  replace (Z.to_nat (16 * Z.of_nat k)) with (k * 16)%nat in Hr by lia. change (Z.to_nat 16) with 16%nat in Hr.
  set (de := take 16 (drop (k * 16) (idata c i))) in *.
  assert (length de = 16%nat) as Hde by (unfold de; rewrite length_take, length_drop, Hl; lia).
  destruct Hr as (s' & E & F & Ei & Hop'). rewrite Hde in E.
  assert (fs_frame s s') as F' by (rewrite F; unfold fs_frame; kstate_eq).
  exists s'. split_and!; [exact E|done|done| |done|by apply Forall_take, Forall_drop|done].
  destruct (fs_frame_eqs _ _ F') as (_ & _ & _ & Ep). split; rewrite ?Ei, ?Ep; done.
Qed.

Lemma dirlookup_scan n s k l :
  dir_scan s -> drop k (dir_entries (idata c i)) = l -> i_size i = DIRENT_SIZE * Z.of_nat (length (dir_entries (idata c i))) ->
  (k <= length (dir_entries (idata c i)))%nat -> (length l < n)%nat ->
  match list_find (has_name name) l with
  | None => exists s', loop n (dirlookup_body dp name) (DIRENT_SIZE * Z.of_nat k) s = Done None s' /\ fs_frame s s' /\
      ks_itable s' = ks_itable s /\ in_op s' p d start size bl c
  | Some (j, de) =>
    match itable_get d (de_inum de) (ks_itable s) with
    | None => loop n (dirlookup_body dp name) (DIRENT_SIZE * Z.of_nat k) s = Panic "iget: no inodes"
    | Some (ip, l') => exists s', loop n (dirlookup_body dp name) (DIRENT_SIZE * Z.of_nat k) s
                         = Done (Some (ip, DIRENT_SIZE * Z.of_nat (k + j))) s' /\ fs_frame s s' /\ ks_itable s' = l' /\
        in_op s' p d start size bl c
    end
  end.
Proof.
  intros Hs Hl Hsz. pose proof (ik_size _ _ _ _ _ Hi) as Hmax. change (MAXFILE * BSIZE) with 274432 in Hmax.
  change DIRENT_SIZE with 16 in *. revert n s k Hs Hl. induction l as [|de l IH]; intros n s k Hs Hl Hk Hn; (destruct n as [|n]; [cbn in Hn; lia|]).
  - cbn [list_find]. exists s. split_and!; [|done|done|apply Hs]. apply loop_done. unfold dirlookup_body.
    kstep inode_of_ok; [|apply Hs]. apply (f_equal length) in Hl. rewrite length_drop in Hl. cbn in Hl.
    by rewrite (proj2 (Z.ltb_ge _ _)) by lia.
  - assert (dir_entries (idata c i) !! k = Some de) as Hde.
    { rewrite <- (Nat.add_0_r k), <- lookup_drop, Hl. done. }
    assert (drop (S k) (dir_entries (idata c i)) = l) as Hl' by (by rewrite <- Nat.add_1_r, <- drop_drop, Hl).
    assert (S k <= length (dir_entries (idata c i)))%nat as Hk' by (apply lookup_lt_Some in Hde; lia).
    destruct (dir_read s k de Hs Hde) as (s1 & E1 & F1 & Ei1 & Hs1 & Hlen & Hb & Hfit). change DIRENT_SIZE with 16 in *.
    assert (byte_list (de_name de)) as Hbn by (by apply Forall_drop).
    assert (dirlookup_body dp name (16 * Z.of_nat k) s =
      if decide (has_name name de) then (let! ip := iget d (de_inum de) in ret (inr (Some (ip, 16 * Z.of_nat k)))) s1
      else Done (inl (16 * Z.of_nat (S k))) s1) as Ebody.
    { unfold dirlookup_body. kstep inode_of_ok; [|apply Hs]. rewrite (proj2 (Z.ltb_lt _ _)) by lia. cbn [negb].
      change DIRENT_SIZE with 16. kstep E1. cbn [fst snd Z.eqb Pos.eqb negb]. rewrite u32_small by lia. unfold has_name.
      replace (16 * Z.of_nat k + 16) with (16 * Z.of_nat (S k)) by lia.
      destruct (Z.eqb_spec (de_inum de) 0) as [|Hnz]; [by rewrite decide_False by tauto|].
      rewrite namecmp_zero by done. case_bool_decide as Hc; [|by rewrite decide_False by tauto].
      rewrite decide_True by done. kstep inode_of_ok; [|apply Hs1]. by rewrite Hd. }
    cbn [length list_find] in *. destruct (decide (has_name name de)) as [Hin|Hin].
    + rewrite Nat.add_0_r. pose proof (bo_quiet _ _ _ _ (rp_ok _ _ _ _ (io_rep _ _ _ _ _ _ _ _ (ds_op _ Hs1)))) as Hq.
      pose proof (iget_ok d (de_inum de) s1 (q_hart _ _ Hq) (q_locks _ _ Hq L_itable eq_refl) (ds_len _ Hs1)) as Eg. rewrite Ei1 in Eg.
      destruct (itable_get d (de_inum de) (ks_itable s)) as [[ip l']|].
      * eexists. split_and!; [apply loop_done; rewrite Ebody; by kstep Eg| |done|].
        { rewrite F1. unfold fs_frame. kstate_eq. }
        { eapply op_same; [|apply Hs1]. by split. }
      * cbn [loop]. unfold kbind at 1. rewrite Ebody. unfold kbind. by rewrite Eg.
    + rewrite (loop_next _ _ _ _ _ _ Ebody). specialize (IH n s1 (S k) Hs1 Hl' Hk' ltac:(lia)). rewrite Ei1 in IH.
      destruct (list_find (has_name name) l) as [[j de']|]; cbn [fmap option_fmap option_map prod_map fst snd].
      * destruct (itable_get _ _ _) as [[ip l']|]; [|done]. destruct IH as (s2 & E2 & F2 & Ei2 & Hop2).
        exists s2. split_and!; [by rewrite E2, Nat.add_succ_r|by rewrite F1|done|done].
      * destruct IH as (s2 & E2 & F2 & Ei2 & Hop2). exists s2. split_and!; [done|by rewrite F1|done|done].
Qed.
End Dir.

(** dirlookup() in a directory of whole entries. *)
Lemma dirlookup_op s p d start size bl c dp i pr sb name :
  in_op s p d start size bl c -> ks_itable s !! dp = Some i -> i_dev i = d -> inode_ok sb start size c i ->
  i_type i = T_DIR -> (DIRENT_SIZE | i_size i) -> byte_list (idata c i) -> byte_list name ->
  length (ks_itable s) = NINODE -> ks_proc s !! p = Some pr ->
  match dir_find (idata c i) name with
  | None => exists s', dirlookup dp name s = Done None s' /\ fs_frame s s' /\ ks_itable s' = ks_itable s /\
      in_op s' p d start size bl c
  | Some (k, de) =>
    match itable_get d (de_inum de) (ks_itable s) with
    | None => dirlookup dp name s = Panic "iget: no inodes"
    | Some (ip, l) => exists s', dirlookup dp name s = Done (Some (ip, DIRENT_SIZE * Z.of_nat k)) s' /\ fs_frame s s' /\
        ks_itable s' = l /\ in_op s' p d start size bl c
    end
  end.
Proof.
  intros Hop Hip Hd Hi Hty Hdiv Hdata Hname Hlen Hpr. unfold dirlookup.
  rewrite (kbind_done _ _ _ _ _ (inode_of_ok s dp i Hip)), Hty. cbn [Z.eqb negb T_DIR].
  pose proof (ik_size _ _ _ _ _ Hi) as Hsz. destruct Hdiv as [q Hq].
  assert (length (dir_entries (idata c i)) = Z.to_nat q) as Hl.
  { unfold dir_entries. rewrite length_fmap, length_seq. unfold idata. rewrite length_ibytes, Hq. change DIRENT_SIZE with 16 in *.
    replace (Z.to_nat (q * 16)) with (Z.to_nat q * Z.to_nat 16)%nat by lia. by apply Nat.div_mul. }
  change DIRENT_SIZE with 16 in Hq.
  pose proof (dirlookup_scan p d start size bl c dp i pr sb name Hd Hi Hname Hdata (S (Z.to_nat (i_size i / DIRENT_SIZE + 1))) s 0
    (dir_entries (idata c i)) ltac:(by split) eq_refl) as Hscan.
  specialize (Hscan ltac:(rewrite Hl, Hq; change DIRENT_SIZE with 16; lia) ltac:(lia)).
  specialize (Hscan ltac:(rewrite Hl, Hq; change DIRENT_SIZE with 16; rewrite Z.div_mul by done; lia)).
  exact Hscan.
Qed.

(** C20: dirlookup() finds a name in the first entry of the directory that is
    in use and has it, comparing at most DIRSIZ bytes: it returns that inode from
    iget(), with one more reference, and the offset of the entry; without such
    an entry it returns 0 and nothing changes. *)
Theorem dirlookup_correct s p d start size bl c dp i pr sb name :
  in_op s p d start size bl c -> ks_itable s !! dp = Some i -> i_dev i = d -> inode_ok sb start size c i ->
  i_type i = T_DIR -> (DIRENT_SIZE | i_size i) -> byte_list (idata c i) -> byte_list name ->
  length (ks_itable s) = NINODE -> ks_proc s !! p = Some pr ->
  match dir_find (idata c i) name with
  | None => exists s', dirlookup dp name s = Done None s' /\ fs_frame s s' /\ ks_itable s' = ks_itable s /\
      in_op s' p d start size bl c
  | Some (k, de) =>
    match itable_get d (de_inum de) (ks_itable s) with
    | None => dirlookup dp name s = Panic "iget: no inodes"
    | Some (ip, l) => exists s', dirlookup dp name s = Done (Some (ip, DIRENT_SIZE * Z.of_nat k)) s' /\ fs_frame s s' /\
        ks_itable s' = l /\ in_op s' p d start size bl c
    end
  end.
Proof. apply dirlookup_op. Qed.
End Specs.
