(* ===== verification/FsLink.v ===== *)
(** * New directory entries (fs.c: dirlink).

    dirlink() puts an entry for a new name into the first unused slot of the
    directory or at its end; after that the name is found, and every other name
    is found as before. *)

From S2P Require Import Prelude Defs KMonad Lock Mem Kalloc Sched Sleeplock Bio Log Vm UserMem Uart Fs FsBlock FsAlloc FsInode FsFile FsRead FsWrite FsDir.

(** ** Entries *)

#[local] Notation E := (Z.to_nat DIRENT_SIZE).

Lemma E_16 : E = 16%nat.
Proof. reflexivity. Qed.

Lemma length_dir_entries data : length (dir_entries data) = (length data / E)%nat.
Proof. unfold dir_entries. by rewrite length_fmap, length_seq. Qed.
Lemma dir_entries_lookup data k :
  (k < length data / E)%nat -> dir_entries data !! k = Some (take E (drop (k * E) data)).
Proof. intros Hk. unfold dir_entries. rewrite list_lookup_fmap, lookup_seq_lt by done. done. Qed.

Lemma dir_entries_app d1 d2 k : length d1 = (k * E)%nat -> dir_entries (d1 ++ d2) = dir_entries d1 ++ dir_entries d2.
Proof.
  intros Hl. rewrite E_16 in *.
  assert (length (d1 ++ d2) / 16 = k + length d2 / 16 /\ length d1 / 16 = k)%nat as [L1 L2].
  { rewrite length_app, Hl. split; [|by apply Nat.div_mul]. rewrite Nat.add_comm, Nat.div_add by done. lia. }
  apply list_eq. intros j. destruct (decide (j < k)%nat) as [Hj|Hj].
  - rewrite lookup_app_l by (rewrite length_dir_entries, E_16; lia).
    rewrite !dir_entries_lookup by (rewrite E_16; lia). rewrite E_16. f_equal.
    rewrite drop_app_le, take_app_le; [done|rewrite length_drop; lia|lia].
  - rewrite lookup_app_r by (rewrite length_dir_entries, E_16; lia). rewrite length_dir_entries, E_16, L2.
    destruct (decide (j < k + length d2 / 16)%nat).
    + rewrite !dir_entries_lookup by (rewrite E_16; lia). rewrite E_16. do 2 f_equal.
      rewrite drop_app_ge by lia. f_equal. lia.
    + rewrite !lookup_ge_None_2; [done|rewrite length_dir_entries, E_16; lia..].
Qed.
Lemma dir_entries_one de : length de = E -> dir_entries de = [de].
Proof. intros Hl. unfold dir_entries. rewrite Hl, Nat.div_same by done. cbn [seq fmap list_fmap]. by rewrite drop_0, take_ge by lia. Qed.

(** The entries of a directory in which slot [k] has been written. *)
Lemma dir_entries_write data de k n :
  length data = (n * E)%nat -> length de = E -> (k <= n)%nat ->
  dir_entries (take (k * E) data ++ de ++ drop (k * E + E) data) = take k (dir_entries data) ++ de :: drop (S k) (dir_entries data).
Proof.
  intros Hl Hde Hk. rewrite E_16 in *.
  rewrite (dir_entries_app _ _ k), (dir_entries_app de _ 1) by (rewrite ?length_take, E_16; lia).
  rewrite (dir_entries_one de) by done. cbn [app].
  rewrite <- (take_drop (k * 16) data) at 3. rewrite (dir_entries_app _ _ k) by (rewrite length_take, E_16; lia).
  assert (length (dir_entries (take (k * 16) data)) = k) as L1.
  { rewrite length_dir_entries, length_take, E_16, Nat.min_l by lia. by apply Nat.div_mul. }
  rewrite take_app_length' by done. f_equal. f_equal.
  destruct (decide (k = n)) as [->|Hne].
  - rewrite !drop_ge; [done|..].
    + rewrite length_dir_entries, Hl, E_16, Nat.div_mul by done. lia.
    + lia.
  - rewrite <- (take_drop (S k * 16) data) at 2. rewrite (dir_entries_app _ _ (S k)) by (rewrite length_take, E_16; lia).
    rewrite drop_app_length'; [f_equal; f_equal; lia|].
    rewrite length_dir_entries, length_take, E_16, Nat.min_l by lia. by rewrite Nat.div_mul.
Qed.

(** Replacing or adding an entry that nobody looks for. *)
Section Find.
Context {A} (P : A -> Prop) `{!forall x, Decision (P x)}.
Lemma list_find_skip l1 x x' l2 : ~ P x -> ~ P x' -> list_find P (l1 ++ x' :: l2) = list_find P (l1 ++ x :: l2).
Proof.
  intros Hx Hx'. induction l1 as [|y l1 IH]; cbn [app list_find]; [by rewrite !decide_False by done|].
  destruct (decide (P y)); [done|]. by rewrite IH.
Qed.
Lemma list_find_skip_end l x : ~ P x -> list_find P (l ++ [x]) = list_find P l.
Proof.
  intros Hx. induction l as [|y l IH]; cbn [app list_find]; [by rewrite decide_False by done|].
  destruct (decide (P y)); [done|]. by rewrite IH.
Qed.
Lemma list_find_here l1 x l2 : list_find P l1 = None -> P x -> list_find P (l1 ++ x :: l2) = Some (length l1, x).
Proof.
  intros Hl Hx. induction l1 as [|y l1 IH]; cbn [app list_find length] in *; [by rewrite decide_True by done|].
  destruct (decide (P y)); [done|]. rewrite IH; [done|]. by destruct (list_find P l1).
Qed.
Lemma list_find_take l k : list_find P l = None -> list_find P (take k l) = None.
Proof. rewrite !list_find_None. apply Forall_take. Qed.
End Find.

(** The slot dirlink() uses. *)
Definition free_entry (de : list Z) : Prop := de_inum de = 0.
#[global] Instance free_entry_dec de : Decision (free_entry de).
Proof. unfold free_entry. apply _. Defined.
Definition free_slot (data : list Z) : nat :=
  match list_find free_entry (dir_entries data) with Some (k, _) => k | None => length (dir_entries data) end.

(** The directory with an entry put there. *)
Definition dir_put (de data : list Z) : list Z :=
  take (free_slot data * E) data ++ de ++ drop (free_slot data * E + E) data.

Lemma free_slot_bound data : (free_slot data <= length (dir_entries data))%nat.
Proof.
  unfold free_slot. destruct (list_find _ _) as [[k de]|] eqn:Ef; [|done].
  apply list_find_Some in Ef as (Hk & _). apply lookup_lt_Some in Hk. lia.
Qed.

Lemma dir_find_put de data nm n :
  length data = (n * E)%nat -> length de = E ->
  (~ has_name nm de -> dir_find (dir_put de data) nm = dir_find data nm) /\
  (has_name nm de -> dir_find data nm = None -> dir_find (dir_put de data) nm = Some (free_slot data, de)).
Proof.
  intros Hl Hde. pose proof (free_slot_bound data) as Hb.
  assert (length (dir_entries data) = n) as Hn by (rewrite length_dir_entries, Hl, E_16; by apply Nat.div_mul).
  unfold dir_find, dir_put. rewrite (dir_entries_write data de (free_slot data) n) by (done || lia). split.
  - intros Hno. destruct (dir_entries data !! free_slot data) as [old|] eqn:Eo.
    + rewrite <- (take_drop_middle _ _ _ Eo) at 3. apply list_find_skip; [|done]. intros [Hz _].
      unfold free_slot in Eo. destruct (list_find free_entry (dir_entries data)) as [[k x]|] eqn:Ef.
      * apply list_find_Some in Ef as (Hk & Hx & _). congruence.
      * apply lookup_lt_Some in Eo. lia.
    + apply lookup_ge_None in Eo. rewrite take_ge, drop_ge by lia. by apply list_find_skip_end.
  - intros Hyes Hnone. rewrite list_find_here; [|by apply list_find_take|done]. by rewrite length_take, Nat.min_l.
Qed.

Lemma dirent_inum inum nm : 0 <= inum < 2 ^ 16 -> de_inum (dirent_bytes inum nm) = inum.
Proof.
  intros Hi. unfold de_inum, dirent_bytes, rd16. rewrite drop_0, take_app_length' by (by rewrite length_le_bytes).
  rewrite le_val_bytes. by apply Z.mod_small.
Qed.
Lemma dirent_name inum nm : de_name (dirent_bytes inum nm) = nm.
Proof. unfold de_name, dirent_bytes. by rewrite drop_app_length' by (by rewrite length_le_bytes). Qed.
Lemma dirent_has_name nm name inum :
  0 < inum < 2 ^ 16 -> has_name nm (dirent_bytes inum (strncpy (ptr_of name) DIRSIZ)) <->
  cstr (Z.to_nat DIRSIZ) (ptr_of nm) = cstr (Z.to_nat DIRSIZ) (ptr_of name).
Proof. intros Hi. unfold has_name. rewrite dirent_inum, dirent_name, strncpy_cstr by lia. intuition lia. Qed.
Lemma length_dirent inum name : length (dirent_bytes inum (strncpy (ptr_of name) DIRSIZ)) = E.
Proof. unfold dirent_bytes. rewrite length_app, length_le_bytes, length_strncpy. reflexivity. Qed.

Section Specs.
Context `{Fuel, BlockDevice, KernelImage, UartReady}.

(** The search for an unused entry. *)
Definition dirlink_body (dp : nat) (off : Z) : K (Z + Z) :=
  let! d := inode_of dp in
  if negb (off <? i_size d) then ret (inr off) else
  let! r := readi dp To_var off DIRENT_SIZE in
  if negb (fst r =? DIRENT_SIZE) then panic "dirlink read" else
  if de_inum (snd r) =? 0 then ret (inr off) else ret (inl (off + DIRENT_SIZE)).

Lemma dirlink_scan p d start size bl c dp i pr sb n s k l :
  i_dev i = d -> inode_ok sb start size c i -> byte_list (idata c i) -> dir_scan p d start size bl c dp i pr s ->
  drop k (dir_entries (idata c i)) = l -> i_size i = DIRENT_SIZE * Z.of_nat (length (dir_entries (idata c i))) ->
  (k <= length (dir_entries (idata c i)))%nat -> (length l < n)%nat ->
  let j := match list_find free_entry l with Some (j, _) => j | None => length l end in
  exists s', loop n (dirlink_body dp) (DIRENT_SIZE * Z.of_nat k) s = Done (DIRENT_SIZE * Z.of_nat (k + j)) s' /\ fs_frame s s' /\
    ks_itable s' = ks_itable s /\ dir_scan p d start size bl c dp i pr s'.
Proof.
  intros Hd Hi Hdata Hs Hl Hsz. revert n s k Hs Hl. induction l as [|de l IH]; intros n s k Hs Hl Hk Hn; (destruct n as [|n]; [cbn in Hn; lia|]).
  - cbn [list_find length]. rewrite Nat.add_0_r. exists s. split_and!; [|done|done|done]. apply loop_done. unfold dirlink_body.
    kstep inode_of_ok; [|apply Hs]. apply (f_equal length) in Hl. rewrite length_drop in Hl. cbn in Hl. change DIRENT_SIZE with 16 in *.
    by rewrite (proj2 (Z.ltb_ge _ _)) by lia.
  - assert (dir_entries (idata c i) !! k = Some de) as Hde.
    { rewrite <- (Nat.add_0_r k), <- lookup_drop, Hl. done. }
    assert (drop (S k) (dir_entries (idata c i)) = l) as Hl' by (by rewrite <- Nat.add_1_r, <- drop_drop, Hl).
    assert (S k <= length (dir_entries (idata c i)))%nat as Hk' by (apply lookup_lt_Some in Hde; lia).
    destruct (dir_read p d start size bl c dp i pr sb Hd Hi Hdata s k de Hs Hde) as (s1 & E1 & F1 & Ei1 & Hs1 & Hlen & Hb & Hfit).
    assert (dirlink_body dp (DIRENT_SIZE * Z.of_nat k) s =
      Done (if decide (free_entry de) then inr (DIRENT_SIZE * Z.of_nat k) else inl (DIRENT_SIZE * Z.of_nat (S k))) s1) as Ebody.
    { unfold dirlink_body. kstep inode_of_ok; [|apply Hs]. change DIRENT_SIZE with 16 in *. rewrite (proj2 (Z.ltb_lt _ _)) by lia. cbn [negb].
      kstep E1. cbn [fst snd Z.eqb Pos.eqb negb]. unfold free_entry. replace (16 * Z.of_nat k + 16) with (16 * Z.of_nat (S k)) by lia.
      destruct (Z.eqb_spec (de_inum de) 0); [by rewrite decide_True|by rewrite decide_False]. }
    cbn [length list_find] in *. destruct (decide (free_entry de)) as [Hin|Hin].
    + rewrite Nat.add_0_r. exists s1. split_and!; [by apply loop_done|done..].
    + rewrite (loop_next _ _ _ _ _ _ Ebody). destruct (IH n s1 (S k) Hs1 Hl' Hk' ltac:(lia)) as (s2 & E2 & F2 & Ei2 & Hs2).
      exists s2. split_and!; [|by rewrite F1|by rewrite Ei2|done]. rewrite E2. do 3 f_equal.
      destruct (list_find free_entry l) as [[j x]|]; cbn; lia.
Qed.

(** C4: dirlink() of a name the directory does not have.  It writes an entry
    with the name and the inode number into the first unused slot, or at the
    end: after that dirlookup() finds the name with this inode number, and it
    finds every other name as before.  When the disk has no block for the entry
    it returns -1 and the directory is as before. *)
Theorem dirlink_correct s p d start size bl c dp i pr name inum :
  let sb := ks_sb s in
  wstate p d start size dp pr sb (ks_mem s) s bl c i -> i_type i = T_DIR -> (DIRENT_SIZE | i_size i) ->
  byte_list (idata c i) -> byte_list name -> length (ks_itable s) = NINODE -> 0 < inum < 2 ^ 16 ->
  i_size i + DIRENT_SIZE <= MAXFILE * BSIZE -> int16 (i_major i) -> int16 (i_minor i) -> int16 (i_nlink i) ->
  let n0 := IBLOCK (i_inum i) sb in
  home start size n0 -> 0 < n0 < sb_size sb -> foreign sb c i n0 ->
  let slot := free_slot (idata c i) in
  room (1 + write_cost c i (DIRENT_SIZE * Z.of_nat slot) (Z.to_nat DIRENT_SIZE) + ind_cost bl c i) 1 size bl c ->
  dir_find (idata c i) name = None ->
  exists r s' bl' c' i', dirlink dp name inum s = Done r s' /\ fs_frame s s' /\ ks_itable s' = <[dp := i']> (ks_itable s) /\
    wstate p d start size dp pr sb (ks_mem s) s' bl' c' i' /\
    (r = 0 /\ dir_find (idata c' i') name = Some (slot, dirent_bytes inum (strncpy (ptr_of name) DIRSIZ)) /\
       (forall nm, cstr (Z.to_nat DIRSIZ) (ptr_of nm) <> cstr (Z.to_nat DIRSIZ) (ptr_of name) ->
          dir_find (idata c' i') nm = dir_find (idata c i) nm) \/
     r = -1 /\ idata c' i' = idata c i /\ forall b, 0 <= b < sb_size sb -> ~ blk_free sb c' b).
Proof.
  intros sb Hw Hty Hdiv Hdata Hname Hlen Hinum Hmax Ht2 Ht3 Ht4 n0 Hh Hn0 Hfor slot Hroom Hnone.
  pose proof Hw as [Hop Hal Hi Hip Hd Hpr _ Hpan _].
  pose proof (ik_size _ _ _ _ _ Hi) as Hsz. change (MAXFILE * BSIZE) with 274432 in *.
  destruct Hdiv as [q Hq]. assert (length (idata c i) = (Z.to_nat q * E)%nat) as Hld.
  { unfold idata. rewrite length_ibytes, Hq, E_16. change DIRENT_SIZE with 16 in *. lia. }
  assert (length (dir_entries (idata c i)) = Z.to_nat q) as Hl by (rewrite length_dir_entries, Hld, E_16; by apply Nat.div_mul).
  assert (i_size i = DIRENT_SIZE * Z.of_nat (length (dir_entries (idata c i)))) as Hsz'
    by (rewrite Hl, Hq; change DIRENT_SIZE with 16 in *; lia).
  pose proof (dirlookup_op s p d start size bl c dp i pr sb name Hop Hip Hd Hi Hty ltac:(by exists q) Hdata Hname Hlen Hpr) as Hlk.
  rewrite Hnone in Hlk. destruct Hlk as (s1 & E1 & F1 & Ei1 & Hop1).
  destruct (fs_frame_eqs _ _ F1) as (Esb1 & Epan1 & Em1 & Epr1).
  destruct (dirlink_scan p d start size bl c dp i pr sb (S (Z.to_nat (i_size i / DIRENT_SIZE + 1))) s1 0 (dir_entries (idata c i)))
    as (s2 & E2 & F2 & Ei2 & Hs2); try done.
  { split; [done|by rewrite Ei1|by rewrite Ei1|by rewrite Epr1]. }
  { lia. }
  { rewrite Hl, Hq. change DIRENT_SIZE with 16. rewrite Z.div_mul by done. lia. }
  cbn [Nat.add] in E2. fold (free_slot (idata c i)) in E2. fold slot in E2.
  assert (fs_frame s s2) as F12 by (by rewrite F1). destruct (fs_frame_eqs _ _ F12) as (Esb & Epan & Em & Epr).
  assert (ks_itable s2 = ks_itable s) as Ei by (by rewrite Ei2). pose proof (free_slot_bound (idata c i)) as Hsl. fold slot in Hsl.
  set (de := dirent_bytes inum (strncpy (ptr_of name) DIRSIZ)). pose proof (length_dirent inum name) as Hde. fold de in Hde.
  pose proof (writei_op s2 p d start size bl c dp i pr (From_var de) (DIRENT_SIZE * Z.of_nat slot) DIRENT_SIZE ∅) as Hwr.
  cbv zeta in Hwr. rewrite Esb, Em in Hwr. change (MAXFILE * BSIZE) with 274432 in Hwr. change DIRENT_SIZE with 16 in *.
  rewrite (proj2 (Z.ltb_ge (i_size i) _)), (proj2 (Z.leb_gt (2 ^ 32) _)), (proj2 (Z.ltb_ge 274432 _)) in Hwr by lia. cbn [orb] in Hwr.
  destruct Hwr as (t & s3 & bl3 & c3 & i3 & E3 & F3 & Ei3 & Hw3 & Ht & Hdat & _).
  { split; rewrite ?Ei, ?Epr, ?Epan, ?Esb; try done. apply Hs2. }
  { lia. }
  { lia. }
  { split; [|done]. cbn [src_bytes]. by rewrite length_take, Hde. }
  { by rewrite Hty. }
  { done. }
  { done. }
  { done. }
  { done. }
  { done. }
  { done. }
  { done. }
  exists (if Z.of_nat t =? 16 then 0 else -1), s3, bl3, c3, i3.
  split_and!; [|by rewrite F12|by rewrite Ei3, Ei|done|].
  - unfold dirlink. kstep E1. cbv beta iota. kstep inode_of_ok; [|by rewrite Ei1]. kstep E2. change DIRENT_SIZE with 16. kstep E3.
    by destruct (Z.of_nat t =? 16).
  - assert (t = 16 \/ t = 0)%nat as [-> | ->].
    { destruct Ht as [Ht|(Hlt & [->|Hm] & _)]; [left; lia|by right|right].
      unfold BSIZE in Hm. clear -Hm Hlt. dlia. }
    + left. cbn [Z.of_nat Z.eqb Pos.eqb]. assert (idata c3 i3 = dir_put de (idata c i)) as ->.
      { rewrite Hdat. unfold dir_put. fold slot. change DIRENT_SIZE with 16. cbn [src_bytes]. change (Z.to_nat 16) with 16%nat in *.
        rewrite !(take_ge de) by (rewrite Hde; done).
        replace (Z.to_nat (16 * Z.of_nat slot)) with (slot * 16)%nat by lia. done. }
      split_and!; [done| |].
      * apply (dir_find_put de (idata c i) name (Z.to_nat q)); [done|done|by apply dirent_has_name|done].
      * intros nm Hnm. apply (dir_find_put de (idata c i) nm (Z.to_nat q)); [done|done|]. unfold de. by rewrite dirent_has_name.
    + right. cbn [Z.of_nat Z.eqb]. destruct Ht as [Ht|(_ & _ & Hno)]; [done|]. split_and!; [done| |done].
      rewrite Hdat, take_0. cbn [app]. rewrite Nat.add_0_r. apply take_drop.
Qed.
End Specs.
