(* ===== verification/FsFileWitness.v ===== *)
(** * The theorems about files and directories at a concrete machine.

    The root directory has two blocks, 47 and 48, and its entry 64 is the name
    "cat" with inode 7.  Blocks 0 to 48 are in use. *)

From S2P Require Import Prelude Defs KMonad Lock Mem Kalloc Sched Sleeplock Bio Machine Log Vm VmWitness UserMem Uart Fs FsBlock FsInode FsAlloc FsFile FsRead FsWrite FsTrunc FsDir FsLink FsWitness.

Definition dir_block : list Z := dirent_bytes 7 (strncpy (ptr_of (str "cat")) DIRSIZ) ++ replicate 1008 0.
Definition dir_disk : gmap Z (list Z) := {[45 := replicate 6 255 ++ 1 :: replicate 1017 0; 48 := dir_block]}.
Definition dir_machine : kstate := mounted (machine_with dir_disk).
#[local] Notation dc := (machine_cache dir_disk).

Lemma dir_disk_blocks n : length (disk_at dir_disk n) = Z.to_nat BSIZE.
Proof.
  unfold disk_at, dir_disk. destruct (decide (n = 45)) as [->|H1]; [by vm_compute|].
  destruct (decide (n = 48)) as [->|H2]; [by vm_compute|]. rewrite lookup_insert_ne, lookup_singleton_ne by done. by vm_compute.
Qed.
Lemma dir_op : in_op dir_machine 0 ROOTDEV 2 LOGSIZE [] dc.
Proof. apply mounted_op; [apply dir_disk_blocks|by vm_compute]. Qed.
Lemma dir_val n : ca_val dc n = disk_at dir_disk n.
Proof. apply mounted_val, dir_disk_blocks. Qed.

Lemma dir_free b : 0 <= b < 64 -> blk_free small_sb dc b <-> 49 <= b.
Proof.
  intros Hb. unfold blk_free. rewrite small_BBLOCK, dir_val by done.
  assert (forallb (fun b => Bool.eqb (bit_at (disk_at dir_disk 45) (b `mod` BPB)) (b <? 49)) (seqZ 0 64) = true)
    as Hall by (vm_compute; reflexivity).
  rewrite forallb_forall in Hall. specialize (Hall b). rewrite <- list_elem_of_In, elem_of_seqZ in Hall.
  apply eqb_prop in Hall; [|lia]. rewrite Hall. rewrite Z.ltb_ge. done.
Qed.

Lemma dir_alloc : alloc_ok small_sb 2 LOGSIZE dc.
Proof.
  split; [|split; [done|rewrite dir_free by done; lia]]. split_and!; try done.
  intros b Hb. change (sb_size small_sb) with 64 in *. split.
  - rewrite small_BBLOCK by done. unfold home, LOGSIZE, MAXOPBLOCKS. lia.
  - intros Hf%dir_free; [|done]. split; [unfold home, LOGSIZE, MAXOPBLOCKS; lia|].
    intros b' Hb'. rewrite small_BBLOCK by done. lia.
Qed.

Lemma small_not_bitmap a : a <> 45 -> not_bitmap small_sb a.
Proof. intros Ha b Hb. change (sb_size small_sb) with 64 in Hb. rewrite small_BBLOCK by done. lia. Qed.

Lemma root_islot c j : 0 <= j -> islot c root_inode j = if decide (j = 0) then 47 else if decide (j = 1) then 48 else 0.
Proof.
  intros Hj. unfold islot. destruct (Z.leb_spec j NDIRECT) as [Hle|Hgt]; unfold NDIRECT in *.
  - assert (j = 0 \/ j = 1 \/ 2 <= j) as [->|[->|H2]] by lia; [done|done|]. rewrite !decide_False by lia.
    assert (forallb (fun k => default 0 (i_addrs root_inode !! Z.to_nat k) =? 0) (seqZ 2 11) = true) as Hall by (by vm_compute).
    rewrite forallb_forall in Hall. apply Z.eqb_eq, Hall. apply list_elem_of_In, elem_of_seqZ. lia.
  - rewrite !decide_False by lia. done.
Qed.

Lemma root_ok : inode_ok small_sb 2 LOGSIZE dc root_inode.
Proof.
  split.
  - done.
  - intros j Hj. rewrite root_islot by lia. change (sb_size small_sb) with 64.
    destruct (decide (j = 0)); [|destruct (decide (j = 1)); [|done]]; intros _;
      (split_and!; [unfold home, LOGSIZE, MAXOPBLOCKS; lia|lia|lia|rewrite dir_free by lia; lia|by apply small_not_bitmap]).
  - intros j j' Hj Hj'. rewrite !root_islot by lia. repeat case_decide; intros; lia.
  - by vm_compute.
  - intros x Hx. change (i_size root_inode) with 1040 in Hx.
    assert (x / BSIZE = 0 \/ x / BSIZE = 1) as [-> | ->] by (unfold BSIZE; dlia); rewrite root_islot; done.
Qed.

Lemma dir_procs : exists pr, ks_proc dir_machine !! 0%nat = Some pr.
Proof. eexists. reflexivity. Qed.

Lemma bmap_correct_witness : exists a s', bmap 0 2 dir_machine = Done a s'.
Proof.
  destruct (bmap_correct dir_machine 0 ROOTDEV 2 LOGSIZE [] dc 0 root_inode 2 1 dir_op dir_alloc root_ok eq_refl eq_refl
    ltac:(split; [discriminate|by vm_compute])) as (a & s' & bl' & c' & i' & E & _).
  - assert (iblk dc root_inode 2 = None) as -> by (apply iblk_none; change (slot_of 2) with 2; by rewrite root_islot).
    assert (ind_cost [] dc root_inode = 2) as -> by (vm_compute; reflexivity). apply mounted_room; lia.
  - lia.
  - done.
  - exists a, s'. exact E.
Defined.

Lemma readi_correct_witness :
  exists bs s', readi 0 To_var 1030 100 dir_machine = Done (10, bs) s' /\ length bs = 10%nat.
Proof.
  destruct dir_procs as [pr Hpr].
  pose proof (readi_correct dir_machine 0 ROOTDEV 2 LOGSIZE [] dc 0 root_inode pr To_var 1030 100 ∅ [] small_sb dir_op eq_refl eq_refl
    root_ok Hpr ltac:(lia) ltac:(lia) I) as Hr.
  set (bs := read_range dc root_inode 1030 100) in Hr.
  assert (length bs = 10%nat) as Hl.
  { unfold bs, read_range. cbn [orb Z.ltb Z.leb]. change ((i_size root_inode <? 1030) || (2 ^ 32 <=? 1030 + 100)) with false.
    cbv iota. rewrite length_take, length_drop. unfold idata. by rewrite length_ibytes. }
  clearbody bs. cbn [put_to] in Hr. rewrite Hl in Hr. destruct Hr as (s' & E & _). exists bs, s'. split; [exact E|exact Hl].
Defined.

Lemma dirlookup_correct_witness :
  exists ip s', dirlookup 0 (str "cat") dir_machine = Done (Some (ip, 1024)) s'.
Proof.
  destruct dir_procs as [pr Hpr].
  pose proof (dirlookup_correct dir_machine 0 ROOTDEV 2 LOGSIZE [] dc 0 root_inode pr small_sb (str "cat") dir_op eq_refl eq_refl
    root_ok eq_refl ltac:(by exists 65)) as Hr.
  assert (dir_find (idata dc root_inode) (str "cat") = Some (64%nat, [7; 0; 99; 97; 116; 0; 0; 0; 0; 0; 0; 0; 0; 0; 0; 0])) as Ef
    by (vm_compute; reflexivity).
  assert (exists l, itable_get ROOTDEV 7 (ks_itable dir_machine) = Some (1%nat, l)) as [l El] by (eexists; vm_compute; reflexivity).
  rewrite Ef in Hr. change (de_inum [7; 0; 99; 97; 116; 0; 0; 0; 0; 0; 0; 0; 0; 0; 0; 0]) with 7 in Hr. rewrite El in Hr.
  destruct Hr as (s' & E & _); [by apply (bool_decide_unpack _); vm_compute|by apply (bool_decide_unpack _); vm_compute|done|exact Hpr|].
  exists 1%nat, s'. exact E.
Defined.

Lemma dir_inode_block : 32 = IBLOCK (i_inum root_inode) small_sb.
Proof. reflexivity. Qed.


(** A second name in the root directory goes into its first unused slot. *)
Lemma dirlink_correct_witness :
  exists r s', dirlink 0 (str "wc") 8 dir_machine = Done r s' /\ (r = 0 \/ r = -1).
Proof.
  destruct dir_procs as [pr Hpr].
  pose proof (dirlink_correct dir_machine 0 ROOTDEV 2 LOGSIZE [] dc 0 root_inode pr (str "wc") 8) as Hr.
  change (ks_sb dir_machine) with small_sb in Hr. cbv zeta in Hr. change (IBLOCK (i_inum root_inode) small_sb) with 32 in Hr.
  assert (free_slot (idata dc root_inode) = 0%nat) as Ef by (vm_compute; reflexivity). rewrite Ef in Hr.
  destruct Hr as (r & s' & bl' & c' & i' & E & _ & _ & _ & Hres).
  - split; [apply dir_op|apply dir_alloc|apply root_ok|done|done|exact Hpr|done|done|done].
  - done.
  - by exists 65.
  - by apply (bool_decide_unpack _); vm_compute.
  - by apply (bool_decide_unpack _); vm_compute.
  - done.
  - lia.
  - by vm_compute.
  - by vm_compute.
  - by vm_compute.
  - by vm_compute.
  - unfold home, LOGSIZE, MAXOPBLOCKS. lia.
  - done.
  - split_and!; [rewrite dir_free by lia; lia|by apply small_not_bitmap|]. intros j Hj. rewrite root_islot by lia. repeat case_decide; done.
  - assert (write_cost dc root_inode (DIRENT_SIZE * Z.of_nat 0) (Z.to_nat DIRENT_SIZE) = 1) as -> by (vm_compute; reflexivity).
    assert (ind_cost [] dc root_inode = 2) as -> by (vm_compute; reflexivity). apply mounted_room; lia.
  - vm_compute. reflexivity.
  - exists r, s'. split; [exact E|]. destruct Hres as [[-> _]|[-> _]]; [by left|by right].
Defined.

(** The blocks of the directory, 47 and 48, are free afterwards. *)
Lemma itrunc_correct_witness :
  exists s' bl' c', itrunc 0 dir_machine = Done tt s' /\ in_op s' 0 ROOTDEV 2 LOGSIZE bl' c' /\
    blk_free small_sb c' 47 /\ blk_free small_sb c' 48 /\ ~ blk_free small_sb c' 46.
Proof.
  pose proof (itrunc_correct dir_machine 0 ROOTDEV 2 LOGSIZE [] dc 0 root_inode) as Hr.
  change (ks_sb dir_machine) with small_sb in Hr. cbv zeta in Hr. change (IBLOCK (i_inum root_inode) small_sb) with 32 in Hr.
  destruct Hr as (s' & bl' & c' & E & _ & _ & Hop & _ & _ & _ & Hb & _).
  - apply dir_op.
  - apply dir_alloc.
  - apply root_ok.
  - done.
  - done.
  - by vm_compute.
  - by vm_compute.
  - by vm_compute.
  - by vm_compute.
  - unfold home, LOGSIZE, MAXOPBLOCKS. lia.
  - done.
  - split_and!; [rewrite dir_free by lia; lia|by apply small_not_bitmap|]. intros j Hj. rewrite root_islot by lia. repeat case_decide; done.
  - assert (bitmap_cost small_sb [] <= 1).
    { unfold bitmap_cost. change (bitmap_blocks small_sb) with [45].
      pose proof (length_filter (fun n => n ∉ []) [45]). cbn [length] in *. lia. }
    eapply room_le; [apply (mounted_room dir_disk 2 1); lia|lia|lia].
  - exists s', bl', c'. assert (sb_size small_sb = 64) as Esz by reflexivity. rewrite Esz in Hb.
    split; [exact E|]. split; [exact Hop|]. clear E Hop. split; [|split]; [apply Hb; [lia|]..|].
    + right. exists 0. rewrite root_islot by lia. change (0 <= 0 <= 268 /\ 47 = 47 /\ 47 <> 0). lia.
    + right. exists 1. rewrite root_islot by lia. change (0 <= 1 <= 268 /\ 48 = 48 /\ 48 <> 0). lia.
    + rewrite Hb, dir_free by lia. intros [?|(j & Hj & Ej & _)]; [lia|]. rewrite root_islot in Ej by lia. repeat case_decide; lia.
Defined.
