(* ===== verification/FsPath.v ===== *)
(** * Path names (fs.c: skipelem).

    skipelem() against the definition of a path as its non-empty components
    between slashes. *)

From S2P Require Import Prelude Defs KMonad Mem Uart Fs.

Definition slash : Z := 47.

(** A path cut at every slash, and its components. *)
Fixpoint pieces (path : list Z) : list Z * list (list Z) :=
  match path with
  | [] => ([], [])
  | c :: path =>
    let (x, xs) := pieces path in
    if decide (c = slash) then ([], x :: xs) else (c :: x, xs)
  end.
Definition components (path : list Z) : list (list Z) :=
  filter (.≠ []) (fst (pieces path) :: snd (pieces path)).

Lemma components_slash path : components (slash :: path) = components path.
Proof. unfold components. cbn [pieces]. by destruct (pieces path). Qed.

Lemma pieces_head e path :
  slash ∉ e -> pieces (e ++ path) = (e ++ fst (pieces path), snd (pieces path)).
Proof.
  induction e as [|c e IH]; intros Hs; [cbn; by destruct (pieces path)|].
  apply not_elem_of_cons in Hs as [Hc Hs]. cbn [app pieces]. rewrite IH by done.
  by rewrite decide_False by done.
Qed.

(** An element, then the end or a slash. *)
Lemma components_elem e path :
  slash ∉ e -> e <> [] -> path = [] \/ (exists r, path = slash :: r) ->
  components (e ++ path) = e :: components path.
Proof.
  intros Hs He Hp. unfold components. rewrite pieces_head by done. cbn [fst snd].
  assert (fst (pieces path) = []) as E.
  { destruct Hp as [->|[r ->]]; [done|]. cbn [pieces]. by destruct (pieces r). }
  rewrite E, app_nil_r. rewrite !filter_cons. rewrite decide_True by done. rewrite decide_False by tauto. done.
Qed.

Lemma skip_slashes_spec path :
  components (skip_slashes path) = components path /\ head (skip_slashes path) <> Some slash /\
  (length (skip_slashes path) <= length path)%nat.
Proof.
  induction path as [|c path (IH1 & IH2 & IH3)]; [done|]. cbn [skip_slashes].
  destruct (Z.eqb_spec c 47) as [->|Hc].
  - rewrite components_slash. split_and!; [done|done|cbn; lia].
  - split_and!; [done|cbn; unfold slash; congruence|done].
Qed.

Lemma path_elem_spec path :
  let '(e, r) := path_elem path in
  path = e ++ r /\ (slash ∉ e) /\ (r = [] \/ exists r', r = slash :: r').
Proof.
  induction path as [|c path IH]; cbn [path_elem]; [split_and!; [done|apply not_elem_of_nil|by left]|].
  destruct (Z.eqb_spec c 47) as [->|Hc].
  - split_and!; [done|apply not_elem_of_nil|by right; exists path].
  - destruct (path_elem path) as [e r]. destruct IH as (-> & He & Hr). split_and!; [done| |done].
    apply not_elem_of_cons. split; [unfold slash; congruence|done].
Qed.

(** No component is left exactly when only slashes are. *)
Lemma components_nil path : head path <> Some slash -> components path = [] <-> path = [].
Proof.
  intros Hh. split; [|by intros ->]. destruct path as [|c path]; [done|]. cbn in Hh.
  unfold components. cbn [pieces]. destruct (pieces path) as [x xs]. rewrite decide_False by congruence.
  cbn [fst snd]. rewrite filter_cons, decide_True by done. done.
Qed.

(** A buffer that starts with the string [a]. *)
Lemma cstr_prefix n a r :
  0 ∉ a -> head r = Some 0 \/ (n <= length a)%nat -> cstr n (ptr_of (a ++ r)) = take n a.
Proof.
  revert n. induction a as [|x a IH]; intros n Ha Hr.
  - rewrite take_nil. destruct n; [done|]. destruct r as [|y r], Hr as [Hr|Hr]; cbn in Hr; try lia; simplify_eq.
    cbn [app]. by rewrite cstr_cons.
  - apply not_elem_of_cons in Ha as [Hx Ha]. destruct n as [|n]; [done|]. cbn [app take]. rewrite cstr_cons.
    rewrite (proj2 (Z.eqb_neq _ _)) by done. f_equal. apply IH; [done|]. destruct Hr; [by left|right; cbn in *; lia].
Qed.

(** skipelem() takes the components of a path one by one.  With
    none left it returns 0; otherwise [name] holds the first component cut to
    DIRSIZ bytes, the path returned has exactly the other components, has no
    leading slash, is shorter, and is empty exactly when the component was the
    last one. *)
Theorem skipelem_correct path name :
  0 ∉ path -> length name = Z.to_nat DIRSIZ ->
  match components path with
  | [] => skipelem path name = None
  | e :: es => exists path' name', skipelem path name = Some (path', name') /\
      components path' = es /\ head path' <> Some slash /\ (path' = [] <-> es = []) /\
      (length path' < length path)%nat /\ length name' = Z.to_nat DIRSIZ /\
      cstr (Z.to_nat DIRSIZ) (ptr_of name') = take (Z.to_nat DIRSIZ) e
  end.
Proof.
  intros H0 Hname. destruct (skip_slashes_spec path) as (Hc & Hh & Hlen). rewrite <- Hc.
  unfold skipelem. assert (0 ∉ skip_slashes path) as H0'.
  { intros Hin. apply H0. clear -Hin. induction path as [|c path IH]; [done|]. cbn [skip_slashes] in Hin.
    destruct (c =? 47); [by right; apply IH|done]. }
  destruct (skip_slashes path) as [|c p] eqn:Ep; [done|].
  pose proof (path_elem_spec (c :: p)) as Hpe. assert (fst (path_elem (c :: p)) <> []) as Hne.
  { cbn [path_elem]. cbn in Hh. rewrite (proj2 (Z.eqb_neq c 47)) by (unfold slash in Hh; congruence).
    by destruct (path_elem p). }
  destruct (path_elem (c :: p)) as [e r]. cbn [fst] in Hne. destruct Hpe as (Epe & Hse & Hr).
  rewrite Epe in *. rewrite components_elem by done. destruct (skip_slashes_spec r) as (Hc' & Hh' & Hlen').
  assert (0 ∉ e) as He0 by (intros Hin; apply H0', elem_of_app; by left).
  assert (length e <> 0)%nat as Hle by (by destruct e).
  eexists _, _. split; [reflexivity|]. split_and!; [done|done| | | |].
  - rewrite <- (components_nil _ Hh'), Hc'. done.
  - rewrite length_app in Hlen. lia.
  - destruct (Z.leb_spec DIRSIZ (Z.of_nat (length e))).
    + rewrite length_patch; [done|]. rewrite length_take. lia.
    + rewrite length_patch; [done|]. rewrite length_app. cbn. lia.
  - destruct (Z.leb_spec DIRSIZ (Z.of_nat (length e))).
    + unfold patch. rewrite take_0, app_nil_l, cstr_prefix; [by rewrite take_take, Nat.min_id| |].
      * intros Hin. apply He0. eapply elem_of_take in Hin as (i & Hi & _). by eapply list_elem_of_lookup_2.
      * right. rewrite length_take. lia.
    + unfold patch. rewrite take_0, app_nil_l, <- app_assoc. apply cstr_prefix; [done|by left].
Qed.

Lemma skipelem_correct_witness :
  exists path' name', skipelem (str "//usr//bin/") (replicate 14 7) = Some (path', name') /\
    components path' = [str "bin"] /\ cstr 14 (ptr_of name') = str "usr".
Proof.
  pose proof (skipelem_correct (str "//usr//bin/") (replicate 14 7)) as Hw.
  destruct Hw as (path' & name' & E & Ec & _ & _ & _ & _ & En).
  - intros Hin. apply (bool_decide_pack _) in Hin. by vm_compute in Hin.
  - reflexivity.
  - exists path', name'. split; [exact E|]. split; [exact Ec|exact En].
Defined.
