(* ===== verification/Console.v ===== *)
(** * The console (console.c, uartintr of uart.c, procdump of proc.c).

    consoleintr edits the input line as characters arrive; consoleread hands
    out completed lines.  The buffer's three indices are free-running 32-bit
    counters with r <= w <= e up to wrap-around. *)

From S2P Require Import Prelude Defs KMonad Lock Mem Kalloc Sched Sleeplock Bio Vm Pipe Uart Fs.

Definition INPUT_BUF_SIZE : Z := 128.
(** [C(x)], control-x. *)
Definition Ctrl (x : Z) : Z := x - 64.

Definition cons_of : K consst := get ks_cons.
Definition set_cons (f : consst -> consst) : K unit := modify (fun s => s <| ks_cons ::= f |>).
(** [cons.buf[i % INPUT_BUF_SIZE]] *)
Definition cons_at (c : consst) (i : Z) : Z := default 0 (cons_buf c !! Z.to_nat (i `mod` INPUT_BUF_SIZE)).
Definition cons_put (i v : Z) (c : consst) : consst :=
  c <| cons_buf ::= <[Z.to_nat (i `mod` INPUT_BUF_SIZE) := v]> |>.

(** procdump's [states] table. *)
Definition state_name (st : procstate) : list Z :=
  match st with
  | UNUSED => str "unused" | USED => str "used" | SLEEPING => str "sleep "
  | RUNNABLE => str "runble" | RUNNING => str "run   " | ZOMBIE => str "zombie"
  end.
(** The bytes of an array before its NUL. *)
Fixpoint c_str (l : list Z) : list Z :=
  match l with c :: l => if c =? 0 then [] else c :: c_str l | [] => [] end.
Definition newline : list Z := [10].

Section Code.
Context `{Fuel, BlockDevice, KernelImage, Uart}.

Definition consolewrite (src : ksrc) (n : Z) : K Z :=
  loop (S (Z.to_nat n)) (fun i =>
    if negb (i <? n) then ret (inr i) else
    let! r := either_copyin (src_add src i) 1 in
    if fst r =? -1 then ret (inr i) else
    uartputc (default 0 (head (snd r))) ;;
    ret (inl (i + 1))) 0.

(** The inner wait of consoleread; [false] when the reader was killed. *)
Definition consoleread_wait (_ : unit) : K (unit + bool) :=
  let! c := cons_of in
  if negb (cons_r c =? cons_w c) then ret (inr true) else
  let! p := cur_proc in
  let! k := killed p in
  if negb (k =? 0) then release L_cons ;; ret (inr false) else
  sleep Ch_cons L_cons ;;
  ret (inl tt).

(** The number of bytes and, for a kernel variable as destination, the bytes. *)
Definition consoleread (dst : kdst) (n : Z) : K (Z * list Z) :=
  let target := u32 n in
  acquire L_cons ;;
  let! r := loop (S (Z.to_nat n)) (fun '(dst, n, got) =>
    if negb (0 <? n) then ret (inr (Some (n, got))) else
    let! go := loop fuel consoleread_wait tt in
    if negb go then ret (inr None) else
    let! cs := cons_of in
    let c := cons_at cs (cons_r cs) in
    set_cons (fun cs => cs <| cons_r := u32 (cons_r cs + 1) |>) ;;
    if c =? Ctrl 68 then
      when (u32 n <? target) (set_cons (fun cs => cs <| cons_r := u32 (cons_r cs - 1) |>)) ;;
      ret (inr (Some (n, got)))
    else
      let! r := either_copyout dst [c] in
      if fst r =? -1 then ret (inr (Some (n, got))) else
      let got := got ++ snd r in
      if c =? 10 then ret (inr (Some (n - 1, got)))
      else ret (inl (dst_add dst 1, n - 1, got))) (dst, n, []) in
  match r with
  | None => ret (-1, [])
  | Some (n, got) => release L_cons ;; ret (i32 (target - n), got)
  end.

Definition procdump : K unit :=
  printf newline [] ;;
  for_each (seq 0 NPROC) (fun p =>
    let! pr := proc_of p in
    if bool_decide (p_state pr = UNUSED) then ret tt else
    printf (str "%d %s %s")
      [A_int (p_pid pr); A_str (Some (state_name (p_state pr))); A_str (Some (c_str (p_name pr)))] ;;
    printf newline []).

(** The line-kill loop. *)
Definition kill_line : K unit :=
  loop (S (Z.to_nat INPUT_BUF_SIZE)) (fun _ =>
    let! c := cons_of in
    if negb (cons_e c =? cons_w c) && negb (cons_at c (u32 (cons_e c - 1)) =? 10) then
      set_cons (fun c => c <| cons_e := u32 (cons_e c - 1) |>) ;;
      consputc BACKSPACE ;;
      ret (inl tt)
    else ret (inr tt)) tt.

Definition consoleintr (c : Z) : K unit :=
  acquire L_cons ;;
  (if c =? Ctrl 80 then procdump
   else if c =? Ctrl 85 then kill_line
   else if (c =? Ctrl 72) || (c =? 0x7f) then
     let! cs := cons_of in
     when (negb (cons_e cs =? cons_w cs))
       (set_cons (fun c => c <| cons_e := u32 (cons_e c - 1) |>) ;;
        consputc BACKSPACE)
   else
     let! cs := cons_of in
     when (negb (c =? 0) && (u32 (cons_e cs - cons_r cs) <? INPUT_BUF_SIZE))
       (let c := if c =? 13 then 10 else c in
        consputc c ;;
        set_cons (fun cs => (cons_put (cons_e cs) (u8 c) cs) <| cons_e := u32 (cons_e cs + 1) |>) ;;
        let! cs := cons_of in
        when ((c =? 10) || (c =? Ctrl 68) || (u32 (cons_e cs - cons_r cs) =? INPUT_BUF_SIZE))
          (set_cons (fun cs => cs <| cons_w := cons_e cs |>) ;;
           wakeup Ch_cons))) ;;
  release L_cons.

(** uart.c: uartintr; [fuel] bounds the characters waiting in the chip. *)
Definition uartintr : K unit :=
  loop fuel (fun _ =>
    let! c := uartgetc in
    if c =? -1 then ret (inr tt) else
    consoleintr c ;;
    ret (inl tt)) tt ;;
  acquire L_uart_tx ;;
  uartstart ;;
  release L_uart_tx.

Definition consoleinit : K unit :=
  initlock L_cons "cons" ;;
  uartinit ;;
  modify (fun s => s <| ks_devsw ::= <[Z.to_nat CONSOLE := (DEV_console, DEV_console)]> |>).
End Code.
