(* ===== verification/File.v ===== *)
(** * Open files (file.c, and pipealloc of pipe.c).

    File pointers are indices into [ftable.file].  The device switch table
    holds the only functions the kernel installs in it, the console's. *)

From S2P Require Import Prelude Defs KMonad Lock Mem Kalloc Sched Sleeplock Bio Log Vm Pipe Uart Fs Console.

Definition file_of (f : nat) : K file := let! l := get ks_ftable in deref l f.
Definition set_file (f : nat) (g : file -> file) : K unit :=
  let! _ := file_of f in modify (fun s => s <| ks_ftable ::= alter g f |>).

Section Code.
Context `{Fuel, BlockDevice, KernelImage, Uart}.

Definition fileinit : K unit := initlock L_ftable "ftable".

Definition filealloc : K (option nat) :=
  acquire L_ftable ;;
  let! r := for_find (seq 0 NFILE) (fun f =>
    let! x := file_of f in
    if f_ref x =? 0 then
      set_file f (fun x => x <| f_ref := 1 |>) ;;
      release L_ftable ;;
      ret (Some f)
    else ret None) in
  match r with
  | Some f => ret (Some f)
  | None => release L_ftable ;; ret None
  end.

Definition filedup (f : nat) : K nat :=
  acquire L_ftable ;;
  let! x := file_of f in
  if f_ref x <? 1 then panic "filedup" else
  set_file f (fun x => x <| f_ref := i32 (f_ref x + 1) |>) ;;
  release L_ftable ;;
  ret f.

Definition fileclose (f : nat) : K unit :=
  acquire L_ftable ;;
  let! x := file_of f in
  if f_ref x <? 1 then panic "fileclose" else
  set_file f (fun x => x <| f_ref := f_ref x - 1 |>) ;;
  let! x := file_of f in
  if 0 <? f_ref x then release L_ftable else
  let ff := x in
  set_file f (fun x => x <| f_ref := 0 |>) ;;
  set_file f (fun x => x <| f_type := FD_NONE |>) ;;
  release L_ftable ;;
  match f_type ff with
  | FD_PIPE => pipeclose (f_pipe ff) (f_writable ff)
  | FD_INODE | FD_DEVICE =>
    begin_op ;;
    let! ip := nonnull (f_ip ff) in
    iput ip ;;
    end_op
  | FD_NONE => ret tt
  end.

Definition filestat (f : nat) (addr : Z) : K Z :=
  let! p := cur_proc in
  let! x := file_of f in
  match f_type x with
  | FD_INODE | FD_DEVICE =>
    ilock (f_ip x) ;;
    let! ip := nonnull (f_ip x) in
    let! st := stati ip in
    iunlock (f_ip x) ;;
    let! pr := proc_of p in
    let! r := copyout (p_pagetable pr) addr st in
    if r <? 0 then ret (-1) else ret 0
  | _ => ret (-1)
  end.

(** [devsw[major].read] and [.write]; [None] when the entry is null or the
    major number is out of range. *)
Definition dev_read (major : Z) : K (option devfn) :=
  if (major <? 0) || (NDEV <=? major) then ret None else
  let! l := get ks_devsw in
  let! d := deref l (Z.to_nat major) in
  match fst d with DEV_null => ret None | f => ret (Some f) end.
Definition dev_write (major : Z) : K (option devfn) :=
  if (major <? 0) || (NDEV <=? major) then ret None else
  let! l := get ks_devsw in
  let! d := deref l (Z.to_nat major) in
  match snd d with DEV_null => ret None | f => ret (Some f) end.

Definition fileread (f : nat) (addr n : Z) : K Z :=
  let! x := file_of f in
  if f_readable x =? 0 then ret (-1) else
  match f_type x with
  | FD_PIPE => piperead (f_pipe x) addr n
  | FD_DEVICE =>
    let! d := dev_read (f_major x) in
    match d with
    | None => ret (-1)
    | Some _ => let! r := consoleread (To_user addr) n in ret (fst r)
    end
  | FD_INODE =>
    ilock (f_ip x) ;;
    let! ip := nonnull (f_ip x) in
    let! x' := file_of f in
    let! r := readi ip (To_user addr) (f_off x') (u32 n) in
    when (0 <? fst r) (set_file f (fun x => x <| f_off := u32 (f_off x + fst r) |>)) ;;
    iunlock (f_ip x) ;;
    ret (fst r)
  | FD_NONE => panic "fileread"
  end.

(** [((MAXOPBLOCKS-1-1-2) / 2) * BSIZE] *)
Definition max_write : Z := ((MAXOPBLOCKS - 1 - 1 - 2) / 2) * BSIZE.

Definition filewrite (f : nat) (addr n : Z) : K Z :=
  let! x := file_of f in
  if f_writable x =? 0 then ret (-1) else
  match f_type x with
  | FD_PIPE => pipewrite (f_pipe x) addr n
  | FD_DEVICE =>
    let! d := dev_write (f_major x) in
    match d with
    | None => ret (-1)
    | Some _ => consolewrite (From_user addr) n
    end
  | FD_INODE =>
    let! i := loop (S (Z.to_nat n)) (fun i =>
      if negb (i <? n) then ret (inr i) else
      let n1 := Z.min (n - i) max_write in
      begin_op ;;
      ilock (f_ip x) ;;
      let! ip := nonnull (f_ip x) in
      let! x' := file_of f in
      let! r := writei ip (From_user (u64 (addr + i))) (f_off x') (u32 n1) in
      when (0 <? r) (set_file f (fun x => x <| f_off := u32 (f_off x + r) |>)) ;;
      iunlock (f_ip x) ;;
      end_op ;;
      if negb (r =? n1) then ret (inr i) else ret (inl (i + r))) 0 in
    ret (if i =? n then n else -1)
  | FD_NONE => panic "filewrite"
  end.

(** pipe.c: pipealloc; the two files on success *)
Definition pipealloc : K (option (nat * nat)) :=
  let bad (pi : option Z) (f0 f1 : option nat) : K (option (nat * nat)) :=
    match pi with Some pi => kfree pi | None => ret tt end ;;
    match f0 with Some f => fileclose f | None => ret tt end ;;
    match f1 with Some f => fileclose f | None => ret tt end ;;
    ret None in
  let! f0 := filealloc in
  match f0 with
  | None => bad None None None
  | Some a =>
    let! f1 := filealloc in
    match f1 with
    | None => bad None f0 None
    | Some b =>
      let! pi := kalloc in
      if pi =? 0 then bad None f0 f1 else
      (* kalloc() has filled the page with 5s *)
      modify (fun s => s <| ks_pipes ::=
        <[pi := mk_pipe (replicate (Z.to_nat PIPESIZE) 5) 0 0 1 1]> |>) ;;
      initlock (L_pipe pi) "pipe" ;;
      set_file a (fun x => x <| f_type := FD_PIPE |> <| f_readable := 1 |> <| f_writable := 0 |>
        <| f_pipe := pi |>) ;;
      set_file b (fun x => x <| f_type := FD_PIPE |> <| f_readable := 0 |> <| f_writable := 1 |>
        <| f_pipe := pi |>) ;;
      ret (Some (a, b))
    end
  end.
End Code.
