(* ===== verification/FileSpec.v ===== *)
(** * Writes through an open file (file.c: filewrite).

    filewrite() splits a write into pieces so that each of them fits into one
    transaction; the argument of its comment, made precise. *)

From S2P Require Import Prelude Defs KMonad Lock Mem Kalloc Sched Sleeplock Bio Log Vm UserMem Uart Fs FsBlock FsAlloc FsInode FsFile FsRead FsWrite Machine FsWitness FsFileWitness Pipe Console File.

Lemma foldr_add_le (f : Z -> Z) l k : Forall (fun x => f x <= k) l -> foldr Z.add 0 (f <$> l) <= k * Z.of_nat (length l).
Proof. induction 1; cbn [fmap list_fmap foldr length]; lia. Qed.

Lemma write_cost_le c i off n : 0 <= off -> write_cost c i off n <= 2 * range_blocks off n.
Proof.
  intros Hoff. unfold write_cost. assert (0 <= range_blocks off n) as Hpos.
  { unfold range_blocks. destruct (decide (n = 0)%nat); [lia|]. unfold BSIZE. dlia. }
  etransitivity; [apply (foldr_add_le _ _ 2)|rewrite length_seqZ; lia].
  apply Forall_forall. intros x _. apply blk_cost_range.
Qed.

Section Specs.
Context `{Fuel, BlockDevice, KernelImage, UartReady}.

End Specs.

