(* ===== verification/Proc.v ===== *)
(** * Processes (proc.c: procinit, allocpid, allocproc, freeproc,
    proc_pagetable, proc_freepagetable, userinit, growproc, fork, reparent,
    exit, wait).

    Trap frames are kept typed, by the address of their page.  exit() does not
    return: it ends in sched(). *)

From S2P Require Import Prelude Defs KMonad Lock Mem Kalloc Sched Sleeplock Bio Log Vm Pipe Uart Fs Console File.

(** A page fresh from kalloc() is filled with 5s. *)
Definition junk64 : Z := 0x0505050505050505.
Definition junk_tf : trapframe :=
  mk_trapframe junk64 junk64 junk64 junk64 junk64 junk64 junk64 junk64 junk64 junk64 junk64 junk64
    junk64 junk64 junk64 junk64 junk64 junk64 junk64 junk64 junk64 junk64 junk64 junk64 junk64
    junk64 junk64 junk64 junk64 junk64 junk64 junk64 junk64 junk64 junk64 junk64.

Definition tf_of (a : Z) : K trapframe := let! l := get ks_tframes in nonnull (l !! a).
Definition set_tf (a : Z) (f : trapframe -> trapframe) : K unit :=
  let! _ := tf_of a in modify (fun s => s <| ks_tframes ::= alter f a |>).

(** [uchar initcode[]] *)
Definition initcode : list Z := [
  0x17; 0x05; 0x00; 0x00; 0x13; 0x05; 0x45; 0x02;
  0x97; 0x05; 0x00; 0x00; 0x93; 0x85; 0x35; 0x02;
  0x93; 0x08; 0x70; 0x00; 0x73; 0x00; 0x00; 0x00;
  0x93; 0x08; 0x20; 0x00; 0x73; 0x00; 0x00; 0x00;
  0xef; 0xf0; 0x9f; 0xff; 0x2f; 0x69; 0x6e; 0x69;
  0x74; 0x00; 0x00; 0x24; 0x00; 0x00; 0x00; 0x00;
  0x00; 0x00; 0x00; 0x00].

Section Code.
Context `{Fuel, BlockDevice, KernelImage, Uart}.

Definition procinit : K unit :=
  initlock L_pid "nextpid" ;;
  initlock L_wait "wait_lock" ;;
  for_each (seq 0 NPROC) (fun p =>
    initlock (L_proc p) "proc" ;;
    set_proc p (fun x => x <| p_state := UNUSED |>) ;;
    set_proc p (fun x => x <| p_kstack := KSTACK (Z.of_nat p) |>)).

Definition allocpid : K Z :=
  acquire L_pid ;;
  let! pid := get ks_nextpid in
  modify (fun s => s <| ks_nextpid := i32 (pid + 1) |>) ;;
  release L_pid ;;
  ret pid.

Definition proc_pagetable (p : nat) : K Z :=
  let! pagetable := uvmcreate in
  if pagetable =? 0 then ret 0 else
  let! r := mappages pagetable TRAMPOLINE PGSIZE trampoline (Z.lor PTE_R PTE_X) in
  if r <? 0 then uvmfree pagetable 0 ;; ret 0 else
  let! pr := proc_of p in
  let! r := mappages pagetable TRAPFRAME PGSIZE (p_trapframe pr) (Z.lor PTE_R PTE_W) in
  if r <? 0 then
    uvmunmap pagetable TRAMPOLINE 1 false ;;
    uvmfree pagetable 0 ;;
    ret 0
  else ret pagetable.

Definition proc_freepagetable (pagetable sz : Z) : K unit :=
  uvmunmap pagetable TRAMPOLINE 1 false ;;
  uvmunmap pagetable TRAPFRAME 1 false ;;
  uvmfree pagetable sz.

Definition freeproc (p : nat) : K unit :=
  let! pr := proc_of p in
  when (negb (p_trapframe pr =? 0))
    (kfree (p_trapframe pr) ;;
     modify (fun s => s <| ks_tframes ::= delete (p_trapframe pr) |>)) ;;
  set_proc p (fun x => x <| p_trapframe := 0 |>) ;;
  let! pr := proc_of p in
  when (negb (p_pagetable pr =? 0)) (proc_freepagetable (p_pagetable pr) (p_sz pr)) ;;
  set_proc p (fun x => x <| p_pagetable := 0 |>) ;;
  set_proc p (fun x => x <| p_sz := 0 |>) ;;
  set_proc p (fun x => x <| p_pid := 0 |>) ;;
  set_proc p (fun x => x <| p_parent := None |>) ;;
  set_proc p (fun x => x <| p_name ::= <[0%nat := 0]> |>) ;;
  set_proc p (fun x => x <| p_chan := None |>) ;;
  set_proc p (fun x => x <| p_killed := 0 |>) ;;
  set_proc p (fun x => x <| p_xstate := 0 |>) ;;
  set_proc p (fun x => x <| p_state := UNUSED |>).

(** The search for an UNUSED entry, which leaves its lock held. *)
Definition find_unused : K (option nat) :=
  for_find (seq 0 NPROC) (fun p =>
    acquire (L_proc p) ;;
    let! pr := proc_of p in
    if bool_decide (p_state pr = UNUSED) then ret (Some p)
    else release (L_proc p) ;; ret None).

Definition allocproc : K (option nat) :=
  let! found := find_unused in
  match found with
  | None => ret None
  | Some p =>
    let! pid := allocpid in
    set_proc p (fun x => x <| p_pid := pid |>) ;;
    set_proc p (fun x => x <| p_state := USED |>) ;;
    let! tf := kalloc in
    set_proc p (fun x => x <| p_trapframe := tf |>) ;;
    if tf =? 0 then freeproc p ;; release (L_proc p) ;; ret None else
    modify (fun s => s <| ks_tframes ::= <[tf := junk_tf]> |>) ;;
    let! pagetable := proc_pagetable p in
    set_proc p (fun x => x <| p_pagetable := pagetable |>) ;;
    if pagetable =? 0 then freeproc p ;; release (L_proc p) ;; ret None else
    set_proc p (fun x => x <| p_context := mk_context 0 0 (replicate 12 0) |>) ;;
    set_proc p (fun x => x <| p_context ::= fun c => c <| ctx_ra := forkret_addr |> |>) ;;
    let! pr := proc_of p in
    set_proc p (fun x => x <| p_context ::= fun c => c <| ctx_sp := p_kstack pr + PGSIZE |> |>) ;;
    ret (Some p)
  end.

Definition userinit : K unit :=
  let! np := allocproc in
  modify (fun s => s <| ks_initproc := np |>) ;;
  let! p := nonnull np in
  let! pr := proc_of p in
  uvmfirst (p_pagetable pr) initcode ;;
  set_proc p (fun x => x <| p_sz := PGSIZE |>) ;;
  set_tf (p_trapframe pr) (fun t => t <| tf_epc := 0 |>) ;;
  set_tf (p_trapframe pr) (fun t => t <| tf_sp := PGSIZE |>) ;;
  set_proc p (fun x => x <| p_name ::= fun n => safestrcpy n (ptr_of (str "initcode")) 16 |>) ;;
  let! cwd := namei (str "/") in
  set_proc p (fun x => x <| p_cwd := cwd |>) ;;
  set_proc p (fun x => x <| p_state := RUNNABLE |>) ;;
  release (L_proc p).

Definition growproc (n : Z) : K Z :=
  let! p := cur_proc in
  let! pr := proc_of p in
  let sz := p_sz pr in
  if 0 <? n then
    let! sz := uvmalloc (p_pagetable pr) sz (u64 (sz + n)) PTE_W in
    if sz =? 0 then ret (-1) else
    set_proc p (fun x => x <| p_sz := sz |>) ;;
    ret 0
  else if n <? 0 then
    let! sz := uvmdealloc (p_pagetable pr) sz (u64 (sz + n)) in
    set_proc p (fun x => x <| p_sz := sz |>) ;;
    ret 0
  else
    set_proc p (fun x => x <| p_sz := sz |>) ;;
    ret 0.

Definition fork : K Z :=
  let! p := cur_proc in
  let! np := allocproc in
  match np with
  | None => ret (-1)
  | Some np =>
    let! pr := proc_of p in
    let! npr := proc_of np in
    let! r := uvmcopy (p_pagetable pr) (p_pagetable npr) (p_sz pr) in
    if r <? 0 then freeproc np ;; release (L_proc np) ;; ret (-1) else
    set_proc np (fun x => x <| p_sz := p_sz pr |>) ;;
    let! tf := tf_of (p_trapframe pr) in
    set_tf (p_trapframe npr) (fun _ => tf) ;;
    set_tf (p_trapframe npr) (fun t => t <| tf_a0 := 0 |>) ;;
    for_each (seq 0 NOFILE) (fun i =>
      let! f := deref (p_ofile pr) i in
      match f with
      | Some f =>
        let! f' := filedup f in
        set_proc np (fun x => x <| p_ofile ::= <[i := Some f']> |>)
      | None => ret tt
      end) ;;
    let! cwd := nonnull (p_cwd pr) in
    let! cwd := idup cwd in
    set_proc np (fun x => x <| p_cwd := Some cwd |>) ;;
    set_proc np (fun x => x <| p_name ::= fun n => safestrcpy n (ptr_of (p_name pr)) 16 |>) ;;
    let! npr := proc_of np in
    let pid := p_pid npr in
    release (L_proc np) ;;
    acquire L_wait ;;
    set_proc np (fun x => x <| p_parent := Some p |>) ;;
    release L_wait ;;
    acquire (L_proc np) ;;
    set_proc np (fun x => x <| p_state := RUNNABLE |>) ;;
    release (L_proc np) ;;
    ret pid
  end.

(** A process sleeping on its own address. *)
Definition wakeup_proc (p : option nat) : K unit :=
  match p with Some p => wakeup (Ch_proc p) | None => ret tt end.

Definition reparent (p : nat) : K unit :=
  let! init := get ks_initproc in
  for_each (seq 0 NPROC) (fun pp =>
    let! pr := proc_of pp in
    when (bool_decide (p_parent pr = Some p))
      (set_proc pp (fun x => x <| p_parent := init |>) ;;
       wakeup_proc init)).

Definition exit (status : Z) : K unit :=
  let! p := cur_proc in
  let! init := get ks_initproc in
  if bool_decide (init = Some p) then panic "init exiting" else
  for_each (seq 0 NOFILE) (fun fd =>
    let! pr := proc_of p in
    let! f := deref (p_ofile pr) fd in
    match f with
    | Some f =>
      fileclose f ;;
      set_proc p (fun x => x <| p_ofile ::= <[fd := None]> |>)
    | None => ret tt
    end) ;;
  begin_op ;;
  let! pr := proc_of p in
  let! cwd := nonnull (p_cwd pr) in
  iput cwd ;;
  end_op ;;
  set_proc p (fun x => x <| p_cwd := None |>) ;;
  acquire L_wait ;;
  reparent p ;;
  let! pr := proc_of p in
  wakeup_proc (p_parent pr) ;;
  acquire (L_proc p) ;;
  set_proc p (fun x => x <| p_xstate := status |>) ;;
  set_proc p (fun x => x <| p_state := ZOMBIE |>) ;;
  release L_wait ;;
  sched ;;
  panic "zombie exit".

(** One scan of the table: the value to return, or whether there are children. *)
Definition wait_scan (p : nat) (addr : Z) : K (bool + Z) :=
  loop (S NPROC) (fun '(pp, havekids) =>
    if (NPROC <=? pp)%nat then ret (inr (inl havekids)) else
    let! pr := proc_of pp in
    if negb (bool_decide (p_parent pr = Some p)) then ret (inl (S pp, havekids)) else
    acquire (L_proc pp) ;;
    let! pr := proc_of pp in
    if bool_decide (p_state pr = ZOMBIE) then
      let pid := p_pid pr in
      let! me := proc_of p in
      let! r := (if addr =? 0 then ret 0 else copyout (p_pagetable me) addr (le_bytes 4 (p_xstate pr))) in
      if r <? 0 then
        release (L_proc pp) ;;
        release L_wait ;;
        ret (inr (inr (-1)))
      else
        freeproc pp ;;
        release (L_proc pp) ;;
        release L_wait ;;
        ret (inr (inr pid))
    else release (L_proc pp) ;; ret (inl (S pp, true))) (O, false).

Definition wait (addr : Z) : K Z :=
  let! p := cur_proc in
  acquire L_wait ;;
  loop fuel (fun _ =>
    let! r := wait_scan p addr in
    match r with
    | inr v => ret (inr v)
    | inl havekids =>
      let! stop := (if havekids : bool then let! k := killed p in ret (negb (k =? 0)) else ret true) in
      if stop : bool then release L_wait ;; ret (inr (-1)) else
      sleep (Ch_proc p) L_wait ;;
      ret (inl tt)
    end) tt.
End Code.
