(* ===== verification/Exec.v ===== *)
(** * System-call arguments and exec (syscall.c: fetchaddr .. argstr; exec.c).

    A C string is the list of its bytes before the NUL. *)

From S2P Require Import Prelude Defs KMonad Lock Mem Kalloc Sched Sleeplock Bio Log Vm Pipe Uart Fs Console File Proc.

(** ** elf.h *)

Definition ELF_MAGIC : Z := 0x464C457F.
Definition ELF_PROG_LOAD : Z := 1.
Definition ELFHDR_SIZE : Z := 64.
Definition PROGHDR_SIZE : Z := 56.
Definition rd64 (bs : list Z) (off : nat) : Z := le_val (take 8 (drop off bs)).

Record elfhdr := mk_elfhdr { elf_magic : Z; elf_entry : Z; elf_phoff : Z; elf_phnum : Z }.
Definition get_elfhdr (bs : list Z) : elfhdr :=
  mk_elfhdr (rd32 bs 0) (rd64 bs 24) (rd64 bs 32) (rd16 bs 56).

Record proghdr := mk_proghdr {
  ph_type : Z; ph_flags : Z; ph_off : Z; ph_vaddr : Z; ph_filesz : Z; ph_memsz : Z
}.
Definition get_proghdr (bs : list Z) : proghdr :=
  mk_proghdr (rd32 bs 0) (rd32 bs 4) (rd64 bs 8) (rd64 bs 16) (rd64 bs 32) (rd64 bs 40).

Definition flags2perm (flags : Z) : Z :=
  let perm := if negb (Z.land flags 0x1 =? 0) then PTE_X else 0 in
  if negb (Z.land flags 0x2 =? 0) then Z.lor perm PTE_W else perm.

(** What follows the last slash of a path. *)
Fixpoint last_elem (last s : list Z) : list Z :=
  match s with
  | [] => last
  | c :: s => if c =? 47 then last_elem s s else last_elem last s
  end.
(** The bytes of a line up to a newline or a space; [None] without one. *)
Fixpoint interp_name (l : list Z) : option (list Z) :=
  match l with
  | [] => None
  | c :: l => if (c =? 10) || (c =? 32) then Some [] else
              match interp_name l with Some r => Some (c :: r) | None => None end
  end.

Section Code.
Context `{Fuel, BlockDevice, KernelImage, Uart}.

(** ** syscall.c *)

Definition fetchaddr (addr : Z) : K (Z * Z) :=
  let! p := cur_proc in
  let! pr := proc_of p in
  if (p_sz pr <=? addr) || (p_sz pr <? u64 (addr + 8)) then ret (-1, 0) else
  let! r := copyin (p_pagetable pr) addr 8 in
  if negb (fst r =? 0) then ret (-1, 0) else ret (0, le_val (snd r)).

Definition fetchstr (addr max : Z) : K (Z * list Z) :=
  let! p := cur_proc in
  let! pr := proc_of p in
  let! r := copyinstr (p_pagetable pr) addr (u64 max) in
  if fst r <? 0 then ret (-1, []) else
  let s := removelast (snd r) in
  ret (Z.of_nat (length s), s).

Definition argraw (n : Z) : K Z :=
  let! p := cur_proc in
  let! pr := proc_of p in
  let! t := tf_of (p_trapframe pr) in
  if n =? 0 then ret (tf_a0 t) else
  if n =? 1 then ret (tf_a1 t) else
  if n =? 2 then ret (tf_a2 t) else
  if n =? 3 then ret (tf_a3 t) else
  if n =? 4 then ret (tf_a4 t) else
  if n =? 5 then ret (tf_a5 t) else
  panic "argraw".

Definition argint (n : Z) : K Z := let! v := argraw n in ret (i32 v).
Definition argaddr (n : Z) : K Z := argraw n.
Definition argstr (n max : Z) : K (Z * list Z) :=
  let! addr := argaddr n in
  fetchstr addr max.

(** ** exec.c *)

Definition loadseg (pagetable va : Z) (ip : nat) (offset sz : Z) : K Z :=
  loop (S (Z.to_nat (sz / PGSIZE + 1))) (fun i =>
    if negb (i <? sz) then ret (inr 0) else
    let! pa := walkaddr pagetable (u64 (va + i)) in
    if pa =? 0 then panic "loadseg: address should exist" else
    let n := if sz - i <? PGSIZE then sz - i else PGSIZE in
    let! r := readi ip (To_mem pa) (u32 (offset + i)) n in
    if negb (fst r =? n) then ret (inr (-1)) else ret (inl (i + PGSIZE))) 0.

(** [bad:]; the inode is still locked, inside the transaction, when given. *)
Definition exec_bad (pagetable sz : Z) (ip : option nat) : K Z :=
  when (negb (pagetable =? 0)) (proc_freepagetable pagetable sz) ;;
  match ip with
  | Some ip => iunlockput ip ;; end_op
  | None => ret tt
  end ;;
  ret (-1).

(** The loop over program headers: the size reached, and whether it succeeded. *)
Definition load_segments (pagetable : Z) (ip : nat) (elf : elfhdr) : K (bool * Z) :=
  loop (S (Z.to_nat (elf_phnum elf))) (fun '(i, off, sz) =>
    if negb (i <? elf_phnum elf) then ret (inr (true, sz)) else
    let! r := readi ip To_var (u32 off) PROGHDR_SIZE in
    if negb (fst r =? PROGHDR_SIZE) then ret (inr (false, sz)) else
    let ph := get_proghdr (snd r) in
    let next sz := ret (inl (i + 1, i32 (off + PROGHDR_SIZE), sz)) in
    if negb (ph_type ph =? ELF_PROG_LOAD) then next sz else
    if ph_memsz ph <? ph_filesz ph then ret (inr (false, sz)) else
    if u64 (ph_vaddr ph + ph_memsz ph) <? ph_vaddr ph then ret (inr (false, sz)) else
    if negb (ph_vaddr ph `mod` PGSIZE =? 0) then ret (inr (false, sz)) else
    let! sz1 := uvmalloc pagetable sz (u64 (ph_vaddr ph + ph_memsz ph)) (flags2perm (ph_flags ph)) in
    if sz1 =? 0 then ret (inr (false, sz)) else
    let! r := loadseg pagetable (ph_vaddr ph) ip (u32 (ph_off ph)) (u32 (ph_filesz ph)) in
    if r <? 0 then ret (inr (false, sz1)) else next sz1) (0, i32 (elf_phoff elf), 0).

(** Pushing the argument strings: the stack pointer and the array [ustack]. *)
Definition push_args (pagetable stackbase sp : Z) (argv : list (list Z)) : K (option (Z * list Z)) :=
  loop (S (length argv)) (fun '(sp, ustack, argv) =>
    match argv with
    | [] => ret (inr (Some (sp, ustack)))
    | s :: argv =>
      if (MAXARG <=? length ustack)%nat then ret (inr None) else
      let sp := u64 (sp - (Z.of_nat (length s) + 1)) in
      let sp := u64 (sp - sp `mod` 16) in
      if sp <? stackbase then ret (inr None) else
      let! r := copyout pagetable sp (s ++ [0]) in
      if r <? 0 then ret (inr None) else
      ret (inl (sp, ustack ++ [sp], argv))
    end) (sp, [], argv).

(** Everything after the program is loaded, until the new image is in place. *)
Definition exec_finish (p : nat) (path : list Z) (argv : list (list Z)) (elf : elfhdr)
    (pagetable sz : Z) : K Z :=
  let! pr := proc_of p in
  let oldsz := p_sz pr in
  let sz := PGROUNDUP sz in
  let! sz1 := uvmalloc pagetable sz (u64 (sz + 2 * PGSIZE)) PTE_W in
  if sz1 =? 0 then exec_bad pagetable sz None else
  let sz := sz1 in
  uvmclear pagetable (u64 (sz - 2 * PGSIZE)) ;;
  let stackbase := u64 (sz - PGSIZE) in
  let! r := push_args pagetable stackbase sz argv in
  match r with
  | None => exec_bad pagetable sz None
  | Some (sp, ustack) =>
    let argc := Z.of_nat (length ustack) in
    if (MAXARG <=? length ustack)%nat then fault else
    let sp := u64 (sp - (argc + 1) * 8) in
    let sp := u64 (sp - sp `mod` 16) in
    if sp <? stackbase then exec_bad pagetable sz None else
    let! r := copyout pagetable sp (concat (le_bytes 8 <$> (ustack ++ [0]))) in
    if r <? 0 then exec_bad pagetable sz None else
    let! pr := proc_of p in
    set_tf (p_trapframe pr) (fun t => t <| tf_a1 := sp |>) ;;
    set_proc p (fun x => x <| p_name ::= fun n => safestrcpy n (ptr_of (last_elem path path)) 16 |>) ;;
    let! pr := proc_of p in
    let oldpagetable := p_pagetable pr in
    set_proc p (fun x => x <| p_pagetable := pagetable |>) ;;
    set_proc p (fun x => x <| p_sz := sz |>) ;;
    set_tf (p_trapframe pr) (fun t => t <| tf_epc := elf_entry elf |>) ;;
    set_tf (p_trapframe pr) (fun t => t <| tf_sp := sp |>) ;;
    proc_freepagetable oldpagetable oldsz ;;
    ret argc
  end.

(** [depth] bounds the chain of interpreters. *)
Fixpoint exec (depth : nat) (path : list Z) (argv : list (list Z)) : K Z :=
  match depth with
  | O => out_of_fuel
  | S depth =>
    let! p := cur_proc in
    begin_op ;;
    let! found := namei path in
    match found with
    | None => end_op ;; ret (-1)
    | Some ip =>
      ilock (Some ip) ;;
      let! r := readi ip To_var 0 2 in
      (* reading a byte that readi did not store is undefined *)
      let! c0 := deref (snd r) 0 in
      let! script := (if c0 =? 35 then let! c1 := deref (snd r) 1 in ret (c1 =? 33) else ret false) in
      if script : bool then
        let! r := readi ip To_var 2 MAXPATH in
        let! interpreter := nonnull (interp_name (snd r)) in
        iunlockput ip ;;
        end_op ;;
        exec depth interpreter (interpreter :: take 1 argv)
      else
        let! r := readi ip To_var 0 ELFHDR_SIZE in
        if negb (fst r =? ELFHDR_SIZE) then exec_bad 0 0 (Some ip) else
        let elf := get_elfhdr (snd r) in
        if negb (elf_magic elf =? ELF_MAGIC) then exec_bad 0 0 (Some ip) else
        let! pagetable := proc_pagetable p in
        if pagetable =? 0 then exec_bad 0 0 (Some ip) else
        let! l := load_segments pagetable ip elf in
        let '(ok, sz) := l in
        if negb ok then exec_bad pagetable sz (Some ip) else
        iunlockput ip ;;
        end_op ;;
        exec_finish p path argv elf pagetable sz
    end
  end.
End Code.
