(* ===== verification/Sysfile.v ===== *)
(** * File-system calls (sysfile.c). *)

From S2P Require Import Prelude Defs KMonad Lock Mem Kalloc Sched Sleeplock Bio Log Vm Pipe Uart Fs Console File Proc Exec.

Section Code.
Context `{Fuel, BlockDevice, KernelImage, Uart}.

(** The descriptor and the file, or the failure -1. *)
Definition argfd (n : Z) : K (option (Z * nat)) :=
  let! fd := argint n in
  if (fd <? 0) || (Z.of_nat NOFILE <=? fd) then ret None else
  let! p := cur_proc in
  let! pr := proc_of p in
  let! f := deref (p_ofile pr) (Z.to_nat fd) in
  match f with None => ret None | Some f => ret (Some (fd, f)) end.

Definition fdalloc (f : nat) : K Z :=
  let! p := cur_proc in
  let! r := for_find (seq 0 NOFILE) (fun fd =>
    let! pr := proc_of p in
    let! x := deref (p_ofile pr) fd in
    match x with
    | None =>
      set_proc p (fun x => x <| p_ofile ::= <[fd := Some f]> |>) ;;
      ret (Some (Z.of_nat fd))
    | Some _ => ret None
    end) in
  ret (default (-1) r).

Definition sys_dup : K Z :=
  let! r := argfd 0 in
  match r with
  | None => ret (-1)
  | Some (_, f) =>
    let! fd := fdalloc f in
    if fd <? 0 then ret (-1) else
    let! _ := filedup f in
    ret fd
  end.

Definition sys_read : K Z :=
  let! p := argaddr 1 in
  let! n := argint 2 in
  let! r := argfd 0 in
  match r with
  | None => ret (-1)
  | Some (_, f) => fileread f p n
  end.

Definition sys_write : K Z :=
  let! p := argaddr 1 in
  let! n := argint 2 in
  let! r := argfd 0 in
  match r with
  | None => ret (-1)
  | Some (_, f) => filewrite f p n
  end.

Definition set_ofile (p : nat) (fd : Z) (f : option nat) : K unit :=
  set_proc p (fun x => x <| p_ofile ::= <[Z.to_nat fd := f]> |>).

Definition sys_close : K Z :=
  let! r := argfd 0 in
  match r with
  | None => ret (-1)
  | Some (fd, f) =>
    let! p := cur_proc in
    set_ofile p fd None ;;
    fileclose f ;;
    ret 0
  end.

Definition sys_fstat : K Z :=
  let! st := argaddr 1 in
  let! r := argfd 0 in
  match r with
  | None => ret (-1)
  | Some (_, f) => filestat f st
  end.

Definition sys_link : K Z :=
  let! old := argstr 0 MAXPATH in
  if fst old <? 0 then ret (-1) else
  let! new := argstr 1 MAXPATH in
  if fst new <? 0 then ret (-1) else
  begin_op ;;
  let! found := namei (snd old) in
  match found with
  | None => end_op ;; ret (-1)
  | Some ip =>
    ilock (Some ip) ;;
    let! i := inode_of ip in
    if i_type i =? T_DIR then iunlockput ip ;; end_op ;; ret (-1) else
    set_inode ip (fun i => i <| i_nlink := i16 (i_nlink i + 1) |>) ;;
    iupdate ip ;;
    iunlock (Some ip) ;;
    let bad : K Z :=
      ilock (Some ip) ;;
      set_inode ip (fun i => i <| i_nlink := i16 (i_nlink i - 1) |>) ;;
      iupdate ip ;;
      iunlockput ip ;;
      end_op ;;
      ret (-1) in
    let! par := nameiparent (snd new) in
    match fst par with
    | None => bad
    | Some dp =>
      ilock (Some dp) ;;
      let! d := inode_of dp in
      let! i := inode_of ip in
      let! r := (if negb (i_dev d =? i_dev i) then ret (-1) else dirlink dp (snd par) (i_inum i)) in
      if r <? 0 then iunlockput dp ;; bad else
      iunlockput dp ;;
      iput ip ;;
      end_op ;;
      ret 0
    end
  end.

Definition isdirempty (dp : nat) : K bool :=
  let! d := inode_of dp in
  loop (S (Z.to_nat (i_size d / DIRENT_SIZE + 1))) (fun off =>
    let! d := inode_of dp in
    if negb (off <? i_size d) then ret (inr true) else
    let! r := readi dp To_var off DIRENT_SIZE in
    if negb (fst r =? DIRENT_SIZE) then panic "isdirempty: readi" else
    if negb (de_inum (snd r) =? 0) then ret (inr false) else
    ret (inl (off + DIRENT_SIZE))) (2 * DIRENT_SIZE).

Definition sys_unlink : K Z :=
  let! path := argstr 0 MAXPATH in
  if fst path <? 0 then ret (-1) else
  begin_op ;;
  let! par := nameiparent (snd path) in
  match fst par with
  | None => end_op ;; ret (-1)
  | Some dp =>
    let name := snd par in
    ilock (Some dp) ;;
    let bad : K Z := iunlockput dp ;; end_op ;; ret (-1) in
    if (namecmp name (str ".") =? 0) || (namecmp name (str "..") =? 0) then bad else
    let! found := dirlookup dp name in
    match found with
    | None => bad
    | Some (ip, off) =>
      ilock (Some ip) ;;
      let! i := inode_of ip in
      if i_nlink i <? 1 then panic "unlink: nlink < 1" else
      let! full := (if i_type i =? T_DIR then let! e := isdirempty ip in ret (negb e) else ret false) in
      if full : bool then iunlockput ip ;; bad else
      let! w := writei dp (From_var (replicate (Z.to_nat DIRENT_SIZE) 0)) off DIRENT_SIZE in
      if negb (w =? DIRENT_SIZE) then panic "unlink: writei" else
      when (i_type i =? T_DIR)
        (set_inode dp (fun d => d <| i_nlink := i16 (i_nlink d - 1) |>) ;;
         iupdate dp) ;;
      iunlockput dp ;;
      set_inode ip (fun i => i <| i_nlink := i16 (i_nlink i - 1) |>) ;;
      iupdate ip ;;
      iunlockput ip ;;
      end_op ;;
      ret 0
    end
  end.

(** The locked inode. *)
Definition create (path : list Z) (type major minor : Z) : K (option nat) :=
  let! par := nameiparent path in
  match fst par with
  | None => ret None
  | Some dp =>
    let name := snd par in
    ilock (Some dp) ;;
    let! found := dirlookup dp name in
    match found with
    | Some (ip, _) =>
      iunlockput dp ;;
      ilock (Some ip) ;;
      let! i := inode_of ip in
      if (type =? T_FILE) && ((i_type i =? T_FILE) || (i_type i =? T_DEVICE)) then ret (Some ip)
      else iunlockput ip ;; ret None
    | None =>
      let! d := inode_of dp in
      let! new := ialloc (i_dev d) type in
      match new with
      | None => iunlockput dp ;; ret None
      | Some ip =>
        ilock (Some ip) ;;
        set_inode ip (fun i => i <| i_major := major |>) ;;
        set_inode ip (fun i => i <| i_minor := minor |>) ;;
        set_inode ip (fun i => i <| i_nlink := 1 |>) ;;
        iupdate ip ;;
        let! i := inode_of ip in
        let fail : K (option nat) :=
          set_inode ip (fun i => i <| i_nlink := 0 |>) ;;
          iupdate ip ;;
          iunlockput ip ;;
          iunlockput dp ;;
          ret None in
        let! r := (if type =? T_DIR then
                     let! r := dirlink ip (str ".") (i_inum i) in
                     if r <? 0 then ret r else dirlink ip (str "..") (i_inum d)
                   else ret 0) in
        if r <? 0 then fail else
        let! r := dirlink dp name (i_inum i) in
        if r <? 0 then fail else
        when (type =? T_DIR)
          (set_inode dp (fun d => d <| i_nlink := i16 (i_nlink d + 1) |>) ;;
           iupdate dp) ;;
        iunlockput dp ;;
        ret (Some ip)
      end
    end
  end.

Definition has_flag (omode flag : Z) : bool := negb (Z.land omode flag =? 0).

(** Everything after the inode is found and locked. *)
Definition open_file (ip : nat) (omode : Z) : K Z :=
  let! i := inode_of ip in
  if (i_type i =? T_DEVICE) && ((i_major i <? 0) || (NDEV <=? i_major i)) then
    iunlockput ip ;; end_op ;; ret (-1)
  else
  let! nf := filealloc in
  match nf with
  | None => iunlockput ip ;; end_op ;; ret (-1)
  | Some f =>
    let! fd := fdalloc f in
    if fd <? 0 then fileclose f ;; iunlockput ip ;; end_op ;; ret (-1) else
    (if i_type i =? T_DEVICE then
       set_file f (fun x => x <| f_type := FD_DEVICE |> <| f_major := i_major i |>)
     else
       set_file f (fun x => x <| f_type := FD_INODE |> <| f_off := 0 |>)) ;;
    set_file f (fun x => x <| f_ip := Some ip |>) ;;
    set_file f (fun x => x <| f_readable := b2z (negb (has_flag omode O_WRONLY)) |>) ;;
    set_file f (fun x => x <| f_writable := b2z (has_flag omode O_WRONLY || has_flag omode O_RDWR) |>) ;;
    when (has_flag omode O_TRUNC && (i_type i =? T_FILE)) (itrunc ip) ;;
    iunlock (Some ip) ;;
    end_op ;;
    ret fd
  end.

Definition sys_open : K Z :=
  let! omode := argint 1 in
  let! path := argstr 0 MAXPATH in
  if fst path <? 0 then ret (-1) else
  begin_op ;;
  if has_flag omode O_CREATE then
    let! r := create (snd path) T_FILE 0 0 in
    match r with
    | None => end_op ;; ret (-1)
    | Some ip => open_file ip omode
    end
  else
    let! r := namei (snd path) in
    match r with
    | None => end_op ;; ret (-1)
    | Some ip =>
      ilock (Some ip) ;;
      let! i := inode_of ip in
      if (i_type i =? T_DIR) && negb (omode =? O_RDONLY) then iunlockput ip ;; end_op ;; ret (-1)
      else open_file ip omode
    end.

Definition sys_mkdir : K Z :=
  begin_op ;;
  let! path := argstr 0 MAXPATH in
  if fst path <? 0 then end_op ;; ret (-1) else
  let! r := create (snd path) T_DIR 0 0 in
  match r with
  | None => end_op ;; ret (-1)
  | Some ip => iunlockput ip ;; end_op ;; ret 0
  end.

Definition sys_mknod : K Z :=
  begin_op ;;
  let! major := argint 1 in
  let! minor := argint 2 in
  let! path := argstr 0 MAXPATH in
  if fst path <? 0 then end_op ;; ret (-1) else
  let! r := create (snd path) T_DEVICE (i16 major) (i16 minor) in
  match r with
  | None => end_op ;; ret (-1)
  | Some ip => iunlockput ip ;; end_op ;; ret 0
  end.

Definition sys_chdir : K Z :=
  let! p := cur_proc in
  begin_op ;;
  let! path := argstr 0 MAXPATH in
  if fst path <? 0 then end_op ;; ret (-1) else
  let! r := namei (snd path) in
  match r with
  | None => end_op ;; ret (-1)
  | Some ip =>
    ilock (Some ip) ;;
    let! i := inode_of ip in
    if negb (i_type i =? T_DIR) then iunlockput ip ;; end_op ;; ret (-1) else
    iunlock (Some ip) ;;
    let! pr := proc_of p in
    let! cwd := nonnull (p_cwd pr) in
    iput cwd ;;
    end_op ;;
    set_proc p (fun x => x <| p_cwd := Some ip |>) ;;
    ret 0
  end.

(** The argument strings, each in a page of its own: the pages allocated so
    far, and the strings when all could be fetched. *)
Definition fetch_args (uargv : Z) : K (list Z * option (list (list Z))) :=
  loop (S MAXARG) (fun '(pages, strs) =>
    let i := Z.of_nat (length strs) in
    if (MAXARG <=? length strs)%nat then ret (inr (pages, None)) else
    let! r := fetchaddr (u64 (uargv + 8 * i)) in
    if fst r <? 0 then ret (inr (pages, None)) else
    if snd r =? 0 then ret (inr (pages, Some strs)) else
    let! page := kalloc in
    if page =? 0 then ret (inr (pages, None)) else
    let! r := fetchstr (snd r) PGSIZE in
    if fst r <? 0 then ret (inr (pages ++ [page], None)) else
    mem_store page (snd r ++ [0]) ;;
    ret (inl (pages ++ [page], strs ++ [snd r]))) ([], []).

Definition sys_exec : K Z :=
  let! uargv := argaddr 1 in
  let! path := argstr 0 MAXPATH in
  if fst path <? 0 then ret (-1) else
  let! r := fetch_args uargv in
  let '(pages, argv) := r in
  match argv with
  | Some argv =>
    let! r := exec fuel (snd path) argv in
    for_each pages kfree ;;
    ret r
  | None => for_each pages kfree ;; ret (-1)
  end.

Definition sys_pipe : K Z :=
  let! p := cur_proc in
  let! fdarray := argaddr 0 in
  let! r := pipealloc in
  match r with
  | None => ret (-1)
  | Some (rf, wf) =>
    let close (fds : list Z) : K Z :=
      for_each fds (fun fd => set_ofile p fd None) ;;
      fileclose rf ;;
      fileclose wf ;;
      ret (-1) in
    let! fd0 := fdalloc rf in
    if fd0 <? 0 then close [] else
    let! fd1 := fdalloc wf in
    if fd1 <? 0 then close [fd0] else
    let! pr := proc_of p in
    let! r := copyout (p_pagetable pr) fdarray (le_bytes 4 fd0) in
    if r <? 0 then close [fd0; fd1] else
    let! r := copyout (p_pagetable pr) (u64 (fdarray + 4)) (le_bytes 4 fd1) in
    if r <? 0 then close [fd0; fd1] else
    ret 0
  end.
End Code.
