(* ===== verification/Virtio.v ===== *)
(** * The disk driver (virtio_disk.c) and the interrupt controller (plic.c).

    The device's registers are a parameter.  The rings and descriptors the
    driver shares with the device are fields of [ks_vdisk]; what a descriptor
    points at is named by [dptr] instead of by a physical address. *)

From S2P Require Import Prelude Defs KMonad Lock Mem Kalloc Sched Sleeplock Bio.

(** ** virtio.h *)

Definition VIRTIO_MMIO_MAGIC_VALUE : Z := 0x000.
Definition VIRTIO_MMIO_VERSION : Z := 0x004.
Definition VIRTIO_MMIO_DEVICE_ID : Z := 0x008.
Definition VIRTIO_MMIO_VENDOR_ID : Z := 0x00c.
Definition VIRTIO_MMIO_DEVICE_FEATURES : Z := 0x010.
Definition VIRTIO_MMIO_DRIVER_FEATURES : Z := 0x020.
Definition VIRTIO_MMIO_QUEUE_SEL : Z := 0x030.
Definition VIRTIO_MMIO_QUEUE_NUM_MAX : Z := 0x034.
Definition VIRTIO_MMIO_QUEUE_NUM : Z := 0x038.
Definition VIRTIO_MMIO_QUEUE_READY : Z := 0x044.
Definition VIRTIO_MMIO_QUEUE_NOTIFY : Z := 0x050.
Definition VIRTIO_MMIO_INTERRUPT_STATUS : Z := 0x060.
Definition VIRTIO_MMIO_INTERRUPT_ACK : Z := 0x064.
Definition VIRTIO_MMIO_STATUS : Z := 0x070.
Definition VIRTIO_MMIO_QUEUE_DESC_LOW : Z := 0x080.
Definition VIRTIO_MMIO_QUEUE_DESC_HIGH : Z := 0x084.
Definition VIRTIO_MMIO_DRIVER_DESC_LOW : Z := 0x090.
Definition VIRTIO_MMIO_DRIVER_DESC_HIGH : Z := 0x094.
Definition VIRTIO_MMIO_DEVICE_DESC_LOW : Z := 0x0a0.
Definition VIRTIO_MMIO_DEVICE_DESC_HIGH : Z := 0x0a4.
Definition VIRTIO_CONFIG_S_ACKNOWLEDGE : Z := 1.
Definition VIRTIO_CONFIG_S_DRIVER : Z := 2.
Definition VIRTIO_CONFIG_S_DRIVER_OK : Z := 4.
Definition VIRTIO_CONFIG_S_FEATURES_OK : Z := 8.
Definition VIRTIO_BLK_F_RO : Z := 5.
Definition VIRTIO_BLK_F_SCSI : Z := 7.
Definition VIRTIO_BLK_F_CONFIG_WCE : Z := 11.
Definition VIRTIO_BLK_F_MQ : Z := 12.
Definition VIRTIO_F_ANY_LAYOUT : Z := 27.
Definition VIRTIO_RING_F_INDIRECT_DESC : Z := 28.
Definition VIRTIO_RING_F_EVENT_IDX : Z := 29.
Definition VRING_DESC_F_NEXT : Z := 1.
Definition VRING_DESC_F_WRITE : Z := 2.
Definition VIRTIO_BLK_T_IN : Z := 0.
Definition VIRTIO_BLK_T_OUT : Z := 1.

(** Reads and writes of the device's registers, [*R(r)]. *)
Class Virtio := { vread : Z -> K Z; vwrite : Z -> Z -> K unit }.

Definition disk_of : K vdisk := get ks_vdisk.
Definition set_disk (f : vdisk -> vdisk) : K unit := modify (fun s => s <| ks_vdisk ::= f |>).
Definition desc_of (i : Z) : K vdesc := let! d := disk_of in deref (dk_desc d) (Z.to_nat i).
Definition set_desc (i : Z) (v : vdesc) : K unit :=
  let! _ := desc_of i in set_disk (fun d => d <| dk_desc ::= <[Z.to_nat i := v]> |>).
Definition free_of (i : Z) : K Z := let! d := disk_of in deref (dk_free d) (Z.to_nat i).
Definition set_free (i v : Z) : K unit :=
  let! _ := free_of i in set_disk (fun d => d <| dk_free ::= <[Z.to_nat i := v]> |>).
Definition info_of (i : Z) : K (option nat * Z) :=
  let! d := disk_of in deref (dk_info d) (Z.to_nat i).
Definition set_info (i : Z) (f : option nat * Z -> option nat * Z) : K unit :=
  let! _ := info_of i in set_disk (fun d => d <| dk_info ::= alter f (Z.to_nat i) |>).
Definition set_op (i : Z) (v : Z * Z) : K unit :=
  set_disk (fun d => d <| dk_ops ::= <[Z.to_nat i := v]> |>).

Definition mask_off (features bit : Z) : Z := Z.land features (u64 (Z.lnot (Z.shiftl 1 bit))).

Section Code.
Context `{Fuel, KernelImage, Virtio}.

Definition virtio_disk_init : K unit :=
  initlock L_vdisk "virtio_disk" ;;
  let! magic := vread VIRTIO_MMIO_MAGIC_VALUE in
  if negb (magic =? 0x74726976) then panic "could not find virtio disk" else
  let! version := vread VIRTIO_MMIO_VERSION in
  if negb (version =? 2) then panic "could not find virtio disk" else
  let! devid := vread VIRTIO_MMIO_DEVICE_ID in
  if negb (devid =? 2) then panic "could not find virtio disk" else
  let! vendor := vread VIRTIO_MMIO_VENDOR_ID in
  if negb (vendor =? 0x554d4551) then panic "could not find virtio disk" else
  vwrite VIRTIO_MMIO_STATUS 0 ;;
  let status := VIRTIO_CONFIG_S_ACKNOWLEDGE in
  vwrite VIRTIO_MMIO_STATUS status ;;
  let status := Z.lor status VIRTIO_CONFIG_S_DRIVER in
  vwrite VIRTIO_MMIO_STATUS status ;;
  let! features := vread VIRTIO_MMIO_DEVICE_FEATURES in
  let features := foldl mask_off features
    [VIRTIO_BLK_F_RO; VIRTIO_BLK_F_SCSI; VIRTIO_BLK_F_CONFIG_WCE; VIRTIO_BLK_F_MQ;
     VIRTIO_F_ANY_LAYOUT; VIRTIO_RING_F_EVENT_IDX; VIRTIO_RING_F_INDIRECT_DESC] in
  vwrite VIRTIO_MMIO_DRIVER_FEATURES (u32 features) ;;
  let status := Z.lor status VIRTIO_CONFIG_S_FEATURES_OK in
  vwrite VIRTIO_MMIO_STATUS status ;;
  let! status := vread VIRTIO_MMIO_STATUS in
  if Z.land status VIRTIO_CONFIG_S_FEATURES_OK =? 0 then panic "virtio disk FEATURES_OK unset" else
  vwrite VIRTIO_MMIO_QUEUE_SEL 0 ;;
  let! ready := vread VIRTIO_MMIO_QUEUE_READY in
  if negb (ready =? 0) then panic "virtio disk should not be ready" else
  let! max := vread VIRTIO_MMIO_QUEUE_NUM_MAX in
  if max =? 0 then panic "virtio disk has no queue 0" else
  if max <? Z.of_nat NUM then panic "virtio disk max queue too short" else
  let! desc := kalloc in
  let! avail := kalloc in
  let! used := kalloc in
  if (desc =? 0) || (avail =? 0) || (used =? 0) then panic "virtio disk kalloc" else
  mem_memset desc 0 PGSIZE ;;
  mem_memset avail 0 PGSIZE ;;
  mem_memset used 0 PGSIZE ;;
  set_disk (fun d => d <| dk_desc := replicate NUM (mk_vdesc P_null 0 0 0) |>
    <| dk_avail_ring := replicate NUM 0 |> <| dk_avail_idx := 0 |>
    <| dk_used_ring := replicate NUM 0 |> <| dk_used_dev_idx := 0 |>) ;;
  vwrite VIRTIO_MMIO_QUEUE_NUM (Z.of_nat NUM) ;;
  vwrite VIRTIO_MMIO_QUEUE_DESC_LOW (u32 desc) ;;
  vwrite VIRTIO_MMIO_QUEUE_DESC_HIGH (Z.shiftr desc 32) ;;
  vwrite VIRTIO_MMIO_DRIVER_DESC_LOW (u32 avail) ;;
  vwrite VIRTIO_MMIO_DRIVER_DESC_HIGH (Z.shiftr avail 32) ;;
  vwrite VIRTIO_MMIO_DEVICE_DESC_LOW (u32 used) ;;
  vwrite VIRTIO_MMIO_DEVICE_DESC_HIGH (Z.shiftr used 32) ;;
  vwrite VIRTIO_MMIO_QUEUE_READY 0x1 ;;
  for_each (seq 0 NUM) (fun i => set_free (Z.of_nat i) 1) ;;
  vwrite VIRTIO_MMIO_STATUS (Z.lor status VIRTIO_CONFIG_S_DRIVER_OK).

Definition alloc_desc : K Z :=
  let! r := for_find (seq 0 NUM) (fun i =>
    let! f := free_of (Z.of_nat i) in
    if negb (f =? 0) then set_free (Z.of_nat i) 0 ;; ret (Some (Z.of_nat i)) else ret None) in
  ret (default (-1) r).

Definition free_desc (i : Z) : K unit :=
  if Z.of_nat NUM <=? i then panic "free_desc 1" else
  let! f := free_of i in
  if negb (f =? 0) then panic "free_desc 2" else
  set_desc i (mk_vdesc P_null 0 0 0) ;;
  set_free i 1 ;;
  wakeup Ch_vdisk.

Definition free_chain (i : Z) : K unit :=
  loop (S NUM) (fun i =>
    let! d := desc_of i in
    let flag := vd_flags d in
    let nxt := vd_next d in
    free_desc i ;;
    if negb (Z.land flag VRING_DESC_F_NEXT =? 0) then ret (inl nxt) else ret (inr tt)) i.

(** The three indices, or the failure -1. *)
Definition alloc3_desc : K (option (Z * Z * Z)) :=
  let! i0 := alloc_desc in
  if i0 <? 0 then ret None else
  let! i1 := alloc_desc in
  if i1 <? 0 then free_desc i0 ;; ret None else
  let! i2 := alloc_desc in
  if i2 <? 0 then free_desc i0 ;; free_desc i1 ;; ret None else
  ret (Some (i0, i1, i2)).

Definition virtio_disk_rw (b : nat) (write : bool) : K unit :=
  let! bf := buf_of b in
  let sector := u32 (b_blockno bf * (BSIZE / 512)) in
  acquire L_vdisk ;;
  let! idx := loop fuel (fun _ =>
    let! r := alloc3_desc in
    match r with
    | Some idx => ret (inr idx)
    | None => sleep Ch_vdisk L_vdisk ;; ret (inl tt)
    end) tt in
  let '(i0, i1, i2) := idx in
  set_op i0 (if write then VIRTIO_BLK_T_OUT else VIRTIO_BLK_T_IN, sector) ;;
  set_desc i0 (mk_vdesc (P_op i0) 16 VRING_DESC_F_NEXT i1) ;;
  set_desc i1 (mk_vdesc (P_data b) BSIZE
    (Z.lor (if write then 0 else VRING_DESC_F_WRITE) VRING_DESC_F_NEXT) i2) ;;
  set_info i0 (fun x => (fst x, 0xff)) ;;
  set_desc i2 (mk_vdesc (P_status i0) 1 VRING_DESC_F_WRITE 0) ;;
  set_buf b (fun x => x <| b_disk := 1 |>) ;;
  set_info i0 (fun x => (Some b, snd x)) ;;
  set_disk (fun d => d <| dk_avail_ring ::= <[Z.to_nat (dk_avail_idx d `mod` Z.of_nat NUM) := i0]> |>) ;;
  set_disk (fun d => d <| dk_avail_idx := u16 (dk_avail_idx d + 1) |>) ;;
  vwrite VIRTIO_MMIO_QUEUE_NOTIFY 0 ;;
  loop fuel (fun _ =>
    let! bf := buf_of b in
    if b_disk bf =? 1 then sleep (Ch_buf b) L_vdisk ;; ret (inl tt) else ret (inr tt)) tt ;;
  set_info i0 (fun x => (None, snd x)) ;;
  free_chain i0 ;;
  release L_vdisk.

Definition virtio_disk_intr : K unit :=
  acquire L_vdisk ;;
  let! st := vread VIRTIO_MMIO_INTERRUPT_STATUS in
  vwrite VIRTIO_MMIO_INTERRUPT_ACK (Z.land st 0x3) ;;
  loop (S NUM) (fun _ =>
    let! d := disk_of in
    if dk_used_idx d =? dk_used_dev_idx d then ret (inr tt) else
    let! id := deref (dk_used_ring d) (Z.to_nat (dk_used_idx d `mod` Z.of_nat NUM)) in
    let! x := info_of id in
    if negb (snd x =? 0) then panic "virtio_disk_intr status" else
    let! b := nonnull (fst x) in
    set_buf b (fun x => x <| b_disk := 0 |>) ;;
    wakeup (Ch_buf b) ;;
    set_disk (fun d => d <| dk_used_idx := u16 (dk_used_idx d + 1) |>) ;;
    ret (inl tt)) tt ;;
  release L_vdisk.
End Code.

(** ** plic.c *)

Definition UART0_IRQ : Z := 10.
Definition VIRTIO0_IRQ : Z := 1.
Definition PLIC_SENABLE (hart : Z) : Z := PLIC + 0x2080 + hart * 0x100.
Definition PLIC_SPRIORITY (hart : Z) : Z := PLIC + 0x201000 + hart * 0x2000.
Definition PLIC_SCLAIM (hart : Z) : Z := PLIC + 0x201004 + hart * 0x2000.

(** Reads and writes of the controller's registers. *)
Class Plic := { plic_read : Z -> K Z; plic_write : Z -> Z -> K unit }.

Section PlicCode.
Context `{Plic}.

Definition plicinit : K unit :=
  plic_write (PLIC + UART0_IRQ * 4) 1 ;;
  plic_write (PLIC + VIRTIO0_IRQ * 4) 1.

Definition plicinithart : K unit :=
  let! hart := cpuid in
  plic_write (PLIC_SENABLE (Z.of_nat hart)) (Z.lor (Z.shiftl 1 UART0_IRQ) (Z.shiftl 1 VIRTIO0_IRQ)) ;;
  plic_write (PLIC_SPRIORITY (Z.of_nat hart)) 0.

Definition plic_claim : K Z :=
  let! hart := cpuid in
  let! irq := plic_read (PLIC_SCLAIM (Z.of_nat hart)) in
  ret (i32 irq).

Definition plic_complete (irq : Z) : K unit :=
  let! hart := cpuid in
  plic_write (PLIC_SCLAIM (Z.of_nat hart)) (u32 irq).
End PlicCode.
