(* ===== verification/VirtioSpec.v ===== *)
(** * The disk driver implements the block device (virtio_disk.c).

    [BlockDevice] is what the buffer cache assumes of the driver.  Here the
    driver is followed through a whole transfer: it queues a request and puts
    the process to sleep; the device serves the request; its interrupt, taken
    while the scheduler has the hart, makes the process runnable; the scheduler
    switches to it and the driver returns.  What the device does with a
    request is that of the virtio standard (2.6 and 5.2). *)

From S2P Require Import Prelude Defs KMonad Lock Mem Kalloc Sched Sleeplock Bio Machine SchedLive Virtio.

(** ** The state of the queue *)

(** The descriptors that are free, lowest first. *)
Definition is_spare (d : vdisk) (i : nat) : Prop := dk_free d !! i <> Some 0.
#[global] Instance is_spare_dec d i : Decision (is_spare d i).
Proof. unfold is_spare. apply _. Defined.
Definition spare (d : vdisk) : list nat := filter (is_spare d) (seq 0 NUM).

Record rings_ok (d : vdisk) : Prop := mk_rings_ok {
  ro_desc : length (dk_desc d) = NUM;
  ro_avail : length (dk_avail_ring d) = NUM;
  ro_used : length (dk_used_ring d) = NUM;
  ro_free : length (dk_free d) = NUM;
  ro_info : length (dk_info d) = NUM;
  ro_ops : length (dk_ops d) = NUM;
  ro_bool : Forall (fun f => f = 0 \/ f = 1) (dk_free d)
}.

(** Nothing is in flight: device and driver agree on all three indices. *)
Record idle (d : vdisk) : Prop := mk_idle {
  id_idx : 0 <= dk_avail_idx d < 2 ^ 16;
  id_dev : dk_used_dev_idx d = dk_avail_idx d;
  id_used : dk_used_idx d = dk_avail_idx d
}.

(** ** The device *)

(** A request as the device finds it behind the head of a chain: type, sector,
    buffer and where the status goes. *)
Definition request (d : vdisk) (head : Z) : option (Z * Z * nat * Z) :=
  d0 ← dk_desc d !! Z.to_nat head;
  match vd_addr d0 with
  | P_op j =>
    op ← dk_ops d !! Z.to_nat j;
    d1 ← dk_desc d !! Z.to_nat (vd_next d0);
    match vd_addr d1 with
    | P_data b =>
      d2 ← dk_desc d !! Z.to_nat (vd_next d1);
      match vd_addr d2 with
      | P_status k =>
        if bool_decide (vd_len d0 = 16 /\ vd_flags d0 = VRING_DESC_F_NEXT /\ vd_len d1 = BSIZE /\
             vd_flags d1 = Z.lor (if fst op =? VIRTIO_BLK_T_IN then VRING_DESC_F_WRITE else 0) VRING_DESC_F_NEXT /\
             vd_len d2 = 1 /\ vd_flags d2 = VRING_DESC_F_WRITE)
        then Some (fst op, snd op, b, k) else None
      | _ => None
      end
    | _ => None
    end
  | _ => None
  end.

(** The device serves the next request of the available ring: it transfers the
    sectors of a block, stores the status 0, puts the head of the chain in the
    used ring and advances its index.  Nothing is done when there is none. *)
Definition device_step : K unit :=
  let! d := disk_of in
  if dk_used_dev_idx d =? dk_avail_idx d then ret tt else
  let! head := deref (dk_avail_ring d) (Z.to_nat (dk_used_dev_idx d `mod` Z.of_nat NUM)) in
  let! r := nonnull (request d head) in
  let '(ty, sector, b, k) := r in
  let! bf := buf_of b in
  (if ty =? VIRTIO_BLK_T_OUT then modify (disk_put (sector / (BSIZE / 512)) (b_data bf))
   else let! data := get (fun s => dblock s (sector / (BSIZE / 512))) in
        set_buf b (fun x => x <| b_data := data |>)) ;;
  set_info k (fun x => (fst x, 0)) ;;
  set_disk (fun d => d <| dk_used_ring ::= <[Z.to_nat (dk_used_dev_idx d `mod` Z.of_nat NUM) := head]> |>) ;;
  set_disk (fun d => d <| dk_used_dev_idx := u16 (dk_used_dev_idx d + 1) |>).

(** What the driver needs of the registers: notifying the device and
    acknowledging its interrupt return at once. *)
Class VirtioRegs `{Virtio} := {
  notify_ok s : vwrite VIRTIO_MMIO_QUEUE_NOTIFY 0 s = Done tt s;
  status_ok s : exists v, vread VIRTIO_MMIO_INTERRUPT_STATUS s = Done v s;
  ack_ok v s : vwrite VIRTIO_MMIO_INTERRUPT_ACK v s = Done tt s
}.

(** ** Accessors *)

Definition on_disk (f : vdisk -> vdisk) (s : kstate) : kstate := s <| ks_vdisk ::= f |>.

Lemma deref_lt {X} (l : list X) i s x : l !! i = Some x -> deref l i s = Done x s.
Proof. apply deref_some. Qed.

Lemma desc_of_ok s i x : dk_desc (ks_vdisk s) !! Z.to_nat i = Some x -> desc_of i s = Done x s.
Proof. intros Hx. unfold desc_of, disk_of. rewrite kbind_get. by apply deref_some. Qed.
Lemma set_desc_ok s i v :
  (Z.to_nat i < length (dk_desc (ks_vdisk s)))%nat ->
  set_desc i v s = Done tt (on_disk (fun d => d <| dk_desc ::= <[Z.to_nat i := v]> |>) s).
Proof. intros [x Hx]%lookup_lt_is_Some_2. unfold set_desc. kstep desc_of_ok; [|done]. done. Qed.
Lemma free_of_ok s i x : dk_free (ks_vdisk s) !! Z.to_nat i = Some x -> free_of i s = Done x s.
Proof. intros Hx. unfold free_of, disk_of. rewrite kbind_get. by apply deref_some. Qed.
Lemma set_free_ok s i v :
  (Z.to_nat i < length (dk_free (ks_vdisk s)))%nat ->
  set_free i v s = Done tt (on_disk (fun d => d <| dk_free ::= <[Z.to_nat i := v]> |>) s).
Proof. intros [x Hx]%lookup_lt_is_Some_2. unfold set_free. kstep free_of_ok; [|done]. done. Qed.
Lemma info_of_ok s i x : dk_info (ks_vdisk s) !! Z.to_nat i = Some x -> info_of i s = Done x s.
Proof. intros Hx. unfold info_of, disk_of. rewrite kbind_get. by apply deref_some. Qed.
Lemma set_info_ok s i f :
  (Z.to_nat i < length (dk_info (ks_vdisk s)))%nat ->
  set_info i f s = Done tt (on_disk (fun d => d <| dk_info ::= alter f (Z.to_nat i) |>) s).
Proof. intros [x Hx]%lookup_lt_is_Some_2. unfold set_info. kstep info_of_ok; [|done]. done. Qed.

(** ** Allocating descriptors *)

Section Specs.
Context `{Fuel, Virtio}.

Definition taken (i : nat) (d : vdisk) : vdisk := d <| dk_free ::= <[i := 0]> |>.

Definition alloc_body (i : nat) : K (option Z) :=
  let! f := free_of (Z.of_nat i) in
  if negb (f =? 0) then set_free (Z.of_nat i) 0 ;; ret (Some (Z.of_nat i)) else ret None.

Lemma alloc_body_ok s i :
  length (dk_free (ks_vdisk s)) = NUM -> (i < NUM)%nat ->
  alloc_body i s
  = (if decide (is_spare (ks_vdisk s) i) then Done (Some (Z.of_nat i)) (on_disk (taken i) s) else Done None s).
Proof.
  intros Hlen Hi. destruct (lookup_lt_is_Some_2 (dk_free (ks_vdisk s)) i) as [f Hf]; [lia|].
  unfold alloc_body. kstep free_of_ok; [|by rewrite Nat2Z.id].
  case_decide as Hs; unfold is_spare in Hs; rewrite Hf in Hs.
  - rewrite (proj2 (Z.eqb_neq f 0)) by congruence. cbn [negb].
    kstep set_free_ok; [|rewrite Nat2Z.id; lia]. by rewrite Nat2Z.id.
  - destruct (Z.eqb_spec f 0); [done|]. destruct Hs. congruence.
Qed.

Lemma alloc_scan l s :
  length (dk_free (ks_vdisk s)) = NUM -> Forall (fun j => (j < NUM)%nat) l ->
  for_find l alloc_body s
  = match filter (is_spare (ks_vdisk s)) l with
    | i :: _ => Done (Some (Z.of_nat i)) (on_disk (taken i) s)
    | [] => Done None s
    end.
Proof.
  intros Hlen. induction 1 as [|j l Hj Hl IH]; [done|]. rewrite filter_cons. cbn [for_find].
  unfold kbind. rewrite alloc_body_ok by done. by case_decide.
Qed.

(** alloc_desc() takes the lowest free descriptor. *)
Lemma alloc_desc_ok s :
  length (dk_free (ks_vdisk s)) = NUM ->
  alloc_desc s
  = match spare (ks_vdisk s) with
    | i :: _ => Done (Z.of_nat i) (on_disk (taken i) s)
    | [] => Done (-1) s
    end.
Proof.
  intros Hlen. unfold alloc_desc. unfold kbind. change (for_find (seq 0 NUM) _ s) with (for_find (seq 0 NUM) alloc_body s).
  rewrite alloc_scan; [|done|apply Forall_seq; lia]. unfold spare. by destruct (filter _ _).
Qed.

Lemma filter_taken d i (l : list nat) :
  (i < length (dk_free d))%nat -> filter (is_spare (taken i d)) l = filter (fun j => j <> i) (filter (is_spare d) l).
Proof.
  intros Hi. rewrite list_filter_filter. apply list_filter_iff. intros j. unfold is_spare, taken. cbn.
  destruct (decide (j = i)) as [->|Hne].
  - rewrite list_lookup_insert_eq by done. naive_solver.
  - rewrite list_lookup_insert_ne by done. naive_solver.
Qed.

Lemma spare_lt d : Forall (fun i => (i < NUM)%nat) (spare d).
Proof. apply Forall_forall. intros i [_ Hi%elem_of_seq]%list_elem_of_filter. lia. Qed.
Lemma spare_nodup d : NoDup (spare d).
Proof. apply NoDup_filter, NoDup_seq. Qed.

Lemma filter_out (i : nat) (l : list nat) : i ∉ l -> filter (fun j => j <> i) l = l.
Proof.
  induction l as [|j l IH]; [done|]. intros [Hj Hl]%not_elem_of_cons.
  rewrite filter_cons, decide_True by done. by rewrite IH.
Qed.
Lemma spare_taken d i rest : length (dk_free d) = NUM -> spare d = i :: rest -> spare (taken i d) = rest.
Proof.
  intros Hlen E. pose proof (spare_lt d) as Hlt. pose proof (spare_nodup d) as Hnd. rewrite E in Hlt, Hnd.
  apply Forall_cons_1 in Hlt as [Hi _]. apply NoDup_cons in Hnd as [Hni _].
  unfold spare. rewrite filter_taken by lia. change (filter (is_spare d) _) with (spare d). rewrite E, filter_cons, decide_False by congruence.
  by apply filter_out.
Qed.

Lemma alloc_desc_some s i rest :
  length (dk_free (ks_vdisk s)) = NUM -> spare (ks_vdisk s) = i :: rest ->
  alloc_desc s = Done (Z.of_nat i) (on_disk (taken i) s).
Proof. intros Hlen E. rewrite alloc_desc_ok by done. by rewrite E. Qed.
Lemma taken_length i d : length (dk_free (taken i d)) = length (dk_free d).
Proof. cbn. apply length_insert. Qed.

(** alloc3_desc() takes the three lowest free descriptors. *)
Definition taken3 (i0 i1 i2 : nat) (d : vdisk) : vdisk := taken i2 (taken i1 (taken i0 d)).
Lemma alloc3_ok s i0 i1 i2 rest :
  length (dk_free (ks_vdisk s)) = NUM -> spare (ks_vdisk s) = i0 :: i1 :: i2 :: rest ->
  alloc3_desc s
  = Done (Some (Z.of_nat i0, Z.of_nat i1, Z.of_nat i2)) (on_disk (taken3 i0 i1 i2) s).
Proof.
  intros Hlen E. unfold alloc3_desc.
  kstep alloc_desc_some; [|done|done]. rewrite (proj2 (Z.ltb_ge _ 0)) by lia.
  kstep alloc_desc_some; [|exact (eq_trans (taken_length _ _) Hlen)|by apply spare_taken].
  rewrite (proj2 (Z.ltb_ge _ 0)) by lia.
  kstep alloc_desc_some; [|exact (eq_trans (taken_length _ _) (eq_trans (taken_length _ _) Hlen))
    |apply spare_taken; [exact (eq_trans (taken_length _ _) Hlen)|by apply spare_taken]].
  by rewrite (proj2 (Z.ltb_ge _ 0)) by lia.
Qed.

(** ** Queueing a request *)

(** The queue with the request for buffer [b] in the descriptors [i0], [i1] and
    [i2]. *)
Definition queued (b : nat) (write : bool) (sector : Z) (i0 i1 i2 : nat) (d : vdisk) : vdisk :=
  (taken3 i0 i1 i2 d)
    <| dk_ops ::= <[i0 := (if write then VIRTIO_BLK_T_OUT else VIRTIO_BLK_T_IN, sector)]> |>
    <| dk_desc ::= fun l =>
       <[i2 := mk_vdesc (P_status (Z.of_nat i0)) 1 VRING_DESC_F_WRITE 0]>
       (<[i1 := mk_vdesc (P_data b) BSIZE (Z.lor (if write then 0 else VRING_DESC_F_WRITE) VRING_DESC_F_NEXT) (Z.of_nat i2)]>
       (<[i0 := mk_vdesc (P_op (Z.of_nat i0)) 16 VRING_DESC_F_NEXT (Z.of_nat i1)]> l)) |>
    <| dk_info ::= alter (fun _ => (Some b, 0xff)) i0 |>
    <| dk_avail_ring ::= <[Z.to_nat (dk_avail_idx d `mod` Z.of_nat NUM) := Z.of_nat i0]> |>
    <| dk_avail_idx := u16 (dk_avail_idx d + 1) |>.

Lemma nodup3 (i0 i1 i2 : nat) : NoDup [i0; i1; i2] -> i0 <> i1 /\ i0 <> i2 /\ i1 <> i2.
Proof. rewrite !NoDup_cons, !not_elem_of_cons. naive_solver. Qed.

Lemma request_queued b write sector i0 i1 i2 d :
  rings_ok d -> (i0 < NUM)%nat -> (i1 < NUM)%nat -> (i2 < NUM)%nat -> NoDup [i0; i1; i2] ->
  request (queued b write sector i0 i1 i2 d) (Z.of_nat i0)
  = Some (if write then VIRTIO_BLK_T_OUT else VIRTIO_BLK_T_IN, sector, b, Z.of_nat i0).
Proof.
  intros [Hd _ _ _ _ Ho _] H0' H1' H2' (Hn01 & Hn02 & Hn12)%nodup3.
  unfold request, queued. cbn -[Z.lor]. rewrite !Nat2Z.id.
  rewrite (list_lookup_insert_ne _ i2 i0), (list_lookup_insert_ne _ i1 i0), list_lookup_insert_eq by (try done; lia).
  cbn -[Z.lor]. rewrite !Nat2Z.id, list_lookup_insert_eq by lia. cbn -[Z.lor].
  rewrite (list_lookup_insert_ne _ i2 i1), list_lookup_insert_eq by (try done; rewrite ?length_insert; lia).
  cbn -[Z.lor]. rewrite Nat2Z.id, list_lookup_insert_eq by (rewrite ?length_insert; lia). cbn -[Z.lor].
  rewrite bool_decide_true; [done|]. by destruct write.
Qed.
(** ** Freeing descriptors *)

Definition freed (i : nat) (d : vdisk) : vdisk :=
  d <| dk_desc ::= <[i := mk_vdesc P_null 0 0 0]> |> <| dk_free ::= <[i := 1]> |>.

Lemma woken_disk me ch f s : woken me ch (on_disk f s) = on_disk f (woken me ch s).
Proof. reflexivity. Qed.
Lemma woken_acq me ch lk s : woken me ch (acq lk s) = acq lk (woken me ch s).
Proof. reflexivity. Qed.
Lemma wake_idem ch pr : wake ch (wake ch pr) = wake ch pr.
Proof.
  unfold wake at 2 3. destruct (bool_decide _ && bool_decide _) eqn:E; unfold wake; [done|by rewrite E].
Qed.
Lemma woken_idem me ch s : woken me ch (woken me ch s) = woken me ch s.
Proof.
  kstate_eq. apply list_eq. intros i. rewrite !list_lookup_imap. destruct (ks_proc s !! i); [|done].
  cbn. f_equal. case_bool_decide; [done|]. apply wake_idem.
Qed.

(** The driver holds its lock in [acq L_vdisk s]: no other lock is held and the
    hart runs the process [me], or the scheduler. *)
Record in_driver (s : kstate) (me : option nat) : Prop := mk_in_driver {
  dr_hart : hart_ok s;
  dr_cur : cur s = me;
  dr_nproc : length (ks_proc s) = NPROC;
  dr_procs q : (q < NPROC)%nat -> lock_free (L_proc q) s;
  dr_lock : lock_free L_vdisk s
}.

Lemma in_driver_same s s' me :
  same_hart s s' -> length (ks_proc s') = length (ks_proc s) -> in_driver s me -> in_driver s' me.
Proof.
  intros Hh Hp []. split.
  - by eapply hart_ok_same.
  - by rewrite (cur_same s).
  - congruence.
  - intros q Hq. eapply lock_free_same; eauto.
  - by eapply lock_free_same.
Qed.
Lemma in_driver_disk f s me : in_driver s me -> in_driver (on_disk f s) me.
Proof. by apply in_driver_same. Qed.
Lemma in_driver_woken me' ch s me : in_driver s me -> in_driver (woken me' ch s) me.
Proof. apply in_driver_same; [done|]. cbn. apply length_imap. Qed.

Lemma driver_wakeup s me ch :
  in_driver s me -> wakeup ch (acq L_vdisk s) = Done tt (acq L_vdisk (woken me ch s)).
Proof.
  intros []. rewrite wakeup_ok; [rewrite cur_acq, dr_cur0; by rewrite woken_acq|by apply hart_ok_acq| |done].
  intros q Hq _. apply lock_free_acq; [done|by apply dr_procs0].
Qed.

Lemma free_desc_ok s p i :
  in_driver s (Some p) -> rings_ok (ks_vdisk s) -> (i < NUM)%nat -> dk_free (ks_vdisk s) !! i = Some 0 ->
  free_desc (Z.of_nat i) (acq L_vdisk s)
  = Done tt (acq L_vdisk (woken (Some p) Ch_vdisk (on_disk (freed i) s))).
Proof.
  intros Hd [] Hi Hf. unfold free_desc. rewrite (proj2 (Z.leb_gt _ _)) by lia.
  kstep free_of_ok; [|by rewrite Nat2Z.id]. cbn [Z.eqb negb].
  kstep set_desc_ok; [|rewrite Nat2Z.id; change (ks_vdisk (acq L_vdisk s)) with (ks_vdisk s); lia].
  kstep set_free_ok; [|rewrite Nat2Z.id; change (dk_free _) with (dk_free (ks_vdisk s)); lia].
  rewrite Nat2Z.id. restate (acq L_vdisk (on_disk (freed i) s)). by apply driver_wakeup, in_driver_disk.
Qed.

Lemma rings_ok_freed i d : rings_ok d -> rings_ok (freed i d).
Proof.
  intros []. split; cbn; rewrite ?length_insert; try done. apply Forall_insert; [done|by right].
Qed.
(** A chain of three descriptors in use. *)
Record chained (d : vdisk) (i0 i1 i2 : nat) : Prop := mk_chained {
  ch_lt : (i0 < NUM)%nat /\ (i1 < NUM)%nat /\ (i2 < NUM)%nat;
  ch_nodup : NoDup [i0; i1; i2];
  ch_used i : i ∈ [i0; i1; i2] -> dk_free d !! i = Some 0;
  ch_0 : exists x, dk_desc d !! i0 = Some x /\ Z.land (vd_flags x) VRING_DESC_F_NEXT <> 0 /\ vd_next x = Z.of_nat i1;
  ch_1 : exists x, dk_desc d !! i1 = Some x /\ Z.land (vd_flags x) VRING_DESC_F_NEXT <> 0 /\ vd_next x = Z.of_nat i2;
  ch_2 : exists x, dk_desc d !! i2 = Some x /\ Z.land (vd_flags x) VRING_DESC_F_NEXT = 0
}.

Definition free_body (i : Z) : K (Z + unit) :=
  let! d := desc_of i in
  let flag := vd_flags d in
  let nxt := vd_next d in
  free_desc i ;;
  if negb (Z.land flag VRING_DESC_F_NEXT =? 0) then ret (inl nxt) else ret (inr tt).

Lemma free_body_ok s p i x :
  in_driver s (Some p) -> rings_ok (ks_vdisk s) -> (i < NUM)%nat -> dk_free (ks_vdisk s) !! i = Some 0 ->
  dk_desc (ks_vdisk s) !! i = Some x ->
  free_body (Z.of_nat i) (acq L_vdisk s)
  = Done (if Z.land (vd_flags x) VRING_DESC_F_NEXT =? 0 then inr tt else inl (vd_next x))
      (acq L_vdisk (woken (Some p) Ch_vdisk (on_disk (freed i) s))).
Proof.
  intros Hd Hr Hi Hf Hx. unfold free_body. kstep desc_of_ok; [|by rewrite Nat2Z.id].
  kstep (free_desc_ok s p i); [|done..]. by destruct (_ =? 0).
Qed.

Lemma freed_free_ne i j d : i <> j -> dk_free (freed i d) !! j = dk_free d !! j.
Proof. intros Hij. cbn. by rewrite list_lookup_insert_ne. Qed.
Lemma freed_desc_ne i j d : i <> j -> dk_desc (freed i d) !! j = dk_desc d !! j.
Proof. intros Hij. cbn. by rewrite list_lookup_insert_ne. Qed.

Definition freed3 (i0 i1 i2 : nat) (d : vdisk) : vdisk := freed i2 (freed i1 (freed i0 d)).

(** free_chain() frees the three and wakes who waits for a descriptor. *)
Lemma free_chain_ok s p i0 i1 i2 :
  in_driver s (Some p) -> rings_ok (ks_vdisk s) -> chained (ks_vdisk s) i0 i1 i2 ->
  free_chain (Z.of_nat i0) (acq L_vdisk s)
  = Done tt (acq L_vdisk (woken (Some p) Ch_vdisk (on_disk (freed3 i0 i1 i2) s))).
Proof.
  intros Hd Hr [(H0' & H1' & H2') (N01 & N02 & N12)%nodup3 Hu (x0 & E0 & F0 & X0) (x1 & E1 & F1 & X1) (x2 & E2 & F2)].
  pose proof (Hu i0 ltac:(set_solver)) as U0. pose proof (Hu i1 ltac:(set_solver)) as U1.
  pose proof (Hu i2 ltac:(set_solver)) as U2.
  unfold free_chain. change (fun i : Z => _) with free_body. change (S NUM) with 9%nat.
  set (s1 := woken (Some p) Ch_vdisk (on_disk (freed i0) s)).
  set (s2 := woken (Some p) Ch_vdisk (on_disk (freed i1) s1)).
  assert (in_driver s1 (Some p)) as Hd1 by (by apply in_driver_woken, in_driver_disk).
  assert (in_driver s2 (Some p)) as Hd2 by (by apply in_driver_woken, in_driver_disk).
  erewrite loop_next.
  2: { rewrite (free_body_ok s p i0 x0) by done. rewrite (proj2 (Z.eqb_neq _ 0)) by done. rewrite X0. reflexivity. }
  erewrite loop_next.
  2: { fold s1. rewrite (free_body_ok s1 p i1 x1); [|done|by apply rings_ok_freed|done
        |by change (ks_vdisk s1) with (freed i0 (ks_vdisk s)); rewrite freed_free_ne
        |by change (ks_vdisk s1) with (freed i0 (ks_vdisk s)); rewrite freed_desc_ne].
       rewrite (proj2 (Z.eqb_neq _ 0)) by done. rewrite X1. reflexivity. }
  fold s2. erewrite loop_done.
  2: { rewrite (free_body_ok s2 p i2 x2); [|done|by apply rings_ok_freed, rings_ok_freed|done
        |by change (ks_vdisk s2) with (freed i1 (freed i0 (ks_vdisk s))); rewrite !freed_free_ne
        |by change (ks_vdisk s2) with (freed i1 (freed i0 (ks_vdisk s))); rewrite !freed_desc_ne].
       rewrite F2. reflexivity. }
  apply f_equal, f_equal. unfold s2, s1. rewrite !woken_disk, !woken_idem. reflexivity.
Qed.
(** ** virtio_disk_rw *)

Definition wait_body (b : nat) (_ : unit) : K (unit + unit) :=
  let! bf := buf_of b in
  if b_disk bf =? 1 then sleep (Ch_buf b) L_vdisk ;; ret (inl tt) else ret (inr tt).
Definition rw_end (i0 : Z) : K unit :=
  set_info i0 (fun x => (None, snd x)) ;;
  free_chain i0 ;;
  release L_vdisk.

Definition sector_of (bf : buf) : Z := u32 (b_blockno bf * (BSIZE / 512)).

Definition submitted (b : nat) (bf : buf) (write : bool) (i0 i1 i2 : nat) (s : kstate) : kstate :=
  s <| ks_vdisk ::= queued b write (sector_of bf) i0 i1 i2 |>
    <| ks_bufs ::= alter (fun x => x <| b_disk := 1 |>) b |>.

Context `{!VirtioRegs}.

Lemma rings_ok_taken3 i0 i1 i2 d : rings_ok d -> rings_ok (taken3 i0 i1 i2 d).
Proof.
  intros []. split; cbn; rewrite ?length_insert; try done. by repeat (apply Forall_insert; [|by left]).
Qed.

Lemma rw_queues s p b bf write i0 i1 i2 rest :
  in_driver s (Some p) -> rings_ok (ks_vdisk s) -> ks_bufs s !! b = Some bf ->
  spare (ks_vdisk s) = i0 :: i1 :: i2 :: rest ->
  virtio_disk_rw b write s
  = kbind (loop fuel (wait_body b) tt) (fun _ => rw_end (Z.of_nat i0))
      (acq L_vdisk (submitted b bf write i0 i1 i2 s)).
Proof.
  intros Hd Hr Hb Hsp. pose proof (spare_lt (ks_vdisk s)) as Hlt. rewrite Hsp in Hlt.
  apply Forall_cons_1 in Hlt as [H0' [H1' [H2' _]%Forall_cons_1]%Forall_cons_1].
  pose proof (ro_desc _ Hr) as Ld. pose proof (ro_info _ Hr) as Li.
  unfold virtio_disk_rw. kstep buf_of_ok; [|done]. cbv zeta.
  kstep acquire_ok; [|apply Hd|apply Hd].
  erewrite kbind_done.
  2: { destruct fuel as [|n] eqn:Ef; [pose proof fuel_pos; lia|]. apply loop_done.
       kstep alloc3_ok; [|apply Hr|exact Hsp]. reflexivity. }
  cbv beta iota. unfold set_op, set_disk. rewrite kbind_modify.
  kstep set_desc_ok; [|rewrite Nat2Z.id; by rewrite <- Ld in H0'].
  kstep set_desc_ok; [|rewrite Nat2Z.id; cbn; rewrite length_insert; by rewrite <- Ld in H1'].
  kstep set_info_ok; [|rewrite Nat2Z.id; by rewrite <- Li in H0'].
  kstep set_desc_ok; [|rewrite Nat2Z.id; cbn; rewrite !length_insert; by rewrite <- Ld in H2'].
  kstep set_buf_ok; [|exact Hb].
  kstep set_info_ok; [|rewrite Nat2Z.id; cbn; rewrite length_alter; by rewrite <- Li in H0'].
  rewrite !kbind_modify. kstep notify_ok. rewrite !Nat2Z.id.
  match goal with |- ?m ?x = _ => replace x with (acq L_vdisk (submitted b bf write i0 i1 i2 s)); [reflexivity|] end.
  kstate_eq. unfold queued, taken3, taken. destruct (ks_vdisk s). cbv -[alter insert list_alter list_insert u16 u32 Z.lor Z.mul Z.div Z.modulo Z.to_nat Z.of_nat Z.add b_blockno].
  f_equal. by rewrite list_alter_alter_eq.
Qed.

(** The process [p] as it sleeps, waiting for the device. *)
Definition asleep (p : nat) (ch : chan) (s : kstate) : kstate :=
  acq (L_proc p) (s <| ks_proc ::= alter (fun x => x <| p_chan := Some ch |> <| p_state := SLEEPING |>) p |>).

(** Back in the processor the driver finds that the transfer is done. *)
Lemma wait_ends s p b bf i0 i1 i2 n :
  in_driver s (Some p) -> ks_bufs s !! b = Some bf -> b_disk bf = 0 ->
  rings_ok (ks_vdisk s) -> chained (ks_vdisk s) i0 i1 i2 ->
  kbind (loop (S n) (wait_body b) tt) (fun _ => rw_end (Z.of_nat i0)) (acq L_vdisk s)
  = Done tt (woken (Some p) Ch_vdisk
      (on_disk (fun d => freed3 i0 i1 i2 (d <| dk_info ::= alter (fun x => (None, snd x)) i0 |>)) s)).
Proof.
  intros Hd Hb Hz Hr Hc. erewrite kbind_done.
  2: { apply loop_done. unfold wait_body. kstep buf_of_ok; [|exact Hb]. rewrite Hz. reflexivity. }
  unfold rw_end. pose proof (proj1 (ch_lt _ _ _ _ Hc)) as Hi.
  kstep set_info_ok; [|rewrite Nat2Z.id; change (dk_info _) with (dk_info (ks_vdisk s)); by rewrite (ro_info _ Hr)].
  rewrite Nat2Z.id. set (f := fun d => d <| dk_info ::= alter (fun x => (None, snd x)) i0 |>).
  restate (acq L_vdisk (on_disk f s)).
  kstep (free_chain_ok _ p i0 i1 i2); [|by apply in_driver_disk|by destruct Hr; split; cbn; rewrite ?length_alter
    |by destruct Hc; split].
  set (t := woken _ _ _). assert (in_driver t (Some p)) as [Ht _ _ _ Hl] by (by apply in_driver_woken, in_driver_disk, in_driver_disk).
  by rewrite release_acq.
Qed.

(** A loop whose first round waits. *)
Lemma loop_yields {X A B} (f : X -> K (X + A)) n x (g : A -> K B) s w s1 k :
  f x s = Yield w s1 k ->
  exists k', kbind (loop (S n) f x) g s = Yield w s1 k' /\
    forall s' y s2, k s' = Done (inl y) s2 -> k' s' = kbind (loop n f y) g s2.
Proof.
  intros E. cbn [loop]. unfold kbind at 1 2. rewrite E. cbn [obind]. eexists. split; [reflexivity|].
  intros s' y s2 E'. cbv beta. rewrite E'. reflexivity.
Qed.

(** virtio_disk_rw() queues a request for the block, with the buffer owned by
    the device, and sleeps on the buffer without any lock but that of the
    process; when it runs again and the device no longer owns the buffer, it
    frees the descriptors and returns. *)
Lemma rw_sleeps s p c pr b bf write i0 i1 i2 rest :
  (1 < fuel)%nat -> on_cpu s p c pr -> in_driver s (Some p) -> rings_ok (ks_vdisk s) -> ks_bufs s !! b = Some bf ->
  spare (ks_vdisk s) = i0 :: i1 :: i2 :: rest ->
  exists k,
    virtio_disk_rw b write s = Yield (Swtch p) (asleep p (Ch_buf b) (submitted b bf write i0 i1 i2 s)) k /\
    forall s' c' pr' bf',
      ks_cpus s' !! ks_tp s' = Some c' -> c_noff c' = 0 -> c_proc c' = Some p -> ks_proc s' !! p = Some pr' ->
      length (ks_proc s') = NPROC -> (forall q, (q < NPROC)%nat -> lock_free (L_proc q) s') -> lock_free L_vdisk s' ->
      ks_bufs s' !! b = Some bf' -> b_disk bf' = 0 -> rings_ok (ks_vdisk s') -> chained (ks_vdisk s') i0 i1 i2 ->
      k (acq (L_proc p) s')
      = Done tt (woken (Some p) Ch_vdisk
          (on_disk (fun d => freed3 i0 i1 i2 (d <| dk_info ::= alter (fun x => (None, snd x)) i0 |>))
            ((resumed (ks_sie s) s') <| ks_proc ::= alter (fun x => x <| p_chan := None |>) p |>))).
Proof.
  intros Hfuel Hon Hd Hr Hb Hsp. rewrite (rw_queues s p b bf write i0 i1 i2 rest) by done.
  destruct fuel as [|[|n]] eqn:Ef; [lia|lia|].
  set (s1 := submitted b bf write i0 i1 i2 s).
  destruct (sleep_yields s1 p c pr (Ch_buf b) L_vdisk) as (k & Hk & Hres).
  { destruct Hon. by split. } { apply Hd. } { done. }
  assert (wait_body b tt (acq L_vdisk s1)
          = Yield (Swtch p) (asleep p (Ch_buf b) s1) (fun s' => obind (k s') (fun _ => ret (inl tt)))) as Hw.
  { unfold wait_body. kstep buf_of_ok; [|cbn; by rewrite list_lookup_alter_eq, Hb]. change (b_disk _ =? 1) with true. cbv iota.
    unfold kbind. rewrite Hk. reflexivity. }
  destruct (loop_yields (wait_body b) (S n) tt (fun _ => rw_end (Z.of_nat i0)) _ _ _ _ Hw) as (k' & Hk' & Hnext).
  exists k'. split; [exact Hk'|].
  intros s' c' pr' bf' Hc' Hn' Hp' Hpr' Hlen' Hl' Hv' Hb' Hz' Hr' Hch'.
  set (t := (resumed (ks_sie s) s') <| ks_proc ::= alter (fun x => x <| p_chan := None |>) p |>).
  rewrite (Hnext _ tt (acq L_vdisk t)).
  2: { rewrite (Hres s' c' pr'); [reflexivity|done..|]. apply Hl'. apply lookup_lt_Some in Hpr'. lia. }
  apply (wait_ends t p b bf' i0 i1 i2 n); [|exact Hb'|exact Hz'|exact Hr'|exact Hch']. split.
  - by apply (hart_ok_resumed (ks_sie s) s' c').
  - unfold cur. cbn. rewrite list_lookup_alter_eq, Hc'. done.
  - cbn. by rewrite length_alter.
  - exact Hl'.
  - exact Hv'.
Qed.
(** ** virtio_disk_intr *)

Definition intr_body (_ : unit) : K (unit + unit) :=
  let! d := disk_of in
  if dk_used_idx d =? dk_used_dev_idx d then ret (inr tt) else
  let! id := deref (dk_used_ring d) (Z.to_nat (dk_used_idx d `mod` Z.of_nat NUM)) in
  let! x := info_of id in
  if negb (snd x =? 0) then panic "virtio_disk_intr status" else
  let! b := nonnull (fst x) in
  set_buf b (fun x => x <| b_disk := 0 |>) ;;
  wakeup (Ch_buf b) ;;
  set_disk (fun d => d <| dk_used_idx := u16 (dk_used_idx d + 1) |>) ;;
  ret (inl tt).

(** A finished request: the buffer [b] is given back, and who sleeps on it is
    woken. *)
Definition completed (me : option nat) (b : nat) (s : kstate) : kstate :=
  on_disk (fun d => d <| dk_used_idx := u16 (dk_used_idx d + 1) |>)
    (woken me (Ch_buf b) (s <| ks_bufs ::= alter (fun x => x <| b_disk := 0 |>) b |>)).

Lemma in_driver_completed me b s : in_driver s me -> in_driver (completed me b s) me.
Proof. intros Hd. apply in_driver_disk, in_driver_woken. revert Hd. by apply in_driver_same. Qed.

Lemma intr_body_next s me id b :
  in_driver s me -> dk_used_idx (ks_vdisk s) <> dk_used_dev_idx (ks_vdisk s) ->
  dk_used_ring (ks_vdisk s) !! Z.to_nat (dk_used_idx (ks_vdisk s) `mod` Z.of_nat NUM) = Some id ->
  dk_info (ks_vdisk s) !! Z.to_nat id = Some (Some b, 0) -> is_Some (ks_bufs s !! b) ->
  intr_body tt (acq L_vdisk s) = Done (inl tt) (acq L_vdisk (completed me b s)).
Proof.
  intros Hd Hne Hid Hx [bf Hb]. unfold intr_body, disk_of. rewrite kbind_get.
  change (ks_vdisk (acq L_vdisk s)) with (ks_vdisk s). rewrite (proj2 (Z.eqb_neq _ _)) by done.
  kstep deref_some; [|exact Hid]. kstep info_of_ok; [|exact Hx]. cbn [snd fst Z.eqb negb nonnull].
  rewrite kbind_ret. kstep set_buf_ok; [|exact Hb].
  set (t := s <| ks_bufs ::= alter (fun x => x <| b_disk := 0 |>) b |>). restate (acq L_vdisk t).
  rewrite (kbind_done _ _ _ _ _ (driver_wakeup t me (Ch_buf b) ltac:(by apply (in_driver_same s)))). reflexivity.
Qed.

Lemma intr_body_end s :
  dk_used_idx (ks_vdisk s) = dk_used_dev_idx (ks_vdisk s) ->
  intr_body tt (acq L_vdisk s) = Done (inr tt) (acq L_vdisk s).
Proof.
  intros E. unfold intr_body, disk_of. rewrite kbind_get. change (ks_vdisk (acq L_vdisk s)) with (ks_vdisk s).
  by rewrite (proj2 (Z.eqb_eq _ _)).
Qed.

(** The requests for the buffers [bs] are finished and not yet looked at. *)
Fixpoint finished (d : vdisk) (idx : Z) (bs : list nat) : Prop :=
  match bs with
  | [] => idx = dk_used_dev_idx d
  | b :: bs =>
    idx <> dk_used_dev_idx d /\
    (exists id, dk_used_ring d !! Z.to_nat (idx `mod` Z.of_nat NUM) = Some id /\
                dk_info d !! Z.to_nat id = Some (Some b, 0)) /\
    finished d (u16 (idx + 1)) bs
  end.
Definition completed_all (me : option nat) (bs : list nat) (s : kstate) : kstate := foldl (fun s b => completed me b s) s bs.

Lemma finished_same d d' idx bs :
  dk_used_ring d' = dk_used_ring d -> dk_used_dev_idx d' = dk_used_dev_idx d -> dk_info d' = dk_info d ->
  finished d idx bs -> finished d' idx bs.
Proof.
  intros E1 E2 E3. revert idx. induction bs as [|b bs IH]; intros idx; cbn; rewrite ?E1, ?E2, ?E3; [done|].
  intros (? & ? & ?). split_and!; auto.
Qed.

Lemma intr_loop bs n s me :
  in_driver s me -> finished (ks_vdisk s) (dk_used_idx (ks_vdisk s)) bs ->
  Forall (fun b => is_Some (ks_bufs s !! b)) bs -> (length bs < n)%nat ->
  loop n intr_body tt (acq L_vdisk s) = Done tt (acq L_vdisk (completed_all me bs s)).
Proof.
  revert n s. induction bs as [|b bs IH]; intros [|n] s Hd Hf Hb Hn; cbn in Hn; try lia.
  - by rewrite (loop_done _ _ _ _ _ _ (intr_body_end s Hf)).
  - destruct Hf as (Hne & (id & Hid & Hx) & Hf). apply Forall_cons in Hb as [Hb Hbs].
    rewrite (loop_next _ _ _ _ _ _ (intr_body_next s me id b Hd Hne Hid Hx Hb)).
    rewrite IH; [done|by apply in_driver_completed|by eapply finished_same; [..|exact Hf]| |lia].
    eapply Forall_impl; [exact Hbs|]. intros b'. cbn. rewrite list_lookup_alter. case_decide; [|done].
    subst. by rewrite fmap_is_Some.
Qed.
(** A hart outside every section, whatever [intena] still says: push_off()
    stores the flag first. *)
Definition settle (s : kstate) : kstate :=
  s <| ks_cpus ::= alter (fun x => x <| c_intena := b2z (ks_sie s) |>) (ks_tp s) |>.

Lemma push_off_settle s c : ks_cpus s !! ks_tp s = Some c -> c_noff c = 0 -> push_off s = push_off (settle s).
Proof.
  intros Hc Hn. lock_unfold. rewrite list_lookup_alter_eq, Hc. cbn. rewrite Hn. cbn.
  rewrite Hc. cbn. rewrite list_lookup_alter_eq, Hc. cbn. rewrite !list_lookup_alter_eq, Hc. cbn.
  f_equal. kstate_eq. rewrite !list_alter_alter_eq. by apply list_alter_ext.
Qed.
Lemma hart_ok_settle s c : ks_cpus s !! ks_tp s = Some c -> c_noff c = 0 -> hart_ok (settle s).
Proof.
  intros Hc Hn. unfold hart_ok, cpu_consistent. cbn. rewrite list_lookup_alter_eq, Hc. cbn. by rewrite decide_True.
Qed.
Lemma acquire_settle lk s c :
  ks_cpus s !! ks_tp s = Some c -> c_noff c = 0 -> lock_free lk s -> acquire lk s = Done tt (acq lk (settle s)).
Proof.
  intros Hc Hn Hl. transitivity (acquire lk (settle s)).
  - unfold acquire, kbind. by rewrite (push_off_settle s c).
  - apply acquire_ok; [by eapply hart_ok_settle|done].
Qed.

(** virtio_disk_intr(): every finished request is taken off the used ring, its
    buffer given back and its waiters made runnable. *)
Lemma intr_completes bs s c :
  ks_cpus s !! ks_tp s = Some c -> c_noff c = 0 -> length (ks_proc s) = NPROC ->
  (forall q, (q < NPROC)%nat -> lock_free (L_proc q) s) -> lock_free L_vdisk s ->
  finished (ks_vdisk s) (dk_used_idx (ks_vdisk s)) bs -> (length bs <= NUM)%nat ->
  Forall (fun b => is_Some (ks_bufs s !! b)) bs ->
  virtio_disk_intr s = Done tt (completed_all (c_proc c) bs (settle s)).
Proof.
  intros Hc Hn Hlen Hl Hv Hf Hm Hb.
  assert (in_driver (settle s) (c_proc c)) as Hd.
  { split; [by eapply hart_ok_settle|unfold cur; cbn; by rewrite list_lookup_alter_eq, Hc|done..]. }
  unfold virtio_disk_intr. kstep acquire_settle; [|done..].
  destruct (status_ok (acq L_vdisk (settle s))) as [v Hst]. rewrite (kbind_done _ _ _ _ _ Hst).
  kstep ack_ok. change (loop (S NUM) _ tt) with (loop (S NUM) intr_body tt).
  rewrite (kbind_done _ _ _ _ _ (intr_loop bs (S NUM) (settle s) (c_proc c) Hd Hf Hb ltac:(lia))).
  assert (in_driver (completed_all (c_proc c) bs (settle s)) (c_proc c)) as [Ht _ _ _ Ht'].
  { clear -Hd. revert Hd. generalize (settle s). induction bs as [|b bs IH]; [done|].
    intros t Hd. cbn. by apply IH, in_driver_completed. }
  by apply release_acq.
Qed.

(** ** The rest of the system between sleep() and its return *)

(** scheduler() behind the swtch() from [p], and before the one to [p]. *)
Definition switch_out (p : nat) : K unit :=
  let! c := mycpu in
  set_cpu c (fun x => x <| c_proc := None |>) ;;
  release (L_proc p).
Definition switch_in (p : nat) : K unit :=
  acquire (L_proc p) ;;
  let! pr := proc_of p in
  if bool_decide (p_state pr = RUNNABLE) then
    set_proc p (fun x => x <| p_state := RUNNING |>) ;;
    let! c := mycpu in
    set_cpu c (fun x => x <| c_proc := Some p |>)
  else panic "not runnable".
(** The interrupt of the disk: a trap clears the interrupt flag, the return
    from it restores it. *)
Definition disk_interrupt : K unit :=
  let! on := intr_get in
  intr_off ;;
  virtio_disk_intr ;;
  modify (fun s => s <| ks_sie := on |>).
(** The device serves the request while the hart is in scheduler(), and
    interrupts it; scheduler() then runs [p]. *)
Definition meanwhile (p : nat) : K unit :=
  switch_out p ;; device_step ;; disk_interrupt ;; switch_in p.
Definition with_cur (x : option nat) (s : kstate) : kstate :=
  s <| ks_cpus ::= alter (fun y => y <| c_proc := x |>) (ks_tp s) |>.
Lemma hart_ok_with_cur x s : hart_ok s -> hart_ok (with_cur x s).
Proof. unfold hart_ok. cbn. rewrite list_lookup_alter_eq. by destruct (ks_cpus s !! ks_tp s). Qed.
Lemma set_cur_acq lk x s :
  hart_ok s -> set_cpu (ks_tp s) (fun y => y <| c_proc := x |>) (acq lk s) = Done tt (acq lk (with_cur x s)).
Proof. intros Hs. apply set_cpu_acq; [done|done|]. unfold hart_ok in Hs. by destruct (ks_cpus s !! ks_tp s). Qed.

Lemma switch_out_ok p s :
  hart_ok s -> lock_free (L_proc p) s -> switch_out p (acq (L_proc p) s) = Done tt (with_cur None s).
Proof.
  intros Hs Hl. unfold switch_out, mycpu, cpuid. rewrite kbind_get. change (ks_tp (acq (L_proc p) s)) with (ks_tp s).
  rewrite (kbind_done _ _ _ _ _ (set_cur_acq (L_proc p) None s Hs)).
  by apply release_acq; [apply hart_ok_with_cur|].
Qed.

Lemma switch_in_ok p s c pr :
  ks_cpus s !! ks_tp s = Some c -> c_noff c = 0 -> lock_free (L_proc p) s ->
  ks_proc s !! p = Some pr -> p_state pr = RUNNABLE ->
  switch_in p s = Done tt (acq (L_proc p) (with_cur (Some p)
    ((settle s) <| ks_proc ::= alter (fun x => x <| p_state := RUNNING |>) p |>))).
Proof.
  intros Hc Hn Hl Hp Hst. unfold switch_in. kstep acquire_settle; [|done..].
  kstep proc_of_ok; [|exact Hp]. rewrite bool_decide_true by done. kstep set_proc_ok; [|exact Hp].
  unfold mycpu, cpuid. rewrite kbind_get. set (t := (settle s) <| ks_proc ::= alter (fun x => x <| p_state := RUNNING |>) p |>).
  restate (acq (L_proc p) t).
  exact (set_cur_acq (L_proc p) (Some p) t (hart_ok_settle s c Hc Hn)).
Qed.

(** What the device does to the memory and the disk, and to the queue. *)
Definition transferred (write : bool) (n : Z) (b : nat) (bf : buf) (s : kstate) : kstate :=
  if write then disk_put n (b_data bf) s
  else s <| ks_bufs ::= alter (fun x => x <| b_data := dblock s n |>) b |>.
Definition served (i0 : nat) (d : vdisk) : vdisk :=
  d <| dk_info ::= alter (fun x => (fst x, 0)) i0 |>
    <| dk_used_ring ::= <[Z.to_nat (dk_used_dev_idx d `mod` Z.of_nat NUM) := Z.of_nat i0]> |>
    <| dk_used_dev_idx := u16 (dk_used_dev_idx d + 1) |>.

Lemma device_step_ok s (write : bool) sector b bf i0 :
  dk_used_dev_idx (ks_vdisk s) <> dk_avail_idx (ks_vdisk s) ->
  dk_avail_ring (ks_vdisk s) !! Z.to_nat (dk_used_dev_idx (ks_vdisk s) `mod` Z.of_nat NUM) = Some (Z.of_nat i0) ->
  request (ks_vdisk s) (Z.of_nat i0) = Some (if write then VIRTIO_BLK_T_OUT else VIRTIO_BLK_T_IN, sector, b, Z.of_nat i0) ->
  ks_bufs s !! b = Some bf -> (i0 < length (dk_info (ks_vdisk s)))%nat ->
  device_step s = Done tt (on_disk (served i0) (transferred write (sector / (BSIZE / 512)) b bf s)).
Proof.
  intros Hne Ha Hr Hb Hi. unfold device_step, disk_of. rewrite kbind_get, (proj2 (Z.eqb_neq _ _)) by done.
  kstep deref_some; [|exact Ha]. rewrite Hr. cbn [nonnull]. rewrite kbind_ret. cbv beta iota.
  kstep buf_of_ok; [|exact Hb]. destruct write; cbn [Z.eqb VIRTIO_BLK_T_OUT VIRTIO_BLK_T_IN Pos.eqb].
  - rewrite kbind_modify. kstep set_info_ok; [|by rewrite Nat2Z.id]. rewrite Nat2Z.id. reflexivity.
  - erewrite kbind_done; [|rewrite kbind_get; apply (set_buf_ok _ b bf); exact Hb].
    kstep set_info_ok; [|by rewrite Nat2Z.id]. rewrite Nat2Z.id. reflexivity.
Qed.

Lemma disk_interrupt_ok s c b :
  ks_cpus s !! ks_tp s = Some c -> c_noff c = 0 -> c_proc c = None -> length (ks_proc s) = NPROC ->
  (forall q, (q < NPROC)%nat -> lock_free (L_proc q) s) -> lock_free L_vdisk s ->
  finished (ks_vdisk s) (dk_used_idx (ks_vdisk s)) [b] -> is_Some (ks_bufs s !! b) ->
  disk_interrupt s
  = Done tt ((completed None b s) <| ks_cpus ::= alter (fun x => x <| c_intena := 0 |>) (ks_tp s) |>).
Proof.
  intros Hc Hn Hp Hlen Hl Hv Hf Hb. unfold disk_interrupt, intr_get, intr_off. rewrite kbind_get, kbind_modify.  cbv beta.
  set (u := s <| ks_sie := false |>).
  rewrite (kbind_done _ _ _ _ _ (intr_completes [b] u c Hc Hn Hlen Hl Hv Hf ltac:(unfold NUM; cbn; lia) ltac:(by constructor))).
  rewrite Hp. unfold modify. apply f_equal. kstate_eq.
Qed.
(** ** The queue through a transfer *)

Lemma rings_ok_queued b write sector i0 i1 i2 d : rings_ok d -> rings_ok (queued b write sector i0 i1 i2 d).
Proof.
  intros Hr. pose proof (ro_bool _ (rings_ok_taken3 i0 i1 i2 d Hr)) as Hb. destruct Hr. unfold queued.
  split; [cbn; rewrite ?length_insert, ?length_alter; done..|exact Hb].
Qed.
Lemma rings_ok_served i0 d : rings_ok d -> rings_ok (served i0 d).
Proof. intros []. split; cbn; rewrite ?length_insert, ?length_alter; done. Qed.

Lemma used_taken3 i0 i1 i2 d i :
  length (dk_free d) = NUM -> (i0 < NUM)%nat -> (i1 < NUM)%nat -> (i2 < NUM)%nat -> i ∈ [i0; i1; i2] ->
  dk_free (taken3 i0 i1 i2 d) !! i = Some 0.
Proof.
  intros Hl H0' H1' H2' Hi. unfold taken3, taken. cbn. rewrite !list_lookup_insert, !length_insert, Hl.
  repeat case_decide; try done; try (exfalso; set_solver). all: set_unfold; naive_solver lia.
Qed.

Lemma chained_queued b write sector i0 i1 i2 d :
  rings_ok d -> (i0 < NUM)%nat -> (i1 < NUM)%nat -> (i2 < NUM)%nat -> NoDup [i0; i1; i2] ->
  chained (queued b write sector i0 i1 i2 d) i0 i1 i2.
Proof.
  intros [Hd _ _ Hf _ _ _] H0' H1' H2' Hn. pose proof (nodup3 _ _ _ Hn) as (N01 & N02 & N12). split; try done.
  - intros i Hi. exact (used_taken3 i0 i1 i2 d i Hf H0' H1' H2' Hi).
  - eexists. unfold queued. cbn -[Z.lor Z.land].
    rewrite (list_lookup_insert_ne _ i2 i0), (list_lookup_insert_ne _ i1 i0), list_lookup_insert_eq by (try done; lia).
    split; [reflexivity|]. by cbn -[Z.lor].
  - eexists. unfold queued. cbn -[Z.lor Z.land].
    rewrite (list_lookup_insert_ne _ i2 i1), list_lookup_insert_eq by (try done; rewrite ?length_insert; lia).
    split; [reflexivity|]. by destruct write.
  - eexists. unfold queued. cbn -[Z.lor Z.land]. rewrite list_lookup_insert_eq by (rewrite ?length_insert; lia).
    split; [reflexivity|]. done.
Qed.

Lemma chained_same d d' i0 i1 i2 :
  dk_desc d' = dk_desc d -> dk_free d' = dk_free d -> chained d i0 i1 i2 -> chained d' i0 i1 i2.
Proof. intros E1 E2 []. split; rewrite ?E1, ?E2; assumption. Qed.

(** The device's answer is one finished request. *)
Lemma u16_next idx : 0 <= idx < 2 ^ 16 -> idx <> u16 (idx + 1).
Proof. unfold u16. intros Hi E. dlia. Qed.
Lemma slot_lt idx : (Z.to_nat (idx `mod` Z.of_nat NUM) < NUM)%nat.
Proof. pose proof (Z.mod_pos_bound idx (Z.of_nat NUM)) as Hb. unfold NUM in *. lia. Qed.

Lemma finished_served b write sector i0 i1 i2 d :
  rings_ok d -> idle d -> (i0 < NUM)%nat ->
  let q := queued b write sector i0 i1 i2 d in
  dk_used_dev_idx q <> dk_avail_idx q /\
  dk_avail_ring q !! Z.to_nat (dk_used_dev_idx q `mod` Z.of_nat NUM) = Some (Z.of_nat i0) /\
  finished (served i0 q) (dk_used_idx (served i0 q)) [b].
Proof.
  intros [] [Hi Hdev Hu] H0' q. pose proof (slot_lt (dk_avail_idx d)) as Hs. pose proof (u16_next _ Hi) as Hnext.
  unfold q, queued. cbn -[Z.of_nat u16]. rewrite Hdev, Hu. split_and!; try done.
  - rewrite list_lookup_insert_eq by congruence. done.
  - exists (Z.of_nat i0). rewrite list_lookup_insert_eq by congruence. split; [done|].
    rewrite Nat2Z.id, list_lookup_alter_eq, list_lookup_alter_eq.
    destruct (lookup_lt_is_Some_2 (dk_info d) i0) as [x Hx]; [congruence|]. by rewrite Hx.
Qed.

(** Freeing the three gives the free list back. *)
Lemma freed_taken i0 i1 i2 rest d :
  rings_ok d -> spare d = i0 :: i1 :: i2 :: rest ->
  <[i2 := 1]> (<[i1 := 1]> (<[i0 := 1]> (dk_free (taken3 i0 i1 i2 d)))) = dk_free d.
Proof.
  intros Hr Hsp. apply list_eq. intros i. pose proof (ro_free _ Hr) as Hl.
  unfold taken3, taken. cbn. rewrite !list_lookup_insert, !length_insert, Hl.
  assert (forall j, j ∈ [i0; i1; i2] -> dk_free d !! j = Some 1) as H1'.
  { intros j Hj. assert (j ∈ spare d) as [Hs Hlt%elem_of_seq]%list_elem_of_filter by (rewrite Hsp; set_solver).
    destruct (lookup_lt_is_Some_2 (dk_free d) j) as [x Hx]; [lia|]. rewrite Hx. f_equal. unfold is_spare in Hs.
    destruct (proj1 (Forall_lookup _ _) (ro_bool _ Hr) j x Hx) as [->| ->]; [|done]. by rewrite Hx in Hs. }
  repeat case_decide; try done; destruct_and?; subst; symmetry; apply H1'; set_solver.
Qed.
(** ** A whole transfer *)

Section Transfer.
Context (s : kstate) (p : nat) (c : cpu) (pr : proc) (b : nat) (bf : buf) (write : bool) (i0 i1 i2 : nat) (rest : list nat).
Hypothesis (Hon : on_cpu s p c pr) (Hd : in_driver s (Some p)) (Hrings : rings_ok (ks_vdisk s)) (Hidle : idle (ks_vdisk s)).
Hypothesis (Hbuf : ks_bufs s !! b = Some bf) (Hnum : 0 <= b_blockno bf < 2 ^ 31).
Hypothesis (Hspare : spare (ks_vdisk s) = i0 :: i1 :: i2 :: rest).

(** The states at the switches. *)
Definition st_asleep : kstate :=
  (submitted b bf write i0 i1 i2 s)
    <| ks_proc ::= alter (fun x => x <| p_chan := Some (Ch_buf b) |> <| p_state := SLEEPING |>) p |>.
Definition st_served : kstate :=
  on_disk (served i0) (transferred write (b_blockno bf) b (bf <| b_disk := 1 |>) (with_cur None st_asleep)).
Definition st_done : kstate :=
  (completed None b st_served) <| ks_cpus ::= alter (fun x => x <| c_intena := 0 |>) (ks_tp s) |>.
Definition st_back : kstate :=
  with_cur (Some p) ((settle st_done) <| ks_proc ::= alter (fun x => x <| p_state := RUNNING |>) p |>).

Lemma three_lt : (i0 < NUM)%nat /\ (i1 < NUM)%nat /\ (i2 < NUM)%nat.
Proof.
  pose proof (spare_lt (ks_vdisk s)) as Hlt. rewrite Hspare in Hlt.
  by apply Forall_cons_1 in Hlt as [? [? [? _]%Forall_cons_1]%Forall_cons_1].
Qed.
Lemma three_nodup : NoDup [i0; i1; i2].
Proof.
  pose proof (spare_nodup (ks_vdisk s)) as Hn. rewrite Hspare in Hn.
  change (i0 :: i1 :: i2 :: rest) with ([i0; i1; i2] ++ rest) in Hn. by apply NoDup_app in Hn as [? _].
Qed.

Lemma sector_block : sector_of bf / (BSIZE / 512) = b_blockno bf.
Proof.
  unfold sector_of. change (BSIZE / 512) with 2. unfold u32. rewrite Z.mod_small by lia. by rewrite Z.div_mul.
Qed.

Lemma p_lt : (p < NPROC)%nat.
Proof. rewrite <- (dr_nproc _ _ Hd). eapply lookup_lt_Some, (oc_entry _ _ _ _ Hon). Qed.

Lemma ks_vdisk_served : ks_vdisk st_served = served i0 (queued b write (sector_of bf) i0 i1 i2 (ks_vdisk s)).
Proof. unfold st_served, st_asleep, submitted, transferred. destruct write; reflexivity. Qed.
Lemma ks_cpus_served : ks_cpus st_served = alter (fun y => y <| c_proc := None |>) (ks_tp s) (ks_cpus s).
Proof. unfold st_served, st_asleep, submitted, transferred. destruct write; reflexivity. Qed.
Lemma same_served : ks_tp st_served = ks_tp s /\ ks_sie st_served = ks_sie s /\ ks_locks st_served = ks_locks s /\
  ks_proc st_served = alter (fun x => x <| p_chan := Some (Ch_buf b) |> <| p_state := SLEEPING |>) p (ks_proc s).
Proof. unfold st_served, st_asleep, submitted, transferred. destruct write; cbn; split_and!; reflexivity. Qed.
Lemma ks_bufs_served :
  ks_bufs st_served = alter (fun x => (if write then x else x <| b_data := dblock s (b_blockno bf) |>) <| b_disk := 1 |>) b (ks_bufs s).
Proof.
  unfold st_served, st_asleep, submitted, transferred. destruct write; [done|]. cbn. rewrite list_alter_alter_eq. by apply list_alter_ext.
Qed.

Lemma cpu_served : ks_cpus st_served !! ks_tp st_served = Some (c <| c_proc := None |>).
Proof.
  destruct same_served as (-> & _). rewrite ks_cpus_served, list_lookup_alter_eq, (oc_cpu _ _ _ _ Hon). done.
Qed.

Lemma device_serves : device_step (with_cur None st_asleep) = Done tt st_served.
Proof.
  destruct three_lt as (L0 & L1 & L2).
  destruct (finished_served b write (sector_of bf) i0 i1 i2 _ Hrings Hidle L0) as (Hne & Hav & _).
  unfold st_served. rewrite <- sector_block.
  apply (device_step_ok (with_cur None st_asleep) write (sector_of bf) b (bf <| b_disk := 1 |>) i0).
  - exact Hne.
  - exact Hav.
  - by apply request_queued; [| | | |apply three_nodup].
  - cbn. by rewrite list_lookup_alter_eq, Hbuf.
  - pose proof (ro_info _ (rings_ok_queued b write (sector_of bf) i0 i1 i2 _ Hrings)) as Hl.
    change (ks_vdisk (with_cur None st_asleep)) with (queued b write (sector_of bf) i0 i1 i2 (ks_vdisk s)). lia.
Qed.

Lemma interrupt_done : disk_interrupt st_served = Done tt st_done.
Proof.
  destruct three_lt as (L0 & L1 & L2). destruct same_served as (Et & _ & El & Ep).
  unfold st_done. rewrite <- Et. apply (disk_interrupt_ok st_served (c <| c_proc := None |>) b).
  - apply cpu_served.
  - apply (oc_noff _ _ _ _ Hon).
  - done.
  - rewrite Ep, length_alter. apply Hd.
  - intros q Hq. unfold lock_free. rewrite El. by apply (dr_procs _ _ Hd).
  - unfold lock_free. rewrite El. apply (dr_lock _ _ Hd).
  - rewrite ks_vdisk_served. by apply (finished_served b write (sector_of bf) i0 i1 i2 _ Hrings Hidle L0).
  - rewrite ks_bufs_served, list_lookup_alter_eq, Hbuf. by eexists.
Qed.

Lemma done_p : ks_proc st_done !! p = Some (pr <| p_chan := Some (Ch_buf b) |> <| p_state := RUNNABLE |>).
Proof.
  change (ks_proc st_done) with (imap (fun i x => if bool_decide (None = Some i) then x else wake (Ch_buf b) x) (ks_proc st_served)).
  rewrite list_lookup_imap. destruct same_served as (_ & _ & _ & ->).
  rewrite list_lookup_alter_eq, (oc_entry _ _ _ _ Hon). cbn. unfold wake. cbn. by rewrite !bool_decide_true.
Qed.

Lemma meanwhile_ok : meanwhile p (asleep p (Ch_buf b) (submitted b bf write i0 i1 i2 s)) = Done tt (acq (L_proc p) st_back).
Proof.
  unfold meanwhile, asleep. fold st_asleep.
  rewrite (kbind_done _ _ _ _ _ (switch_out_ok p st_asleep (oc_hart _ _ _ _ Hon) (oc_lock _ _ _ _ Hon))).
  rewrite (kbind_done _ _ _ _ _ device_serves), (kbind_done _ _ _ _ _ interrupt_done).
  apply (switch_in_ok p st_done (c <| c_proc := None |> <| c_intena := 0 |>)
    (pr <| p_chan := Some (Ch_buf b) |> <| p_state := RUNNABLE |>)).
  - pose proof cpu_served as Hc. rewrite (proj1 same_served) in Hc. change (ks_tp st_done) with (ks_tp st_served).
    change (ks_cpus st_done) with (alter (fun x => x <| c_intena := 0 |>) (ks_tp s) (ks_cpus st_served)).
    rewrite (proj1 same_served), list_lookup_alter_eq, Hc. done.
  - apply (oc_noff _ _ _ _ Hon).
  - unfold lock_free. change (ks_locks st_done) with (ks_locks st_served).
    destruct same_served as (_ & _ & -> & _). apply (oc_lock _ _ _ _ Hon).
  - apply done_p.
  - done.
Qed.
Definition st_final : kstate :=
  woken (Some p) Ch_vdisk
    (on_disk (fun d => freed3 i0 i1 i2 (d <| dk_info ::= alter (fun x => (None, snd x)) i0 |>))
      ((resumed (ks_sie s) st_back) <| ks_proc ::= alter (fun x => x <| p_chan := None |>) p |>)).

Lemma ks_tp_back : ks_tp st_back = ks_tp s.
Proof. exact (proj1 same_served). Qed.

Lemma ks_cpus_final : ks_cpus st_final = ks_cpus s.
Proof.
  pose proof (oc_cpu _ _ _ _ Hon) as Hc. pose proof (oc_hart _ _ _ _ Hon) as Hh.
  unfold hart_ok, cpu_consistent in Hh. rewrite Hc, decide_True in Hh by apply (oc_noff _ _ _ _ Hon).
  pose proof (oc_proc _ _ _ _ Hon) as Hp. destruct same_served as (Et & Es & _).
  change (ks_cpus st_final) with
    (alter (fun x => x <| c_intena := b2z (ks_sie s) |>) (ks_tp st_served)
      (alter (fun y => y <| c_proc := Some p |>) (ks_tp st_served)
        (alter (fun x => x <| c_intena := b2z (ks_sie st_served) |>) (ks_tp st_served)
          (alter (fun x => x <| c_intena := 0 |>) (ks_tp s) (ks_cpus st_served))))).
  rewrite Et, Es, ks_cpus_served, !list_alter_alter_eq. eapply list_alter_id_at; [exact Hc|].
  clear -Hh Hp. destruct c. cbn in *. by subst.
Qed.
Lemma ks_bufs_final : b_disk bf = 0 -> ks_bufs st_final = ks_bufs (transferred write (b_blockno bf) b bf s).
Proof.
  intros Hz. change (ks_bufs st_final) with (alter (fun x => x <| b_disk := 0 |>) b (ks_bufs st_served)).
  rewrite ks_bufs_served, list_alter_alter_eq. unfold transferred. clear -Hz Hbuf. destruct write; cbn.
  - eapply list_alter_id_at; [exact Hbuf|]. destruct bf. cbn in *. by subst.
  - apply list_alter_ext; [|done]. intros x Hx. rewrite Hbuf in Hx. simplify_eq. destruct x. cbn in *. by subst.
Qed.

Lemma final_eq d l :
  b_disk bf = 0 -> ks_vdisk st_final = d -> ks_proc st_final = l ->
  st_final = (transferred write (b_blockno bf) b bf s) <| ks_vdisk := d |> <| ks_proc := l |>.
Proof.
  intros Hz Ed El. pose proof ks_cpus_final as Ec. pose proof (ks_bufs_final Hz) as Eb.
  refine (eq_trans (eq_sym (eta_kstate_eq _)) (eq_trans _ (eta_kstate_eq _))). unfold eta, eta_kstate.
  rewrite Ec, Eb, Ed, El. clear. unfold st_final, st_back, st_done, st_served, st_asleep, submitted, transferred.
  destruct write; cbn; reflexivity.
Qed.
(** The queue when the transfer is done. *)
Definition dk_seen (d : vdisk) : vdisk := d <| dk_used_idx := u16 (dk_used_idx d + 1) |>.
Definition dk_done : vdisk := dk_seen (served i0 (queued b write (sector_of bf) i0 i1 i2 (ks_vdisk s))).
Lemma ks_vdisk_back : ks_vdisk st_back = dk_done.
Proof. unfold dk_done. rewrite <- ks_vdisk_served. unfold st_back, st_done. generalize st_served. intros t. reflexivity. Qed.
Lemma ks_vdisk_final :
  ks_vdisk st_final = freed3 i0 i1 i2 (dk_done <| dk_info ::= alter (fun x => (None, snd x)) i0 |>).
Proof.
  rewrite <- ks_vdisk_back. unfold st_final. generalize st_back. intros t. unfold woken, on_disk, resumed. cbn. reflexivity.
Qed.

Lemma rings_ok_done : rings_ok dk_done.
Proof.
  unfold dk_done. generalize (rings_ok_served i0 _ (rings_ok_queued b write (sector_of bf) i0 i1 i2 _ Hrings)).
  generalize (served i0 (queued b write (sector_of bf) i0 i1 i2 (ks_vdisk s))). intros d []. by split.
Qed.
Lemma rings_ok_info d f : rings_ok d -> rings_ok (d <| dk_info ::= alter f i0 |>).
Proof. intros []. split; cbn; rewrite ?length_alter; done. Qed.

Lemma queue_final :
  rings_ok (ks_vdisk st_final) /\ idle (ks_vdisk st_final) /\ dk_free (ks_vdisk st_final) = dk_free (ks_vdisk s).
Proof.
  rewrite ks_vdisk_final. split; [|split].
  - do 3 apply rings_ok_freed. apply rings_ok_info, rings_ok_done.
  - destruct Hidle as [Hi Hdev Hu]. split; cbn -[u16]; [by apply Z.mod_pos_bound|by rewrite Hdev|by rewrite Hu].
  - exact (freed_taken i0 i1 i2 rest _ Hrings Hspare).
Qed.

Lemma proc_final q :
  ks_proc st_final !! q
  = (fun x => if decide (q = p) then x <| p_state := RUNNING |> <| p_chan := None |>
              else wake Ch_vdisk (wake (Ch_buf b) x)) <$> ks_proc s !! q.
Proof.
  change (ks_proc st_final) with
    (imap (fun i x => if bool_decide (Some p = Some i) then x else wake Ch_vdisk x)
      (alter (fun x => x <| p_chan := None |>) p
        (alter (fun x => x <| p_state := RUNNING |>) p
          (imap (fun i x => if bool_decide (None = Some i) then x else wake (Ch_buf b) x) (ks_proc st_served))))).
  destruct same_served as (_ & _ & _ & ->).
  rewrite list_lookup_imap, list_alter_alter_eq, !list_lookup_alter, list_lookup_imap, list_lookup_alter.
  destruct (decide (p = q)) as [E|Hne].
  - rewrite E. destruct (decide (q = q)); [|done]. destruct (ks_proc s !! q) as [x|]; [|done]. cbn. f_equal.
    rewrite bool_decide_true by done. unfold wake. cbn. by rewrite !bool_decide_true.
  - rewrite list_lookup_imap, list_lookup_alter_ne by done. destruct (ks_proc s !! q) as [x|]; [|done]. cbn.
    destruct (decide (q = p)); [congruence|]. by rewrite bool_decide_false by congruence.
Qed.
(** The driver can continue in [st_back]. *)
Lemma cpu_back : exists c', ks_cpus st_back !! ks_tp st_back = Some c' /\ c_noff c' = 0 /\ c_proc c' = Some p.
Proof.
  pose proof cpu_served as Hc. destruct same_served as (Et & _). rewrite Et in Hc.
  change (ks_cpus st_back) with
    (alter (fun y => y <| c_proc := Some p |>) (ks_tp st_served)
      (alter (fun x => x <| c_intena := b2z (ks_sie st_served) |>) (ks_tp st_served)
        (alter (fun x => x <| c_intena := 0 |>) (ks_tp s) (ks_cpus st_served)))).
  rewrite ks_tp_back, Et, !list_lookup_alter_eq, Hc. eexists. split; [reflexivity|].
  split; [apply (oc_noff _ _ _ _ Hon)|done].
Qed.
Lemma ks_proc_back : ks_proc st_back = alter (fun x => x <| p_state := RUNNING |>) p (ks_proc st_done).
Proof. unfold st_back. generalize st_done. intros t. unfold with_cur, settle. cbn. reflexivity. Qed.
Lemma ks_locks_back : ks_locks st_back = ks_locks s.
Proof. exact (proj1 (proj2 (proj2 same_served))). Qed.
Lemma ks_bufs_back : ks_bufs st_back = alter (fun x => x <| b_disk := 0 |>) b (ks_bufs st_served).
Proof. unfold st_back, st_done. generalize st_served. intros t. reflexivity. Qed.
Lemma nproc_back : length (ks_proc st_back) = NPROC.
Proof.
  rewrite ks_proc_back, length_alter.
  change (ks_proc st_done) with (imap (fun i x => if bool_decide (None = Some i) then x else wake (Ch_buf b) x) (ks_proc st_served)).
  destruct same_served as (_ & _ & _ & ->). rewrite length_imap, length_alter. apply Hd.
Qed.
Lemma buf_back : exists bf', ks_bufs st_back !! b = Some bf' /\ b_disk bf' = 0.
Proof. rewrite ks_bufs_back, ks_bufs_served, !list_lookup_alter_eq, Hbuf. by eexists. Qed.
Lemma chained_back : chained (ks_vdisk st_back) i0 i1 i2.
Proof.
  rewrite ks_vdisk_back. destruct three_lt as (L0 & L1 & L2). unfold dk_done.
  generalize (chained_queued b write (sector_of bf) i0 i1 i2 (ks_vdisk s) Hrings L0 L1 L2 three_nodup).
  generalize (queued b write (sector_of bf) i0 i1 i2 (ks_vdisk s)). intros d Hc. by apply (chained_same d).
Qed.
End Transfer.

(** C12: virtio_disk_rw() transfers a block as [BlockDevice] promises to the
    buffer cache.  It queues the request and gives up the processor; when the
    device has served the request, its interrupt has been handled by
    virtio_disk_intr() and the scheduler has switched back, it returns: a write
    has stored the buffer in its block of the disk, a read has filled the buffer
    from it, and nothing else of the kernel has changed but the queue and the
    states of processes.  The queue is idle again with the same descriptors
    free, the process is as before, and whoever slept on the buffer or waited
    for a descriptor is runnable. *)
Theorem virtio_disk_rw_transfers s p c pr b bf write :
  (1 < fuel)%nat -> on_cpu s p c pr -> in_driver s (Some p) -> p_state pr = RUNNING -> p_chan pr = None ->
  rings_ok (ks_vdisk s) -> idle (ks_vdisk s) -> (3 <= length (spare (ks_vdisk s)))%nat ->
  ks_bufs s !! b = Some bf -> b_disk bf = 0 -> 0 <= b_blockno bf < 2 ^ 31 ->
  exists s1 k s2 d l,
    virtio_disk_rw b write s = Yield (Swtch p) s1 k /\
    meanwhile p s1 = Done tt s2 /\
    k s2 = Done tt ((if write then disk_put (b_blockno bf) (b_data bf) s
                     else s <| ks_bufs ::= alter (fun x => x <| b_data := dblock s (b_blockno bf) |>) b |>)
                    <| ks_vdisk := d |> <| ks_proc := l |>) /\
    rings_ok d /\ idle d /\ dk_free d = dk_free (ks_vdisk s) /\ l !! p = Some pr /\
    forall q, q <> p -> l !! q = wake Ch_vdisk ∘ wake (Ch_buf b) <$> ks_proc s !! q.
Proof.
  intros Hfuel Hon Hd Hst Hch Hr Hi Hsp Hb Hz Hn.
  destruct (spare (ks_vdisk s)) as [|i0 [|i1 [|i2 rest]]] eqn:E; cbn in Hsp; try lia.
  destruct (rw_sleeps s p c pr b bf write i0 i1 i2 rest) as (k & Hk & Hres); [done..|].
  destruct (queue_final s p b bf write i0 i1 i2 rest Hr Hi E) as (Hq1 & Hq2 & Hq3).
  set (s2 := st_back s p b bf write i0 i1 i2).
  exists (asleep p (Ch_buf b) (submitted b bf write i0 i1 i2 s)), k, (acq (L_proc p) s2),
    (ks_vdisk (st_final s p b bf write i0 i1 i2)), (ks_proc (st_final s p b bf write i0 i1 i2)).
  split; [exact Hk|]. split; [by apply (meanwhile_ok s p c pr b bf write i0 i1 i2 rest)|].
  split.
  { destruct (cpu_back s p c pr b bf write i0 i1 i2 Hon) as (c' & Hc' & Hn' & Hp').
    destruct (buf_back s p b bf write i0 i1 i2 Hb) as (bf' & Hb' & Hz').
    pose proof (ks_locks_back s p b bf write i0 i1 i2) as El.
    rewrite (Hres s2 c' (pr <| p_chan := Some (Ch_buf b) |> <| p_state := RUNNING |>) bf' Hc' Hn' Hp').
    - exact (f_equal (Done tt) (final_eq s p c pr b bf write i0 i1 i2 Hon Hb _ _ Hz eq_refl eq_refl)).
    - unfold s2. rewrite ks_proc_back, list_lookup_alter_eq, (done_p s p c pr) by done. done.
    - by apply nproc_back.
    - intros q Hq. unfold lock_free, s2. rewrite El. by apply (dr_procs _ _ Hd).
    - unfold lock_free, s2. rewrite El. apply (dr_lock _ _ Hd).
    - exact Hb'.
    - exact Hz'.
    - unfold s2. rewrite ks_vdisk_back. by apply rings_ok_done.
    - by apply (chained_back s p b bf write i0 i1 i2 rest). }
  split; [exact Hq1|]. split; [exact Hq2|]. split; [exact Hq3|]. split.
  - rewrite proc_final, (oc_entry _ _ _ _ Hon). cbn. destruct (decide (p = p)); [|done]. f_equal. clear -Hst Hch. destruct pr. cbn in *. by subst.
  - intros q Hq. rewrite proc_final. destruct (ks_proc s !! q); [|done]. cbn. by destruct (decide (q = p)).
Qed.
End Specs.

(** ** A transfer on a machine *)

#[local] Instance ready_regs : Virtio := {| vread := fun _ => ret 1; vwrite := fun _ _ => ret tt |}.
#[local] Instance ready_regs_ok : VirtioRegs.
Proof. split; [done|by eexists|done]. Qed.
#[local] Instance fuel_two : Fuel := {| fuel := 2; fuel_pos := Nat.lt_0_2 |}.

(** The disk's queue as virtio_disk_init() leaves it. *)
Definition fresh_queue : vdisk := zero_vdisk <| dk_free := replicate NUM 1 |>.
Definition disk_machine : kstate :=
  machine <| ks_vdisk := fresh_queue |> <| ks_disk := {[7 := replicate (Z.to_nat BSIZE) 5]} |>
          <| ks_bufs ::= alter (fun x => x <| b_blockno := 7 |>) 3%nat |>.

Lemma fresh_rings : rings_ok fresh_queue.
Proof. unfold fresh_queue. split; [done..|]. by apply Forall_replicate; right. Qed.
Lemma fresh_idle : idle fresh_queue.
Proof. by split. Qed.
Lemma fresh_spare : (3 <= length (spare fresh_queue))%nat.
Proof. vm_compute. lia. Qed.
Lemma disk_machine_same : same_hart machine disk_machine /\ ks_proc disk_machine = ks_proc machine.
Proof. unfold disk_machine. generalize machine. intros m. split; [split|]; reflexivity. Qed.
Lemma disk_machine_quiet : quiet disk_machine 0.
Proof. destruct disk_machine_same as [Hh Hp]. exact (quiet_same machine disk_machine 0 Hh Hp machine_quiet). Qed.
Lemma disk_machine_on pr :
  ks_proc disk_machine !! 0%nat = Some pr -> on_cpu disk_machine 0 (mk_cpu (Some 0%nat) 0 1) pr.
Proof.
  intros Hp. destruct disk_machine_quiet as [Qh _ _ _ Ql _].
  assert (ks_cpus disk_machine !! ks_tp disk_machine = Some (mk_cpu (Some 0%nat) 0 1)) as Hc.
  { destruct disk_machine_same as [[_ -> _ ->] _]. reflexivity. }
  split; [exact Qh|exact Hc|reflexivity|reflexivity|exact Hp|apply Ql; reflexivity].
Qed.
Lemma disk_machine_driver : in_driver disk_machine (Some 0%nat).
Proof.
  destruct disk_machine_quiet as [Qh Qc _ Qn Ql _]. split; [exact Qh|exact Qc|exact Qn| |apply Ql; reflexivity].
  intros q Hq. apply Ql. by apply Nat.ltb_lt.
Qed.

Lemma virtio_disk_rw_transfers_witness :
  exists bf s1 k s2 d l,
    ks_bufs disk_machine !! 3%nat = Some bf /\
    virtio_disk_rw (H := fuel_two) (H1 := ready_regs) 3 false disk_machine = Yield (Swtch 0) s1 k /\
    meanwhile 0 s1 = Done tt s2 /\
    k s2 = Done tt (disk_machine <| ks_bufs ::= alter (fun x => x <| b_data := dblock disk_machine 7 |>) 3%nat |>
                      <| ks_vdisk := d |> <| ks_proc := l |>) /\ idle d.
Proof.
  destruct (ks_bufs disk_machine !! 3%nat) as [bf|] eqn:Eb; [|by vm_compute in Eb].
  assert (b_blockno bf = 7 /\ b_disk bf = 0) as [En Ez] by (vm_compute in Eb; by inversion Eb).
  destruct (ks_proc disk_machine !! 0%nat) as [pr|] eqn:Ep; [|by vm_compute in Ep].
  assert (p_state pr = RUNNING /\ p_chan pr = None) as [Est Ech] by (vm_compute in Ep; by inversion Ep).
  destruct (virtio_disk_rw_transfers (H := fuel_two) disk_machine 0 (mk_cpu (Some 0%nat) 0 1) pr 3 bf false)
    as (s1 & k & s2 & d & l & H1 & H2 & H3 & _ & H4 & _).
  - exact Nat.lt_1_2.
  - by apply disk_machine_on.
  - exact disk_machine_driver.
  - exact Est.
  - exact Ech.
  - exact fresh_rings.
  - exact fresh_idle.
  - exact fresh_spare.
  - exact Eb.
  - exact Ez.
  - rewrite En. lia.
  - rewrite En in H3. exists bf, s1, k, s2, d, l. split_and!; [reflexivity|exact H1|exact H2|exact H3|exact H4].
Defined.
