(* ===== verification/Trap.v ===== *)
(** * Traps, interrupts and system calls (sysproc.c, syscall.c, trap.c, and
    forkret() of proc.c).

    The trap registers of the executing hart are [ks_csr].  The addresses of
    the assembly entry points are parameters; usertrapret() ends by jumping to
    [userret] in the trampoline page, so it returns the target of that jump
    and its argument. *)

From S2P Require Import Prelude Defs KMonad Lock Mem Kalloc Sched Sleeplock Bio Log Vm Pipe Uart Fs Console File Proc Exec Sysfile Virtio.

(** kernelvec.S and trampoline.S: the trap vector of the kernel and the offsets
    of the two entry points in the trampoline page. *)
Class TrapVectors := { kernelvec : Z; uservec_off : Z; userret_off : Z }.

Definition csr_of : K csrst := get ks_csr.
Definition set_csr (f : csrst -> csrst) : K unit := modify (fun s => s <| ks_csr ::= f |>).
Definition w_stvec (x : Z) : K unit := set_csr (fun c => c <| r_stvec := x |>).
Definition w_sepc (x : Z) : K unit := set_csr (fun c => c <| r_sepc := x |>).
Definition w_sip (x : Z) : K unit := set_csr (fun c => c <| r_sip := x |>).
Definition w_satp (x : Z) : K unit := set_csr (fun c => c <| r_satp := x |>).

(** riscv.h: the fields of sstatus the kernel uses, as bits of the register. *)
Definition SSTATUS_SPP : Z := Z.shiftl 1 8.
Definition SSTATUS_SPIE : Z := Z.shiftl 1 5.
Definition SSTATUS_SIE : Z := Z.shiftl 1 1.
Definition r_sstatus : K Z :=
  let! c := csr_of in
  let! sie := get ks_sie in
  ret (Z.lor (if r_spp c then SSTATUS_SPP else 0)
      (Z.lor (if r_spie c then SSTATUS_SPIE else 0) (if sie : bool then SSTATUS_SIE else 0))).
Definition w_sstatus (x : Z) : K unit :=
  set_csr (fun c => c <| r_spp := Z.testbit x 8 |> <| r_spie := Z.testbit x 5 |>) ;;
  modify (fun s => s <| ks_sie := Z.testbit x 1 |>).

(** riscv.h *)
Definition SATP_SV39 : Z := Z.shiftl 8 60.
Definition MAKE_SATP (pagetable : Z) : Z := Z.lor SATP_SV39 (Z.shiftr pagetable 12).

(** vm.c; the fences around the write of satp order the hart's own memory
    accesses and have no counterpart in the model. *)
Definition kvminithart : K unit :=
  let! k := get ks_kpgtbl in w_satp (MAKE_SATP k).

(** syscall.h *)
Inductive sysno :=
  | SYS_fork | SYS_exit | SYS_wait | SYS_pipe | SYS_read | SYS_kill | SYS_exec | SYS_fstat
  | SYS_chdir | SYS_dup | SYS_getpid | SYS_sbrk | SYS_sleep | SYS_uptime | SYS_open | SYS_write
  | SYS_mknod | SYS_unlink | SYS_link | SYS_mkdir | SYS_close.
Definition sysnos : list sysno :=
  [SYS_fork; SYS_exit; SYS_wait; SYS_pipe; SYS_read; SYS_kill; SYS_exec; SYS_fstat;
   SYS_chdir; SYS_dup; SYS_getpid; SYS_sbrk; SYS_sleep; SYS_uptime; SYS_open; SYS_write;
   SYS_mknod; SYS_unlink; SYS_link; SYS_mkdir; SYS_close].
Definition sysnum (n : sysno) : Z :=
  match n with
  | SYS_fork => 1 | SYS_exit => 2 | SYS_wait => 3 | SYS_pipe => 4 | SYS_read => 5 | SYS_kill => 6
  | SYS_exec => 7 | SYS_fstat => 8 | SYS_chdir => 9 | SYS_dup => 10 | SYS_getpid => 11 | SYS_sbrk => 12
  | SYS_sleep => 13 | SYS_uptime => 14 | SYS_open => 15 | SYS_write => 16 | SYS_mknod => 17
  | SYS_unlink => 18 | SYS_link => 19 | SYS_mkdir => 20 | SYS_close => 21
  end.

Section Code.
Context `{Fuel, BlockDevice, KernelImage, Uart, Virtio, Plic, TrapVectors}.

(** ** sysproc.c *)

Definition sys_exit : K Z :=
  let! n := argint 0 in
  exit n ;;
  ret 0.

Definition sys_getpid : K Z :=
  let! p := cur_proc in
  let! pr := proc_of p in
  ret (p_pid pr).

Definition sys_fork : K Z := fork.

Definition sys_wait : K Z :=
  let! p := argaddr 0 in
  wait p.

Definition sys_sbrk : K Z :=
  let! n := argint 0 in
  let! p := cur_proc in
  let! pr := proc_of p in
  let addr := p_sz pr in
  let! r := growproc n in
  if r <? 0 then ret (-1) else ret addr.

(** [ticks - ticks0 < n]: the operands are converted to unsigned int. *)
Definition sys_sleep_wait (n ticks0 : Z) (_ : unit) : K (unit + Z) :=
  let! t := get ks_ticks in
  if u32 (t - ticks0) <? u32 n then
    let! p := cur_proc in
    let! k := killed p in
    if negb (k =? 0) then release L_ticks ;; ret (inr (-1))
    else sleep Ch_ticks L_ticks ;; ret (inl tt)
  else release L_ticks ;; ret (inr 0).

Definition sys_sleep : K Z :=
  let! n := argint 0 in
  acquire L_ticks ;;
  let! ticks0 := get ks_ticks in
  loop fuel (sys_sleep_wait n ticks0) tt.

Definition sys_kill : K Z :=
  let! pid := argint 0 in
  kill pid.

Definition sys_uptime : K Z :=
  acquire L_ticks ;;
  let! xticks := get ks_ticks in
  release L_ticks ;;
  ret xticks.

(** ** syscall.c *)

Definition handler (n : sysno) : K Z :=
  match n with
  | SYS_fork => sys_fork
  | SYS_exit => sys_exit
  | SYS_wait => sys_wait
  | SYS_pipe => sys_pipe
  | SYS_read => sys_read
  | SYS_kill => sys_kill
  | SYS_exec => sys_exec
  | SYS_fstat => sys_fstat
  | SYS_chdir => sys_chdir
  | SYS_dup => sys_dup
  | SYS_getpid => sys_getpid
  | SYS_sbrk => sys_sbrk
  | SYS_sleep => sys_sleep
  | SYS_uptime => sys_uptime
  | SYS_open => sys_open
  | SYS_write => sys_write
  | SYS_mknod => sys_mknod
  | SYS_unlink => sys_unlink
  | SYS_link => sys_link
  | SYS_mkdir => sys_mkdir
  | SYS_close => sys_close
  end.

(** [syscalls]: entry 0 is null. *)
Definition syscalls : list (option (K Z)) := None :: ((fun n => Some (handler n)) <$> sysnos).

Definition syscall : K unit :=
  let! p := cur_proc in
  let! pr := proc_of p in
  let! tf := tf_of (p_trapframe pr) in
  let num := i32 (tf_a7 tf) in
  let f := if (0 <? num) && (num <? Z.of_nat (length syscalls)) then
             mjoin (syscalls !! Z.to_nat num) else None in
  match f with
  | Some f =>
    let! r := f in
    let! pr := proc_of p in
    set_tf (p_trapframe pr) (fun t => t <| tf_a0 := u64 r |>)
  | None =>
    printf (str "%d %s: unknown sys call %d" ++ newline)
      [A_int (p_pid pr); A_str (Some (p_name pr)); A_int num] ;;
    set_tf (p_trapframe pr) (fun t => t <| tf_a0 := u64 (-1) |>)
  end.

(** ** trap.c *)

Definition trapinit : K unit := initlock L_ticks "time".

Definition trapinithart : K unit := w_stvec kernelvec.

Definition clockintr : K unit :=
  acquire L_ticks ;;
  modify (fun s => s <| ks_ticks := u32 (ks_ticks s + 1) |>) ;;
  wakeup Ch_ticks ;;
  release L_ticks.

(** 2 for a timer interrupt, 1 for another device, 0 if not recognized. *)
Definition devintr : K Z :=
  let! c := csr_of in
  let scause := r_scause c in
  if negb (Z.land scause 0x8000000000000000 =? 0) && (Z.land scause 0xff =? 9) then
    let! irq := plic_claim in
    (if irq =? UART0_IRQ then uartintr
     else if irq =? VIRTIO0_IRQ then virtio_disk_intr
     else when (negb (irq =? 0)) (printf (str "unexpected interrupt irq=%d" ++ newline) [A_int irq])) ;;
    when (negb (irq =? 0)) (plic_complete irq) ;;
    ret 1
  else if scause =? 0x8000000000000001 then
    let! id := cpuid in
    when (id =? 0)%nat clockintr ;;
    let! c := csr_of in
    w_sip (Z.land (r_sip c) (u64 (Z.lnot 2))) ;;
    ret 2
  else ret 0.

(** The jump to userret and its argument. *)
Definition usertrapret : K (Z * Z) :=
  let! p := cur_proc in
  intr_off ;;
  w_stvec (TRAMPOLINE + uservec_off) ;;
  let! pr := proc_of p in
  let tf := p_trapframe pr in
  let! c := csr_of in
  set_tf tf (fun t => t <| tf_kernel_satp := r_satp c |>) ;;
  set_tf tf (fun t => t <| tf_kernel_sp := u64 (p_kstack pr + PGSIZE) |>) ;;
  set_tf tf (fun t => t <| tf_kernel_trap := usertrap_addr |>) ;;
  let! tp := cpuid in
  set_tf tf (fun t => t <| tf_kernel_hartid := Z.of_nat tp |>) ;;
  let! x := r_sstatus in
  let x := Z.land x (u64 (Z.lnot SSTATUS_SPP)) in
  let x := Z.lor x SSTATUS_SPIE in
  w_sstatus x ;;
  let! t := tf_of tf in
  w_sepc (tf_epc t) ;;
  let satp := MAKE_SATP (p_pagetable pr) in
  ret (TRAMPOLINE + userret_off, satp).

Definition usertrap : K (Z * Z) :=
  let! st := r_sstatus in
  if negb (Z.land st SSTATUS_SPP =? 0) then panic "usertrap: not from user mode" else
  w_stvec kernelvec ;;
  let! p := cur_proc in
  let! pr := proc_of p in
  let! c := csr_of in
  set_tf (p_trapframe pr) (fun t => t <| tf_epc := r_sepc c |>) ;;
  let! which_dev :=
    (if r_scause c =? 8 then
       let! k := killed p in
       when (negb (k =? 0)) (exit (-1)) ;;
       set_tf (p_trapframe pr) (fun t => t <| tf_epc := u64 (tf_epc t + 4) |>) ;;
       intr_on ;;
       syscall ;;
       ret 0
     else
       let! which_dev := devintr in
       if negb (which_dev =? 0) then ret which_dev else
       printf (str "usertrap(): unexpected scause %p pid=%d" ++ newline)
         [A_u64 (r_scause c); A_int (p_pid pr)] ;;
       let! c := csr_of in
       printf (str "            sepc=%p stval=%p" ++ newline) [A_u64 (r_sepc c); A_u64 (r_stval c)] ;;
       setkilled p ;;
       ret 0) in
  let! k := killed p in
  when (negb (k =? 0)) (exit (-1)) ;;
  when (which_dev =? 2) yield ;;
  usertrapret.

Definition kerneltrap : K unit :=
  let! c := csr_of in
  let sepc := r_sepc c in
  let! sstatus := r_sstatus in
  let scause := r_scause c in
  if Z.land sstatus SSTATUS_SPP =? 0 then panic "kerneltrap: not from supervisor mode" else
  let! on := intr_get in
  if on : bool then panic "kerneltrap: interrupts enabled" else
  let! which_dev := devintr in
  if which_dev =? 0 then
    printf (str "scause %p" ++ newline) [A_u64 scause] ;;
    let! c := csr_of in
    printf (str "sepc=%p stval=%p" ++ newline) [A_u64 (r_sepc c); A_u64 (r_stval c)] ;;
    panic "kerneltrap"
  else
  when (which_dev =? 2)
    (let! me := myproc in
     match me with
     | Some p => let! pr := proc_of p in when (bool_decide (p_state pr = RUNNING)) yield
     | None => ret tt
     end) ;;
  w_sepc sepc ;;
  w_sstatus sstatus.

(** ** proc.c *)

Definition forkret : K (Z * Z) :=
  let! p := cur_proc in
  release (L_proc p) ;;
  let! first := get ks_first in
  when first
    (modify (fun s => s <| ks_first := false |>) ;;
     fsinit ROOTDEV) ;;
  usertrapret.
End Code.
