(* ===== verification/TrapSpec.v ===== *)
(** * The path of a system call (trap.c, syscall.c): from the trap out of user
    space, through the dispatch, back to user space. *)

From S2P Require Import Prelude Defs KMonad Lock Mem Kalloc Sched Sleeplock Bio Machine Log Vm VmWitness Pipe Uart Fs Console File Proc Exec Sysfile Virtio Trap.

(** ** Entering a section with a stale [intena]

    intr_on() leaves [intena] of the cpu as it was; the next outermost
    push_off() records the flag. *)
Definition outermost (s : kstate) : Prop :=
  match ks_cpus s !! ks_tp s with Some c => c_noff c = 0 | None => False end.

Lemma hart_ok_refreshed s : outermost s -> hart_ok (resumed (ks_sie s) s).
Proof.
  unfold outermost, hart_ok, cpu_consistent. intros Hc. cbn. rewrite list_lookup_alter_eq.
  destruct (ks_cpus s !! ks_tp s) as [c|]; [|done]. cbn. by rewrite decide_True.
Qed.

Lemma push_off_stale s : outermost s -> push_off s = push_off (resumed (ks_sie s) s).
Proof.
  intros Hc. pose proof (hart_ok_refreshed s Hc) as Hr. rewrite (push_off_ok _ Hr).
  unfold outermost in Hc. destruct (ks_cpus s !! ks_tp s) as [c|] eqn:E; [|done].
  lock_unfold. rewrite E. cbn. rewrite Hc. cbn. rewrite E. cbn. rewrite list_lookup_alter_eq, E. cbn.
  reflexivity.
Qed.

Lemma cur_resumed sie s : cur (resumed sie s) = cur s.
Proof. unfold cur. cbn. rewrite list_lookup_alter_eq. by destruct (ks_cpus s !! ks_tp s). Qed.

Lemma cur_proc_stale s p : outermost s -> cur s = Some p -> cur_proc s = Done p (resumed (ks_sie s) s).
Proof.
  intros Hc Hp. rewrite <- (cur_proc_ok (resumed (ks_sie s) s) p); [|by apply hart_ok_refreshed|by rewrite cur_resumed].
  unfold cur_proc, myproc. unfold kbind at 1 2 4 5. by rewrite push_off_stale.
Qed.

(** ** Running processes and their trap frames *)

Lemma tf_of_ok s a t : ks_tframes s !! a = Some t -> tf_of a s = Done t s.
Proof. intros Ht. unfold tf_of. rewrite kbind_get. by rewrite Ht. Qed.
Lemma set_tf_ok s a t f :
  ks_tframes s !! a = Some t -> set_tf a f s = Done tt (s <| ks_tframes ::= alter f a |>).
Proof. intros Ht. unfold set_tf. by kstep tf_of_ok. Qed.

(** Process [p] runs on this hart, alive and holding no lock, with the trap
    frame [tf]. *)
Record running (s : kstate) (p : nat) (pr : proc) (tf : trapframe) : Prop := mk_running {
  rn_hart : hart_ok s;
  rn_outer : outermost s;
  rn_cur : cur s = Some p;
  rn_proc : ks_proc s !! p = Some pr;
  rn_alive : p_killed pr = 0;
  rn_lock : lock_free (L_proc p) s;
  rn_tf : ks_tframes s !! p_trapframe pr = Some tf
}.

(** Fields the trap path changes without touching the process. *)
Lemma running_csr s p pr tf f : running s p pr tf -> running (s <| ks_csr ::= f |>) p pr tf.
Proof. by intros []. Qed.
Lemma running_tf s p pr tf f :
  running s p pr tf -> running (s <| ks_tframes ::= alter f (p_trapframe pr) |>) p pr (f tf).
Proof. intros []. split; try done. cbn. by rewrite lookup_alter_eq, rn_tf0. Qed.

Section Specs.
Context `{Fuel, BlockDevice, KernelImage, Uart, Virtio, Plic, TrapVectors}.

(** The trap frame as usertrapret() leaves it for the next trap. *)
Definition kernel_fields (s : kstate) (pr : proc) (t : trapframe) : trapframe :=
  t <| tf_kernel_satp := r_satp (ks_csr s) |> <| tf_kernel_sp := u64 (p_kstack pr + PGSIZE) |>
    <| tf_kernel_trap := usertrap_addr |> <| tf_kernel_hartid := Z.of_nat (ks_tp s) |>.

(** The state in which the hart enters user space at [epc]. *)
Definition to_user (s : kstate) (pr : proc) (epc : Z) : kstate :=
  s <| ks_sie := false |>
    <| ks_csr ::= fun c => c <| r_stvec := TRAMPOLINE + uservec_off |> <| r_spp := false |>
                            <| r_spie := true |> <| r_sepc := epc |> |>
    <| ks_tframes ::= alter (kernel_fields s pr) (p_trapframe pr) |>.

Definition sstatus (spp spie sie : bool) : Z :=
  Z.lor (if spp then SSTATUS_SPP else 0)
    (Z.lor (if spie then SSTATUS_SPIE else 0) (if sie then SSTATUS_SIE else 0)).
Lemma r_sstatus_ok s : r_sstatus s = Done (sstatus (r_spp (ks_csr s)) (r_spie (ks_csr s)) (ks_sie s)) s.
Proof. reflexivity. Qed.
Lemma sstatus_user (spp spie : bool) :
  let x := Z.lor (Z.land (sstatus spp spie false) (u64 (Z.lnot SSTATUS_SPP))) SSTATUS_SPIE in
  Z.testbit x 8 = false /\ Z.testbit x 5 = true /\ Z.testbit x 1 = false.
Proof. by destruct spp, spie; vm_compute. Qed.
Lemma sstatus_spp spp spie sie : (Z.land (sstatus spp spie sie) SSTATUS_SPP =? 0) = negb spp.
Proof. by destruct spp, spie, sie; vm_compute. Qed.

Lemma usertrapret_run s p pr tf :
  running s p pr tf ->
  usertrapret s = Done (TRAMPOLINE + userret_off, MAKE_SATP (p_pagetable pr)) (to_user s pr (tf_epc tf)).
Proof.
  intros [Hs _ Hc Hp _ _ Ht]. unfold usertrapret. kstep (cur_proc_ok s p); [|done..].
  unfold intr_off, w_stvec, set_csr. rewrite !kbind_modify. kstep proc_of_ok; [|done].
  unfold csr_of. rewrite kbind_get.
  kstep set_tf_ok; [|done]. kstep set_tf_ok; [|cbn; by rewrite lookup_alter_eq, Ht].
  kstep set_tf_ok; [|cbn; by rewrite !lookup_alter_eq, Ht]. unfold cpuid. rewrite kbind_get.
  kstep set_tf_ok; [|cbn; by rewrite !lookup_alter_eq, Ht].
  kstep r_sstatus_ok. cbn [ks_sie ks_csr upd set_ks_csr set_ks_sie set_ks_tframes r_spp r_spie set_r_stvec].
  destruct (sstatus_user (r_spp (ks_csr s)) (r_spie (ks_csr s))) as (B8 & B5 & B1).
  unfold w_sstatus, set_csr. erewrite kbind_assoc_done by reflexivity. rewrite kbind_modify, B8, B5, B1.
  kstep tf_of_ok; [|cbn; by rewrite !lookup_alter_eq, Ht]. unfold w_sepc, set_csr. rewrite kbind_modify.
  unfold ret. apply f_equal. unfold to_user. kstate_eq.
  apply map_eq. intros j. destruct (decide (p_trapframe pr = j)) as [<-|Hne].
  - by rewrite !lookup_alter_eq, Ht.
  - by rewrite !lookup_alter_ne.
Qed.

Lemma length_syscalls : length syscalls = 22%nat.
Proof. reflexivity. Qed.
Lemma syscalls_lt n x : syscalls !! n = Some x -> (n < 22)%nat.
Proof. intros Hn%lookup_lt_Some. exact Hn. Qed.

Lemma syscalls_handler n (f : K Z) :
  syscalls !! n = Some (Some f) -> exists no, sysnos !! pred n = Some no /\ f = handler no.
Proof.
  destruct n as [|n]; [done|]. intros Hn. change (((fun k => Some (handler k)) <$> sysnos) !! n = Some (Some f)) in Hn.
  rewrite list_lookup_fmap in Hn. cbn [pred].
  destruct (sysnos !! n) as [no|]; [|done]. injection Hn as <-. by exists no.
Qed.
#[local] Opaque syscalls handler.

(** syscall() with the handler of the requested number. *)
Lemma syscall_run s p pr tf (f : K Z) r s2 pr2 tf2 :
  outermost s -> cur s = Some p -> ks_proc s !! p = Some pr -> ks_tframes s !! p_trapframe pr = Some tf ->
  0 < i32 (tf_a7 tf) -> syscalls !! Z.to_nat (i32 (tf_a7 tf)) = Some (Some f) ->
  f (resumed (ks_sie s) s) = Done r s2 ->
  running s2 p pr2 tf2 ->
  syscall s = Done tt (s2 <| ks_tframes ::= alter (fun t => t <| tf_a0 := u64 r |>) (p_trapframe pr2) |>).
Proof.
  intros Hc Hp Hpr Ht Hpos Hf Er [_ _ _ Hpr2 _ _ Ht2]. unfold syscall. kstep (cur_proc_stale s p); [|done..].
  kstep proc_of_ok; [|done]. kstep tf_of_ok; [|done]. cbv zeta.
  pose proof (syscalls_lt _ _ Hf) as Hlt. rewrite length_syscalls.
  rewrite (proj2 (Z.ltb_lt 0 _)), (proj2 (Z.ltb_lt (i32 (tf_a7 tf)) (Z.of_nat 22))) by lia. cbn [andb]. rewrite Hf. cbn [mjoin option_join].
  kstep Er. kstep proc_of_ok; [|done]. by erewrite set_tf_ok.
Qed.

(** The state in which the handler of a system call runs: the trap vector is
    the kernel's, the saved pc is past the ecall, interrupts are on. *)
Definition in_syscall (s : kstate) (pr : proc) : kstate :=
  resumed true (s <| ks_csr ::= fun c => c <| r_stvec := kernelvec |> |>
    <| ks_tframes ::= alter (fun t => t <| tf_epc := u64 (r_sepc (ks_csr s) + 4) |>) (p_trapframe pr) |>
    <| ks_sie := true |>).

(** C7: a system call from user space.  When a process traps with an
    ecall and the number in a7 names a handler that returns [r], the handler
    runs with the kernel's trap vector installed, interrupts on and the saved
    pc past the ecall; then the process continues in user mode at the pc its
    trap frame holds, with a0 = [r], interrupts on after sret, its own page
    table, the trap vector in the trampoline page, and the kernel's entry
    values stored for the next trap.  A number outside the table cannot reach
    a handler. *)
Theorem usertrap_syscall s p pr tf (f : K Z) r s2 pr2 tf2 :
  running s p pr tf -> r_spp (ks_csr s) = false -> r_scause (ks_csr s) = 8 ->
  0 < i32 (tf_a7 tf) -> syscalls !! Z.to_nat (i32 (tf_a7 tf)) = Some (Some f) ->
  f (in_syscall s pr) = Done r s2 -> running s2 p pr2 tf2 ->
  (exists no, sysnos !! pred (Z.to_nat (i32 (tf_a7 tf))) = Some no /\ f = handler no) /\
  exists s', usertrap s = Done (TRAMPOLINE + userret_off, MAKE_SATP (p_pagetable pr2)) s' /\
    ks_sie s' = false /\
    ks_csr s' = (ks_csr s2) <| r_stvec := TRAMPOLINE + uservec_off |> <| r_spp := false |>
                            <| r_spie := true |> <| r_sepc := tf_epc tf2 |> /\
    ks_tframes s' !! p_trapframe pr2 = Some (kernel_fields s2 pr2 (tf2 <| tf_a0 := u64 r |>)) /\
    ks_proc s' = ks_proc s2 /\ ks_mem s' = ks_mem s2.
Proof.
  intros Hrun Hspp Hcause Hpos Hf Er Hrun2. split; [by apply syscalls_handler|].
  pose proof Hrun as [Hs Ho Hc Hpr Hk Hl Ht]. unfold usertrap. kstep r_sstatus_ok.
  rewrite sstatus_spp, Hspp. cbn [negb]. unfold w_stvec, set_csr. rewrite kbind_modify.
  kstep (cur_proc_ok _ p); [|done..]. kstep proc_of_ok; [|done]. unfold csr_of. rewrite kbind_get.
  kstep set_tf_ok; [|done].
  change (r_scause (ks_csr _)) with (r_scause (ks_csr s)). rewrite Hcause. cbn [Z.eqb Pos.eqb].
  match goal with |- context [kbind ?inner _ ?st] =>
    assert (inner st = Done 0 (s2 <| ks_tframes ::= alter (fun t => t <| tf_a0 := u64 r |>) (p_trapframe pr2) |>)) as Ein end.
  { kstep killed_ok; [|done..]. rewrite Hk. cbn [Z.eqb negb when]. rewrite kbind_ret.
    kstep set_tf_ok; [|cbn; by rewrite lookup_alter_eq, Ht]. unfold intr_on. rewrite kbind_modify.
    kstep (syscall_run _ p pr (tf <| tf_epc := u64 (r_sepc (ks_csr s) + 4) |>) f r s2 pr2 tf2); [done|..]; try done.
    - cbn. by rewrite !lookup_alter_eq, Ht.
    - rewrite <- Er. f_equal. unfold in_syscall. kstate_eq. apply map_eq. intros j.
      destruct (decide (p_trapframe pr = j)) as [<-|Hne]; [by rewrite !lookup_alter_eq, Ht|by rewrite !lookup_alter_ne]. }
  kstep Ein. clear Ein. pose proof (running_tf _ _ _ _ (fun t => t <| tf_a0 := u64 r |>) Hrun2) as Hrun3.
  kstep killed_ok; [|apply Hrun3|apply Hrun3|apply Hrun3]. rewrite (rn_alive _ _ _ _ Hrun3). cbn [Z.eqb negb when].
  rewrite !kbind_ret. rewrite (usertrapret_run _ _ _ _ Hrun3). eexists. split_and!; try reflexivity.
  cbn. by rewrite !lookup_alter_eq, (rn_tf _ _ _ _ Hrun2).
Qed.

(** The handler starts with the process running. *)
Lemma running_in_syscall s p pr tf :
  running s p pr tf -> running (in_syscall s pr) p pr (tf <| tf_epc := u64 (r_sepc (ks_csr s) + 4) |>).
Proof.
  intros [Hs Ho Hc Hp Hk Hl Ht]. split; try done.
  - unfold outermost in Ho. destruct (ks_cpus s !! ks_tp s) as [c|] eqn:E; [|done]. by apply (hart_ok_resumed _ _ c).
  - unfold outermost in *. cbn. rewrite list_lookup_alter_eq. by destruct (ks_cpus s !! ks_tp s).
  - rewrite <- Hc. apply (cur_resumed true s).
  - cbn. by rewrite lookup_alter_eq, Ht.
Qed.

Lemma sys_getpid_run s p pr tf : running s p pr tf -> sys_getpid s = Done (p_pid pr) s.
Proof.
  intros [Hs _ Hc Hp _ _ _]. unfold sys_getpid. kstep (cur_proc_ok s p); [|done..]. by kstep proc_of_ok.
Qed.
End Specs.

(** ** At a concrete machine: process 0 calls getpid(), system call 11. *)

#[local] Instance no_virtio : Virtio := {| vread := fun _ => ret 0; vwrite := fun _ _ => ret tt |}.
#[local] Instance no_plic : Plic := {| plic_read := fun _ => ret 0; plic_write := fun _ _ => ret tt |}.
#[local] Instance vectors : TrapVectors := {| kernelvec := 0x80005000; uservec_off := 0; userret_off := 0x9c |}.

Definition getpid_frame : trapframe :=
  mk_trapframe 0 0 0 0x1000 0 1 2 3 4 5 6 7 8 9 10 11 12 13 14 15 16 11 18 19 20 21 22 23 24 25 26 27 28 29 30 31.
Definition frame_page : Z := 0x87000000.
Definition trapped : kstate :=
  machine <| ks_sie := false |> <| ks_cpus ::= <[0%nat := mk_cpu (Some 0%nat) 0 0]> |>
    <| ks_proc ::= alter (fun x => x <| p_trapframe := frame_page |>) 0%nat |>
    <| ks_tframes := {[frame_page := getpid_frame]} |>
    <| ks_csr := mk_csrst 8 0x1000 false false 0 0 0 0 |>.
Definition caller : proc := zero_proc <| p_state := RUNNING |> <| p_pid := 1 |> <| p_trapframe := frame_page |>.

Lemma trapped_running : running trapped 0 caller getpid_frame.
Proof.
  split; [by vm_compute|by vm_compute|reflexivity|reflexivity|reflexivity| |apply lookup_singleton_eq].
  change (lock_free (L_proc 0) machine). by apply machine_lock_free.
Qed.

Lemma usertrap_syscall_witness :
  exists s', usertrap trapped = Done (TRAMPOLINE + 0x9c, MAKE_SATP 0) s' /\ r_sepc (ks_csr s') = 0x1004 /\
    exists t, ks_tframes s' !! frame_page = Some t /\ tf_a0 t = 1.
Proof.
  pose proof (running_in_syscall _ _ _ _ trapped_running) as Hr.
  destruct (usertrap_syscall trapped 0 caller getpid_frame sys_getpid 1 _ _ _ trapped_running eq_refl eq_refl
    ltac:(reflexivity) ltac:(reflexivity) (sys_getpid_run _ _ _ _ Hr) Hr) as (_ & s' & E & _ & Ec & Et & _).
  exists s'. split; [exact E|]. split; [by rewrite Ec|]. eexists. split; [exact Et|reflexivity].
Defined.
