(* ===== verification/Boot.v ===== *)
(** * Booting (start.c, main.c).

    start() runs in machine mode, before the kernel's state exists: its
    registers are a record of their own.  main() initialises the kernel and
    enters the scheduler. *)

From S2P Require Import Prelude Defs KMonad Lock Mem Kalloc Sched Sleeplock Bio Log Vm Pipe Uart Fs Console File Proc Exec Sysfile Virtio Trap.

(** ** start.c *)

(** The machine-mode registers start() writes, the timer it programs and its
    row of [timer_scratch]. *)
Record mregs := mk_mregs {
  m_mhartid : Z;
  m_mstatus : Z;
  m_mepc : Z;
  m_satp : Z;
  m_medeleg : Z;
  m_mideleg : Z;
  m_sie : Z;
  m_pmpaddr0 : Z;
  m_pmpcfg0 : Z;
  m_mscratch : Z;
  m_mtvec : Z;
  m_mie : Z;
  m_tp : Z;
  m_mtime : Z;  (* CLINT_MTIME *)
  m_mtimecmp : Z;  (* CLINT_MTIMECMP of this hart *)
  m_scratch : list Z
}.
#[global] Instance eta_mregs : Eta mregs := fun s =>
  mk_mregs (m_mhartid s) (m_mstatus s) (m_mepc s) (m_satp s) (m_medeleg s) (m_mideleg s)
    (m_sie s) (m_pmpaddr0 s) (m_pmpcfg0 s) (m_mscratch s) (m_mtvec s) (m_mie s) (m_tp s)
    (m_mtime s) (m_mtimecmp s) (m_scratch s).
#[global] Instance set_m_mstatus : Field m_mstatus := ltac:(derive_field m_mstatus).
#[global] Instance set_m_mepc : Field m_mepc := ltac:(derive_field m_mepc).
#[global] Instance set_m_satp : Field m_satp := ltac:(derive_field m_satp).
#[global] Instance set_m_medeleg : Field m_medeleg := ltac:(derive_field m_medeleg).
#[global] Instance set_m_mideleg : Field m_mideleg := ltac:(derive_field m_mideleg).
#[global] Instance set_m_sie : Field m_sie := ltac:(derive_field m_sie).
#[global] Instance set_m_pmpaddr0 : Field m_pmpaddr0 := ltac:(derive_field m_pmpaddr0).
#[global] Instance set_m_pmpcfg0 : Field m_pmpcfg0 := ltac:(derive_field m_pmpcfg0).
#[global] Instance set_m_mscratch : Field m_mscratch := ltac:(derive_field m_mscratch).
#[global] Instance set_m_mtvec : Field m_mtvec := ltac:(derive_field m_mtvec).
#[global] Instance set_m_mie : Field m_mie := ltac:(derive_field m_mie).
#[global] Instance set_m_tp : Field m_tp := ltac:(derive_field m_tp).
#[global] Instance set_m_mtimecmp : Field m_mtimecmp := ltac:(derive_field m_mtimecmp).
#[global] Instance set_m_scratch : Field m_scratch := ltac:(derive_field m_scratch).

(** Where the linker puts main, timervec and timer_scratch. *)
Class BootImage := { main_addr : Z; timervec_addr : Z; timer_scratch : Z }.

Definition MSTATUS_MPP_MASK : Z := Z.shiftl 3 11.
Definition MSTATUS_MPP_S : Z := Z.shiftl 1 11.
Definition MSTATUS_MIE : Z := Z.shiftl 1 3.
Definition SIE_SEIE : Z := Z.shiftl 1 9.
Definition SIE_STIE : Z := Z.shiftl 1 5.
Definition SIE_SSIE : Z := Z.shiftl 1 1.
Definition MIE_MTIE : Z := Z.shiftl 1 7.
Definition CLINT : Z := 0x2000000.
Definition CLINT_MTIMECMP (hartid : Z) : Z := CLINT + 0x4000 + 8 * hartid.

Section Start.
Context `{BootImage}.

Definition timerinit (m : mregs) : mregs :=
  let id := i32 (m_mhartid m) in
  let interval := 1000000 in
  let m := m <| m_mtimecmp := u64 (m_mtime m + interval) |> in
  let m := m <| m_scratch ::= <[3%nat := CLINT_MTIMECMP id]> |> in
  let m := m <| m_scratch ::= <[4%nat := interval]> |> in
  let m := m <| m_mscratch := u64 (timer_scratch + id * (5 * 8)) |> in
  let m := m <| m_mtvec := timervec_addr |> in
  let m := m <| m_mstatus := Z.lor (m_mstatus m) MSTATUS_MIE |> in
  m <| m_mie := Z.lor (m_mie m) MIE_MTIE |>.

(** The registers when mret leaves for main(). *)
Definition start (m : mregs) : mregs :=
  let x := m_mstatus m in
  let x := Z.land x (u64 (Z.lnot MSTATUS_MPP_MASK)) in
  let x := Z.lor x MSTATUS_MPP_S in
  let m := m <| m_mstatus := x |> in
  let m := m <| m_mepc := main_addr |> in
  let m := m <| m_satp := 0 |> in
  let m := m <| m_medeleg := 0xffff |> in
  let m := m <| m_mideleg := 0xffff |> in
  let m := m <| m_sie := Z.lor (Z.lor (Z.lor (m_sie m) SIE_SEIE) SIE_STIE) SIE_SSIE |> in
  let m := m <| m_pmpaddr0 := 0x3fffffffffffff |> in
  let m := m <| m_pmpcfg0 := 0xf |> in
  let m := timerinit m in
  let id := i32 (m_mhartid m) in
  m <| m_tp := u64 id |>.
End Start.

(** ** main.c *)

Section Main.
Context `{Fuel, BlockDevice, KernelImage, Uart, Virtio, Plic, TrapVectors}.

(** [rounds] bounds the scheduler's endless loop. *)
Definition main (rounds : nat) : K unit :=
  let! id := cpuid in
  (if (id =? 0)%nat then
     consoleinit ;;
     printfinit ;;
     printf newline [] ;;
     printf (str "xv6 kernel is booting" ++ newline) [] ;;
     printf newline [] ;;
     kinit ;;
     kvminit ;;
     kvminithart ;;
     procinit ;;
     trapinit ;;
     trapinithart ;;
     plicinit ;;
     plicinithart ;;
     binit ;;
     iinit ;;
     fileinit ;;
     virtio_disk_init ;;
     userinit ;;
     modify (fun s => s <| ks_started := 1 |>)
   else
     loop fuel (fun _ =>
       let! st := get ks_started in
       if st =? 0 then yield_to Started ;; ret (inl tt) else ret (inr tt)) tt ;;
     printf (str "hart %d starting" ++ newline) [A_int (Z.of_nat id)] ;;
     kvminithart ;;
     trapinithart ;;
     plicinithart) ;;
  scheduler rounds.
End Main.
