(* ===== verification/Grep.v ===== *)
(** * grep (user/grep.c).

    A C string is the list of its characters before the NUL, so [[]] is a
    pointer to the NUL and the tail of a list is the pointer plus one.  read()
    is the interface [Stream]: what a file descriptor still has to deliver and
    how a read takes some of it. *)

From S2P Require Import Prelude.

Definition ch_newline : Z := 10.
Definition ch_dollar : Z := 36.
Definition ch_star : Z := 42.
Definition ch_dot : Z := 46.
Definition ch_caret : Z := 94.

(** ** The matcher *)

(** The loop of matchstar(), given matchhere() at the rest of the pattern. *)
Fixpoint matchstar_loop (here : list Z -> bool) (c : Z) (text : list Z) : bool :=
  if here text then true else
  match text with
  | [] => false
  | x :: text' => if (x =? c) || (c =? ch_dot) then matchstar_loop here c text' else false
  end.

Fixpoint matchhere (re text : list Z) : bool :=
  match re with
  | [] => true
  | c :: re' =>
    match re' with
    | s :: re'' =>
      if s =? ch_star then matchstar_loop (matchhere re'') c text else
      match text with
      | x :: text' => if (c =? ch_dot) || (c =? x) then matchhere re' text' else false
      | [] => false
      end
    | [] =>
      if c =? ch_dollar then bool_decide (text = []) else
      match text with
      | x :: text' => if (c =? ch_dot) || (c =? x) then matchhere re' text' else false
      | [] => false
      end
    end
  end.

Definition matchstar (c : Z) (re text : list Z) : bool := matchstar_loop (matchhere re) c text.

Fixpoint match_loop (re text : list Z) : bool :=
  if matchhere re text then true else
  match text with [] => false | _ :: text' => match_loop re text' end.

Definition match_ (re text : list Z) : bool :=
  match re with
  | c :: re' => if c =? ch_caret then matchhere re' text else match_loop re text
  | [] => match_loop re text
  end.

(** ** The filter *)

(** strchr(): the text before the first [c] and the text from it on. *)
Fixpoint strchr (c : Z) (s : list Z) : option (list Z * list Z) :=
  match s with
  | [] => None
  | x :: s' =>
    if x =? 0 then None else
    if x =? c then Some ([], s) else
    match strchr c s' with Some (l, r) => Some (x :: l, r) | None => None end
  end.

(** What a descriptor still delivers, and a read() of at most [n] bytes:
    it takes a prefix, and takes nothing only at the end or when asked for
    nothing. *)
Class Stream (W : Type) := {
  content : W -> list Z;
  read : W -> nat -> list Z * W;
  read_takes w n : content w = fst (read w n) ++ content (snd (read w n));
  read_bound w n : (length (fst (read w n)) <= n)%nat;
  read_end w n : fst (read w n) = [] -> n = 0%nat \/ content w = []
}.

Definition BUFSZ : nat := 1024.

(** The loop over the lines of the buffer: what stays in it, and the output.
    A line is shorter than the text it starts, so [length p] rounds do. *)
Fixpoint grep_lines (n : nat) (pattern p out : list Z) : list Z * list Z :=
  match n with
  | O => (p, out)
  | S n =>
    match strchr ch_newline p with
    | Some (line, _ :: rest) =>
      grep_lines n pattern rest (if match_ pattern line then out ++ line ++ [ch_newline] else out)
    | _ => (p, out)
    end
  end.

Section Code.
Context {W : Type} `{Stream W}.

(** [buf] holds the [m] bytes kept from the last round. *)
Fixpoint grep (n : nat) (pattern : list Z) (w : W) (buf out : list Z) : option (list Z * W) :=
  match n with
  | O => None
  | S n =>
    let m := length buf in
    let (got, w) := read w (BUFSZ - m - 1) in
    match got with
    | [] => Some (out, w)
    | _ =>
      let buf := buf ++ got in
      let (buf, out) := grep_lines (length buf) pattern buf out in
      grep n pattern w buf out
    end
  end.
End Code.

(** ** Specifications *)

(** The meaning of a pattern: [here re t] when a prefix of [t] matches [re]. *)
Definition fits (c x : Z) : Prop := c = ch_dot \/ c = x.
#[global] Instance fits_dec c x : Decision (fits c x).
Proof. unfold fits. solve_decision. Defined.

Inductive here : list Z -> list Z -> Prop :=
  | here_nil t : here [] t
  | here_star c re u t : Forall (fits c) u -> here re t -> here (c :: ch_star :: re) (u ++ t)
  | here_end : here [ch_dollar] []
  | here_char c re x t :
      head re <> Some ch_star -> ~ (c = ch_dollar /\ re = []) -> fits c x -> here re t ->
      here (c :: re) (x :: t).

(** A leading ^ anchors the match at the start, otherwise it may start anywhere. *)
Definition matches (re text : list Z) : Prop :=
  match re with
  | c :: re' =>
    if decide (c = ch_caret) then here re' text else exists u t, text = u ++ t /\ here re t
  | [] => True
  end.

(** The complete lines of a text and what follows the last newline. *)
Fixpoint lines (l : list Z) : list (list Z) * list Z :=
  match l with
  | [] => ([], [])
  | x :: l =>
    let (ls, r) := lines l in
    if decide (x = ch_newline) then ([] :: ls, r) else
    match ls with [] => ([], x :: r) | y :: ls => ((x :: y) :: ls, r) end
  end.

Definition print_lines (ls : list (list Z)) : list Z := mjoin ((fun l => l ++ [ch_newline]) <$> ls).

(** No line, nor the rest of the text, fills the buffer. *)
Definition short_lines (l : list Z) : Prop :=
  Forall (fun x => (length x < BUFSZ - 1)%nat) (fst (lines l)) /\ (length (snd (lines l)) < BUFSZ - 1)%nat.

(** ** The matcher decides the meaning *)

Lemma fits_test c x : (c =? ch_dot) || (c =? x) = bool_decide (fits c x).
Proof.
  apply eq_true_iff_eq. rewrite bool_decide_eq_true, orb_true_iff, !Z.eqb_eq. reflexivity.
Qed.

Lemma matchstar_spec (f : list Z -> bool) c text :
  matchstar_loop f c text = true <-> exists u t, text = u ++ t /\ Forall (fits c) u /\ f t = true.
Proof.
  induction text as [|x text IH]; cbn [matchstar_loop].
  - destruct (f []) eqn:E; split; try done.
    + by exists [], [].
    + intros (u & t & Hu & _ & Ht). destruct u, t; simplify_eq/=; congruence.
  - destruct (f (x :: text)) eqn:E.
    { split; [|done]. by exists [], (x :: text). }
    rewrite orb_comm, (Z.eqb_sym x c), fits_test. case_bool_decide as Hf.
    + rewrite IH. split; intros (u & t & Hx & Hu & Ht).
      * subst text. exists (x :: u), t. split_and!; [done|by constructor|done].
      * destruct u as [|y u]; [cbn in Hx; subst t; congruence|].
        simplify_eq/=. apply Forall_cons in Hu as [_ Hu]. by exists u, t.
    + split; [done|]. intros (u & t & Hx & Hu & Ht). destruct u as [|y u]; [cbn in Hx; subst t; congruence|].
      simplify_eq/=. by apply Forall_cons in Hu as [? _].
Qed.

Lemma here_star_inv c re t :
  here (c :: ch_star :: re) t <-> exists u t', t = u ++ t' /\ Forall (fits c) u /\ here re t'.
Proof.
  split.
  - inversion 1; subst; [by eexists _, _|done].
  - intros (u & t' & -> & Hu & Ht). by constructor.
Qed.

Lemma here_char_inv c re t :
  head re <> Some ch_star -> ~ (c = ch_dollar /\ re = []) ->
  here (c :: re) t <-> exists x t', t = x :: t' /\ fits c x /\ here re t'.
Proof.
  intros Hs Hd. split.
  - inversion 1; subst; [done|naive_solver|by eexists _, _].
  - intros (x & t' & -> & Hf & Ht). by constructor.
Qed.

Lemma matchchar_spec c re text :
  (forall t, matchhere re t = true <-> here re t) ->
  head re <> Some ch_star -> ~ (c = ch_dollar /\ re = []) ->
  match text with
  | x :: text' => if (c =? ch_dot) || (c =? x) then matchhere re text' else false
  | [] => false
  end = true <-> here (c :: re) text.
Proof.
  intros IH Hs Hd. rewrite here_char_inv by done. destruct text as [|x t]; [naive_solver|].
  rewrite fits_test. case_bool_decide as Hf; [rewrite IH|]; naive_solver.
Qed.

Lemma matchhere_spec re text : matchhere re text = true <-> here re text.
Proof.
  remember (length re) as n eqn:En. revert re En text.
  induction n as [n IH] using lt_wf_ind. intros re -> text.
  destruct re as [|c re']; [cbn; split; [intros _; constructor|done]|].
  assert (forall t, matchhere re' t = true <-> here re' t) as IH'.
  { intros t. by apply (IH (length re')); [cbn; lia|]. }
  destruct re' as [|s re'']; cbn [matchhere].
  - destruct (Z.eqb_spec c ch_dollar) as [->|Hc].
    + rewrite bool_decide_eq_true. split; [intros ->; constructor|]. inversion 1; subst; naive_solver.
    + apply (matchchar_spec c []); naive_solver.
  - destruct (Z.eqb_spec s ch_star) as [->|Hs].
    + rewrite matchstar_spec, here_star_inv.
      assert (forall t, matchhere re'' t = true <-> here re'' t) as IH''.
      { intros t. by apply (IH (length re'')); [cbn; lia|]. }
      by setoid_rewrite IH''.
    + apply (matchchar_spec c (s :: re'')); naive_solver.
Qed.

Lemma match_loop_spec re text :
  match_loop re text = true <-> exists u t, text = u ++ t /\ here re t.
Proof.
  induction text as [|x text IH]; cbn [match_loop]; destruct (matchhere re _) eqn:E.
  - split; [|done]. exists [], []. split; [done|]. by apply matchhere_spec.
  - split; [done|]. intros (u & t & Hu & Ht). destruct u, t; simplify_eq/=.
    apply matchhere_spec in Ht. congruence.
  - split; [|done]. exists [], (x :: text). split; [done|]. by apply matchhere_spec.
  - rewrite IH. split; intros (u & t & Hu & Ht).
    + exists (x :: u), t. by subst.
    + destruct u as [|y u]; [|simplify_eq/=; by exists u, t].
      cbn in Hu. subst t. apply matchhere_spec in Ht. congruence.
Qed.

Lemma match_spec re text : match_ re text = true <-> matches re text.
Proof.
  destruct re as [|c re]; cbn [match_ matches].
  - split; [done|]. intros _. apply match_loop_spec. exists [], text. split; [done|constructor].
  - case_decide as Hc.
    + subst c. rewrite Z.eqb_refl. apply matchhere_spec.
    + rewrite (proj2 (Z.eqb_neq _ _)) by done. apply match_loop_spec.
Qed.

(** C36: match() decides the meaning of a pattern: c* stands for any
    number of characters that fit c, . fits any character, $ at the end the end
    of the text, and a leading ^ ties the match to its start. *)
Theorem match_correct re text : match_ re text = true <-> matches re text.
Proof. apply match_spec. Qed.

#[global] Instance matches_dec re text : Decision (matches re text).
Proof.
  destruct (match_ re text) eqn:E; [left|right]; rewrite <- match_spec; congruence.
Defined.

(** ** Lines *)

Lemma lines_app a b :
  lines (a ++ b) = (fst (lines a) ++ fst (lines (snd (lines a) ++ b)), snd (lines (snd (lines a) ++ b))).
Proof.
  induction a as [|x a IH]; [cbn; by destruct (lines b)|].
  cbn [lines app]. rewrite IH. destruct (lines a) as [la ra]. cbn [fst snd].
  case_decide as Hx; [done|]. destruct la as [|y la]; cbn [app fst snd].
  - cbn [lines]. destruct (lines (ra ++ b)) as [[|] ?]; by rewrite decide_False by done.
  - done.
Qed.

Lemma strchr_lines p :
  0 ∉ p ->
  match strchr ch_newline p with
  | Some (line, r) => exists rest, r = ch_newline :: rest /\ p = line ++ ch_newline :: rest /\
      lines p = (line :: fst (lines rest), snd (lines rest))
  | None => lines p = ([], p)
  end.
Proof.
  induction p as [|x p IH]; intros H0; [done|]. apply not_elem_of_cons in H0 as [Hx H0].
  specialize (IH H0). cbn [strchr lines]. rewrite (proj2 (Z.eqb_neq _ _)) by done.
  destruct (Z.eqb_spec x ch_newline) as [->|Hn].
  - exists p. split_and!; [done|done|]. by destruct (lines p).
  - destruct (strchr ch_newline p) as [[l r]|].
    + destruct IH as (rest & -> & -> & ->). exists rest. by rewrite decide_False by done.
    + rewrite IH. by rewrite decide_False by done.
Qed.

Definition selected (pattern : list Z) (ls : list (list Z)) : list Z :=
  print_lines (filter (matches pattern) ls).

Lemma selected_cons pattern l ls :
  selected pattern (l :: ls) = (if match_ pattern l then l ++ [ch_newline] else []) ++ selected pattern ls.
Proof.
  unfold selected. rewrite filter_cons. destruct (match_ pattern l) eqn:E.
  - rewrite decide_True by (by apply match_spec). reflexivity.
  - rewrite decide_False; [done|]. rewrite <- match_spec. congruence.
Qed.

Lemma selected_app pattern l1 l2 : selected pattern (l1 ++ l2) = selected pattern l1 ++ selected pattern l2.
Proof. unfold selected, print_lines. by rewrite filter_app, fmap_app, join_app. Qed.

(** A round of the inner loop prints the selected complete lines of the buffer
    and keeps what follows them. *)
Lemma grep_lines_spec n pattern p out :
  0 ∉ p -> (length p <= n)%nat ->
  grep_lines n pattern p out = (snd (lines p), out ++ selected pattern (fst (lines p))).
Proof.
  revert p out. induction n as [|n IH]; intros p out H0 Hn.
  { destruct p; [|cbn in Hn; lia]. cbn. by rewrite app_nil_r. }
  cbn [grep_lines]. pose proof (strchr_lines p H0) as Hl.
  destruct (strchr ch_newline p) as [[line r]|].
  - destruct Hl as (rest & -> & -> & ->). rewrite IH.
    + cbn [fst snd]. rewrite selected_cons. f_equal. destruct (match_ pattern line); cbn [app].
      * by rewrite <- !app_assoc.
      * done.
    + intros Hr. apply H0. apply elem_of_app. right. by apply elem_of_cons; right.
    + rewrite length_app in Hn. cbn in Hn. lia.
  - rewrite Hl. cbn. by rewrite app_nil_r.
Qed.

(** Appending text can only lengthen an unfinished line. *)
Lemma lines_grow r b :
  fst (lines r) = [] -> short_lines (r ++ b) -> (length r < BUFSZ - 1)%nat.
Proof.
  revert b. enough (forall b, fst (lines r) = [] ->
    match lines (r ++ b) with
    | (l :: _, _) => length r <= length l
    | ([], e) => length r <= length e
    end%nat) as Hg.
  { intros b Hr [Hs1 Hs2]. specialize (Hg b Hr). destruct (lines (r ++ b)) as [[|l ls] e]; cbn [fst snd] in *.
    - lia.
    - apply Forall_cons in Hs1 as [Hl _]. lia. }
  induction r as [|x r IH]; intros b Hr.
  { cbn. destruct (lines b) as [[|] ?]; cbn; lia. }
  cbn [lines app] in Hr |- *. specialize (IH b). destruct (lines r) as [lr er].
  destruct (lines (r ++ b)) as [ls e]. case_decide; [done|].
  destruct lr; [|done]. specialize (IH eq_refl). destruct ls; cbn [length]; lia.
Qed.

Lemma lines_rest l : fst (lines (snd (lines l))) = [] /\ snd (lines (snd (lines l))) = snd (lines l).
Proof.
  induction l as [|x l IH]; [done|]. cbn [lines]. destruct (lines l) as [ls r]. cbn [fst snd] in IH.
  case_decide as Hx; [done|]. destruct ls; [|done]. cbn [snd lines].
  destruct (lines r) as [lr rr]. cbn [fst snd] in IH. destruct IH as [-> ->].
  by rewrite decide_False by done.
Qed.

Lemma lines_none l : fst (lines l) = [] -> snd (lines l) = l.
Proof.
  induction l as [|x l IH]; [done|]. cbn [lines]. destruct (lines l) as [ls r]. case_decide; [done|].
  destruct ls; [|done]. cbn in *. intros _. by rewrite IH.
Qed.

Lemma lines_suffix l : exists pre, l = pre ++ snd (lines l).
Proof.
  induction l as [|x l [pre IH]]; [by exists []|]. pose proof (lines_none l) as Hn.
  cbn [lines]. destruct (lines l) as [ls r]. cbn [fst snd] in *.
  case_decide; [exists (x :: pre); by rewrite IH at 1|].
  destruct ls; [|exists (x :: pre); by rewrite IH at 1]. exists []. cbn. by rewrite Hn.
Qed.

Lemma short_rest a b : short_lines (a ++ b) -> short_lines (snd (lines a) ++ b).
Proof.
  unfold short_lines. rewrite lines_app. cbn [fst snd]. intros [H1 H2].
  apply Forall_app in H1 as [_ H1]. done.
Qed.

Section Specs.
Context {W : Type} `{Stream W}.

Lemma grep_loop n pattern w r out :
  fst (lines r) = [] -> 0 ∉ r ++ content w -> short_lines (r ++ content w) ->
  (length (content w) < n)%nat ->
  exists w', grep n pattern w r out
    = Some (out ++ selected pattern (fst (lines (r ++ content w))), w').
Proof.
  revert w r out. induction n as [|n IH]; intros w r out Hr H0 Hs Hn; [lia|].
  cbn [grep]. pose proof (read_takes w (BUFSZ - length r - 1)) as Ht.
  pose proof (read_end w (BUFSZ - length r - 1)) as He.
  destruct (read w (BUFSZ - length r - 1)) as [got w']. cbn [fst snd] in Ht, He.
  pose proof (lines_grow r (content w) Hr Hs) as Hlen.
  destruct got as [|x got].
  - destruct (He eq_refl) as [Hz|Hz]; [lia|]. exists w'. rewrite Hz, app_nil_r, Hr. cbn. by rewrite app_nil_r.
  - rewrite Ht, app_assoc in H0, Hs |- *. rewrite Ht in Hn.
    assert (0 ∉ r ++ x :: got) as H1 by (intros Hin; apply H0, elem_of_app; by left).
    rewrite grep_lines_spec by done. cbv zeta iota beta.
    destruct (IH w' (snd (lines (r ++ x :: got))) (out ++ selected pattern (fst (lines (r ++ x :: got)))))
      as (w2 & E).
    + apply lines_rest.
    + intros Hin. apply H0. destruct (lines_suffix (r ++ x :: got)) as [pre Epre].
      rewrite Epre at 1. rewrite <- app_assoc. apply elem_of_app. by right.
    + by apply short_rest.
    + rewrite length_app in Hn. cbn in Hn. lia.
    + exists w2. rewrite E, (lines_app (r ++ x :: got)). cbn [fst]. by rewrite selected_app, app_assoc.
Qed.

End Specs.

(** A file whose reads return at most [fst w + 1] bytes. *)
#[global] Program Instance small_reads : Stream (nat * list Z) := {
  content w := snd w;
  read w n := (take (Nat.min n (S (fst w))) (snd w), (fst w, drop (Nat.min n (S (fst w))) (snd w)))
}.
Next Obligation. intros [k l] n. cbn. by rewrite take_drop. Qed.
Next Obligation. intros [k l] n. cbn [fst snd]. rewrite length_take. lia. Qed.
Next Obligation.
  intros [k l] n. cbn [fst snd]. destruct n, l; cbn; auto; discriminate.
Qed.

(** The text "ab", "b", "cab" and an unfinished "ab"; the pattern ^.*b$, read two bytes at a time. *)
Definition sample : list Z := [97; 98; 10; 98; 10; 99; 97; 98; 120; 10; 97; 98].
