(* ===== verification/Sh.v ===== *)
(** * The shell's parser (user/sh.c).

    Pointers into the command line are positions, the line's NUL is past its
    last character.  A parsed command refers to the line by the positions of
    its words, as [argv]/[eargv] and [file]/[efile] do; nulterminate() then
    overwrites the end of every word.  execcmd() is filled in while its
    redirections are wrapped around it, so redirections are collected and
    wrapped at the end. *)

From S2P Require Import Prelude Defs Mem Uart FsPath.

(** ** Commands *)

Definition MAXARGS : nat := 10.

Definition word : Type := nat * nat.

Inductive cmd :=
  | EXEC (argv : list word)
  | REDIR (c : cmd) (file : word) (mode fd : Z)
  | PIPE (left right : cmd)
  | LIST (left right : cmd)
  | BACK (c : cmd).

(** The parser's result: a value, the message of panic(), or no more fuel. *)
Inductive res (A : Type) := Ok (a : A) | Fail (msg : string) | NoFuel.
Arguments Ok {A} a.
Arguments Fail {A} msg.
Arguments NoFuel {A}.
Definition rbind {A B} (r : res A) (f : A -> res B) : res B :=
  match r with Ok a => f a | Fail m => Fail m | NoFuel => NoFuel end.
Declare Scope parser_scope.
Delimit Scope parser_scope with P.
Notation "'do' x <- m ; k" := (rbind m (fun x => k))
  (at level 10, x pattern, m at level 100, k at level 200) : parser_scope.
#[local] Open Scope parser_scope.

(** ** Characters *)

Definition whitespace : list Z := [32; 9; 13; 10; 11].
Definition symbols : list Z := str "<|>&;()".

(** [strchr(set, c) != 0] *)
Definition in_set (c : Z) (set : list Z) : bool := negb (c =? 0) && existsb (Z.eqb c) set.
Definition is_ws (c : Z) : bool := in_set c whitespace.
Definition is_word (c : Z) : bool := negb (c =? 0) && negb (in_set c whitespace) && negb (in_set c symbols).

Definition tk_word : Z := 97.  (* 'a' *)
Definition tk_gt : Z := 62.
Definition tk_append : Z := 43.  (* '+' for >> *)
Definition tk_lt : Z := 60.

Section Code.
Context (line : list Z).

Definition es : nat := length line.
Definition char_at (i : nat) : Z := default 0 (line !! i).

(** [while(s < es && p( *s)) s++], with as many rounds as characters left. *)
Fixpoint skip (n : nat) (p : Z -> bool) (s : nat) : nat :=
  match n with
  | O => s
  | S n => if (s <? es)%nat && p (char_at s) then skip n p (S s) else s
  end.
Definition skip_ws (s : nat) : nat := skip (es - s) is_ws s.

(** The token, its word and the position after it. *)
Definition gettoken (s : nat) : Z * word * nat :=
  let s := skip_ws s in
  let q := s in
  let c := char_at s in
  let '(ret, s) :=
    if c =? 0 then (c, s)
    else if in_set c (str "|();&<") then (c, S s)
    else if c =? tk_gt then
      if char_at (S s) =? tk_gt then (tk_append, S (S s)) else (c, S s)
    else (tk_word, skip (es - s) (fun c => negb (is_ws c) && negb (in_set c symbols)) s) in
  (ret, (q, s), skip_ws s).

Definition peek (s : nat) (toks : list Z) : bool * nat :=
  let s := skip_ws s in (in_set (char_at s) toks, s).

Definition redir : Type := word * Z * Z.
Definition wrap (c : cmd) (rs : list redir) : cmd :=
  foldl (fun c '(f, mode, fd) => REDIR c f mode fd) c rs.

Fixpoint parseredirs (n : nat) (rs : list redir) (s : nat) : res (list redir * nat) :=
  match n with
  | O => NoFuel
  | S n =>
    let (b, s) := peek s (str "<>") in
    if b then
      let '(tok, _, s) := gettoken s in
      let '(tok', f, s) := gettoken s in
      if negb (tok' =? tk_word) then Fail "missing file for redirection" else
      let rs :=
        if tok =? tk_lt then rs ++ [(f, O_RDONLY, 0)]
        else if tok =? tk_gt then rs ++ [(f, Z.lor (Z.lor O_WRONLY O_CREATE) O_TRUNC, 1)]
        else if tok =? tk_append then rs ++ [(f, Z.lor O_WRONLY O_CREATE, 1)]
        else rs in
      parseredirs n rs s
    else Ok (rs, s)
  end.

(** The words of a simple command, with its redirections. *)
Fixpoint parseargs (n : nat) (argv : list word) (rs : list redir) (s : nat) : res (list word * list redir * nat) :=
  match n with
  | O => NoFuel
  | S n =>
    let (b, s) := peek s (str "|)&;") in
    if b then Ok (argv, rs, s) else
    let '(tok, w, s) := gettoken s in
    if tok =? 0 then Ok (argv, rs, s) else
    if negb (tok =? tk_word) then Fail "syntax" else
    let argv := argv ++ [w] in
    if (MAXARGS <=? length argv)%nat then Fail "too many args" else
    do (rs, s) <- parseredirs (S es) rs s;
    parseargs n argv rs s
  end.

Fixpoint parseback (n : nat) (c : cmd) (s : nat) : res (cmd * nat) :=
  match n with
  | O => NoFuel
  | S n =>
    let (b, s) := peek s (str "&") in
    if b then let '(_, _, s) := gettoken s in parseback n (BACK c) s else Ok (c, s)
  end.

Fixpoint parseline (n : nat) (s : nat) {struct n} : res (cmd * nat) :=
  match n with
  | O => NoFuel
  | S n =>
    do (c, s) <- parsepipe n s;
    do (c, s) <- parseback (S es) c s;
    let (b, s) := peek s (str ";") in
    if b then
      let '(_, _, s) := gettoken s in
      do (c', s) <- parseline n s;
      Ok (LIST c c', s)
    else Ok (c, s)
  end
with parsepipe (n : nat) (s : nat) {struct n} : res (cmd * nat) :=
  match n with
  | O => NoFuel
  | S n =>
    do (c, s) <- parseexec n s;
    let (b, s) := peek s (str "|") in
    if b then
      let '(_, _, s) := gettoken s in
      do (c', s) <- parsepipe n s;
      Ok (PIPE c c', s)
    else Ok (c, s)
  end
with parseexec (n : nat) (s : nat) {struct n} : res (cmd * nat) :=
  match n with
  | O => NoFuel
  | S n =>
    let (b, s) := peek s (str "(") in
    if b then parseblock n s else
    do (rs, s) <- parseredirs (S es) [] s;
    do (argv, rs, s) <- parseargs (S es) [] rs s;
    Ok (wrap (EXEC argv) rs, s)
  end
with parseblock (n : nat) (s : nat) {struct n} : res (cmd * nat) :=
  match n with
  | O => NoFuel
  | S n =>
    let (b, s) := peek s (str "(") in
    if negb b then Fail "parseblock" else
    let '(_, _, s) := gettoken s in
    do (c, s) <- parseline n s;
    let (b, s) := peek s (str ")") in
    if negb b then Fail "syntax - missing )" else
    let '(_, _, s) := gettoken s in
    do (rs, s) <- parseredirs (S es) [] s;
    Ok (wrap c rs, s)
  end.

(** [*efile = 0] for every word, in the order of nulterminate(). *)
Fixpoint nulterminate (c : cmd) (buf : list Z) : list Z :=
  match c with
  | EXEC argv => foldl (fun buf '(_, e) => <[e := 0]> buf) buf argv
  | REDIR c (_, e) _ _ => <[e := 0]> (nulterminate c buf)
  | PIPE l r | LIST l r => nulterminate r (nulterminate l buf)
  | BACK c => nulterminate c buf
  end.

(** The command and the line after nulterminate(). *)
Definition parsecmd (n : nat) : res (cmd * list Z) :=
  do (c, s) <- parseline n 0;
  let (_, s) := peek s [] in
  if negb (s =? es)%nat then Fail "syntax" else
  Ok (c, nulterminate c (line ++ [0])).

(** ** Tokens *)

Context (Hnul : 0 ∉ line).

(** A word of the line: characters that are neither white space nor symbols,
    up to one that is. *)
Definition word_ok (w : word) : Prop :=
  (fst w < snd w <= es)%nat /\ (forall i, (fst w <= i < snd w)%nat -> is_word (char_at i) = true) /\
  is_word (char_at (snd w)) = false.

Lemma char_at_end i : (es <= i)%nat -> char_at i = 0.
Proof. intros Hi. unfold char_at. by rewrite lookup_ge_None_2. Qed.
Lemma char_at_in i : char_at i <> 0 -> (i < es)%nat.
Proof. intros Hi. destruct (decide (i < es)%nat); [done|]. by rewrite char_at_end in Hi by lia. Qed.

Lemma char_at_nz i : (i < es)%nat -> char_at i <> 0.
Proof.
  intros Hi. unfold char_at. destruct (lookup_lt_is_Some_2 line i Hi) as [x Hx]. rewrite Hx. cbn.
  intros ->. apply Hnul. by eapply list_elem_of_lookup_2.
Qed.

Lemma skip_spec n p s :
  (s <= es)%nat -> n = (es - s)%nat ->
  (s <= skip n p s <= es)%nat /\ (skip n p s = es \/ p (char_at (skip n p s)) = false) /\
  (forall i, (s <= i < skip n p s)%nat -> p (char_at i) = true).
Proof.
  revert s. induction n as [|n IH]; intros s Hs Hn; cbn [skip].
  - split_and!; [lia|lia|left; lia|intros; lia].
  - rewrite (proj2 (Nat.ltb_lt _ _)) by lia. cbn [andb]. destruct (p (char_at s)) eqn:E.
    + destruct (IH (S s)) as (H1 & H2 & H3); [lia|lia|]. split_and!; [lia|lia|done|].
      intros i Hi. destruct (decide (i = s)) as [->|]; [done|]. apply H3. lia.
    + split_and!; [lia|lia|by right|intros; lia].
Qed.

Lemma skip_ws_spec s :
  (s <= es)%nat -> (s <= skip_ws s <= es)%nat /\ is_ws (char_at (skip_ws s)) = false.
Proof.
  intros Hs. destruct (skip_spec (es - s) is_ws s Hs eq_refl) as (H1 & H2 & _). split; [done|].
  destruct H2 as [H2|H2]; [|done]. unfold skip_ws. rewrite H2, char_at_end by lia. done.
Qed.

Lemma in_set_app c a b : in_set c (a ++ b) = in_set c a || in_set c b.
Proof. unfold in_set. rewrite existsb_app. by destruct (c =? 0). Qed.
Lemma symbols_split c :
  c <> 0 -> in_set c (str "|();&<") = false -> c <> tk_gt -> in_set c symbols = false.
Proof.
  intros H0 H1 H2. unfold in_set in *. rewrite (proj2 (Z.eqb_neq c 0)) in * by done. cbn [negb andb] in *.
  apply not_true_iff_false. intros Hc. apply existsb_exists in Hc as (x & Hx & ->%Z.eqb_eq).
  assert (existsb (Z.eqb x) (str "|();&<") = true); [|congruence].
  apply existsb_exists. exists x. split; [|apply Z.eqb_refl].
  change (str "|();&<") with [124; 40; 41; 59; 38; 60]. change symbols with [60; 124; 62; 38; 59; 40; 41] in Hx.
  unfold tk_gt in H2. cbn in Hx |- *. destruct_or? Hx; subst; try done; tauto.
Qed.

Lemma is_word_split c : c <> 0 -> is_word c = negb (is_ws c) && negb (in_set c symbols).
Proof. intros Hc. unfold is_word. by rewrite (proj2 (Z.eqb_neq c 0)). Qed.

Lemma gettoken_spec s t w s' :
  (s <= es)%nat -> gettoken s = (t, w, s') ->
  (s <= fst w <= snd w)%nat /\ (snd w <= s' <= es)%nat /\
  (char_at (skip_ws s) <> 0 -> t <> 0) /\ (t <> 0 -> (fst w < snd w)%nat) /\ (t = tk_word -> word_ok w).
Proof.
  intros Hs. destruct (skip_ws_spec s Hs) as [Hq Hws]. unfold gettoken.
  set (q := skip_ws s) in *. clearbody q. set (c := char_at q).
  (* where the token ends *)
  enough (forall t e, (if c =? 0 then (c, q) else if in_set c (str "|();&<") then (c, S q)
    else if c =? tk_gt then if char_at (S q) =? tk_gt then (tk_append, S (S q)) else (c, S q)
    else (tk_word, skip (es - q) (fun c => negb (is_ws c) && negb (in_set c symbols)) q)) = (t, e) ->
    (q <= e <= es)%nat /\ (c <> 0 -> t <> 0) /\ (t <> 0 -> (q < e)%nat) /\ (t = tk_word -> word_ok (q, e))) as Hend.
  { destruct (if c =? 0 then _ else _) as [t0 e0] eqn:E. destruct (Hend t0 e0 eq_refl) as (He & Hc & Hlt & Hw).
    destruct (skip_ws_spec e0) as [He' _]; [lia|]. intros [= <- <- <-]. cbn [fst snd].
    split_and!; [lia|lia|lia|lia|done|done|done]. }
  intros t0 e0. destruct (Z.eqb_spec c 0) as [E0|E0].
  { intros [= <- <-]. split_and!; [lia|lia|done|done|]. rewrite E0. done. }
  pose proof (char_at_in q E0) as Hlt.
  destruct (in_set c (str "|();&<")) eqn:Es.
  { intros [= <- <-]. split_and!; [lia|lia|done|lia|]. intros Hc. rewrite Hc in Es. discriminate. }
  destruct (Z.eqb_spec c tk_gt) as [Eg|Eg].
  { destruct (Z.eqb_spec (char_at (S q)) tk_gt) as [E1|E1]; intros [= <- <-].
    - assert (S q < es)%nat by (apply char_at_in; rewrite E1; done). split_and!; [lia|lia|done|lia|done].
    - split_and!; [lia|lia|done|lia|]. rewrite Eg. done. }
  intros [= <- <-]. destruct (skip_spec (es - q) (fun c => negb (is_ws c) && negb (in_set c symbols)) q) as (H1 & H2 & H3);
    [lia|done|]. set (e := skip _ _ q) in *.
  assert (q <> e) as Hne.
  { intros Hqe. destruct H2 as [H2|H2]; [lia|]. rewrite <- Hqe in H2. fold c in H2. fold c in Hws.
    rewrite Hws, symbols_split in H2 by done. done. }
  split_and!; [lia|lia|done|lia|]. intros _. split_and!; cbn [fst snd]; [lia|lia| |].
  - intros i Hi. rewrite is_word_split; [by apply H3|]. apply char_at_nz. lia.
  - destruct H2 as [H2|H2]; [by rewrite H2, char_at_end|]. destruct (decide (char_at e = 0)) as [->|Hz]; [done|].
    by rewrite is_word_split.
Qed.

Lemma peek_spec s toks b s' :
  (s <= es)%nat -> peek s toks = (b, s') ->
  (s <= s' <= es)%nat /\ (b = true -> char_at (skip_ws s') <> 0).
Proof.
  intros Hs. destruct (skip_ws_spec s Hs) as [Hq Hws]. unfold peek. intros [= <- <-]. split; [done|].
  intros Hb. assert (skip_ws (skip_ws s) = skip_ws s) as ->.
  { unfold skip_ws at 1. destruct (es - skip_ws s)%nat; [done|]. cbn [skip]. by rewrite Hws, andb_false_r. }
  unfold in_set in Hb. by destruct (Z.eqb_spec (char_at (skip_ws s)) 0).
Qed.

(** What follows a successful peek() is consumed. *)
Lemma peek_gettoken s toks s1 t w s2 :
  (s <= es)%nat -> peek s toks = (true, s1) -> gettoken s1 = (t, w, s2) -> (s <= s1 < s2)%nat /\ (s2 <= es)%nat.
Proof.
  intros Hs Hp Hg. destruct (peek_spec _ _ _ _ Hs Hp) as [H1 H2].
  destruct (gettoken_spec s1 t w s2) as (G1 & G2 & G3 & G4 & _); [lia|done|].
  specialize (G4 (G3 (H2 eq_refl))). lia.
Qed.

(** ** Parsing *)

Fixpoint words (c : cmd) : list word :=
  match c with
  | EXEC argv => argv
  | REDIR c f _ _ => words c ++ [f]
  | PIPE l r | LIST l r => words l ++ words r
  | BACK c => words c
  end.

(** The parser ended, at a position from [s] on; [P] holds of a command. *)
Definition ends {A} (P : A -> Prop) (s : nat) (r : res (A * nat)) : Prop :=
  match r with
  | Ok (a, s') => P a /\ (s <= s' <= es)%nat
  | Fail _ => True
  | NoFuel => False
  end.

Lemma ends_bind {A B} (P : A -> Prop) (Q : B -> Prop) s s0 (r : res (A * nat)) f :
  ends P s r -> (s0 <= s)%nat -> (forall a s', P a -> (s <= s' <= es)%nat -> ends Q s' (f (a, s'))) ->
  ends Q s0 (rbind r f).
Proof.
  intros Hr Hs Hf. destruct r as [[a s']| |]; cbn in *; [|done..]. destruct Hr as [Ha Hs'].
  specialize (Hf a s' Ha Hs'). destruct (f (a, s')) as [[b s'']| |]; cbn in *; [|done..]. split; [tauto|lia].
Qed.
Lemma ends_mono {A} (P : A -> Prop) s s0 (r : res (A * nat)) : (s0 <= s)%nat -> ends P s r -> ends P s0 r.
Proof. intros Hs. destruct r as [[a s']| |]; cbn; [|done..]. intros [? ?]. split; [done|lia]. Qed.

Definition redirs_ok (rs : list redir) : Prop := Forall (fun r => word_ok (fst (fst r))) rs.
Definition cmd_ok (c : cmd) : Prop := Forall word_ok (words c).

Lemma wrap_ok c rs : cmd_ok c -> redirs_ok rs -> cmd_ok (wrap c rs).
Proof.
  intros Hc Hr. revert c Hc. induction Hr as [|[[f m] fd] rs Hf _ IH]; intros c Hc; [done|].
  apply IH. unfold cmd_ok. cbn. apply Forall_app. split; [done|]. by apply Forall_singleton.
Qed.

Lemma parseredirs_ends n rs s :
  (s <= es)%nat -> (es - s < n)%nat -> redirs_ok rs -> ends redirs_ok s (parseredirs n rs s).
Proof.
  revert rs s. induction n as [|n IH]; intros rs s Hs Hn Hr; [lia|]. cbn [parseredirs].
  destruct (peek s (str "<>")) as [b s1] eqn:Ep. destruct (peek_spec _ _ _ _ Hs Ep) as [H1 _].
  destruct b; [|cbn; split; [done|lia]]. destruct (gettoken s1) as [[t w] s2] eqn:E2.
  destruct (peek_gettoken _ _ _ _ _ _ Hs Ep E2) as [H2 H2']. destruct (gettoken s2) as [[t' f] s3] eqn:E3.
  destruct (gettoken_spec s2 t' f s3 H2' E3) as (G1 & G2 & _ & _ & G5).
  destruct (Z.eqb_spec t' tk_word) as [->|]; cbn [negb]; [|done]. specialize (G5 eq_refl).
  apply (ends_mono _ s3); [lia|]. apply IH; [lia|lia|].
  repeat case_match; try done; apply Forall_app; (split; [done|]); by apply Forall_singleton.
Qed.

Lemma parseback_ends n c s :
  (s <= es)%nat -> (es - s < n)%nat -> cmd_ok c -> ends cmd_ok s (parseback n c s).
Proof.
  revert c s. induction n as [|n IH]; intros c s Hs Hn Hc; [lia|]. cbn [parseback].
  destruct (peek s (str "&")) as [b s1] eqn:Ep. destruct (peek_spec _ _ _ _ Hs Ep) as [H1 _].
  destruct b; [|cbn; split; [done|lia]]. destruct (gettoken s1) as [[t w] s2] eqn:E2.
  destruct (peek_gettoken _ _ _ _ _ _ Hs Ep E2) as [H2 H2'].
  apply (ends_mono _ s2); [lia|]. apply IH; [lia|lia|done].
Qed.

Lemma parseargs_ends n argv rs s :
  (s <= es)%nat -> (es - s < n)%nat -> Forall word_ok argv -> redirs_ok rs ->
  ends (fun x => Forall word_ok (fst x) /\ redirs_ok (snd x)) s (parseargs n argv rs s).
Proof.
  revert argv rs s. induction n as [|n IH]; intros argv rs s Hs Hn Ha Hr; [lia|]. cbn [parseargs].
  destruct (peek s (str "|)&;")) as [b s1] eqn:Ep. destruct (peek_spec _ _ _ _ Hs Ep) as [H1 _].
  destruct b; [cbn; split; [done|lia]|]. destruct (gettoken s1) as [[t w] s2] eqn:E2.
  destruct (gettoken_spec s1 t w s2) as (G1 & G2 & _ & G4 & G5); [lia|done|].
  destruct (Z.eqb_spec t 0) as [->|Ht]; [cbn; split; [done|lia]|]. specialize (G4 Ht).
  destruct (Z.eqb_spec t tk_word) as [->|]; cbn [negb]; [|done]. specialize (G5 eq_refl).
  destruct (MAXARGS <=? _)%nat; [done|].
  apply (ends_bind redirs_ok _ s2); [apply parseredirs_ends; [lia|lia|done]|lia|].
  intros rs' s3 Hr' H3. apply IH; [lia|lia| |done]. apply Forall_app. split; [done|]. by apply Forall_singleton.
Qed.

(** Four units of fuel per character left are enough. *)
Lemma parse_ends n :
  (forall s, (s <= es)%nat -> (4 * (es - s) + 4 <= n)%nat -> ends cmd_ok s (parseline n s)) /\
  (forall s, (s <= es)%nat -> (4 * (es - s) + 3 <= n)%nat -> ends cmd_ok s (parsepipe n s)) /\
  (forall s, (s <= es)%nat -> (4 * (es - s) + 2 <= n)%nat -> ends cmd_ok s (parseexec n s)) /\
  (forall s, (s <= es)%nat -> (4 * (es - s) + 1 <= n)%nat -> ends cmd_ok s (parseblock n s)).
Proof.
  induction n as [|n (IHl & IHp & IHe & IHb)]; [split_and!; intros; lia|]. split_and!; intros s Hs Hn.
  - cbn [parseline]. apply (ends_bind cmd_ok _ s); [apply IHp; lia|done|]. intros c s1 Hc H1.
    apply (ends_bind cmd_ok _ s1); [apply parseback_ends; [lia|lia|done]|done|]. intros c2 s2 Hc2 H2.
    destruct (peek s2 (str ";")) as [b s3] eqn:Ep. destruct (peek_spec _ _ _ _ (proj2 H2) Ep) as [H3 _].
    destruct b; [|cbn; split; [done|lia]]. destruct (gettoken s3) as [[t w] s4] eqn:E4.
    destruct (peek_gettoken _ _ _ _ _ _ (proj2 H2) Ep E4) as [H4 H4'].
    apply (ends_bind cmd_ok _ s4); [apply IHl; lia|lia|]. intros c5 s5 Hc5 H5. cbn. split; [|lia].
    apply Forall_app. done.
  - cbn [parsepipe]. apply (ends_bind cmd_ok _ s); [apply IHe; lia|done|]. intros c s1 Hc H1.
    destruct (peek s1 (str "|")) as [b s3] eqn:Ep. destruct (peek_spec _ _ _ _ (proj2 H1) Ep) as [H3 _].
    destruct b; [|cbn; split; [done|lia]]. destruct (gettoken s3) as [[t w] s4] eqn:E4.
    destruct (peek_gettoken _ _ _ _ _ _ (proj2 H1) Ep E4) as [H4 H4'].
    apply (ends_bind cmd_ok _ s4); [apply IHp; lia|lia|]. intros c5 s5 Hc5 H5. cbn. split; [|lia].
    apply Forall_app. done.
  - cbn [parseexec]. destruct (peek s (str "(")) as [b s1] eqn:Ep. destruct (peek_spec _ _ _ _ Hs Ep) as [H1 _].
    destruct b; [apply (ends_mono _ s1); [lia|]; apply IHb; lia|].
    apply (ends_bind redirs_ok _ s1); [apply parseredirs_ends; [lia|lia|constructor]|lia|]. intros rs s2 Hr H2.
    apply (ends_bind (fun x => Forall word_ok (fst x) /\ redirs_ok (snd x)) _ s2);
      [apply parseargs_ends; [lia|lia|constructor|done]|lia|].
    intros [argv rs'] s3 [Ha Hr'] H3. cbn. split; [by apply wrap_ok|lia].
  - cbn [parseblock]. destruct (peek s (str "(")) as [b s1] eqn:Ep. destruct (peek_spec _ _ _ _ Hs Ep) as [H1 _].
    destruct b; cbn [negb]; [|done]. destruct (gettoken s1) as [[t w] s2] eqn:E2.
    destruct (peek_gettoken _ _ _ _ _ _ Hs Ep E2) as [H2 H2'].
    apply (ends_bind cmd_ok _ s2); [apply IHl; lia|lia|]. intros c s3 Hc H3.
    destruct (peek s3 (str ")")) as [b s4] eqn:Ep4. destruct (peek_spec _ _ _ _ (proj2 H3) Ep4) as [H4 _].
    destruct b; cbn [negb]; [|done]. destruct (gettoken s4) as [[t' w'] s5] eqn:E5.
    destruct (peek_gettoken _ _ _ _ _ _ (proj2 H3) Ep4 E5) as [H5 H5'].
    apply (ends_bind redirs_ok _ s5); [apply parseredirs_ends; [lia|lia|constructor]|lia|].
    intros rs s6 Hr H6. cbn. split; [by apply wrap_ok|lia].
Qed.

(** ** nulterminate *)

(** Only ends of words are overwritten, so the words keep their characters. *)
Record terminates (ws : list word) (buf buf' : list Z) : Prop := mk_terminates {
  tm_len : length buf' = length buf;
  tm_word i : is_word (char_at i) = true -> buf' !! i = buf !! i;
  tm_zero i : buf !! i = Some 0 -> buf' !! i = Some 0;
  tm_end w : w ∈ ws -> buf' !! snd w = Some 0
}.

Lemma terminates_app ws1 ws2 b1 b2 b3 :
  terminates ws1 b1 b2 -> terminates ws2 b2 b3 -> terminates (ws1 ++ ws2) b1 b3.
Proof.
  intros [L1 W1 Z1 E1] [L2 W2 Z2 E2]. split; [congruence|intros i Hi; by rewrite W2, W1|auto|].
  intros w [Hw|Hw]%elem_of_app; auto.
Qed.
Lemma terminates_one w buf : word_ok w -> length buf = S es -> terminates [w] buf (<[snd w := 0]> buf).
Proof.
  intros (Hr & _ & He) Hl. split; [apply length_insert| | |].
  - intros i Hi. apply list_lookup_insert_ne. intros <-. congruence.
  - intros i Hi. destruct (decide (snd w = i)) as [<-|Hne]; [|by rewrite list_lookup_insert_ne].
    apply list_lookup_insert_eq. lia.
  - intros w' ->%list_elem_of_singleton. apply list_lookup_insert_eq. lia.
Qed.
Lemma terminates_words ws buf :
  Forall word_ok ws -> length buf = S es -> terminates ws buf (foldl (fun buf '(_, e) => <[e := 0]> buf) buf ws).
Proof.
  intros Hw. revert buf. induction Hw as [|[q e] ws Hw _ IH]; intros buf Hl.
  - split; try done. by intros w []%elem_of_nil.
  - apply (terminates_app [(q, e)] ws buf (<[e := 0]> buf)); [by apply (terminates_one (q, e))|].
    apply IH. by rewrite length_insert.
Qed.

Lemma nulterminate_spec c buf : cmd_ok c -> length buf = S es -> terminates (words c) buf (nulterminate c buf).
Proof.
  revert buf. induction c as [argv|c IH [q e] mode fd|l IHl r IHr|l IHl r IHr|c IH]; intros buf Hc Hl;
    cbn [words nulterminate] in *.
  - by apply terminates_words.
  - apply Forall_app in Hc as [Hc [Hf _]%Forall_cons]. specialize (IH buf Hc Hl).
    eapply terminates_app; [exact IH|]. apply (terminates_one (q, e)); [done|]. by rewrite (tm_len _ _ _ IH).
  - apply Forall_app in Hc as [H1 H2]. specialize (IHl buf H1 Hl). eapply terminates_app; [exact IHl|].
    apply IHr; [done|]. by rewrite (tm_len _ _ _ IHl).
  - apply Forall_app in Hc as [H1 H2]. specialize (IHl buf H1 Hl). eapply terminates_app; [exact IHl|].
    apply IHr; [done|]. by rewrite (tm_len _ _ _ IHl).
  - by apply IH.
Qed.

(** C34: the shell's parser ends on every line, within four rounds per
    character, with a command or a syntax error.  Every word of a command it
    returns is a non-empty run of characters of the line that are neither white
    space nor symbols, and after nulterminate() the pointer to it is a C string
    of exactly those characters. *)
Theorem parsecmd_total :
  match parsecmd (4 * es + 4) with
  | Ok (c, buf) => forall q e, (q, e) ∈ words c ->
      (q < e <= es)%nat /\ Forall (fun x => is_word x = true) (take (e - q) (drop q line)) /\
      cstr (S es) (ptr_of (drop q buf)) = take (e - q) (drop q line)
  | Fail _ => True
  | NoFuel => False
  end.
Proof.
  unfold parsecmd. pose proof (proj1 (parse_ends (4 * es + 4)) 0%nat ltac:(lia) ltac:(lia)) as He.
  destruct (parseline _ 0) as [[c s]| |]; cbn [rbind peek ends] in He |- *; [|done..]. destruct He as [Hc _].
  destruct (negb _); [done|]. intros q e Hin.
  pose proof (nulterminate_spec c (line ++ [0]) Hc) as Ht. rewrite length_app, Nat.add_1_r in Ht.
  specialize (Ht eq_refl). set (buf := nulterminate c (line ++ [0])) in *.
  unfold cmd_ok in Hc. rewrite Forall_forall in Hc. destruct (Hc _ Hin) as (Hr & Hw & _). cbn [fst snd] in *.
  pose proof (tm_end _ _ _ Ht _ Hin) as Hz. cbn [snd] in Hz.
  assert (forall i, (q <= i < e)%nat -> buf !! i = line !! i) as Hsame.
  { intros i Hi. rewrite (tm_word _ _ _ Ht i (Hw i Hi)). apply lookup_app_l. unfold es in *. lia. }
  assert (drop q buf = take (e - q) (drop q line) ++ drop e buf) as ->.
  { apply list_eq. intros i. rewrite lookup_drop. destruct (decide (i < e - q)%nat) as [Hi|Hi].
    - rewrite lookup_app_l by (rewrite length_take, length_drop; unfold es in *; lia).
      rewrite lookup_take_lt, lookup_drop by done. apply Hsame. lia.
    - rewrite lookup_app_r by (rewrite length_take, length_drop; unfold es in *; lia).
      rewrite lookup_drop, length_take, length_drop. f_equal. unfold es in *. lia. }
  split_and!; [lia|lia| |].
  - apply Forall_lookup. intros i x [Hx Hi]%lookup_take_Some. rewrite lookup_drop in Hx.
    specialize (Hw (q + i)%nat ltac:(lia)). unfold char_at in Hw. by rewrite Hx in Hw.
  - rewrite cstr_prefix.
    + apply take_ge. rewrite length_take, length_drop. lia.
    + intros [i [Hx Hi]%lookup_take_Some]%list_elem_of_lookup. rewrite lookup_drop in Hx.
      apply Hnul. by eapply list_elem_of_lookup_2.
    + left. by rewrite <- (Nat.add_0_r e), <- lookup_drop, <- head_lookup in Hz.
Qed.
End Code.

(** The line "ls -l>out; wc". *)
Definition sample_line : list Z := str "ls -l>out; wc".
Definition sample_parse : cmd * list Z :=
  match parsecmd sample_line 56 with Ok r => r | _ => (EXEC [], []) end.
Lemma sample_parse_ok : parsecmd sample_line (4 * es sample_line + 4) = Ok (fst sample_parse, snd sample_parse).
Proof. vm_compute. reflexivity. Qed.

Lemma parsecmd_total_witness :
  words (fst sample_parse) = [(0, 2); (3, 5); (6, 9); (11, 13)]%nat /\
  cstr 14 (ptr_of (drop 6 (snd sample_parse))) = str "out".
Proof.
  assert (0 ∉ sample_line) as H0.
  { intros Hin. apply (bool_decide_pack _) in Hin. vm_compute in Hin. exact Hin. }
  pose proof (parsecmd_total sample_line H0) as Hw. rewrite sample_parse_ok in Hw.
  assert (words (fst sample_parse) = [(0, 2); (3, 5); (6, 9); (11, 13)]%nat) as Ew by (vm_compute; reflexivity).
  split; [exact Ew|]. destruct (Hw 6%nat 9%nat) as (_ & _ & Ec).
  - rewrite Ew. do 2 apply list_elem_of_further. apply list_elem_of_here.
  - etransitivity; [exact Ec|]. vm_compute. reflexivity.
Defined.
