(* ===== verification/Umalloc.v ===== *)
(** * The user-level memory allocator (user/umalloc.c).

    Kernighan and Ritchie's allocator: free blocks form a circular list in the
    order of their addresses, threaded through their headers, which are bytes
    of the process's memory.  Sizes count headers of 16 bytes.  [heap_ok]
    relates memory to the list of free and the list of allocated blocks, which
    together tile the memory obtained from sbrk(). *)

From Stdlib Require Import Sorted.
From S2P Require Import Prelude Defs Mem.

(** ** Headers *)

Definition HDR : Z := 16.  (* sizeof(Header) *)

Definition load32 (m : gmap Z Z) (a : Z) : Z := le_val (load_bytes m a 4).
Definition store32 (m : gmap Z Z) (a v : Z) : gmap Z Z := store_bytes m a (le_bytes 4 v).

(** [p->s.ptr] and [p->s.size]. *)
Definition s_ptr (m : gmap Z Z) (p : Z) : Z := load64 m p.
Definition s_size (m : gmap Z Z) (p : Z) : Z := load32 m (p + 8).
Definition set_ptr (p v : Z) (m : gmap Z Z) : gmap Z Z := store64 m p v.
Definition set_size (p v : Z) (m : gmap Z Z) : gmap Z Z := store32 m (p + 8) v.

(** [p + n] for a header pointer. *)
Definition hadd (p n : Z) : Z := u64 (p + HDR * n).

(** The memory of the process, [freep], and the end of its memory. *)
Record heap := mk_heap { h_mem : gmap Z Z; h_freep : Z; h_brk : Z }.

(** The address of the static header [base], and the kernel's sbrk(): the new
    end of memory, when it can be moved by [n] bytes.  A process has no more
    memory than the machine. *)
Class UserHeap := {
  base : Z;
  heap_start : Z;
  grow : Z -> Z -> option Z;
  heap_above : 0 < base /\ base + HDR <= heap_start;
  grow_adds b n b' : 0 <= n -> grow b n = Some b' -> b' = b + n;
  grow_fits b n b' : grow b n = Some b' -> b' <= PHYSTOP - KERNBASE
}.

(** ** Code *)

Section Code.
Context `{UserHeap}.

(** The search loop of free(): the node after which [bp] belongs; [None] when
    the fuel [n] runs out. *)
Fixpoint free_find (n : nat) (m : gmap Z Z) (bp p : Z) : option Z :=
  match n with
  | O => None
  | S n =>
    if (p <? bp) && (bp <? s_ptr m p) then Some p else
    if (s_ptr m p <=? p) && ((p <? bp) || (bp <? s_ptr m p)) then Some p else
    free_find n m bp (s_ptr m p)
  end.

(** Joining [bp] to the upper neighbour, and to the lower one. *)
Definition free_join_next (bp p : Z) (m : gmap Z Z) : gmap Z Z :=
  if hadd bp (s_size m bp) =? s_ptr m p then
    let m := set_size bp (u32 (s_size m bp + s_size m (s_ptr m p))) m in
    set_ptr bp (s_ptr m (s_ptr m p)) m
  else set_ptr bp (s_ptr m p) m.
Definition free_join_prev (bp p : Z) (m : gmap Z Z) : gmap Z Z :=
  if hadd p (s_size m p) =? bp then
    let m := set_size p (u32 (s_size m p + s_size m bp)) m in
    set_ptr p (s_ptr m bp) m
  else set_ptr p bp m.

Definition free (n : nat) (ap : Z) (h : heap) : option heap :=
  let bp := hadd ap (-1) in
  match free_find n (h_mem h) bp (h_freep h) with
  | None => None
  | Some p =>
    let m := free_join_next bp p (h_mem h) in
    let m := free_join_prev bp p m in
    Some (mk_heap m p (h_brk h))
  end.

(** sbrk() takes an int. *)
Definition morecore (n : nat) (nu : Z) (h : heap) : option (Z * heap) :=
  let nu := if nu <? 4096 then 4096 else nu in
  match grow (h_brk h) (i32 (u64 (nu * HDR))) with
  | None => Some (0, h)
  | Some b' =>
    let hp := h_brk h in
    match free n (hadd hp 1) (mk_heap (set_size hp nu (h_mem h)) (h_freep h) b') with
    | None => None
    | Some h => Some (h_freep h, h)
    end
  end.

(** A block of exactly the size wanted is unlinked, of a larger one the tail is
    cut off. *)
Definition malloc_take (nunits prevp p : Z) (h : heap) : Z * heap :=
  let m := h_mem h in
  if s_size m p =? nunits then
    (hadd p 1, mk_heap (set_ptr prevp (s_ptr m p) m) prevp (h_brk h))
  else
    let m := set_size p (u32 (s_size m p - nunits)) m in
    let p := hadd p (s_size m p) in
    let m := set_size p nunits m in
    (hadd p 1, mk_heap m prevp (h_brk h)).

Fixpoint malloc_scan (n N : nat) (nunits prevp p : Z) (h : heap) : option (Z * heap) :=
  match n with
  | O => None
  | S n =>
    if nunits <=? s_size (h_mem h) p then Some (malloc_take nunits prevp p h) else
    if p =? h_freep h then
      match morecore N nunits h with
      | None => None
      | Some (p, h) =>
        if p =? 0 then Some (0, h) else malloc_scan n N nunits p (s_ptr (h_mem h) p) h
      end
    else malloc_scan n N nunits p (s_ptr (h_mem h) p) h
  end.

Definition nunits_of (nbytes : Z) : Z := u32 ((nbytes + HDR - 1) / HDR + 1).

Definition malloc (n : nat) (nbytes : Z) (h : heap) : option (Z * heap) :=
  let nunits := nunits_of nbytes in
  let h := if h_freep h =? 0 then
      mk_heap (set_size base 0 (set_ptr base base (h_mem h))) base (h_brk h)
    else h in
  malloc_scan n n nunits (h_freep h) (s_ptr (h_mem h) (h_freep h)) h.
End Code.

(** ** Header fields *)

Lemma load32_store32_eq m a v : 0 <= v < 2 ^ 32 -> load32 (store32 m a v) a = v.
Proof.
  intros Hv. unfold load32, store32.
  pose proof (load_bytes_store_eq m a (le_bytes 4 v)) as E. rewrite length_le_bytes in E.
  rewrite E, le_val_bytes. by apply Z.mod_small.
Qed.
Lemma load32_ext m m' a : (forall x, a <= x < a + 4 -> load8 m' x = load8 m x) -> load32 m' a = load32 m a.
Proof. intros E. unfold load32. f_equal. apply load_bytes_ext. intros i Hi. apply E. lia. Qed.

(** [m'] is [m] but for the header at [p]. *)
Definition only (p : Z) (m m' : gmap Z Z) : Prop := forall x, ~ (p <= x < p + HDR) -> load8 m' x = load8 m x.
Definition sep (p q : Z) : Prop := p + HDR <= q \/ q + HDR <= p.

Lemma only_refl p m : only p m m.
Proof. by intros x _. Qed.
Lemma only_trans p m1 m2 m3 : only p m1 m2 -> only p m2 m3 -> only p m1 m3.
Proof. intros O1 O2 x Hx. by rewrite O2, O1. Qed.
Lemma only_set_ptr p v m : only p m (set_ptr p v m).
Proof. intros x Hx. apply load8_store64_ne. unfold HDR in *. lia. Qed.
Lemma only_set_size p v m : only p m (set_size p v m).
Proof.
  intros x Hx. unfold set_size, store32. rewrite load8_store_bytes, length_le_bytes, decide_False; [done|].
  unfold HDR in *. lia.
Qed.
Lemma only_ptr p m m' q : only p m m' -> sep p q -> s_ptr m' q = s_ptr m q.
Proof. intros O Hs. apply load64_ext. intros x Hx. apply O. unfold sep, HDR in *. lia. Qed.
Lemma only_size p m m' q : only p m m' -> sep p q -> s_size m' q = s_size m q.
Proof. intros O Hs. apply load32_ext. intros x Hx. apply O. unfold sep, HDR in *. lia. Qed.

Lemma s_ptr_set_ptr p v m : 0 <= v < 2 ^ 64 -> s_ptr (set_ptr p v m) p = v.
Proof. apply load64_store64_eq. Qed.
Lemma s_size_set_size p v m : 0 <= v < 2 ^ 32 -> s_size (set_size p v m) p = v.
Proof. apply load32_store32_eq. Qed.
Lemma s_size_set_ptr p v m : s_size (set_ptr p v m) p = s_size m p.
Proof. apply load32_ext. intros x Hx. apply load8_store64_ne. lia. Qed.
Lemma s_ptr_set_size p v m : s_ptr (set_size p v m) p = s_ptr m p.
Proof.
  apply load64_ext. intros x Hx. unfold set_size, store32.
  rewrite load8_store_bytes, length_le_bytes, decide_False; [done|lia].
Qed.

(** ** Blocks *)

(** A block is the address of its header and its size in headers. *)
Abbreviation block := (Z * Z)%type.
Definition bend (b : block) : Z := fst b + HDR * snd b.

(** The headers of [l] form a chain that ends at [e]. *)
Fixpoint chain (m : gmap Z Z) (e : Z) (l : list block) : Prop :=
  match l with
  | [] => True
  | b :: l => s_size m (fst b) = snd b /\ s_ptr m (fst b) = hd e l.*1 /\ chain m e l
  end.

(** The blocks [l] follow one another from [a] to [b] without a gap. *)
Fixpoint tiling (a : Z) (l : list block) (b : Z) : Prop :=
  match l with
  | [] => a = b
  | c :: l => fst c = a /\ 1 <= snd c /\ tiling (bend c) l b
  end.

(** Ascending, and no block touches the next. *)
Fixpoint gaps (l : list block) : Prop :=
  match l with
  | [] => True
  | b :: l => Forall (fun c => bend b < fst c) l /\ gaps l
  end.

Lemma chain_app m e l1 l2 : chain m e (l1 ++ l2) <-> chain m (hd e l2.*1) l1 /\ chain m e l2.
Proof.
  induction l1 as [|b l1 IH]; cbn [chain app]; [tauto|]. rewrite IH. destruct l1; cbn; tauto.
Qed.
Lemma chain_frame m m' e l :
  (forall q, q ∈ l.*1 -> s_ptr m' q = s_ptr m q /\ s_size m' q = s_size m q) -> chain m e l -> chain m' e l.
Proof.
  induction l as [|b l IH]; intros Hf; [done|]. intros (H1 & H2 & H3).
  destruct (Hf (fst b)) as [E1 E2]; [by left|]. cbn [chain]. rewrite E1, E2. split_and!; [done|done|].
  apply IH; [|done]. intros q Hq. apply Hf. by right.
Qed.
Lemma chain_only m m' e l p : only p m m' -> Forall (sep p) l.*1 -> chain m e l -> chain m' e l.
Proof.
  intros O Hs. apply chain_frame. intros q Hq. rewrite Forall_forall in Hs.
  split; [by eapply only_ptr, Hs|by eapply only_size, Hs].
Qed.
Lemma chain_succ m e l x : chain m e l -> x ∈ l.*1 -> s_ptr m x ∈ tail l.*1 ++ [e].
Proof.
  induction l as [|b l IH]; intros Hc Hx; [by apply elem_of_nil in Hx|].
  destruct Hc as (_ & Hp & Hc). cbn [fmap list_fmap tail] in *. apply elem_of_cons in Hx as [->|Hx].
  - rewrite Hp. destruct l; cbn; [by left|by left].
  - specialize (IH Hc Hx). destruct l; cbn in *; [done|by right].
Qed.

Lemma tiling_app a l1 l2 b : tiling a (l1 ++ l2) b <-> exists c, tiling a l1 c /\ tiling c l2 b.
Proof.
  revert a. induction l1 as [|x l1 IH]; intros a; cbn [tiling app].
  - split; [by exists a|]. by intros (c & -> & ?).
  - rewrite IH. naive_solver.
Qed.
Lemma tiling_le a l b : tiling a l b -> a <= b.
Proof.
  revert a. induction l as [|c l IH]; intros a; cbn; [lia|]. intros (<- & Hn & Ht). apply IH in Ht.
  unfold bend, HDR in *. lia.
Qed.
Lemma tiling_in a l b c : tiling a l b -> c ∈ l -> a <= fst c /\ 1 <= snd c /\ bend c <= b.
Proof.
  intros Ht (l1 & l2 & ->)%list_elem_of_split. apply tiling_app in Ht as (x & H1 & H2 & H3 & H4).
  apply tiling_le in H1, H4. lia.
Qed.
Lemma tiling_disjoint a l b l1 c l2 :
  tiling a l b -> l ≡ₚ l1 ++ c :: l2 -> forall d, d ∈ l1 ++ l2 -> bend c <= fst d \/ bend d <= fst c.
Proof.
  intros Ht Hp d Hd. assert (c ∈ l) as (k1 & k2 & ->)%list_elem_of_split by (rewrite Hp; set_solver).
  assert (d ∈ k1 ++ k2) as Hd'.
  { rewrite <- !Permutation_middle in Hp. apply Permutation_cons_inv in Hp. by rewrite Hp. }
  apply tiling_app in Ht as (x & H1 & H2 & H3 & H4). apply elem_of_app in Hd' as [Hd'|Hd'].
  - destruct (tiling_in _ _ _ _ H1 Hd'). right. lia.
  - destruct (tiling_in _ _ _ _ H4 Hd'). left. lia.
Qed.
Lemma tiling_ne a l b c d l' :
  tiling a l b -> l ≡ₚ c :: d :: l' -> bend c <= fst d \/ bend d <= fst c.
Proof. intros Ht Hp. apply (tiling_disjoint a l b [] c (d :: l') Ht Hp). by left. Qed.

(** The blocks [l], in whatever order, are the memory from [a] to [b]. *)
Definition covers (a : Z) (l : list block) (b : Z) : Prop := exists t, t ≡ₚ l /\ tiling a t b.

#[global] Instance covers_perm a : Proper ((≡ₚ) ==> eq ==> iff) (covers a).
Proof. intros l l' E b ? <-. unfold covers. by setoid_rewrite E. Qed.

Lemma covers_in a l b c : covers a l b -> c ∈ l -> a <= fst c /\ 1 <= snd c /\ bend c <= b.
Proof. intros (t & E & Ht) Hc. eapply tiling_in; [exact Ht|by rewrite E]. Qed.
Lemma covers_ne a l b c d : covers a (c :: d :: l) b -> bend c <= fst d \/ bend d <= fst c.
Proof. intros (t & E & Ht). by eapply tiling_ne. Qed.
Lemma covers_others a l b c d : covers a (c :: l) b -> d ∈ l -> bend c <= fst d \/ bend d <= fst c.
Proof.
  intros Hc (l1 & l2 & ->)%list_elem_of_split. rewrite <- Permutation_middle in Hc. by eapply covers_ne.
Qed.
Lemma covers_le a l b : covers a l b -> a <= b.
Proof. intros (t & _ & Ht). by eapply tiling_le. Qed.

Lemma covers_split a l b p n k :
  covers a ((p, n) :: l) b -> 1 <= k < n -> covers a ((p, n - k) :: (p + HDR * (n - k), k) :: l) b.
Proof.
  intros (t & E & Ht) Hk. assert ((p, n) ∈ t) as (t1 & t2 & ->)%list_elem_of_split by (rewrite E; by left).
  rewrite <- Permutation_middle in E. apply Permutation_cons_inv in E.
  exists (t1 ++ (p, n - k) :: (p + HDR * (n - k), k) :: t2). split.
  { rewrite <- !Permutation_middle. by rewrite E. }
  apply tiling_app in Ht as (x & H1 & H2 & H3 & H4). apply tiling_app. exists x. split; [done|].
  unfold bend in *. cbn [tiling fst snd] in *. split_and!; [done|lia|done|lia|]. unfold bend. cbn [fst snd].
  by replace (p + HDR * (n - k) + HDR * k) with (p + HDR * n) by lia.
Qed.
Lemma covers_join a l b p n k :
  covers a ((p, n) :: (p + HDR * n, k) :: l) b -> covers a ((p, n + k) :: l) b.
Proof.
  intros (t & E & Ht). assert ((p, n) ∈ t) as (t1 & t2 & ->)%list_elem_of_split by (rewrite E; by left).
  rewrite <- Permutation_middle in E. apply Permutation_cons_inv in E.
  apply tiling_app in Ht as (x & H1 & H2 & H3 & H4). cbn [fst snd] in *.
  assert ((p + HDR * n, k) ∈ t1 ++ t2) as [Hin|Hin]%elem_of_app by (rewrite E; by left).
  { apply (tiling_in _ _ _ _ H1) in Hin. unfold bend, HDR in *. cbn in *. lia. }
  destruct t2 as [|c t2]; [by apply elem_of_nil in Hin|]. destruct H4 as (H4 & H5 & H6).
  apply elem_of_cons in Hin as [<-|Hin].
  - rewrite <- Permutation_middle in E. apply Permutation_cons_inv in E.
    exists (t1 ++ (p, n + k) :: t2). split; [by rewrite <- Permutation_middle, E|].
    apply tiling_app. exists x. split; [done|]. unfold bend in *. cbn [tiling fst snd] in *. split_and!; [done|lia|]. unfold bend. cbn [fst snd].
    by replace (p + HDR * (n + k)) with (p + HDR * n + HDR * k) by lia.
  - apply (tiling_in _ _ _ _ H6) in Hin. unfold bend, HDR in *. cbn in *. lia.
Qed.
Lemma covers_snoc a l b n : covers a l b -> 1 <= n -> covers a ((b, n) :: l) (b + HDR * n).
Proof.
  intros (t & E & Ht) Hn. exists (t ++ [(b, n)]). split; [by rewrite <- Permutation_cons_append, E|].
  apply tiling_app. exists b. split; [done|]. by cbn.
Qed.

Lemma gaps_app l1 l2 :
  gaps (l1 ++ l2) <-> gaps l1 /\ gaps l2 /\ Forall (fun b => Forall (fun c => bend b < fst c) l2) l1.
Proof.
  induction l1 as [|b l1 IH]; cbn [gaps app]; [intuition by apply Forall_nil|].
  rewrite IH, Forall_app, Forall_cons. tauto.
Qed.

(** ** The invariant *)

Section Specs.
Context `{UserHeap}.

(** The circular list: [base], of size 0, and the free blocks. *)
Definition nodes (fl : list block) : list block := (base, 0) :: fl.

Record inited (h : heap) (fl al : list block) : Prop := mk_inited {
  in_freep : h_freep h ∈ (nodes fl).*1;
  in_chain : chain (h_mem h) base (nodes fl);
  in_gaps : gaps fl;
  in_cover : covers heap_start (fl ++ al) (h_brk h);
  in_size : Forall (fun b => s_size (h_mem h) (fst b) = snd b) al;
  in_limit : h_brk h <= PHYSTOP - KERNBASE
}.

(** [fl] are the free and [al] the allocated blocks.  Before the first call of
    malloc() there are none. *)
Definition heap_ok (h : heap) (fl al : list block) : Prop :=
  inited h fl al \/ h_freep h = 0 /\ fl = [] /\ al = [] /\ h_brk h = heap_start /\ heap_start <= PHYSTOP - KERNBASE.

(** No byte of the blocks [al] has changed. *)
Definition preserved (al : list block) (h h' : heap) : Prop :=
  forall b x, b ∈ al -> fst b <= x < bend b -> load8 (h_mem h') x = load8 (h_mem h) x.

Lemma limit_small : PHYSTOP - KERNBASE = 2 ^ 27.
Proof. reflexivity. Qed.

Lemma inited_in h fl al b :
  inited h fl al -> b ∈ fl ++ al -> base + HDR <= fst b /\ 1 <= snd b < 2 ^ 27 /\ bend b <= 2 ^ 27.
Proof.
  intros Hi Hb. destruct (covers_in _ _ _ _ (in_cover _ _ _ Hi) Hb) as (H1 & H2 & H3).
  pose proof heap_above. pose proof (in_limit _ _ _ Hi) as H4. rewrite limit_small in H4.
  unfold bend, HDR in *. lia.
Qed.
Lemma node_range h fl al p : inited h fl al -> p ∈ (nodes fl).*1 -> 0 < p < 2 ^ 64 - HDR.
Proof.
  intros Hi Hp. pose proof heap_above as Hab. pose proof (in_limit _ _ _ Hi) as Hl. rewrite limit_small in Hl.
  pose proof (covers_le _ _ _ (in_cover _ _ _ Hi)) as Hle.
  cbn in Hp. apply elem_of_cons in Hp as [->|Hp]; [unfold HDR in *; lia|].
  apply list_elem_of_fmap in Hp as (b & -> & Hb).
  destruct (inited_in _ _ _ b Hi) as (H1 & H2 & H3); [set_solver|]. unfold bend, HDR in *. lia.
Qed.

Lemma hadd_small p n : 0 <= p + HDR * n < 2 ^ 64 -> hadd p n = p + HDR * n.
Proof. apply u64_small. Qed.

(** An allocated block lies apart from every node. *)
Lemma apart_node h fl al b : inited h fl al -> b ∈ al -> Forall (fun q => q + HDR <= fst b \/ bend b <= q) (nodes fl).*1.
Proof.
  intros Hi Hb. destruct (inited_in _ _ _ b Hi) as (Hbb & Hn & _); [set_solver|].
  pose proof (in_cover _ _ _ Hi) as Hc. pose proof Hb as (l1 & l2 & ->)%list_elem_of_split.
  rewrite <- Permutation_middle, <- Permutation_middle in Hc.
  cbn. apply Forall_cons. split; [by left|]. apply Forall_forall. intros q (c & -> & Hin)%list_elem_of_fmap.
  destruct (inited_in _ _ _ c Hi) as (_ & Hcn & _); [set_solver|].
  destruct (covers_others _ _ _ b c Hc) as [?|?]; [set_solver|by right|]. left. unfold bend, HDR in *. lia.
Qed.

Lemma gaps_asc (fl : list block) : gaps fl -> Forall (fun b => 1 <= snd b) fl -> StronglySorted Z.lt fl.*1.
Proof.
  induction fl as [|b fl IH]; intros Hg Hn; cbn; [constructor|]. destruct Hg as [Hb Hg].
  apply Forall_cons in Hn as [Hbn Hn]. constructor; [by apply IH|]. apply Forall_fmap.
  eapply Forall_impl; [exact Hb|]. intros c. cbn. unfold bend, HDR. lia.
Qed.
Lemma nodes_asc h fl al : inited h fl al -> StronglySorted Z.lt (nodes fl).*1.
Proof.
  intros Hi. assert (Forall (fun b => base + HDR <= fst b /\ 1 <= snd b) fl) as Hf.
  { apply Forall_forall. intros b Hb. destruct (inited_in _ _ _ b Hi) as (? & ? & _); [set_solver|lia]. }
  cbn. constructor.
  - apply gaps_asc; [apply (in_gaps _ _ _ Hi)|]. eapply Forall_impl; [exact Hf|]. by intros b [_ ?].
  - apply Forall_fmap. eapply Forall_impl; [exact Hf|]. intros b [? _]. cbn. unfold HDR in *. lia.
Qed.
Lemma chain_asc m e l q : chain m e l -> StronglySorted Z.lt l.*1 -> q ∈ l.*1 -> q < s_ptr m q \/ s_ptr m q = e.
Proof.
  induction l as [|b l IH]; intros Hc Hs Hq; [by apply elem_of_nil in Hq|].
  destruct Hc as (_ & Hp & Hc). cbn in Hs, Hq. apply StronglySorted_inv in Hs as [Hs Hb].
  apply elem_of_cons in Hq as [->|Hq]; [|by apply IH]. rewrite Hp. destruct l as [|c l]; [by right|left].
  cbn in *. by apply Forall_cons in Hb as [? _].
Qed.

(** Splitting the free list at an address between its blocks. *)
Lemma split_at (fl : list block) bp :
  StronglySorted Z.lt fl.*1 -> (bp ∉ fl.*1) ->
  exists f1 f2, fl = f1 ++ f2 /\ Forall (fun q => q < bp) f1.*1 /\ Forall (fun q => bp < q) f2.*1.
Proof.
  induction fl as [|b fl IH]; intros Hs Hbp; [by exists [], []|].
  cbn in Hs, Hbp. apply StronglySorted_inv in Hs as [Hs Hb].
  rewrite elem_of_cons in Hbp. destruct (decide (fst b < bp)) as [Hlt|Hge].
  - destruct IH as (f1 & f2 & -> & H1 & H2); [done|tauto|]. exists (b :: f1), f2. cbn. auto.
  - assert (bp < fst b) as Hgt by lia. exists [], (b :: fl). cbn. split_and!; [done|by constructor|].
    constructor; [done|]. eapply Forall_impl; [exact Hb|]. cbn. lia.
Qed.

(** ** free *)

Definition stops (m : gmap Z Z) (bp p : Z) : bool :=
  (p <? bp) && (bp <? s_ptr m p) || (s_ptr m p <=? p) && ((p <? bp) || (bp <? s_ptr m p)).
Lemma free_find_S n m bp p :
  free_find (S n) m bp p = if stops m bp p then Some p else free_find n m bp (s_ptr m p).
Proof. cbn [free_find]. unfold stops. by destruct (_ && _), (_ && _). Qed.

Lemma find_skip m bp e l n :
  chain m e l -> Forall (fun q => stops m bp q = false) l.*1 ->
  free_find (length l + n) m bp (hd e l.*1) = free_find n m bp e.
Proof.
  induction l as [|b l IH]; intros Hc Hs; [done|]. destruct Hc as (_ & Hp & Hc).
  apply Forall_cons in Hs as [Hb Hs]. cbn [length Nat.add]. rewrite free_find_S. cbn [fmap list_fmap hd].
  rewrite Hb, Hp. by apply IH.
Qed.

(** Nodes on the wrong side of [bp] are passed. *)
Lemma below_passes m bp e l :
  chain m e l -> StronglySorted Z.lt l.*1 -> Forall (fun q => q < e) l.*1 -> Forall (fun q => q < bp) l.*1 -> e < bp ->
  Forall (fun q => stops m bp q = false) l.*1.
Proof.
  intros Hc Hs He Hl Heb. apply Forall_forall. intros q Hq. rewrite Forall_forall in He, Hl.
  pose proof (He q Hq). pose proof (Hl q Hq). pose proof (chain_succ _ _ _ _ Hc Hq) as Hn.
  assert (s_ptr m q < bp) as Hlt.
  { apply elem_of_app in Hn as [Hn|Hn%list_elem_of_singleton]; [|lia]. apply Hl.
    destruct l; [done|]. cbn in *. by right. }
  assert (q < s_ptr m q) as Hgt by (destruct (chain_asc _ _ _ _ Hc Hs Hq); lia).
  unfold stops. rewrite (proj2 (Z.ltb_ge bp _)), (proj2 (Z.leb_gt _ _)) by lia. by rewrite andb_false_r.
Qed.
Lemma above_passes m bp e l :
  chain m e l -> StronglySorted Z.lt l.*1 -> Forall (fun q => bp < q) l.*1 -> e < bp ->
  Forall (fun q => stops m bp q = false) l.*1.
Proof.
  intros Hc Hs Hl He. apply Forall_forall. intros q Hq. rewrite Forall_forall in Hl. pose proof (Hl q Hq).
  unfold stops. rewrite (proj2 (Z.ltb_ge q bp)) by lia. cbn [andb orb].
  destruct (chain_asc _ _ _ _ Hc Hs Hq) as [Hn|Hn].
  - by rewrite (proj2 (Z.leb_gt _ _)) by lia.
  - rewrite (proj2 (Z.ltb_ge bp _)) by lia. apply andb_false_r.
Qed.

Lemma sorted_app_inv l1 l2 : StronglySorted Z.lt (l1 ++ l2) ->
  StronglySorted Z.lt l1 /\ StronglySorted Z.lt l2 /\ Forall (fun x => Forall (Z.lt x) l2) l1.
Proof.
  induction l1 as [|x l1 IH]; cbn; intros Hs; [by repeat split; try constructor|].
  apply StronglySorted_inv in Hs as [Hs Hx]. apply Forall_app in Hx as [Hx1 Hx2].
  destruct (IH Hs) as (? & ? & ?). split_and!; [by constructor|done|by constructor].
Qed.

(** From a node below [bp] the loop reaches the last of them. *)
Lemma find_low m bp p l n :
  chain m p l -> StronglySorted Z.lt l.*1 -> Forall (fun q => q < p) l.*1 -> Forall (fun q => q < bp) l.*1 -> p < bp ->
  stops m bp p = true -> (length l < n)%nat -> free_find n m bp (hd p l.*1) = Some p.
Proof.
  intros Hc Hs Hp Hl Hbp Hst Hn. replace n with (length l + S (n - length l - 1))%nat by lia.
  rewrite find_skip; [by rewrite free_find_S, Hst|done|]. by apply (below_passes m bp p).
Qed.

(** The loop finds the node after which [bp] belongs, wherever it starts. *)
Lemma free_find_ok m bp f e l1 p k l2 n :
  chain m e (l1 ++ (p, k) :: l2) -> e = hd p l1.*1 -> StronglySorted Z.lt (l1 ++ (p, k) :: l2).*1 ->
  Forall (fun q => q < bp) l1.*1 -> p < bp -> Forall (fun q => bp < q) l2.*1 ->
  f ∈ (l1 ++ (p, k) :: l2).*1 -> (length (l1 ++ (p, k) :: l2) < n)%nat -> free_find n m bp f = Some p.
Proof.
  intros Hc He Hs Hlo Hp Hhi Hf Hn. apply chain_app in Hc as (Hc1 & _ & Hpp & Hc2).
  cbn [fmap list_fmap hd fst] in Hc1, Hpp. rewrite fmap_app in Hs, Hf.
  apply sorted_app_inv in Hs as (Hs1 & Hs2 & Hs12). cbn in Hs2. apply StronglySorted_inv in Hs2 as [Hs2 Hs3].
  assert (Forall (fun q => q < p) l1.*1) as Hl1p.
  { eapply Forall_impl; [exact Hs12|]. intros x Hx. by apply Forall_cons in Hx as [? _]. }
  assert (e <= p) as Hep by (subst e; destruct l1; cbn in *; [lia|apply Forall_cons in Hl1p as [? _]; lia]).
  assert (stops m bp p = true) as Hst.
  { unfold stops. rewrite Hpp. destruct l2 as [|c l2]; cbn [fmap list_fmap hd].
    - rewrite (proj2 (Z.leb_le e p)), (proj2 (Z.ltb_lt p bp)) by lia. apply orb_true_r.
    - apply Forall_cons in Hhi as [? _]. by rewrite (proj2 (Z.ltb_lt p bp)), (proj2 (Z.ltb_lt bp _)) by lia. }
  rewrite length_app in Hn. cbn [length] in Hn.
  apply elem_of_app in Hf as [Hf|[->|Hf]%elem_of_cons].
  - apply list_elem_of_fmap in Hf as (c & -> & (a & b & ->)%list_elem_of_split).
    apply chain_app in Hc1 as [_ Hc1]. rewrite fmap_app in *. apply sorted_app_inv in Hs1 as (_ & Hs1 & _).
    apply Forall_app in Hlo as [_ Hlo], Hl1p as [_ Hl1p]. rewrite length_app in Hn.
    apply (find_low m bp p (c :: b)); try done. cbn [length] in *. lia.
  - apply (find_low m bp p []); try done; [constructor|cbn; lia].
  - apply list_elem_of_fmap in Hf as (c & -> & (a & b & ->)%list_elem_of_split).
    apply chain_app in Hc2 as [_ Hc2]. rewrite fmap_app in *. apply sorted_app_inv in Hs2 as (_ & Hs2 & _).
    apply Forall_app in Hhi as [_ Hhi]. rewrite length_app in Hn.
    replace n with (length (c :: b) + (n - length (c :: b)))%nat by (cbn [length] in *; lia).
    change (fst c) with (hd e (c :: b).*1). rewrite find_skip; [|done|].
    + rewrite He. apply find_low; try done. cbn [length] in *. lia.
    + apply (above_passes m bp e); try done. lia.
Qed.

(** Joining on lists of blocks. *)
Definition join_next (b : block) (l : list block) : block * list block :=
  match l with
  | [] => (b, [])
  | c :: l' => if bend b =? fst c then ((fst b, snd b + snd c), l') else (b, l)
  end.
Definition join_prev (c b : block) : list block :=
  if bend c =? fst b then [(fst c, snd c + snd b)] else [c; b].

Definition small (b : block) : Prop := 0 <= fst b /\ 0 <= snd b /\ bend b <= 2 ^ 27.

Lemma join_next_mem m e b p l :
  let m' := free_join_next (fst b) p m in
  s_size m (fst b) = snd b -> s_ptr m p = hd e l.*1 -> chain m e l ->
  sep (fst b) p -> Forall (sep (fst b)) l.*1 -> Forall small (b :: l) -> 0 <= e < fst b ->
  only (fst b) m m' /\ s_size m' (fst b) = snd (fst (join_next b l)) /\
  s_ptr m' (fst b) = hd e (snd (join_next b l)).*1.
Proof.
  intros m' Hb Hp Hc Hsp Hsl [Hsb Hl]%Forall_cons He. unfold m', free_join_next. rewrite Hb, Hp.
  assert (hadd (fst b) (snd b) = bend b) as ->.
  { apply hadd_small. unfold small, bend, HDR in *. lia. }
  destruct l as [|c l]; cbn [join_next fmap list_fmap hd].
  - rewrite (proj2 (Z.eqb_neq _ _)) by (unfold small, bend, HDR in *; lia).
    cbn [fst snd fmap list_fmap hd]. split_and!; [apply only_set_ptr|by rewrite s_size_set_ptr|].
    apply s_ptr_set_ptr. unfold small, bend, HDR in *. lia.
  - destruct Hc as (Hcs & Hcp & _). apply Forall_cons in Hl as [Hsc Hl], Hsl as [Hsl _].
    destruct (Z.eqb_spec (bend b) (fst c)) as [E|E]; cbn [fst snd fmap list_fmap hd].
    + assert (s_size m (fst c) = snd c) as -> by done. set (m1 := set_size _ _ m).
      assert (only (fst b) m m1) as O by apply only_set_size.
      rewrite (only_ptr _ _ _ p O Hsp), Hp. cbn [fmap list_fmap hd]. rewrite (only_ptr _ _ _ _ O Hsl), Hcp.
      assert (0 <= hd e l.*1 < 2 ^ 64) as Hr.
      { destruct l as [|d l]; [unfold small, bend, HDR in *; cbn; lia|]. apply Forall_cons in Hl as [Hd _].
        unfold small, bend, HDR in Hd. cbn. lia. }
      split_and!; [eapply only_trans; [exact O|apply only_set_ptr]| |by apply s_ptr_set_ptr].
      rewrite s_size_set_ptr. unfold m1. rewrite u32_small by (unfold small, bend, HDR in *; lia).
      apply s_size_set_size. unfold small, bend, HDR in *. lia.
    + split_and!; [apply only_set_ptr|by rewrite s_size_set_ptr|].
      apply s_ptr_set_ptr. unfold small, bend, HDR in *. lia.
Qed.

Lemma join_prev_mem m e c b l :
  let m' := free_join_prev (fst b) (fst c) m in
  s_size m (fst c) = snd c -> chain m e (b :: l) -> sep (fst c) (fst b) -> Forall (sep (fst c)) l.*1 ->
  Forall small (c :: b :: l) -> 0 <= e < 2 ^ 64 ->
  only (fst c) m m' /\ chain m' e (join_prev c b ++ l).
Proof.
  intros m' Hcs Hc Hs Hsl Hsm He. pose proof Hc as (Hbs & Hbp & Hl).
  apply Forall_cons in Hsm as [Hsc [Hsb Hsm]%Forall_cons]. unfold m', free_join_prev, join_prev. rewrite Hcs.
  assert (hadd (fst c) (snd c) = bend c) as ->.
  { apply hadd_small. unfold small, bend, HDR in *. lia. }
  destruct (Z.eqb_spec (bend c) (fst b)) as [E|E].
  - rewrite Hbs. set (m1 := set_size _ _ m). assert (only (fst c) m m1) as O by apply only_set_size.
    rewrite (only_ptr _ _ _ _ O Hs), Hbp. set (m2 := set_ptr _ _ m1).
    assert (only (fst c) m m2) as O2 by (eapply only_trans; [exact O|apply only_set_ptr]).
    split; [done|]. cbn [app chain fst snd]. split_and!.
    + unfold m2. rewrite s_size_set_ptr. unfold m1.
      rewrite u32_small by (unfold small, bend, HDR in *; lia). apply s_size_set_size.
      unfold small, bend, HDR in *. lia.
    + apply s_ptr_set_ptr. destruct l as [|d l]; [done|]. apply Forall_cons in Hsm as [Hd _].
      unfold small, bend, HDR in Hd. cbn. lia.
    + by eapply chain_only.
  - set (m1 := set_ptr _ _ m). assert (only (fst c) m m1) as O by apply only_set_ptr.
    split; [done|]. cbn [app chain fmap list_fmap hd]. split_and!.
    + unfold m1. by rewrite s_size_set_ptr.
    + apply s_ptr_set_ptr. unfold small, bend, HDR in *. lia.
    + by rewrite (only_size _ _ _ _ O Hs).
    + by rewrite (only_ptr _ _ _ _ O Hs).
    + by eapply chain_only.
Qed.

Lemma join_next_covers a b l r d : covers a (b :: l ++ r) d ->
  covers a (fst (join_next b l) :: snd (join_next b l) ++ r) d.
Proof.
  destruct l as [|c l]; [done|]. cbn [join_next]. destruct (Z.eqb_spec (bend b) (fst c)) as [E|E]; [|done].
  destruct b as [p n], c as [q k]. cbn [fst snd app] in *. intros Hc. apply covers_join.
  unfold bend in E. cbn [fst snd] in E. by rewrite E.
Qed.
Lemma join_prev_covers a c b r d : covers a (c :: b :: r) d -> covers a (join_prev c b ++ r) d.
Proof.
  unfold join_prev. destruct (Z.eqb_spec (bend c) (fst b)) as [E|E]; [|done].
  destruct b as [p n], c as [q k]. cbn [fst snd app] in *. intros Hc. apply covers_join.
  unfold bend in E. cbn [fst snd] in E. by rewrite E.
Qed.

Lemma join_next_gaps b l :
  gaps l -> Forall (fun c => bend b <= fst c) l -> Forall (fun c => 1 <= snd c) l ->
  gaps (fst (join_next b l) :: snd (join_next b l)).
Proof.
  destruct l as [|c l]; [done|]. intros [Hc Hg] [Hb _]%Forall_cons [Hn _]%Forall_cons. cbn [join_next].
  destruct (Z.eqb_spec (bend b) (fst c)) as [E|E]; cbn [fst snd].
  - split; [|done]. eapply Forall_impl; [exact Hc|]. unfold bend, HDR in *. cbn [fst snd]. intros x. lia.
  - split; [|done]. constructor; [lia|]. eapply Forall_impl; [exact Hc|]. unfold bend, HDR in *. intros x. lia.
Qed.
Lemma join_next_sub b l : snd (join_next b l) ⊆ l.
Proof. destruct l as [|c l]; cbn; [done|]. case_match; set_solver. Qed.
Lemma join_next_fst b l : fst (fst (join_next b l)) = fst b.
Proof. destruct l as [|c l]; cbn; [done|]. by case_match. Qed.
Lemma join_next_snd b l : Forall (fun c => 0 <= snd c) l -> snd b <= snd (fst (join_next b l)).
Proof. destruct l as [|c l]; cbn; [done|]. intros [? _]%Forall_cons. case_match; cbn; lia. Qed.

Lemma join_prev_gaps l1 c b l :
  gaps (l1 ++ [c]) -> gaps (b :: l) -> bend c <= fst b -> 1 <= snd c -> 1 <= snd b ->
  Forall (fun x => Forall (fun y => bend x < fst y) l) (l1 ++ [c]) ->
  gaps (l1 ++ join_prev c b ++ l).
Proof.
  intros (Hg1 & _ & Hlc)%gaps_app [Hb Hg] Hcb Hc Hbn Hl. apply Forall_app in Hl as [Hl Hcl].
  rewrite Forall_singleton in Hcl.
  assert (Forall (fun x => bend x < fst c) l1) as Hl1.
  { eapply Forall_impl; [exact Hlc|]. intros x. by rewrite Forall_singleton. }
  apply gaps_app. unfold join_prev. destruct (Z.eqb_spec (bend c) (fst b)) as [E|E]; cbn [app gaps].
  - split_and!; [done| |done|].
    + eapply Forall_impl; [exact Hb|]. unfold bend, HDR in *. cbn [fst snd]. intros x. lia.
    + apply Forall_forall. intros x Hx. rewrite Forall_forall in Hl1, Hl. constructor; [by apply Hl1|by apply Hl].
  - split_and!; [done|constructor; [lia|done]|done|done|].
    apply Forall_forall. intros x Hx. rewrite Forall_forall in Hl1, Hl. pose proof (Hl1 x Hx).
    constructor; [done|]. constructor; [|by apply Hl]. unfold bend, HDR in *. lia.
Qed.

(** The block of the new list that holds a freed one. *)
Lemma join_prev_holds c b : 0 <= snd c -> 0 <= snd b ->
  exists d, d ∈ join_prev c b /\ fst d <= fst b /\ bend b <= bend d /\ snd b <= snd d.
Proof.
  intros Hc Hb. unfold join_prev. destruct (Z.eqb_spec (bend c) (fst b)) as [E|E].
  - eexists. split; [by left|]. unfold bend, HDR in *. cbn [fst snd]. lia.
  - exists b. split; [by right; left|]. lia.
Qed.

Lemma covers_two a l b c d : covers a l b -> c ∈ l -> d ∈ l -> c <> d -> bend c <= fst d \/ bend d <= fst c.
Proof.
  intros Hc (l1 & l2 & ->)%list_elem_of_split Hd Hne. rewrite <- Permutation_middle in Hc.
  eapply covers_others; [exact Hc|]. set_solver.
Qed.
Lemma nodes_sep h fl al x y : inited h fl al -> x ∈ (nodes fl).*1 -> y ∈ (nodes fl).*1 -> x <> y -> sep x y.
Proof.
  intros Hi Hx Hy Hne. assert (forall z, z ∈ fl.*1 -> base + HDR <= z) as Hb.
  { intros z (b & -> & Hz)%list_elem_of_fmap. apply (inited_in _ _ _ b Hi). set_solver. }
  unfold sep. apply elem_of_cons in Hx as [->|Hx], Hy as [->|Hy]; [done|left; auto|right; auto|].
  apply list_elem_of_fmap in Hx as (b & -> & Hx), Hy as (c & -> & Hy).
  destruct (inited_in _ _ _ b Hi) as (_ & ? & _); [set_solver|].
  destruct (inited_in _ _ _ c Hi) as (_ & ? & _); [set_solver|].
  destruct (covers_two _ _ _ b c (in_cover _ _ _ Hi)) as [?|?]; [set_solver|set_solver|congruence|..];
    unfold bend, HDR in *; lia.
Qed.
Lemma nodes_small h fl al : inited h fl al -> Forall small (nodes fl).
Proof.
  intros Hi. pose proof heap_above. pose proof (in_limit _ _ _ Hi) as Hl. rewrite limit_small in Hl.
  pose proof (covers_le _ _ _ (in_cover _ _ _ Hi)). constructor.
  - unfold small, bend, HDR in *. cbn. lia.
  - apply Forall_forall. intros b Hb. destruct (inited_in _ _ _ b Hi) as (? & ? & ?); [set_solver|].
    unfold small, HDR in *. lia.
Qed.

Lemma sorted_NoDup l : StronglySorted Z.lt l -> NoDup l.
Proof.
  induction 1 as [|x l Hs IH Hx]; constructor; [|done]. intros Hin. rewrite Forall_forall in Hx.
  specialize (Hx x Hin). lia.
Qed.

(** The node before the freed block, [c], in the list split there. *)
Lemma node_before f1 : exists a c, nodes f1 = a ++ [c] /\ hd (fst c) a.*1 = base /\
  (a = [] /\ c = (base, 0) /\ f1 = [] \/ exists a', a = nodes a' /\ f1 = a' ++ [c]).
Proof.
  destruct (exists_last (l := nodes f1)) as (a & c & E); [done|]. exists a, c. split_and!; [done| |].
  - destruct a; unfold nodes in E; cbn in E; by injection E as <- _.
  - destruct a as [|d a]; unfold nodes in E; cbn in E; injection E as <- E; [by left|right]. by exists a.
Qed.

Lemma join_next_small b l : small b -> Forall small l -> Forall small (fst (join_next b l) :: snd (join_next b l)).
Proof.
  intros Hb Hl. destruct l as [|d l]; cbn [join_next fst snd]; [by constructor|].
  destruct (Z.eqb_spec (bend b) (fst d)) as [E|E]; [|by constructor]. apply Forall_cons in Hl as [Hd Hl].
  constructor; [|done]. unfold small, bend, HDR in *. cbn [fst snd]. lia.
Qed.
Lemma join_next_chain m e b l : chain m e l -> chain m e (snd (join_next b l)).
Proof. destruct l as [|d l]; [done|]. intros (? & ? & ?). cbn [join_next]. case_match; [done|by split_and!]. Qed.

(** What the joins leave in memory, as a chain. *)
Lemma free_chain h fl b al a c f2 :
  inited h fl (b :: al) -> nodes fl = a ++ c :: f2 -> hd (fst c) a.*1 = base -> base < fst b ->
  let r := join_next b f2 in
  let m' := free_join_prev (fst b) (fst c) (free_join_next (fst b) (fst c) (h_mem h)) in
  chain m' base (a ++ join_prev c (fst r) ++ snd r) /\
  forall x, (~ fst b <= x < fst b + HDR) -> ~ (fst c <= x < fst c + HDR) -> load8 m' x = load8 (h_mem h) x.
Proof.
  intros Hi En Ha Hbb r m'. set (m := h_mem h) in *. set (m1 := free_join_next (fst b) (fst c) m) in *.
  pose proof (apart_node _ _ _ b Hi ltac:(by left)) as Hap. pose proof (nodes_small _ _ _ Hi) as Hsm.
  assert (small b) as Hb.
  { destruct (inited_in _ _ _ b Hi) as (? & ? & ?); [set_solver|]. pose proof heap_above. unfold small, HDR in *. lia. }
  assert (Forall (sep (fst b)) (nodes fl).*1) as Hsb.
  { eapply Forall_impl; [exact Hap|]. destruct (inited_in _ _ _ b Hi) as (? & ? & ?); [set_solver|].
    unfold sep, bend, HDR in *. intros x. lia. }
  assert (Forall (sep (fst c)) (a ++ f2).*1) as Hsc.
  { pose proof (sorted_NoDup _ (nodes_asc _ _ _ Hi)) as Hnd. rewrite En, fmap_app in Hnd. cbn in Hnd.
    rewrite <- Permutation_middle in Hnd. apply NoDup_cons in Hnd as [Hnd _]. rewrite <- fmap_app in Hnd.
    apply Forall_forall. intros x Hx. apply (nodes_sep h fl (b :: al)); [done|rewrite En; set_solver| |set_solver].
    rewrite En. rewrite !fmap_app in *. set_solver. }
  pose proof (in_chain _ _ _ Hi) as Hc. fold m in Hc. rewrite En in Hc, Hsb, Hsm. rewrite fmap_app in Hsb, Hsc.
  apply Forall_app in Hsb as [Hsb1 [Hsbc Hsb2]%Forall_cons], Hsm as [_ [Hsmc Hsm2]%Forall_cons], Hsc as [Hsc1 Hsc2].
  apply chain_app in Hc as (Hc1 & Hcs & Hcp & Hc2).
  destruct (join_next_mem m base b (fst c) f2) as (O1 & R1 & R2); try done.
  { pose proof (in_size _ _ _ Hi) as Hs. by apply Forall_cons in Hs as [? _]. }
  { by constructor. }
  { pose proof heap_above. lia. }
  fold m1 in O1, R1, R2. fold r in R1, R2.
  assert (snd r ⊆ f2) as Hsub by apply join_next_sub. assert (fst (fst r) = fst b) as Hfst by apply join_next_fst.
  assert (chain m1 base (fst r :: snd r)) as Hr.
  { cbn [chain]. rewrite Hfst, R1, R2. split_and!; [done|done|]. assert (chain m1 base f2) as Hf by (by eapply chain_only).
    by apply join_next_chain. }
  assert (Forall small (fst r :: snd r)) as Hsr by (by apply join_next_small).
  destruct (join_prev_mem m1 base c (fst r) (snd r)) as [O2 Hj]; try done.
  { by rewrite (only_size _ _ _ _ O1 Hsbc). }
  { rewrite Hfst. unfold sep in *. tauto. }
  { apply Forall_forall. intros x (y & -> & Hy)%list_elem_of_fmap. rewrite Forall_forall in Hsc2. set_solver. }
  { by constructor. }
  { pose proof heap_above. unfold small in Hb. unfold bend, HDR in *. lia. }
  rewrite Hfst in O2, Hj. fold m' in O2, Hj. split.
  - apply chain_app. split; [|done]. eapply chain_only; [exact O2|done|]. eapply chain_only; [exact O1|done|].
    replace (hd base (join_prev c (fst r) ++ snd r).*1) with (fst c); [done|]. unfold join_prev. by case_match.
  - intros x Hx1 Hx2. by rewrite (O2 x Hx2), (O1 x Hx1).
Qed.

(** The list after a block has been freed. *)
Lemma free_lists h fl b al a c f1 f2 :
  inited h fl (b :: al) -> fl = f1 ++ f2 -> nodes f1 = a ++ [c] -> 
  (a = [] /\ c = (base, 0) /\ f1 = [] \/ exists a', a = nodes a' /\ f1 = a' ++ [c]) ->
  Forall (fun q => q < fst b) f1.*1 -> Forall (fun q => fst b < q) f2.*1 ->
  let r := join_next b f2 in
  exists fl', nodes fl' = a ++ join_prev c (fst r) ++ snd r /\ gaps fl' /\
    covers heap_start (fl' ++ al) (h_brk h) /\ (length fl' <= S (length fl))%nat /\
    exists d, d ∈ fl' /\ fst d <= fst b /\ bend b <= bend d /\ snd b <= snd d.
Proof.
  intros Hi -> En Hcase Hlo Hhi r. pose proof (in_cover _ _ _ Hi) as Hcov. pose proof (in_gaps _ _ _ Hi) as Hg.
  assert (forall x, x ∈ b :: f1 ++ f2 -> base + HDR <= fst x /\ 1 <= snd x) as Hn.
  { intros x Hx. destruct (inited_in _ _ _ x Hi) as (? & ? & _); [set_solver|lia]. }
  assert (forall x, x ∈ f1 ++ f2 -> bend b <= fst x \/ bend x <= fst b) as Hd.
  { intros x Hx. rewrite <- Permutation_middle in Hcov. eapply covers_others; [exact Hcov|set_solver]. }
  apply gaps_app in Hg as (Hg1 & Hg2 & Hg12). destruct (Hn b) as [Hbb Hbn]; [set_solver|].
  rewrite !Forall_forall in Hlo, Hhi.
  assert (gaps (fst r :: snd r)) as Hgr.
  { apply join_next_gaps; [done| |]; apply Forall_forall; intros x Hx.
    - specialize (Hhi (fst x)). destruct (Hd x) as [?|Hx']; [set_solver|done|]. exfalso.
      destruct (Hn x); [set_solver|]. assert (fst b < fst x) by (apply Hhi; set_solver). unfold bend, HDR in *. lia.
    - apply Hn. set_solver. }
  assert (covers heap_start (f1 ++ fst r :: snd r ++ al) (h_brk h)) as Hcr.
  { eapply (covers_perm _ (fst r :: snd r ++ f1 ++ al)); [solve_Permutation|done|]. apply join_next_covers.
    eapply covers_perm; [|done|exact Hcov].
    solve_Permutation. }
  assert (fst (fst r) = fst b) as Hfst by apply join_next_fst.
  assert (snd b <= snd (fst r)) as Hsnd.
  { apply join_next_snd. apply Forall_forall. intros x Hx. destruct (Hn x); [set_solver|lia]. }
  assert (snd r ⊆ f2) as Hsub by apply join_next_sub.
  assert (length (snd r) <= length f2)%nat as Hlen.
  { unfold r. destruct f2; cbn; [done|]. case_match; cbn; lia. }
  destruct Hcase as [(-> & -> & ->)|(a' & -> & ->)].
  - exists (fst r :: snd r). split_and!.
    + unfold join_prev. rewrite (proj2 (Z.eqb_neq _ _)); [done|]. unfold bend, HDR in *. cbn. lia.
    + done.
    + done.
    + cbn. lia.
    + exists (fst r). split_and!; [by left|lia|unfold bend, HDR; lia|done].
  - destruct (Hn c) as [Hcb Hcn]; [set_solver|].
    assert (fst c < fst b) as Hcl by (apply Hlo; set_solver).
    exists (a' ++ join_prev c (fst r) ++ snd r). split_and!.
    + done.
    + apply join_prev_gaps; [done|done| |done|lia|].
      * rewrite Hfst. destruct (Hd c) as [?|?]; [set_solver| |done]. unfold bend, HDR in *. lia.
      * eapply Forall_impl; [exact Hg12|]. intros x Hx. rewrite Forall_forall in *. set_solver.
    + eapply (covers_perm _ (join_prev c (fst r) ++ a' ++ snd r ++ al)); [solve_Permutation|done|].
      apply join_prev_covers. eapply covers_perm; [|done|exact Hcr]. solve_Permutation.
    + rewrite !length_app. unfold join_prev. case_match; cbn; lia.
    + destruct (join_prev_holds c (fst r)) as (d & Hin & H1 & H2 & H3); [lia|lia|].
      exists d. split_and!; [set_solver|lia|unfold bend, HDR in *; lia|lia].
Qed.

Lemma preserved_sizes h fl al0 al h' :
  inited h fl al0 -> al ⊆ al0 -> preserved al h h' -> Forall (fun b => s_size (h_mem h') (fst b) = snd b) al.
Proof.
  intros Hi Hsub Hpr. apply Forall_forall. intros b Hb. destruct (inited_in _ _ _ b Hi) as (_ & Hn & _); [set_solver|].
  pose proof (in_size _ _ _ Hi) as Hs. rewrite Forall_forall in Hs. rewrite <- (Hs b) by set_solver.
  apply load32_ext. intros x Hx. apply (Hpr b); [done|]. unfold bend, HDR. lia.
Qed.

Lemma free_ok h fl b al n : inited h fl (b :: al) -> (length fl + 1 < n)%nat ->
  exists fl' h', free n (fst b + HDR) h = Some h' /\ inited h' fl' al /\ h_brk h' = h_brk h /\
    (length fl' <= S (length fl))%nat /\ preserved al h h' /\
    exists d, d ∈ fl' /\ fst d <= fst b /\ bend b <= bend d /\ snd b <= snd d.
Proof.
  intros Hi Hn. pose proof (nodes_asc _ _ _ Hi) as Hs. pose proof heap_above as Hab.
  pose proof (apart_node _ _ _ b Hi ltac:(by left)) as Hap. rewrite Forall_forall in Hap.
  destruct (inited_in _ _ _ b Hi) as (Hb1 & Hb2 & Hb3); [set_solver|].
  destruct (split_at fl (fst b)) as (f1 & f2 & E & Hlo & Hhi).
  { by apply StronglySorted_inv in Hs as [? _]. }
  { intros Hin. destruct (Hap (fst b)) as [?|?]; [by right|unfold HDR in *; lia|unfold bend, HDR in *; lia]. }
  destruct (node_before f1) as (a & c & En & Hhd & Hcase).
  assert (nodes fl = a ++ c :: f2) as En'.
  { rewrite E. change (nodes (f1 ++ f2)) with (nodes f1 ++ f2). by rewrite En, <- app_assoc. }
  assert (Forall (fun q => q < fst b) (a ++ [c]).*1) as Hlo'.
  { rewrite <- En. constructor; [unfold HDR in *; cbn; lia|done]. }
  rewrite fmap_app in Hlo'. apply Forall_app in Hlo' as [Hlo1 [Hlo2 _]%Forall_cons].
  destruct (free_lists h fl b al a c f1 f2 Hi E En Hcase Hlo Hhi) as (fl' & Enew & Hg & Hcov & Hlen & Hd).
  destruct (free_chain h fl b al a c f2 Hi En' Hhd) as [Hch Hfr]; [unfold HDR in *; lia|].
  assert (free_find n (h_mem h) (fst b) (h_freep h) = Some (fst c)) as Ef.
  { pose proof (in_chain _ _ _ Hi) as Hc. pose proof (in_freep _ _ _ Hi) as Hf. rewrite En' in Hc, Hs, Hf.
    destruct c as [cp ck]. eapply (free_find_ok _ _ _ base a cp ck f2); try done.
    rewrite <- En'. cbn [length nodes]. lia. }
  set (m' := free_join_prev _ _ _) in *.
  assert (preserved al h (mk_heap m' (fst c) (h_brk h))) as Hpr.
  { intros d x Hd' Hx. pose proof (apart_node _ _ _ d Hi ltac:(by right)) as Hapd. rewrite Forall_forall in Hapd.
    pose proof (in_cover _ _ _ Hi) as Hcv. rewrite <- Permutation_middle in Hcv.
    apply Hfr; cbn; intros Hx'.
    - destruct (covers_others _ _ _ b d Hcv) as [?|?]; [set_solver|..]; unfold bend, HDR in *; lia.
    - destruct (Hapd (fst c)) as [?|?]; [rewrite En'; set_solver|..]; lia. }
  exists fl', (mk_heap m' (fst c) (h_brk h)). split_and!; try done.
  - unfold free. assert (hadd (fst b + HDR) (-1) = fst b) as ->.
    { rewrite hadd_small; unfold bend, HDR in *; lia. }
    by rewrite Ef.
  - rewrite <- Enew in Hch. split; cbn [h_mem h_freep h_brk]; try done.
    + rewrite Enew, !fmap_app, !elem_of_app. right. left. unfold join_prev. case_match; by left.
    + apply (preserved_sizes h fl (b :: al) al (mk_heap m' (fst c) (h_brk h)) Hi); [set_solver|exact Hpr].
    + apply (in_limit _ _ _ Hi).
Qed.

(** ** malloc *)

(** A block that sbrk() has just added is allocated as far as the list goes. *)
Lemma inited_grown h fl al k b' :
  inited h fl al -> 1 <= k -> grow (h_brk h) (k * HDR) = Some b' ->
  inited (mk_heap (set_size (h_brk h) k (h_mem h)) (h_freep h) b') fl ((h_brk h, k) :: al).
Proof.
  intros Hi Hk Hg. pose proof (grow_fits _ _ _ Hg) as Hfit. apply grow_adds in Hg; [|unfold HDR; lia].
  pose proof (in_cover _ _ _ Hi) as Hc. pose proof (covers_le _ _ _ Hc) as Hle. pose proof heap_above as Hab.
  assert (forall b, b ∈ fl ++ al -> fst b + HDR <= h_brk h) as Hlow.
  { intros b Hb. destruct (covers_in _ _ _ _ Hc Hb) as (_ & ? & ?). unfold bend, HDR in *. lia. }
  pose proof (only_set_size (h_brk h) k (h_mem h)) as O. rewrite limit_small in Hfit.
  split; cbn [h_mem h_freep h_brk].
  - apply (in_freep _ _ _ Hi).
  - eapply chain_only; [exact O| |apply (in_chain _ _ _ Hi)].
    constructor; [right; unfold HDR in *; cbn; lia|]. apply Forall_forall. intros q (b & -> & Hb)%list_elem_of_fmap.
    right. apply Hlow. set_solver.
  - apply (in_gaps _ _ _ Hi).
  - rewrite <- Permutation_middle. rewrite Hg, Z.mul_comm. by apply covers_snoc.
  - constructor.
    + apply s_size_set_size. cbn [fst snd]. unfold HDR in *. lia.
    + pose proof (in_size _ _ _ Hi) as Hs. apply Forall_forall. intros b Hb. rewrite Forall_forall in Hs.
      rewrite (only_size _ _ _ _ O); [by apply Hs|]. right. apply Hlow. set_solver.
  - by rewrite limit_small.
Qed.

Lemma preserved_trans al h1 h2 h3 : preserved al h1 h2 -> preserved al h2 h3 -> preserved al h1 h3.
Proof. intros P1 P2 b x Hb Hx. by rewrite (P2 b x), (P1 b x). Qed.

Lemma morecore_ok h fl al nu n :
  inited h fl al -> 1 <= nu < 2 ^ 27 -> (length fl + 1 < n)%nat ->
  match grow (h_brk h) (Z.max nu 4096 * HDR) with
  | None => morecore n nu h = Some (0, h)
  | Some _ => exists fl' h', morecore n nu h = Some (h_freep h', h') /\ h_freep h' <> 0 /\ inited h' fl' al /\
      (length fl' <= S (length fl))%nat /\ h_brk h' = h_brk h + Z.max nu 4096 * HDR /\ preserved al h h' /\
      exists d, d ∈ fl' /\ nu <= snd d
  end.
Proof.
  intros Hi Hnu Hn. unfold morecore.
  assert ((if nu <? 4096 then 4096 else nu) = Z.max nu 4096) as -> by (destruct (Z.ltb_spec nu 4096); lia).
  set (k := Z.max nu 4096) in *. assert (1 <= k < 2 ^ 27 /\ nu <= k) as [Hk Hnk] by lia. clearbody k.
  rewrite u64_small, i32_small by (unfold HDR; lia).
  destruct (grow (h_brk h) (k * HDR)) as [b'|] eqn:Eg; [|done].
  pose proof (inited_grown h fl al k b' Hi ltac:(lia) Eg) as Hi1.
  destruct (free_ok _ _ _ _ n Hi1 Hn) as (fl' & h' & E & Hi' & Hb' & Hlen & Hpr & d & Hd & _ & _ & Hdn).
  cbn [fst snd] in *. assert (hadd (h_brk h) 1 = h_brk h + HDR) as ->.
  { pose proof (covers_le _ _ _ (in_cover _ _ _ Hi)). pose proof (in_limit _ _ _ Hi) as Hl.
    rewrite limit_small in Hl. pose proof heap_above. rewrite hadd_small; unfold HDR in *; lia. }
  rewrite E. exists fl', h'. split_and!; try done.
  - pose proof (node_range _ _ _ _ Hi' (in_freep _ _ _ Hi')). lia.
  - rewrite Hb'. cbn [h_brk]. apply grow_adds in Eg; [done|]. unfold HDR. lia.
  - intros b x Hb Hx. rewrite (Hpr b x Hb Hx). cbn. apply only_set_size.
    destruct (covers_in _ _ _ b (in_cover _ _ _ Hi)) as (_ & _ & ?); [set_solver|lia].
  - exists d. split; [done|lia].
Qed.

(** The successor of the last node of a chain. *)
Lemma chain_last m e l x : chain m e l -> s_ptr m x = hd e l.*1 -> s_ptr m (default x (last l.*1)) = e.
Proof.
  revert x. induction l as [|b l IH]; intros x Hc Hx; [done|]. destruct Hc as (_ & Hp & Hc).
  cbn [fmap list_fmap]. destruct l as [|c l]; [done|]. cbn [fmap list_fmap] in *. rewrite last_cons_cons. 
  specialize (IH (fst b) Hc Hp). cbn in IH |- *. destruct (last (fst c :: l.*1)) eqn:El; [done|].
  by apply last_None in El.
Qed.
Lemma default_last_in (x : Z) l : default x (last l) ∈ x :: l.
Proof.
  destruct (last l) as [y|] eqn:E; cbn; [|by left]. right. by apply last_Some_elem_of.
Qed.

Lemma scan_skip n N nu prev e l h :
  chain (h_mem h) e l -> Forall (fun b => snd b < nu) l -> (h_freep h ∉ l.*1) ->
  malloc_scan (length l + n) N nu prev (hd e l.*1) h
  = malloc_scan n N nu (default prev (last l.*1)) e h.
Proof.
  revert prev. induction l as [|b l IH]; intros prev Hc Hs Hf; [done|]. destruct Hc as (Hb & Hp & Hc).
  apply Forall_cons in Hs as [Hbs Hs]. cbn [fmap list_fmap] in Hf. apply not_elem_of_cons in Hf as [Hf1 Hf].
  cbn [length Nat.add fmap list_fmap hd malloc_scan]. rewrite Hb, (proj2 (Z.leb_gt _ _)) by lia.
  rewrite (proj2 (Z.eqb_neq _ _)) by congruence. rewrite Hp, IH by done. f_equal.
  destruct l as [|c l]; [done|]. cbn [fmap list_fmap]. rewrite last_cons_cons.
  destruct (last (fst c :: l.*1)) eqn:El; [done|]. by apply last_None in El.
Qed.

(** A node whose successor is the free block [q] is the one before it. *)
Lemma node_pred h f1 q f2 al a c prev :
  inited h (f1 ++ q :: f2) al -> nodes f1 = a ++ [c] -> prev ∈ (nodes (f1 ++ q :: f2)).*1 ->
  s_ptr (h_mem h) prev = fst q -> prev = fst c.
Proof.
  intros Hi En Hin Hp. pose proof (in_chain _ _ _ Hi) as Hc.
  pose proof (sorted_NoDup _ (nodes_asc _ _ _ Hi)) as Hnd.
  change (nodes (f1 ++ q :: f2)) with (nodes f1 ++ q :: f2) in *.
  assert (base ∈ (nodes f1).*1) as Hbase by (by left).
  rewrite En in Hc, Hnd, Hin, Hbase. rewrite <- app_assoc in Hc, Hnd, Hin. cbn [app] in *.
  apply chain_app in Hc as [Hc1 (_ & _ & Hc2)]. cbn [fmap list_fmap hd] in Hc1.
  rewrite fmap_app in *. cbn [fmap list_fmap] in *. apply elem_of_app in Hin as [Hin|[->|Hin]%elem_of_cons]; [..|done|].
  - exfalso. pose proof (chain_succ _ _ _ _ Hc1 Hin) as Hs. rewrite Hp in Hs.
    apply NoDup_app in Hnd as (_ & Hd & Hnd). apply NoDup_cons in Hnd as [Hcq _].
    apply elem_of_app in Hs as [Hs|Hs%list_elem_of_singleton].
    + apply (Hd (fst q)); [destruct a; [done|by right]|by right; left].
    + apply Hcq. rewrite <- Hs. by left.
  - exfalso. pose proof (chain_succ _ _ _ _ Hc2 Hin) as Hs. rewrite Hp in Hs.
    apply NoDup_app in Hnd as (_ & Hd & Hnd). pose proof Hnd as [_ Hnd2]%NoDup_cons.
    cbn [fmap list_fmap tail] in *. apply NoDup_cons in Hnd2 as [Hq _].
    apply elem_of_app in Hs as [Hs|Hs%list_elem_of_singleton]; [done|].
    rewrite elem_of_app, list_elem_of_singleton in Hbase. destruct Hbase as [Hb|Hb].
    + apply (Hd base Hb). rewrite <- Hs. by right; left.
    + apply NoDup_cons in Hnd as [Hnd _]. apply Hnd. rewrite <- Hb, <- Hs. by left.
Qed.

Lemma gaps_remove f1 q f2 : gaps (f1 ++ q :: f2) -> gaps (f1 ++ f2).
Proof.
  intros (H1 & [_ H2] & H3)%gaps_app. apply gaps_app. split_and!; [done|done|].
  eapply Forall_impl; [exact H3|]. by intros x [_ ?]%Forall_cons.
Qed.

(** A block of exactly the size is unlinked. *)
Lemma take_exact h f1 q f2 al prev :
  inited h (f1 ++ q :: f2) al -> prev ∈ (nodes (f1 ++ q :: f2)).*1 -> s_ptr (h_mem h) prev = fst q ->
  let h' := mk_heap (set_ptr prev (s_ptr (h_mem h) (fst q)) (h_mem h)) prev (h_brk h) in
  inited h' (f1 ++ f2) (q :: al) /\ preserved al h h'.
Proof.
  intros Hi Hin Hp h'. destruct (node_before f1) as (a & c & En & Hhd & _).
  assert (prev = fst c) as -> by (by eapply node_pred). set (m' := set_ptr _ _ _) in *.
  pose proof (only_set_ptr (fst c) (s_ptr (h_mem h) (fst q)) (h_mem h)) as O. fold m' in O.
  pose proof (sorted_NoDup _ (nodes_asc _ _ _ Hi)) as Hnd. pose proof (in_chain _ _ _ Hi) as Hc.
  assert (nodes (f1 ++ q :: f2) = a ++ c :: q :: f2) as En'.
  { change (nodes (f1 ++ q :: f2)) with (nodes f1 ++ q :: f2). by rewrite En, <- app_assoc. }
  assert (Forall (sep (fst c)) (a ++ q :: f2).*1) as Hsep.
  { rewrite En', fmap_app in Hnd. cbn [fmap list_fmap] in Hnd. rewrite <- Permutation_middle in Hnd.
    apply NoDup_cons in Hnd as [Hnd _]. change (fst q :: f2.*1) with (q :: f2).*1 in Hnd. rewrite <- fmap_app in Hnd.
    apply Forall_forall. intros x Hx. apply (nodes_sep _ _ _ _ _ Hi); [done| |set_solver].
    rewrite En'. rewrite fmap_app in *. set_solver. }
  rewrite fmap_app in Hsep. apply Forall_app in Hsep as [Hsa [Hsq Hs2]%Forall_cons].
  assert (preserved (q :: al) h h') as Hpr.
  { intros b x Hb Hx. cbn. apply O. apply elem_of_cons in Hb as [->|Hb].
    - destruct (inited_in _ _ _ q Hi) as (_ & ? & _); [set_solver|].
      pose proof (inited_in _ _ _ q Hi). assert (fst c < fst q) as Hlt.
      { pose proof (nodes_asc _ _ _ Hi) as Hs. rewrite En', fmap_app in Hs. apply sorted_app_inv in Hs as (_ & Hs & _).
        cbn in Hs. apply StronglySorted_inv in Hs as [_ Hs]. by apply Forall_cons in Hs as [? _]. }
      unfold sep, HDR in *. lia.
    - pose proof (apart_node _ _ _ b Hi Hb) as Ha. rewrite Forall_forall in Ha. destruct (Ha (fst c) Hin); lia. }
  rewrite En' in Hc. apply chain_app in Hc as [Hc1 (Hcs & _ & Hqs & Hqp & Hc2)].
  split; [|intros b x Hb; apply Hpr; by right]. split; cbn [h_mem h_freep h_brk h'].
  - change (nodes (f1 ++ f2)) with (nodes f1 ++ f2). rewrite En. rewrite !fmap_app. set_solver.
  - change (nodes (f1 ++ f2)) with (nodes f1 ++ f2). rewrite En, <- app_assoc. apply chain_app. split.
    + by eapply chain_only.
    + cbn [app chain]. split_and!; [by unfold m'; rewrite s_size_set_ptr| |by eapply chain_only].
      unfold m'. rewrite s_ptr_set_ptr; [done|]. rewrite Hqp.
      assert (hd base f2.*1 ∈ (nodes (f1 ++ q :: f2)).*1) as Hh.
      { destruct f2 as [|d f2]; [by left|]. cbn [fmap list_fmap hd]. rewrite En', fmap_app. set_solver. }
      pose proof (node_range _ _ _ _ Hi Hh). unfold HDR in *. lia.
  - eapply gaps_remove, (in_gaps _ _ _ Hi).
  - eapply covers_perm; [|done|apply (in_cover _ _ _ Hi)]. solve_Permutation.
  - constructor.
    + rewrite (only_size _ _ _ _ O Hsq). exact Hqs.
    + eapply (preserved_sizes h _ al al h'); [exact Hi|done|]. intros b x Hb; apply Hpr; by right.
  - apply (in_limit _ _ _ Hi).
Qed.

(** The nodes other than [q] lie outside the whole block of [q]. *)
Lemma outside_block h f1 q f2 al x :
  inited h (f1 ++ q :: f2) al -> x ∈ (nodes (f1 ++ f2)).*1 -> x + HDR <= fst q \/ bend q <= x.
Proof.
  intros Hi Hx. destruct (inited_in _ _ _ q Hi) as (Hq & _); [set_solver|].
  apply elem_of_cons in Hx as [->|Hx]; [by left|]. apply list_elem_of_fmap in Hx as (b & -> & Hb).
  pose proof (in_cover _ _ _ Hi) as Hc. rewrite <- (Permutation_middle f1) in Hc. cbn [app] in Hc.
  destruct (inited_in _ _ _ b Hi) as (_ & Hn & _); [set_solver|].
  destruct (covers_others _ _ _ q b Hc) as [?|?]; [set_solver|by right|]. left. unfold bend, HDR in *. lia.
Qed.

Lemma chain_resize m m' e l1 q l2 k :
  chain m e (l1 ++ q :: l2) -> s_size m' (fst q) = k -> s_ptr m' (fst q) = s_ptr m (fst q) ->
  (forall x, x ∈ (l1 ++ l2).*1 -> s_ptr m' x = s_ptr m x /\ s_size m' x = s_size m x) ->
  chain m' e (l1 ++ (fst q, k) :: l2).
Proof.
  intros (Hc1 & Hqs & Hqp & Hc2)%chain_app Hk Hp Hf. apply chain_app. split; [|split_and!].
  - eapply chain_frame; [|exact Hc1]. intros x Hx. apply Hf. rewrite fmap_app. set_solver.
  - done.
  - cbn [fst]. by rewrite Hp.
  - eapply chain_frame; [|exact Hc2]. intros x Hx. apply Hf. rewrite fmap_app. set_solver.
Qed.

(** Of a larger block the tail is cut off. *)
Lemma take_split h f1 q f2 al prev nu :
  inited h (f1 ++ q :: f2) al -> prev ∈ (nodes (f1 ++ q :: f2)).*1 -> 1 <= nu < snd q ->
  let p := fst q + HDR * (snd q - nu) in
  let h' := mk_heap (set_size p nu (set_size (fst q) (snd q - nu) (h_mem h))) prev (h_brk h) in
  inited h' (f1 ++ (fst q, snd q - nu) :: f2) ((p, nu) :: al) /\ preserved al h h'.
Proof.
  intros Hi Hin Hnu p h'. destruct (inited_in _ _ _ q Hi) as (Hq1 & Hq2 & Hq3); [set_solver|].
  set (m1 := set_size (fst q) (snd q - nu) (h_mem h)) in *. set (m2 := set_size p nu m1) in *.
  assert (only (fst q) (h_mem h) m1) as O1 by apply only_set_size. assert (only p m1 m2) as O2 by apply only_set_size.
  assert (sep p (fst q)) as Hpq by (unfold sep, p, HDR; lia).
  assert (forall x, ~ (fst q <= x < bend q) -> load8 m2 x = load8 (h_mem h) x) as Hfr.
  { intros x Hx. rewrite (O2 x), (O1 x); [done|..]; unfold p, bend, HDR in *; lia. }
  assert (preserved al h h') as Hpr.
  { intros b x Hb Hx. cbn. apply Hfr. pose proof (in_cover _ _ _ Hi) as Hc.
    rewrite <- (Permutation_middle f1) in Hc. cbn [app] in Hc.
    destruct (covers_others _ _ _ q b Hc) as [?|?]; [set_solver|lia|lia]. }
  split; [|done]. split; cbn [h_mem h_freep h_brk h'].
  - unfold nodes in *. cbn in *. rewrite fmap_app in *. cbn in *. set_solver.
  - change (nodes (f1 ++ (fst q, snd q - nu) :: f2)) with (nodes f1 ++ (fst q, snd q - nu) :: f2).
    apply (chain_resize (h_mem h)); [apply (in_chain _ _ _ Hi)| | |].
    + rewrite (only_size _ _ _ _ O2 Hpq). apply s_size_set_size. lia.
    + rewrite (only_ptr _ _ _ _ O2 Hpq). apply s_ptr_set_size.
    + intros x Hx. apply (outside_block _ _ _ _ _ _ Hi) in Hx.
      split; [apply load64_ext|apply load32_ext]; intros y Hy; apply Hfr; unfold bend, HDR in *; lia.
  - pose proof (in_gaps _ _ _ Hi) as (H1 & [H2 H2'] & H3)%gaps_app. apply gaps_app. split_and!; [done| |].
    + split; [|done]. eapply Forall_impl; [exact H2|]. unfold bend, HDR. cbn [fst snd]. intros x. lia.
    + eapply Forall_impl; [exact H3|]. intros x [? ?]%Forall_cons. by constructor.
  - eapply covers_perm; [|done|apply covers_split with (l := f1 ++ f2 ++ al) (n := snd q) (p := fst q)];
      [solve_Permutation| |done].
    rewrite <- surjective_pairing. eapply covers_perm; [|done|apply (in_cover _ _ _ Hi)]. solve_Permutation.
  - constructor; [cbn [fst snd]; apply s_size_set_size; lia|]. by eapply (preserved_sizes h _ al al h').
  - apply (in_limit _ _ _ Hi).
Qed.

Lemma take_ok h fl al q prev nu :
  inited h fl al -> q ∈ fl -> prev ∈ (nodes fl).*1 -> s_ptr (h_mem h) prev = fst q -> 1 <= nu <= snd q ->
  exists p fl' h', malloc_take nu prev (fst q) h = (p + HDR, h') /\ inited h' fl' ((p, nu) :: al) /\
    h_brk h' = h_brk h /\ preserved al h h' /\ 0 < p.
Proof.
  intros Hi (f1 & f2 & ->)%list_elem_of_split Hin Hp Hnu. destruct (inited_in _ _ _ q Hi) as (Hq1 & Hq2 & Hq3); [set_solver|].
  pose proof heap_above as Hab. assert (s_size (h_mem h) (fst q) = snd q) as Hqs.
  { pose proof (in_chain _ _ _ Hi) as Hc. change (nodes (f1 ++ q :: f2)) with (nodes f1 ++ q :: f2) in Hc.
    by apply chain_app in Hc as (_ & ? & _). }
  unfold malloc_take. rewrite Hqs. destruct (Z.eqb_spec (snd q) nu) as [E|E].
  - destruct (take_exact h f1 q f2 al prev Hi Hin Hp) as [Hi' Hpr]. eexists (fst q), (f1 ++ f2), _. split_and!.
    + rewrite hadd_small by (unfold bend, HDR in *; lia). by rewrite Z.mul_1_r.
    + rewrite <- E. by rewrite <- surjective_pairing.
    + done.
    + done.
    + unfold HDR in *. lia.
  - destruct (take_split h f1 q f2 al prev nu Hi Hin ltac:(lia)) as [Hi' Hpr].
    rewrite u32_small by lia. rewrite s_size_set_size by lia.
    rewrite (hadd_small (fst q)) by (unfold bend, HDR in *; lia).
    eexists (fst q + HDR * (snd q - nu)), _, _. split_and!; [|exact Hi'|done|exact Hpr|unfold HDR in *; lia].
    rewrite hadd_small by (unfold bend, HDR in *; lia). by rewrite Z.mul_1_r.
Qed.

(** The nodes in the order the scan visits them, [freep] last. *)
Lemma visit_order h fl al : inited h fl al ->
  exists l k, l ++ [(h_freep h, k)] ≡ₚ nodes fl /\
    chain (h_mem h) (s_ptr (h_mem h) (h_freep h)) (l ++ [(h_freep h, k)]) /\
    s_ptr (h_mem h) (h_freep h) = hd (h_freep h) l.*1 /\ h_freep h ∉ l.*1.
Proof.
  intros Hi. pose proof (in_freep _ _ _ Hi) as (c & Ef & (a & b & En)%list_elem_of_split)%list_elem_of_fmap.
  pose proof (in_chain _ _ _ Hi) as Hc. pose proof (sorted_NoDup _ (nodes_asc _ _ _ Hi)) as Hnd.
  rewrite En, fmap_app in Hnd. cbn [fmap list_fmap] in Hnd. rewrite <- Permutation_middle in Hnd.
  apply NoDup_cons in Hnd as [Hnd _]. assert (base = hd (fst c) a.*1) as Hb.
  { destruct a; unfold nodes in En; by injection En as <- _. }
  rewrite En in Hc. apply chain_app in Hc as (Hc1 & Hs & Hp & Hc2). destruct c as [f k].
  cbn [fst snd fmap list_fmap hd] in *. subst f. exists (b ++ a), k. split_and!.
  - rewrite En. solve_Permutation.
  - rewrite <- app_assoc. apply chain_app. rewrite Hp. split; [by destruct a; cbn in *; rewrite <- Hb|].
    apply chain_app. by split_and!.
  - rewrite Hp, Hb. by destruct b.
  - rewrite fmap_app. set_solver.
Qed.

Lemma scan_finds h fl al nu n N :
  inited h fl al -> 1 <= nu -> (exists d, d ∈ fl /\ nu <= snd d) -> (length fl < n)%nat ->
  exists q prev, malloc_scan n N nu (h_freep h) (s_ptr (h_mem h) (h_freep h)) h
      = Some (malloc_take nu prev (fst q) h) /\
    q ∈ fl /\ prev ∈ (nodes fl).*1 /\ s_ptr (h_mem h) prev = fst q /\ nu <= snd q.
Proof.
  intros Hi Hnu (d & Hd & Hdn) Hn. destruct (visit_order _ _ _ Hi) as (l & k & Hp & Hc & Hs & Hf).
  set (m := h_mem h) in *. set (f := h_freep h) in *.
  destruct (first_split (fun b => nu <= snd b) (l ++ [(f, k)]) d) as (l1 & q & l2 & E & Hq & Hl1).
  { rewrite Hp. by right. }
  { done. }
  assert (length (l ++ [(f, k)]) = S (length fl)) as Hlen by (by rewrite Hp).
  assert (f ∉ l1.*1) as Hf1.
  { destruct l2 as [|x l2 _] using rev_ind.
    - apply app_inj_tail in E as [<- _]. done.
    - rewrite app_comm_cons, app_assoc in E. apply app_inj_tail in E as [-> _]. rewrite fmap_app in Hf. set_solver. }
  assert (s_ptr m f = hd (fst q) l1.*1) as Hs1.
  { transitivity (hd f (l ++ [(f, k)]).*1); [by rewrite Hs; destruct l|]. rewrite E. by destruct l1. }
  rewrite E in Hc. apply chain_app in Hc as (Hc1 & Hqs & _). cbn [fmap list_fmap hd] in Hc1.
  exists q, (default f (last l1.*1)). split_and!.
  - rewrite Hs1. rewrite E, length_app in Hlen. cbn [length] in Hlen.
    replace n with (length l1 + S (n - length l1 - 1))%nat by lia. rewrite scan_skip; [|done| |done].
    + cbn [malloc_scan]. fold m. by rewrite Hqs, (proj2 (Z.leb_le _ _)).
    + apply Forall_forall. intros b Hb. specialize (Hl1 b Hb). lia.
  - assert (q ∈ nodes fl) as [->|?]%elem_of_cons by (rewrite <- Hp, E; set_solver); [cbn in Hq; lia|done].
  - assert (forall x, x ∈ f :: l1.*1 -> x ∈ (nodes fl).*1) as Hin.
    { intros x [->|Hx]%elem_of_cons; [apply (in_freep _ _ _ Hi)|]. rewrite <- Hp, E, fmap_app. set_solver. }
    apply Hin, default_last_in.
  - by apply chain_last.
  - done.
Qed.

Lemma scan_more h fl al nu n N :
  inited h fl al -> 1 <= nu -> (forall d, d ∈ fl -> snd d < nu) ->
  malloc_scan (length fl + S n) N nu (h_freep h) (s_ptr (h_mem h) (h_freep h)) h
  = match morecore N nu h with
    | None => None
    | Some (p, h) => if p =? 0 then Some (0, h) else malloc_scan n N nu p (s_ptr (h_mem h) p) h
    end.
Proof.
  intros Hi Hnu Hall. destruct (visit_order _ _ _ Hi) as (l & k & Hp & Hc & Hs & Hf).
  set (m := h_mem h) in *. set (f := h_freep h) in *.
  assert (length l = length fl) as <-.
  { pose proof (Permutation_length Hp) as E. rewrite length_app in E. cbn in E. lia. }
  assert (forall d, d ∈ l ++ [(f, k)] -> snd d < nu) as Hall'.
  { intros d. rewrite Hp. intros [->|Hd]%elem_of_cons; [cbn; lia|by apply Hall]. }
  apply chain_app in Hc as (Hc1 & Hk & _). cbn [fmap list_fmap hd fst snd] in Hc1, Hk.
  rewrite Hs. rewrite scan_skip; [|done| |done].
  - cbn [malloc_scan]. fold m f. rewrite Hk, (proj2 (Z.leb_gt _ _)); [by rewrite Z.eqb_refl|].
    apply (Hall' (f, k)). set_solver.
  - apply Forall_forall. intros b Hb. apply Hall'. set_solver.
Qed.

Lemma malloc_inited h fl al nu n N :
  inited h fl al -> 1 <= nu < 2 ^ 27 -> (2 * length fl + 4 < n)%nat -> (length fl + 1 < N)%nat ->
  exists r h', malloc_scan n N nu (h_freep h) (s_ptr (h_mem h) (h_freep h)) h = Some (r, h') /\ preserved al h h' /\
    (r = 0 /\ h' = h /\ grow (h_brk h) (Z.max nu 4096 * HDR) = None \/
     r <> 0 /\ h_brk h' <= h_brk h + Z.max nu 4096 * HDR /\ exists fl', inited h' fl' ((r - HDR, nu) :: al)).
Proof.
  intros Hi Hnu Hn HN. destruct (decide (Exists (fun b => nu <= snd b) fl)) as [Hex|Hno].
  - apply Exists_exists in Hex. destruct (scan_finds h fl al nu n N) as (q & prev & E & H1 & H2 & H3 & H4); [done|lia|done|lia|].
    destruct (take_ok h fl al q prev nu) as (p & fl' & h' & Et & Hi' & Hb & Hpr & Hp0); [done..|lia|].
    exists (p + HDR), h'. rewrite E, Et. split_and!; [done|done|right]. split_and!; [unfold HDR; lia|unfold HDR; lia|].
    exists fl'. by replace (p + HDR - HDR) with p by lia.
  - assert (forall d, d ∈ fl -> snd d < nu) as Hall.
    { intros d Hd. destruct (decide (nu <= snd d)) as [Hle|]; [|lia]. exfalso. apply Hno, Exists_exists. eauto. }
    replace n with (length fl + S (n - length fl - 1))%nat by lia. rewrite (scan_more h fl al) by (done || lia).
    pose proof (morecore_ok h fl al nu N Hi Hnu ltac:(lia)) as Hm.
    destruct (grow (h_brk h) (Z.max nu 4096 * HDR)) as [b'|] eqn:Eg.
    + destruct Hm as (fl1 & h1 & E & Hnz & Hi1 & Hlen & Hb1 & Hpr1 & Hd). rewrite E, (proj2 (Z.eqb_neq _ _)) by done.
      destruct (scan_finds h1 fl1 al nu (n - length fl - 1) N) as (q & prev & E1 & H1 & H2 & H3 & H4); [done|lia|done|lia|].
      destruct (take_ok h1 fl1 al q prev nu) as (p & fl' & h' & Et & Hi' & Hb & Hpr & Hp0); [done..|lia|].
      exists (p + HDR), h'. rewrite E1, Et. split_and!; [done|by eapply preserved_trans|right].
      split_and!; [unfold HDR; lia|rewrite Hb, Hb1; lia|]. exists fl'. by replace (p + HDR - HDR) with p by lia.
    + exists 0, h. rewrite Hm. split_and!; [done|by intros ? ?|by left].
Qed.

Lemma nunits_spec nbytes : 0 <= nbytes < 2 ^ 31 - 2 * HDR ->
  1 <= nunits_of nbytes < 2 ^ 27 /\ nbytes <= HDR * (nunits_of nbytes - 1) < nbytes + HDR.
Proof. intros Hn. unfold nunits_of. rewrite u32_small; unfold HDR in *; dlia. Qed.

(** The list made by the first call: [base] alone. *)
Lemma init_ok h : h_brk h = heap_start -> heap_start <= PHYSTOP - KERNBASE ->
  inited (mk_heap (set_size base 0 (set_ptr base base (h_mem h))) base (h_brk h)) [] [].
Proof.
  intros Hbrk Hlim. pose proof heap_above. rewrite limit_small in Hlim. split; cbn [h_mem h_freep h_brk]; try done.
  - by left.
  - split; [by apply s_size_set_size|split; [|done]]. cbn [nodes fst fmap list_fmap hd].
    rewrite s_ptr_set_size. apply s_ptr_set_ptr. unfold HDR in *. lia.
  - exists []. split; [done|]. by cbn.
  - by rewrite Hbrk, limit_small.
Qed.

Lemma malloc_ok h fl al nbytes n :
  heap_ok h fl al -> 0 <= nbytes < 2 ^ 31 - 2 * HDR -> (2 * length fl + 4 < n)%nat ->
  let nu := nunits_of nbytes in
  nbytes <= HDR * (nu - 1) < nbytes + HDR /\
  exists r h', malloc n nbytes h = Some (r, h') /\ preserved al h h' /\
    (r = 0 /\ heap_ok h' fl al /\ grow (h_brk h) (Z.max nu 4096 * HDR) = None \/
     r <> 0 /\ h_brk h' <= h_brk h + Z.max nu 4096 * HDR /\ exists fl', inited h' fl' ((r - HDR, nu) :: al)).
Proof.
  intros Hh Hb Hn nu. destruct (nunits_spec nbytes Hb) as [Hnu Hfit]. fold nu in Hnu, Hfit. split; [done|].
  unfold malloc. fold nu. destruct Hh as [Hi|(Hf & -> & -> & Hbrk & Hlim)].
  - pose proof (node_range _ _ _ _ Hi (in_freep _ _ _ Hi)). rewrite (proj2 (Z.eqb_neq _ _)) by lia.
    destruct (malloc_inited h fl al nu n n) as (r & h' & E & Hpr & Hr); [done|done|lia|lia|].
    exists r, h'. split_and!; [done|done|]. destruct Hr as [(? & -> & ?)|(? & ? & fl' & ?)]; [left|right].
    + split_and!; [done|by left|done].
    + split_and!; [done|done|by exists fl'].
  - rewrite Hf, Z.eqb_refl. set (h1 := mk_heap _ _ _).
    assert (inited h1 [] []) as Hi by (by apply init_ok).
    destruct (malloc_inited h1 [] [] nu n n) as (r & h' & E & Hpr & Hr); [done|done|cbn in *; lia|cbn in *; lia|].
    exists r, h'. split_and!; [done|by intros b x ?%elem_of_nil|].
    destruct Hr as [(? & -> & ?)|(? & ? & fl' & ?)]; [left|right].
    + split_and!; [done|by left|done].
    + split_and!; [done|done|by exists fl'].
Qed.


(** A program may write where it pleases in the memory it was given. *)
Lemma inited_write h fl b al m :
  inited h fl (b :: al) ->
  (forall x, ~ (fst b + HDR <= x < bend b) -> load8 m x = load8 (h_mem h) x) ->
  inited (mk_heap m (h_freep h) (h_brk h)) fl (b :: al).
Proof.
  intros Hi Hm. pose proof (apart_node _ _ _ b Hi ltac:(by left)) as Hap. rewrite Forall_forall in Hap.
  assert (forall q, (forall x, q <= x < q + HDR -> ~ (fst b + HDR <= x < bend b)) ->
    s_ptr m q = s_ptr (h_mem h) q /\ s_size m q = s_size (h_mem h) q) as Hq.
  { intros q Hq. split; [apply load64_ext|apply load32_ext]; intros x Hx; apply Hm, Hq; unfold HDR in *; lia. }
  split; cbn [h_mem h_freep h_brk]; [apply Hi| |apply Hi|apply Hi| |apply Hi].
  - eapply chain_frame; [|apply Hi]. intros q Hin. apply Hq. intros x Hx. destruct (Hap q Hin); lia.
  - apply Forall_forall. intros c Hc. pose proof (in_size _ _ _ Hi) as Hs. rewrite Forall_forall in Hs.
    rewrite <- (Hs c Hc). apply Hq. intros x Hx.
    destruct (inited_in _ _ _ c Hi) as (_ & [Hc1 _] & _); [set_solver|].
    apply elem_of_cons in Hc as [->|Hc]; [unfold HDR in *; lia|].
    pose proof (in_cover _ _ _ Hi) as Hcov. rewrite <- Permutation_middle in Hcov.
    destruct (covers_others _ _ _ b c Hcov) as [?|?]; [set_solver| |]; unfold bend, HDR in *; lia.
Qed.

#[global] Instance inited_perm h fl : Proper ((≡ₚ) ==> iff) (inited h fl).
Proof.
  assert (forall al al', al ≡ₚ al' -> inited h fl al -> inited h fl al') as Himp.
  { intros al al' E []. split; try done; by rewrite <- E. }
  intros al al' E. split; by apply Himp.
Qed.

(** There are never more than 2^23 blocks. *)
Lemma tiling_length a l b : tiling a l b -> HDR * Z.of_nat (length l) <= b - a.
Proof.
  revert a. induction l as [|c l IH]; intros a; cbn [tiling length]; [lia|]. intros (<- & Hc & Ht).
  apply IH in Ht. unfold bend, HDR in *. lia.
Qed.
Lemma inited_length h fl al : inited h fl al -> Z.of_nat (length fl) <= 2 ^ 23.
Proof.
  intros Hi. destruct (in_cover _ _ _ Hi) as (t & E & Ht). apply tiling_length in Ht.
  rewrite E, length_app in Ht. pose proof (in_limit _ _ _ Hi) as Hl. rewrite limit_small in Hl.
  pose proof heap_above. unfold HDR in *. lia.
Qed.

(** C28: free() of an allocated block makes its memory free again, joined to
    its neighbours if they are free, and changes no byte of any other
    allocated block; the search for its place ends within one round. *)
Theorem free_correct h fl b al n :
  heap_ok h fl (b :: al) -> (length fl + 1 < n)%nat ->
  exists fl' h', free n (fst b + HDR) h = Some h' /\ heap_ok h' fl' al /\ preserved al h h' /\ h_brk h' = h_brk h /\
    exists d, d ∈ fl' /\ fst d <= fst b /\ bend b <= bend d.
Proof.
  intros [Hi|(_ & _ & ? & _)] Hn; [|done]. destruct (free_ok h fl b al n Hi Hn) as (fl' & h' & E & Hi' & Hb & _ & Hpr & d & Hd).
  exists fl', h'. split_and!; [done|by left|done|done|]. exists d. tauto.
Qed.
End Specs.

(** ** A concrete process *)

Definition small_limit : Z := 2 ^ 26.
#[refine] Instance small_process : UserHeap := {
  base := 4096;
  heap_start := 8192;
  grow b n := if b + n <=? small_limit then Some (b + n) else None
}.
Proof.
  - unfold HDR. lia.
  - intros b n b' _ E. by case_match; simplify_eq.
  - intros b n b' E. destruct (Z.leb_spec (b + n) small_limit) as [Hl|Hl]; [|done]. simplify_eq.
    rewrite limit_small. unfold small_limit in Hl. lia.
Defined.

Definition fresh_heap : heap := mk_heap ∅ 0 8192.
Lemma fresh_heap_ok : heap_ok fresh_heap [] [].
Proof. right. by split_and!. Qed.


Lemma free_correct_witness : exists n r h h', free n r h = Some h' /\ exists fl', heap_ok h' fl' [].
Proof.
  destruct (malloc_inited _ [] [] 8 9 9 (@init_ok small_process fresh_heap eq_refl ltac:(done))) as (r & h & E & _ & [(-> & _)|(_ & _ & fl & Hi)]).
  - lia.
  - cbn. lia.
  - cbn. lia.
  - vm_compute in E. discriminate E.
  - destruct (free_correct h fl (r - HDR, 8) [] (length fl + 2) (or_introl Hi)) as (fl' & h' & Ef & Hh & _); [lia|].
    exists (length fl + 2)%nat, (r - HDR + HDR), h, h'. split; [exact Ef|exists fl'; exact Hh].
Defined.

(** malloc(2^32 - 1) succeeds with 16 bytes from sbrk(): the number of bytes
    that morecore() asks for is truncated to an int. *)
Lemma malloc_truncates : exists r h, malloc 9 (2 ^ 32 - 1) fresh_heap = Some (r, h) /\
  r = heap_start + HDR /\ h_brk h = heap_start + HDR.
Proof. by eexists _, _; vm_compute; split_and!. Qed.
