(* ===== verification/Usys.v ===== *)
(** * User processes and their system calls (user/user.h).

    A user program is an interaction tree over the system calls it makes
    ([sysE], one event per entry of user.h, with the bytes that pass between
    the process and the kernel as lists).  [run] executes a program against a
    system, an instance of [Sys]: a state, the answer of each call and whether
    it answers at all (exit() and a successful exec() do not).  The theorems
    about programs hold for every such system.  [run] also keeps the write
    requests of the program, so that what a program prints is stated of the
    program itself. *)

From ITree Require Import ITree.
From S2P Require Import Prelude.

(** ** The system calls *)

(** stat.h *)
Record stat := mk_stat { st_dev : Z; st_ino : Z; st_type : Z; st_nlink : Z; st_size : Z }.

(** [None] and negative numbers are failures.  [Wait] is wait(0);
    [Wait_status] is wait(&st) and answers with the pid and the status.
    [Sbrk] answers with an address, 2^64 - 1 being the failure.  [Ecall] is a
    call by number whose arguments are given as they are, for pointers that
    are not objects of the program: a number or the address of an object with
    the given bytes.  [Load] and [Store] are the program's own accesses to a
    byte of its memory at an address. *)
Variant uarg := Val (x : Z) | Ref (bs : list Z).

Variant sysE : Type -> Type :=
  | Fork : sysE Z
  | Exit (status : Z) : sysE Empty_set
  | Wait : sysE Z
  | Wait_status : sysE (option (Z * Z))
  | Pipe : sysE (option (Z * Z))
  | Write (fd : Z) (bs : list Z) : sysE Z
  | Read (fd n : Z) : sysE (option (list Z))
  | Close (fd : Z) : sysE Z
  | Kill (pid : Z) : sysE Z
  | Exec (path : list Z) (argv : list (list Z)) : sysE Z
  | Open (path : list Z) (mode : Z) : sysE Z
  | Mknod (path : list Z) (major minor : Z) : sysE Z
  | Unlink (path : list Z) : sysE Z
  | Fstat (fd : Z) : sysE (option stat)
  | Link (old new : list Z) : sysE Z
  | Mkdir (path : list Z) : sysE Z
  | Chdir (path : list Z) : sysE Z
  | Dup (fd : Z) : sysE Z
  | Getpid : sysE Z
  | Sbrk (n : Z) : sysE Z
  | Sleep (n : Z) : sysE Z
  | Uptime : sysE Z
  | Ecall (n : Z) (args : list uarg) : sysE Z
  | Load (a : Z) : sysE Z
  | Store (a v : Z) : sysE unit.

(** ** Programs *)

Notation U := (itree sysE).

Declare Scope user_scope.
Delimit Scope user_scope with user.
Notation "'let*' x := t 'in' k" := (ITree.bind t (fun x => k))
  (at level 200, x name, t at level 100, k at level 200) : user_scope.
Notation "t ;* k" := (ITree.bind t (fun _ => k)) (at level 100, right associativity) : user_scope.

Definition call {X} (e : sysE X) : U X := ITree.trigger e.
Definition exit {A} (status : Z) : U A := ITree.bind (call (Exit status)) (Empty_set_rect (fun _ => U A)).

Section Loops.
Local Open Scope user_scope.

(** [for(x in l) body]. *)
Fixpoint each {X} (l : list X) (body : X -> U unit) : U unit :=
  match l with [] => Ret tt | x :: l => body x ;* each l body end.

(** The same, left early by a body that answers [false] (break). *)
Fixpoint each_while {X} (l : list X) (body : X -> U bool) : U unit :=
  match l with
  | [] => Ret tt
  | x :: l => let* go := body x in if go then each_while l body else Ret tt
  end.
End Loops.

(** ** Execution *)

Inductive ending := Exited (status : Z) | Replaced (path : list Z) (argv : list (list Z)).

Definition ending_of {X} (e : sysE X) : option ending :=
  match e with
  | Exit st => Some (Exited st)
  | Exec path argv => Some (Replaced path argv)
  | _ => None
  end.

(** A system: every call but exit() and exec() answers. *)
Class Sys (W : Type) := {
  sys : forall X, sysE X -> W -> option (X * W);
  sys_answers X (e : sysE X) w : ending_of e = None -> sys X e w <> None
}.
Arguments sys {W _ X} e w.

Inductive outcome (A : Type) := Returned (a : A) | Ended (how : ending).
Arguments Returned {A} a.
Arguments Ended {A} how.

(** What a call asks to have written. *)
Definition request {X} (e : sysE X) : list (Z * list Z) :=
  match e with Write fd bs => [(fd, bs)] | _ => [] end.

(** What is written to a descriptor. *)
Definition sent_to (fd : Z) (log : list (Z * list Z)) : list Z :=
  mjoin (snd <$> filter (fun r => fst r = fd) log).

Section Run.
Context {W : Type} `{Sys W} {A : Type}.

(** [None] when [n] steps are not enough. *)
Fixpoint run (n : nat) (t : U A) (w : W) : option (outcome A * W * list (Z * list Z)) :=
  match n with
  | O => None
  | S n =>
    match observe t with
    | RetF a => Some (Returned a, w, [])
    | TauF t => run n t w
    | VisF e k =>
      match sys e w with
      | Some (x, w') =>
        match run n (k x) w' with
        | Some (r, w'', log) => Some (r, w'', request e ++ log)
        | None => None
        end
      | None => match ending_of e with Some h => Some (Ended h, w, []) | None => None end
      end
    end
  end.

(** The program ends, with outcome [r], in state [w'], having asked for [log]. *)
Definition runs (t : U A) (w : W) (r : outcome A) (w' : W) (log : list (Z * list Z)) : Prop :=
  exists n, run n t w = Some (r, w', log).
End Run.

(** ** Rules *)

Section Rules.
Context {W : Type} `{Sys W}.

Lemma run_more {A} n m (t : U A) w x : (n <= m)%nat -> run n t w = Some x -> run m t w = Some x.
Proof.
  revert m t w x. induction n as [|n IH]; intros m t w x Hm; [done|]. destruct m as [|m]; [lia|]. cbn [run].
  destruct (observe t) as [a|t'|X e k]; [done|apply IH; lia|].
  destruct (sys e w) as [[y w']|]; [|done]. destruct (run n (k y) w') as [z|] eqn:E; [|done].
  by rewrite (IH m _ _ z) by (done || lia).
Qed.

(** A program has one outcome. *)
Lemma runs_det {A} (t : U A) w r1 w1 l1 r2 w2 l2 :
  runs t w r1 w1 l1 -> runs t w r2 w2 l2 -> r1 = r2 /\ w1 = w2 /\ l1 = l2.
Proof.
  intros [n E1] [m E2]. apply (run_more n (n + m)) in E1; [|lia]. apply (run_more m (n + m)) in E2; [|lia].
  by simplify_eq.
Qed.

Lemma runs_ret {A} (a : A) w : runs (Ret a) w (Returned a) w [].
Proof. by exists 1%nat. Qed.

Lemma runs_tau {A} (t : U A) w r w' log : runs t w r w' log -> runs (Tau t) w r w' log.
Proof. intros [n E]. by exists (S n). Qed.

Lemma runs_call {X} (e : sysE X) w x w' : sys e w = Some (x, w') -> runs (call e) w (Returned x) w' (request e).
Proof. intros E. exists 2%nat. cbn. rewrite E. cbn. by rewrite app_nil_r. Qed.

(** Two trees that show the same first step run the same. *)
Lemma runs_observe {A} (t u : U A) w r w' log : observe t = observe u -> runs u w r w' log -> runs t w r w' log.
Proof.
  intros E [[|n] Hn]; [done|]. exists (S n). cbn [run] in *. by rewrite E.
Qed.

Lemma observe_bind {A B} (t : U A) (k : A -> U B) :
  observe (ITree.bind t k) = match observe t with
                             | RetF a => observe (k a)
                             | TauF t => TauF (ITree.bind t k)
                             | VisF e h => VisF e (fun x => ITree.bind (h x) k)
                             end.
Proof. unfold observe. cbn. unfold observe. destruct (_observe t); reflexivity. Qed.

#[local] Arguments observe : simpl never.
#[local] Arguments ITree.bind : simpl never.

Lemma uruns_bind {A B} (t : U A) (k : A -> U B) w a w1 l1 r w2 l2 :
  runs t w (Returned a) w1 l1 -> runs (k a) w1 r w2 l2 -> runs (ITree.bind t k) w r w2 (l1 ++ l2).
Proof.
  intros [n E] Hk. revert t w l1 E. induction n as [|n IH]; intros t w l1 E; [done|]. cbn [run] in E.
  pose proof (observe_bind t k) as Ho. destruct (observe t) as [a'|t'|X e h]; simplify_eq/=.
  - by apply (runs_observe _ (k a)).
  - destruct (IH _ _ _ E) as [m Em]. exists (S m). cbn [run]. by rewrite Ho.
  - destruct (sys e w) as [[x w']|] eqn:Es; [|by destruct (ending_of e)].
    destruct (run n (h x) w') as [[[r' w''] log]|] eqn:Er; simplify_eq/=.
    destruct (IH _ _ _ Er) as [m Em]. exists (S m). cbn [run]. rewrite Ho, Es, Em. by rewrite app_assoc.
Qed.

Lemma runs_bind_ended {A B} (t : U A) (k : A -> U B) w h w1 l1 :
  runs t w (Ended h) w1 l1 -> runs (ITree.bind t k) w (Ended h) w1 l1.
Proof.
  intros [n E]. exists n. revert t w l1 E. induction n as [|n IH]; intros t w l1 E; [done|]. cbn [run] in *.
  rewrite observe_bind. destruct (observe t) as [a'|t'|X e g]; simplify_eq/=; [by apply IH|].
  destruct (sys e w) as [[x w']|] eqn:Es; [|by destruct (ending_of e); simplify_eq/=].
  destruct (run n (g x) w') as [[[r' w''] log]|] eqn:Er; simplify_eq/=. by rewrite (IH _ _ _ Er).
Qed.

Lemma runs_exit {A} st w : runs (exit st : U A) w (Ended (Exited st)) w [].
Proof.
  apply runs_bind_ended. exists 1%nat. cbn [run]. unfold call, ITree.trigger, observe. cbn.
  destruct (sys (Exit st) w) as [[[] ?]|]; done.
Qed.

(** One round of a loop. *)
Lemma observe_iter {I R} (body : I -> U (I + R)) (i : I) :
  observe (ITree.iter body i)
  = observe (ITree.bind (body i) (fun lr => match lr with inl l => Tau (ITree.iter body l) | inr r => Ret r end)).
Proof. reflexivity. Qed.

Lemma runs_iter_next {I R} (body : I -> U (I + R)) i j w w1 l1 r w2 l2 :
  runs (body i) w (Returned (inl j)) w1 l1 -> runs (ITree.iter body j) w1 r w2 l2 ->
  runs (ITree.iter body i) w r w2 (l1 ++ l2).
Proof.
  intros Hb Hi. eapply runs_observe; [apply observe_iter|]. eapply uruns_bind; [exact Hb|]. by apply runs_tau.
Qed.

Lemma runs_iter_done {I R} (body : I -> U (I + R)) i a w w1 l1 :
  runs (body i) w (Returned (inr a)) w1 l1 -> runs (ITree.iter body i) w (Returned a) w1 l1.
Proof.
  intros Hb. eapply runs_observe; [apply observe_iter|]. rewrite <- (app_nil_r l1).
  eapply uruns_bind; [exact Hb|]. apply runs_ret.
Qed.

Lemma runs_iter_ended {I R} (body : I -> U (I + R)) i h w w1 l1 :
  runs (body i) w (Ended h) w1 l1 -> runs (ITree.iter body i) w (Ended h) w1 l1.
Proof. intros Hb. eapply runs_observe; [apply observe_iter|]. by apply runs_bind_ended. Qed.

(** A call that is not the last one answers. *)
Lemma call_answers {X} (e : sysE X) w : ending_of e = None -> exists x w', sys e w = Some (x, w').
Proof.
  intros He. pose proof (sys_answers _ e w He). destruct (sys e w) as [[x w']|]; [by exists x, w'|done].
Qed.

End Rules.

Lemma sent_to_app fd l1 l2 : sent_to fd (l1 ++ l2) = sent_to fd l1 ++ sent_to fd l2.
Proof. unfold sent_to. by rewrite filter_app, fmap_app, join_app. Qed.

#[global] Arguments call : simpl never.
#[global] Arguments exit : simpl never.

Lemma runs_call_bind {W} `{Sys W} {X B} (e : sysE X) (k : X -> U B) w x w1 r w2 log :
  sys e w = Some (x, w1) -> runs (k x) w1 r w2 log -> runs (ITree.bind (call e) k) w r w2 (request e ++ log).
Proof. intros E Hk. eapply uruns_bind; [by apply runs_call|done]. Qed.

(** A call that writes nothing. *)
Lemma runs_call_quiet {W} `{Sys W} {X B} (e : sysE X) (k : X -> U B) w x w1 r w2 log :
  sys e w = Some (x, w1) -> request e = [] -> runs (k x) w1 r w2 log -> runs (ITree.bind (call e) k) w r w2 log.
Proof. intros E Hq Hk. pose proof (runs_call_bind e k w x w1 r w2 log E Hk) as Hr. by rewrite Hq in Hr. Qed.

Lemma runs_bind_quiet {W} `{Sys W} {A B} (t : U A) (k : A -> U B) w a w1 r w2 log :
  runs t w (Returned a) w1 [] -> runs (k a) w1 r w2 log -> runs (ITree.bind t k) w r w2 log.
Proof. apply (uruns_bind t k w a w1 []). Qed.

Lemma runs_iter_quiet {W} `{Sys W} {I R} (body : I -> U (I + R)) i j w w1 r w2 log :
  runs (body i) w (Returned (inl j)) w1 [] -> runs (ITree.iter body j) w1 r w2 log ->
  runs (ITree.iter body i) w r w2 log.
Proof. apply (runs_iter_next body i j w w1 []). Qed.

(** Step over a call whose answer is known. *)
Ltac ucall E := first [eapply (runs_call_quiet _ _ _ _ _ _ _ _ E eq_refl)|eapply (runs_call_bind _ _ _ _ _ _ _ _ E)]; cbn beta iota.

(** ** Descriptors as streams *)

(** What a descriptor still delivers: a read() takes some of it, nothing only
    when there is nothing left, or fails. *)
Class Streams (W : Type) `{Sys W} := {
  input : W -> Z -> list Z;
  read_takes w fd n bs w' :
    sys (Read fd n) w = Some (Some bs, w') -> input w fd = bs ++ input w' fd /\ Z.of_nat (length bs) <= Z.max 0 n;
  read_end w fd n w' : 0 < n -> sys (Read fd n) w = Some (Some [], w') -> input w fd = []
}.

(** ** A small system

    Descriptors are tapes; every other call succeeds. *)

Record tape := mk_tape { tp_in : gmap Z (list Z) }.

Definition tape_sys X (e : sysE X) (w : tape) : option (X * tape) :=
  match e with
  | Exit _ | Exec _ _ => None
  | Read fd n =>
    let l := default [] (tp_in w !! fd) in
    Some (Some (take (Z.to_nat n) l), mk_tape (<[fd := drop (Z.to_nat n) l]> (tp_in w)))
  | Write _ bs => Some (Z.of_nat (length bs), w)
  | Pipe => Some (Some (3, 4), w)
  | Wait_status => Some (Some (1, 0), w)
  | Fstat _ => Some (Some (mk_stat 1 1 2 1 0), w)
  | Open _ _ | Dup _ => Some (3, w)
  | Fork | Getpid => Some (1, w)
  | Store _ _ => Some (tt, w)
  | _ => Some (0, w)
  end.

#[refine] Instance tape_system : Sys tape := { sys := tape_sys }.
Proof. by intros X []. Defined.

#[refine] Instance tape_streams : Streams tape := { input w fd := default [] (tp_in w !! fd) }.
Proof.
  - intros w fd n bs w' E. cbn in E. injection E as <- <-. cbn [tp_in].
    rewrite lookup_insert_eq. cbn. rewrite take_drop, length_take. split; [done|lia].
  - intros w fd n w' Hn E. cbn in E. injection E as E _. destruct (default [] (tp_in w !! fd)); [done|].
    destruct (Z.to_nat n) eqn:En; [lia|done].
Defined.
