(* ===== verification/Ulib.v ===== *)
(** * The user library (user/ulib.c, user/printf.c).

    The functions that fill memory (strcpy, memset, memmove, fgets, getline)
    work on the bytes of the process, as umalloc.c does; the functions that
    only look at strings take a [char *] as the characters before its NUL. *)

From ITree Require Import ITree.
From S2P Require Import Prelude Defs Mem Uart Grep Usys Umalloc.
Local Open Scope user_scope.

(** ** Strings and memory *)

(** Copies up to and with the NUL; [None] when there is none in reach. *)
Fixpoint strcpy_loop (n : nat) (s t : Z) (m : gmap Z Z) : option (gmap Z Z) :=
  match n with
  | O => None
  | S n =>
    let c := load8 m t in
    let m := store8 m s c in
    if c =? 0 then Some m else strcpy_loop n (s + 1) (t + 1) m
  end.
Definition strcpy (n : nat) (m : gmap Z Z) (s t : Z) : option (gmap Z Z) := strcpy_loop n s t m.

(** The difference of the first characters that differ, NUL included. *)
Fixpoint strcmp (p q : list Z) : Z :=
  match p, q with
  | c :: p', d :: q' => if c =? d then strcmp p' q' else u8 c - u8 d
  | c :: _, [] => u8 c
  | [], d :: _ => - u8 d
  | [], [] => 0
  end.

Fixpoint strlen_loop (n : Z) (s : list Z) : Z := match s with [] => n | _ :: s => strlen_loop (i32 (n + 1)) s end.
Definition strlen (s : list Z) : Z := u32 (strlen_loop 0 s).

Definition memset (m : gmap Z Z) (dst c n : Z) : gmap Z Z := memset_loop (Z.to_nat n) 0 dst c m.

(** Upwards when the source is above the destination, else downwards. *)
Definition memmove (m : gmap Z Z) (dst src n : Z) : gmap Z Z :=
  if dst <? src then move_up (Z.to_nat n) dst src m
  else move_down (Z.to_nat n) (dst + n) (src + n) m.
Definition memcpy (m : gmap Z Z) (dst src n : Z) : gmap Z Z := memmove m dst src (i32 n).

Definition memcmp (m : gmap Z Z) (s1 s2 n : Z) : Z := memcmp_loop (Z.to_nat n) m s1 s2.

Fixpoint atoi_loop (n : Z) (s : list Z) : Z :=
  match s with
  | c :: s' => if (48 <=? c) && (c <=? 57) then atoi_loop (i32 (i32 (n * 10) + c - 48)) s' else n
  | [] => n
  end.
Definition atoi (s : list Z) : Z := atoi_loop 0 s.

(** ** Input *)

(** One round of the loop of fgets(): the index, the memory. *)
Definition fgets_body (fd buf max : Z) (st : Z * gmap Z Z) : U ((Z * gmap Z Z) + (Z * gmap Z Z)) :=
  let (i, m) := st in
  if i + 1 <? max then
    let* cc := call (Read fd 1) in
    match cc with
    | Some (c :: _) =>
      let m := store8 m (u64 (buf + i)) c in
      if (c =? 10) || (c =? 13) then Ret (inr (i + 1, m)) else Ret (inl (i + 1, m))
    | _ => Ret (inr (i, m))
    end
  else Ret (inr (i, m)).

Definition fgets (fd buf max : Z) (m : gmap Z Z) : U (Z * gmap Z Z) :=
  let* r := ITree.iter (fgets_body fd buf max) (0, m) in
  let (i, m) := r : Z * gmap Z Z in
  Ret (i, store8 m (u64 (buf + i)) 0).

Definition gets (buf max : Z) (m : gmap Z Z) : U (Z * gmap Z Z) :=
  let* r := fgets 0 buf max m in Ret (buf, snd r).

Section Getline.
Context `{UserHeap} (N : nat).  (* rounds of the searches of malloc() and free() *)

(** The buffer [*lineptr], its size [*n], and what has been read. *)
Record line_state := mk_line { gl_buf : Z; gl_n : Z; gl_total : Z; gl_heap : heap }.

Definition set_mem (m : gmap Z Z) (h : heap) : heap := mk_heap m (h_freep h) (h_brk h).

(** The growing of the buffer: malloc(), memcpy(), free(). *)
Definition getline_grow (st : line_state) : U line_state :=
  let new_n := u32 (gl_n st * 2) in
  match malloc N new_n (gl_heap st) with
  | Some (new_buf, h) =>
    let h := set_mem (memcpy (h_mem h) new_buf (gl_buf st) (gl_n st)) h in
    match free N (gl_buf st) h with
    | Some h => Ret (mk_line new_buf new_n (gl_total st) h)
    | None => ITree.spin
    end
  | None => ITree.spin
  end.

Definition getline_body (fd : Z) (st : line_state) : U (line_state + (Z * line_state)) :=
  let* r := fgets fd (u64 (gl_buf st + gl_total st)) (i32 (gl_n st - gl_total st)) (h_mem (gl_heap st)) in
  let (read_sz, m) := r : Z * gmap Z Z in
  let st := mk_line (gl_buf st) (gl_n st) (gl_total st) (set_mem m (gl_heap st)) in
  if read_sz =? 0 then Ret (inr (i32 (gl_total st), st))
  else if read_sz =? -1 then Ret (inr (-1, st))
  else
    let total := u32 (gl_total st + read_sz) in
    let st := mk_line (gl_buf st) (gl_n st) total (gl_heap st) in
    if load8 m (u64 (gl_buf st + u32 (total - 1))) =? 10 then Ret (inr (i32 total, st))
    else let* st := getline_grow st in Ret (inl st).

Definition getline (lineptr n fd : Z) (h : heap) : U (Z * line_state) :=
  if (lineptr =? 0) && (n =? 0) then
    match malloc N 128 h with
    | Some (buf, h) => ITree.iter (getline_body fd) (mk_line buf 128 0 h)
    | None => ITree.spin
    end
  else ITree.iter (getline_body fd) (mk_line lineptr n 0 h).
End Getline.

Definition ustat (n : list Z) : U (option stat) :=
  let* fd := call (Open n O_RDONLY) in
  if fd <? 0 then Ret None else
  let* r := call (Fstat fd) in
  let* _ := call (Close fd) in
  Ret r.

(** _main(): a program whose main() returns exits with 0. *)
Definition start_main (main : U unit) : U unit := main ;* exit 0.

(** ** printf.c *)

(** A string literal that ends with a newline. *)
Definition strn (s : string) : list Z := str s ++ [10].
Arguments strn s%_string_scope.

Definition udigits : list Z := str "0123456789ABCDEF".
Definition udigit (x : Z) : Z := default 0 (udigits !! Z.to_nat x).

Definition putc (fd c : Z) : U unit := call (Write fd [u8 c]) ;* Ret tt.

(** A 32-bit number has at most 32 digits. *)
Fixpoint udigits_loop (n : nat) (x base : Z) : list Z :=
  match n with
  | O => []
  | S n => udigit (x `mod` base) :: if x / base =? 0 then [] else udigits_loop n (x / base) base
  end.
Definition uprintint_buf (xx base sgn : Z) : list Z :=
  let neg := z2b sgn && (xx <? 0) in
  let x := if neg then u32 (- xx) else u32 xx in
  udigits_loop 32 x base ++ (if neg then [45] else []).
Definition uprintint (fd xx base sgn : Z) : U unit := each (rev (uprintint_buf xx base sgn)) (putc fd).

Fixpoint uptr_digits (n : nat) (x : Z) : list Z :=
  match n with O => [] | S n => udigit (Z.shiftr x 60) :: uptr_digits n (u64 (Z.shiftl x 4)) end.
Definition uprintptr (fd x : Z) : U unit :=
  putc fd 48 ;* putc fd 120 ;* each (uptr_digits 16 x) (putc fd).

(** va_arg(): an argument takes a register whatever its type. *)
Definition va_word (ap : list varg) : Z := match ap with A_int x :: _ | A_u64 x :: _ => x | _ => 0 end.

(** [pct]: the last character was a [%] that starts a sequence. *)
Fixpoint vprintf (fd : Z) (fmt : list Z) (pct : bool) (ap : list varg) : U unit :=
  match fmt with
  | [] => Ret tt
  | c :: fmt =>
    if negb pct then
      if c =? 37 then vprintf fd fmt true ap
      else putc fd c ;* vprintf fd fmt false ap
    else if c =? 100 then uprintint fd (i32 (va_word ap)) 10 1 ;* vprintf fd fmt false (tail ap)
    else if c =? 108 then uprintint fd (i32 (va_word ap)) 10 0 ;* vprintf fd fmt false (tail ap)
    else if c =? 120 then uprintint fd (i32 (va_word ap)) 16 0 ;* vprintf fd fmt false (tail ap)
    else if c =? 112 then uprintptr fd (u64 (va_word ap)) ;* vprintf fd fmt false (tail ap)
    else if c =? 115 then each (default (str "(null)") (va_str ap)) (putc fd) ;* vprintf fd fmt false (tail ap)
    else if c =? 99 then putc fd (va_word ap) ;* vprintf fd fmt false (tail ap)
    else if c =? 37 then putc fd c ;* vprintf fd fmt false ap
    else putc fd 37 ;* putc fd c ;* vprintf fd fmt false ap
  end.
Definition fprintf (fd : Z) (fmt : list Z) (ap : list varg) : U unit := vprintf fd fmt false ap.
Definition printf (fmt : list Z) (ap : list varg) : U unit := vprintf 1 fmt false ap.

(** ** Output *)

(** The requests of printing [text] on [fd], a byte at a time. *)
Definition puts (fd : Z) (text : list Z) : list (Z * list Z) := (fun c => (fd, [u8 c])) <$> text.

Lemma sent_to_puts fd text : Forall (fun c => 0 <= c < 256) text -> sent_to fd (puts fd text) = text.
Proof.
  induction 1 as [|c text Hc _ IH]; [done|]. unfold sent_to, puts in *. cbn [fmap list_fmap].
  rewrite filter_cons_True by done. cbn [fmap list_fmap snd]. rewrite u8_small by done. cbn [mjoin list_join]. cbn [app].
  by f_equal.
Qed.
Lemma sent_to_puts_ne fd fd' text : fd <> fd' -> sent_to fd' (puts fd text) = [].
Proof.
  intros Hne. induction text as [|c text IH]; [done|]. unfold sent_to, puts in *. cbn [fmap list_fmap].
  by rewrite filter_cons_False.
Qed.
Lemma puts_app fd a b : puts fd (a ++ b) = puts fd a ++ puts fd b.
Proof. apply fmap_app. Qed.

(** The text of a number, and of a format with its arguments. *)
Definition int_text (xx base sgn : Z) : list Z := rev (uprintint_buf xx base sgn).
Definition dec (xx : Z) : list Z := int_text xx 10 1.

Fixpoint format (fmt : list Z) (pct : bool) (ap : list varg) : list Z :=
  match fmt with
  | [] => []
  | c :: fmt =>
    if negb pct then if c =? 37 then format fmt true ap else c :: format fmt false ap
    else if c =? 100 then dec (i32 (va_word ap)) ++ format fmt false (tail ap)
    else if c =? 108 then int_text (i32 (va_word ap)) 10 0 ++ format fmt false (tail ap)
    else if c =? 120 then int_text (i32 (va_word ap)) 16 0 ++ format fmt false (tail ap)
    else if c =? 112 then 48 :: 120 :: uptr_digits 16 (u64 (va_word ap)) ++ format fmt false (tail ap)
    else if c =? 115 then default (str "(null)") (va_str ap) ++ format fmt false (tail ap)
    else if c =? 99 then va_word ap :: format fmt false (tail ap)
    else if c =? 37 then c :: format fmt false ap
    else 37 :: c :: format fmt false ap
  end.

Section Output.
Context {W : Type} `{Sys W}.

(** [t] prints [text] on [fd] and returns. *)
Definition prints (t : U unit) (fd : Z) (text : list Z) : Prop :=
  forall w, exists w', runs t w (Returned tt) w' (puts fd text).

Lemma prints_ret fd : prints (Ret tt) fd [].
Proof. intros w. exists w. apply runs_ret. Qed.
Lemma prints_putc fd c : prints (putc fd c) fd [c].
Proof.
  intros w. destruct (call_answers (Write fd [u8 c]) w eq_refl) as (x & w' & E). exists w'.
  change (puts fd [c]) with ([(fd, [u8 c])] ++ []). ucall E. apply runs_ret.
Qed.
Lemma prints_bind t k fd a b : prints t fd a -> prints k fd b -> prints (t ;* k) fd (a ++ b).
Proof.
  intros Ht Hk w. destruct (Ht w) as (w1 & H1). destruct (Hk w1) as (w2 & H2). exists w2. rewrite puts_app.
  by eapply uruns_bind.
Qed.
Lemma prints_each fd text : prints (each text (putc fd)) fd text.
Proof.
  induction text as [|c text IH]; [apply prints_ret|]. apply (prints_bind _ _ fd [c]); [apply prints_putc|done].
Qed.
Lemma prints_cons c k fd b : prints k fd b -> prints (putc fd c ;* k) fd (c :: b).
Proof. apply (prints_bind _ _ fd [c]), prints_putc. Qed.

#[local] Hint Resolve prints_ret prints_putc prints_each prints_cons prints_bind : core.

(** vprintf() prints the format with its arguments put in. *)
Lemma prints_vprintf fd fmt pct ap : prints (vprintf fd fmt pct ap) fd (format fmt pct ap).
Proof.
  revert pct ap. induction fmt as [|c fmt IH]; intros pct ap; cbn [vprintf format]; [auto|].
  repeat (match goal with |- context [if ?b then _ else _] => destruct b end; cbn [negb]); auto.
  all: try (apply prints_bind; [apply prints_each|apply IH]).
  rewrite !app_comm_cons. apply prints_bind; [|apply IH]. unfold uprintptr. auto.
Qed.
Lemma prints_printf fmt ap : prints (printf fmt ap) 1 (format fmt false ap).
Proof. apply prints_vprintf. Qed.
Lemma prints_fprintf fd fmt ap : prints (fprintf fd fmt ap) fd (format fmt false ap).
Proof. apply prints_vprintf. Qed.
End Output.

(** ** Numbers *)

(** In base 10 the digits are the kernel's. *)
Lemma udigits_loop_dec n x : 0 <= x -> udigits_loop n x 10 = digits_loop n x 10.
Proof.
  assert (Forall (fun x => udigit x = digit x) (seqZ 0 10)) as Hall by (apply (bool_decide_unpack _); by vm_compute).
  revert x. induction n as [|n IH]; intros x Hx; [done|]. cbn [udigits_loop digits_loop].
  rewrite Forall_forall in Hall. rewrite Hall by (apply elem_of_seqZ; dlia).
  f_equal. destruct (x / 10 =? 0); [done|]. apply IH, Z.div_pos; lia.
Qed.

Definition is_digit (c : Z) : Prop := 48 <= c <= 57.

Lemma digits_loop_digits n x : 0 <= x -> Forall is_digit (digits_loop n x 10).
Proof.
  assert (Forall (fun x => is_digit (digit x)) (seqZ 0 10)) as Hall.
  { assert (Forall (fun x => 48 <= digit x) (seqZ 0 10) /\ Forall (fun x => digit x <= 57) (seqZ 0 10)) as [H1 H2]
      by (split; apply (bool_decide_unpack _); by vm_compute).
    rewrite Forall_forall in *. intros y Hy. split; auto. }
  revert x. induction n as [|n IH]; intros x Hx; [constructor|]. cbn [digits_loop].
  rewrite Forall_forall in Hall. constructor; [apply Hall, elem_of_seqZ; dlia|].
  destruct (x / 10 =? 0); [constructor|]. apply IH, Z.div_pos; lia.
Qed.

(** Horner's rule, from [a]. *)
Notation horner := (foldl (fun a c => a * 10 + digit_val c)).

Lemma digit_val_dec c : is_digit c -> digit_val c = c - 48.
Proof. unfold is_digit, digit_val. intros ?. destruct (Z.leb_spec c 57); lia. Qed.
Lemma horner_ge a l : 0 <= a -> Forall is_digit l -> a <= horner a l.
Proof.
  intros Ha Hl. revert a Ha. induction Hl as [|c l Hc _ IH]; intros a Ha; cbn [foldl]; [lia|].
  rewrite digit_val_dec by done. unfold is_digit in Hc. specialize (IH (a * 10 + (c - 48))). lia.
Qed.
Lemma atoi_horner a l s :
  0 <= a -> Forall is_digit l -> horner a l < 2 ^ 31 -> ~ (exists c s', s = c :: s' /\ is_digit c) ->
  atoi_loop a (l ++ s) = horner a l.
Proof.
  intros Ha Hl Hlt Hs. revert a Ha Hlt. induction Hl as [|c l Hc Hl IH]; intros a Ha Hlt; cbn [app atoi_loop foldl].
  - destruct s as [|c s]; [done|]. cbn [atoi_loop]. destruct ((48 <=? c) && (c <=? 57)) eqn:E; [|done].
    exfalso. apply Hs. exists c, s. split; [done|]. unfold is_digit. lia.
  - pose proof Hc as Hc'. unfold is_digit in Hc. rewrite (proj2 (andb_true_iff _ _)) by lia.
    cbn [foldl] in Hlt. rewrite digit_val_dec in * by done.
    pose proof (horner_ge (a * 10 + (c - 48)) l ltac:(lia) Hl).
    rewrite (i32_small (a * 10)), i32_small by lia. replace (a * 10 + c - 48) with (a * 10 + (c - 48)) by lia.
    apply IH; lia.
Qed.

(** The decimal text of a number that is not negative. *)
Lemma dec_digits x : 0 <= x < 2 ^ 31 -> Forall is_digit (dec x) /\ horner 0 (dec x) = x.
Proof.
  intros Hx. unfold dec, int_text, uprintint_buf. rewrite (proj2 (Z.ltb_ge _ _)), andb_false_r by lia.
  rewrite app_nil_r, u32_small, udigits_loop_dec by lia. split.
  - apply Forall_rev. apply digits_loop_digits. lia.
  - change (horner 0 (rev (digits_loop 32 x 10))) with (read_digits 10 (rev (digits_loop 32 x 10))).
    rewrite read_digits_rev. apply digits_loop_val; [lia|].
    assert (2 ^ 31 < 10 ^ Z.of_nat 32) by reflexivity. lia.
Qed.

(** what printf's %d prints, atoi() reads back, for every int that is
    not negative, whatever follows that is not a digit. *)
Theorem atoi_printf W `{Sys W} fd x s :
  0 <= x < 2 ^ 31 -> ~ (exists c s', s = c :: s' /\ is_digit c) ->
  prints (fprintf fd (str "%d") [A_int x]) fd (dec x) /\ atoi (dec x ++ s) = x.
Proof.
  intros Hx Hs. split.
  - pose proof (prints_fprintf fd (str "%d") [A_int x]) as Hp. cbn [format str fmap list_fmap] in Hp.
    change (format (str "%d") false [A_int x]) with (dec (i32 x) ++ []) in Hp.
    by rewrite app_nil_r, i32_small in Hp by lia.
  - destruct (dec_digits x Hx) as [Hd Hv]. unfold atoi. rewrite <- Hv at 2. apply atoi_horner; [lia|done|lia|done].
Qed.

Lemma atoi_printf_witness :
  (exists w', runs (fprintf 1 (str "%d") [A_int 2147483647]) (mk_tape ∅) (Returned tt) w' (puts 1 (str "2147483647"))) /\
  atoi (str "2147483647 apples") = 2147483647.
Proof.
  destruct (atoi_printf tape 1 2147483647 (str " apples")) as [H1 H2]; [lia| |].
  - intros (c & s & E & H1 & H2). vm_compute in E. injection E as <- _. lia.
  - split; [apply H1|exact H2].
Defined.
