(* ===== verification/UlibSpec.v ===== *)
(** * Reading lines: fgets() and getline() of user/ulib.c.

    The theorem about getline() rests on those of malloc() and free(): the
    buffer it returns is a block of the heap, and the blocks of the rest of
    the program are untouched. *)

From ITree Require Import ITree.
From S2P Require Import Prelude Defs Mem Usys Umalloc Ulib.

(** ** Copying *)

Lemma load8_umemmove m dst src n a :
  0 <= n ->
  load8 (Ulib.memmove m dst src n) a = if decide (dst <= a < dst + n) then load8 m (src + (a - dst)) else load8 m a.
Proof.
  intros Hn. unfold Ulib.memmove. destruct (Z.ltb_spec dst src).
  - rewrite load8_move_up by lia. repeat case_decide; done || lia.
  - rewrite load8_move_down by lia. repeat case_decide; try lia; try done. f_equal. lia.
Qed.

(** ** fgets *)

(** What fgets() takes of its input with room for [k] characters. *)
Fixpoint take_line (k : nat) (s : list Z) : list Z :=
  match k, s with
  | S k, c :: s => if (c =? 10) || (c =? 13) then [c] else c :: take_line k s
  | _, _ => []
  end.

Lemma take_line_length k s : (length (take_line k s) <= k)%nat.
Proof.
  revert s. induction k as [|k IH]; intros [|c s]; cbn [take_line length]; [lia..|].
  destruct (_ || _); cbn [length]; [lia|]. specialize (IH s). lia.
Qed.

Section Fgets.
Context {W : Type} `{Streams W} (fd : Z).
Hypothesis no_errors : forall w n w', sys (Read fd n) w <> Some (None, w').

(** Reading one byte. *)
Lemma read_one w :
  exists bs w', sys (Read fd 1) w = Some (Some bs, w') /\
    (bs = [] /\ input w fd = [] /\ input w' fd = [] \/ exists c, bs = [c] /\ input w fd = c :: input w' fd).
Proof.
  destruct (call_answers (Read fd 1) w eq_refl) as ([bs|] & w' & E); [|by apply no_errors in E].
  exists bs, w'. split; [done|]. destruct (read_takes _ _ _ _ _ E) as [Ht Hl].
  destruct bs as [|c [|d bs]]; [left|right|cbn in Hl; lia].
  - pose proof (read_end _ _ 1 _ ltac:(lia) E) as He. rewrite He in Ht. by split_and!.
  - by exists c.
Qed.

Lemma fgets_loop_runs k i buf m w :
  0 <= i -> 0 <= buf -> buf + i + Z.of_nat k < 2 ^ 64 ->
  let l := take_line k (input w fd) in
  exists w', runs (ITree.iter (fgets_body fd buf (i + Z.of_nat k + 1)) (i, m)) w
      (Returned (i + Z.of_nat (length l), store_bytes m (buf + i) l)) w' [] /\
    input w fd = l ++ input w' fd.
Proof.
  revert i m w. induction k as [|k IH]; intros i m w Hi Hb Hlim.
  { exists w. cbn [take_line length store_bytes app]. split; [|done]. apply runs_iter_done. cbn [fgets_body].
    rewrite (proj2 (Z.ltb_ge _ _)), Z.add_0_r by lia. apply runs_ret. }
  destruct (read_one w) as (bs & w1 & E & Hbs).
  assert (i + 1 <? i + Z.of_nat (S k) + 1 = true) as Hlt by (apply Z.ltb_lt; lia).
  destruct Hbs as [(-> & E0 & E1)|(c & -> & Ec)].
  - exists w1. rewrite E0, E1. cbn [take_line length store_bytes app]. split; [|done]. apply runs_iter_done.
    cbn [fgets_body]. rewrite Hlt, Z.add_0_r. ucall E. apply runs_ret.
  - rewrite Ec. cbn [take_line]. destruct ((c =? 10) || (c =? 13)) eqn:Es.
    + exists w1. split; [|done]. apply runs_iter_done. cbn [fgets_body]. rewrite Hlt.
      ucall E. rewrite Es.
      rewrite u64_small by lia. apply runs_ret.
    + destruct (IH (i + 1) (store8 m (buf + i) c) w1) as (w2 & Hr & Hin); [lia..|].
      exists w2. split; [|cbn [app]; by f_equal].
      eapply runs_iter_quiet.
      * cbn [fgets_body]. rewrite Hlt. ucall E. rewrite Es. rewrite u64_small by lia. apply runs_ret.
      * cbn [length store_bytes]. replace (i + Z.of_nat (S k) + 1) with (i + 1 + Z.of_nat k + 1) by lia.
        replace (i + Z.of_nat (S (length (take_line k (input w1 fd))))) with (i + 1 + Z.of_nat (length (take_line k (input w1 fd)))) by lia.
        rewrite Z.add_assoc in Hr. exact Hr.
Qed.

(** fgets() stores a line, or as much of it as fits, and a NUL. *)
Lemma fgets_runs buf max m w :
  1 <= max -> 0 <= buf -> buf + max < 2 ^ 64 ->
  let l := take_line (Z.to_nat (max - 1)) (input w fd) in
  exists w', runs (fgets fd buf max m) w
      (Returned (Z.of_nat (length l), store8 (store_bytes m buf l) (buf + Z.of_nat (length l)) 0)) w' [] /\
    input w fd = l ++ input w' fd.
Proof.
  intros Hm Hb Hlim l. destruct (fgets_loop_runs (Z.to_nat (max - 1)) 0 buf m w) as (w' & Hr & Hin); [lia..|].
  fold l in Hr, Hin. exists w'. split; [|done]. unfold fgets.
  replace (0 + Z.of_nat (Z.to_nat (max - 1)) + 1) with max in Hr by lia. rewrite Z.add_0_r, Z.add_0_l in Hr.
  eapply runs_bind_quiet; [exact Hr|]. cbn beta iota.
  pose proof (take_line_length (Z.to_nat (max - 1)) (input w fd)) as Hl. fold l in Hl.
  rewrite u64_small by lia. apply runs_ret.
Qed.
End Fgets.

(** ** getline *)

Definition no_breaks (s : list Z) : Prop := Forall (fun c => c <> 10 /\ c <> 13) s.

(** [line] is the next line of the input [line ++ rest], with its newline
    unless the input ends without one. *)
Definition next_line (line rest : list Z) : Prop :=
  (exists body, line = body ++ [10] /\ no_breaks body) \/ no_breaks line /\ rest = [].

Lemma take_line_app k body s :
  no_breaks body -> take_line k (body ++ s) = take k body ++ take_line (k - length body) s.
Proof.
  intros Hb. revert k. induction Hb as [|c body [Hc1 Hc2] _ IH]; intros k; cbn [app length].
  { by rewrite take_nil, Nat.sub_0_r. }
  destruct k as [|k]; [done|]. cbn [take_line take app]. rewrite (proj2 (Z.eqb_neq _ _)), (proj2 (Z.eqb_neq _ _)) by done.
  cbn. by rewrite IH.
Qed.

Section Getline.
Context `{UserHeap} (N : nat) (HN : 2 ^ 25 <= Z.of_nat N).
Context (h0 : heap) (al : list block).
Hypothesis enough : forall b k, 0 <= k -> b + k <= h_brk h0 + 2 ^ 24 -> grow b k <> None.

(** The buffer is a block of the heap that starts with [pre]. *)
Record reading (pre : list Z) (st : line_state) : Prop := mk_reading {
  rd_block : exists fl nu, inited (gl_heap st) fl ((gl_buf st - HDR, nu) :: al) /\ gl_n st <= HDR * (nu - 1);
  rd_pre : load_bytes (h_mem (gl_heap st)) (gl_buf st) (length pre) = pre;
  rd_total : gl_total st = Z.of_nat (length pre);
  rd_size : 128 <= gl_n st <= 2 ^ 22;
  rd_kept : preserved al h0 (gl_heap st);
  rd_brk : h_brk (gl_heap st) <= h_brk h0 + 2 * gl_n st + 65568 * (Z.log2 (gl_n st) - 6)
}.

Lemma reading_range pre st : reading pre st -> 0 < gl_buf st /\ gl_buf st + gl_n st <= 2 ^ 27.
Proof.
  intros [(fl & nu & Hi & Hn) _ _ _ _ _]. destruct (inited_in _ _ _ (gl_buf st - HDR, nu) Hi) as (H1 & H2 & H3); [set_solver|].
  pose proof heap_above. unfold bend, HDR in *. cbn in *. lia.
Qed.

(** The state after fgets() has stored [l]. *)
Definition stored (st : line_state) (l : list Z) : line_state :=
  let a := gl_buf st + gl_total st in
  mk_line (gl_buf st) (gl_n st) (gl_total st + Z.of_nat (length l))
    (set_mem (store8 (store_bytes (h_mem (gl_heap st)) a l) (a + Z.of_nat (length l)) 0) (gl_heap st)).

Lemma reading_stored pre st l :
  reading pre st -> Z.of_nat (length pre + length l) < gl_n st ->
  reading (pre ++ l) (stored st l) /\ load8 (h_mem (gl_heap (stored st l))) (gl_buf st + Z.of_nat (length (pre ++ l))) = 0.
Proof.
  intros Hr Hlt. pose proof (reading_range _ _ Hr) as [Hpos Hlim]. destruct Hr as [(fl & nu & Hi & Hn) Hpre Ht Hs Hk Hb].
  assert (forall x, ~ (gl_buf st + gl_total st <= x <= gl_buf st + gl_total st + Z.of_nat (length l)) ->
    load8 (h_mem (gl_heap (stored st l))) x = load8 (h_mem (gl_heap st)) x) as Hfr.
  { intros x Hx. cbn. rewrite load8_store8, decide_False, load8_store_bytes, decide_False by lia. done. }
  split; [split; cbn [stored gl_heap gl_n gl_buf gl_total]|].
  - exists fl, nu. split; [|done]. apply inited_write; [done|]. intros x Hx. apply Hfr. unfold bend, HDR in *. cbn in Hx. lia.
  - rewrite length_app. apply list_eq_same_length with (length pre + length l)%nat.
    { by rewrite ?length_load_bytes, ?length_app. }
    { by rewrite ?length_load_bytes, ?length_app. }
    intros i x y Hi' Hx Hy. rewrite load_bytes_lookup in Hx by done. injection Hx as <-.
    cbn [set_mem h_mem]. rewrite load8_store8, decide_False by lia. rewrite load8_store_bytes.
    destruct (decide (i < length pre)%nat) as [Hlt'|Hge].
    + rewrite decide_False by lia. rewrite lookup_app_l, <- Hpre, load_bytes_lookup in Hy by (rewrite ?Hpre; lia).
      by injection Hy.
    + rewrite decide_True by lia. rewrite lookup_app_r in Hy by lia.
      unfold ptr_of.
      replace (Z.to_nat (gl_buf st + Z.of_nat i - (gl_buf st + gl_total st))) with (i - length pre)%nat by lia.
      by rewrite Hy.
  - rewrite length_app. lia.
  - done.
  - intros b x Hin Hx. rewrite <- (Hk b x Hin Hx). apply Hfr.
    pose proof (in_cover _ _ _ Hi) as Hcov. rewrite <- Permutation_middle in Hcov.
    destruct (covers_others _ _ _ (gl_buf st - HDR, nu) b Hcov) as [?|?]; [set_solver|..]; unfold bend, HDR in *; cbn in *; lia.
  - done.
  - cbn. rewrite load8_store8, decide_True; [done|]. rewrite length_app. lia.
Qed.

Lemma reading_fuel h fl bl : inited h fl bl -> (2 * length fl + 4 < N)%nat /\ (length fl + 1 < N)%nat.
Proof. intros Hi. apply inited_length in Hi. lia. Qed.

(** The next buffer has twice the size and the same start. *)
Lemma reading_grow pre st :
  reading pre st -> gl_n st <= 2 ^ 21 -> Z.of_nat (length pre) <= gl_n st ->
  exists st', getline_grow N st = Ret st' /\ reading pre st' /\ gl_n st' = 2 * gl_n st.
Proof.
  intros Hr Hn Hp. pose proof (reading_range _ _ Hr) as [Hpos Hlim]. destruct Hr as [(fl & nu & Hi & Hnu) Hpre Ht Hs Hk Hb].
  destruct (reading_fuel _ _ _ Hi) as [Hf1 _].
  assert (Z.log2 (gl_n st) <= 21) as Hlog by (change 21 with (Z.log2 (2 ^ 21)); by apply Z.log2_le_mono).
  unfold getline_grow. rewrite (u32_small (gl_n st * 2)) by lia.
  destruct (malloc_ok (gl_heap st) fl _ (gl_n st * 2) N (or_introl Hi) ltac:(unfold HDR; lia) Hf1)
    as (Hfit & r & h1 & E & Hp1 & Hres). set (nu1 := nunits_of (gl_n st * 2)) in *.
  destruct Hres as [(-> & _ & Hg)|(Hr0 & Hb1 & fl1 & Hi1)].
  { exfalso. eapply enough; [..|exact Hg]; unfold HDR in *; lia. }
  rewrite E. set (h2 := set_mem _ h1).
  assert (forall x, load8 (h_mem h2) x
    = if decide (r <= x < r + gl_n st) then load8 (h_mem h1) (gl_buf st + (x - r)) else load8 (h_mem h1) x) as Hm2.
  { intros x. cbn. unfold Ulib.memcpy. rewrite i32_small by lia. apply load8_umemmove. lia. }
  assert (inited h2 fl1 ((r - HDR, nu1) :: (gl_buf st - HDR, nu) :: al)) as Hi2.
  { apply inited_write; [done|]. intros x Hx. rewrite Hm2, decide_False; [done|]. unfold bend, HDR in *. cbn in Hx. lia. }
  rewrite Permutation_swap in Hi2. destruct (reading_fuel _ _ _ Hi2) as [_ Hf2].
  destruct (free_ok h2 fl1 _ _ N Hi2 Hf2) as (fl3 & h3 & E3 & Hi3 & Hb3 & _ & Hp3 & _).
  cbn [fst] in E3. replace (gl_buf st - HDR + HDR) with (gl_buf st) in E3 by lia. rewrite E3.
  eexists. split; [reflexivity|]. split; [|cbn; lia].
  destruct (inited_in _ _ _ (r - HDR, nu1) Hi1) as (Hr1 & Hr2 & Hr3); [set_solver|].
  split; cbn [gl_heap gl_n gl_buf gl_total].
  - exists fl3, nu1. split; [done|lia].
  - rewrite <- Hpre at 2. apply list_eq_same_length with (length pre); [by rewrite length_load_bytes..|].
    intros i x y Hi' Hx Hy. rewrite load_bytes_lookup in Hx, Hy by done. simplify_eq.
    rewrite (Hp3 (r - HDR, nu1)) by (by left || (unfold bend, HDR in *; cbn in *; lia)).
    rewrite Hm2, decide_True by lia.
    rewrite (Hp1 (gl_buf st - HDR, nu)) by (by left || (unfold bend, HDR in *; cbn in *; lia)). f_equal. lia.
  - done.
  - lia.
  - intros b x Hin Hx. rewrite (Hp3 b x ltac:(by right) Hx), Hm2.
    pose proof (in_cover _ _ _ Hi1) as Hcov. rewrite <- Permutation_middle in Hcov.
    destruct (covers_others _ _ _ (r - HDR, nu1) b Hcov) as [?|?]; [set_solver|..].
    all: rewrite decide_False by (unfold bend, HDR in *; cbn in *; lia).
    all: rewrite (Hp1 b x ltac:(by right) Hx); exact (Hk b x Hin Hx).
  - rewrite Hb3. cbn [h_brk set_mem h2]. rewrite (Z.mul_comm (gl_n st)), Z.log2_double by lia. unfold HDR in *. lia.
Qed.

Section Loop.
Context {W : Type} `{Streams W} (fd : Z).
Hypothesis no_errors : forall w n w', sys (Read fd n) w <> Some (None, w').

(** One round, up to the growing of the buffer. *)
Lemma getline_round pre st w :
  reading pre st -> Z.of_nat (length pre) + 2 <= gl_n st ->
  let l := take_line (Z.to_nat (gl_n st - gl_total st - 1)) (input w fd) in
  let st' := stored st l in
  exists w', input w fd = l ++ input w' fd /\
    ((l = [] \/ last l = Some 10) ->
      runs (getline_body N fd st) w (Returned (inr (Z.of_nat (length (pre ++ l)), st'))) w' []) /\
    (l <> [] -> last l <> Some 10 ->
      forall st2, getline_grow N st' = Ret st2 -> runs (getline_body N fd st) w (Returned (inl st2)) w' []).
Proof.
  intros Hr Hroom l st'. pose proof (reading_range _ _ Hr) as [Hpos Hlim]. pose proof (rd_total _ _ Hr) as Ht.
  pose proof (rd_size _ _ Hr) as Hs. pose proof (take_line_length (Z.to_nat (gl_n st - gl_total st - 1)) (input w fd)) as Hl.
  fold l in Hl. destruct (reading_stored pre st l Hr) as [Hr' Hz]; [lia|].
  destruct (fgets_runs fd no_errors (gl_buf st + gl_total st) (gl_n st - gl_total st) (h_mem (gl_heap st)) w) as (w' & Hf & Hin); [lia..|].
  fold l in Hf, Hin.
  assert (forall (l0 : list Z) c, l = l0 ++ [c] -> load8 (h_mem (gl_heap st')) (u64 (gl_buf st + u32 (u32 (gl_total st + Z.of_nat (length l)) - 1))) = c) as Hlast.
  { intros l0 c El. pose proof (rd_pre _ _ Hr') as Hp. rewrite El, length_app in *. cbn [length] in *.
    rewrite (u32_small (gl_total st + _)), u32_small, u64_small by lia.
    assert ((pre ++ l0 ++ [c]) !! (length pre + length l0)%nat = Some c) as Hc.
    { rewrite app_assoc. apply list_lookup_middle. by rewrite length_app. }
    rewrite <- Hp, load_bytes_lookup in Hc by (rewrite !length_app; cbn; lia).
    injection Hc as Hc. rewrite <- Hc. f_equal; [unfold st'; by rewrite El|lia]. }
  exists w'. split; [done|]. split.
  - intros Hend. unfold getline_body. rewrite u64_small, i32_small by lia. eapply runs_bind_quiet; [exact Hf|].
    cbn beta iota zeta. cbn [gl_total gl_buf gl_n gl_heap]. destruct (Z.eqb_spec (Z.of_nat (length l)) 0) as [E0|E0].
    + assert (l = []) as El by (destruct l; [done|cbn in E0; lia]). unfold st', stored. rewrite El. cbn [length].
      rewrite app_nil_r, !Z.add_0_r. rewrite i32_small, <- Ht by lia. apply runs_ret.
    + rewrite (proj2 (Z.eqb_neq _ (-1))) by lia.
      destruct Hend as [El|Hend]; [by rewrite El in E0|]. apply last_Some in Hend as [l0 El].
      unfold st', stored in Hlast. cbn [gl_heap h_mem set_mem] in Hlast. rewrite (Hlast _ _ El). cbn [Z.eqb Pos.eqb].
      rewrite u32_small, i32_small by lia. rewrite length_app, Nat2Z.inj_add, <- Ht. apply runs_ret.
  - intros Hne Hend st2 Eg. unfold getline_body. rewrite u64_small, i32_small by lia. eapply runs_bind_quiet; [exact Hf|].
    cbn beta iota zeta. cbn [gl_total gl_buf gl_n gl_heap].
    destruct l as [|c0 l1 _] eqn:El using rev_ind; [done|]. rewrite last_snoc in Hend.
    rewrite (proj2 (Z.eqb_neq _ 0)), (proj2 (Z.eqb_neq _ (-1))) by (rewrite length_app; cbn; lia).
    unfold st', stored in Hlast, Eg. cbn [gl_heap h_mem set_mem] in Hlast. rewrite (Hlast _ _ eq_refl).
    rewrite (proj2 (Z.eqb_neq _ 10)) by congruence. rewrite u32_small by lia. rewrite Eg.
    eapply runs_bind_quiet; apply runs_ret.
Qed.

(** What a round takes of a line: all of it, or a part without a newline that
    fills the room, or everything that is left. *)
Lemma take_line_next R line rest :
  (0 < R)%nat -> next_line line rest ->
  let l := take_line R (line ++ rest) in
  l = line /\ (l = [] \/ last l = Some 10) \/
  l <> [] /\ last l <> Some 10 /\ exists line', line = l ++ line' /\ next_line line' rest /\ (length l = R \/ line' = []).
Proof.
  intros HR [(body & -> & Hb)|[Hb ->]] l; unfold l.
  - rewrite <- app_assoc, take_line_app by done. destruct (decide (length body < R)%nat) as [Hlt|Hge].
    + left. rewrite take_ge by lia. destruct (R - length body)%nat eqn:E; [lia|]. cbn. rewrite last_snoc. auto.
    + right. replace (R - length body)%nat with 0%nat by lia. cbn [take_line]. rewrite app_nil_r. split_and!.
      * intros E. apply (f_equal length) in E. rewrite length_take in E. cbn in E. lia.
      * intros [l' E]%last_Some. assert (no_breaks (take R body)) as Ht by (by apply Forall_take).
        rewrite E in Ht. apply Forall_app in Ht as [_ Ht]. by apply Forall_cons in Ht as [[? _] _].
      * exists (drop R body ++ [10]). split_and!; [by rewrite app_assoc, take_drop| |left; rewrite length_take; lia].
        left. exists (drop R body). split; [done|by apply Forall_drop].
  - rewrite take_line_app by done.
    assert (take_line (R - length line) [] = []) as -> by (by destruct (R - length line)%nat). rewrite app_nil_r.
    destruct line as [|c line]; [left; rewrite take_nil; auto|right]. set (cl := c :: line) in *. split_and!.
    + destruct R; [lia|done].
    + intros [l' E]%last_Some. assert (no_breaks (take R cl)) as Ht by (by apply Forall_take).
      rewrite E in Ht. apply Forall_app in Ht as [_ Ht]. by apply Forall_cons in Ht as [[? _] _].
    + exists (drop R cl). split_and!; [by rewrite take_drop|right; split; [by apply Forall_drop|done]|].
      destruct (decide (R <= length cl)%nat); [left; rewrite length_take; lia|right; apply drop_ge; lia].
Qed.

Lemma getline_loop k pre st line rest w :
  (length line <= k)%nat -> reading pre st -> Z.of_nat (length pre) + 2 <= gl_n st ->
  Z.of_nat (length (pre ++ line)) < 2 ^ 20 ->
  gl_n st <= 2 * (Z.of_nat (length pre) + 1) \/ gl_n st = 128 \/ line = [] ->
  input w fd = line ++ rest -> next_line line rest ->
  exists st' w', runs (ITree.iter (getline_body N fd) st) w (Returned (Z.of_nat (length (pre ++ line)), st')) w' [] /\
    reading (pre ++ line) st' /\ load8 (h_mem (gl_heap st')) (gl_buf st' + Z.of_nat (length (pre ++ line))) = 0 /\
    input w' fd = rest /\ Z.of_nat (length (pre ++ line)) < gl_n st'.
Proof.
  revert pre st line w. induction k as [k IH] using lt_wf_ind. intros pre st line w Hk Hr Hroom Hlen Hn Hin Hnext.
  pose proof (rd_total _ _ Hr) as Ht. pose proof (rd_size _ _ Hr) as Hs.
  destruct (getline_round pre st w Hr Hroom) as (w1 & Hin1 & Hdone & Hmore).
  set (R := Z.to_nat (gl_n st - gl_total st - 1)) in *. rewrite Hin in Hin1, Hdone, Hmore.
  pose proof (take_line_length R (line ++ rest)) as HlR.
  destruct (take_line_next R line rest ltac:(lia) Hnext) as [[El Hend]|(Hne & Hend & line' & El & Hnext' & Hfull)].
  - rewrite El in *. destruct (reading_stored pre st line Hr) as [Hr' Hz]; [lia|].
    exists (stored st line), w1. split_and!; [by apply runs_iter_done, Hdone|done|exact Hz|by apply app_inv_head in Hin1|].
    rewrite length_app. cbn. lia.
  - set (l := take_line R (line ++ rest)) in *. destruct (reading_stored pre st l Hr) as [Hr' _]; [lia|].
    assert (0 < length l)%nat as Hl0 by (destruct l; [done|cbn; lia]).
    rewrite El, !length_app in Hlen. rewrite El, length_app in Hk. rewrite El, <- app_assoc in Hin1. apply app_inv_head in Hin1.
    assert (line <> []) as Hline by (rewrite El; destruct l; done).
    destruct (reading_grow (pre ++ l) (stored st l)) as (st2 & Eg & Hr2 & Hn2); [done|cbn; destruct Hn as [?|[?|?]]; [lia|lia|done]|cbn; rewrite length_app; lia|].
    cbn [stored gl_n] in Hn2.
    destruct (IH (length line') ltac:(lia) (pre ++ l) st2 line' w1) as (st' & w' & Hrun & Hrd & Hz & Hrest & Hfit); [lia|done| | | |done|done|].
    + rewrite length_app. lia.
    + rewrite !length_app. lia.
    + rewrite length_app. destruct Hfull as [Hfull|Hfull]; [left; lia|by right; right].
    + rewrite El, app_assoc. exists st', w'. split_and!; [|done..].
      eapply runs_iter_quiet; [|exact Hrun]. by apply (Hmore Hne Hend).
Qed.
End Loop.

End Getline.

Definition two_lines : tape := mk_tape {[0 := replicate 200 65 ++ [10; 66; 10]]}.

