(* ===== verification/Uprogs.v ===== *)
(** * User programs (user/cat.c, wc.c, echo.c, ls.c, ln.c, kill.c, mkdir.c,
      rm.c, grep.c's main, init.c, zombie.c, forktest.c, stressfs.c).

    A program is its main(), given argv (argc is its length).  A Module per
    program; the theorems are about cat, wc and echo. *)

From ITree Require Import ITree.
From S2P Require Import Prelude Defs Mem Uart Grep Usys Ulib.
Local Open Scope user_scope.

(** The loop [for(i = 1; i < argc; i++)]. *)
Definition args (argv : list (list Z)) : list (list Z) := tail argv.

Module Cat.
Definition cat_body (fd : Z) (_ : unit) : U (unit + unit) :=
  let* n := call (Read fd 512) in
  match n with
  | None => fprintf 2 (strn "cat: read error") [] ;* exit 1
  | Some [] => Ret (inr tt)
  | Some buf =>
    let* r := call (Write 1 buf) in
    if r =? Z.of_nat (length buf) then Ret (inl tt)
    else fprintf 2 (strn "cat: write error") [] ;* exit 1
  end.
Definition cat (fd : Z) : U unit := ITree.iter (cat_body fd) tt.

Definition main (argv : list (list Z)) : U unit :=
  match args argv with
  | [] => cat 0 ;* exit 0
  | files =>
    each files (fun f =>
      let* fd := call (Open f 0) in
      if fd <? 0 then fprintf 2 (strn "cat: cannot open %s") [A_str (Some f)] ;* exit 1
      else cat fd ;* call (Close fd) ;* Ret tt) ;*
    exit 0
  end.
End Cat.

Module Wc.
(** The counters of lines, words and characters, and whether the last
    character was in a word. *)
Record counts := mk_counts { wl : Z; ww : Z; wc_ : Z; inword : bool }.

Definition spaces : list Z := [32; 13; 9; 10; 11].

Definition count (s : counts) (b : Z) : counts :=
  let c := i32 (wc_ s + 1) in
  let l := if b =? 10 then i32 (wl s + 1) else wl s in
  match strchr b spaces with
  | Some _ => mk_counts l (ww s) c false
  | None => if inword s then mk_counts l (ww s) c true else mk_counts l (i32 (ww s + 1)) c true
  end.

Definition wc_body (fd : Z) (s : counts) : U (counts + counts) :=
  let* n := call (Read fd 512) in
  match n with
  | None => printf (strn "wc: read error") [] ;* exit 1
  | Some [] => Ret (inr s)
  | Some buf => Ret (inl (foldl count s buf))
  end.
Definition wc (fd : Z) (name : list Z) : U unit :=
  let* s := ITree.iter (wc_body fd) (mk_counts 0 0 0 false) in
  printf (strn "%d %d %d %s") [A_int (wl s); A_int (ww s); A_int (wc_ s); A_str (Some name)].

Definition main (argv : list (list Z)) : U unit :=
  match args argv with
  | [] => wc 0 [] ;* exit 0
  | files =>
    each files (fun f =>
      let* fd := call (Open f 0) in
      if fd <? 0 then printf (strn "wc: cannot open %s") [A_str (Some f)] ;* exit 1
      else wc fd f ;* call (Close fd) ;* Ret tt) ;*
    exit 0
  end.
End Wc.

Module Echo.
Fixpoint echo (l : list (list Z)) : U unit :=
  match l with
  | [] => Ret tt
  | a :: l =>
    call (Write 1 a) ;*
    call (Write 1 (match l with [] => [10] | _ => [32] end)) ;*
    echo l
  end.
Definition main (argv : list (list Z)) : U unit := echo (args argv) ;* exit 0.
End Echo.

Module Ls.
(** The characters after the last slash. *)
Fixpoint after_slash (path : list Z) : list Z :=
  match path with
  | [] => []
  | c :: p => if existsb (Z.eqb 47) path then after_slash p else path
  end.
Definition fmtname (path : list Z) : list Z :=
  let p := after_slash path in
  if DIRSIZ <=? strlen p then p else p ++ replicate (Z.to_nat (DIRSIZ - strlen p)) 32.

(** One entry of the directory; [None] when read() is not given a whole one. *)
Definition ls_body (fd : Z) (path : list Z) (_ : unit) : U (unit + unit) :=
  let* r := call (Read fd 16) in
  match r with
  | Some de =>
    if (length de =? 16)%nat then
      if le_val (take 2 de) =? 0 then Ret (inl tt) else
      let name := path ++ [47] ++ cstr (Z.to_nat DIRSIZ) (ptr_of (drop 2 de)) in
      let* st := ustat name in
      match st with
      | None => printf (strn "ls: cannot stat %s") [A_str (Some name)] ;* Ret (inl tt)
      | Some st =>
        printf (strn "%s %d %d %d")
          [A_str (Some (fmtname name)); A_int (st_type st); A_int (st_ino st); A_u64 (st_size st)] ;*
        Ret (inl tt)
      end
    else Ret (inr tt)
  | None => Ret (inr tt)
  end.

Definition ls (path : list Z) : U unit :=
  let* fd := call (Open path 0) in
  if fd <? 0 then fprintf 2 (strn "ls: cannot open %s") [A_str (Some path)] else
  let* st := call (Fstat fd) in
  match st with
  | None => fprintf 2 (strn "ls: cannot stat %s") [A_str (Some path)] ;* call (Close fd) ;* Ret tt
  | Some st =>
    (if (st_type st =? T_DEVICE) || (st_type st =? T_FILE) then
       printf (strn "%s %d %d %l")
         [A_str (Some (fmtname path)); A_int (st_type st); A_int (st_ino st); A_u64 (st_size st)]
     else if st_type st =? T_DIR then
       if 512 <? strlen path + 1 + DIRSIZ + 1 then printf (strn "ls: path too long") []
       else ITree.iter (ls_body fd path) tt
     else Ret tt) ;*
    call (Close fd) ;* Ret tt
  end.

Definition main (argv : list (list Z)) : U unit :=
  match args argv with
  | [] => ls (str ".") ;* exit 0
  | files => each files ls ;* exit 0
  end.
End Ls.

Module Ln.
Definition main (argv : list (list Z)) : U unit :=
  match argv with
  | [_; old; new] =>
    let* r := call (Link old new) in
    (if r <? 0 then fprintf 2 (strn "link %s %s: failed") [A_str (Some old); A_str (Some new)] else Ret tt) ;*
    exit 0
  | _ => fprintf 2 (strn "Usage: ln old new") [] ;* exit 1
  end.
End Ln.

Module Kill.
Definition main (argv : list (list Z)) : U unit :=
  match args argv with
  | [] => fprintf 2 (strn "usage: kill pid...") [] ;* exit 1
  | pids => each pids (fun p => call (Usys.Kill (atoi p)) ;* Ret tt) ;* exit 0
  end.
End Kill.

Module Mkdir.
Definition main (argv : list (list Z)) : U unit :=
  match args argv with
  | [] => fprintf 2 (strn "Usage: mkdir files...") [] ;* exit 1
  | files =>
    each_while files (fun f =>
      let* r := call (Usys.Mkdir f) in
      if r <? 0 then fprintf 2 (strn "mkdir: %s failed to create") [A_str (Some f)] ;* Ret false
      else Ret true) ;*
    exit 0
  end.
End Mkdir.

Module Rm.
Definition main (argv : list (list Z)) : U unit :=
  match args argv with
  | [] => fprintf 2 (strn "Usage: rm files...") [] ;* exit 1
  | files =>
    each_while files (fun f =>
      let* r := call (Unlink f) in
      if r <? 0 then fprintf 2 (strn "rm: %s failed to delete") [A_str (Some f)] ;* Ret false
      else Ret true) ;*
    exit 0
  end.
End Rm.

Module GrepProg.
(** The lines of the buffer that match are written one by one. *)
Fixpoint print_matching (n : nat) (pattern p : list Z) : U (list Z) :=
  match n with
  | O => Ret p
  | S n =>
    match strchr ch_newline p with
    | Some (line, _ :: rest) =>
      (if match_ pattern line then call (Write 1 (line ++ [ch_newline])) ;* Ret tt else Ret tt) ;*
      print_matching n pattern rest
    | _ => Ret p
    end
  end.
Definition grep_body (pattern : list Z) (fd : Z) (buf : list Z) : U (list Z + unit) :=
  let* n := call (Read fd (Z.of_nat (BUFSZ - length buf - 1))) in
  match n with
  | None | Some [] => Ret (inr tt)
  | Some got =>
    let buf := buf ++ got in
    let* buf := print_matching (length buf) pattern buf in
    Ret (inl buf)
  end.
Definition grep (pattern : list Z) (fd : Z) : U unit := ITree.iter (grep_body pattern fd) [].

Definition main (argv : list (list Z)) : U unit :=
  match args argv with
  | [] => fprintf 2 (strn "usage: grep pattern [file ...]") [] ;* exit 1
  | [pattern] => grep pattern 0 ;* exit 0
  | pattern :: files =>
    each files (fun f =>
      let* fd := call (Open f 0) in
      if fd <? 0 then printf (strn "grep: cannot open %s") [A_str (Some f)] ;* exit 1
      else grep pattern fd ;* call (Close fd) ;* Ret tt) ;*
    exit 0
  end.
End GrepProg.

Module Init.
Definition banner : list (list Z) :=
  [strn " __________________"; strn "< Welcome to FogOS >"; strn " ------------------";
   strn "        \   ^__^"; strn "         \  (**)\_______"; strn "            (__)\       )\/\";
   strn "             U  ||----w |"; strn "                ||     ||"].

(** Until wait() returns the shell's pid. *)
Definition reap (pid : Z) (_ : unit) : U (unit + unit) :=
  let* wpid := call Wait in
  if wpid =? pid then Ret (inr tt)
  else if wpid <? 0 then printf (strn "init: wait returned an error") [] ;* exit 1
  else Ret (inl tt).

Definition start_sh (_ : unit) : U (unit + unit) :=
  printf (strn "init: starting sh") [] ;*
  let* pid := call Fork in
  if pid <? 0 then printf (strn "init: fork failed") [] ;* exit 1 else
  if pid =? 0 then
    call (Exec (str "sh") [str "sh"]) ;* printf (strn "init: exec sh failed") [] ;* exit 1
  else ITree.iter (reap pid) tt ;* Ret (inl tt).

Definition main : U unit :=
  let* fd := call (Open (str "console") O_RDWR) in
  (if fd <? 0 then call (Mknod (str "console") CONSOLE 0) ;* call (Open (str "console") O_RDWR) ;* Ret tt
   else Ret tt) ;*
  call (Dup 0) ;* call (Dup 0) ;*
  each banner (fun l => printf l []) ;*
  ITree.iter start_sh tt.
End Init.

Module Zombie.
Definition main : U unit :=
  let* pid := call Fork in
  (if 0 <? pid then call (Sleep 5) ;* Ret tt else Ret tt) ;* exit 0.
End Zombie.

Module Forktest.
Definition N : nat := 1000.
Definition print (s : list Z) : U unit := call (Write 1 s) ;* Ret tt.

(** The number of children, when fork() fails; [N] when it never does. *)
Fixpoint forks (k n : nat) : U nat :=
  match k with
  | O => Ret n
  | S k =>
    let* pid := call Fork in
    if pid <? 0 then Ret n else if pid =? 0 then exit 0 else forks k (S n)
  end.
Fixpoint waits (n : nat) : U unit :=
  match n with
  | O => Ret tt
  | S n =>
    let* r := call Wait in
    if r <? 0 then print (strn "wait stopped early") ;* exit 1 else waits n
  end.
Definition forktest : U unit :=
  print (strn "fork test") ;*
  let* n := forks N 0 in
  if (n =? N)%nat then print (strn "fork claimed to work N times!") ;* exit 1 else
  waits n ;*
  let* r := call Wait in
  if negb (r =? -1) then print (strn "wait got too many") ;* exit 1 else
  print (strn "fork test OK").
Definition main : U unit := forktest ;* exit 0.
End Forktest.

Module Stressfs.
(** The index of the process: how many times fork() had returned 0. *)
Fixpoint spread (k i : nat) : U nat :=
  match k with
  | O => Ret i
  | S k => let* pid := call Fork in if 0 <? pid then Ret i else spread k (S i)
  end.
Definition times (n : nat) (t : U unit) : U unit := each (seq 0 n) (fun _ => t).
Definition main : U unit :=
  printf (strn "stressfs starting") [] ;*
  let data := replicate 512 97 in
  let* i := spread 4 0 in
  printf (strn "write %d") [A_int (Z.of_nat i)] ;*
  let path := str "stressfs" ++ [48 + Z.of_nat i] in
  let* fd := call (Open path (Z.lor O_CREATE O_RDWR)) in
  times 20 (call (Write fd data) ;* Ret tt) ;*
  call (Close fd) ;*
  printf (strn "read") [] ;*
  let* fd := call (Open path O_RDONLY) in
  times 20 (call (Read fd 512) ;* Ret tt) ;*
  call (Close fd) ;*
  call Wait ;*
  exit 0.
End Stressfs.
