(* ===== verification/UprogsSpec.v ===== *)
(** * What cat and wc compute.

    Both hold for every system and for every way read() may cut the input. *)

From ITree Require Import ITree.
From S2P Require Import Prelude Defs Mem Uart Grep Usys Ulib Uprogs.

(** ** Specifications *)

(** The fragments of a text between the characters that satisfy [p]. *)
Fixpoint split_on (p : Z -> bool) (s : list Z) : list (list Z) :=
  match s with
  | [] => [[]]
  | c :: s =>
    if p c then [] :: split_on p s
    else match split_on p s with f :: fs => (c :: f) :: fs | [] => [[c]] end
  end.

Definition is_space (c : Z) : bool := bool_decide (c ∈ Wc.spaces).
Definition words (s : list Z) : list (list Z) := filter (fun f => f <> []) (split_on is_space s).
Definition newlines (s : list Z) : list Z := filter (fun c => c = 10) s.

Section Streams.
Context {W : Type} `{Streams W} (fd : Z).

Lemma read_chunk w n :
  0 < n -> exists r w', sys (Read fd n) w = Some (r, w') /\
    match r with
    | None => True
    | Some [] => input w fd = [] /\ input w' fd = []
    | Some bs => input w fd = bs ++ input w' fd
    end.
Proof.
  intros Hn. destruct (call_answers (Read fd n) w eq_refl) as (r & w' & E). exists r, w'. split; [done|].
  destruct r as [[|c bs]|]; [|by apply read_takes in E as [? _]|done].
  pose proof (read_end _ _ _ _ Hn E) as H1. apply read_takes in E as [H2 _]. rewrite H1 in H2. by split.
Qed.

(** ** cat *)

Section Cat.
(** Standard output is not the file that is read. *)
Hypothesis apart : forall w bs r w', sys (Write 1 bs) w = Some (r, w') -> input w' fd = input w fd.

Lemma sent_to_one (f f' : Z) bs : sent_to f [(f', bs)] = if decide (f' = f) then bs else [].
Proof.
  unfold sent_to. rewrite filter_cons. cbn. case_decide; cbn; [apply app_nil_r|done].
Qed.

Lemma cat_fails text w :
  Forall (fun c => 0 <= c < 256) text ->
  forall (t : U unit), prints t 2 text ->
  exists w' log, runs (ITree.bind t (fun _ => exit 1 : U (unit + unit))) w (Ended (Exited 1)) w' log /\
    sent_to 1 log = [] /\ sent_to 2 log = text.
Proof.
  intros Ht t Hp. destruct (Hp w) as (w' & Hr). exists w', (puts 2 text ++ []). split_and!.
  - eapply uruns_bind; [exact Hr|apply runs_exit].
  - by rewrite app_nil_r, sent_to_puts_ne.
  - by rewrite app_nil_r, sent_to_puts.
Qed.

Lemma cat_loop k w :
  (length (input w fd) <= k)%nat ->
  exists r w' log, runs (Cat.cat fd) w r w' log /\
    (r = Returned tt /\ input w' fd = [] /\ sent_to 1 log = input w fd /\ sent_to 2 log = [] \/
     r = Ended (Exited 1) /\ sent_to 1 log `prefix_of` input w fd /\
     (sent_to 2 log = strn "cat: read error" \/ sent_to 2 log = strn "cat: write error")).
Proof.
  revert w. induction k as [k IH] using lt_wf_ind. intros w Hk.
  destruct (read_chunk w 512 ltac:(lia)) as (r & w1 & E & Hr). unfold Cat.cat. destruct r as [[|c bs]|].
  - destruct Hr as [E0 E1]. exists (Returned tt), w1, []. split; [|left; by rewrite E0].
    apply runs_iter_done. unfold Cat.cat_body. ucall E. apply runs_ret.
  - set (buf := c :: bs) in *. destruct (call_answers (Write 1 buf) w1 eq_refl) as (x & w2 & Ew).
    pose proof (apart _ _ _ _ Ew) as Hap. destruct (Z.eqb_spec x (Z.of_nat (length buf))) as [Ex|Ex].
    + destruct (IH (length (input w2 fd))) with (w := w2) as (r & w3 & log & Hrun & Hres).
      { rewrite Hr, length_app in Hk. rewrite Hap. cbn in Hk. lia. }
      { done. }
      exists r, w3, ((request (Write 1 buf) ++ []) ++ log). split.
      * eapply runs_iter_next; [|exact Hrun]. unfold Cat.cat_body. ucall E. unfold buf. ucall Ew. fold buf.
        rewrite Ex, Z.eqb_refl. apply runs_ret.
      * rewrite app_nil_r, !sent_to_app. cbn [request]. rewrite !sent_to_one. cbn [decide]. rewrite decide_True, decide_False by done.
        rewrite Hr, <- Hap. destruct Hres as [(-> & ? & -> & ->)|(-> & ? & ?)]; [by left|right].
        split_and!; [done|by apply prefix_app|done].
    + destruct (cat_fails (strn "cat: write error") w2) with (t := fprintf 2 (strn "cat: write error") []) as (w3 & log & Hrun & H1 & H2).
      { apply (bool_decide_unpack _). by vm_compute. }
      { apply prints_fprintf. }
      exists (Ended (Exited 1)), w3, (request (Write 1 buf) ++ log). split.
      * apply runs_iter_ended. unfold Cat.cat_body. ucall E. unfold buf. ucall Ew. fold buf.
        rewrite (proj2 (Z.eqb_neq _ _)) by done. exact Hrun.
      * right. rewrite !sent_to_app, H1, H2, app_nil_r. cbn [request]. rewrite !sent_to_one, decide_True, decide_False by done.
        rewrite Hr. split_and!; [done|by exists (input w1 fd)|by right].
  - destruct (cat_fails (strn "cat: read error") w1) with (t := fprintf 2 (strn "cat: read error") []) as (w3 & log & Hrun & H1 & H2).
    { apply (bool_decide_unpack _). by vm_compute. }
    { apply prints_fprintf. }
    exists (Ended (Exited 1)), w3, log. split.
    + apply runs_iter_ended. unfold Cat.cat_body. by ucall E.
    + right. rewrite H1. split_and!; [done|apply prefix_nil|by left].
Qed.

(** cat(fd) ends, and copies what [fd] delivers to standard output, all of
    it and nothing else, or it stops with status 1 and a message on standard
    error having copied a prefix. *)
Theorem cat_copies w :
  exists r w' log, runs (Cat.cat fd) w r w' log /\
    (r = Returned tt /\ input w' fd = [] /\ sent_to 1 log = input w fd /\ sent_to 2 log = [] \/
     r = Ended (Exited 1) /\ sent_to 1 log `prefix_of` input w fd /\
     (sent_to 2 log = strn "cat: read error" \/ sent_to 2 log = strn "cat: write error")).
Proof. by apply (cat_loop (length (input w fd))). Qed.
End Cat.

(** ** wc *)

(** The words that end up counted when the text before was in a word or not. *)
Definition words_from (b : bool) (s : list Z) : list (list Z) :=
  filter (fun f => f <> []) (if b then tail (split_on is_space s) else split_on is_space s).

Lemma strchr_spaces c : strchr c Wc.spaces = None <-> is_space c = false.
Proof.
  unfold is_space. rewrite bool_decide_eq_false. split.
  - intros E Hin. unfold Wc.spaces in Hin. rewrite !elem_of_cons, elem_of_nil in Hin.
    destruct Hin as [->|[->|[->|[->|[->|[]]]]]]; discriminate E.
  - unfold Wc.spaces. rewrite !not_elem_of_cons. intros (? & ? & ? & ? & ? & _). cbn [strchr].
    rewrite !(proj2 (Z.eqb_neq _ c)) by congruence. reflexivity.
Qed.

Lemma split_on_cons p s : exists f fs, split_on p s = f :: fs.
Proof. destruct s as [|c s]; cbn; [eauto|]. destruct (p c); [eauto|]. destruct (split_on p s); eauto. Qed.

Lemma words_from_cons b c s :
  length (words_from b (c :: s))
  = if is_space c then length (words_from false s)
    else ((if b then 0 else 1) + length (words_from true s))%nat.
Proof.
  unfold words_from. cbn [split_on]. destruct (split_on_cons is_space s) as (f & fs & ->).
  destruct (is_space c); destruct b; cbn [tail]; rewrite ?(filter_cons_False _ []) by (intros E; by apply E).
  - done.
  - done.
  - done.
  - by rewrite filter_cons_True.
Qed.

Lemma words_from_bound b s : (length (words_from b s) <= length s)%nat.
Proof.
  revert b. induction s as [|c s IH]; intros b; [by destruct b|]. rewrite words_from_cons. cbn [length].
  destruct (is_space c), b; specialize (IH false) as H1; specialize (IH true) as H2; lia.
Qed.

Lemma count_all s l w c b :
  0 <= l -> 0 <= w -> 0 <= c -> l + Z.of_nat (length s) < 2 ^ 31 -> w + Z.of_nat (length s) < 2 ^ 31 -> c + Z.of_nat (length s) < 2 ^ 31 ->
  exists b', foldl Wc.count (Wc.mk_counts l w c b) s
    = Wc.mk_counts (l + Z.of_nat (length (newlines s))) (w + Z.of_nat (length (words_from b s))) (c + Z.of_nat (length s)) b'.
Proof.
  revert l w c b. induction s as [|x s IH]; intros l w c b Hl Hw Hc Hl' Hw' Hc'; cbn [foldl length] in *.
  { exists b. by destruct b; cbn; rewrite !Z.add_0_r. }
  unfold Wc.count at 2. cbn [Wc.wl Wc.ww Wc.wc_ Wc.inword]. rewrite !(i32_small (_ + 1)) by lia.
  rewrite words_from_cons. unfold newlines. rewrite filter_cons. fold (newlines s).
  assert ((if x =? 10 then l + 1 else l) = l + (if decide (x = 10) then 1 else 0)) as El.
  { destruct (Z.eqb_spec x 10), (decide (x = 10)); lia || done. }
  rewrite El. assert (length (if decide (x = 10) then x :: newlines s else newlines s)
    = (if decide (x = 10) then S (length (newlines s)) else length (newlines s))) as -> by (by case_decide).
  pose proof (strchr_spaces x) as Hsp. destruct (strchr x Wc.spaces) as [p|] eqn:Es.
  - assert (is_space x = true) as -> by (destruct (is_space x); [done|by discriminate (proj2 Hsp eq_refl)]).
    edestruct (IH (l + (if decide (x = 10) then 1 else 0)) w (c + 1) false) as (b' & Eb); [case_decide; lia..|].
    exists b'. rewrite Eb. f_equal; case_decide; lia.
  - rewrite (proj1 Hsp eq_refl). destruct b.
    + edestruct (IH (l + (if decide (x = 10) then 1 else 0)) w (c + 1) true) as (b' & Eb); [case_decide; lia..|].
      exists b'. rewrite Eb. f_equal; case_decide; lia.
    + edestruct (IH (l + (if decide (x = 10) then 1 else 0)) (w + 1) (c + 1) true) as (b' & Eb); [case_decide; lia..|].
      exists b'. rewrite Eb. f_equal; case_decide; lia.
Qed.

Lemma wc_loop k s w :
  (length (input w fd) <= k)%nat ->
  exists r w' log, runs (ITree.iter (Wc.wc_body fd) s) w r w' log /\
    (r = Returned (foldl Wc.count s (input w fd)) /\ input w' fd = [] /\ log = [] \/
     r = Ended (Exited 1) /\ log = puts 1 (strn "wc: read error")).
Proof.
  revert s w. induction k as [k IH] using lt_wf_ind. intros s w Hk.
  destruct (read_chunk w 512 ltac:(lia)) as (r & w1 & E & Hr). destruct r as [[|c bs]|].
  - destruct Hr as [E0 E1]. exists (Returned s), w1, []. split; [|left; by rewrite E0].
    apply runs_iter_done. unfold Wc.wc_body. ucall E. apply runs_ret.
  - destruct (IH (length (input w1 fd))) with (w := w1) (s := foldl Wc.count s (c :: bs)) as (r & w3 & log & Hrun & Hres).
    { rewrite Hr, length_app in Hk. cbn in Hk. lia. }
    { done. }
    exists r, w3, log. split; [|by rewrite Hr, foldl_app].
    eapply runs_iter_quiet; [|exact Hrun]. unfold Wc.wc_body. ucall E. apply runs_ret.
  - destruct (prints_printf (strn "wc: read error") [] w1) as (w2 & Hp).
    exists (Ended (Exited 1)), w2, (puts 1 (strn "wc: read error") ++ []). split; [|right; by rewrite app_nil_r].
    apply runs_iter_ended. unfold Wc.wc_body. ucall E. eapply uruns_bind; [exact Hp|apply runs_exit].
Qed.

Lemma format_counts l m c name :
  0 <= l < 2 ^ 31 -> 0 <= m < 2 ^ 31 -> 0 <= c < 2 ^ 31 ->
  format (strn "%d %d %d %s") false [A_int l; A_int m; A_int c; A_str (Some name)]
  = dec l ++ [32] ++ dec m ++ [32] ++ dec c ++ [32] ++ name ++ [10].
Proof.
  intros Hl Hm Hc. change (strn "%d %d %d %s") with [37; 100; 32; 37; 100; 32; 37; 100; 32; 37; 115; 10].
  cbn [format negb Z.eqb Pos.eqb va_word va_str tail default from_option id app]. by rewrite !i32_small by lia.
Qed.

(** wc(fd, name) ends, and prints the numbers of newlines, of words and of
    characters of what [fd] delivers (fewer than 2^31 characters), and the
    name; or it prints a message and exits with 1 when a read fails. *)
Theorem wc_counts name w :
  Z.of_nat (length (input w fd)) < 2 ^ 31 ->
  let s := input w fd in
  exists r w' log, runs (Wc.wc fd name) w r w' log /\
    (r = Returned tt /\
     log = puts 1 (dec (Z.of_nat (length (newlines s))) ++ [32] ++ dec (Z.of_nat (length (words s))) ++ [32] ++
                   dec (Z.of_nat (length s)) ++ [32] ++ name ++ [10]) \/
     r = Ended (Exited 1) /\ log = puts 1 (strn "wc: read error")).
Proof.
  intros Hlen s. destruct (wc_loop (length s) (Wc.mk_counts 0 0 0 false) w) as (r & w1 & log & Hrun & [(-> & Hin & ->)|(-> & ->)]); [done| |].
  - fold s in Hrun, Hlen. destruct (count_all s 0 0 0 false) as (b & Eb); [lia..|]. rewrite Eb in Hrun.
    destruct (prints_printf (strn "%d %d %d %s") [A_int (Z.of_nat (length (newlines s))); A_int (Z.of_nat (length (words s)));
      A_int (Z.of_nat (length s)); A_str (Some name)] w1) as (w2 & Hp).
    exists (Returned tt), w2, ([] ++ puts 1 (format (strn "%d %d %d %s") false [A_int (Z.of_nat (length (newlines s))); A_int (Z.of_nat (length (words s)));
      A_int (Z.of_nat (length s)); A_str (Some name)])). split; [|left; split; [done|]].
    + unfold Wc.wc. eapply uruns_bind; [exact Hrun|]. exact Hp.
    + cbn [app]. f_equal. pose proof (words_from_bound false s). change (words_from false s) with (words s) in *.
      assert (length (newlines s) <= length s)%nat by apply length_filter. apply format_counts; lia.
  - exists (Ended (Exited 1)), w1, (puts 1 (strn "wc: read error")). split; [|by right]. by apply runs_bind_ended.
Qed.
End Streams.

Definition poem : tape := mk_tape {[0 := str "so much  depends" ++ [10] ++ str "upon" ++ [10]]}.

Lemma cat_copies_witness :
  exists w log, runs (Cat.cat 0) poem (Returned tt) w log /\ sent_to 1 log = str "so much  depends" ++ [10] ++ str "upon" ++ [10].
Proof.
  destruct (cat_copies (W:=tape) 0) with (w := poem) as (r & w & log & Hr & Hres).
  - intros w bs r w' E. cbn in E. by injection E as _ <-.
  - destruct Hres as [(-> & _ & Hs & _)|(-> & _ & He)]; [by exists w, log|].
    exfalso. destruct Hr as [n Hn]. apply (run_more n (n + 20)) in Hn; [|lia].
    assert (run 20 (Cat.cat 0) poem = Some (Returned tt, mk_tape {[0 := []]}, [(1, str "so much  depends" ++ [10] ++ str "upon" ++ [10])])) as Hm
      by (vm_compute; reflexivity).
    apply (run_more 20 (n + 20)) in Hm; [|lia]. congruence.
Defined.

Lemma wc_counts_witness :
  exists w, runs (Wc.wc 0 (str "poem")) poem (Returned tt) w (puts 1 (strn "2 4 22 poem")).
Proof.
  destruct (wc_counts (W:=tape) 0 (str "poem") poem) as (r & w & log & Hr & Hres).
  - vm_compute. reflexivity.
  - destruct Hres as [(-> & ->)|(-> & ->)]; [exists w; exact Hr|].
    exfalso. destruct Hr as [n Hn]. apply (run_more n (n + 80)) in Hn; [|lia].
    destruct (run 80 (Wc.wc 0 (str "poem")) poem) as [[[r' w'] log']|] eqn:Hm; [|vm_compute in Hm; discriminate Hm].
    assert (r' = Returned tt) as -> by (vm_compute in Hm; congruence).
    apply (run_more 80 (n + 80)) in Hm; [|lia]. congruence.
Defined.
