(* ===== verification/Ugrind.v ===== *)
(** * grind (user/grind.c).

    Random system calls in parallel, forever.  The generator is the minimal
    standard one, computed without overflow; the rest is a program without an
    end, one round of whose loop is [step]. *)

From ITree Require Import ITree.
From S2P Require Import Prelude Defs Mem Uart Usys Ulib.
Local Open Scope user_scope.

(** ** The generator *)

(** The new context, which is the result as well. *)
Definition do_rand (ctx : Z) : Z :=
  let x := ctx `mod` 0x7ffffffe + 1 in
  let hi := x / 127773 in
  let lo := x `mod` 127773 in
  let x := 16807 * lo - 2836 * hi in
  let x := if x <? 0 then x + 0x7fffffff else x in
  x - 1.

(** ** The processes *)

(** The variables of go(): [fd], [buf], [iters] and the global [rand_next]. *)
Record vars := mk_vars { v_fd : Z; v_buf : list Z; v_iters : Z; v_rand : Z }.

Definition close_open (path : list Z) : U unit :=
  let* fd := call (Open path (Z.lor O_CREATE O_RDWR)) in
  call (Close fd) ;* Ret tt.

Definition failed (msg : string) : U unit := printf (strn msg) [] ;* exit 1.

(** [fork(); child; exit(0)] or the parent goes on with the pid. *)
Definition forked (child : U unit) (parent : Z -> U unit) : U unit :=
  let* pid := call Fork in
  if pid =? 0 then child ;* exit 0
  else if pid <? 0 then failed "grind: fork failed"
  else parent pid.

Definition wait0 : U unit := call Wait ;* Ret tt.

(** what == 19 *)
Definition pipe_child (p0 p1 : Z) : U unit :=
  call Fork ;* call Fork ;*
  let* r := call (Write p1 (str "x")) in
  (if r =? 1 then Ret tt else printf (strn "grind: pipe write failed") []) ;*
  let* c := call (Read p0 1) in
  match c with
  | Some [_] => Ret tt
  | _ => printf (strn "grind: pipe read failed") []
  end.

(** what == 21 *)
Definition create_c : U unit :=
  call (Unlink (str "c")) ;*
  let* fd1 := call (Open (str "c") (Z.lor O_CREATE O_RDWR)) in
  if fd1 <? 0 then failed "grind: create c failed" else
  let* r := call (Write fd1 (str "x")) in
  if negb (r =? 1) then failed "grind: write c failed" else
  let* st := call (Fstat fd1) in
  match st with
  | None => failed "grind: fstat failed"
  | Some st =>
    if negb (st_size st =? 1) then
      printf (strn "grind: fstat reports wrong size %d") [A_int (i32 (st_size st))] ;* exit 1
    else if 200 <? st_ino st then
      printf (strn "grind: fstat reports crazy i-number %d") [A_int (st_ino st)] ;* exit 1
    else
      call (Close fd1) ;*
      call (Unlink (str "c")) ;* Ret tt
  end.

(** what == 22: the two children of "echo hi | cat" *)
Definition run_echo (a0 a1 b0 b1 : Z) : U unit :=
  call (Close b0) ;* call (Close b1) ;* call (Close a0) ;* call (Close 1) ;*
  let* r := call (Dup a1) in
  if negb (r =? 1) then fprintf 2 (strn "grind: dup failed") [] ;* exit 1 else
  call (Close a1) ;*
  call (Exec (str "grindir/../echo") [str "echo"; str "hi"]) ;*
  fprintf 2 (strn "grind: echo: not found") [] ;*
  exit 2.
Definition run_cat (a0 a1 b0 b1 : Z) : U unit :=
  call (Close a1) ;* call (Close b0) ;* call (Close 0) ;*
  let* r := call (Dup a0) in
  if negb (r =? 0) then fprintf 2 (strn "grind: dup failed") [] ;* exit 4 else
  call (Close a0) ;* call (Close 1) ;*
  let* r := call (Dup b1) in
  if negb (r =? 1) then fprintf 2 (strn "grind: dup failed") [] ;* exit 5 else
  call (Close b1) ;*
  call (Exec (str "/cat") [str "cat"]) ;*
  fprintf 2 (strn "grind: cat: not found") [] ;*
  exit 6.

(** A read of one byte into a variable. *)
Definition read1 (fd old : Z) : U Z :=
  let* r := call (Read fd 1) in
  Ret (match r with Some (c :: _) => c | _ => old end).
(** [wait(&st)]. *)
Definition wait_into (old : Z) : U Z :=
  let* r := call Wait_status in
  Ret (match r with Some (_, st) => st | None => old end).

(** The string in an array of bytes. *)
Definition cstring (bs : list Z) : list Z := cstr (length bs) (ptr_of bs).

(** [st1] and [st2] are uninitialised before wait() stores them: [u1], [u2]. *)
Definition echo_cat (u1 u2 : Z) : U unit :=
  let* aa := call Pipe in
  match aa with
  | None => fprintf 2 (strn "grind: pipe failed") [] ;* exit 1
  | Some (a0, a1) =>
    let* bb := call Pipe in
    match bb with
    | None => fprintf 2 (strn "grind: pipe failed") [] ;* exit 1
    | Some (b0, b1) =>
      let* pid1 := call Fork in
      if pid1 =? 0 then run_echo a0 a1 b0 b1
      else if pid1 <? 0 then fprintf 2 (strn "grind: fork failed") [] ;* exit 3 else
      let* pid2 := call Fork in
      if pid2 =? 0 then run_cat a0 a1 b0 b1
      else if pid2 <? 0 then fprintf 2 (strn "grind: fork failed") [] ;* exit 7 else
      call (Close a0) ;* call (Close a1) ;* call (Close b1) ;*
      let* c0 := read1 b0 0 in
      let* c1 := read1 b0 0 in
      let* c2 := read1 b0 0 in
      call (Close b0) ;*
      let buf := [c0; c1; c2; 0] in
      let* st1 := wait_into u1 in
      let* st2 := wait_into u2 in
      if negb (st1 =? 0) || negb (st2 =? 0) || negb (strcmp (cstring buf) (str "hi" ++ [10]) =? 0) then
        printf (str "grind: exec pipeline failed %d %d " ++ [34] ++ str "%s" ++ [34; 10])
          [A_int st1; A_int st2; A_str (Some (cstring buf))] ;*
        exit 1
      else Ret tt
    end
  end.

(** One of the 23 things to do, and the new [fd] and [buf]. *)
Definition act (what break0 u1 u2 : Z) (fd : Z) (buf : list Z) : U (Z * list Z) :=
  let keep (t : U unit) : U (Z * list Z) := t ;* Ret (fd, buf) in
  match what with
  | 1 => keep (close_open (str "grindir/../a"))
  | 2 => keep (close_open (str "grindir/../grindir/../b"))
  | 3 => keep (call (Unlink (str "grindir/../a")) ;* Ret tt)
  | 4 => keep (let* r := call (Chdir (str "grindir")) in
               if negb (r =? 0) then failed "grind: chdir grindir failed" else
               call (Unlink (str "../b")) ;*
               call (Chdir (str "/")) ;* Ret tt)
  | 5 => call (Close fd) ;*
         let* fd := call (Open (str "/grindir/../a") (Z.lor O_CREATE O_RDWR)) in Ret (fd, buf)
  | 6 => call (Close fd) ;*
         let* fd := call (Open (str "/./grindir/./../b") (Z.lor O_CREATE O_RDWR)) in Ret (fd, buf)
  | 7 => keep (call (Write fd buf) ;* Ret tt)
  | 8 => let* r := call (Read fd 999) in
         Ret (fd, match r with Some bs => bs ++ drop (length bs) buf | None => buf end)
  | 9 => keep (call (Mkdir (str "grindir/../a")) ;*
               close_open (str "a/../a/./a") ;*
               call (Unlink (str "a/a")) ;* Ret tt)
  | 10 => keep (call (Mkdir (str "/../b")) ;*
                close_open (str "grindir/../b/b") ;*
                call (Unlink (str "b/b")) ;* Ret tt)
  | 11 => keep (call (Unlink (str "b")) ;*
                call (Link (str "../grindir/./../a") (str "../b")) ;* Ret tt)
  | 12 => keep (call (Unlink (str "../grindir/../a")) ;*
                call (Link (str ".././b") (str "/grindir/../a")) ;* Ret tt)
  | 13 => keep (forked (Ret tt) (fun _ => wait0))
  | 14 => keep (forked (call Fork ;* call Fork ;* Ret tt) (fun _ => wait0))
  | 15 => keep (call (Sbrk 6011) ;* Ret tt)
  | 16 => keep (let* b := call (Sbrk 0) in
                if break0 <? b then
                  let* b := call (Sbrk 0) in
                  call (Sbrk (i32 (- (b - break0)))) ;* Ret tt
                else Ret tt)
  | 17 => keep (forked (close_open (str "a")) (fun pid =>
                let* r := call (Chdir (str "../grindir/..")) in
                if negb (r =? 0) then failed "grind: chdir failed" else
                call (Kill pid) ;* wait0))
  | 18 => keep (forked (let* me := call Getpid in call (Kill me) ;* Ret tt) (fun _ => wait0))
  | 19 => keep (let* p := call Pipe in
                match p with
                | None => failed "grind: pipe failed"
                | Some (p0, p1) =>
                  forked (pipe_child p0 p1) (fun _ => call (Close p0) ;* call (Close p1) ;* wait0)
                end)
  | 20 => keep (forked (call (Unlink (str "a")) ;*
                        call (Mkdir (str "a")) ;*
                        call (Chdir (str "a")) ;*
                        call (Unlink (str "../a")) ;*
                        call (Open (str "x") (Z.lor O_CREATE O_RDWR)) ;*
                        call (Unlink (str "x")) ;* Ret tt) (fun _ => wait0))
  | 21 => keep create_c
  | 22 => keep (echo_cat u1 u2)
  | _ => Ret (fd, buf)
  end.

(** A round of the loop of go(). *)
Definition step (which_child break0 u1 u2 : Z) (v : vars) : U (vars + unit) :=
  let iters := u64 (v_iters v + 1) in
  (if iters `mod` 500 =? 0 then
     call (Write 1 (if which_child =? 0 then str "A" else str "B")) ;* Ret tt
   else Ret tt) ;*
  let r := do_rand (v_rand v) in
  let* fb := act (r `mod` 23) break0 u1 u2 (v_fd v) (v_buf v) in
  Ret (inl (mk_vars (fst fb) (snd fb) iters r)).

Definition go (which_child rand_next u1 u2 : Z) : U unit :=
  let* break0 := call (Sbrk 0) in
  call (Mkdir (str "grindir")) ;*
  let* r := call (Chdir (str "grindir")) in
  if negb (r =? 0) then failed "grind: chdir grindir failed" else
  call (Chdir (str "/")) ;*
  ITree.iter (step which_child break0 u1 u2) (mk_vars (-1) (replicate 999 0) 0 rand_next).

Definition iter (rand_next u1 u2 : Z) : U unit :=
  call (Unlink (str "a")) ;*
  call (Unlink (str "b")) ;*
  let* pid1 := call Fork in
  if pid1 <? 0 then failed "grind: fork failed" else
  if pid1 =? 0 then go 0 (Z.lxor rand_next 31) u1 u2 ;* exit 0 else
  let* pid2 := call Fork in
  if pid2 <? 0 then failed "grind: fork failed" else
  if pid2 =? 0 then go 1 (Z.lxor rand_next 7177) u1 u2 ;* exit 0 else
  let* st1 := wait_into (-1) in
  (if negb (st1 =? 0) then call (Kill pid1) ;* call (Kill pid2) ;* Ret tt else Ret tt) ;*
  wait_into (-1) ;*
  exit 0.

Definition grind_round (u1 u2 rand_next : Z) : U (Z + unit) :=
  let* pid := call Fork in
  (if pid =? 0 then iter rand_next u1 u2 ;* exit 0 else Ret tt) ;*
  (if 0 <? pid then wait0 else Ret tt) ;*
  call (Sleep 20) ;*
  Ret (inl (u64 (rand_next + 1))).
Definition main (u1 u2 : Z) : U unit := ITree.iter (grind_round u1 u2) 1.

(** ** The generator is multiplication modulo a prime

    do_rand() computes the next number of the generator of Park and Miller,
    [7^5 * x mod (2^31 - 1)], with intermediate results below [2^31], and its
    result is in the range it promises: the generator never reaches 0. *)
Definition park_miller (x : Z) : Z := (7 ^ 5 * x) `mod` (2 ^ 31 - 1).

Theorem do_rand_correct ctx :
  0 <= ctx ->
  let x := ctx `mod` 0x7ffffffe + 1 in
  do_rand ctx = park_miller x - 1 /\ 0 <= do_rand ctx <= 0x7ffffffd /\
  - 2 ^ 31 < 16807 * (x `mod` 127773) - 2836 * (x / 127773) < 2 ^ 31.
Proof.
  intros Hc x. assert (1 <= x <= 0x7ffffffe) as Hx by (unfold x; pose proof (Z.mod_pos_bound ctx 0x7ffffffe ltac:(done)); lia).
  pose proof (Z.div_mod x 127773 ltac:(done)) as Hdm. pose proof (Z.mod_pos_bound x 127773 ltac:(done)) as Hlo.
  set (hi := x / 127773) in *. set (lo := x `mod` 127773) in *.
  assert (0 <= hi <= 16807) as Hhi by lia.
  assert (16807 * x = 2147483647 * hi + (16807 * lo - 2836 * hi)) as Heq by lia.
  assert ((16807 * x) `mod` 2147483647 <> 0) as Hnz.
  { intros E. apply Z.mod_divide in E; [|done]. apply Z.gauss in E; [|done].
    apply Z.divide_pos_le in E; lia. }
  assert (park_miller x = if 16807 * lo - 2836 * hi <? 0 then 16807 * lo - 2836 * hi + 2147483647 else 16807 * lo - 2836 * hi) as Ep.
  { unfold park_miller. change (7 ^ 5) with 16807. change (2 ^ 31 - 1) with 2147483647. 
    replace (16807 * x) with (16807 * lo - 2836 * hi + hi * 2147483647) by lia. rewrite Z.mod_add by done. destruct (Z.ltb_spec (16807 * lo - 2836 * hi) 0).
    - symmetry. apply (Z.mod_unique _ _ (-1)); lia.
    - apply Z.mod_small. lia. }
  pose proof (Z.mod_pos_bound (16807 * x) 2147483647 ltac:(done)) as Hb.
  assert (do_rand ctx = park_miller x - 1) as Ed by (rewrite Ep; reflexivity).
  split_and!; [done|..|lia|lia]; rewrite Ed; unfold park_miller; change (7 ^ 5) with 16807; change (2 ^ 31 - 1) with 2147483647; lia.
Qed.

Lemma do_rand_correct_witness : do_rand 1 = park_miller 2 - 1.
Proof. apply (do_rand_correct 1). lia. Defined.
