(* ===== verification/ShRun.v ===== *)
(** * Running commands (user/sh.c: runcmd, getcmd, main).

    A command is what Sh.v's parser returns, with the words of the line as C
    strings.  [tree] runs a program together with all the processes it forks
    against the kernel's contract for descriptors: fork() copies the table,
    open(), dup() and pipe() take the lowest free descriptors.  The theorem
    says which programs a command starts and what their descriptors are. *)

From ITree Require Import ITree.
From S2P Require Import Prelude Defs Mem Uart Sh Usys Ulib.
Local Open Scope user_scope.

(** ** Code *)

Definition panic {A} (s : list Z) : U A := fprintf 2 (strn "%s") [A_str (Some s)] ;* exit 1.

Definition fork1 : U Z :=
  let* pid := call Fork in
  if pid =? -1 then panic (str "fork") else Ret pid.

Section Run.
Context (buf : list Z).  (* the line, its words terminated *)

(** The string at the start of a word. *)
Definition arg (w : word) : list Z := cstr (length buf) (ptr_of (drop (fst w) buf)).

Fixpoint runcmd (c : cmd) : U unit :=
  match c with
  | EXEC argv =>
    match argv with
    | [] => exit 1
    | w :: _ =>
      call (Exec (arg w) (arg <$> argv)) ;*
      fprintf 2 (strn "exec %s failed") [A_str (Some (arg w))] ;*
      exit 0
    end
  | REDIR c file mode fd =>
    call (Close fd) ;*
    let* r := call (Open (arg file) mode) in
    (if r <? 0 then fprintf 2 (strn "open %s failed") [A_str (Some (arg file))] ;* exit 1 else Ret tt) ;*
    runcmd c ;*
    exit 0
  | LIST l r =>
    let* pid := fork1 in
    (if pid =? 0 then runcmd l else Ret tt) ;*
    call Wait ;*
    runcmd r ;*
    exit 0
  | PIPE l r =>
    let* p := call Pipe in
    match p with
    | None => panic (str "pipe")
    | Some (p0, p1) =>
      let* pid := fork1 in
      (if pid =? 0 then
         call (Close 1) ;* call (Dup p1) ;* call (Close p0) ;* call (Close p1) ;* runcmd l
       else Ret tt) ;*
      let* pid := fork1 in
      (if pid =? 0 then
         call (Close 0) ;* call (Dup p0) ;* call (Close p0) ;* call (Close p1) ;* runcmd r
       else Ret tt) ;*
      call (Close p0) ;*
      call (Close p1) ;*
      call Wait ;*
      call Wait ;*
      exit 0
    end
  | BACK c =>
    let* pid := fork1 in
    (if pid =? 0 then runcmd c else Ret tt) ;*
    exit 0
  end.
End Run.

(** The line read, or [None] at the end of the input.  The buffer is cleared
    before each line, so the line is what fgets() stores. *)
Definition getcmd_buf : Z := 4096.
Definition getcmd (nbuf fd : Z) : U (option (list Z)) :=
  (if fd =? 0 then call (Write 2 (str "$ ")) ;* Ret tt else Ret tt) ;*
  let* r := fgets fd getcmd_buf nbuf ∅ in
  let line := load_bytes (snd r : gmap Z Z) getcmd_buf (Z.to_nat nbuf) in
  if default 0 (line !! 0%nat) =? 0 then Ret None else Ret (Some (cstr (Z.to_nat nbuf) (ptr_of line))).

Definition is_cd (line : list Z) : bool :=
  (default 0 (line !! 0%nat) =? 99) && (default 0 (line !! 1%nat) =? 100) && (default 0 (line !! 2%nat) =? 32).

(** parsecmd() of the line and runcmd(), in the child. *)
Definition run_line (line : list Z) : U unit :=
  match parsecmd line (4 * length line + 4) with
  | Ok (c, buf) => runcmd buf c
  | Fail msg => panic (str msg)
  | NoFuel => ITree.spin
  end.

Definition main_body (fd : Z) (_ : unit) : U (unit + unit) :=
  let* r := getcmd 100 fd in
  match r with
  | None => Ret (inr tt)
  | Some line =>
    if default 0 (line !! 0%nat) =? 35 then Ret (inl tt)
    else if is_cd line then
      let dir := drop 3 (take (length line - 1) line) in
      let* r := call (Chdir dir) in
      (if r <? 0 then fprintf 2 (strn "cannot cd %s") [A_str (Some dir)] else Ret tt) ;*
      Ret (inl tt)
    else
      let* pid := fork1 in
      (if pid =? 0 then run_line line else Ret tt) ;*
      call Wait ;*
      Ret (inl tt)
  end.

(** Descriptors 0, 1 and 2 are open afterwards. *)
Definition open_console (_ : unit) : U (unit + unit) :=
  let* fd := call (Open (str "console") O_RDWR) in
  if fd <? 0 then Ret (inr tt)
  else if 3 <=? fd then call (Close fd) ;* Ret (inr tt)
  else Ret (inl tt).

Definition main (argv : list (list Z)) : U unit :=
  ITree.iter open_console tt ;*
  let* fd := match argv with _ :: script :: _ => call (Open script O_RDONLY) | _ => Ret 0 end in
  ITree.iter (main_body fd) tt ;*
  exit 0.

(** ** The kernel's contract for descriptors *)

(** What a descriptor refers to: what the shell was started with, a file it
    opened, an end of the [n]th pipe. *)
Inductive obj :=
  | Given (n : Z)
  | File (path : list Z) (mode : Z)
  | PipeR (n : nat)
  | PipeW (n : nat).

Record fdst := mk_fdst { fds : gmap Z obj; pipes : nat }.

(** fdalloc() of sysfile.c. *)
Definition least_free (m : gmap Z obj) : option Z :=
  head (filter (fun fd => m !! fd = None) (Z.of_nat <$> seq 0 NOFILE)).

Definition fdsys X (e : sysE X) (s : fdst) : option (X * fdst) :=
  match e in sysE X return option (X * fdst) with
  | Fork | Exit _ | Exec _ _ => None
  | Close fd =>
    match fds s !! fd with
    | None => Some (-1, s)
    | Some _ => Some (0, mk_fdst (delete fd (fds s)) (pipes s))
    end
  | Open path mode =>
    match least_free (fds s) with
    | None => Some (-1, s)
    | Some fd => Some (fd, mk_fdst (<[fd := File path mode]> (fds s)) (pipes s))
    end
  | Dup fd =>
    match fds s !! fd, least_free (fds s) with
    | Some o, Some fd' => Some (fd', mk_fdst (<[fd' := o]> (fds s)) (pipes s))
    | _, _ => Some (-1, s)
    end
  | Pipe =>
    match least_free (fds s) with
    | None => Some (None, s)
    | Some a =>
      let m := <[a := PipeR (pipes s)]> (fds s) in
      match least_free m with
      | None => Some (None, s)
      | Some b => Some (Some (a, b), mk_fdst (<[b := PipeW (pipes s)]> m) (S (pipes s)))
      end
    end
  | Write _ bs => Some (Z.of_nat (length bs), s)
  | Read _ _ => Some (Some [], s)
  | Fstat _ => Some (None, s)
  | Wait_status => Some (None, s)
  | Store _ _ => Some (tt, s)
  | _ => Some (0, s)
  end.

(** A process at its end: its descriptors and how it ended. *)
Record leaf := mk_leaf { lf_fds : gmap Z obj; lf_end : ending }.

(** All the processes that come of [t], a child before its parent; the number
    of pipes is global.  [None] when [n] steps are not enough, or a process
    returns without ending. *)
Fixpoint tree (n : nat) (t : U unit) (s : fdst) : option (list leaf * nat) :=
  match n with
  | O => None
  | S n =>
    match observe t with
    | RetF _ => None
    | TauF t => tree n t s
    | VisF e k =>
      match e in sysE X return (X -> U unit) -> option (list leaf * nat) with
      | Exit st => fun _ => Some ([mk_leaf (fds s) (Exited st)], pipes s)
      | Exec path argv => fun _ => Some ([mk_leaf (fds s) (Replaced path argv)], pipes s)
      | Fork => fun k =>
        match tree n (k 0) s with
        | Some (l1, np) =>
          match tree n (k 1) (mk_fdst (fds s) np) with
          | Some (l2, np) => Some (l1 ++ l2, np)
          | None => None
          end
        | None => None
        end
      | e => fun k => match fdsys _ e s with Some (x, s) => tree n (k x) s | None => None end
      end k
    end
  end.

(** ** Rules *)

Definition grows (t : U unit) (s : fdst) (r : list leaf * nat) : Prop := exists n, tree n t s = Some r.

Lemma tree_more n m t s r : (n <= m)%nat -> tree n t s = Some r -> tree m t s = Some r.
Proof.
  revert m t s r. induction n as [|n IH]; intros m t s r Hm; [done|]. destruct m as [|m]; [lia|]. cbn [tree].
  destruct (observe t) as [a|t'|X e k]; [done|apply IH; lia|].
  destruct e; try done; try (destruct (fdsys _ _ s) as [[x s']|]; [apply IH; lia|done]).
  destruct (tree n (k 0) s) as [[l1 np]|] eqn:E1; [|done]. rewrite (IH m _ _ _ ltac:(lia) E1).
  destruct (tree n (k 1) _) as [[l2 np2]|] eqn:E2; [|done]. by rewrite (IH m _ _ _ ltac:(lia) E2).
Qed.

Lemma grows_observe t u s r : observe t = observe u -> grows u s r -> grows t s r.
Proof. intros E [[|n] Hn]; [done|]. exists (S n). cbn [tree] in *. by rewrite E. Qed.

Lemma grows_vis {X} (e : sysE X) (k : X -> U unit) t s x s' r :
  observe t = VisF e k -> fdsys X e s = Some (x, s') -> grows (k x) s' r -> grows t s r.
Proof.
  intros Eo E [n Hn]. exists (S n). cbn [tree]. rewrite Eo. destruct e; try done; by rewrite E.
Qed.
Lemma grows_fork (k : Z -> U unit) t s l1 np1 l2 np2 :
  observe t = VisF Fork k -> grows (k 0) s (l1, np1) -> grows (k 1) (mk_fdst (fds s) np1) (l2, np2) ->
  grows t s (l1 ++ l2, np2).
Proof.
  intros Eo [n Hn] [m Hm]. exists (S (n + m)). cbn [tree]. rewrite Eo.
  by rewrite (tree_more n (n + m) _ _ _ ltac:(lia) Hn), (tree_more m (n + m) _ _ _ ltac:(lia) Hm).
Qed.

(** What follows a program that never returns is never run. *)
Lemma grows_bind t (k : unit -> U unit) s r : grows t s r -> grows (ITree.bind t k) s r.
Proof.
  intros [n Hn]. exists n. revert t s r Hn. induction n as [|n IH]; intros t s r; [done|]. cbn [tree].
  rewrite observe_bind. destruct (observe t) as [a|t'|X e h]; [done|apply IH|].
  destruct e; try done; try (destruct (fdsys _ _ s) as [[x s']|]; [apply IH|done]).
  destruct (tree n (h 0) s) as [[l1 np]|] eqn:E1; [|done]. rewrite (IH _ _ _ E1).
  destruct (tree n (h 1) _) as [[l2 np2]|] eqn:E2; [|done]. by rewrite (IH _ _ _ E2).
Qed.

Lemma grows_call {X} (e : sysE X) (k : X -> U unit) s x s' r :
  fdsys X e s = Some (x, s') -> grows (k x) s' r -> grows (ITree.bind (call e) k) s r.
Proof.
  intros E Hk. eapply (grows_vis e (fun x => ITree.bind (Ret x) k)); [reflexivity|exact E|].
  by apply (grows_observe _ (k x)).
Qed.
Lemma grows_exit st s : grows (exit st) s ([mk_leaf (fds s) (Exited st)], pipes s).
Proof. by exists 1%nat. Qed.
Lemma grows_exec path argv (k : Z -> U unit) s :
  grows (ITree.bind (call (Exec path argv)) k) s ([mk_leaf (fds s) (Replaced path argv)], pipes s).
Proof. by exists 1%nat. Qed.
Lemma grows_ret (k : unit -> U unit) s r : grows (k tt) s r -> grows (ITree.bind (Ret tt) k) s r.
Proof. by apply grows_observe. Qed.

(** fork1() with the child's and the parent's continuation. *)
Lemma grows_fork1 (k : Z -> U unit) s l1 np1 l2 np2 :
  grows (k 0) s (l1, np1) -> grows (k 1) (mk_fdst (fds s) np1) (l2, np2) ->
  grows (ITree.bind fork1 k) s (l1 ++ l2, np2).
Proof.
  intros H0 H1. eapply (grows_fork (fun x => ITree.bind (ITree.bind (Ret x)
    (fun pid => if pid =? -1 then panic (str "fork") else Ret pid)) k)); [reflexivity|..].
  - by apply (grows_observe _ (k 0)).
  - by apply (grows_observe _ (k 1)).
Qed.

(** ** What a command starts *)

Section Launch.
Context (buf : list Z).

(** The processes a command starts, with their descriptors, when the shell's
    are [m] and [np] pipes exist. *)
Fixpoint launch (c : cmd) (m : gmap Z obj) (np : nat) : list leaf * nat :=
  match c with
  | EXEC argv =>
    ([mk_leaf m (match argv with [] => Exited 1 | w :: _ => Replaced (arg buf w) (arg buf <$> argv) end)], np)
  | REDIR c file mode fd => launch c (<[fd := File (arg buf file) mode]> m) np
  | LIST l r => let (a, np) := launch l m np in let (b, np) := launch r m np in (a ++ b, np)
  | PIPE l r =>
    let (a, np') := launch l (<[1 := PipeW np]> m) (S np) in
    let (b, np') := launch r (<[0 := PipeR np]> m) np' in
    (a ++ b ++ [mk_leaf m (Exited 0)], np')
  | BACK c => let (a, np) := launch c m np in (a ++ [mk_leaf m (Exited 0)], np)
  end.

(** Redirections are of standard input and output. *)
Fixpoint std_redirs (c : cmd) : Prop :=
  match c with
  | EXEC _ => True
  | REDIR c _ _ fd => (fd = 0 \/ fd = 1) /\ std_redirs c
  | PIPE l r | LIST l r => std_redirs l /\ std_redirs r
  | BACK c => std_redirs c
  end.

(** Standard input and output are open, and two descriptors are free. *)
Record ready (m : gmap Z obj) : Prop := mk_ready {
  rdy_in : is_Some (m !! 0);
  rdy_out : is_Some (m !! 1);
  rdy_room : exists a b, a <> b /\ least_free m = Some a /\ forall o, least_free (<[a := o]> m) = Some b
}.

Lemma least_free_dom m m' : (forall fd, m !! fd = None <-> m' !! fd = None) -> least_free m = least_free m'.
Proof. intros E. unfold least_free. f_equal. by apply list_filter_iff. Qed.

Lemma least_free_none m a : least_free m = Some a -> m !! a = None.
Proof.
  unfold least_free. intros E. destruct (filter _ _) as [|x l] eqn:Ef; [done|]. injection E as ->.
  assert (a ∈ filter (fun fd => m !! fd = None) (Z.of_nat <$> seq 0 NOFILE)) as Hin by (rewrite Ef; by left).
  by apply list_elem_of_filter in Hin as [? _].
Qed.
Lemma least_free_0 m : m !! 0 = None -> least_free m = Some 0.
Proof. intros E. unfold least_free. cbn [seq NOFILE fmap list_fmap]. by rewrite filter_cons_True. Qed.
Lemma least_free_1 m : is_Some (m !! 0) -> m !! 1 = None -> least_free m = Some 1.
Proof.
  intros [o E0] E1. unfold least_free. cbn [seq NOFILE fmap list_fmap].
  rewrite filter_cons_False by (change (Z.of_nat 0) with 0; by rewrite E0). by rewrite filter_cons_True.
Qed.

Lemma ready_insert m fd o : ready m -> fd = 0 \/ fd = 1 -> ready (<[fd := o]> m).
Proof.
  intros [H0 H1 (a & b & Hab & Ha & Hb)] Hfd.
  assert (is_Some (m !! fd)) as [o0 Ho] by (by destruct Hfd as [->| ->]).
  assert (forall k, <[fd := o]> m !! k = None <-> m !! k = None) as Hdom.
  { intros k. rewrite lookup_insert. case_decide; subst; [|done]. by rewrite Ho. }
  split; [rewrite lookup_insert; case_decide; [by eexists|done]..|]. exists a, b. split_and!; [done| |].
  - by rewrite (least_free_dom _ _ Hdom).
  - intros o'. rewrite <- (Hb o'). apply least_free_dom. intros k. rewrite !lookup_insert. case_decide; [done|].
    rewrite <- Hdom, lookup_insert. done.
Qed.

(** close() and open() or dup(): the descriptor is replaced. *)
Lemma reopen m fd : is_Some (m !! 0) -> fd = 0 \/ fd = 1 -> least_free (delete fd m) = Some fd.
Proof.
  intros H0 [->| ->]; [apply least_free_0, lookup_delete_eq|]. apply least_free_1; [|apply lookup_delete_eq].
  by rewrite lookup_delete_ne.
Qed.

Lemma fdsys_close s fd : is_Some (fds s !! fd) -> fdsys Z (Close fd) s = Some (0, mk_fdst (delete fd (fds s)) (pipes s)).
Proof. intros [o E]. cbn. by rewrite E. Qed.
Lemma fdsys_open s path mode fd :
  least_free (fds s) = Some fd ->
  fdsys Z (Open path mode) s = Some (fd, mk_fdst (<[fd := File path mode]> (fds s)) (pipes s)).
Proof. intros E. cbn. by rewrite E. Qed.
Lemma fdsys_dup s p o fd :
  fds s !! p = Some o -> least_free (fds s) = Some fd ->
  fdsys Z (Dup p) s = Some (fd, mk_fdst (<[fd := o]> (fds s)) (pipes s)).
Proof. intros E1 E2. cbn. by rewrite E1, E2. Qed.

(** The table while a pipe is open at [a] and [b]. *)
Definition piped (m : gmap Z obj) (a b : Z) (n : nat) : gmap Z obj := <[b := PipeW n]> (<[a := PipeR n]> m).

Section Piped.
Context (m : gmap Z obj) (a b : Z) (n : nat).
Hypothesis m_ready : ready m.
Hypothesis free_a : m !! a = None.
Hypothesis free_b : m !! b = None.
Hypothesis a_not_b : a <> b.

Lemma piped_std fd : fd = 0 \/ fd = 1 -> fd <> a /\ fd <> b /\ is_Some (piped m a b n !! fd).
Proof.
  intros Hfd. assert (is_Some (m !! fd)) as Hs by (destruct m_ready; by destruct Hfd as [->| ->]).
  assert (fd <> a /\ fd <> b) as [Ha Hb].
  { split; intros ->; [rewrite free_a in Hs|rewrite free_b in Hs]; by destruct Hs. }
  split_and!; [done|done|]. unfold piped. by rewrite !lookup_insert_ne.
Qed.

Lemma pipe_closed o fd : fd = 0 \/ fd = 1 ->
  delete b (delete a (<[fd := o]> (delete fd (piped m a b n)))) = <[fd := o]> m.
Proof.
  intros Hfd. destruct (piped_std fd Hfd) as (Ha & Hb & _). apply map_eq. intros k. unfold piped.
  repeat rewrite ?lookup_delete, ?lookup_insert. repeat case_decide; subst; try done; congruence.
Qed.

(** The child that gets the end [p] as its descriptor [fd]. *)
Lemma pipe_child fd p o (k : U unit) np r :
  fd = 0 \/ fd = 1 -> p = a \/ p = b -> piped m a b n !! p = Some o ->
  grows k (mk_fdst (<[fd := o]> m) np) r ->
  grows (call (Close fd) ;* call (Dup p) ;* call (Close a) ;* call (Close b) ;* k) (mk_fdst (piped m a b n) np) r.
Proof.
  intros Hfd Hp Ho Hk. destruct (piped_std fd Hfd) as (Ha & Hb & Hs).
  eapply grows_call; [by apply fdsys_close|]. cbn [fds pipes].
  eapply grows_call; [apply (fdsys_dup _ _ o fd); cbn [fds]|].
  { rewrite lookup_delete_ne; [done|]. destruct Hp as [->| ->]; done. }
  { apply reopen; [|done]. destruct (piped_std 0 (or_introl eq_refl)) as (_ & _ & ?). done. }
  cbn [fds pipes]. eapply grows_call; [apply fdsys_close; cbn [fds]|].
  { unfold piped. rewrite lookup_insert_ne, lookup_delete_ne, lookup_insert_ne, lookup_insert_eq by done. by eexists. }
  cbn [fds pipes]. eapply grows_call; [apply fdsys_close; cbn [fds]|].
  { unfold piped. rewrite lookup_delete_ne, lookup_insert_ne, lookup_delete_ne, lookup_insert_eq by done. by eexists. }
  cbn [fds pipes]. by rewrite pipe_closed.
Qed.

(** The parent, which closes both ends. *)
Lemma pipe_parent (k : U unit) np r :
  grows k (mk_fdst m np) r ->
  grows (call (Close a) ;* call (Close b) ;* k) (mk_fdst (piped m a b n) np) r.
Proof.
  intros Hk. eapply grows_call; [apply fdsys_close; cbn [fds]|].
  { unfold piped. rewrite lookup_insert_ne, lookup_insert_eq by done. by eexists. }
  eapply grows_call; [apply fdsys_close; cbn [fds]|].
  { unfold piped. rewrite lookup_delete_ne, lookup_insert_eq by done. by eexists. }
  cbn [fds pipes]. assert (delete b (delete a (piped m a b n)) = m) as ->; [|done].
  apply map_eq. intros k'. unfold piped. repeat rewrite ?lookup_delete, ?lookup_insert.
  repeat case_decide; subst; try done; congruence.
Qed.
End Piped.

Lemma runcmd_grows c m np : std_redirs c -> ready m -> grows (runcmd buf c) (mk_fdst m np) (launch c m np).
Proof.
  revert m np. induction c as [argv|c IH f mode fd|l IHl r IHr|l IHl r IHr|c IH]; intros m np Hstd Hm; cbn [runcmd launch].
  - destruct argv as [|w argv]; [apply grows_exit|apply grows_exec].
  - destruct Hstd as [Hfd Hstd]. eapply grows_call; [apply fdsys_close; cbn [fds]|].
    { destruct Hm. by destruct Hfd as [->| ->]. }
    cbn [fds pipes]. eapply grows_call; [apply (fdsys_open _ _ _ fd), reopen; [apply Hm|done]|].
    cbn [fds pipes]. rewrite (proj2 (Z.ltb_ge _ _)) by (destruct Hfd; lia).
    apply grows_ret, grows_bind. rewrite insert_delete_eq. apply IH; [done|by apply ready_insert].
  - destruct Hstd as [Hl Hr]. destruct (rdy_room _ Hm) as (a & b & Hab & Ha & Hb).
    assert (m !! a = None) as Hfa by (by apply least_free_none).
    assert (m !! b = None) as Hfb.
    { specialize (Hb (PipeR np)). apply least_free_none in Hb. by rewrite lookup_insert_ne in Hb. }
    eapply grows_call; [cbn; by rewrite Ha, (Hb (PipeR np))|]. cbn beta iota. fold (piped m a b np).
    destruct (launch l _ _) as [l1 np1] eqn:E1. destruct (launch r _ _) as [l2 np2] eqn:E2.
    eapply grows_fork1; cbn [Z.eqb].
    + apply grows_bind, (pipe_child m a b np Hm Hfa Hfb Hab 1 b (PipeW np)); [by right|by right|apply lookup_insert_eq|].
      rewrite <- E1. apply IHl; [done|apply ready_insert; auto].
    + apply grows_ret. cbn [fds]. eapply grows_fork1; cbn [Z.eqb].
      * apply grows_bind, (pipe_child m a b np Hm Hfa Hfb Hab 0 a (PipeR np)); [by left|by left| |].
        { unfold piped. by rewrite lookup_insert_ne, lookup_insert_eq. }
        rewrite <- E2. apply IHr; [done|apply ready_insert; auto].
      * apply grows_ret. cbn [fds]. apply pipe_parent; [done..|].
        eapply grows_call; [reflexivity|]. eapply grows_call; [reflexivity|]. apply grows_exit.
  - destruct Hstd as [Hl Hr]. destruct (launch l m np) as [l1 np1] eqn:E1. destruct (launch r m np1) as [l2 np2] eqn:E2.
    apply (grows_fork1 _ _ l1 np1 l2 np2); cbn [Z.eqb fds].
    + apply grows_bind. rewrite <- E1. by apply IHl.
    + apply grows_ret. eapply grows_call; [reflexivity|]. apply grows_bind. rewrite <- E2. by apply IHr.
  - destruct (launch c m np) as [l1 np1] eqn:E1. apply (grows_fork1 _ _ l1 np1 _ np1); cbn [Z.eqb fds].
    + apply grows_bind. rewrite <- E1. by apply IH.
    + apply grows_ret, grows_exit.
Qed.
End Launch.

(** ** The parser's redirections *)

Section Parsed.
Context (line : list Z).

Definition redirs_std (rs : list redir) : Prop := Forall (fun r => snd r = 0 \/ snd r = 1) rs.

Lemma wrap_std c rs : std_redirs c -> redirs_std rs -> std_redirs (wrap c rs).
Proof. intros Hc Hr. revert c Hc. induction Hr as [|[[f m] fd] rs Hf _ IH]; intros c Hc; [done|]. by apply IH. Qed.

Lemma rbind_ok {A B} (r : res A) (f : A -> res B) b : rbind r f = Ok b -> exists a, r = Ok a /\ f a = Ok b.
Proof. destruct r; cbn; [eauto|done..]. Qed.

Lemma parseredirs_std n rs s rs' s' : parseredirs line n rs s = Ok (rs', s') -> redirs_std rs -> redirs_std rs'.
Proof.
  revert rs s. induction n as [|n IH]; intros rs s; [done|]. cbn [parseredirs].
  destruct (peek line s (str "<>")) as [[] s1]; [|by intros [= <- _]].
  destruct (gettoken line s1) as [[tok w] s2]. destruct (gettoken line s2) as [[tok' f] s3].
  destruct (negb _); [done|]. intros E Hr. eapply IH; [exact E|].
  repeat case_match; try done; apply Forall_app; (split; [done|]); apply Forall_singleton; cbn; auto.
Qed.

Lemma parseargs_std n argv rs s argv' rs' s' :
  parseargs line n argv rs s = Ok (argv', rs', s') -> redirs_std rs -> redirs_std rs'.
Proof.
  revert argv rs s. induction n as [|n IH]; intros argv rs s; [done|]. cbn [parseargs].
  destruct (peek line s (str "|)&;")) as [[] s1]; [by intros [= _ <- _]|].
  destruct (gettoken line s1) as [[tok w] s2]. destruct (tok =? 0); [by intros [= _ <- _]|].
  destruct (negb _); [done|]. destruct (_ <=? _)%nat; [done|].
  intros ([rs1 s3] & E1 & E2)%rbind_ok Hr. eapply IH; [exact E2|]. by eapply parseredirs_std.
Qed.

Lemma parseback_std n c s c' s' : parseback line n c s = Ok (c', s') -> std_redirs c -> std_redirs c'.
Proof.
  revert c s. induction n as [|n IH]; intros c s; [done|]. cbn [parseback].
  destruct (peek line s (str "&")) as [[] s1]; [|by intros [= <- _]].
  destruct (gettoken line s1) as [[tok w] s2]. intros E Hc. by eapply IH.
Qed.

Lemma parse_std n :
  (forall s c s', parseline line n s = Ok (c, s') -> std_redirs c) /\
  (forall s c s', parsepipe line n s = Ok (c, s') -> std_redirs c) /\
  (forall s c s', parseexec line n s = Ok (c, s') -> std_redirs c) /\
  (forall s c s', parseblock line n s = Ok (c, s') -> std_redirs c).
Proof.
  induction n as [|n (IHl & IHp & IHe & IHb)]; [split_and!; done|]. split_and!; intros s c s'.
  - cbn [parseline]. intros ([c1 s1] & E1 & ([c2 s2] & E2 & E)%rbind_ok)%rbind_ok.
    assert (std_redirs c2) as Hc2 by (eapply parseback_std; [exact E2|by eapply IHp]).
    destruct (peek line s2 (str ";")) as [[] s3]; [|by injection E as <- _].
    destruct (gettoken line s3) as [[tok w] s4]. apply rbind_ok in E as ([c5 s5] & E5 & E). injection E as <- _.
    cbn. split; [done|by eapply IHl].
  - cbn [parsepipe]. intros ([c1 s1] & E1 & E)%rbind_ok.
    destruct (peek line s1 (str "|")) as [[] s3]; [|injection E as <- _; by eapply IHe].
    destruct (gettoken line s3) as [[tok w] s4]. apply rbind_ok in E as ([c5 s5] & E5 & E). injection E as <- _.
    cbn. split; [by eapply IHe|by eapply IHp].
  - cbn [parseexec]. destruct (peek line s (str "(")) as [[] s1]; [apply IHb|].
    intros ([rs s2] & E1 & ([[argv rs'] s3] & E2 & E)%rbind_ok)%rbind_ok. injection E as <- _.
    apply wrap_std; [done|]. eapply parseargs_std; [exact E2|]. eapply parseredirs_std; [exact E1|constructor].
  - cbn [parseblock]. destruct (peek line s (str "(")) as [[] s1]; cbn [negb]; [|done].
    destruct (gettoken line s1) as [[tok w] s2]. intros ([c1 s3] & E1 & E)%rbind_ok.
    destruct (peek line s3 (str ")")) as [[] s4]; cbn [negb] in E; [|done].
    destruct (gettoken line s4) as [[tok' w'] s5]. apply rbind_ok in E as ([rs s6] & E6 & E). injection E as <- _.
    apply wrap_std; [by eapply IHl|]. eapply parseredirs_std; [exact E6|constructor].
Qed.
End Parsed.


Definition console_fds : gmap Z obj := {[0 := Given 0; 1 := Given 1; 2 := Given 2]}.

