(* ===== verification/Utests.v ===== *)
(** * The system call tests (user/usertests.c): pointers, files and directories.

    Every test is a program; the driver (UtestsMain.v) runs each in a process
    of its own and calls it failed when it exits with a status other than 0.
    The global [buf] is not written before the tests are forked, so it is zero
    when a test starts.  [junk] is what a variable holds that has not been
    initialised. *)

From ITree Require Import ITree.
From S2P Require Import Prelude Defs Mem Trap Uart Usys Ulib.
Local Open Scope user_scope.

(** ** Idioms *)

(** [if(bad){ printf(...); exit(1); }] *)
Definition fail_if (bad : bool) (fmt : list Z) (ap : list varg) : U unit :=
  if bad then printf fmt ap ;* exit 1 else Ret tt.
Notation A_s s := (A_str (Some s)).

(** The value of read(), and the buffer after it. *)
Definition rlen (r : option (list Z)) : Z := match r with Some bs => Z.of_nat (length bs) | None => -1 end.
Definition into (buf : list Z) (r : option (list Z)) : list Z :=
  match r with Some bs => bs ++ drop (length bs) buf | None => buf end.
(** [buf[i]]; char is unsigned on RISC-V. *)
Definition at_ (buf : list Z) (i : nat) : Z := default 0 (buf !! i).

(** [wait(&st)]: the value and [st]. *)
Definition wait_st (st : Z) : U (Z * Z) :=
  let* r := call Wait_status in Ret (match r with Some (pid, st) => (pid, st) | None => (-1, st) end).

(** [pid = fork(); if(pid < 0){ printf(...); exit(1); } if(pid == 0){ child }] *)
Definition fork_child (fmt : list Z) (ap : list varg) (child : U unit) : U Z :=
  let* pid := call Fork in
  fail_if (pid <? 0) fmt ap ;*
  (if pid =? 0 then child else Ret tt) ;*
  Ret pid.

(** [for(i = 0; i < n; i++)], and a loop without an end. *)
Definition for_ (n : Z) (body : Z -> U unit) : U unit := each (seqZ 0 n) body.
Definition forever (body : U unit) : U unit := ITree.iter (fun _ : unit => body ;* Ret (inl tt)) tt.

(** A call by number. *)
Definition raw (n : sysno) (args : list uarg) : U Z := call (Ecall (sysnum n) args).
(** A string constant as an argument. *)
Definition Rstr (s : list Z) : uarg := Ref (s ++ [0]).

Definition BUFSZ : Z := (MAXOPBLOCKS + 2) * BSIZE.
Definition buf0 : list Z := replicate (Z.to_nat BUFSZ) 0.
(** The address sbrk() returns when it fails. *)
Definition ALLONES : Z := 0xffffffffffffffff.

Section Tests.
Variable junk : Z.

(** ** Ridiculous pointers *)

Definition bad_addrs : list Z := [0x80000000; 0xffffffffffffffff].

Definition copyin (s : list Z) : U unit :=
  each bad_addrs (fun addr =>
    let* fd := call (Open (str "copyin1") (Z.lor O_CREATE O_WRONLY)) in
    fail_if (fd <? 0) (strn "open(copyin1) failed") [] ;*
    let* n := raw SYS_write [Val fd; Val addr; Val 8192] in
    fail_if (0 <=? n) (strn "write(fd, %p, 8192) returned %d, not -1") [A_u64 addr; A_int n] ;*
    call (Close fd) ;*
    call (Unlink (str "copyin1")) ;*
    let* n := raw SYS_write [Val 1; Val addr; Val 8192] in
    fail_if (0 <? n) (strn "write(1, %p, 8192) returned %d, not -1 or 0") [A_u64 addr; A_int n] ;*
    let* fds := call Pipe in
    fail_if (bool_decide (fds = None)) (strn "pipe() failed") [] ;*
    let (fd0, fd1) := default (junk, junk) fds in
    let* n := raw SYS_write [Val fd1; Val addr; Val 8192] in
    fail_if (0 <? n) (strn "write(pipe, %p, 8192) returned %d, not -1 or 0") [A_u64 addr; A_int n] ;*
    call (Close fd0) ;*
    call (Close fd1) ;*
    Ret tt).

Definition copyout (s : list Z) : U unit :=
  each bad_addrs (fun addr =>
    let* fd := call (Open (str "README") 0) in
    fail_if (fd <? 0) (strn "open(README) failed") [] ;*
    let* n := raw SYS_read [Val fd; Val addr; Val 8192] in
    fail_if (0 <? n) (strn "read(fd, %p, 8192) returned %d, not -1 or 0") [A_u64 addr; A_int n] ;*
    call (Close fd) ;*
    let* fds := call Pipe in
    fail_if (bool_decide (fds = None)) (strn "pipe() failed") [] ;*
    let (fd0, fd1) := default (junk, junk) fds in
    let* n := call (Write fd1 (str "x")) in
    fail_if (negb (n =? 1)) (strn "pipe write failed") [] ;*
    let* n := raw SYS_read [Val fd0; Val addr; Val 8192] in
    fail_if (0 <? n) (strn "read(pipe, %p, 8192) returned %d, not -1 or 0") [A_u64 addr; A_int n] ;*
    call (Close fd0) ;*
    call (Close fd1) ;*
    Ret tt).

Definition copyinstr1 (s : list Z) : U unit :=
  each bad_addrs (fun addr =>
    let* fd := raw SYS_open [Val addr; Val (Z.lor O_CREATE O_WRONLY)] in
    fail_if (0 <=? fd) (strn "open(%p) returned %d, not -1") [A_u64 addr; A_int fd]).

Definition copyinstr2 (s : list Z) : U unit :=
  let b := replicate (Z.to_nat MAXPATH) 120 in
  let* ret := call (Unlink b) in
  fail_if (negb (ret =? -1)) (strn "unlink(%s) returned %d, not -1") [A_s b; A_int ret] ;*
  let* fd := call (Open b (Z.lor O_CREATE O_WRONLY)) in
  fail_if (negb (fd =? -1)) (strn "open(%s) returned %d, not -1") [A_s b; A_int fd] ;*
  let* ret := call (Link b b) in
  fail_if (negb (ret =? -1)) (strn "link(%s, %s) returned %d, not -1") [A_s b; A_s b; A_int ret] ;*
  let* ret := call (Exec b [str "xx"]) in
  fail_if (negb (ret =? -1)) (strn "exec(%s) returned %d, not -1") [A_s b; A_int fd] ;*
  fork_child (strn "fork failed") []
    (let big := replicate (Z.to_nat PGSIZE) 120 in
     let* ret := call (Exec (str "echo") [big; big; big]) in
     fail_if (negb (ret =? -1)) (strn "exec(echo, BIG) returned %d, not -1") [A_int fd] ;*
     exit 747) ;*
  let* w := wait_st 0 in
  fail_if (negb (snd w =? 747)) (strn "exec(echo, BIG) succeeded, should have failed") [].

Definition copyinstr3 (s : list Z) : U unit :=
  call (Sbrk 8192) ;*
  let* top := call (Sbrk 0) in
  (if negb (top `mod` PGSIZE =? 0) then call (Sbrk (PGSIZE - top `mod` PGSIZE)) ;* Ret tt else Ret tt) ;*
  let* top := call (Sbrk 0) in
  fail_if (negb (top `mod` PGSIZE =? 0)) (strn "oops") [] ;*
  let b := u64 (top - 1) in
  call (Store b 120) ;*
  (* %s prints from b on: the character there and what follows *)
  let* ret := raw SYS_unlink [Val b] in
  fail_if (negb (ret =? -1)) (strn "unlink(%s) returned %d, not -1") [A_s [120]; A_int ret] ;*
  let* fd := raw SYS_open [Val b; Val (Z.lor O_CREATE O_WRONLY)] in
  fail_if (negb (fd =? -1)) (strn "open(%s) returned %d, not -1") [A_s [120]; A_int fd] ;*
  let* ret := raw SYS_link [Val b; Val b] in
  fail_if (negb (ret =? -1)) (strn "link(%s, %s) returned %d, not -1") [A_s [120]; A_s [120]; A_int ret] ;*
  (* argv is an object whose first pointer is not looked at: the path is fetched first *)
  let* ret := raw SYS_exec [Val b; Ref (replicate 16 0)] in
  fail_if (negb (ret =? -1)) (strn "exec(%s) returned %d, not -1") [A_s [120]; A_int fd].

Definition rwsbrk (s : list Z) : U unit :=
  let* a := call (Sbrk 8192) in
  fail_if (a =? ALLONES) (strn "sbrk(rwsbrk) failed") [] ;*
  let* r := call (Sbrk (-8192)) in
  fail_if (r =? ALLONES) (strn "sbrk(rwsbrk) shrink failed") [] ;*
  let* fd := call (Open (str "rwsbrk") (Z.lor O_CREATE O_WRONLY)) in
  fail_if (fd <? 0) (strn "open(rwsbrk) failed") [] ;*
  let* n := raw SYS_write [Val fd; Val (u64 (a + 4096)); Val 1024] in
  fail_if (0 <=? n) (strn "write(fd, %p, 1024) returned %d, not -1") [A_u64 (u64 (a + 4096)); A_int n] ;*
  call (Close fd) ;*
  call (Unlink (str "rwsbrk")) ;*
  let* fd := call (Open (str "README") O_RDONLY) in
  fail_if (fd <? 0) (strn "open(rwsbrk) failed") [] ;*
  let* n := raw SYS_read [Val fd; Val (u64 (a + 4096)); Val 10] in
  fail_if (0 <=? n) (strn "read(fd, %p, 10) returned %d, not -1") [A_u64 (u64 (a + 4096)); A_int n] ;*
  call (Close fd) ;*
  exit 0.

(** ** Truncation *)

Definition truncate1 (s : list Z) : U unit :=
  call (Unlink (str "truncfile")) ;*
  let* fd1 := call (Open (str "truncfile") (Z.lor O_CREATE (Z.lor O_WRONLY O_TRUNC))) in
  call (Write fd1 (str "abcd")) ;*
  call (Close fd1) ;*
  let* fd2 := call (Open (str "truncfile") O_RDONLY) in
  let* n := call (Read fd2 32) in
  fail_if (negb (rlen n =? 4)) (strn "%s: read %d bytes, wanted 4") [A_s s; A_int (rlen n)] ;*
  let* fd1 := call (Open (str "truncfile") (Z.lor O_WRONLY O_TRUNC)) in
  let* fd3 := call (Open (str "truncfile") O_RDONLY) in
  let* n := call (Read fd3 32) in
  (if negb (rlen n =? 0) then printf (strn "aaa fd3=%d") [A_int fd3] else Ret tt) ;*
  fail_if (negb (rlen n =? 0)) (strn "%s: read %d bytes, wanted 0") [A_s s; A_int (rlen n)] ;*
  let* n := call (Read fd2 32) in
  (if negb (rlen n =? 0) then printf (strn "bbb fd2=%d") [A_int fd2] else Ret tt) ;*
  fail_if (negb (rlen n =? 0)) (strn "%s: read %d bytes, wanted 0") [A_s s; A_int (rlen n)] ;*
  call (Write fd1 (str "abcdef")) ;*
  let* n := call (Read fd3 32) in
  fail_if (negb (rlen n =? 6)) (strn "%s: read %d bytes, wanted 6") [A_s s; A_int (rlen n)] ;*
  let* n := call (Read fd2 32) in
  fail_if (negb (rlen n =? 2)) (strn "%s: read %d bytes, wanted 2") [A_s s; A_int (rlen n)] ;*
  call (Unlink (str "truncfile")) ;*
  call (Close fd1) ;*
  call (Close fd2) ;*
  call (Close fd3) ;*
  Ret tt.

Definition truncate2 (s : list Z) : U unit :=
  call (Unlink (str "truncfile")) ;*
  let* fd1 := call (Open (str "truncfile") (Z.lor O_CREATE (Z.lor O_TRUNC O_WRONLY))) in
  call (Write fd1 (str "abcd")) ;*
  let* fd2 := call (Open (str "truncfile") (Z.lor O_TRUNC O_WRONLY)) in
  let* n := call (Write fd1 (str "x")) in
  fail_if (negb (n =? -1)) (strn "%s: write returned %d, expected -1") [A_s s; A_int n] ;*
  call (Unlink (str "truncfile")) ;*
  call (Close fd1) ;*
  call (Close fd2) ;*
  Ret tt.

Definition truncate3 (s : list Z) : U unit :=
  let* fd := call (Open (str "truncfile") (Z.lor O_CREATE (Z.lor O_TRUNC O_WRONLY))) in
  call (Close fd) ;*
  fork_child (strn "%s: fork failed") [A_s s]
    (for_ 100 (fun _ =>
       let* fd := call (Open (str "truncfile") O_WRONLY) in
       fail_if (fd <? 0) (strn "%s: open failed") [A_s s] ;*
       let* n := call (Write fd (str "1234567890")) in
       fail_if (negb (n =? 10)) (strn "%s: write got %d, expected 10") [A_s s; A_int n] ;*
       call (Close fd) ;*
       let* fd := call (Open (str "truncfile") O_RDONLY) in
       call (Read fd 32) ;*
       call (Close fd) ;*
       Ret tt) ;*
     exit 0) ;*
  for_ 150 (fun _ =>
    let* fd := call (Open (str "truncfile") (Z.lor O_CREATE (Z.lor O_WRONLY O_TRUNC))) in
    fail_if (fd <? 0) (strn "%s: open failed") [A_s s] ;*
    let* n := call (Write fd (str "xxx")) in
    fail_if (negb (n =? 3)) (strn "%s: write got %d, expected 3") [A_s s; A_int n] ;*
    call (Close fd) ;*
    Ret tt) ;*
  let* w := wait_st junk in
  call (Unlink (str "truncfile")) ;*
  exit (snd w).

(** ** Inodes put in a transaction *)

Definition iputtest (s : list Z) : U unit :=
  let* r := call (Mkdir (str "iputdir")) in
  fail_if (r <? 0) (strn "%s: mkdir failed") [A_s s] ;*
  let* r := call (Chdir (str "iputdir")) in
  fail_if (r <? 0) (strn "%s: chdir iputdir failed") [A_s s] ;*
  let* r := call (Unlink (str "../iputdir")) in
  fail_if (r <? 0) (strn "%s: unlink ../iputdir failed") [A_s s] ;*
  let* r := call (Chdir (str "/")) in
  fail_if (r <? 0) (strn "%s: chdir / failed") [A_s s].

Definition exitiputtest (s : list Z) : U unit :=
  fork_child (strn "%s: fork failed") [A_s s]
    (let* r := call (Mkdir (str "iputdir")) in
     fail_if (r <? 0) (strn "%s: mkdir failed") [A_s s] ;*
     let* r := call (Chdir (str "iputdir")) in
     fail_if (r <? 0) (strn "%s: child chdir failed") [A_s s] ;*
     let* r := call (Unlink (str "../iputdir")) in
     fail_if (r <? 0) (strn "%s: unlink ../iputdir failed") [A_s s] ;*
     exit 0) ;*
  let* w := wait_st junk in
  exit (snd w).

Definition openiputtest (s : list Z) : U unit :=
  let* r := call (Mkdir (str "oidir")) in
  fail_if (r <? 0) (strn "%s: mkdir oidir failed") [A_s s] ;*
  fork_child (strn "%s: fork failed") [A_s s]
    (let* fd := call (Open (str "oidir") O_RDWR) in
     fail_if (0 <=? fd) (strn "%s: open directory for write succeeded") [A_s s] ;*
     exit 0) ;*
  call (Sleep 1) ;*
  let* r := call (Unlink (str "oidir")) in
  fail_if (negb (r =? 0)) (strn "%s: unlink failed") [A_s s] ;*
  let* w := wait_st junk in
  exit (snd w).

(** ** Simple file system tests *)

Definition opentest (s : list Z) : U unit :=
  let* fd := call (Open (str "echo") 0) in
  fail_if (fd <? 0) (strn "%s: open echo failed!") [A_s s] ;*
  call (Close fd) ;*
  let* fd := call (Open (str "doesnotexist") 0) in
  fail_if (0 <=? fd) (strn "%s: open doesnotexist succeeded!") [A_s s].

Definition writetest (s : list Z) : U unit :=
  let* fd := call (Open (str "small") (Z.lor O_CREATE O_RDWR)) in
  fail_if (fd <? 0) (strn "%s: error: creat small failed!") [A_s s] ;*
  for_ 100 (fun i =>
    let* r := call (Write fd (str "aaaaaaaaaa")) in
    fail_if (negb (r =? 10)) (strn "%s: error: write aa %d new file failed") [A_s s; A_int i] ;*
    let* r := call (Write fd (str "bbbbbbbbbb")) in
    fail_if (negb (r =? 10)) (strn "%s: error: write bb %d new file failed") [A_s s; A_int i]) ;*
  call (Close fd) ;*
  let* fd := call (Open (str "small") O_RDONLY) in
  fail_if (fd <? 0) (strn "%s: error: open small failed!") [A_s s] ;*
  let* i := call (Read fd 2000) in
  fail_if (negb (rlen i =? 2000)) (strn "%s: read failed") [A_s s] ;*
  call (Close fd) ;*
  let* r := call (Unlink (str "small")) in
  fail_if (r <? 0) (strn "%s: unlink small failed") [A_s s].

(** The first int of the buffer. *)
Definition int0 (buf : list Z) : Z := i32 (le_val (take 4 buf)).

(** The loop that reads the file back; [n] blocks have been read. *)
Definition writebig_read (s : list Z) (fd : Z) (st : Z * list Z) : U ((Z * list Z) + unit) :=
  let (n, buf) := st in
  let* r := call (Read fd BSIZE) in
  let i := rlen r in
  let buf := into buf r in
  if i =? 0 then
    fail_if (n =? MAXFILE - 1) (str "%s: read only %d blocks from big") [A_s s; A_int n] ;*
    Ret (inr tt)
  else
    fail_if (negb (i =? BSIZE)) (strn "%s: read failed %d") [A_s s; A_int i] ;*
    fail_if (negb (int0 buf =? n)) (strn "%s: read content of block %d is %d") [A_s s; A_int n; A_int (int0 buf)] ;*
    Ret (inl (n + 1, buf)).

Definition writebig (s : list Z) : U unit :=
  let* fd := call (Open (str "big") (Z.lor O_CREATE O_RDWR)) in
  fail_if (fd <? 0) (strn "%s: error: creat big failed!") [A_s s] ;*
  for_ MAXFILE (fun i =>
    let* r := call (Write fd (le_bytes 4 i ++ replicate (Z.to_nat BSIZE - 4) 0)) in
    fail_if (negb (r =? BSIZE)) (strn "%s: error: write big file failed") [A_s s; A_int i]) ;*
  call (Close fd) ;*
  let* fd := call (Open (str "big") O_RDONLY) in
  fail_if (fd <? 0) (strn "%s: error: open big failed!") [A_s s] ;*
  ITree.iter (writebig_read s fd) (0, le_bytes 4 (MAXFILE - 1) ++ drop 4 buf0) ;*
  call (Close fd) ;*
  let* r := call (Unlink (str "big")) in
  fail_if (r <? 0) (strn "%s: unlink big failed") [A_s s].

Definition createtest (s : list Z) : U unit :=
  let name (i : Z) : list Z := [97; 48 + i] in
  for_ 52 (fun i =>
    let* fd := call (Open (name i) (Z.lor O_CREATE O_RDWR)) in
    call (Close fd) ;* Ret tt) ;*
  for_ 52 (fun i => call (Unlink (name i)) ;* Ret tt).

Definition dirtest (s : list Z) : U unit :=
  let* r := call (Mkdir (str "dir0")) in
  fail_if (r <? 0) (strn "%s: mkdir failed") [A_s s] ;*
  let* r := call (Chdir (str "dir0")) in
  fail_if (r <? 0) (strn "%s: chdir dir0 failed") [A_s s] ;*
  let* r := call (Chdir (str "..")) in
  fail_if (r <? 0) (strn "%s: chdir .. failed") [A_s s] ;*
  let* r := call (Unlink (str "dir0")) in
  fail_if (r <? 0) (strn "%s: unlink dir0 failed") [A_s s].

Definition exectest (s : list Z) : U unit :=
  call (Unlink (str "echo-ok")) ;*
  let* pid := fork_child (strn "%s: fork failed") [A_s s]
    (call (Close 1) ;*
     let* fd := call (Open (str "echo-ok") (Z.lor O_CREATE O_WRONLY)) in
     fail_if (fd <? 0) (strn "%s: create failed") [A_s s] ;*
     fail_if (negb (fd =? 1)) (strn "%s: wrong fd") [A_s s] ;*
     let* r := call (Exec (str "echo") [str "echo"; str "OK"]) in
     fail_if (r <? 0) (strn "%s: exec echo failed") [A_s s]) in
  let* w := wait_st junk in
  (if negb (fst w =? pid) then printf (strn "%s: wait failed!") [A_s s] else Ret tt) ;*
  (if negb (snd w =? 0) then exit (snd w) else Ret tt) ;*
  let* fd := call (Open (str "echo-ok") O_RDONLY) in
  fail_if (fd <? 0) (strn "%s: open failed") [A_s s] ;*
  let* r := call (Read fd 2) in
  fail_if (negb (rlen r =? 2)) (strn "%s: read failed") [A_s s] ;*
  let buf := into [junk; junk; junk] r in
  call (Unlink (str "echo-ok")) ;*
  if (at_ buf 0 =? 79) && (at_ buf 1 =? 75) then exit 0
  else printf (strn "%s: wrong output") [A_s s] ;* exit 1.
End Tests.
