(* ===== verification/UtestsProc.v ===== *)
(** * The system call tests (user/usertests.c): processes and memory. *)

From ITree Require Import ITree.
From S2P Require Import Prelude Defs Mem Trap Uart Usys Umalloc Ulib Utests.
Local Open Scope user_scope.

Section Tests.
Variable junk : Z.

(** ** Pipes, fork, exit and wait *)

Definition pipe1_child (s : list Z) (fd0 fd1 : Z) : U unit :=
  call (Close fd0) ;*
  for_ 5 (fun n =>
    let* r := call (Write fd1 ((fun i => u8 (n * 1033 + i)) <$> seqZ 0 1033)) in
    fail_if (negb (r =? 1033)) (strn "%s: pipe1 oops 1") [A_s s]) ;*
  exit 0.

(** [seq], [total] and [cc]; [None] when the test returns early. *)
Definition pipe1_read (s : list Z) (fd0 : Z) (st : Z * Z * Z) : U ((Z * Z * Z) + option Z) :=
  let '(seq, total, cc) := st in
  let* r := call (Read fd0 cc) in
  let n := rlen r in
  if 0 <? n then
    if bool_decide (default [] r = (fun i => u8 (seq + i)) <$> seqZ 0 n) then
      let cc := cc * 2 in
      Ret (inl (seq + n, total + n, if BUFSZ <? cc then BUFSZ else cc))
    else printf (strn "%s: pipe1 oops 2") [A_s s] ;* Ret (inr None)
  else Ret (inr (Some total)).

Definition pipe1 (s : list Z) : U unit :=
  let* fds := call Pipe in
  fail_if (bool_decide (fds = None)) (strn "%s: pipe() failed") [A_s s] ;*
  let (fd0, fd1) := default (junk, junk) fds in
  let* pid := call Fork in
  if pid =? 0 then pipe1_child s fd0 fd1
  else if 0 <? pid then
    call (Close fd1) ;*
    let* r := ITree.iter (pipe1_read s fd0) (0, 0, 1) in
    match r with
    | None => Ret tt
    | Some total =>
      fail_if (negb (total =? 5 * 1033)) (strn "%s: pipe1 oops 3 total %d") [A_int total] ;*
      call (Close fd0) ;*
      let* w := wait_st junk in
      exit (snd w)
    end
  else printf (strn "%s: fork() failed") [A_s s] ;* exit 1.

(** [xst] is declared outside the loop. *)
Definition killstatus_round (s : list Z) (xst : Z) : U Z :=
  let* pid1 := fork_child (strn "%s: fork failed") [A_s s] (forever (call Getpid ;* Ret tt)) in
  call (Sleep 1) ;*
  call (Kill pid1) ;*
  let* w := wait_st xst in
  fail_if (negb (snd w =? -1)) (strn "%s: status should be -1") [A_s s] ;*
  Ret (snd w).
Fixpoint killstatus_loop (n : nat) (s : list Z) (xst : Z) : U unit :=
  match n with
  | O => Ret tt
  | S n => let* xst := killstatus_round s xst in killstatus_loop n s xst
  end.
Definition killstatus (s : list Z) : U unit := killstatus_loop 100 s junk ;* exit 0.

Definition preempt (s : list Z) : U unit :=
  let* pid1 := fork_child (str "%s: fork failed") [A_s s] ITree.spin in
  let* pid2 := fork_child (strn "%s: fork failed") [A_s s] ITree.spin in
  let* pfds := call Pipe in
  let (p0, p1) := default (junk, junk) pfds in
  let* pid3 := fork_child (strn "%s: fork failed") [A_s s]
    (call (Close p0) ;*
     let* r := call (Write p1 (str "x")) in
     (if negb (r =? 1) then printf (str "%s: preempt write error") [A_s s] else Ret tt) ;*
     call (Close p1) ;*
     ITree.spin) in
  call (Close p1) ;*
  let* r := call (Read p0 BUFSZ) in
  if negb (rlen r =? 1) then printf (str "%s: preempt read error") [A_s s] else
  call (Close p0) ;*
  printf (str "kill... ") [] ;*
  call (Kill pid1) ;*
  call (Kill pid2) ;*
  call (Kill pid3) ;*
  printf (str "wait... ") [] ;*
  call Wait ;* call Wait ;* call Wait ;*
  Ret tt.

Definition exitwait (s : list Z) : U unit :=
  for_ 100 (fun i =>
    let* pid := call Fork in
    fail_if (pid <? 0) (strn "%s: fork failed") [A_s s] ;*
    if negb (pid =? 0) then
      let* w := wait_st junk in
      fail_if (negb (fst w =? pid)) (strn "%s: wait wrong pid") [A_s s] ;*
      fail_if (negb (i =? snd w)) (strn "%s: wait wrong exit status") [A_s s]
    else exit i).

Definition reparent (s : list Z) : U unit :=
  let* master_pid := call Getpid in
  for_ 200 (fun _ =>
    let* pid := call Fork in
    fail_if (pid <? 0) (strn "%s: fork failed") [A_s s] ;*
    if negb (pid =? 0) then
      let* r := call Wait in
      fail_if (negb (r =? pid)) (strn "%s: wait wrong pid") [A_s s]
    else
      let* pid2 := call Fork in
      (if pid2 <? 0 then call (Kill master_pid) ;* exit 1 else Ret tt) ;*
      exit 0) ;*
  exit 0.

Definition twochildren (s : list Z) : U unit :=
  for_ 1000 (fun _ =>
    fork_child (strn "%s: fork failed") [A_s s] (exit 0) ;*
    fork_child (strn "%s: fork failed") [A_s s] (exit 0) ;*
    call Wait ;*
    call Wait ;*
    Ret tt).

(** [xstatus] is kept from one wait to the next. *)
Fixpoint wait_all (n : nat) (xstatus : Z) (bad : Z -> U unit) : U unit :=
  match n with
  | O => Ret tt
  | S n =>
    let* w := wait_st xstatus in
    (if negb (snd w =? 0) then bad (snd w) else Ret tt) ;*
    wait_all n (snd w) bad
  end.

Definition forkfork (s : list Z) : U unit :=
  for_ 2 (fun _ =>
    fork_child (str "%s: fork failed") [A_s s]
      (for_ 200 (fun _ =>
         let* pid1 := call Fork in
         if pid1 <? 0 then exit 1 else
         if pid1 =? 0 then exit 0 else
         call Wait ;* Ret tt) ;*
       exit 0) ;*
    Ret tt) ;*
  wait_all 2 junk (fun _ => printf (str "%s: fork in child failed") [A_s s] ;* exit 1).

Definition forkforkfork (s : list Z) : U unit :=
  call (Unlink (str "stopforking")) ;*
  fork_child (str "%s: fork failed") [A_s s]
    (forever
       (let* fd := call (Open (str "stopforking") 0) in
        (if 0 <=? fd then exit 0 else Ret tt) ;*
        let* r := call Fork in
        if r <? 0 then
          let* fd := call (Open (str "stopforking") (Z.lor O_CREATE O_RDWR)) in
          call (Close fd) ;* Ret tt
        else Ret tt)) ;*
  call (Sleep 20) ;*
  let* fd := call (Open (str "stopforking") (Z.lor O_CREATE O_RDWR)) in
  call (Close fd) ;*
  call Wait ;*
  call (Sleep 10) ;*
  Ret tt.

Definition reparent2 (s : list Z) : U unit :=
  for_ 800 (fun _ =>
    let* pid1 := call Fork in
    fail_if (pid1 <? 0) (strn "fork failed") [] ;*
    (if pid1 =? 0 then call Fork ;* call Fork ;* exit 0 else Ret tt) ;*
    call Wait ;*
    Ret tt) ;*
  exit 0.

Definition forktest (s : list Z) : U unit :=
  let* n := ITree.iter (fun n : Z =>
    if n <? 1000 then
      let* pid := call Fork in
      if pid <? 0 then Ret (inr n) else
      (if pid =? 0 then exit 0 else Ret tt) ;*
      Ret (inl (n + 1))
    else Ret (inr n)) 0 in
  fail_if (n =? 0) (strn "%s: no fork at all!") [A_s s] ;*
  fail_if (n =? 1000) (strn "%s: fork claimed to work 1000 times!") [A_s s] ;*
  for_ n (fun _ =>
    let* r := call Wait in
    fail_if (r <? 0) (strn "%s: wait stopped early") [A_s s]) ;*
  let* r := call Wait in
  fail_if (negb (r =? -1)) (strn "%s: wait got too many") [A_s s].

(** ** malloc() until there is no memory left *)

Section Mem.
Context `{UserHeap} (N : nat) (h0 : heap).  (* rounds of the searches of malloc() and free(); the heap at the start *)

(** A list through the first words of the blocks, [m1] its head. *)
Definition mem_alloc (st : Z * heap) : U ((Z * heap) + (Z * heap)) :=
  let (m1, h) := st in
  match malloc N 10001 h with
  | None => ITree.spin
  | Some (m2, h) =>
    if m2 =? 0 then Ret (inr (m1, h))
    else Ret (inl (m2, set_mem (store64 (h_mem h) m2 m1) h))
  end.
Definition mem_free (st : Z * heap) : U ((Z * heap) + heap) :=
  let (m1, h) := st in
  if m1 =? 0 then Ret (inr h) else
  let m2 := load64 (h_mem h) m1 in
  match free N m1 h with None => ITree.spin | Some h => Ret (inl (m2, h)) end.

Definition mem (s : list Z) : U unit :=
  let* pid := call Fork in
  if pid =? 0 then
    let* r := ITree.iter mem_alloc (0, h0) in
    let* h := ITree.iter mem_free r in
    match malloc N (1024 * 20) h with
    | None => ITree.spin
    | Some (m1, h) =>
      fail_if (m1 =? 0) (strn "couldn't allocate mem?!!") [A_s s] ;*
      match free N m1 h with None => ITree.spin | Some _ => exit 0 end
    end
  else
    let* w := wait_st junk in
    (if snd w =? -1 then exit 0 else Ret tt) ;*
    exit (snd w).
End Mem.

(** ** sbrk *)

Definition sbrkbasic (s : list Z) : U unit :=
  let TOOMUCH := 1024 * 1024 * 1024 in
  fork_child (strn "fork failed in sbrkbasic") []
    (let* a := call (Sbrk TOOMUCH) in
     (if a =? ALLONES then exit 0 else Ret tt) ;*
     for_ (TOOMUCH / 4096) (fun k => call (Store (u64 (a + 4096 * k)) 99)) ;*
     exit 1) ;*
  let* w := wait_st junk in
  let xstatus := snd w in
  fail_if (xstatus =? 1) (strn "%s: too much memory allocated!") [A_s s] ;*
  let* a := call (Sbrk 0) in
  for_ 5000 (fun i =>
    let* b := call (Sbrk 1) in
    fail_if (negb (b =? u64 (a + i))) (strn "%s: sbrk test failed %d %x %x") [A_s s; A_int i; A_u64 (a + i); A_u64 b] ;*
    call (Store b 1)) ;*
  let a := u64 (a + 5000) in
  let* pid := call Fork in
  fail_if (pid <? 0) (strn "%s: sbrk test fork failed") [A_s s] ;*
  call (Sbrk 1) ;*
  let* c := call (Sbrk 1) in
  fail_if (negb (c =? u64 (a + 1))) (strn "%s: sbrk test failed post-fork") [A_s s] ;*
  (if pid =? 0 then exit 0 else Ret tt) ;*
  let* w := wait_st xstatus in
  exit (snd w).

Definition sbrkmuch (s : list Z) : U unit :=
  let BIG := 100 * 1024 * 1024 in
  let* oldbrk := call (Sbrk 0) in
  let* a := call (Sbrk 0) in
  let amt := u64 (BIG - a) in
  let* p := call (Sbrk (i32 amt)) in
  fail_if (negb (p =? a)) (strn "%s: sbrk test failed to grow big address space; enough phys mem?") [A_s s] ;*
  let* eee := call (Sbrk 0) in
  for_ ((eee - a + 4095) / 4096) (fun k => call (Store (u64 (a + 4096 * k)) 1)) ;*
  let lastaddr := BIG - 1 in
  call (Store lastaddr 99) ;*
  let* a := call (Sbrk 0) in
  let* c := call (Sbrk (- PGSIZE)) in
  fail_if (c =? ALLONES) (strn "%s: sbrk could not deallocate") [A_s s] ;*
  let* c := call (Sbrk 0) in
  fail_if (negb (c =? u64 (a - PGSIZE))) (strn "%s: sbrk deallocation produced wrong address, a %x c %x") [A_s s; A_u64 a; A_u64 c] ;*
  let* a := call (Sbrk 0) in
  let* c := call (Sbrk PGSIZE) in
  let* bad := (if negb (c =? a) then Ret true else let* t := call (Sbrk 0) in Ret (negb (t =? u64 (a + PGSIZE)))) in
  fail_if bad (strn "%s: sbrk re-allocation failed, a %x c %x") [A_s s; A_u64 a; A_u64 c] ;*
  let* v := call (Load lastaddr) in
  fail_if (v =? 99) (strn "%s: sbrk de-allocation didn't really deallocate") [A_s s] ;*
  let* a := call (Sbrk 0) in
  let* t := call (Sbrk 0) in
  let* c := call (Sbrk (i32 (- (t - oldbrk)))) in
  fail_if (negb (c =? a)) (strn "%s: sbrk downsize failed, a %x c %x") [A_s s; A_u64 a; A_u64 c].

(** A child that must be killed. *)
Definition killed_child (s : list Z) (child : U unit) : U unit :=
  fork_child (strn "%s: fork failed") [A_s s] child ;*
  let* w := wait_st junk in
  if negb (snd w =? -1) then exit 1 else Ret tt.

Definition kernmem (s : list Z) : U unit :=
  for_ 40 (fun k =>
    let a := KERNBASE + 50000 * k in
    killed_child s
      (let* v := call (Load a) in
       printf (strn "%s: oops could read %x = %x") [A_s s; A_u64 a; A_int v] ;*
       exit 1)).

(** [a <<= 1] from MAXVA until it is 0. *)
Definition MAXVAplus (s : list Z) : U unit :=
  for_ 26 (fun k =>
    let a := u64 (Z.shiftl MAXVA k) in
    killed_child s
      (call (Store a 99) ;*
       printf (strn "%s: oops wrote %x") [A_s s; A_u64 a] ;*
       exit 1)).

(** The ten children that take all memory; their pids. *)
Fixpoint sbrkfail_fork (n : nat) (fd0 fd1 : Z) : U (list Z) :=
  match n with
  | O => Ret []
  | S n =>
    let* pid := call Fork in
    (if pid =? 0 then
       let* t := call (Sbrk 0) in
       call (Sbrk (i32 (100 * 1024 * 1024 - t))) ;*
       call (Write fd1 (str "x")) ;*
       forever (call (Sleep 1000) ;* Ret tt)
     else Ret tt) ;*
    (if negb (pid =? -1) then call (Read fd0 1) ;* Ret tt else Ret tt) ;*
    let* pids := sbrkfail_fork n fd0 fd1 in
    Ret (pid :: pids)
  end.

(** The sum of a byte of each page from [a] on. *)
Fixpoint sum_pages (n : nat) (a sum : Z) : U Z :=
  match n with
  | O => Ret sum
  | S n => let* v := call (Load a) in sum_pages n (u64 (a + PGSIZE)) (i32 (sum + v))
  end.

Definition sbrkfail (s : list Z) : U unit :=
  let BIG := 100 * 1024 * 1024 in
  let* fds := call Pipe in
  fail_if (bool_decide (fds = None)) (strn "%s: pipe() failed") [A_s s] ;*
  let (fd0, fd1) := default (junk, junk) fds in
  let* pids := sbrkfail_fork 10 fd0 fd1 in
  let* c := call (Sbrk PGSIZE) in
  each pids (fun pid => if pid =? -1 then Ret tt else call (Kill pid) ;* call Wait ;* Ret tt) ;*
  fail_if (c =? ALLONES) (strn "%s: failed sbrk leaked memory") [A_s s] ;*
  fork_child (strn "%s: fork failed") [A_s s]
    (let* a := call (Sbrk 0) in
     call (Sbrk (10 * BIG)) ;*
     let* n := sum_pages (Z.to_nat (10 * BIG / PGSIZE)) a 0 in
     printf (strn "%s: allocate a lot of memory succeeded %d") [A_s s; A_int n] ;*
     exit 1) ;*
  let* w := wait_st junk in
  if negb (snd w =? -1) && negb (snd w =? 2) then exit 1 else Ret tt.

Definition sbrkarg (s : list Z) : U unit :=
  let* a := call (Sbrk PGSIZE) in
  let* fd := call (Open (str "sbrk") (Z.lor O_CREATE O_WRONLY)) in
  call (Unlink (str "sbrk")) ;*
  fail_if (fd <? 0) (strn "%s: open sbrk failed") [A_s s] ;*
  let* n := raw SYS_write [Val fd; Val a; Val PGSIZE] in
  fail_if (n <? 0) (strn "%s: write sbrk failed") [A_s s] ;*
  call (Close fd) ;*
  let* a := call (Sbrk PGSIZE) in
  let* r := raw SYS_pipe [Val a] in
  fail_if (negb (r =? 0)) (strn "%s: pipe() failed") [A_s s].

(** ** Bad arguments *)

Definition validatetest (s : list Z) : U unit :=
  for_ (1100 * 1024 / PGSIZE + 1) (fun k =>
    let* r := raw SYS_link [Rstr (str "nosuchfile"); Val (PGSIZE * k)] in
    fail_if (negb (r =? -1)) (strn "%s: link should not succeed") [A_s s]).

(** [uninit]: the bytes of an array without an initialiser. *)
Definition bsstest (uninit : list Z) (s : list Z) : U unit :=
  each uninit (fun c => fail_if (negb (c =? 0)) (strn "%s: bss test failed") [A_s s]).

Definition bigarg : list Z := strn "bigargs test: failed" ++ replicate 199 32.

Definition bigargtest (s : list Z) : U unit :=
  call (Unlink (str "bigarg-ok")) ;*
  let* pid := call Fork in
  (if pid =? 0 then
     call (Exec (str "echo") (replicate (MAXARG - 1) bigarg)) ;*
     let* fd := call (Open (str "bigarg-ok") O_CREATE) in
     call (Close fd) ;*
     exit 0
   else fail_if (pid <? 0) (strn "%s: bigargtest: fork failed") [A_s s]) ;*
  let* w := wait_st junk in
  (if negb (snd w =? 0) then exit (snd w) else Ret tt) ;*
  let* fd := call (Open (str "bigarg-ok") 0) in
  fail_if (fd <? 0) (strn "%s: bigarg test failed!") [A_s s] ;*
  call (Close fd) ;*
  Ret tt.

Definition argptest (s : list Z) : U unit :=
  let* fd := call (Open (str "init") O_RDONLY) in
  fail_if (fd <? 0) (strn "%s: open failed") [A_s s] ;*
  let* t := call (Sbrk 0) in
  raw SYS_read [Val fd; Val (u64 (t - 1)); Val (-1)] ;*
  call (Close fd) ;*
  Ret tt.

(** A child that is to be killed; the test passes then. *)
Definition expect_kill (s : list Z) (child : U unit) : U unit :=
  let* pid := call Fork in
  (if pid =? 0 then child else fail_if (pid <? 0) (strn "%s: fork failed") [A_s s]) ;*
  let* w := wait_st junk in
  if snd w =? -1 then exit 0 else exit (snd w).

(** [sp]: the stack pointer. *)
Definition stacktest (sp : Z) (s : list Z) : U unit :=
  expect_kill s
    (let* v := call (Load (u64 (sp - PGSIZE))) in
     printf (strn "%s: stacktest: read below stack %p") [A_s s; A_u64 v] ;*
     exit 1).

Definition textwrite (s : list Z) : U unit :=
  expect_kill s
    (for_ 4 (fun k => call (Store k (at_ (le_bytes 4 10) (Z.to_nat k)))) ;* exit 1).

Definition big : Z := 0xeaeb0b5b00002f5e.
Definition pgbug (s : list Z) : U unit :=
  raw SYS_exec [Val big; Ref (le_bytes 8 0)] ;*
  raw SYS_pipe [Val big] ;*
  exit 0.

Definition sbrkbugs (s : list Z) : U unit :=
  fork_child (strn "fork failed") []
    (let* t := call (Sbrk 0) in
     call (Sbrk (i32 (- i32 t))) ;*
     exit 0) ;*
  call Wait ;*
  fork_child (strn "fork failed") []
    (let* t := call (Sbrk 0) in
     call (Sbrk (i32 (- (i32 t - 3500)))) ;*
     exit 0) ;*
  call Wait ;*
  fork_child (strn "fork failed") []
    (let* t := call (Sbrk 0) in
     call (Sbrk (i32 (10 * 4096 + 2048 - t))) ;*
     call (Sbrk (-10)) ;*
     exit 0) ;*
  call Wait ;*
  exit 0.

Definition sbrklast (s : list Z) : U unit :=
  let* top := call (Sbrk 0) in
  (if negb (top `mod` 4096 =? 0) then call (Sbrk (4096 - top `mod` 4096)) ;* Ret tt else Ret tt) ;*
  call (Sbrk 4096) ;*
  call (Sbrk 10) ;*
  call (Sbrk (-20)) ;*
  let* top := call (Sbrk 0) in
  let p := u64 (top - 64) in
  call (Store p 120) ;*
  call (Store (u64 (p + 1)) 0) ;*
  let* fd := raw SYS_open [Val p; Val (Z.lor O_RDWR O_CREATE)] in
  raw SYS_write [Val fd; Val p; Val 1] ;*
  call (Close fd) ;*
  let* fd := raw SYS_open [Val p; Val O_RDWR] in
  call (Store p 0) ;*
  raw SYS_read [Val fd; Val p; Val 1] ;*
  let* v := call (Load p) in
  if negb (v =? 120) then exit 1 else Ret tt.

Definition sbrk8000 (s : list Z) : U unit :=
  call (Sbrk (i32 0x80000004)) ;*
  let* top := call (Sbrk 0) in
  let* v := call (Load (u64 (top - 1))) in
  call (Store (u64 (top - 1)) (u8 (v + 1))).

Definition badarg (s : list Z) : U unit :=
  for_ 50000 (fun _ =>
    raw SYS_exec [Rstr (str "echo"); Ref (le_bytes 8 0xffffffff ++ le_bytes 8 0)] ;* Ret tt) ;*
  exit 0.

(** Pages until sbrk() fails, each touched at its end. *)
Definition take_page (_ : unit) : U (unit + unit) :=
  let* a := call (Sbrk 4096) in
  if a =? ALLONES then Ret (inr tt) else
  call (Store (u64 (a + 4096 - 1)) 1) ;*
  Ret (inl tt).

Definition execout (s : list Z) : U unit :=
  for_ 15 (fun avail =>
    let* pid := call Fork in
    fail_if (pid <? 0) (strn "fork failed") [] ;*
    if pid =? 0 then
      ITree.iter take_page tt ;*
      for_ avail (fun _ => call (Sbrk (-4096)) ;* Ret tt) ;*
      call (Close 1) ;*
      call (Exec (str "echo") [str "echo"; str "x"]) ;*
      exit 0
    else call Wait ;* Ret tt) ;*
  exit 0.
End Tests.
