(* ===== verification/UtestsFs.v ===== *)
(** * The system call tests (user/usertests.c): shared, linked, deep and big files. *)

From ITree Require Import ITree.
From S2P Require Import Prelude Defs Mem Trap Uart Usys Ulib Utests UtestsProc.
Local Open Scope user_scope.

(** [if(e is bad){ printf(...); exit(1); }] *)
Definition unless (e : sysE Z) (bad : Z -> bool) (fmt : list Z) (ap : list varg) : U unit :=
  let* r := call e in fail_if (bad r) fmt ap.
Definition negative (r : Z) : bool := r <? 0.
Definition nonnegative (r : Z) : bool := 0 <=? r.
Definition zero (r : Z) : bool := r =? 0.
Definition nonzero (r : Z) : bool := negb (r =? 0).
Definition not_ (n r : Z) : bool := negb (r =? n).

Definition CREATE_RDWR : Z := Z.lor O_CREATE O_RDWR.
(** [close(open(path, mode))] *)
Definition touch (path : list Z) (mode : Z) : U unit :=
  let* fd := call (Open path mode) in call (Close fd) ;* Ret tt.

Section Tests.
Variable junk : Z.

(** ** Several processes *)

(** The number of [c] and of [p] in the file, read 10 bytes at a time. *)
Definition sharedfd_count (fd : Z) (st : list Z * Z * Z) : U ((list Z * Z * Z) + (Z * Z)) :=
  let '(buf, nc, np) := st in
  let* r := call (Read fd 10) in
  let buf := into buf r in
  if 0 <? rlen r then
    let count (c : Z) : Z := Z.of_nat (length (filter (fun x => x = c) buf)) in
    Ret (inl (buf, nc + count 99, np + count 112))
  else Ret (inr (nc, np)).

Definition sharedfd (s : list Z) : U unit :=
  call (Unlink (str "sharedfd")) ;*
  let* fd := call (Open (str "sharedfd") CREATE_RDWR) in
  fail_if (fd <? 0) (str "%s: cannot open sharedfd for writing") [A_s s] ;*
  let* pid := call Fork in
  let buf := replicate 10 (if pid =? 0 then 99 else 112) in
  for_ 1000 (fun _ => unless (Write fd buf) (not_ 10) (strn "%s: write sharedfd failed") [A_s s]) ;*
  (if pid =? 0 then exit 0 else
   let* w := wait_st junk in
   if negb (snd w =? 0) then exit (snd w) else Ret tt) ;*
  call (Close fd) ;*
  let* fd := call (Open (str "sharedfd") 0) in
  fail_if (fd <? 0) (strn "%s: cannot open sharedfd for reading") [A_s s] ;*
  let* n := ITree.iter (sharedfd_count fd) (buf, 0, 0) in
  call (Close fd) ;*
  call (Unlink (str "sharedfd")) ;*
  if (fst n =? 10000) && (snd n =? 10000) then exit 0
  else printf (strn "%s: nc/np test fails") [A_s s] ;* exit 1.

(** The length of a file all of whose characters are [c]. *)
Definition fourfiles_read (s : list Z) (fd c total : Z) : U (Z + Z) :=
  let* r := call (Read fd BUFSZ) in
  if 0 <? rlen r then
    fail_if (existsb (fun x => negb (x =? c)) (default [] r)) (strn "wrong char") [A_s s] ;*
    Ret (inl (total + rlen r))
  else Ret (inr total).

Definition fourfiles (s : list Z) : U unit :=
  let name (pi : Z) : list Z := [102; 48 + pi] in
  for_ 4 (fun pi =>
    call (Unlink (name pi)) ;*
    fork_child (strn "fork failed") [A_s s]
      (let* fd := call (Open (name pi) CREATE_RDWR) in
       fail_if (fd <? 0) (strn "create failed") [A_s s] ;*
       for_ 12 (fun _ =>
         let* n := call (Write fd (replicate 500 (48 + pi))) in
         fail_if (negb (n =? 500)) (strn "write failed %d") [A_int n]) ;*
       exit 0) ;*
    Ret tt) ;*
  wait_all 4 junk (fun st => exit st) ;*
  for_ 4 (fun i =>
    let* fd := call (Open (name i) 0) in
    let* total := ITree.iter (fourfiles_read s fd (48 + i)) 0 in
    call (Close fd) ;*
    fail_if (negb (total =? 12 * 500)) (strn "wrong length %d") [A_int total] ;*
    call (Unlink (name i)) ;*
    Ret tt).

Definition createdelete (s : list Z) : U unit :=
  let N := 20 in
  let name (p i : Z) : list Z := [112 + p; 48 + i] in
  for_ 4 (fun pi =>
    fork_child (strn "fork failed") [A_s s]
      (for_ N (fun i =>
         let* fd := call (Open (name pi i) CREATE_RDWR) in
         fail_if (fd <? 0) (strn "%s: create failed") [A_s s] ;*
         call (Close fd) ;*
         if (0 <? i) && (i `mod` 2 =? 0) then unless (Unlink (name pi (i / 2))) negative (strn "%s: unlink failed") [A_s s]
         else Ret tt) ;*
       exit 0) ;*
    Ret tt) ;*
  wait_all 4 junk (fun _ => exit 1) ;*
  for_ N (fun i => for_ 4 (fun pi =>
    let* fd := call (Open (name pi i) 0) in
    (if ((i =? 0) || (N / 2 <=? i)) && (fd <? 0) then
       printf (strn "%s: oops createdelete %s didn't exist") [A_s s; A_s (name pi i)] ;* exit 1
     else if ((1 <=? i) && (i <? N / 2)) && (0 <=? fd) then
       printf (strn "%s: oops createdelete %s did exist") [A_s s; A_s (name pi i)] ;* exit 1
     else Ret tt) ;*
    if 0 <=? fd then call (Close fd) ;* Ret tt else Ret tt)) ;*
  (* the name is made of i twice *)
  for_ N (fun i => for_ 4 (fun _ => call (Unlink (name i i)) ;* Ret tt)).

Definition unlinkread (s : list Z) : U unit :=
  let* fd := call (Open (str "unlinkread") CREATE_RDWR) in
  fail_if (fd <? 0) (strn "%s: create unlinkread failed") [A_s s] ;*
  call (Write fd (str "hello")) ;*
  call (Close fd) ;*
  let* fd := call (Open (str "unlinkread") O_RDWR) in
  fail_if (fd <? 0) (strn "%s: open unlinkread failed") [A_s s] ;*
  unless (Unlink (str "unlinkread")) nonzero (strn "%s: unlink unlinkread failed") [A_s s] ;*
  let* fd1 := call (Open (str "unlinkread") CREATE_RDWR) in
  call (Write fd1 (str "yyy")) ;*
  call (Close fd1) ;*
  let* r := call (Read fd BUFSZ) in
  fail_if (negb (rlen r =? 5)) (str "%s: unlinkread read failed") [A_s s] ;*
  let buf := into buf0 r in
  fail_if (negb (at_ buf 0 =? 104)) (strn "%s: unlinkread wrong data") [A_s s] ;*
  unless (Write fd (take 10 buf)) (not_ 10) (strn "%s: unlinkread write failed") [A_s s] ;*
  call (Close fd) ;*
  call (Unlink (str "unlinkread")) ;*
  Ret tt.

Definition linktest (s : list Z) : U unit :=
  call (Unlink (str "lf1")) ;*
  call (Unlink (str "lf2")) ;*
  let* fd := call (Open (str "lf1") CREATE_RDWR) in
  fail_if (fd <? 0) (strn "%s: create lf1 failed") [A_s s] ;*
  unless (Write fd (str "hello")) (not_ 5) (strn "%s: write lf1 failed") [A_s s] ;*
  call (Close fd) ;*
  unless (Link (str "lf1") (str "lf2")) negative (strn "%s: link lf1 lf2 failed") [A_s s] ;*
  call (Unlink (str "lf1")) ;*
  unless (Open (str "lf1") 0) nonnegative (strn "%s: unlinked lf1 but it is still there!") [A_s s] ;*
  let* fd := call (Open (str "lf2") 0) in
  fail_if (fd <? 0) (strn "%s: open lf2 failed") [A_s s] ;*
  let* r := call (Read fd BUFSZ) in
  fail_if (negb (rlen r =? 5)) (strn "%s: read lf2 failed") [A_s s] ;*
  call (Close fd) ;*
  unless (Link (str "lf2") (str "lf2")) nonnegative (strn "%s: link lf2 lf2 succeeded! oops") [A_s s] ;*
  call (Unlink (str "lf2")) ;*
  unless (Link (str "lf2") (str "lf1")) nonnegative (strn "%s: link non-existent succeeded! oops") [A_s s] ;*
  unless (Link (str ".") (str "lf1")) nonnegative (strn "%s: link . lf1 succeeded! oops") [A_s s].

(** ** concreate *)

(** The entries read so far: the directory entry, which files were seen and
    how many. *)
Definition concreate_scan (s : list Z) (fd : Z) (st : list Z * list Z * Z) : U ((list Z * list Z * Z) + Z) :=
  let '(de, fa, n) := st in
  let* r := call (Read fd 16) in
  if negb (0 <? rlen r) then Ret (inr n) else
  let de := into de r in
  let name := drop 2 de in
  if le_val (take 2 de) =? 0 then Ret (inl (de, fa, n)) else
  if (at_ name 0 =? 67) && (at_ name 2 =? 0) then
    let i := at_ name 1 - 48 in
    let shown := if at_ name 1 =? 0 then take 1 name else take 2 name in  (* up to the NUL *)
    fail_if ((i <? 0) || (40 <=? i)) (strn "%s: concreate weird file %s") [A_s s; A_s shown] ;*
    fail_if (negb (at_ fa (Z.to_nat i) =? 0)) (strn "%s: concreate duplicate file %s") [A_s s; A_s shown] ;*
    Ret (inl (de, <[Z.to_nat i := 1]> fa, n + 1))
  else Ret (inl (de, fa, n)).

Definition concreate (s : list Z) : U unit :=
  let N := 40 in
  let file (i : Z) : list Z := [67; 48 + i] in
  for_ N (fun i =>
    call (Unlink (file i)) ;*
    let* pid := call Fork in
    (if negb (pid =? 0) && (i `mod` 3 =? 1) then call (Link (str "C0") (file i)) ;* Ret tt
     else if (pid =? 0) && (i `mod` 5 =? 1) then call (Link (str "C0") (file i)) ;* Ret tt
     else
       let* fd := call (Open (file i) CREATE_RDWR) in
       fail_if (fd <? 0) (strn "concreate create %s failed") [A_s (file i)] ;*
       call (Close fd) ;* Ret tt) ;*
    if pid =? 0 then exit 0 else
    let* w := wait_st junk in
    if negb (snd w =? 0) then exit 1 else Ret tt) ;*
  let* fd := call (Open (str ".") 0) in
  let* n := ITree.iter (concreate_scan s fd) (replicate 16 junk, replicate 40 0, 0) in
  call (Close fd) ;*
  fail_if (negb (n =? N)) (strn "%s: concreate not enough files in directory listing") [A_s s] ;*
  for_ N (fun i =>
    let* pid := call Fork in
    fail_if (pid <? 0) (strn "%s: fork failed") [A_s s] ;*
    (if ((i `mod` 3 =? 0) && (pid =? 0)) || ((i `mod` 3 =? 1) && negb (pid =? 0)) then
       for_ 6 (fun _ => touch (file i) 0)
     else for_ 6 (fun _ => call (Unlink (file i)) ;* Ret tt)) ;*
    if pid =? 0 then exit 0 else call Wait ;* Ret tt).

Fixpoint linkunlink_loop (n : nat) (x : Z) : U unit :=
  match n with
  | O => Ret tt
  | S n =>
    let x := u32 (x * 1103515245 + 12345) in
    (if x `mod` 3 =? 0 then touch (str "x") CREATE_RDWR
     else if x `mod` 3 =? 1 then call (Link (str "cat") (str "x")) ;* Ret tt
     else call (Unlink (str "x")) ;* Ret tt) ;*
    linkunlink_loop n x
  end.
Definition linkunlink (s : list Z) : U unit :=
  call (Unlink (str "x")) ;*
  let* pid := call Fork in
  fail_if (pid <? 0) (strn "%s: fork failed") [A_s s] ;*
  linkunlink_loop 100 (if negb (pid =? 0) then 1 else 97) ;*
  if negb (pid =? 0) then call Wait ;* Ret tt else exit 0.

(** ** subdir *)

Definition subdir_make (s : list Z) : U unit :=
  call (Unlink (str "ff")) ;*
  unless (Mkdir (str "dd")) nonzero (strn "%s: mkdir dd failed") [A_s s] ;*
  let* fd := call (Open (str "dd/ff") CREATE_RDWR) in
  fail_if (fd <? 0) (strn "%s: create dd/ff failed") [A_s s] ;*
  call (Write fd (str "ff")) ;*
  call (Close fd) ;*
  unless (Unlink (str "dd")) nonnegative (strn "%s: unlink dd (non-empty dir) succeeded!") [A_s s] ;*
  unless (Mkdir (str "/dd/dd")) nonzero (strn "subdir mkdir dd/dd failed") [A_s s] ;*
  let* fd := call (Open (str "dd/dd/ff") CREATE_RDWR) in
  fail_if (fd <? 0) (strn "%s: create dd/dd/ff failed") [A_s s] ;*
  call (Write fd (str "FF")) ;*
  call (Close fd) ;*
  let* fd := call (Open (str "dd/dd/../ff") 0) in
  fail_if (fd <? 0) (strn "%s: open dd/dd/../ff failed") [A_s s] ;*
  let* cc := call (Read fd BUFSZ) in
  fail_if (negb (rlen cc =? 2) || negb (at_ (into buf0 cc) 0 =? 102)) (strn "%s: dd/dd/../ff wrong content") [A_s s] ;*
  call (Close fd) ;*
  unless (Link (str "dd/dd/ff") (str "dd/dd/ffff")) nonzero (strn "link dd/dd/ff dd/dd/ffff failed") [A_s s] ;*
  unless (Unlink (str "dd/dd/ff")) nonzero (strn "%s: unlink dd/dd/ff failed") [A_s s] ;*
  unless (Open (str "dd/dd/ff") O_RDONLY) nonnegative (strn "%s: open (unlinked) dd/dd/ff succeeded") [A_s s].

Definition subdir_walk (s : list Z) : U unit :=
  unless (Chdir (str "dd")) nonzero (strn "%s: chdir dd failed") [A_s s] ;*
  unless (Chdir (str "dd/../../dd")) nonzero (strn "%s: chdir dd/../../dd failed") [A_s s] ;*
  unless (Chdir (str "dd/../../../dd")) nonzero (strn "chdir dd/../../dd failed") [A_s s] ;*
  unless (Chdir (str "./..")) nonzero (strn "%s: chdir ./.. failed") [A_s s] ;*
  let* fd := call (Open (str "dd/dd/ffff") 0) in
  fail_if (fd <? 0) (strn "%s: open dd/dd/ffff failed") [A_s s] ;*
  let* r := call (Read fd BUFSZ) in
  fail_if (negb (rlen r =? 2)) (strn "%s: read dd/dd/ffff wrong len") [A_s s] ;*
  call (Close fd) ;*
  unless (Open (str "dd/dd/ff") O_RDONLY) nonnegative (strn "%s: open (unlinked) dd/dd/ff succeeded!") [A_s s].

Definition subdir_refused (s : list Z) : U unit :=
  unless (Open (str "dd/ff/ff") CREATE_RDWR) nonnegative (strn "%s: create dd/ff/ff succeeded!") [A_s s] ;*
  unless (Open (str "dd/xx/ff") CREATE_RDWR) nonnegative (strn "%s: create dd/xx/ff succeeded!") [A_s s] ;*
  unless (Open (str "dd") O_CREATE) nonnegative (strn "%s: create dd succeeded!") [A_s s] ;*
  unless (Open (str "dd") O_RDWR) nonnegative (strn "%s: open dd rdwr succeeded!") [A_s s] ;*
  unless (Open (str "dd") O_WRONLY) nonnegative (strn "%s: open dd wronly succeeded!") [A_s s] ;*
  unless (Link (str "dd/ff/ff") (str "dd/dd/xx")) zero (strn "%s: link dd/ff/ff dd/dd/xx succeeded!") [A_s s] ;*
  unless (Link (str "dd/xx/ff") (str "dd/dd/xx")) zero (strn "%s: link dd/xx/ff dd/dd/xx succeeded!") [A_s s] ;*
  unless (Link (str "dd/ff") (str "dd/dd/ffff")) zero (strn "%s: link dd/ff dd/dd/ffff succeeded!") [A_s s] ;*
  unless (Mkdir (str "dd/ff/ff")) zero (strn "%s: mkdir dd/ff/ff succeeded!") [A_s s] ;*
  unless (Mkdir (str "dd/xx/ff")) zero (strn "%s: mkdir dd/xx/ff succeeded!") [A_s s] ;*
  unless (Mkdir (str "dd/dd/ffff")) zero (strn "%s: mkdir dd/dd/ffff succeeded!") [A_s s] ;*
  unless (Unlink (str "dd/xx/ff")) zero (strn "%s: unlink dd/xx/ff succeeded!") [A_s s] ;*
  unless (Unlink (str "dd/ff/ff")) zero (strn "%s: unlink dd/ff/ff succeeded!") [A_s s] ;*
  unless (Chdir (str "dd/ff")) zero (strn "%s: chdir dd/ff succeeded!") [A_s s] ;*
  unless (Chdir (str "dd/xx")) zero (strn "%s: chdir dd/xx succeeded!") [A_s s].

Definition subdir_remove (s : list Z) : U unit :=
  unless (Unlink (str "dd/dd/ffff")) nonzero (strn "%s: unlink dd/dd/ff failed") [A_s s] ;*
  unless (Unlink (str "dd/ff")) nonzero (strn "%s: unlink dd/ff failed") [A_s s] ;*
  unless (Unlink (str "dd")) zero (strn "%s: unlink non-empty dd succeeded!") [A_s s] ;*
  unless (Unlink (str "dd/dd")) negative (strn "%s: unlink dd/dd failed") [A_s s] ;*
  unless (Unlink (str "dd")) negative (strn "%s: unlink dd failed") [A_s s].

Definition subdir (s : list Z) : U unit :=
  subdir_make s ;* subdir_walk s ;* subdir_refused s ;* subdir_remove s.

(** ** Big files and long names *)

Definition bigwrite (s : list Z) : U unit :=
  call (Unlink (str "bigwrite")) ;*
  for_ ((BUFSZ - 499 + 470) / 471) (fun k =>
    let sz := 499 + 471 * k in
    let* fd := call (Open (str "bigwrite") CREATE_RDWR) in
    fail_if (fd <? 0) (strn "%s: cannot create bigwrite") [A_s s] ;*
    for_ 2 (fun _ =>
      let* cc := call (Write fd (take (Z.to_nat sz) buf0)) in
      fail_if (negb (cc =? sz)) (strn "%s: write(%d) ret %d") [A_s s; A_int sz; A_int cc]) ;*
    call (Close fd) ;*
    call (Unlink (str "bigwrite")) ;*
    Ret tt).

(** [i], [total] and [buf]. *)
Definition bigfile_read (s : list Z) (fd : Z) (st : Z * Z * list Z) : U ((Z * Z * list Z) + Z) :=
  let '(i, total, buf) := st in
  let* r := call (Read fd 300) in
  let cc := rlen r in
  let buf := into buf r in
  fail_if (cc <? 0) (strn "%s: read bigfile failed") [A_s s] ;*
  if cc =? 0 then Ret (inr total) else
  fail_if (negb (cc =? 300)) (strn "%s: short read bigfile") [A_s s] ;*
  fail_if (negb (at_ buf 0 =? i / 2) || negb (at_ buf 299 =? i / 2)) (strn "%s: read bigfile wrong data") [A_s s] ;*
  Ret (inl (i + 1, total + cc, buf)).

Definition bigfile (s : list Z) : U unit :=
  call (Unlink (str "bigfile.dat")) ;*
  let* fd := call (Open (str "bigfile.dat") CREATE_RDWR) in
  fail_if (fd <? 0) (str "%s: cannot create bigfile") [A_s s] ;*
  for_ 20 (fun i => unless (Write fd (replicate 600 i)) (not_ 600) (strn "%s: write bigfile failed") [A_s s]) ;*
  call (Close fd) ;*
  let* fd := call (Open (str "bigfile.dat") 0) in
  fail_if (fd <? 0) (strn "%s: cannot open bigfile") [A_s s] ;*
  let* total := ITree.iter (bigfile_read s fd) (0, 0, replicate 600 19 ++ drop 600 buf0) in
  call (Close fd) ;*
  fail_if (negb (total =? 20 * 600)) (strn "%s: read bigfile wrong total") [A_s s] ;*
  call (Unlink (str "bigfile.dat")) ;*
  Ret tt.

Definition fourteen (s : list Z) : U unit :=
  unless (Mkdir (str "12345678901234")) nonzero (strn "%s: mkdir 12345678901234 failed") [A_s s] ;*
  unless (Mkdir (str "12345678901234/123456789012345")) nonzero
    (strn "%s: mkdir 12345678901234/123456789012345 failed") [A_s s] ;*
  let* fd := call (Open (str "123456789012345/123456789012345/123456789012345") O_CREATE) in
  fail_if (fd <? 0) (strn "%s: create 123456789012345/123456789012345/123456789012345 failed") [A_s s] ;*
  call (Close fd) ;*
  let* fd := call (Open (str "12345678901234/12345678901234/12345678901234") 0) in
  fail_if (fd <? 0) (strn "%s: open 12345678901234/12345678901234/12345678901234 failed") [A_s s] ;*
  call (Close fd) ;*
  unless (Mkdir (str "12345678901234/12345678901234")) zero
    (strn "%s: mkdir 12345678901234/12345678901234 succeeded!") [A_s s] ;*
  unless (Mkdir (str "123456789012345/12345678901234")) zero
    (strn "%s: mkdir 12345678901234/123456789012345 succeeded!") [A_s s] ;*
  call (Unlink (str "123456789012345/12345678901234")) ;*
  call (Unlink (str "12345678901234/12345678901234")) ;*
  call (Unlink (str "12345678901234/12345678901234/12345678901234")) ;*
  call (Unlink (str "123456789012345/123456789012345/123456789012345")) ;*
  call (Unlink (str "12345678901234/123456789012345")) ;*
  call (Unlink (str "12345678901234")) ;*
  Ret tt.

Definition rmdot (s : list Z) : U unit :=
  unless (Mkdir (str "dots")) nonzero (strn "%s: mkdir dots failed") [A_s s] ;*
  unless (Chdir (str "dots")) nonzero (strn "%s: chdir dots failed") [A_s s] ;*
  unless (Unlink (str ".")) zero (strn "%s: rm . worked!") [A_s s] ;*
  unless (Unlink (str "..")) zero (strn "%s: rm .. worked!") [A_s s] ;*
  unless (Chdir (str "/")) nonzero (strn "%s: chdir / failed") [A_s s] ;*
  unless (Unlink (str "dots/.")) zero (strn "%s: unlink dots/. worked!") [A_s s] ;*
  unless (Unlink (str "dots/..")) zero (strn "%s: unlink dots/.. worked!") [A_s s] ;*
  unless (Unlink (str "dots")) nonzero (strn "%s: unlink dots failed!") [A_s s].

Definition dirfile (s : list Z) : U unit :=
  let* fd := call (Open (str "dirfile") O_CREATE) in
  fail_if (fd <? 0) (strn "%s: create dirfile failed") [A_s s] ;*
  call (Close fd) ;*
  unless (Chdir (str "dirfile")) zero (strn "%s: chdir dirfile succeeded!") [A_s s] ;*
  unless (Open (str "dirfile/xx") 0) nonnegative (strn "%s: create dirfile/xx succeeded!") [A_s s] ;*
  unless (Open (str "dirfile/xx") O_CREATE) nonnegative (strn "%s: create dirfile/xx succeeded!") [A_s s] ;*
  unless (Mkdir (str "dirfile/xx")) zero (strn "%s: mkdir dirfile/xx succeeded!") [A_s s] ;*
  unless (Unlink (str "dirfile/xx")) zero (strn "%s: unlink dirfile/xx succeeded!") [A_s s] ;*
  unless (Link (str "README") (str "dirfile/xx")) zero (strn "%s: link to dirfile/xx succeeded!") [A_s s] ;*
  unless (Unlink (str "dirfile")) nonzero (strn "%s: unlink dirfile failed!") [A_s s] ;*
  unless (Open (str ".") O_RDWR) nonnegative (strn "%s: open . for writing succeeded!") [A_s s] ;*
  let* fd := call (Open (str ".") 0) in
  unless (Write fd (str "x")) (fun r => 0 <? r) (strn "%s: write . succeeded!") [A_s s] ;*
  call (Close fd) ;*
  Ret tt.

Definition iref (s : list Z) : U unit :=
  let close_fd (fd : Z) : U unit := if 0 <=? fd then call (Close fd) ;* Ret tt else Ret tt in
  for_ (Z.of_nat NINODE + 1) (fun _ =>
    unless (Mkdir (str "irefd")) nonzero (strn "%s: mkdir irefd failed") [A_s s] ;*
    unless (Chdir (str "irefd")) nonzero (strn "%s: chdir irefd failed") [A_s s] ;*
    call (Mkdir []) ;*
    call (Link (str "README") []) ;*
    let* fd := call (Open [] O_CREATE) in
    close_fd fd ;*
    let* fd := call (Open (str "xx") O_CREATE) in
    close_fd fd ;*
    call (Unlink (str "xx")) ;*
    Ret tt) ;*
  for_ (Z.of_nat NINODE + 1) (fun _ =>
    call (Chdir (str "..")) ;*
    call (Unlink (str "irefd")) ;*
    Ret tt) ;*
  call (Chdir (str "/")) ;*
  Ret tt.

(** ** A full disk *)

Definition fsfull_name (n : Z) : list Z :=
  [102; 48 + n / 1000; 48 + (n `mod` 1000) / 100; 48 + (n `mod` 100) / 10; 48 + n `mod` 10].

Definition fsfull_write (fd total : Z) : U (Z + Z) :=
  let* cc := call (Write fd (take (Z.to_nat BSIZE) buf0)) in
  if cc <? BSIZE then Ret (inr total) else Ret (inl (total + cc)).
Definition fsfull_file (nfiles : Z) : U (Z + Z) :=
  let name := fsfull_name nfiles in
  printf (strn "writing %s") [A_s name] ;*
  let* fd := call (Open name CREATE_RDWR) in
  if fd <? 0 then printf (strn "open %s failed") [A_s name] ;* Ret (inr nfiles) else
  let* total := ITree.iter (fsfull_write fd) 0 in
  printf (strn "wrote %d bytes") [A_int total] ;*
  call (Close fd) ;*
  if total =? 0 then Ret (inr nfiles) else Ret (inl (nfiles + 1)).
Definition fsfull : U unit :=
  printf (strn "fsfull test") [] ;*
  let* nfiles := ITree.iter fsfull_file 0 in
  each (rev (seqZ 0 (nfiles + 1))) (fun n => call (Unlink (fsfull_name n)) ;* Ret tt) ;*
  printf (strn "fsfull test finished") [].

Definition bigdir_name (i : Z) : list Z := [120; 48 + i / 64; 48 + i `mod` 64].
Definition bigdir (s : list Z) : U unit :=
  call (Unlink (str "bd")) ;*
  let* fd := call (Open (str "bd") O_CREATE) in
  fail_if (fd <? 0) (strn "%s: bigdir create failed") [A_s s] ;*
  call (Close fd) ;*
  for_ 500 (fun i =>
    unless (Link (str "bd") (bigdir_name i)) nonzero (strn "%s: bigdir link(bd, %s) failed") [A_s s; A_s (bigdir_name i)]) ;*
  call (Unlink (str "bd")) ;*
  for_ 500 (fun i => unless (Unlink (bigdir_name i)) nonzero (str "%s: bigdir unlink failed") [A_s s]).

Definition manywrites (s : list Z) : U unit :=
  for_ 4 (fun ci =>
    fork_child (strn "fork failed") []
      (let name := [98; 97 + ci] in
       call (Unlink name) ;*
       for_ 30 (fun _ =>
         for_ (ci + 1) (fun _ =>
           let* fd := call (Open name CREATE_RDWR) in
           fail_if (fd <? 0) (strn "%s: cannot create %s") [A_s s; A_s name] ;*
           let* cc := call (Write fd buf0) in
           fail_if (negb (cc =? BUFSZ)) (strn "%s: write(%d) ret %d") [A_s s; A_int BUFSZ; A_int cc] ;*
           call (Close fd) ;*
           Ret tt) ;*
         call (Unlink name) ;*
         Ret tt) ;*
       call (Unlink name) ;*
       exit 0) ;*
    Ret tt) ;*
  for_ 4 (fun _ => let* w := wait_st 0 in if negb (snd w =? 0) then exit (snd w) else Ret tt) ;*
  exit 0.

Definition badwrite (s : list Z) : U unit :=
  call (Unlink (str "junk")) ;*
  for_ 600 (fun _ =>
    let* fd := call (Open (str "junk") (Z.lor O_CREATE O_WRONLY)) in
    fail_if (fd <? 0) (strn "open junk failed") [] ;*
    raw SYS_write [Val fd; Val 0xffffffffff; Val 1] ;*
    call (Close fd) ;*
    call (Unlink (str "junk")) ;*
    Ret tt) ;*
  let* fd := call (Open (str "junk") (Z.lor O_CREATE O_WRONLY)) in
  fail_if (fd <? 0) (strn "open junk failed") [] ;*
  unless (Write fd (str "x")) (not_ 1) (strn "write failed") [] ;*
  call (Close fd) ;*
  call (Unlink (str "junk")) ;*
  exit 0.

Definition CREATE_TRUNC : Z := Z.lor O_CREATE (Z.lor O_RDWR O_TRUNC).
Definition big_name (fi : Z) : list Z := [98; 105; 103; 48 + fi].
Definition zz_name (i : Z) : list Z := [122; 122; 48 + i / 32; 48 + i `mod` 32].

(** Writes of blocks until one fails; [false] then. *)
Fixpoint diskfull_fill (n : nat) (fd : Z) : U bool :=
  match n with
  | O => Ret true
  | S n =>
    let* r := call (Write fd (replicate (Z.to_nat BSIZE) (u8 junk))) in
    if negb (r =? BSIZE) then Ret false else diskfull_fill n fd
  end.
(** One file after the other until the disk is full; the number of files. *)
Definition diskfull_file (s : list Z) (fi : Z) : U (Z + Z) :=
  call (Unlink (big_name fi)) ;*
  let* fd := call (Open (big_name fi) CREATE_TRUNC) in
  if fd <? 0 then
    printf (strn "%s: could not create file %s") [A_s s; A_s (big_name fi)] ;*
    Ret (inr fi)
  else
    let* more := diskfull_fill (Z.to_nat MAXFILE) fd in
    (if more : bool then Ret tt else call (Close fd) ;* Ret tt) ;*
    call (Close fd) ;*
    Ret (if more then inl (fi + 1) else inr (fi + 1)).
(** Empty files until one cannot be created. *)
Definition create_zz (nzz : Z) : U unit :=
  each_while (seqZ 0 nzz) (fun i =>
    call (Unlink (zz_name i)) ;*
    let* fd := call (Open (zz_name i) CREATE_TRUNC) in
    if fd <? 0 then Ret false else call (Close fd) ;* Ret true).
Definition unlink_zz (nzz : Z) : U unit := for_ nzz (fun i => call (Unlink (zz_name i)) ;* Ret tt).

Definition diskfull (s : list Z) : U unit :=
  call (Unlink (str "diskfulldir")) ;*
  let* fi := ITree.iter (diskfull_file s) 0 in
  create_zz 128 ;*
  let* r := call (Mkdir (str "diskfulldir")) in
  (if r =? 0 then printf (strn "%s: mkdir(diskfulldir) unexpectedly succeeded!") [] else Ret tt) ;*
  call (Unlink (str "diskfulldir")) ;*
  unlink_zz 128 ;*
  for_ fi (fun i => call (Unlink (big_name i)) ;* Ret tt).

Definition outofinodes (s : list Z) : U unit :=
  let nzz := 32 * 32 in
  create_zz nzz ;*
  unlink_zz nzz.
End Tests.
