(* ===== verification/UtestsMain.v ===== *)
(** * The system call tests (user/usertests.c): the tables and the driver.

    The driver takes the tables as arguments, so that a part of the suite can
    be run. *)

From ITree Require Import ITree.
From S2P Require Import Prelude Defs Mem Trap Uart Usys Umalloc Ulib Utests UtestsProc UtestsFs.
Local Open Scope user_scope.

Definition test : Type := (list Z -> U unit) * list Z.

(** ** The driver *)

Section Driver.
Variable junk : Z.

Definition run (f : list Z -> U unit) (s : list Z) : U bool :=
  printf (str "test %s: ") [A_s s] ;*
  let* pid := call Fork in
  fail_if (pid <? 0) (strn "runtest: fork error") [] ;*
  (if pid =? 0 then f s ;* exit 0 else Ret tt) ;*
  let* w := wait_st junk in
  (if negb (snd w =? 0) then printf (strn "FAILED") [] else printf (strn "OK") []) ;*
  Ret (snd w =? 0).

(** 1 when a test fails. *)
Fixpoint runtests (tests : list test) (justone : option (list Z)) : U Z :=
  match tests with
  | [] => Ret 0
  | (f, s) :: tests =>
    let* ok := (if match justone with None => true | Some name => strcmp s name =? 0 end then run f s else Ret true) in
    if ok : bool then runtests tests justone
    else printf (strn "SOME TESTS FAILED") [] ;* Ret 1
  end.

(** The child takes pages until there are none and reports each. *)
Definition countfree_page (fd1 : Z) (_ : unit) : U (unit + unit) :=
  let* a := call (Sbrk 4096) in
  if a =? ALLONES then Ret (inr tt) else
  call (Store (u64 (a + 4096 - 1)) 1) ;*
  let* r := call (Write fd1 (str "x")) in
  fail_if (negb (r =? 1)) (strn "write() failed in countfree()") [] ;*
  Ret (inl tt).
Definition countfree_read (fd0 n : Z) : U (Z + Z) :=
  let* r := call (Read fd0 1) in
  fail_if (rlen r <? 0) (strn "read() failed in countfree()") [] ;*
  Ret (if rlen r =? 0 then inr n else inl (n + 1)).

Definition countfree : U Z :=
  let* fds := call Pipe in
  fail_if (bool_decide (fds = None)) (strn "pipe() failed in countfree()") [] ;*
  let (fd0, fd1) := default (junk, junk) fds in
  fork_child (strn "fork failed in countfree()") []
    (call (Close fd0) ;*
     ITree.iter (countfree_page fd1) tt ;*
     exit 0) ;*
  call (Close fd1) ;*
  let* n := ITree.iter (countfree_read fd0) 0 in
  call (Close fd0) ;*
  call Wait ;*
  Ret n.

(** A round of the loop of drivetests(): the value to return, or the loop
    goes on as [continuous] says. *)
Definition drivetests_round (quicktests slowtests : list test) (quick continuous : Z) (justone : option (list Z)) : U (unit + Z) :=
  printf (strn "usertests starting") [] ;*
  let* free0 := countfree in
  let* r := runtests quicktests justone in
  if negb (r =? 0) && negb (continuous =? 2) then Ret (inr 1) else
  let* stop :=
    (if quick =? 0 then
       (if bool_decide (justone = None) then printf (strn "usertests slow tests starting") [] else Ret tt) ;*
       let* r := runtests slowtests justone in
       Ret (negb (r =? 0) && negb (continuous =? 2))
     else Ret false) in
  if stop : bool then Ret (inr 1) else
  let* free1 := countfree in
  let* stop :=
    (if free1 <? free0 then
       printf (strn "FAILED -- lost some free pages %d (out of %d)") [A_int free1; A_int free0] ;*
       Ret (negb (continuous =? 2))
     else Ret false) in
  if stop : bool then Ret (inr 1) else
  Ret (if negb (continuous =? 0) then inl tt else inr 0).
Definition drivetests (quicktests slowtests : list test) (quick continuous : Z) (justone : option (list Z)) : U Z :=
  ITree.iter (fun _ : unit => drivetests_round quicktests slowtests quick continuous justone) tt.

Definition main (quicktests slowtests : list test) (argv : list (list Z)) : U unit :=
  let go (quick continuous : Z) (justone : option (list Z)) : U unit :=
    let* r := drivetests quicktests slowtests quick continuous justone in
    (if negb (r =? 0) then exit 1 else Ret tt) ;*
    printf (strn "ALL TESTS PASSED") [] ;*
    exit 0 in
  match argv with
  | [_; a] =>
    if strcmp a (str "-q") =? 0 then go 1 0 None
    else if strcmp a (str "-c") =? 0 then go 0 1 None
    else if strcmp a (str "-C") =? 0 then go 0 2 None
    else if negb (at_ a 0 =? 45) then go 0 0 (Some a)
    else printf (strn "Usage: usertests [-c] [-C] [-q] [testname]") [] ;* exit 1
  | _ :: _ :: _ => printf (strn "Usage: usertests [-c] [-C] [-q] [testname]") [] ;* exit 1
  | _ => go 0 0 None
  end.

(** ** The tables *)

Section Tables.
Context `{UserHeap} (N : nat) (h0 : heap) (uninit : list Z) (sp : Z).

Definition quicktests : list test := [
  (copyin junk, str "copyin");
  (copyout junk, str "copyout");
  (copyinstr1, str "copyinstr1");
  (copyinstr2, str "copyinstr2");
  (copyinstr3, str "copyinstr3");
  (rwsbrk, str "rwsbrk");
  (truncate1, str "truncate1");
  (truncate2, str "truncate2");
  (truncate3 junk, str "truncate3");
  (openiputtest junk, str "openiput");
  (exitiputtest junk, str "exitiput");
  (iputtest, str "iput");
  (opentest, str "opentest");
  (writetest, str "writetest");
  (writebig, str "writebig");
  (createtest, str "createtest");
  (dirtest, str "dirtest");
  (exectest junk, str "exectest");
  (pipe1 junk, str "pipe1");
  (killstatus junk, str "killstatus");
  (preempt junk, str "preempt");
  (exitwait junk, str "exitwait");
  (reparent, str "reparent");
  (twochildren, str "twochildren");
  (forkfork junk, str "forkfork");
  (forkforkfork, str "forkforkfork");
  (reparent2, str "reparent2");
  (mem junk N h0, str "mem");
  (sharedfd junk, str "sharedfd");
  (fourfiles junk, str "fourfiles");
  (createdelete junk, str "createdelete");
  (unlinkread, str "unlinkread");
  (linktest, str "linktest");
  (concreate junk, str "concreate");
  (linkunlink, str "linkunlink");
  (subdir, str "subdir");
  (bigwrite, str "bigwrite");
  (bigfile, str "bigfile");
  (fourteen, str "fourteen");
  (rmdot, str "rmdot");
  (dirfile, str "dirfile");
  (iref, str "iref");
  (forktest, str "forktest");
  (sbrkbasic junk, str "sbrkbasic");
  (sbrkmuch, str "sbrkmuch");
  (kernmem junk, str "kernmem");
  (MAXVAplus junk, str "MAXVAplus");
  (sbrkfail junk, str "sbrkfail");
  (sbrkarg, str "sbrkarg");
  (validatetest, str "validatetest");
  (bsstest uninit, str "bsstest");
  (bigargtest junk, str "bigargtest");
  (argptest, str "argptest");
  (stacktest junk sp, str "stacktest");
  (textwrite junk, str "textwrite");
  (pgbug, str "pgbug");
  (sbrkbugs, str "sbrkbugs");
  (sbrklast, str "sbrklast");
  (sbrk8000, str "sbrk8000");
  (badarg, str "badarg")].

Definition slowtests : list test := [
  (bigdir, str "bigdir");
  (manywrites, str "manywrites");
  (badwrite, str "badwrite");
  (execout, str "execout");
  (diskfull junk, str "diskfull");
  (outofinodes, str "outofinodes")].
End Tables.
End Driver.
