(* ===== verification/System.v ===== *)
(** * The running system: one hart, the kernel and user processes.

    Everything above is put together.  A process is a user program, an
    interaction tree over its system calls (Usys.v).  A call is made the way
    usys.S makes it: the number goes to a7, the arguments to a0 to a2, strings
    and buffers lie in the memory of the process, and ecall traps into the
    kernel, whose usertrap() dispatches it.  A process that sleeps, exits or
    yields ends up in swtch(); the hart is then in scheduler(), which picks the
    next one.  A new process starts in forkret().  The timer interrupts a
    process that has gone around [period] loops since the last tick, and a hart
    that waits because nothing is runnable; a waiting hart is interrupted by
    the serial port instead when a character has been typed.

    exec() replaces a program by the one of the file's name, whose arguments
    are what the kernel has put on its stack.

    [step] is one step of that machine, [steps] a number of them. *)

From ITree Require Import ITree.
From S2P Require Import Prelude Defs KMonad Lock Mem Kalloc Sched Sleeplock Bio Log Vm Pipe Uart Fs Console File Proc Exec Sysfile Virtio Trap Usys.

(** ** User space *)

(** Where the program keeps the arguments of its calls: two strings, the
    pointers of argv and its strings, and a buffer. *)
Record uspace := mk_uspace { u_str1 : Z; u_str2 : Z; u_argv : Z; u_args : Z; u_buf : Z }.

(** The registers of a call. *)
Definition with_regs (n a0 a1 a2 : Z) (t : trapframe) : trapframe :=
  mk_trapframe (tf_kernel_satp t) (tf_kernel_sp t) (tf_kernel_trap t) (tf_epc t) (tf_kernel_hartid t) (tf_ra t) (tf_sp t)
    (tf_gp t) (tf_tp t) (tf_t0 t) (tf_t1 t) (tf_t2 t) (tf_s0 t) (tf_s1 t) (u64 a0) (u64 a1) (u64 a2) (tf_a3 t)
    (tf_a4 t) (tf_a5 t) (tf_a6 t) (u64 n) (tf_s2 t) (tf_s3 t) (tf_s4 t) (tf_s5 t) (tf_s6 t) (tf_s7 t) (tf_s8 t)
    (tf_s9 t) (tf_s10 t) (tf_s11 t) (tf_t3 t) (tf_t4 t) (tf_t5 t) (tf_t6 t).

(** The strings of argv one after the other from [a], each with its NUL, and
    their addresses. *)
Fixpoint lay_args (a : Z) (argv : list (list Z)) : list Z * list Z :=
  match argv with
  | [] => ([], [])
  | x :: argv => let '(bs, ps) := lay_args (a + Z.of_nat (length x) + 1) argv in (x ++ 0 :: bs, a :: ps)
  end.

(** The system call an event stands for: its number, its arguments and the
    bytes of them that are in memory. *)
Definition encode (u : uspace) {X} (e : sysE X) : option (Z * (Z * Z * Z) * list (Z * list Z)) :=
  let c (n : sysno) (a0 a1 a2 : Z) (m : list (Z * list Z)) := Some (sysnum n, (a0, a1, a2), m) in
  let s1 (path : list Z) := [(u_str1 u, path ++ [0])] in
  match e with
  | Fork => c SYS_fork 0 0 0 []
  | Exit st => c SYS_exit st 0 0 []
  | Wait => c SYS_wait 0 0 0 []
  | Wait_status => c SYS_wait (u_buf u) 0 0 []
  | Usys.Pipe => c SYS_pipe (u_buf u) 0 0 []
  | Write fd bs => c SYS_write fd (u_buf u) (Z.of_nat (length bs)) [(u_buf u, bs)]
  | Read fd n => c SYS_read fd (u_buf u) n []
  | Close fd => c SYS_close fd 0 0 []
  | Kill pid => c SYS_kill pid 0 0 []
  | Usys.Exec path argv =>
    let '(bs, ps) := lay_args (u_args u) argv in
    c SYS_exec (u_str1 u) (u_argv u) 0 (s1 path ++ [(u_args u, bs); (u_argv u, mjoin (le_bytes 8 <$> (ps ++ [0])))])
  | Open path mode => c SYS_open (u_str1 u) mode 0 (s1 path)
  | Mknod path major minor => c SYS_mknod (u_str1 u) major minor (s1 path)
  | Unlink path => c SYS_unlink (u_str1 u) 0 0 (s1 path)
  | Fstat fd => c SYS_fstat fd (u_buf u) 0 []
  | Link old new => c SYS_link (u_str1 u) (u_str2 u) 0 (s1 old ++ [(u_str2 u, new ++ [0])])
  | Mkdir path => c SYS_mkdir (u_str1 u) 0 0 (s1 path)
  | Chdir path => c SYS_chdir (u_str1 u) 0 0 (s1 path)
  | Dup fd => c SYS_dup fd 0 0 []
  | Getpid => c SYS_getpid 0 0 0 []
  | Sbrk n => c SYS_sbrk n 0 0 []
  | Usys.Sleep n => c SYS_sleep n 0 0 []
  | Uptime => c SYS_uptime 0 0 0 []
  | Ecall n args =>
    let place (i : nat) (a : Z) : Z * list (Z * list Z) :=
      match args !! i with Some (Val x) => (x, []) | Some (Ref bs) => (a, [(a, bs)]) | None => (0, []) end in
    let '(x0, m0) := place 0%nat (u_str1 u) in
    let '(x1, m1) := place 1%nat (u_str2 u) in
    let '(x2, m2) := place 2%nat (u_buf u) in
    Some (n, (x0, x1, x2), m0 ++ m1 ++ m2)
  | Load _ | Store _ _ => None
  end.

Section System.
Context `{Fuel, BlockDevice, KernelImage, Uart, Virtio, Plic, TrapVectors}.
Context (u : uspace) (period : nat) (programs : list Z -> list (list Z) -> U unit) (receive : Z -> K unit).

(** The process accesses its memory through its page table; a page it may not
    access that way faults. *)
Definition may_access (pagetable va perm : Z) : K bool :=
  if MAXVA <=? va then ret false else
  let! pte := walk pagetable va false in
  if pte =? 0 then ret false else
  let! e := load_pte pte in
  ret (has e PTE_V && has e PTE_U && has e perm).
Definition user_store (p : nat) (a v : Z) : K bool :=
  let! pr := proc_of p in
  let! ok := may_access (p_pagetable pr) a PTE_W in
  if ok : bool then let! _ := copyout (p_pagetable pr) a [v] in ret true else ret false.
Definition user_load (p : nat) (a : Z) : K (option Z) :=
  let! pr := proc_of p in
  let! ok := may_access (p_pagetable pr) a PTE_R in
  if ok : bool then let! r := copyin (p_pagetable pr) a 1 in ret (head (snd r)) else ret None.

(** The objects of the program, which are in memory it has. *)
Definition user_put (p : nat) (a : Z) (bs : list Z) : K unit :=
  let! pr := proc_of p in
  let! r := copyout (p_pagetable pr) a bs in if r <? 0 then fault else ret tt.
Definition user_bytes (p : nat) (a n : Z) : K (list Z) :=
  let! pr := proc_of p in
  let! r := copyin (p_pagetable pr) a n in if fst r <? 0 then fault else ret (snd r).
Definition user_string (p : nat) (a : Z) : K (list Z) :=
  let! pr := proc_of p in
  let! r := copyinstr (p_pagetable pr) a PGSIZE in if fst r <? 0 then fault else ret (removelast (snd r)).
Fixpoint user_strings (p : nat) (n : nat) (a : Z) : K (list (list Z)) :=
  match n with
  | O => ret []
  | S n =>
    let! ptr := user_bytes p a 8 in
    let! x := user_string p (le_val ptr) in
    let! l := user_strings p n (a + 8) in
    ret (x :: l)
  end.

(** The hart takes a trap: interrupts go off, SPP and SPIE keep what was. *)
Definition take_trap (scause stval : Z) (from_kernel : bool) : K unit :=
  let! sie := get ks_sie in
  set_csr (fun c => mk_csrst scause (r_sepc c) from_kernel sie stval (r_stvec c) (r_satp c) (r_sip c)) ;;
  modify (fun s => s <| ks_sie := false |>).
(** sret: interrupts as SPIE says. *)
Definition sret : K unit :=
  let! c := csr_of in modify (fun s => s <| ks_sie := r_spie c |>).

Definition ecall (p : nat) (n : Z) (args : Z * Z * Z) (m : list (Z * list Z)) : K (Z * Z) :=
  for_each m (fun '(a, bs) => user_put p a bs) ;;
  let! pr := proc_of p in
  let '(a0, a1, a2) := args in
  set_tf (p_trapframe pr) (with_regs n a0 a1 a2) ;;
  take_trap 8 0 false ;;
  usertrap.

(** The result register of the process. *)
Definition result (p : nat) : K Z :=
  let! pr := proc_of p in let! t := tf_of (p_trapframe pr) in ret (tf_a0 t).
Definition rd_stat (bs : list Z) : stat :=
  mk_stat (i32 (rd32 bs 0)) (rd32 bs 4) (i16 (rd16 bs 8)) (i16 (rd16 bs 10)) (le_val (take 8 (drop 16 bs))).

(** What the program sees of the answer. *)
Definition answer (p : nat) {X} (e : sysE X) : K X :=
  let! a0 := result p in
  let r := i32 a0 in
  match e in sysE X return K X with
  | Exit _ => fault
  | Wait_status => if r <? 0 then ret None else let! bs := user_bytes p (u_buf u) 4 in ret (Some (r, i32 (rd32 bs 0)))
  | Usys.Pipe =>
    if r <? 0 then ret None else
    let! bs := user_bytes p (u_buf u) 8 in ret (Some (i32 (rd32 bs 0), i32 (rd32 bs 4)))
  | Read _ _ => if r <? 0 then ret None else let! bs := user_bytes p (u_buf u) r in ret (Some bs)
  | Fstat _ => if r <? 0 then ret None else let! bs := user_bytes p (u_buf u) 24 in ret (Some (rd_stat bs))
  | Sbrk _ => ret a0
  | Load _ => fault
  | Store _ _ => fault
  | _ => ret r
  end.

(** exec() has replaced the program: the new one has argc in a0, argv in a1. *)
Definition loaded (p : nat) : K (U unit) :=
  let! pr := proc_of p in
  let! t := tf_of (p_trapframe pr) in
  let! argv := user_strings p (Z.to_nat (tf_a0 t)) (tf_a1 t) in
  ret (programs (c_str (p_name pr)) argv).

(** The program that runs after call number [n]. *)
Definition resume (p : nat) (n : Z) {X} (e : sysE X) (k : X -> U unit) : K (U unit) :=
  let! a0 := result p in
  if (n =? sysnum SYS_exec) && (0 <=? i32 a0) then loaded p
  else let! x := answer p e in ret (k x).

(** ** The machine *)

(** A process inside the kernel: the rest of the kernel's work for it, the
    program that goes on when the kernel returns to it, and the program of the
    child when the call is fork(). *)
Record task := mk_task { tk_kernel : kstate -> out (Z * Z); tk_user : K (U unit); tk_child : option (U unit) }.

Inductive mode :=
  | In_user (p : nat) (t : U unit) (s : kstate)
  | In_kernel (p : nat) (o : out (Z * Z)) (after : K (U unit)) (child : option (U unit))
  | In_scheduler (o : out unit).

(** Where the hart is, the processes it has left, the rest of scheduler(), the
    loops until the next tick, and the characters that will be typed. *)
Record config := mk_config {
  cf_mode : mode; cf_tasks : gmap nat task; cf_sched : kstate -> out unit; cf_clock : nat; cf_input : list Z
}.

(** A call of process [p] that continues with [k]. *)
Definition make_call (p : nat) {X} (e : sysE X) (k : X -> U unit) (s : kstate) : mode :=
  match e in sysE X return (X -> U unit) -> mode with
  | Load a => fun k =>
    match user_load p a s with
    | Done (Some v) s => In_user p (k v) s
    | _ => In_kernel p ((take_trap 13 a false ;; usertrap) s) fault None
    end
  | Store a v => fun k =>
    match user_store p a v s with
    | Done true s => In_user p (k tt) s
    | _ => In_kernel p ((take_trap 15 a false ;; usertrap) s) fault None
    end
  | e => fun k =>
    match encode u e with
    | Some (n, args, m) =>
      In_kernel p (ecall p n args m s) (resume p n e k)
        (match e in sysE X return (X -> U unit) -> option (U unit) with Fork => fun k => Some (k 0) | _ => fun _ => None end k)
    | None => In_kernel p Fault fault None
    end
  end k.

(** The slot of the process table with a pid. *)
Definition slot_of_pid (pid : Z) (s : kstate) : option nat :=
  fst <$> list_find (fun pr => p_pid pr = pid) (ks_proc s).

(** fork() has returned: the child will start in forkret(). *)
Definition add_child (pid : Z) (child : option (U unit)) (s : kstate) (m : gmap nat task) : gmap nat task :=
  match child, slot_of_pid pid s with
  | Some t, Some q => if 0 <? pid then <[q := mk_task forkret (ret t) None]> m else m
  | _, _ => m
  end.

(** The timer interrupts the waiting hart, or a process. *)
Definition TIMER : Z := 0x8000000000000001.
Definition timer_interrupt : K unit := take_trap TIMER 0 true ;; kerneltrap ;; sret.
(** The serial port has received [c]; [receive] is what its registers show. *)
Definition EXTERNAL : Z := 0x8000000000000009.
Definition uart_interrupt (c : Z) : K unit := receive c ;; take_trap EXTERNAL 0 true ;; kerneltrap ;; sret.
Definition preempted (p : nat) (t : U unit) (s : kstate) : mode :=
  In_kernel p ((take_trap TIMER 0 false ;; usertrap) s) (ret t) None.

(** One step; [None] when there is none: a program has come to its end, the
    kernel has panicked, or the scheduler has made all its rounds. *)
Definition step (c : config) : option config :=
  let 'mk_config md tasks sched clock input := c in
  match md with
  | In_user p t s =>
    match observe t with
    | RetF _ => None
    | TauF t =>
      match clock with
      | O => Some (mk_config (preempted p t s) tasks sched period input)
      | S clock => Some (mk_config (In_user p t s) tasks sched clock input)
      end
    | VisF e k => Some (mk_config (make_call p e k s) tasks sched clock input)
    end
  | In_kernel p (Done _ s) after child =>
    match (sret ;; let! pid := result p in let! t := after in ret (pid, t)) s with
    | Done (pid, t) s => Some (mk_config (In_user p t s) (add_child (i32 pid) child s tasks) sched clock input)
    | _ => None
    end
  | In_kernel p (Yield (Swtch _) s k) after child =>
    Some (mk_config (In_scheduler (sched s)) (<[p := mk_task k after child]> tasks) sched clock input)
  | In_scheduler (Yield (Dispatch q) s k) =>
    match tasks !! q with
    | Some t => Some (mk_config (In_kernel q (tk_kernel t s) (tk_user t) (tk_child t)) tasks k clock input)
    | None => None
    end
  | In_scheduler (Yield Wfi s k) =>
    match input with
    | c :: input => Some (mk_config (In_scheduler (obind (uart_interrupt c s) (fun _ => k))) tasks sched clock input)
    | [] => Some (mk_config (In_scheduler (obind (timer_interrupt s) (fun _ => k))) tasks sched period [])
    end
  | _ => None
  end.

Fixpoint steps (n : nat) (c : config) : config :=
  match n with
  | O => c
  | S n => match step c with Some c => steps n c | None => c end
  end.

(** The machine that starts with [o], main() of the hart; the first process, in
    slot 0, will run [t], and [input] will be typed. *)
Definition power_on (o : out unit) (t : U unit) (input : list Z) : config :=
  mk_config (In_scheduler o) {[0%nat := mk_task forkret (ret t) None]} (fun _ => OutOfFuel) period input.

(** The state of the kernel, unless it has panicked or its code is stuck. *)
Definition state_of (c : config) : option kstate :=
  match cf_mode c with
  | In_user _ _ s | In_kernel _ (Done _ s) _ _ | In_kernel _ (Yield _ s _) _ _
  | In_scheduler (Done _ s) | In_scheduler (Yield _ s _) => Some s
  | _ => None
  end.
(** What has been sent to the serial port. *)
Definition console (c : config) : option (list Z) := (fun s => rev (ks_uart s)) <$> state_of c.
End System.
