(* ===== verification/Utest.v ===== *)
(** * The test command (user/test.c).

    A conditional expression is evaluated and its result printed.  An argument
    is a C string (the characters before its NUL). *)

From ITree Require Import ITree.
From S2P Require Import Prelude Defs Uart Usys Ulib.
Local Open Scope user_scope.

(** ** Code *)

Definition usageString : list Z :=
  strn "Command			Description" ++
  strn "-d file			True if file exists and is a directory." ++
  strn "-e file			True if file exists (regardless of type)." ++
  strn "-f file			True if file exists and is a regular file." ++
  strn "file1 -ef file2		True if file1 and file2 exist and refer to the same file." ++
  strn "s1 = s2			True if the strings s1 and s2 are identical." ++
  strn "s1 != s2		True if the strings s1 and s2 are not identical." ++
  strn "n1 -gt n2		True if the integer n1 is algebraically greater than the integer n2." ++
  strn "n1 -lt n2		True if the integer n1 is algebraically less than the integer n2.".

Definition isInt (s : list Z) : bool := forallb (fun c => (48 <=? c) && (c <=? 57)) s.

(** The descriptor, closed again, and what fstat() stored. *)
Definition openFile (file : list Z) : U (Z * option stat) :=
  let* fd := call (Open file O_RDONLY) in
  let* info :=
    if fd <? 0 then printf (strn "Couldn't open file: %s") [A_str (Some file)] ;* Ret None
    else call (Fstat fd) in
  call (Close fd) ;*
  Ret (fd, info).

Definition streq (a b : list Z) : bool := strcmp a b =? 0.

Definition unknown (msg what : list Z) : U Z :=
  printf (msg ++ strn " %s " ++ [10] ++ strn "%s ") [A_str (Some what); A_str (Some usageString)] ;* Ret 2.

(** fstat() of an open descriptor succeeds; [info] is what it stored. *)
Definition is_type (info : option stat) (t : Z) : bool := match info with Some st => st_type st =? t | None => false end.

Definition fileFlags (flag file : list Z) : U Z :=
  if negb (existsb (streq flag) [str "-d"; str "-e"; str "-f"]) then unknown (str "Unknown file flag:") flag else
  let* r := openFile file in
  let (fd, info) := r : Z * option stat in
  if fd <? 0 then Ret 1 else
  if streq flag (str "-d") then
    if is_type info 1 then printf (strn "Type: %d") [A_int 1] ;* Ret 0 else Ret 1
  else if streq flag (str "-e") then Ret 0
  else if streq flag (str "-f") then if is_type info 2 then Ret 0 else Ret 1
  else unknown (str "Unknown file flag:") flag.

Definition stringOperators (string1 string2 operator : list Z) : U Z :=
  if streq operator (str "=") then Ret (if streq string1 string2 then 0 else 1)
  else if streq operator (str "!=") then Ret (if negb (streq string1 string2) then 0 else 1)
  else unknown (str "Unknown string comparison:") operator.

Definition numberOperators (num1 num2 flag : list Z) : U Z :=
  if negb (isInt num1) then unknown (str "Not a number:") num1 else
  if negb (isInt num2) then unknown (str "Not a number:") num2 else
  let firstNum := atoi num1 in
  let secondNum := atoi num2 in
  if streq flag (str "-lt") then Ret (if firstNum <? secondNum then 0 else 1)
  else if streq flag (str "-gt") then Ret (if secondNum <? firstNum then 0 else 1)
  else unknown (str "Unknown number flag:") flag.

(** The result of parseArgs(): the arguments; a quote that is not closed; a
    string that does not fit in [buf], or an empty word in a string, whose
    last character does not exist, where the C code is undefined. *)
Inductive parsed := Args (l : list (list Z)) | MissingQuote | Undefined.

(** The inner loop: [acc] is the text of [buf] before [ptrBuf]. *)
Fixpoint quoted (acc : list Z) (argv : list (list Z)) : option (option (list Z * list (list Z))) :=
  match argv with
  | [] => Some None
  | w :: argv =>
    match last w with
    | None => None
    | Some c =>
      if (128 <=? length (acc ++ w))%nat then None
      else if c =? 34 then Some (Some (acc ++ w, argv))
      else quoted (acc ++ w ++ [32]) argv
    end
  end.

(** [n] rounds are enough when there are no more arguments. *)
Fixpoint parseArgs (n : nat) (argv : list (list Z)) : parsed :=
  match n, argv with
  | S n, w :: rest =>
    if default 0 (head w) =? 34 then
      match quoted [] argv with
      | Some (Some (s, rest)) => match parseArgs n rest with Args l => Args (s :: l) | r => r end
      | Some None => MissingQuote
      | None => Undefined
      end
    else match parseArgs n rest with Args l => Args (w :: l) | r => r end
  | _, _ => Args []
  end.

Definition usage (msg : list Z) : U Z :=
  printf (msg ++ [10; 10] ++ strn "%s ") [A_str (Some usageString)] ;* Ret 2.

(** The branches of main() once the arguments are known. *)
Definition evaluate (l : list (list Z)) : U Z :=
  match l with
  | a0 :: a1 :: l' =>
    if default 0 (head a1) =? 45 then
      match l' with
      | a2 :: _ => fileFlags a1 a2
      | [] => usage (str "File expression requires 2 arguments. ")
      end
    else match l' with
    | [] => ITree.spin  (* newArgs[2] was never stored: undefined *)
    | a2 :: l'' =>
      if streq a2 (str "=") || streq a2 (str "!=") then
        match l'' with
        | a3 :: _ => stringOperators a1 a3 a2
        | [] => usage (str "String comparisons requires 3 arguments. ")
        end
      else if streq a2 (str "-ef") then
        match l'' with
        | a3 :: _ =>
          let* r1 := openFile a1 in
          let* r2 := openFile a3 in
          let '(fd, info, (fd2, info2)) := (r1, r2) : (Z * option stat) * (Z * option stat) in
          if (fd <? 0) || (fd2 <? 0) then Ret 2
          else match info, info2 with
               | Some st, Some st2 => Ret (if st_ino st =? st_ino st2 then 0 else 1)
               | _, _ => Ret 1
               end
        | [] => usage (str "File comparisons requires 3 arguments. ")
        end
      else if streq a2 (str "-gt") || streq a2 (str "-lt") then
        match l'' with
        | a3 :: _ => numberOperators a1 a3 a2
        | [] => usage (str "Number comparisons requires 3 arguments. ")
        end
      else usage (str "Unrecognized operation ")
    end
  | _ => ITree.spin
  end.

Definition main (argv : list (list Z)) : U unit :=
  let* result :=
    if (length argv <? 2)%nat then usage (str "No arguments provided. ")
    else if streq (default [] (argv !! 1%nat)) (str "-h") then
      printf (str "Usage: " ++ [10; 10] ++ strn "%s ") [A_str (Some usageString)] ;* exit 0
    else if (length argv <? 3)%nat then usage (str "Not enough arguments provided. ")
    else match parseArgs (length argv) argv with
         | MissingQuote => usage (str "Invalid syntax: missing closing quote")
         | Args l => evaluate l
         | Undefined => ITree.spin
         end in
  printf (strn "Result: %d") [A_int result] ;*
  exit 0.

(** ** What it computes *)

(** A string that parseArgs() leaves alone. *)
Definition plain (s : list Z) : Prop := Forall (fun c => 0 < c < 256) s /\ head s <> Some 34.

Lemma parseArgs_plain n argv : (length argv <= n)%nat -> Forall plain argv -> parseArgs n argv = Args argv.
Proof.
  intros Hn Hp. revert n Hn. induction Hp as [|w argv [_ Hw] _ IH]; intros [|n] Hn; cbn [length] in Hn; [done..|lia|].
  cbn [parseArgs]. rewrite IH by lia. destruct w as [|c w]; [done|]. cbn in *.
  rewrite (proj2 (Z.eqb_neq _ _)) by congruence. done.
Qed.

(** A string of several words in quotes becomes one argument, the words
    separated by single spaces, quotes included. *)
Fixpoint unwords (ws : list (list Z)) : list Z :=
  match ws with [] => [] | [w] => w | w :: ws => w ++ [32] ++ unwords ws end.

Lemma quoted_unwords acc ws w rest :
  Forall (fun w => exists c, last w = Some c /\ c <> 34) ws -> last w = Some 34 ->
  (length (acc ++ unwords (ws ++ [w])) < 128)%nat ->
  quoted acc (ws ++ w :: rest) = Some (Some (acc ++ unwords (ws ++ [w]), rest)).
Proof.
  intros Hws Hw. revert acc. induction Hws as [|x ws (c & Hx & Hc) _ IH]; intros acc Hlen; cbn [app quoted].
  - rewrite Hw. cbn [app unwords] in *. rewrite (proj2 (Nat.leb_gt _ _)) by done. done.
  - assert (unwords ((x :: ws) ++ [w]) = x ++ [32] ++ unwords (ws ++ [w])) as E by (by destruct ws).
    cbn [app] in E, Hlen. rewrite E in Hlen |- *. rewrite Hx.
    rewrite (proj2 (Nat.leb_gt _ _)) by (rewrite !length_app in *; lia). rewrite (proj2 (Z.eqb_neq _ _)) by done.
    rewrite IH; [by rewrite <- !app_assoc|]. by rewrite <- !app_assoc.
Qed.

Lemma strcmp_eq p q :
  Forall (fun c => 0 < c < 256) p -> Forall (fun c => 0 < c < 256) q -> (strcmp p q = 0 <-> p = q).
Proof.
  intros Hp. revert q. induction Hp as [|c p Hc _ IH]; intros q Hq; destruct Hq as [|d q Hd Hq]; cbn [strcmp].
  - done.
  - rewrite u8_small by lia. split; [lia|done].
  - rewrite u8_small by lia. split; [lia|done].
  - destruct (Z.eqb_spec c d) as [->|Hne].
    + rewrite IH by done. split; [by intros ->|by intros [= ->]].
    + rewrite !u8_small by lia. split; [lia|by intros [= ? _]].
Qed.
Lemma streq_true p q :
  Forall (fun c => 0 < c < 256) p -> Forall (fun c => 0 < c < 256) q -> streq p q = bool_decide (p = q).
Proof.
  intros Hp Hq. unfold streq. pose proof (strcmp_eq p q Hp Hq) as E. case_bool_decide as Hb.
  - apply Z.eqb_eq. by apply E.
  - apply Z.eqb_neq. by rewrite E.
Qed.

(** The number a digit string stands for. *)
Definition number (s : list Z) : Z := foldl (fun a c => a * 10 + (c - 48)) 0 s.
Definition is_number (s : list Z) : Prop := Forall is_digit s /\ number s < 2 ^ 31.

(** The meaning of the comparisons. *)
Inductive says : list Z -> list Z -> list Z -> bool -> Prop :=
  | says_eq a b : says a (str "=") b (bool_decide (a = b))
  | says_ne a b : says a (str "!=") b (negb (bool_decide (a = b)))
  | says_lt a b : is_number a -> is_number b -> says a (str "-lt") b (number a <? number b)
  | says_gt a b : is_number a -> is_number b -> says a (str "-gt") b (number b <? number a).

Lemma isInt_number s : is_number s -> isInt s = true /\ atoi s = number s.
Proof.
  intros [Hd Hlt]. split.
  - apply forallb_forall. intros c Hc. rewrite <- list_elem_of_In in Hc. rewrite Forall_forall in Hd.
    specialize (Hd c Hc). unfold is_digit in Hd. lia.
  - assert (forall a, foldl (fun a c => a * 10 + digit_val c) a s = foldl (fun a c => a * 10 + (c - 48)) a s) as E.
    { clear Hlt. induction Hd as [|c s Hc _ IH]; intros a; cbn [foldl]; [done|]. by rewrite digit_val_dec, IH. }
    unfold atoi. rewrite <- (app_nil_r s) at 1. rewrite atoi_horner; [apply E|lia|done|by rewrite E|].
    by intros (c & s' & ? & _).
Qed.

Lemma evaluate_says prog a op b r :
  Forall plain [prog; a; b] -> head a <> Some 45 -> says a op b r ->
  evaluate [prog; a; op; b] = Ret (if r then 0 else 1).
Proof.
  intros Hp Ha Hs. apply Forall_cons in Hp as [_ [[Hpa _] [[Hpb _] _]%Forall_cons]%Forall_cons].
  unfold evaluate. assert (default 0 (head a) =? 45 = false) as ->.
  { apply Z.eqb_neq. destruct a as [|c a]; cbn in *; [lia|congruence]. }
  destruct Hs as [a b|a b|a b Hna Hnb|a b Hna Hnb].
  - unfold stringOperators. change (streq (str "=") (str "=")) with true. cbn [orb].
    rewrite (streq_true a b) by done. done.
  - unfold stringOperators. change (streq (str "!=") (str "=")) with false. change (streq (str "!=") (str "!=")) with true.
    cbn [orb]. rewrite (streq_true a b) by done. done.
  - change (streq (str "-lt") (str "=")) with false. change (streq (str "-lt") (str "!=")) with false.
    change (streq (str "-lt") (str "-ef")) with false. change (streq (str "-lt") (str "-gt")) with false.
    change (streq (str "-lt") (str "-lt")) with true. cbn [orb]. unfold numberOperators.
    destruct (isInt_number a Hna) as [-> ->]. destruct (isInt_number b Hnb) as [-> ->]. cbn [negb].
    change (streq (str "-lt") (str "-lt")) with true. done.
  - change (streq (str "-gt") (str "=")) with false. change (streq (str "-gt") (str "!=")) with false.
    change (streq (str "-gt") (str "-ef")) with false. change (streq (str "-gt") (str "-gt")) with true.
    cbn [orb]. unfold numberOperators.
    destruct (isInt_number a Hna) as [-> ->]. destruct (isInt_number b Hnb) as [-> ->]. cbn [negb].
    change (streq (str "-gt") (str "-lt")) with false. change (streq (str "-gt") (str "-gt")) with true. done.
Qed.

Section Main.
Context {W : Type} `{Sys W}.

(** test with a comparison of strings or numbers prints Result: 0 when it
    holds and Result: 1 when it does not; the status is 0 in both cases. *)
Theorem test_compares prog a op b r w :
  Forall plain [prog; a; b] -> head a <> Some 45 -> says a op b r ->
  exists w', runs (main [prog; a; op; b]) w (Ended (Exited 0)) w'
    (puts 1 (strn (if r then "Result: 0" else "Result: 1"))).
Proof.
  intros Hp Ha Hs. destruct (prints_printf (strn "Result: %d") [A_int (if r then 0 else 1)] w) as (w' & Hpr).
  assert (plain op) as Hop.
  { destruct Hs; (split; [apply (bool_decide_unpack _); by vm_compute|done]). }
  exists w'. unfold main. cbn [length Nat.ltb Nat.leb].
  assert (streq (default [] ([prog; a; op; b] !! 1%nat)) (str "-h") = false) as ->.
  { cbn [lookup list_lookup default from_option id]. apply Forall_cons in Hp as [_ [[Hpa _] _]%Forall_cons].
    rewrite streq_true; [|done|apply (bool_decide_unpack _); by vm_compute]. apply bool_decide_eq_false. by intros ->. }
  rewrite parseArgs_plain; [|done|].
  2:{ apply Forall_cons in Hp as [H1 [H2 [H3 _]%Forall_cons]%Forall_cons]. by apply Forall_cons; split; [|apply Forall_cons; split; [|apply Forall_cons; split; [|apply Forall_cons; split; [|apply Forall_nil]]]]. }
  rewrite (evaluate_says prog a op b r Hp Ha Hs). eapply runs_bind_quiet; [apply runs_ret|]. cbn beta.
  rewrite <- (app_nil_r (puts 1 _)). eapply uruns_bind; [|apply runs_exit]. by destruct r.
Qed.
End Main.

Lemma test_compares_witness :
  exists w', runs (main [str "test"; str "23"; str "-gt"; str "32"]) (mk_tape ∅) (Ended (Exited 0)) w' (puts 1 (strn "Result: 1")).
Proof.
  assert (forall s, Forall is_digit (str s) /\ number (str s) < 2 ^ 31 <-> is_number (str s)) as Hn by done.
  apply (test_compares (str "test") (str "23") (str "-gt") (str "32") false (mk_tape ∅)).
  - apply Forall_cons; split; [split; [apply (bool_decide_unpack _); by vm_compute|done]|].
    apply Forall_cons; split; [split; [apply (bool_decide_unpack _); by vm_compute|done]|].
    apply Forall_cons; split; [split; [apply (bool_decide_unpack _); by vm_compute|done]|constructor].
  - done.
  - apply (says_gt (str "23") (str "32")); apply Hn; (split; [repeat constructor; unfold is_digit; cbn; lia|reflexivity]).
Defined.
