(* ===== verification/Mkfs.v ===== *)
(** * The file system image builder (mkfs/mkfs.c).

    The image is the map from sectors to their 1024 bytes.  A host file that
    is added is its path and the pieces in which read() delivers it.  A call of
    die() or a failed assert() is [None].  Structures are kept with the values
    that xshort() and xint() store, so their bytes are those of Fs.v. *)

From S2P Require Import Prelude Defs Mem Log Fs.

(** ** State *)

Record image := mk_image { img : gmap Z (list Z); freeinode : Z; freeblock : Z }.
#[global] Instance eta_image : Eta image := fun s => mk_image (img s) (freeinode s) (freeblock s).
#[global] Instance field_img : Field img := ltac:(derive_field img).
#[global] Instance field_freeinode : Field freeinode := ltac:(derive_field freeinode).
#[global] Instance field_freeblock : Field freeblock := ltac:(derive_field freeblock).

Definition M (A : Type) : Type := image -> option (A * image).
Definition mret {A} (a : A) : M A := fun s => Some (a, s).
Definition die {A} : M A := fun _ => None.
Definition mbind' {A B} (m : M A) (f : A -> M B) : M B :=
  fun s => match m s with Some (a, s) => f a s | None => None end.
Declare Scope mkfs_scope.
Delimit Scope mkfs_scope with mkfs.
Notation "'let&' x := m 'in' k" := (mbind' m (fun x => k))
  (at level 200, x name, m at level 100, k at level 200) : mkfs_scope.
Notation "m &; k" := (mbind' m (fun _ => k)) (at level 100, right associativity) : mkfs_scope.
Local Open Scope mkfs_scope.

Definition assert (b : bool) : M unit := if b then mret tt else die.

(** ** Layout *)

Definition NINODES : Z := 200.
Definition nbitmap : Z := FSSIZE / (BSIZE * 8) + 1.
Definition ninodeblocks : Z := NINODES / IPB + 1.
Definition nlog : Z := LOGSIZE.
Definition nmeta : Z := 2 + nlog + ninodeblocks + nbitmap.
Definition nblocks : Z := FSSIZE - nmeta.

(** A value whose bytes in memory are those of [x], lowest first. *)
Definition xshort (x : Z) : Z := le_val [u8 x; u8 (Z.shiftr x 8)].
Definition xint (x : Z) : Z := le_val [u8 x; u8 (Z.shiftr x 8); u8 (Z.shiftr x 16); u8 (Z.shiftr x 24)].

Definition sb : superblock :=
  mk_superblock FSMAGIC (xint FSSIZE) (xint nblocks) (xint NINODES) (xint nlog) (xint 2)
    (xint (2 + nlog)) (xint (2 + nlog + ninodeblocks)).
Definition sb_bytes (s : superblock) : list Z :=
  le_bytes 4 (sb_magic s) ++ le_bytes 4 (sb_size s) ++ le_bytes 4 (sb_nblocks s) ++ le_bytes 4 (sb_ninodes s) ++
  le_bytes 4 (sb_nlog s) ++ le_bytes 4 (sb_logstart s) ++ le_bytes 4 (sb_inodestart s) ++ le_bytes 4 (sb_bmapstart s).

Definition zeroes : list Z := replicate (Z.to_nat BSIZE) 0.

Definition with_addr (k : nat) (b : Z) (d : dinode) : dinode :=
  mk_dinode (d_type d) (d_major d) (d_minor d) (d_nlink d) (d_size d) (<[k := b]> (d_addrs d)).
Definition with_size (n : Z) (d : dinode) : dinode :=
  mk_dinode (d_type d) (d_major d) (d_minor d) (d_nlink d) n (d_addrs d).

(** ** Sectors and inodes *)

Definition wsect (sec : Z) (buf : list Z) : M unit := fun s => Some (tt, s <| img ::= <[sec := buf]> |>).
(** read() delivers nothing beyond the end of the image. *)
Definition rsect (sec : Z) : M (list Z) := fun s => match img s !! sec with Some b => Some (b, s) | None => None end.

Definition winode (inum : Z) (ip : dinode) : M unit :=
  let bn := IBLOCK inum sb in
  let& buf := rsect bn in
  wsect bn (put_dinode ip (dinode_off inum) buf).
Definition rinode (inum : Z) : M dinode :=
  let bn := IBLOCK inum sb in
  let& buf := rsect bn in
  mret (get_dinode buf (dinode_off inum)).

Definition ialloc (type : Z) : M Z := fun s =>
  let inum := freeinode s in
  let din := mk_dinode (xshort type) 0 0 (xshort 1) (xint 0) (replicate (Z.to_nat NDIRECT + 1) 0) in
  (winode inum din &; mret inum) (s <| freeinode := u32 (inum + 1) |>).

(** The bits below [used]. *)
Definition bitmap (used : Z) : list Z :=
  foldl (fun buf i => set_bit (Z.of_nat i) buf) zeroes (seq 0 (Z.to_nat used)).
Definition balloc (used : Z) : M unit :=
  assert (used <? BSIZE * 8) &;
  wsect (sb_bmapstart sb) (bitmap used).

(** [freeblock++] *)
Definition new_block : M Z := fun s => Some (freeblock s, s <| freeblock := u32 (freeblock s + 1) |>).

(** ** Appending to a file *)

(** The block for the file block [fbn] beyond the direct ones, whose indirect
    block is there. *)
Definition iappend_entry (din : dinode) (fbn : Z) : M Z :=
  let ind := default 0 (d_addrs din !! Z.to_nat NDIRECT) in
  let& indirect := rsect ind in
  let o := (4 * Z.to_nat (fbn - NDIRECT))%nat in
  let& indirect :=
    (if rd32 indirect o =? 0 then
       let& b := new_block in
       let indirect := wr32 indirect o (xint b) in
       wsect ind indirect &; mret indirect
     else mret indirect) in
  mret (rd32 indirect o).

(** [if(din.addrs[k] == 0) din.addrs[k] = freeblock++;] *)
Definition iappend_addr (din : dinode) (k : nat) : M dinode :=
  if default 0 (d_addrs din !! k) =? 0 then
    let& b := new_block in mret (with_addr k (xint b) din)
  else mret din.

(** The block for the file block [fbn], allocated when there is none. *)
Definition iappend_block (din : dinode) (fbn : Z) : M (Z * dinode) :=
  if fbn <? NDIRECT then
    let& din := iappend_addr din (Z.to_nat fbn) in
    mret (default 0 (d_addrs din !! Z.to_nat fbn), din)
  else
    let& din := iappend_addr din (Z.to_nat NDIRECT) in
    let& x := iappend_entry din fbn in
    mret (x, din).

(** One round: as much of [p] as fits in the block of [off]. *)
Definition iappend_round (din : dinode) (off : Z) (p : list Z) : M (dinode * Z * list Z) :=
  let fbn := off / BSIZE in
  assert (fbn <? MAXFILE) &;
  let& xd := iappend_block din fbn in
  let (x, din) := xd : Z * dinode in
  let n1 := Z.to_nat (Z.min (Z.of_nat (length p)) ((fbn + 1) * BSIZE - off)) in
  let& buf := rsect x in
  wsect x (patch buf (Z.to_nat (off - fbn * BSIZE)) (take n1 p)) &;
  mret (din, u32 (off + Z.of_nat n1), drop n1 p).

(** Every round takes at least a byte of [p], so [length p] rounds do. *)
Fixpoint iappend_loop (n : nat) (din : dinode) (off : Z) (p : list Z) : M (dinode * Z) :=
  match p, n with
  | [], _ => mret (din, off)
  | _, O => die
  | _, S n =>
    let& r := iappend_round din off p in
    let '(din, off, p) := r : dinode * Z * list Z in
    iappend_loop n din off p
  end.

Definition iappend (inum : Z) (xp : list Z) : M unit :=
  let& din := rinode inum in
  let& r := iappend_loop (length xp) din (xint (d_size din)) xp in
  let (din, off) := r : dinode * Z in
  winode inum (with_size (xint off) din).

(** ** main *)

(** A directory entry; strncpy() pads the name with NULs to DIRSIZ bytes and
    cuts it there. *)
Definition dirent (inum : Z) (name : list Z) : list Z :=
  dirent_bytes (xshort inum) (take (Z.to_nat DIRSIZ) (name ++ replicate (Z.to_nat DIRSIZ) 0)).

Definition user_prefix : list Z := [117; 115; 101; 114; 47].  (* user/ *)
Definition shortname (path : list Z) : list Z :=
  if decide (take 5 path = user_prefix) then drop 5 path else path.
Definition skip_underscore (name : list Z) : list Z :=
  match name with c :: name' => if c =? 95 then name' else name | [] => [] end.

Fixpoint each_piece (inum : Z) (pieces : list (list Z)) : M unit :=
  match pieces with [] => mret tt | p :: pieces => iappend inum p &; each_piece inum pieces end.

Definition add_file (rootino : Z) (file : list Z * list (list Z)) : M unit :=
  let (path, pieces) := file in
  let name := shortname path in
  assert (negb (existsb (Z.eqb 47) name)) &;
  let& inum := ialloc T_FILE in
  iappend rootino (dirent inum (skip_underscore name)) &;
  each_piece inum pieces.

Fixpoint add_files (rootino : Z) (files : list (list Z * list (list Z))) : M unit :=
  match files with [] => mret tt | f :: files => add_file rootino f &; add_files rootino files end.

Definition blank : image :=
  mk_image (list_to_map ((fun k => (Z.of_nat k, zeroes)) <$> seq 0 (Z.to_nat FSSIZE))) 1 nmeta.

(** main() once the image is blank. *)
Definition build (files : list (list Z * list (list Z))) : M unit :=
  wsect 1 (patch zeroes 0 (sb_bytes sb)) &;
  let& rootino := ialloc T_DIR in
  assert (rootino =? ROOTINO) &;
  iappend rootino (dirent rootino [46]) &;
  iappend rootino (dirent rootino [46; 46]) &;
  add_files rootino files &;
  let& din := rinode rootino in
  let off := u32 ((xint (d_size din) / BSIZE + 1) * BSIZE) in
  winode rootino (with_size (xint off) din) &;
  fun s => balloc (freeblock s) s.

Definition main (files : list (list Z * list (list Z))) : option image :=
  option_map snd (build files blank).
