(* ===== verification/MkfsSpec.v ===== *)
(** * The image that mkfs builds.

    A file on the image is its bytes, read through the block numbers of its
    inode ([file]).  iappend() extends the file of an inode by the bytes it is
    given, whatever direct and indirect blocks that takes, and leaves every
    other file alone; main() composes that into the whole image, with the
    superblock, the root directory and the bitmap the kernel reads. *)

From S2P Require Import Prelude Defs KMonad Lock Mem Kalloc Sched Sleeplock Bio Log Vm Uart Fs FsBlock FsInode Mkfs.

(** ** Files on an image *)

Definition blk (s : image) (b : Z) : list Z := default [] (img s !! b).
Definition addr (d : dinode) (k : nat) : Z := default 0 (d_addrs d !! k).
Definition entry (s : image) (b : Z) (j : nat) : Z := rd32 (blk s b) (4 * j).

(** The [k]th block of a file, and the blocks that belong to it when it has
    [n] blocks and, with [i], an indirect block. *)
Definition fblock (s : image) (d : dinode) (k : nat) : Z :=
  if decide (k < 12)%nat then addr d k else entry s (addr d 12) (k - 12).
Definition owned (s : image) (d : dinode) (n : nat) (i : bool) : list Z :=
  (if i then [addr d 12] else []) ++ (fblock s d <$> seq 0 n).

Record image_ok (s : image) : Prop := mk_image_ok {
  ok_sect b : 0 <= b < FSSIZE -> exists l, img s !! b = Some l /\ length l = 1024%nat;
  ok_free : nmeta <= freeblock s;
  ok_zero b : freeblock s <= b < FSSIZE -> img s !! b = Some zeroes
}.

(** [d] maps [n] blocks. *)
Record maps (s : image) (d : dinode) (n : nat) (i : bool) : Prop := mk_maps {
  mp_len : length (d_addrs d) = 13%nat;
  mp_max : (n <= 268)%nat;
  mp_dir k : (n <= k < 12)%nat -> addr d k = 0;
  mp_ind : i = false -> (n <= 12)%nat /\ addr d 12 = 0;
  mp_ent : i = true -> (12 <= n)%nat /\ forall j, (n <= 12 + j < 268)%nat -> entry s (addr d 12) j = 0;
  mp_own : Forall (fun b => nmeta <= b < freeblock s) (owned s d n i);
  mp_nodup : NoDup (owned s d n i)
}.

Definition nblk (o : nat) : nat := Z.to_nat ((Z.of_nat o + 1023) / 1024).
Definition has_ind (n : nat) : bool := bool_decide (12 < n)%nat.

(** The byte at offset [o] of the file. *)
Definition byte (s : image) (d : dinode) (o : nat) : Z :=
  default 0 (blk s (fblock s d (o / 1024)) !! (o mod 1024)%nat).

(** The file holds [data], and zeros up to the end of its last block. *)
Record file (s : image) (d : dinode) (data : list Z) : Prop := mk_file {
  fl_maps : maps s d (nblk (length data)) (has_ind (nblk (length data)));
  fl_byte o : (o < nblk (length data) * 1024)%nat -> byte s d o = default 0 (data !! o)
}.

(** ** Allocation *)

Lemma xint_id x : 0 <= x < 2 ^ 32 -> xint x = x.
Proof.
  intros Hx. unfold xint, u8. cbn [le_val]. rewrite !Z.shiftr_div_pow2 by lia.
  change (2 ^ 8) with 256. change (2 ^ 16) with 65536. change (2 ^ 24) with 16777216. dlia.
Qed.

Lemma nmeta_val : nmeta = 46.
Proof. reflexivity. Qed.
Lemma FSSIZE_val : FSSIZE = 2000.
Proof. reflexivity. Qed.

(** A state that differs from [s] only in blocks of [bs] and in blocks that
    were free. *)
Definition outside (s s' : image) (bs : list Z) : Prop :=
  forall b, b ∉ bs -> ~ (freeblock s <= b < freeblock s') -> img s' !! b = img s !! b.

Lemma addr_with k v d j : (k < length (d_addrs d))%nat -> addr (with_addr k v d) j = if decide (j = k) then v else addr d j.
Proof.
  intros Hk. unfold addr. cbn. destruct (decide (j = k)) as [->|Hne].
  - by rewrite list_lookup_insert_eq.
  - by rewrite list_lookup_insert_ne by done.
Qed.

Lemma owned_in s d n i k : (k < n)%nat -> fblock s d k ∈ owned s d n i.
Proof. intros Hk. apply elem_of_app. right. apply list_elem_of_fmap. exists k. split; [done|]. apply elem_of_seq. lia. Qed.
Lemma maps_block s d n i k : maps s d n i -> (k < n)%nat -> nmeta <= fblock s d k < freeblock s.
Proof. intros Hm Hk. pose proof (mp_own _ _ _ _ Hm) as Ho. rewrite Forall_forall in Ho. by apply Ho, owned_in. Qed.
Lemma maps_ind s d n : maps s d n true -> nmeta <= addr d 12 < freeblock s /\ forall k, (k < n)%nat -> fblock s d k <> addr d 12.
Proof.
  intros Hm. pose proof (mp_own _ _ _ _ Hm) as Ho. pose proof (mp_nodup _ _ _ _ Hm) as Hn. unfold owned in *. cbn [app] in *.
  apply Forall_cons in Ho as [Ho _]. apply NoDup_cons in Hn as [Hn _]. split; [done|].
  intros k Hk E. apply Hn. rewrite <- E. apply list_elem_of_fmap. exists k. split; [done|]. apply elem_of_seq. lia.
Qed.
Lemma maps_inj s d n i j k : maps s d n i -> (j < n)%nat -> (k < n)%nat -> fblock s d j = fblock s d k -> j = k.
Proof.
  intros Hm Hj Hk E. pose proof (mp_nodup _ _ _ _ Hm) as Hn. apply NoDup_app in Hn as (_ & _ & Hn).
  assert (forall a, (a < n)%nat -> (fblock s d <$> seq 0 n) !! a = Some (fblock s d a)) as Hl.
  { intros a Ha. rewrite list_lookup_fmap, lookup_seq_lt by done. done. }
  eapply (NoDup_lookup _ _ _ _ Hn); [by apply Hl|]. rewrite E. by apply Hl.
Qed.

(** A fresh block. *)
Definition grown (s : image) : image := mk_image (img s) (freeinode s) (freeblock s + 1).
Lemma new_block_ok s : image_ok s -> freeblock s + 1 < 2 ^ 32 ->
  new_block s = Some (freeblock s, grown s) /\ image_ok (grown s).
Proof.
  intros [H1 H2 H3] Hs. rewrite nmeta_val in H2. split.
  - unfold new_block. rewrite u32_small by lia. done.
  - split; cbn; [done|rewrite nmeta_val; lia|]. intros b Hb. apply H3. lia.
Qed.

Lemma seq_snoc a n : seq a (S n) = seq a n ++ [(a + n)%nat].
Proof. rewrite <- (Nat.add_1_r n). by rewrite seq_app. Qed.

(** A direct block is added. *)
Lemma maps_direct s d n :
  image_ok s -> maps s d n false -> (n < 12)%nat -> freeblock s < FSSIZE ->
  let d' := with_addr n (freeblock s) d in
  maps (grown s) d' (S n) false /\ fblock (grown s) d' n = freeblock s /\
  forall k, (k < n)%nat -> fblock (grown s) d' k = fblock s d k.
Proof.
  intros Hok Hm Hn Hf d'. pose proof (mp_len _ _ _ _ Hm) as Hl.
  assert (forall k, (k < 12)%nat -> fblock (grown s) d' k = if decide (k = n) then freeblock s else fblock s d k) as Hfb.
  { intros k Hk. unfold fblock. destruct (decide (k < 12)%nat); [|lia]. apply addr_with. lia. }
  assert (forall k, (k < n)%nat -> fblock (grown s) d' k = fblock s d k) as Hold by (intros k Hk; rewrite Hfb, decide_False by lia; done).
  assert (owned (grown s) d' (S n) false = owned s d n false ++ [freeblock s]) as Eo.
  { unfold owned. cbn [app]. rewrite seq_snoc, fmap_app. cbn [fmap list_fmap]. rewrite Nat.add_0_l, Hfb, decide_True by done. f_equal.
    apply list_fmap_ext. intros i k [-> Hk]%lookup_seq. apply Hold. lia. }
  split_and!; [|by rewrite Hfb, decide_True|done]. split.
  - cbn. by rewrite length_insert.
  - lia.
  - intros k Hk. unfold d'. rewrite addr_with by lia. rewrite decide_False by lia. apply (mp_dir _ _ _ _ Hm). lia.
  - intros _. split; [lia|]. unfold d'. rewrite addr_with, decide_False by lia. by apply (mp_ind _ _ _ _ Hm).
  - done.
  - rewrite Eo. apply Forall_app. split.
    + eapply Forall_impl; [apply (mp_own _ _ _ _ Hm)|]. cbn. lia.
    + apply Forall_singleton. cbn. pose proof (ok_free _ Hok). lia.
  - rewrite Eo. apply NoDup_app. split_and!; [apply (mp_nodup _ _ _ _ Hm)| |apply NoDup_singleton].
    intros b Hb ->%list_elem_of_singleton. pose proof (mp_own _ _ _ _ Hm) as Ho. rewrite Forall_forall in Ho.
    specialize (Ho _ Hb). lia.
Qed.

(** The indirect block is added, its entries all zero. *)
Lemma entry_zero s b j : img s !! b = Some zeroes -> (j < 256)%nat -> entry s b j = 0.
Proof.
  intros E Hj. unfold entry, blk. rewrite E. change (default [] (Some zeroes)) with zeroes. unfold rd32, zeroes.
  rewrite drop_replicate, take_replicate. change (Z.to_nat BSIZE) with 1024%nat.
  replace (4 `min` (1024 - 4 * j))%nat with 4%nat by lia. done.
Qed.

Lemma maps_indirect s d :
  image_ok s -> maps s d 12 false -> freeblock s < FSSIZE ->
  let d' := with_addr 12 (freeblock s) d in
  maps (grown s) d' 12 true /\ addr d' 12 = freeblock s /\
  forall k, (k < 12)%nat -> fblock (grown s) d' k = fblock s d k.
Proof.
  intros Hok Hm Hf d'. pose proof (mp_len _ _ _ _ Hm) as Hl.
  assert (addr d' 12 = freeblock s) as Ea by (unfold d'; rewrite addr_with, decide_True by lia; done).
  assert (forall k, (k < 12)%nat -> fblock (grown s) d' k = fblock s d k) as Hfb.
  { intros k Hk. unfold fblock. destruct (decide (k < 12)%nat); [|lia]. unfold d'. rewrite addr_with, decide_False by lia. done. }
  assert (owned (grown s) d' 12 true = freeblock s :: owned s d 12 false) as Eo.
  { unfold owned. cbn [app]. rewrite Ea. f_equal. apply list_fmap_ext. intros i k [-> Hk]%lookup_seq. apply Hfb. lia. }
  split_and!; [|done|done]. split.
  - cbn. by rewrite length_insert.
  - lia.
  - lia.
  - done.
  - intros _. split; [done|]. intros j Hj. rewrite Ea. apply entry_zero; [|lia]. cbn. apply (ok_zero _ Hok). lia.
  - rewrite Eo. apply Forall_cons. split; [pose proof (ok_free _ Hok); cbn; lia|].
    eapply Forall_impl; [apply (mp_own _ _ _ _ Hm)|]. cbn. lia.
  - rewrite Eo. apply NoDup_cons. split; [|apply (mp_nodup _ _ _ _ Hm)]. intros Hb.
    pose proof (mp_own _ _ _ _ Hm) as Ho. rewrite Forall_forall in Ho. specialize (Ho _ Hb). lia.
Qed.

(** The entry of a new block is stored in the indirect block. *)
Definition stored_entry (s : image) (d : dinode) (n : nat) : image :=
  mk_image (<[addr d 12 := wr32 (blk s (addr d 12)) (4 * (n - 12)) (freeblock s)]> (img s)) (freeinode s) (freeblock s + 1).

Lemma maps_entry s d n :
  image_ok s -> maps s d n true -> (n < 268)%nat -> freeblock s < FSSIZE ->
  let s' := stored_entry s d n in
  image_ok s' /\ maps s' d (S n) true /\ fblock s' d n = freeblock s /\
  forall k, (k < n)%nat -> fblock s' d k = fblock s d k.
Proof.
  intros Hok Hm Hn Hf s'. destruct (maps_ind _ _ _ Hm) as [Hi Hne]. destruct (mp_ent _ _ _ _ Hm eq_refl) as [H12 Hz].
  pose proof (ok_free _ Hok) as Hfree. rewrite nmeta_val, FSSIZE_val in *.
  destruct (ok_sect _ Hok (addr d 12)) as (l & El & Hl); [rewrite FSSIZE_val; lia|].
  assert (blk s' (addr d 12) = wr32 l (4 * (n - 12)) (freeblock s)) as Eb.
  { unfold blk, s', stored_entry. cbn. rewrite lookup_insert_eq. unfold blk. by rewrite El. }
  assert (forall j, (j < 256)%nat -> entry s' (addr d 12) j = if decide (j = n - 12)%nat then freeblock s else entry s (addr d 12) j) as He.
  { intros j Hj. unfold entry. rewrite Eb. unfold blk. rewrite El. cbn [default from_option id]. case_decide as Hjn.
    - subst j. rewrite rd32_wr32_eq by lia. apply Z.mod_small. lia.
    - apply rd32_wr32_ne; lia. }
  assert (forall k, (k < 268)%nat -> fblock s' d k = if decide (k = n) then freeblock s else fblock s d k) as Hfb.
  { intros k Hk. unfold fblock. destruct (decide (k < 12)%nat); [by rewrite decide_False by lia|].
    rewrite He by lia. repeat case_decide; done || lia. }
  assert (forall k, (k < n)%nat -> fblock s' d k = fblock s d k) as Hold by (intros k Hk; rewrite Hfb, decide_False by lia; done).
  assert (owned s' d (S n) true = owned s d n true ++ [freeblock s]) as Eo.
  { unfold owned. rewrite seq_snoc, fmap_app, app_assoc. cbn [fmap list_fmap]. rewrite Nat.add_0_l, Hfb, decide_True by (done || lia).
    do 2 f_equal. apply list_fmap_ext. intros i k [-> Hk]%lookup_seq. apply Hold. lia. }
  split_and!; [| |by rewrite Hfb, decide_True by (done || lia)|done].
  - split; unfold s', stored_entry; cbn [img freeblock].
    + intros b Hb. rewrite lookup_insert. case_decide as Hbe; [|by apply (ok_sect _ Hok)].
      eexists. split; [done|]. unfold blk. rewrite El. rewrite length_wr32; cbn [default from_option id]; lia.
    + rewrite nmeta_val. lia.
    + intros b Hb. rewrite lookup_insert_ne by lia. apply (ok_zero _ Hok). lia.
  - split.
    + apply (mp_len _ _ _ _ Hm).
    + lia.
    + intros k Hk. lia.
    + done.
    + intros _. split; [lia|]. intros j Hj. rewrite He, decide_False by lia. apply Hz. lia.
    + rewrite Eo. apply Forall_app. split.
      * eapply Forall_impl; [apply (mp_own _ _ _ _ Hm)|]. cbn. rewrite nmeta_val. lia.
      * apply Forall_singleton. cbn. rewrite nmeta_val. lia.
    + rewrite Eo. apply NoDup_app. split_and!; [apply (mp_nodup _ _ _ _ Hm)| |apply NoDup_singleton].
      intros b Hb ->%list_elem_of_singleton. pose proof (mp_own _ _ _ _ Hm) as Ho. rewrite Forall_forall in Ho.
      specialize (Ho _ Hb). lia.
Qed.

(** ** The block of an offset *)

(** The number of blocks that [n] blocks of a file take. *)
Definition cost (n : nat) : Z := Z.of_nat n + (if has_ind n then 1 else 0).

Definition same_meta (d d' : dinode) : Prop :=
  d_type d' = d_type d /\ d_major d' = d_major d /\ d_minor d' = d_minor d /\ d_nlink d' = d_nlink d /\ d_size d' = d_size d.

Lemma has_ind_false n : (n <= 12)%nat -> has_ind n = false.
Proof. intros Hn. apply bool_decide_eq_false. lia. Qed.
Lemma has_ind_true n : (12 < n)%nat -> has_ind n = true.
Proof. intros Hn. by apply bool_decide_eq_true. Qed.

Lemma cost_S n : 1 <= cost (S n) - cost n <= 2.
Proof. unfold cost, has_ind. repeat case_bool_decide; lia. Qed.
Lemma cost_mono n m : (n <= m)%nat -> cost n <= cost m.
Proof. unfold cost, has_ind. intros. repeat case_bool_decide; lia. Qed.

Lemma iappend_addr_old d k s : addr d k <> 0 -> iappend_addr d k s = Some (d, s).
Proof. intros Hk. unfold iappend_addr. fold (addr d k). by rewrite (proj2 (Z.eqb_neq _ _)). Qed.
Lemma iappend_addr_new d k s : image_ok s -> freeblock s < FSSIZE -> addr d k = 0 ->
  iappend_addr d k s = Some (with_addr k (freeblock s) d, grown s).
Proof.
  intros Hok Hf Hk. unfold iappend_addr. fold (addr d k). rewrite Hk. cbn [Z.eqb]. unfold mbind'.
  pose proof (ok_free _ Hok) as Hfree. rewrite nmeta_val, FSSIZE_val in *.
  rewrite (proj1 (new_block_ok s Hok ltac:(lia))). by rewrite xint_id by lia.
Qed.

(** The indirect block's entry, there or stored now. *)
Lemma iappend_entry_old s d n k :
  image_ok s -> maps s d n true -> freeblock s <= FSSIZE -> (12 <= k < n)%nat ->
  iappend_entry d (Z.of_nat k) s = Some (fblock s d k, s).
Proof.
  intros Hok Hm Hf Hk. pose proof (maps_block _ _ _ _ k Hm ltac:(lia)) as Hb. destruct (maps_ind _ _ _ Hm) as [Hi _].
  rewrite nmeta_val, FSSIZE_val in *.
  destruct (ok_sect _ Hok (addr d 12)) as (l & El & Hl); [rewrite FSSIZE_val; lia|].
  assert (fblock s d k = rd32 l (4 * (k - 12))) as Ef.
  { unfold fblock. rewrite decide_False by lia. unfold entry, blk. by rewrite El. }
  unfold iappend_entry, mbind', rsect. change (Z.to_nat NDIRECT) with 12%nat. fold (addr d 12). rewrite El.
  change NDIRECT with 12. replace (Z.to_nat (Z.of_nat k - 12)) with (k - 12)%nat by lia.
  rewrite (proj2 (Z.eqb_neq _ _)) by lia. unfold mret. by rewrite Ef.
Qed.
Lemma iappend_entry_new s d n :
  image_ok s -> maps s d n true -> (n < 268)%nat -> freeblock s < FSSIZE ->
  iappend_entry d (Z.of_nat n) s = Some (freeblock s, stored_entry s d n).
Proof.
  intros Hok Hm Hn Hf. destruct (maps_ind _ _ _ Hm) as [Hi _]. destruct (mp_ent _ _ _ _ Hm eq_refl) as [H12 Hz].
  pose proof (ok_free _ Hok) as Hfree. rewrite nmeta_val, FSSIZE_val in *.
  destruct (ok_sect _ Hok (addr d 12)) as (l & El & Hl); [rewrite FSSIZE_val; lia|].
  specialize (Hz (n - 12)%nat ltac:(lia)). unfold entry, blk in Hz. rewrite El in Hz. cbn [default from_option id] in Hz.
  unfold iappend_entry, mbind', rsect. change (Z.to_nat NDIRECT) with 12%nat. fold (addr d 12). rewrite El.
  change NDIRECT with 12. replace (Z.to_nat (Z.of_nat n - 12)) with (n - 12)%nat by lia.
  rewrite Hz. cbn [Z.eqb]. rewrite (proj1 (new_block_ok s Hok ltac:(lia))). unfold wsect, mret.
  rewrite xint_id, rd32_wr32_eq, Z.mod_small by lia. unfold stored_entry, blk. by rewrite El.
Qed.

Record extends (s : image) (d : dinode) (n : nat) (s' : image) (d' : dinode) (n' : nat) : Prop := mk_extends {
  ex_ok : image_ok s';
  ex_maps : maps s' d' n' (has_ind n');
  ex_same k : (k < n)%nat -> fblock s' d' k = fblock s d k;
  ex_free : freeblock s' = freeblock s + (cost n' - cost n);
  ex_inode : freeinode s' = freeinode s;
  ex_meta : same_meta d d';
  ex_out : outside s s' (owned s d n (has_ind n));
  ex_own b : b ∈ owned s' d' n' (has_ind n') -> b ∈ owned s d n (has_ind n) \/ freeblock s <= b < freeblock s'
}.

Lemma owned_grown s d n i s' d' i' x :
  (forall k, (k < n)%nat -> fblock s' d' k = fblock s d k) ->
  fblock s' d' n = x -> (i' = true -> i = true /\ addr d' 12 = addr d 12 \/ freeblock s <= addr d' 12 < freeblock s') ->
  freeblock s <= x < freeblock s' ->
  forall b, b ∈ owned s' d' (S n) i' -> b ∈ owned s d n i \/ freeblock s <= b < freeblock s'.
Proof.
  intros Hold Hx Hi Hr b Hb. unfold owned in Hb. rewrite seq_snoc, fmap_app in Hb.
  apply elem_of_app in Hb as [Hb|[Hb|Hb]%elem_of_app].
  - destruct i'; [|by apply elem_of_nil in Hb]. apply list_elem_of_singleton in Hb as ->.
    destruct (Hi eq_refl) as [[-> ->]|?]; [left; by left|by right].
  - apply list_elem_of_fmap in Hb as (k & -> & Hk%elem_of_seq). rewrite Hold by lia. left. apply owned_in. lia.
  - apply list_elem_of_singleton in Hb as ->. right. rewrite Nat.add_0_l, Hx. done.
Qed.

Lemma extends_refl s d n : image_ok s -> maps s d n (has_ind n) -> extends s d n s d n.
Proof.
  intros Hok Hm. split; [done|done|done|lia|done|by repeat split|done|by left].
Qed.

(** The block that iappend() works on is mapped afterwards; a new one is zero. *)
Lemma iappend_block_ok s d n fbn :
  image_ok s -> maps s d n (has_ind n) -> (fbn <= n <= S fbn)%nat -> (fbn < 268)%nat ->
  freeblock s + (cost (S fbn) - cost n) <= FSSIZE ->
  exists d' s', iappend_block d (Z.of_nat fbn) s = Some ((fblock s' d' fbn, d'), s') /\
    extends s d n s' d' (S fbn) /\
    (forall b, nmeta <= b < freeblock s -> (has_ind n = true -> b <> addr d 12) -> img s' !! b = img s !! b) /\
    (fbn = n -> img s' !! fblock s' d' fbn = Some zeroes).
Proof.
  intros Hok Hm Hn Hmax Hsp. pose proof (ok_free _ Hok) as Hfree. pose proof (mp_len _ _ _ _ Hm) as Hlen.
  unfold iappend_block, mbind', mret. rewrite nmeta_val, FSSIZE_val in *.
  change NDIRECT with 12. change (Z.to_nat 12) with 12%nat. rewrite Nat2Z.id.
  destruct (decide (n = S fbn)) as [->|Hnew].
  - (* the block is there *)
    exists d, s. split_and!; [|by apply extends_refl|done|lia].
    pose proof (maps_block _ _ _ _ fbn Hm ltac:(lia)) as Hb. rewrite nmeta_val in Hb.
    destruct (Z.ltb_spec (Z.of_nat fbn) 12) as [Hlt|Hge].
    + assert (fblock s d fbn = addr d fbn) as E by (unfold fblock; rewrite decide_True by lia; done).
      rewrite E in *. by rewrite iappend_addr_old by lia.
    + rewrite has_ind_true in Hm by lia. destruct (maps_ind _ _ _ Hm) as [Hi _]. rewrite nmeta_val in Hi.
      rewrite iappend_addr_old by lia.
      rewrite (iappend_entry_old s d (S fbn) fbn Hok Hm) by (rewrite ?FSSIZE_val; unfold cost in Hsp; lia). done.
  - assert (n = fbn) as -> by lia. pose proof (cost_S fbn) as Hcost. assert (freeblock s < 2000) as Hlt0 by lia.
    destruct (Z.ltb_spec (Z.of_nat fbn) 12) as [Hlt|Hge].
    + (* a new direct block *)
      rewrite has_ind_false in * by lia. rewrite iappend_addr_new; [|done|rewrite FSSIZE_val; lia|apply (mp_dir _ _ _ _ Hm); lia].
      destruct (maps_direct s d fbn) as (Hm' & Hf' & Hold); [done|done|lia|rewrite FSSIZE_val; lia|].
      set (d' := with_addr fbn (freeblock s) d) in *. exists d', (grown s). rewrite Hf'. split_and!.
      * unfold d'. fold (addr (with_addr fbn (freeblock s) d) fbn). rewrite addr_with, decide_True by lia. done.
      * split; [apply new_block_ok; [done|lia]|by rewrite has_ind_false by lia|done| |done|by repeat split|by intros b _ _|].
        -- cbn. unfold cost. rewrite !has_ind_false by lia. lia.
        -- rewrite !has_ind_false by lia. apply (owned_grown _ _ _ _ _ _ _ (freeblock s)); [done|done|done|cbn; lia].
      * done.
      * intros _. cbn. apply (ok_zero _ Hok). rewrite FSSIZE_val. lia.
    + destruct (decide (fbn = 12%nat)) as [->|Hne].
      * (* a new indirect block and its first entry *)
        rewrite has_ind_false in * by lia. change (cost 13 - cost 12) with 2 in Hsp.
        rewrite iappend_addr_new; [|done|rewrite FSSIZE_val; lia|by apply (mp_ind _ _ _ _ Hm)].
        destruct (maps_indirect s d) as (Hm1 & Ha1 & Hold1); [done|done|rewrite FSSIZE_val; lia|].
        set (d' := with_addr 12 (freeblock s) d) in *.
        pose proof (proj2 (new_block_ok s Hok ltac:(lia))) as Hok1.
        rewrite (iappend_entry_new (grown s) d' 12 Hok1 Hm1) by (rewrite ?FSSIZE_val; cbn; lia).
        destruct (maps_entry (grown s) d' 12) as (Hok2 & Hm2 & Hf2 & Hold2); [done|done|lia|rewrite FSSIZE_val; cbn; lia|].
        assert (forall k, (k < 12)%nat -> fblock (stored_entry (grown s) d' 12) d' k = fblock s d k) as Hold
          by (intros k Hk; rewrite Hold2, Hold1 by done; done).
        exists d', (stored_entry (grown s) d' 12). rewrite Hf2. split_and!; [done| | |].
        -- split; [done|done|done| |done|by repeat split| |].
           ++ cbn. change (cost 13 - cost 12) with 2. lia.
           ++ intros b _ Hb. cbn. rewrite lookup_insert_ne; [done|]. cbn in Hb. lia.
           ++ intros b Hb. change (has_ind 13) with true in Hb. rewrite has_ind_false by lia.
              eapply (owned_grown s d 12 false _ _ true (freeblock s + 1)); [exact Hold|exact Hf2| |cbn; lia|exact Hb].
              intros _. right. rewrite Ha1. cbn. lia.
        -- intros b Hb _. cbn. rewrite lookup_insert_ne; [done|lia].
        -- intros _. cbn. rewrite lookup_insert_ne by lia. apply (ok_zero _ Hok). rewrite FSSIZE_val. lia.
      * (* a new entry *)
        rewrite has_ind_true in * by lia. destruct (maps_ind _ _ _ Hm) as [Hi Hine]. rewrite nmeta_val in Hi.
        rewrite iappend_addr_old by lia. rewrite (iappend_entry_new s d fbn Hok Hm) by (rewrite ?FSSIZE_val; lia).
        destruct (maps_entry s d fbn) as (Hok2 & Hm2 & Hf2 & Hold2); [done|done|lia|rewrite FSSIZE_val; lia|].
        exists d, (stored_entry s d fbn). rewrite Hf2. split_and!; [done| | |].
        -- split; [done| |done| |done|by repeat split| |].
           ++ by rewrite has_ind_true by lia.
           ++ cbn. unfold cost. rewrite !has_ind_true by lia. lia.
           ++ intros b Hb _. unfold stored_entry. cbn [img]. rewrite lookup_insert_ne; [done|]. intros <-. apply Hb.
              rewrite has_ind_true by lia. by left.
           ++ intros b Hb. rewrite (has_ind_true (S fbn)) in Hb by lia. rewrite has_ind_true by lia.
              eapply (owned_grown s d fbn true _ _ true (freeblock s)); [exact Hold2|exact Hf2|by left|cbn; lia|exact Hb].
        -- intros b Hb Hbi. unfold stored_entry. cbn [img]. rewrite lookup_insert_ne; [done|]. intros E. by apply Hbi.
        -- intros _. unfold stored_entry. cbn [img]. rewrite lookup_insert_ne by lia. apply (ok_zero _ Hok). rewrite FSSIZE_val. lia.
Qed.

(** ** Writing into a block of the file *)

Definition put_block (s : image) (x : Z) (buf : list Z) : image := mk_image (<[x := buf]> (img s)) (freeinode s) (freeblock s).

Lemma put_block_ok s d n i k buf :
  image_ok s -> maps s d n i -> (k < n)%nat -> length buf = 1024%nat ->
  let s' := put_block s (fblock s d k) buf in
  image_ok s' /\ maps s' d n i /\ (forall j, (j < n)%nat -> fblock s' d j = fblock s d j) /\ owned s' d n i = owned s d n i.
Proof.
  intros Hok Hm Hk Hbuf s'. pose proof (maps_block _ _ _ _ k Hm Hk) as Hx.
  assert (i = true -> forall j, entry s' (addr d 12) j = entry s (addr d 12) j) as He.
  { intros -> j. destruct (maps_ind _ _ _ Hm) as [_ Hne]. unfold entry, blk, s', put_block. cbn [img].
    by rewrite lookup_insert_ne by (by apply Hne). }
  assert (forall j, (j < n)%nat -> fblock s' d j = fblock s d j) as Hfb.
  { intros j Hj. unfold fblock. destruct (decide (j < 12)%nat); [done|]. apply He. destruct i; [done|].
    destruct (mp_ind _ _ _ _ Hm eq_refl). lia. }
  assert (owned s' d n i = owned s d n i) as Eo.
  { unfold owned. f_equal. apply list_fmap_ext. intros a j [-> Hj]%lookup_seq. apply Hfb. lia. }
  split_and!; [| |done|done].
  - split; unfold s', put_block; cbn [img freeblock].
    + intros b Hb. rewrite lookup_insert. case_decide; [by eexists|by apply (ok_sect _ Hok)].
    + apply (ok_free _ Hok).
    + intros b Hb. rewrite lookup_insert_ne by lia. by apply (ok_zero _ Hok).
  - destruct Hm as [H1 H2 H3 H4 H5 H6 H7]. split; rewrite ?Eo; try done.
    intros ->. destruct (H5 eq_refl) as [H12 Hz]. split; [done|]. intros j Hj. rewrite He by done. by apply Hz.
Qed.

Lemma nblk_bounds o : (nblk o * 1024 < o + 1024 /\ o <= nblk o * 1024)%nat.
Proof. unfold nblk. dlia. Qed.
Lemma nblk_unique o m : (m * 1024 < o + 1024)%nat -> (o <= m * 1024)%nat -> nblk o = m.
Proof. intros. pose proof (nblk_bounds o). lia. Qed.

(** What one round writes. *)
Lemma round_bytes s d data s1 d1 fbn n1 (p : list Z) buf :
  let o := length data in
  let n := nblk o in
  file s d data -> fbn = (o / 1024)%nat -> (n1 <= length p)%nat -> (o + n1 <= S fbn * 1024)%nat ->
  (forall k, (k < n)%nat -> fblock s1 d1 k = fblock s d k) ->
  (forall k, (k < n)%nat -> img s1 !! fblock s d k = img s !! fblock s d k) ->
  (forall j k, (j < S fbn)%nat -> (k < S fbn)%nat -> fblock s1 d1 j = fblock s1 d1 k -> j = k) ->
  (fbn = n -> img s1 !! fblock s1 d1 fbn = Some zeroes) ->
  img s1 !! fblock s1 d1 fbn = Some buf -> length buf = 1024%nat ->
  let s2 := put_block s1 (fblock s1 d1 fbn) (patch buf (o - fbn * 1024) (take n1 p)) in
  (forall j, (j < S fbn)%nat -> fblock s2 d1 j = fblock s1 d1 j) ->
  forall i, (i < S fbn * 1024)%nat -> byte s2 d1 i = default 0 ((data ++ take n1 p) !! i).
Proof.
  intros o n Hf Hfbn Hn1 Hn2 Hold Himg Hinj Hz Hbuf Hlen s2 Hs2 i Hi.
  pose proof (nblk_bounds o) as Hnb. fold n in Hnb.
  assert (fbn * 1024 <= o < S fbn * 1024)%nat as Hfb by (subst fbn; pose proof (Nat.div_mod_eq o 1024); pose proof (Nat.mod_upper_bound o 1024); lia).
  pose proof (fl_byte _ _ _ Hf i) as Hb. fold o n in Hb.
  pose proof (Nat.div_mod_eq i 1024) as Hdi. pose proof (Nat.mod_upper_bound i 1024 ltac:(lia)) as Hmi.
  set (k := (i / 1024)%nat) in *. set (r := (i mod 1024)%nat) in *.
  assert (length (take n1 p) = n1) as Htl by (rewrite length_take; lia).
  unfold byte. fold k r. rewrite Hs2 by lia. unfold blk, s2, put_block. cbn [img]. rewrite lookup_insert.
  case_decide as Ek.
  - apply Hinj in Ek; [|lia|lia]. cbn [default from_option id]. rewrite patch_lookup by (rewrite Htl; lia).
    rewrite Htl. case_decide as Hr.
    + rewrite lookup_app_r by lia. f_equal. f_equal. lia.
    + destruct (decide (i < o)%nat) as [Hio|Hio].
      * rewrite lookup_app_l by done. rewrite <- Hb by lia. unfold byte, blk. fold k r.
        rewrite <- (Himg k), <- (Hold k) by lia. rewrite <- Ek, Hbuf. done.
      * rewrite (lookup_ge_None_2 (data ++ _)) by (rewrite length_app, Htl; lia). cbn [default from_option id].
        destruct (decide (n = fbn)) as [En|En].
        -- rewrite Hz in Hbuf by done. injection Hbuf as <-. unfold zeroes. rewrite lookup_replicate_2; [done|]. change (Z.to_nat BSIZE) with 1024%nat. lia.
        -- transitivity (byte s d i); [|rewrite Hb by lia; by rewrite lookup_ge_None_2 by lia]. unfold byte, blk. fold k r.
           rewrite <- (Himg k), <- (Hold k) by lia. rewrite <- Ek, Hbuf. done.
  - assert (k <> fbn) as Hkf by (by intros ->). rewrite lookup_app_l by lia.
    rewrite <- Hb by lia. unfold byte, blk. fold k r. rewrite (Hold k), (Himg k) by lia. done.
Qed.

Lemma extends_put s d n s1 d1 n' k buf :
  extends s d n s1 d1 n' -> (k < n')%nat -> (n <= n')%nat -> length buf = 1024%nat ->
  extends s d n (put_block s1 (fblock s1 d1 k) buf) d1 n'.
Proof.
  intros [H1 H2 H3 H4 H5 H6 H7 H8] Hk Hn Hb.
  destruct (put_block_ok s1 d1 n' (has_ind n') k buf H1 H2 Hk Hb) as (P1 & P2 & P3 & P4).
  split; [done|done| |done|done|done| |].
  - intros j Hj. rewrite P3 by lia. by apply H3.
  - intros b Hb1 Hb2. unfold put_block. cbn [img]. rewrite lookup_insert_ne; [by apply H7|]. intros <-.
    destruct (H8 (fblock s1 d1 k)) as [?|?]; [by apply owned_in|done|]. by apply Hb2.
  - intros b. rewrite P4. apply H8.
Qed.

Lemma grown_file_trans s1 d1 n1 s2 d2 n2 s3 d3 n3 :
  (n1 <= n2 <= n3)%nat -> extends s1 d1 n1 s2 d2 n2 -> extends s2 d2 n2 s3 d3 n3 -> extends s1 d1 n1 s3 d3 n3.
Proof.
  intros Hn [A1 A2 A3 A4 A5 A6 A7 A8] [B1 B2 B3 B4 B5 B6 B7 B8].
  pose proof (cost_mono n1 n2 ltac:(lia)). pose proof (cost_mono n2 n3 ltac:(lia)).
  split; [done|done| |lia|congruence|unfold same_meta in *; intuition congruence| |].
  - intros k Hk. rewrite B3 by lia. by apply A3.
  - intros b Hb1 Hb2. rewrite B7; [apply A7; [done|lia]| |lia]. intros Hb. destruct (A8 b Hb); [done|lia].
  - intros b Hb. destruct (B8 b Hb) as [Hb'|?]; [|right; lia]. destruct (A8 b Hb') as [?|?]; [by left|right; lia].
Qed.

Lemma round_ok s d data p :
  image_ok s -> file s d data -> p <> [] -> (length data + length p <= 268 * 1024)%nat ->
  freeblock s + (cost (nblk (length data + length p)) - cost (nblk (length data))) <= FSSIZE ->
  exists d' s' n1, (0 < n1 <= length p)%nat /\
    iappend_round d (Z.of_nat (length data)) p s = Some ((d', Z.of_nat (length data + n1), drop n1 p), s') /\
    file s' d' (data ++ take n1 p) /\
    extends s d (nblk (length data)) s' d' (nblk (length data + n1)).
Proof.
  intros Hok Hf Hp Hfit Hsp. pose proof (fl_maps _ _ _ Hf) as Hm. set (o := length data) in *.
  set (fbn := (o / 1024)%nat). pose proof (nblk_bounds o) as Hnb. pose proof (nblk_bounds (o + length p)) as Hnb2.
  assert (0 < length p)%nat as Hlp by (destruct p; [done|cbn; lia]).
  assert (fbn * 1024 <= o < S fbn * 1024)%nat as Hfb
    by (unfold fbn; pose proof (Nat.div_mod_eq o 1024); pose proof (Nat.mod_upper_bound o 1024); lia).
  set (n1 := Nat.min (length p) (S fbn * 1024 - o)). assert (nblk (o + n1) = S fbn) as En1 by (apply nblk_unique; lia).
  pose proof (cost_mono (S fbn) (nblk (o + length p)) ltac:(lia)) as Hc1.
  destruct (iappend_block_ok s d (nblk o) fbn Hok Hm) as (d1 & s1 & Eb & Hex & Hkeep & Hz); [lia|lia|lia|].
  pose proof (ex_ok _ _ _ _ _ _ Hex) as Hok1. pose proof (ex_maps _ _ _ _ _ _ Hex) as Hm1.
  pose proof (ex_free _ _ _ _ _ _ Hex) as Hfr1. pose proof (maps_block _ _ _ _ fbn Hm1 ltac:(lia)) as Hx.
  pose proof nmeta_val. destruct (ok_sect _ Hok1 (fblock s1 d1 fbn)) as (buf & Ebuf & Hbuf); [lia|].
  assert (length (take n1 p) = n1) as Htl by (rewrite length_take; lia).
  set (w := patch buf (o - fbn * 1024) (take n1 p)).
  assert (length w = 1024%nat) as Hw by (unfold w; rewrite length_patch; [done|rewrite Htl; lia]).
  pose proof (extends_put s d (nblk o) s1 d1 (S fbn) fbn w Hex ltac:(lia) ltac:(lia) Hw) as Hex2.
  exists d1, (put_block s1 (fblock s1 d1 fbn) w), n1. split_and!; [lia|lia| | |by rewrite En1].
  - unfold iappend_round. change BSIZE with 1024. replace (Z.of_nat o / 1024) with (Z.of_nat fbn) by (unfold fbn; by rewrite Nat2Z.inj_div).
    unfold assert, mbind'. change MAXFILE with 268. rewrite (proj2 (Z.ltb_lt _ _)) by lia. unfold mret at 1. rewrite Eb.
    replace (Z.to_nat (Z.min (Z.of_nat (length p)) ((Z.of_nat fbn + 1) * 1024 - Z.of_nat o))) with n1 by lia.
    replace (Z.to_nat (Z.of_nat o - Z.of_nat fbn * 1024)) with (o - fbn * 1024)%nat by lia.
    unfold rsect. rewrite Ebuf. unfold wsect, mret. rewrite u32_small by lia. by rewrite <- Nat2Z.inj_add.
  - split; rewrite length_app, Htl; fold o; rewrite En1; [apply Hex2|].
    destruct (put_block_ok s1 d1 (S fbn) (has_ind (S fbn)) fbn w Hok1 Hm1 ltac:(lia) Hw) as (_ & _ & P3 & _).
    apply (round_bytes s d data s1 d1 fbn n1 p buf Hf eq_refl); [lia|lia|apply Hex| | |done|done|done|done].
    + intros k Hk. pose proof (maps_block _ _ _ _ k Hm Hk). apply Hkeep; [lia|]. intros Hi. rewrite Hi in Hm.
      by apply (maps_ind _ _ _ Hm).
    + intros j k Hj Hk. by apply (maps_inj _ _ _ _ _ _ Hm1).
Qed.

Lemma loop_ok n s d data p :
  image_ok s -> file s d data -> (length p <= n)%nat -> (length data + length p <= 268 * 1024)%nat ->
  freeblock s + (cost (nblk (length data + length p)) - cost (nblk (length data))) <= FSSIZE ->
  exists d' s', iappend_loop n d (Z.of_nat (length data)) p s = Some ((d', Z.of_nat (length data + length p)), s') /\
    file s' d' (data ++ p) /\ extends s d (nblk (length data)) s' d' (nblk (length data + length p)).
Proof.
  revert s d data p. induction n as [|n IH]; intros s d data p Hok Hf Hn Hfit Hsp.
  - destruct p as [|x p]; [|cbn in Hn; lia]. cbn [length] in *. rewrite Nat.add_0_r in *. exists d, s.
    split_and!; [done|by rewrite app_nil_r|]. apply extends_refl; [done|apply Hf].
  - destruct p as [|x p].
    { cbn [length] in *. rewrite Nat.add_0_r in *. exists d, s.
      split_and!; [done|by rewrite app_nil_r|]. apply extends_refl; [done|apply Hf]. }
    set (q := x :: p) in *.
    destruct (round_ok s d data q) as (d1 & s1 & n1 & Hn1 & E & Hf1 & Hex1); [done|done|done|done|done|].
    pose proof (ex_free _ _ _ _ _ _ Hex1) as Hfr.
    assert (length (take n1 q) = n1) as Htl by (rewrite length_take; lia).
    assert (length (data ++ take n1 q) = length data + n1)%nat as Hl1 by (rewrite length_app, Htl; done).
    assert (length data + n1 + length (drop n1 q) = length data + length q)%nat as Hl2 by (rewrite length_drop; lia).
    destruct (IH s1 d1 (data ++ take n1 q) (drop n1 q)) as (d2 & s2 & E2 & Hf2 & Hex2).
    + apply Hex1.
    + done.
    + rewrite length_drop. lia.
    + rewrite Hl1, Hl2. done.
    + rewrite Hl1, Hl2. lia.
    + rewrite Hl1, Hl2 in *. rewrite <- app_assoc, take_drop in Hf2. exists d2, s2. split_and!; [|done|].
      * cbn [iappend_loop]. unfold q at 1. unfold mbind'. rewrite E. exact E2.
      * eapply grown_file_trans; [|exact Hex1|exact Hex2].
        pose proof (nblk_bounds (length data)). pose proof (nblk_bounds (length data + n1)). pose proof (nblk_bounds (length data + length q)). lia.
Qed.

(** ** Inodes *)

Definition dino (s : image) (inum : Z) : dinode := get_dinode (blk s (IBLOCK inum sb)) (dinode_off inum).
Definition ninum : Z := ninodeblocks * IPB.

Lemma IBLOCK_range inum : 0 <= inum < ninum -> 32 <= IBLOCK inum sb < 45.
Proof.
  intros Hi. change ninum with 208 in Hi. unfold IBLOCK. change (sb_inodestart sb) with 32. change IPB with 16.
  rewrite u32_small; dlia.
Qed.

(** A file depends on its own blocks only. *)
Lemma file_frame s s' d data :
  let n := nblk (length data) in
  file s d data -> freeblock s <= freeblock s' ->
  (forall b, b ∈ owned s d n (has_ind n) -> img s' !! b = img s !! b) ->
  file s' d data /\ owned s' d n (has_ind n) = owned s d n (has_ind n).
Proof.
  intros n [Hm Hb] Hf Hi. fold n in Hm, Hb.
  assert (has_ind n = true -> forall j, entry s' (addr d 12) j = entry s (addr d 12) j) as He.
  { intros E j. unfold entry, blk. rewrite Hi; [done|]. rewrite E. by left. }
  assert (forall k, (k < n)%nat -> fblock s' d k = fblock s d k) as Hfb.
  { intros k Hk. unfold fblock. destruct (decide (k < 12)%nat); [done|]. apply He, has_ind_true. lia. }
  assert (owned s' d n (has_ind n) = owned s d n (has_ind n)) as Eo.
  { unfold owned. f_equal. apply list_fmap_ext. intros a j [-> Hj]%lookup_seq. apply Hfb. lia. }
  split; [|done]. split; fold n.
  - destruct Hm as [H1 H2 H3 H4 H5 H6 H7]. split; rewrite ?Eo; try done.
    + intros Et. destruct (H5 Et) as [H12 Hz]. split; [done|]. intros j Hj. rewrite He by done. by apply Hz.
    + eapply Forall_impl; [exact H6|]. cbn. lia.
  - intros o Ho. rewrite <- Hb by done. unfold byte, blk.
    assert (o / 1024 < n)%nat by (apply Nat.Div0.div_lt_upper_bound; lia).
    rewrite Hfb, Hi by (done || by apply owned_in). done.
Qed.

Lemma i16_range x : int16 (i16 x).
Proof. unfold int16, i16. pose proof (Z.mod_pos_bound (x + 2 ^ 15) (2 ^ 16)). lia. Qed.

Lemma maps_wf s d n i :
  maps s d n i -> freeblock s <= FSSIZE -> int16 (d_type d) -> int16 (d_major d) -> int16 (d_minor d) ->
  int16 (d_nlink d) -> uint32 (d_size d) -> dinode_wf d.
Proof.
  intros Hm Hf ? ? ? ? ?. rewrite FSSIZE_val in Hf. pose proof nmeta_val. split; try done; [|apply Hm].
  apply Forall_lookup. intros k x Hk. assert (x = addr d k) as -> by (unfold addr; by rewrite Hk).
  apply lookup_lt_Some in Hk. rewrite (mp_len _ _ _ _ Hm) in Hk. unfold uint32.
  assert (forall b, nmeta <= b < freeblock s -> 0 <= b < 2 ^ 32) as Hr by (intros; lia).
  destruct (decide (k = 12)%nat) as [->|Hne].
  - destruct i; [apply Hr, (maps_ind _ _ _ Hm)|]. destruct (mp_ind _ _ _ _ Hm eq_refl). lia.
  - destruct (decide (k < n)%nat) as [Hkn|Hkn]; [|rewrite (mp_dir _ _ _ _ Hm) by lia; lia].
    pose proof (maps_block _ _ _ _ k Hm Hkn) as Hb. unfold fblock in Hb. rewrite decide_True in Hb by lia. by apply Hr.
Qed.

(** Storing an inode changes that inode only. *)
Lemma winode_ok s inum d :
  image_ok s -> 0 <= inum < ninum -> dinode_wf d ->
  exists s', winode inum d s = Some (tt, s') /\ image_ok s' /\ dino s' inum = d /\
    (forall j, 0 <= j < ninum -> j <> inum -> dino s' j = dino s j) /\
    (forall b, b <> IBLOCK inum sb -> img s' !! b = img s !! b) /\
    freeblock s' = freeblock s /\ freeinode s' = freeinode s.
Proof.
  intros Hok Hi Hd. pose proof (IBLOCK_range inum Hi) as Hr. pose proof nmeta_val. pose proof FSSIZE_val. pose proof (ok_free _ Hok).
  destruct (ok_sect _ Hok (IBLOCK inum sb)) as (l & El & Hl); [lia|].
  pose proof (dinode_off_bound inum) as Hob. change (Z.to_nat BSIZE) with 1024%nat in Hob.
  exists (put_block s (IBLOCK inum sb) (put_dinode d (dinode_off inum) l)).
  assert (forall j, blk (put_block s (IBLOCK inum sb) (put_dinode d (dinode_off inum) l)) (IBLOCK j sb)
    = if decide (IBLOCK inum sb = IBLOCK j sb) then put_dinode d (dinode_off inum) l else blk s (IBLOCK j sb)) as Hblk.
  { intros j. unfold blk, put_block. cbn [img]. rewrite lookup_insert. by case_decide. }
  split_and!.
  - unfold winode, mbind', rsect. rewrite El. done.
  - split; unfold put_block; cbn [img freeblock].
    + intros b Hb. rewrite lookup_insert. case_decide; [|by apply (ok_sect _ Hok)]. eexists. split; [done|].
      unfold put_dinode. rewrite length_patch; [done|]. rewrite length_dinode_bytes by apply Hd. lia.
    + done.
    + intros b Hb. rewrite lookup_insert_ne by lia. by apply (ok_zero _ Hok).
  - unfold dino. rewrite Hblk, decide_True by done. apply (get_put_dinode d (dinode_off inum) 0 l Hd). lia.
  - intros j Hj Hne. unfold dino. rewrite Hblk. case_decide as E; [|done].
    rewrite (proj2 (get_put_dinode d (dinode_off inum) (dinode_off j) l Hd ltac:(lia))).
    + unfold blk. rewrite <- E, El. reflexivity.
    + assert (inum / IPB = j / IPB) as Eq.
      { unfold IBLOCK in E. change ninum with 208 in *. change (sb_inodestart sb) with 32 in E. change IPB with 16 in *.
        rewrite !u32_small in E by dlia. lia. }
      destruct (dinode_off_apart inum j) as [?|?]; [lia|lia|done|congruence|lia|lia].
  - intros b Hb. unfold put_block. cbn [img]. by rewrite lookup_insert_ne.
  - done.
  - done.
Qed.

(** The inode [inum] has type [type], one link, and holds [data]. *)
Record at_inode (s : image) (inum type : Z) (data : list Z) : Prop := mk_at_inode {
  ai_type : d_type (dino s inum) = type;
  ai_nlink : d_nlink (dino s inum) = 1;
  ai_size : d_size (dino s inum) = Z.of_nat (length data);
  ai_file : file s (dino s inum) data
}.
Definition blocks_of (s : image) (inum : Z) (data : list Z) : list Z :=
  owned s (dino s inum) (nblk (length data)) (has_ind (nblk (length data))).

(** iappend() of [p] extends the file of the inode by [p]; other inodes, and
    the blocks that neither belong to the file nor were free, are unchanged. *)
Lemma iappend_ok s inum type data p :
  image_ok s -> 0 <= inum < ninum -> at_inode s inum type data ->
  (length data + length p <= 268 * 1024)%nat ->
  freeblock s + (cost (nblk (length data + length p)) - cost (nblk (length data))) <= FSSIZE ->
  exists s', iappend inum p s = Some (tt, s') /\ image_ok s' /\ at_inode s' inum type (data ++ p) /\
    freeblock s' = freeblock s + (cost (nblk (length data + length p)) - cost (nblk (length data))) /\
    freeinode s' = freeinode s /\
    (forall j, 0 <= j < ninum -> j <> inum -> dino s' j = dino s j) /\
    (forall b, b ∉ blocks_of s inum data -> ~ (freeblock s <= b < freeblock s') -> ~ (32 <= b < 45) -> img s' !! b = img s !! b) /\
    (forall b, b ∈ blocks_of s' inum (data ++ p) -> b ∈ blocks_of s inum data \/ freeblock s <= b < freeblock s').
Proof.
  intros Hok Hi Hat Hfit Hsp. pose proof (IBLOCK_range inum Hi) as Hr. pose proof nmeta_val. pose proof FSSIZE_val.
  destruct (ok_sect _ Hok (IBLOCK inum sb)) as (l & El & Hl); [lia|].
  destruct (loop_ok (length p) s (dino s inum) data p) as (d1 & s1 & E1 & Hf1 & Hex); [done|apply Hat|done|done|done|].
  destruct Hex as [X1 X2 X3 X4 X5 X6 X7 X8].
  assert (forall j, 0 <= j < ninum -> img s1 !! IBLOCK j sb = img s !! IBLOCK j sb) as Hino.
  { intros j Hj. pose proof (IBLOCK_range j Hj). pose proof (ok_free _ Hok). apply X7; [|lia]. intros Hin.
    pose proof (mp_own _ _ _ _ (fl_maps _ _ _ (ai_file _ _ _ _ Hat))) as Ho. rewrite Forall_forall in Ho. specialize (Ho _ Hin). lia. }
  assert (forall j, 0 <= j < ninum -> dino s1 j = dino s j) as Hdino.
  { intros j Hj. unfold dino, blk. by rewrite Hino. }
  destruct X6 as (M1 & M2 & M3 & M4 & M5).
  set (d2 := with_size (Z.of_nat (length data + length p)) d1).
  assert (dinode_wf d2) as Hwf.
  { apply (maps_wf s1 d2 (nblk (length data + length p)) (has_ind (nblk (length data + length p)))).
    - destruct X2. by split.
    - lia.
    - cbn. rewrite M1. apply i16_range.
    - cbn. rewrite M2. apply i16_range.
    - cbn. rewrite M3. apply i16_range.
    - cbn. rewrite M4. apply i16_range.
    - cbn. unfold uint32. lia. }
  destruct (winode_ok s1 inum d2 X1 Hi Hwf) as (s2 & E2 & W1 & W2 & W3 & W4 & W5 & W6).
  assert (forall b, b ∈ owned s1 d2 (nblk (length (data ++ p))) (has_ind (nblk (length (data ++ p)))) -> img s2 !! b = img s1 !! b) as Hkeep.
  { intros b Hb. apply W4. rewrite length_app in Hb. pose proof (mp_own _ _ _ _ X2) as Ho. rewrite Forall_forall in Ho. specialize (Ho b Hb). lia. }
  assert (file s1 d2 (data ++ p)) as Hf1' by (destruct Hf1 as [[] ?]; by split).
  destruct (file_frame s1 s2 d2 (data ++ p) Hf1' ltac:(lia) Hkeep) as [Hf2 Ho2].
  exists s2. split_and!; [|done| |lia|congruence| | |].
  - unfold iappend, rinode, mbind'. unfold rsect at 1. rewrite El. unfold mret at 1.
    assert (get_dinode l (dinode_off inum) = dino s inum) as -> by (unfold dino, blk; by rewrite El).
    rewrite (ai_size _ _ _ _ Hat). rewrite xint_id by lia. rewrite E1. rewrite xint_id by lia. exact E2.
  - split; rewrite W2.
    + cbn. rewrite M1. apply Hat.
    + cbn. rewrite M4. apply Hat.
    + cbn. by rewrite length_app.
    + done.
  - intros j Hj Hne. rewrite W3, Hdino by done. done.
  - intros b Hb1 Hb2 Hb3. rewrite W4 by lia. apply X7; [exact Hb1|lia].
  - intros b Hb. unfold blocks_of in Hb. rewrite W2, Ho2, length_app in Hb. rewrite W5. by apply X8.
Qed.
