(* ===== verification/MkfsImage.v ===== *)
(** * The whole image (mkfs.c: main).

    [fs_ok s fls]: the inodes from 1 on hold the files [fls], in blocks of
    their own, and the blocks in use are those the files need.  Every step of
    main() keeps it; the final image is described by [mkfs_correct]. *)

From S2P Require Import Prelude Defs KMonad Lock Mem Kalloc Sched Sleeplock Bio Log Vm Uart Fs FsBlock FsInode FsAlloc Mkfs MkfsSpec.

(** ** The files of an image *)

(** Type and contents. *)
Abbreviation fileinfo := (Z * list Z)%type.

(** The blocks that files of these lengths take, after the metadata. *)
Definition total (ls : list nat) : Z := nmeta + foldr (fun n a => cost (nblk n) + a) 0 ls.
Definition lens (fls : list fileinfo) : list nat := (fun f => length (snd f)) <$> fls.

Record fs_ok (s : image) (fls : list fileinfo) : Prop := mk_fs_ok {
  fo_ok : image_ok s;
  fo_super : img s !! 1 = Some (patch zeroes 0 (sb_bytes sb));
  fo_inodes : freeinode s = 1 + Z.of_nat (length fls);
  fo_blocks : freeblock s = total (lens fls);
  fo_files k type data : fls !! k = Some (type, data) -> at_inode s (Z.of_nat k + 1) type data;
  fo_apart j k tj dj tk dk b : fls !! j = Some (tj, dj) -> fls !! k = Some (tk, dk) -> j <> k ->
    b ∈ blocks_of s (Z.of_nat j + 1) dj -> b ∉ blocks_of s (Z.of_nat k + 1) dk
}.

(** There is room for files of these lengths. *)
Definition room (ls : list nat) : Prop :=
  total ls <= FSSIZE /\ Forall (fun n => (n <= 268 * 1024)%nat) ls /\ Z.of_nat (length ls) < ninum.

Lemma cost_nonneg n : 0 <= cost n.
Proof. unfold cost. destruct (has_ind n); lia. Qed.
Lemma nblk_mono n m : (n <= m)%nat -> (nblk n <= nblk m)%nat.
Proof. intros. pose proof (nblk_bounds n). pose proof (nblk_bounds m). lia. Qed.

Lemma total_mono l1 l2 l3 : Forall2 le l1 l2 -> total l1 <= total (l2 ++ l3).
Proof.
  intros H. unfold total. induction H as [|a b l1 l2 Hab _ IH]; cbn [foldr app].
  - assert (0 <= foldr (fun n a => cost (nblk n) + a) 0 l3); [|lia].
    induction l3 as [|n l3 IH3]; cbn; [lia|]. pose proof (cost_nonneg (nblk n)). lia.
  - pose proof (cost_mono (nblk a) (nblk b) (nblk_mono a b Hab)). lia.
Qed.
Lemma room_mono l1 l2 l3 : Forall2 le l1 l2 -> room (l2 ++ l3) -> room l1.
Proof.
  intros H (H1 & H2 & H3). split_and!.
  - pose proof (total_mono l1 l2 l3 H). lia.
  - apply Forall_app in H2 as [H2 _]. clear H1 H3. induction H as [|a b l1 l2 Hab _ IH]; [constructor|].
    apply Forall_cons in H2 as [? ?]. constructor; [lia|auto].
  - pose proof (Forall2_length _ _ _ H). rewrite length_app in H3. lia.
Qed.

Lemma total_insert ls k n m : ls !! k = Some n -> total (<[k := m]> ls) = total ls + (cost (nblk m) - cost (nblk n)).
Proof.
  unfold total. revert k. induction ls as [|x ls IH]; intros [|k] Hk; cbn in Hk; [done..| |].
  - injection Hk as ->. change (<[0%nat := m]> (n :: ls)) with (m :: ls). cbn [foldr]. lia.
  - change (<[S k := m]> (x :: ls)) with (x :: <[k := m]> ls). cbn [foldr]. specialize (IH k Hk). lia.
Qed.
Lemma total_snoc ls n : total (ls ++ [n]) = total ls + cost (nblk n).
Proof. unfold total. induction ls as [|x ls IH]; cbn [foldr app] in *; lia. Qed.

(** ** Steps *)

Lemma blocks_range s fls k type data b :
  fs_ok s fls -> fls !! k = Some (type, data) -> b ∈ blocks_of s (Z.of_nat k + 1) data -> nmeta <= b < freeblock s.
Proof.
  intros Hfs Hk Hb. pose proof (mp_own _ _ _ _ (fl_maps _ _ _ (ai_file _ _ _ _ (fo_files _ _ Hfs _ _ _ Hk)))) as Ho.
  rewrite Forall_forall in Ho. by apply Ho.
Qed.

(** Appending to one file. *)
Lemma append_ok s fls k type data p :
  fs_ok s fls -> fls !! k = Some (type, data) -> room (lens (<[k := (type, data ++ p)]> fls)) ->
  exists s', iappend (Z.of_nat k + 1) p s = Some (tt, s') /\ fs_ok s' (<[k := (type, data ++ p)]> fls).
Proof.
  intros Hfs Hk (Hr1 & Hr2 & Hr3). pose proof (lookup_lt_Some _ _ _ Hk) as Hlt.
  unfold lens in Hr1, Hr2, Hr3. rewrite list_fmap_insert in Hr1, Hr2. cbn [snd] in Hr1, Hr2.
  rewrite length_fmap, length_insert in Hr3.
  assert (lens fls !! k = Some (length data)) as Hkl by (unfold lens; rewrite list_lookup_fmap, Hk; done).
  rewrite (total_insert _ _ _ _ Hkl) in Hr1. rewrite length_app in Hr1.
  destruct (iappend_ok s (Z.of_nat k + 1) type data p) as (s' & E & Hok & Hat & Hfb & Hfi & Hdi & Hout & Hown).
  - apply Hfs.
  - lia.
  - by apply Hfs.
  - rewrite Forall_forall in Hr2. rewrite <- length_app. apply Hr2. apply list_elem_of_lookup. exists k.
    apply list_lookup_insert_eq. by rewrite length_fmap.
  - rewrite (fo_blocks _ _ Hfs). done.
  - pose proof (cost_mono (nblk (length data)) (nblk (length data + length p)) (nblk_mono (length data) (length data + length p) ltac:(lia))) as Hcm.
    pose proof nmeta_val. pose proof (ok_free _ (fo_ok _ _ Hfs)) as Hfree.
    assert (forall j tj dj, fls !! j = Some (tj, dj) -> j <> k ->
      at_inode s' (Z.of_nat j + 1) tj dj /\ blocks_of s' (Z.of_nat j + 1) dj = blocks_of s (Z.of_nat j + 1) dj) as Hothers.
    { intros j tj dj Hj Hne. pose proof (lookup_lt_Some _ _ _ Hj). pose proof (fo_files _ _ Hfs _ _ _ Hj) as [A1 A2 A3 A4].
      assert (dino s' (Z.of_nat j + 1) = dino s (Z.of_nat j + 1)) as Ed by (apply Hdi; lia).
      destruct (file_frame s s' (dino s (Z.of_nat j + 1)) dj A4) as [Hf Ho]; [lia| |].
      - intros b Hb. pose proof (blocks_range s fls j tj dj b Hfs Hj Hb).
        apply Hout; [|lia|lia]. by apply (fo_apart _ _ Hfs j k tj dj type data b).
      - split; [split; by rewrite Ed|]. unfold blocks_of. by rewrite Ed. }
    exists s'. split; [done|]. split.
    + done.
    + rewrite Hout; [apply Hfs| |lia|lia]. intros Hb. pose proof (blocks_range s fls k type data 1 Hfs Hk Hb). lia.
    + rewrite Hfi, length_insert. apply Hfs.
    + unfold lens. rewrite list_fmap_insert. cbn [snd]. fold (lens fls). rewrite (total_insert _ _ _ _ Hkl), length_app.
      rewrite Hfb, (fo_blocks _ _ Hfs). done.
    + intros j t dj Hj. destruct (decide (j = k)) as [->|Hne].
      * rewrite list_lookup_insert_eq in Hj by done. by injection Hj as <- <-.
      * rewrite list_lookup_insert_ne in Hj by done. by apply Hothers.
    + assert (forall j tj dj b, fls !! j = Some (tj, dj) -> j <> k -> b ∈ blocks_of s (Z.of_nat j + 1) dj ->
        b ∉ blocks_of s' (Z.of_nat k + 1) (data ++ p)) as Hsep.
      { intros j tj dj b Hj Hne Hb Hb'. pose proof (blocks_range s fls j tj dj b Hfs Hj Hb).
        destruct (Hown b Hb') as [Hb2|?]; [|lia]. by apply (fo_apart _ _ Hfs j k tj dj type data b). }
      intros i j ti di tj dj b Hi Hj Hne Hb Hb'.
      destruct (decide (i = k)) as [->|Hik]; destruct (decide (j = k)) as [->|Hjk]; [done|..].
      * rewrite list_lookup_insert_eq in Hi by done. injection Hi as <- <-. rewrite list_lookup_insert_ne in Hj by done.
        destruct (Hothers _ _ _ Hj Hjk) as [_ Eo]. rewrite Eo in Hb'. by eapply Hsep.
      * rewrite list_lookup_insert_eq in Hj by done. injection Hj as <- <-. rewrite list_lookup_insert_ne in Hi by done.
        destruct (Hothers _ _ _ Hi Hik) as [_ Eo]. rewrite Eo in Hb. by eapply Hsep.
      * rewrite list_lookup_insert_ne in Hi, Hj by done. destruct (Hothers _ _ _ Hi Hik) as [_ Ei].
        destruct (Hothers _ _ _ Hj Hjk) as [_ Ej]. rewrite Ei in Hb. rewrite Ej in Hb'. by apply (fo_apart _ _ Hfs i j ti di tj dj b).
Qed.

(** A new inode with an empty file. *)
Lemma empty_file s d : (forall k, (k <= 12)%nat -> addr d k = 0) -> length (d_addrs d) = 13%nat -> file s d [].
Proof.
  intros Ha Hl. split; cbn [length]; change (nblk 0) with 0%nat; [|lia]. change (has_ind 0) with false.
  split; [done|lia| | |done|constructor|constructor]; intros; [apply Ha; lia|split; [lia|apply Ha; lia]].
Qed.

Lemma ialloc_ok s fls type :
  fs_ok s fls -> Z.of_nat (length fls) + 1 < ninum -> 0 <= type < 2 ^ 15 ->
  exists s', ialloc type s = Some (Z.of_nat (length fls) + 1, s') /\ fs_ok s' (fls ++ [(type, [])]).
Proof.
  intros Hfs Hlt Ht. pose proof (fo_inodes _ _ Hfs) as Hfi. change ninum with 208 in *.
  set (inum := Z.of_nat (length fls) + 1) in *. set (s0 := mk_image (img s) (freeinode s + 1) (freeblock s)).
  set (din := mk_dinode type 0 0 1 0 (replicate 13 0)).
  assert (image_ok s0) as Hok0 by (destruct (fo_ok _ _ Hfs); by split).
  assert (dinode_wf din) as Hwf.
  { split; cbn; unfold int16, uint32; try lia; [|done]. change (Forall uint32 (replicate 13 0)). apply Forall_replicate. unfold uint32. lia. }
  destruct (winode_ok s0 inum din Hok0) as (s' & E & W1 & W2 & W3 & W4 & W5 & W6); [change ninum with 208; lia|done|].
  exists s'. split.
  { unfold ialloc. assert (xshort type = type) as ->.
    { unfold xshort, u8. cbn [le_val]. rewrite Z.shiftr_div_pow2 by lia. change (2 ^ 8) with 256. dlia. }
    change (xshort 1) with 1. change (xint 0) with 0. change (Z.to_nat NDIRECT + 1)%nat with 13%nat. fold din.
    change (s <| freeinode := u32 (freeinode s + 1) |>) with (mk_image (img s) (u32 (freeinode s + 1)) (freeblock s)).
    rewrite u32_small by lia. fold s0. unfold mbind'. replace (freeinode s) with inum by lia. by rewrite E. }
  pose proof nmeta_val. pose proof (ok_free _ (fo_ok _ _ Hfs)) as Hfree.
  pose proof (IBLOCK_range inum ltac:(change ninum with 208; lia)) as Hr.
  assert (forall j tj dj, fls !! j = Some (tj, dj) ->
    at_inode s' (Z.of_nat j + 1) tj dj /\ blocks_of s' (Z.of_nat j + 1) dj = blocks_of s (Z.of_nat j + 1) dj) as Hothers.
  { intros j tj dj Hj. pose proof (lookup_lt_Some _ _ _ Hj). pose proof (fo_files _ _ Hfs _ _ _ Hj) as [A1 A2 A3 A4].
    assert (dino s' (Z.of_nat j + 1) = dino s (Z.of_nat j + 1)) as Ed by (rewrite W3; [done|change ninum with 208; lia|lia]).
    destruct (file_frame s s' (dino s (Z.of_nat j + 1)) dj A4) as [Hf Ho]; [rewrite W5; cbn; lia| |].
    - intros b Hb. pose proof (blocks_range s fls j tj dj b Hfs Hj Hb). apply W4. lia.
    - split; [split; by rewrite Ed|]. unfold blocks_of. by rewrite Ed. }
  assert (forall k t data, (fls ++ [(type, [])]) !! k = Some (t, data) -> fls !! k = Some (t, data) \/ k = length fls /\ t = type /\ data = []) as Hcase.
  { intros k t data [?|[? Hk]]%lookup_app_Some; [by left|right]. destruct (k - length fls)%nat eqn:Ek; [|done].
    injection Hk as <- <-. split_and!; [lia|done|done]. }
  split.
  - done.
  - rewrite W4 by lia. apply Hfs.
  - rewrite W6, length_app. cbn. lia.
  - unfold lens. rewrite fmap_app. cbn [fmap list_fmap snd length]. rewrite total_snoc. fold (lens fls).
    change (cost (nblk 0)) with 0. rewrite W5. cbn. rewrite (fo_blocks _ _ Hfs). lia.
  - intros k t data [Hk|(-> & -> & ->)]%Hcase; [by apply Hothers|]. fold inum. split; rewrite W2; try done.
    apply empty_file; [|done]. intros k Hk. unfold addr, din. cbn [d_addrs]. rewrite lookup_replicate_2 by lia. done.
  - intros i j ti di tj dj b Hi Hj Hne Hb Hb'. apply Hcase in Hi as [Hi|(-> & -> & ->)].
    + apply Hcase in Hj as [Hj|(-> & -> & ->)].
      * destruct (Hothers _ _ _ Hi) as [_ Ei]. destruct (Hothers _ _ _ Hj) as [_ Ej]. rewrite Ei in Hb. rewrite Ej in Hb'.
        by apply (fo_apart _ _ Hfs i j ti di tj dj b).
      * unfold blocks_of, owned in Hb'. cbn in Hb'. by apply elem_of_nil in Hb'.
    + unfold blocks_of, owned in Hb. cbn in Hb. by apply elem_of_nil in Hb.
Qed.

Lemma le_refl_all l : Forall2 le l l.
Proof. induction l; constructor; auto. Qed.
Lemma lens_le_insert fls k t d d' : (length d <= length d')%nat ->
  Forall2 le (lens (<[k := (t, d)]> fls)) (lens (<[k := (t, d')]> fls)).
Proof. intros Hd. unfold lens. rewrite !list_fmap_insert. apply Forall2_insert; [apply le_refl_all|done]. Qed.

Lemma pieces_ok pieces s fls k type data :
  fs_ok s fls -> fls !! k = Some (type, data) -> room (lens (<[k := (type, data ++ concat pieces)]> fls)) ->
  exists s', each_piece (Z.of_nat k + 1) pieces s = Some (tt, s') /\ fs_ok s' (<[k := (type, data ++ concat pieces)]> fls).
Proof.
  revert s fls data. induction pieces as [|p pieces IH]; intros s fls data Hfs Hk Hroom; cbn [each_piece concat] in *.
  { exists s. split; [done|]. rewrite app_nil_r. by rewrite list_insert_id. }
  destruct (append_ok s fls k type data p Hfs Hk) as (s1 & E1 & Hfs1).
  { eapply room_mono; [|by rewrite app_nil_r]. apply lens_le_insert. rewrite !length_app. lia. }
  destruct (IH s1 (<[k := (type, data ++ p)]> fls) (data ++ p) Hfs1) as (s2 & E2 & Hfs2).
  { apply list_lookup_insert_eq. by eapply lookup_lt_Some. }
  { by rewrite list_insert_insert_eq, <- app_assoc. }
  exists s2. rewrite list_insert_insert_eq, <- app_assoc in Hfs2. split; [|done].
  unfold mbind'. by rewrite E1.
Qed.

(** ** The files *)

Definition no_slash (f : list Z * list (list Z)) : Prop := 47 ∉ shortname (fst f).

(** The entries of the files, whose inodes are numbered from [inum]. *)
Fixpoint dir_of (inum : Z) (files : list (list Z * list (list Z))) : list Z :=
  match files with
  | [] => []
  | f :: files => dirent inum (skip_underscore (shortname (fst f))) ++ dir_of (inum + 1) files
  end.
Definition contents (files : list (list Z * list (list Z))) : list fileinfo := (fun f => (T_FILE, concat (snd f))) <$> files.

Lemma add_file_ok s dir rest f :
  fs_ok s ((T_DIR, dir) :: rest) -> no_slash f ->
  let inum := Z.of_nat (length rest) + 2 in
  let fls := (T_DIR, dir ++ dirent inum (skip_underscore (shortname (fst f)))) :: rest ++ [(T_FILE, concat (snd f))] in
  room (lens fls) -> exists s', add_file ROOTINO f s = Some (tt, s') /\ fs_ok s' fls.
Proof.
  intros Hfs Hns inum fls Hroom. destruct f as [path pieces]. cbn [fst snd] in *.
  pose proof (proj2 (proj2 Hroom)) as R3.
  unfold lens, fls in R3. rewrite length_fmap in R3. cbn [length] in R3. rewrite length_app in R3. cbn [length] in R3.
  destruct (ialloc_ok s _ T_FILE Hfs) as (s1 & E1 & Hfs1); [cbn [length]; lia|done|].
  set (de := dirent inum (skip_underscore (shortname path))) in *.
  set (fls1 := (((T_DIR, dir) :: rest) ++ [(T_FILE, [])])) in *.
  assert (<[0%nat := (T_DIR, dir ++ de)]> fls1 = ((T_DIR, dir ++ de) :: rest) ++ [(T_FILE, [])]) as Ei by done.
  destruct (append_ok s1 fls1 0 T_DIR dir de Hfs1 eq_refl) as (s2 & E2 & Hfs2).
  { rewrite Ei. eapply (room_mono _ (lens fls) []); [|by rewrite app_nil_r]. unfold lens, fls.
    rewrite fmap_app. cbn [fmap list_fmap snd app]. constructor; [done|]. rewrite fmap_app.
    apply Forall2_app; [apply le_refl_all|]. constructor; [cbn; lia|constructor]. }
  rewrite Ei in Hfs2. set (fls2 := ((T_DIR, dir ++ de) :: rest) ++ [(T_FILE, [])]) in *.
  assert (fls2 !! length ((T_DIR, dir ++ de) :: rest) = Some (T_FILE, [])) as Hk by (by apply list_lookup_middle).
  assert (<[length ((T_DIR, dir ++ de) :: rest) := (T_FILE, concat pieces)]> fls2 = fls) as Ej.
  { unfold fls2, fls. rewrite insert_app_r_alt, Nat.sub_diag by lia. done. }
  destruct (pieces_ok pieces s2 fls2 _ T_FILE [] Hfs2 Hk) as (s3 & E3 & Hfs3); [by rewrite app_nil_l, Ej|].
  rewrite app_nil_l, Ej in Hfs3. exists s3. split; [|done].
  unfold add_file, assert, mbind'. assert (existsb (Z.eqb 47) (shortname path) = false) as ->.
  { apply not_true_is_false. intros (x & Hx & <-%Z.eqb_eq)%existsb_exists. apply Hns. by apply list_elem_of_In. }
  cbn [negb]. unfold mret at 1. rewrite E1. change ROOTINO with (Z.of_nat 0 + 1).
  cbn [length] in E2, E3 |- *. replace (Z.of_nat (S (length rest)) + 1) with inum in * by lia. fold de. rewrite E2. exact E3.
Qed.

Lemma add_files_ok files s dir rest :
  fs_ok s ((T_DIR, dir) :: rest) -> Forall no_slash files ->
  let fls := (T_DIR, dir ++ dir_of (Z.of_nat (length rest) + 2) files) :: rest ++ contents files in
  room (lens fls) -> exists s', add_files ROOTINO files s = Some (tt, s') /\ fs_ok s' fls.
Proof.
  revert s dir rest. induction files as [|f files IH]; intros s dir rest Hfs Hns fls Hroom.
  { exists s. split; [done|]. unfold fls. cbn. by rewrite !app_nil_r. }
  apply Forall_cons in Hns as [Hf Hns]. cbn [add_files]. unfold mbind'.
  destruct (add_file_ok s dir rest f Hfs Hf) as (s1 & E1 & Hfs1).
  { eapply (room_mono _ (length (dir ++ dir_of (Z.of_nat (length rest) + 2) (f :: files)) :: lens (rest ++ [(T_FILE, concat (snd f))])) (lens (contents files))).
    - unfold lens. cbn [fmap list_fmap snd]. constructor; [|apply le_refl_all]. cbn [dir_of]. rewrite !length_app. lia.
    - cbn [app]. unfold fls, lens, contents in Hroom. cbn [fmap list_fmap snd] in Hroom. unfold lens, contents.
      rewrite fmap_app in Hroom |- *. cbn [fmap list_fmap snd] in *. by rewrite <- app_assoc. }
  rewrite E1. destruct (IH s1 _ _ Hfs1 Hns) as (s2 & E2 & Hfs2).
  - rewrite length_app. cbn [length]. replace (Z.of_nat (length rest + 1) + 2) with (Z.of_nat (length rest) + 2 + 1) by lia.
    rewrite <- !app_assoc. exact Hroom.
  - exists s2. split; [done|]. rewrite length_app in Hfs2. cbn [length] in Hfs2.
    replace (Z.of_nat (length rest + 1) + 2) with (Z.of_nat (length rest) + 2 + 1) in Hfs2 by lia.
    rewrite <- !app_assoc in Hfs2. exact Hfs2.
Qed.

(** ** The final image *)

Lemma blank_sector b : 0 <= b < FSSIZE -> img blank !! b = Some zeroes.
Proof.
  intros Hb. cbn [blank img]. apply elem_of_list_to_map.
  - rewrite <- list_fmap_compose. apply (NoDup_fmap_2 _). apply NoDup_seq.
  - apply list_elem_of_fmap. exists (Z.to_nat b). split; [f_equal; lia|]. apply elem_of_seq. lia.
Qed.

Definition with_super (s : image) : image := put_block s 1 (patch zeroes 0 (sb_bytes sb)).

Lemma blank_ok : fs_ok (with_super blank) [].
Proof.
  unfold with_super, put_block. change (freeinode blank) with 1. change (freeblock blank) with nmeta.
  pose proof nmeta_val. pose proof FSSIZE_val. pose proof blank_sector as Hb0. revert Hb0. generalize (img blank). intros m Hb0.
  split; cbn [img freeinode freeblock].
  - split; cbn [img freeblock].
    + intros b Hb. rewrite lookup_insert. case_decide; [by eexists|]. eexists. split; [by apply Hb0|done].
    + lia.
    + intros b Hb. rewrite lookup_insert_ne by lia. apply Hb0. lia.
  - by rewrite lookup_insert_eq.
  - reflexivity.
  - reflexivity.
  - intros k type data Hk. by rewrite lookup_nil in Hk.
  - intros j k tj dj tk dk b Hj. by rewrite lookup_nil in Hj.
Qed.

Lemma bitmap_bits n b : Z.of_nat n <= 8192 -> 0 <= b < 8192 ->
  length (bitmap (Z.of_nat n)) = 1024%nat /\ bit_at (bitmap (Z.of_nat n)) b = bool_decide (b < Z.of_nat n).
Proof.
  intros Hn Hb. unfold bitmap. rewrite Nat2Z.id. induction n as [|n IH].
  - split; [done|]. rewrite bool_decide_eq_false_2 by lia. cbn [seq foldl]. rewrite bit_at_spec. unfold zeroes.
    rewrite lookup_replicate_2; [apply Z.bits_0|]. change (Z.to_nat BSIZE) with 1024%nat. dlia.
  - destruct IH as [IH1 IH2]; [lia|]. rewrite seq_snoc, foldl_app. cbn [foldl]. rewrite length_set_bit. split; [done|].
    rewrite Nat.add_0_l, bit_at_set, IH2; [|lia|lia|rewrite IH1; dlia].
    destruct (bool_decide_reflect (Z.of_nat n = b)), (bool_decide_reflect (b < Z.of_nat n)), (bool_decide_reflect (b < Z.of_nat (S n)));
      done || lia.
Qed.

Lemma total_nonneg ls : nmeta <= total ls.
Proof. unfold total. induction ls as [|n ls IH]; cbn [foldr]; [lia|]. pose proof (cost_nonneg (nblk n)). lia. Qed.

(** The last steps of main(): the size of the root directory and the bitmap. *)
Definition finish (rootino : Z) : M unit :=
  mbind' (rinode rootino) (fun din =>
    mbind' (winode rootino (with_size (xint (u32 ((xint (d_size din) / BSIZE + 1) * BSIZE))) din)) (fun _ =>
      fun s => balloc (freeblock s) s)).

Lemma finish_ok s dir rest :
  fs_ok s ((T_DIR, dir) :: rest) -> room (lens ((T_DIR, dir) :: rest)) ->
  exists s', finish ROOTINO s = Some (tt, s') /\ freeblock s' = freeblock s /\ img s' !! 1 = img s !! 1 /\
    dino s' 1 = with_size ((Z.of_nat (length dir) / BSIZE + 1) * BSIZE) (dino s 1) /\ file s' (dino s' 1) dir /\
    (forall k type data, rest !! k = Some (type, data) -> at_inode s' (Z.of_nat k + 2) type data) /\
    forall b, 0 <= b < BPB -> bit_at (blk s' (sb_bmapstart sb)) b = bool_decide (b < freeblock s).
Proof.
  intros Hfs (R1 & R2 & R3). apply Forall_cons in R2 as [R2 _]. cbn [snd] in R2.
  pose proof (fo_ok _ _ Hfs) as Hok. pose proof (fo_blocks _ _ Hfs) as Hfb. pose proof (ok_free _ Hok) as Hfree.
  pose proof nmeta_val. pose proof FSSIZE_val. change BPB with 8192. change BSIZE with 1024 in *.
  assert (0 <= 1 < ninum) as H1 by (change ninum with 208; lia). pose proof (IBLOCK_range 1 H1) as Hr.
  destruct (ok_sect _ Hok (IBLOCK 1 sb)) as (l & El & Hl); [lia|].
  pose proof (fo_files _ _ Hfs 0%nat T_DIR dir eq_refl) as [A1 A2 A3 A4]. change (Z.of_nat 0 + 1) with 1 in *.
  set (off := (Z.of_nat (length dir) / 1024 + 1) * 1024). assert (0 <= off < 2 ^ 32) as Hoff by (unfold off; dlia).
  set (d' := with_size off (dino s 1)).
  assert (dinode_wf d') as Hwf.
  { pose proof (fl_maps _ _ _ A4) as Hm. apply (maps_wf s d' (nblk (length dir)) (has_ind (nblk (length dir)))); [destruct Hm; by split|lia|apply i16_range..|done]. }
  destruct (winode_ok s 1 d' Hok H1 Hwf) as (s1 & E1 & W1 & W2 & W3 & W4 & W5 & W6).
  set (s2 := put_block s1 45 (bitmap (freeblock s))).
  assert (forall j, 0 <= j < ninum -> dino s2 j = dino s1 j) as Hd2.
  { intros j Hj. pose proof (IBLOCK_range j Hj). unfold dino, blk, s2, put_block. cbn [img]. by rewrite lookup_insert_ne by lia. }
  assert (forall b, 46 <= b \/ b = 1 -> img s2 !! b = img s !! b) as Hs2.
  { intros b Hb. unfold s2, put_block. cbn [img]. rewrite lookup_insert_ne by lia. apply W4. lia. }
  assert (forall k type data, ((T_DIR, dir) :: rest) !! k = Some (type, data) -> file s2 (dino s (Z.of_nat k + 1)) data) as Hfiles.
  { intros k type data Hk. pose proof (fo_files _ _ Hfs _ _ _ Hk) as [_ _ _ B4].
    apply (file_frame s s2 _ data B4); [cbn; lia|]. intros b Hb. apply Hs2.
    pose proof (blocks_range _ _ _ _ _ b Hfs Hk Hb). lia. }
  exists s2. split_and!.
  - unfold finish, rinode, mbind', rsect. change ROOTINO with 1. rewrite El. unfold mret.
    assert (get_dinode l (dinode_off 1) = dino s 1) as -> by (unfold dino, blk; by rewrite El).
    rewrite A3, (xint_id (Z.of_nat (length dir))) by lia. change BSIZE with 1024. fold off. rewrite u32_small, xint_id by lia. fold d'. rewrite E1.
    unfold balloc, assert, mbind'. change (BSIZE * 8) with 8192. rewrite (proj2 (Z.ltb_lt _ _)) by lia. rewrite W5. done.
  - done.
  - apply Hs2. by right.
  - by rewrite Hd2, W2.
  - rewrite Hd2, W2 by done. pose proof (Hfiles 0%nat T_DIR dir eq_refl) as [[] ?]. change (Z.of_nat 0 + 1) with 1 in *. by split.
  - intros k type data Hk. pose proof (fo_files _ _ Hfs (S k) _ _ Hk) as [B1 B2 B3 B4]. pose proof (Hfiles (S k) _ _ Hk) as Hf.
    pose proof (lookup_lt_Some _ _ _ Hk). unfold lens in R3. rewrite length_fmap in R3. cbn [length] in R3.
    replace (Z.of_nat (S k) + 1) with (Z.of_nat k + 2) in * by lia.
    assert (dino s2 (Z.of_nat k + 2) = dino s (Z.of_nat k + 2)) as Ed by (rewrite Hd2, W3 by lia; done).
    split; by rewrite Ed.
  - intros b Hb. unfold blk, s2, put_block. cbn [img]. change (sb_bmapstart sb) with 45. rewrite lookup_insert_eq. cbn [default from_option id].
    destruct (bitmap_bits (Z.to_nat (freeblock s)) b) as [_ Hbit]; [lia|lia|]. rewrite Z2Nat.id in Hbit by lia. done.
Qed.

Lemma build_ok s files :
  fs_ok (with_super s) [] -> Forall no_slash files ->
  let dir := dirent 1 [46] ++ dirent 1 [46; 46] ++ dir_of 2 files in
  let fls := (T_DIR, dir) :: contents files in
  room (lens fls) ->
  exists s', build files s = Some (tt, s') /\ get_superblock (blk s' 1) = sb /\ freeblock s' = total (lens fls) /\
    d_type (dino s' 1) = T_DIR /\ d_nlink (dino s' 1) = 1 /\
    d_size (dino s' 1) = (Z.of_nat (length dir) / BSIZE + 1) * BSIZE /\ file s' (dino s' 1) dir /\
    (forall k path pieces, files !! k = Some (path, pieces) -> at_inode s' (Z.of_nat k + 2) T_FILE (concat pieces)) /\
    forall b, 0 <= b < BPB -> bit_at (blk s' (sb_bmapstart sb)) b = bool_decide (b < freeblock s').
Proof.
  intros H0 Hns dir fls Hroom. set (s0 := with_super s) in H0.
  destruct (ialloc_ok s0 [] T_DIR H0) as (s1 & E1 & H1); [done|done|]. cbn [app length] in E1, H1.
  assert (forall d, (length d <= length dir)%nat -> room (lens [(T_DIR, d)])) as Hr1.
  { intros d Hd. eapply (room_mono _ [length dir] (lens (contents files))); [|exact Hroom]. constructor; [done|constructor]. }
  destruct (append_ok s1 [(T_DIR, [])] 0 T_DIR [] (dirent 1 [46]) H1 eq_refl) as (s2 & E2 & H2).
  { apply Hr1. rewrite app_nil_l. unfold dir. rewrite length_app. lia. }
  cbn [app insert list_insert] in H2.
  destruct (append_ok s2 [(T_DIR, dirent 1 [46])] 0 T_DIR _ (dirent 1 [46; 46]) H2 eq_refl) as (s3 & E3 & H3).
  { apply Hr1. unfold dir. rewrite !length_app. lia. }
  cbn [insert list_insert] in H3.
  destruct (add_files_ok files s3 _ [] H3 Hns) as (s4 & E4 & H4); [by rewrite <- app_assoc|].
  rewrite <- app_assoc in H4. cbn [app] in H4.
  change (fs_ok s4 ((T_DIR, dir) :: contents files)) in H4.
  destruct (finish_ok s4 dir (contents files) H4 Hroom) as (s5 & E5 & F1 & F2 & F3 & F4 & F5 & F6).
  exists s5. pose proof (fo_files _ _ H4 0%nat T_DIR dir eq_refl) as [A1 A2 A3 A4]. change (Z.of_nat 0 + 1) with 1 in *.
  split_and!.
  - change (Z.of_nat 0 + 1) with 1 in E1, E2, E3. change ROOTINO with 1 in E4, E5. unfold build, mbind'.
    assert (wsect 1 (patch zeroes 0 (sb_bytes sb)) s = Some (tt, s0)) as -> by reflexivity. rewrite E1.
    assert (assert (1 =? ROOTINO) s1 = Some (tt, s1)) as -> by reflexivity. rewrite E2, E3, E4.
    unfold finish, mbind' in E5. exact E5.
  - unfold blk. rewrite F2, (fo_super _ _ H4). vm_compute. reflexivity.
  - rewrite F1. apply H4.
  - rewrite F3. exact A1.
  - rewrite F3. exact A2.
  - by rewrite F3.
  - done.
  - intros k path pieces Hk. apply F5. unfold contents. rewrite list_lookup_fmap, Hk. done.
  - intros b Hb. rewrite F1. by apply F6.
Qed.

(** C8: the image that mkfs builds for files whose names have no slash and
    that fit.  The kernel reads the superblock of the layout from block 1; the
    root directory is inode 1 and starts with its own entries and those of the
    files, in order; the [k]th file is inode [k + 2], a regular file with one
    link that holds exactly the bytes read from the host; and the bitmap marks
    exactly the blocks below the first free one, which is the number of blocks
    that the metadata and the files take. *)
Theorem mkfs_correct files :
  Forall no_slash files ->
  let dir := dirent 1 [46] ++ dirent 1 [46; 46] ++ dir_of 2 files in
  let fls := (T_DIR, dir) :: contents files in
  room (lens fls) ->
  exists s, main files = Some s /\ get_superblock (blk s 1) = sb /\ freeblock s = total (lens fls) /\
    d_type (dino s 1) = T_DIR /\ d_nlink (dino s 1) = 1 /\
    d_size (dino s 1) = (Z.of_nat (length dir) / BSIZE + 1) * BSIZE /\ file s (dino s 1) dir /\
    (forall k path pieces, files !! k = Some (path, pieces) -> at_inode s (Z.of_nat k + 2) T_FILE (concat pieces)) /\
    forall b, 0 <= b < BPB -> bit_at (blk s (sb_bmapstart sb)) b = bool_decide (b < freeblock s).
Proof.
  intros Hns dir fls Hroom. destruct (build_ok blank files blank_ok Hns Hroom) as (s & E & Hs). exists s. split; [|exact Hs].
  unfold main. by rewrite E.
Qed.

Lemma mkfs_correct_witness :
  exists s, main [(str "user/_cat", [str "abc"; str "def"])] = Some s /\
    file s (dino s 2) (str "abcdef") /\ d_size (dino s 1) = 1024.
Proof.
  destruct (mkfs_correct [(str "user/_cat", [str "abc"; str "def"])]) as (s & E & _ & _ & _ & _ & Hs & _ & Hf & _).
  - apply Forall_singleton. unfold no_slash. intros Hin. apply (bool_decide_pack _) in Hin. vm_compute in Hin. exact Hin.
  - split_and!; [vm_compute; discriminate| |vm_compute; reflexivity]. apply (bool_decide_unpack _). vm_compute. exact I.
  - exists s. split_and!; [exact E| |exact Hs]. exact (ai_file _ _ _ _ (Hf 0%nat _ _ eq_refl)).
Defined.
