(* ===== verification/Board.v ===== *)
(** * The system at work.

    A board for the machine of System: one hart, a serial port that is always
    ready, a disk that transfers at once and holds an image built by mkfs, and
    twelve free pages.  The kernel's tables are initialised as main() does,
    the first process has one page, and its program is a test of usertests.
    Everything between the test and the disk is the code of the library: the
    trap, the dispatch of the system call, its arguments fetched through the
    page table, descriptors, inodes, directories, the log, the buffer cache,
    fork, exit, wait, the scheduler and the timer. *)

From ITree Require Import ITree.
From S2P Require Import Prelude Defs KMonad Lock Mem Kalloc Sched Sleeplock Bio Machine Log Vm Pipe Uart Fs Console File Proc Exec Sysfile Virtio Trap Boot Mkfs System Usys Ulib Uprogs Utests UtestsProc UtestsFs UtestsMain.
Local Open Scope user_scope.

(** ** The hardware *)

(** No device but the timer interrupts. *)
#[export] Instance board_virtio : Virtio := {| vread := fun _ => KMonad.ret 0; vwrite := fun _ _ => KMonad.ret tt |}.
#[export] Instance board_plic : Plic := {| plic_read := fun _ => KMonad.ret 0; plic_write := fun _ _ => KMonad.ret tt |}.
#[export] Instance board_vectors : TrapVectors := {| kernelvec := KERNBASE + 0x5000; uservec_off := 0; userret_off := 0x9c |}.
(** The longest wait in a loop of the kernel. *)
#[export] Instance board_fuel : Fuel := {| fuel := 20; fuel_pos := ltac:(lia) |}.
#[export] Instance board_image : KernelImage := {|
  end_ := PHYSTOP - 32 * PGSIZE; etext := KERNBASE + 0x8000; trampoline := KERNBASE + 0x7000;
  forkret_addr := KERNBASE + 0x1000; usertrap_addr := KERNBASE + 0x2000;
  image_layout := ltac:(vm_compute; split; [done|split; done]) |}.

(** ** Memory *)

(** The [i]th page below the top of memory.  Pages 0, 1 and 2 are the page
    table of the first process, page 3 is its memory, pages 4 to 15 are free
    and page 31 holds its trap frame. *)
Definition page (i : Z) : Z := PHYSTOP - (i + 1) * PGSIZE.
Definition links (n : nat) : gmap Z Z :=
  foldr (fun i m => store64 m (page i) (if i =? 4 then 0 else page (i - 1))) ∅ (seqZ 4 (Z.of_nat n)).
Definition board_mem : gmap Z Z :=
  store64 (store64 (store64 (links 12)
    (page 0) (Z.lor (PA2PTE (page 1)) PTE_V))
    (page 1) (Z.lor (PA2PTE (page 2)) PTE_V))
    (page 2) (Z.lor (PA2PTE (page 3)) (Z.lor PTE_V (Z.lor PTE_R (Z.lor PTE_W PTE_U)))).
Definition board_tf : Z := page 31.

(** ** The disk *)

(** mkfs's image with two files; the size of the root directory is that of
    its four entries, where mkfs rounds it up to a block. *)
Definition board_files : list (list Z * list (list Z)) :=
  [(str "README", [str "hello readme"]); (str "user/_echo", [str "echo"])].
Definition board_disk : gmap Z (list Z) :=
  match Mkfs.mbind' (Mkfs.build board_files) (fun _ =>
        Mkfs.mbind' (Mkfs.rinode ROOTINO) (fun d =>
        Mkfs.winode ROOTINO (Mkfs.with_size 64 d))) Mkfs.blank with
  | Some (_, i) => img i
  | None => ∅
  end.

(** ** Running a test *)

Definition board_state : kstate :=
  zero_state <| ks_disk := board_disk |> <| ks_mem := board_mem |> <| ks_freelist := page 15 |>
             <| ks_tframes := {[board_tf := junk_tf]} |> <| ks_nextpid := 2 |>.
Definition board_boot : K unit :=
  initlock L_kmem "kmem" ;; procinit ;; trapinit ;; trapinithart ;; binit ;; iinit ;; fileinit ;;
  (let! cwd := namei (str "/") in
   set_proc 0 (fun x => x <| p_cwd := cwd |> <| p_pid := 1 |> <| p_state := RUNNABLE |>
                          <| p_trapframe := board_tf |> <| p_pagetable := page 0 |> <| p_sz := PGSIZE |>)) ;;
  scheduler 100.
(** The objects of a test are in its page. *)
Definition board_space : uspace := mk_uspace 0x100 0x200 0x300 0x420 0x600.
(** [n] steps of the machine. *)
Definition board_run (t : U unit) (n : nat) : config :=
  steps board_space 50 (fun _ _ => Ret tt) (fun _ => KMonad.ret tt) n
    (power_on 50 (board_boot board_state) t []).
(** The first process is back in its program, which has returned: it has not
    called exit(), as a test does that finds a fault. *)
Definition returned (c : config) : bool :=
  match cf_mode c with
  | In_user p t _ => (p =? 0)%nat && match observe t with RetF _ => true | _ => false end
  | _ => false
  end.
Definition passes (t : U unit) : Prop := exists n, returned (board_run t n) = true.

(** run(): the test in a child, whose status is fetched with wait(). *)
Definition run_ok (t : list Z -> U unit) (s : list Z) : U unit :=
  let* r := UtestsMain.run 0 t s in
  if r : bool then Ret tt else exit 1.

Lemma passes_truncate1 : returned (board_run (truncate1 (str "truncate1")) 1000) = true.
Proof. vm_cast_no_check (@eq_refl bool true). Qed.
Lemma passes_linktest : returned (board_run (linktest (str "linktest")) 1000) = true.
Proof. vm_cast_no_check (@eq_refl bool true). Qed.
Lemma passes_iput : returned (board_run (run_ok iputtest (str "iput")) 1000) = true.
Proof. vm_cast_no_check (@eq_refl bool true). Qed.

